(* ===== verification/_CoqProject ===== *)
-Q . S2P
Prelude.v
GoBytes.v
GoCodecs.v
GoStrings.v
Actions.v
Bolt.v
Limits.v
Ledger.v
Billing.v
Nonces.v
Sessions.v
SessionsSpec.v
Redemptions.v
RedemptionsSpec.v
Mints.v
Wholesale.v
Fences.v
Funding.v
WholesaleInv.v
WholesaleSteps.v
WholesaleSpec.v
WholesaleOps.v
WholesaleDemo.v
Tickets.v
TicketsSpec.v
Escrow.v
ChainErrors.v
TxIntent.v
Settlement.v
SettlementSpec.v
Receiver.v
ReceiverSpec.v
Types.v
Relay.v
Spendauth.v
TxProcessor.v
TxIntentSpec.v
TxProcessorSpec.v
Sender.v
Payments.v
PaymentsSpec.v
PaymentsExact.v
PaymentsRetry.v
Admission.v
AdmissionSpec.v
Handshake.v
RevenueReport.v
ServiceSpec.v
WorkLedger.v
WorkClient.v
WorkLedgerSpec.v
WorkClientSpec.v
SessionStore.v
JobStore.v
NonAdmission.v
EvidenceSpec.v
EngineTypes.v
SessionSettlement.v
SessionRevisions.v
SessionEngine.v
SessionOpen.v
SessionSweep.v
EngineLogic.v
SessionLife.v
SessionForward.v
SessionLifeSpec.v
SessionSpec.v
PoolTypes.v
PoolAccounting.v
PoolRevenue.v
PoolStore.v
PoolRegional.v
PoolIntents.v
PoolSettlement.v
PoolInv.v
PoolSpec.v
PayoutEngine.v
PayoutExecutor.v
PayoutInv.v
PayoutSpec.v
