(* ===== verification/Prelude.v ===== *)
(** * Verification of livepeer-network-modules

    The repository is a family of Go programs that route paid work between
    gateways and orchestrators.  Money moves through the payment daemon
    (src/payment-daemon): payers sign probabilistic tickets, the payee validates
    them, credits their expected value, bills work against the credit, and
    redeems winning tickets on chain.  The capability broker
    (src/capability-broker) runs the work and records what it billed and to
    whom; transactions to the chain go through the intents of src/chain-commons.
    The pool controller (src/pool-controller) collects what the brokers and
    daemons of a region report, divides it among the members who did the work
    and has it paid out; the payout executor (src/pool-payout-executor) claims
    the payouts and sends them.  This development models the daemon's ledger and
    both of its services, the intents, of the broker the work ledger, the session
    store, the engine of paid sessions and the endpoint that signs evidence of
    non-admission, the controller's accounting, and the executor, and proves what
    makes them correct.

    ** The program's parts and the files that model them

    - Foundations.  [GoBytes], [GoCodecs] and [GoStrings] model what the code
      uses of Go's standard library: byte strings, big-endian integers,
      big.Int's decimal and byte forms, hex, SHA-256, base64, JSON strings,
      TrimSpace, Split, the text of times and numbers and the like.  [Actions] has
      computations on a state that may fail, with the logics their theorems are
      proved in.  This file has the error values, the result type, machine
      integers, the hint database, sums over maps and the update notation for
      large records.
    - The payment daemon's store, internal/store, keeps everything in bbolt
      buckets.  [Bolt] states what the code relies on of bbolt (a class, with
      [gmap string] as instance; transactions that commit or roll back);
      [Ledger] has the records and the database [DB] with one field per bucket.
      [Sessions] (store.go), [Billing] (BillFor, parseDecimalBig), [Nonces]
      (nonces.go, noncewatermark.go), [Redemptions] (redemptions.go), [Mints]
      (mints.go), [Wholesale] (wholesale.go), [Fences] (unexecuted.go,
      admission_recovery.go, source_fence.go, settlement_domain.go,
      isolation.go) and [Funding] (funding.go) define one function per
      operation, from the database to its answer and the new database.
    - Tickets, internal/types and internal/service/receiver/validator:
      [Tickets]; the protobuf and JSON forms of ticket parameters, and the
      payer's fetch of them, [Types].  go-ethereum's functions are the class
      [EthCrypto].
    - Escrow, internal/service/escrow: [Escrow].  Settlement,
      internal/service/settlement: [Settlement], one tick on the queue of
      [Redemptions] and the float of [Escrow]; the chain's answers of a tick are
      a record [tick].
    - The payee's handlers, internal/service/receiver: [Receiver] (sessions,
      payments, balances, ticket parameters, funding) and [Admission] (the life
      of a spend authorization), each handler composed of the store operations
      it calls.  [decode] stands for proto.Unmarshal, [rand] for crypto/rand,
      [now] for the clock.  [Spendauth] (internal/spendauth) checks the
      authorizations' signatures.  [RevenueReport]: internal/service/revenuereport.
    - The payer, internal/service/sender: [Sender] (quotes, sessions, nonces,
      signing), [Payments] (the RPCs), [Limits] (limits.go).  The keystore,
      protobuf, the quote exchange and the scheme of payee URIs are the class
      [PayerWire].  [Relay] is the broker's part in a quote
      (capability-broker/internal/server/payment_ticket_params.go), so that
      payer, broker and payee compose; [Handshake] composes the payer's
      authorizations with the payee's admission.
    - Transaction intents, chain-commons/services/txintent: [TxIntent] (types.go,
      manager.go: the durable manager and its waiters) and [TxProcessor]
      (processor.go: the loop that signs, broadcasts, waits and replaces).  The
      node, gas oracle, receipts and clock answer through a [World].
      [ChainErrors]: chain-commons/errors.
    - The broker's work ledger, capability-broker/internal/workledger:
      [WorkLedger] (the store: store.go, baseline.go, terms.go, drain.go,
      device_drain.go) and [WorkClient] (the client in front of the payee:
      client.go, admission_recovery.go, recovery.go, device_drain.go).  The
      payee, the revenue reader and the receipt sink are the class
      [AccountClient].
    - The broker's session store, capability-broker/internal/sessionstore:
      [SessionStore] (sessions, opens in flight, revisions, evidence coverage) and
      [JobStore] (the exchanges: jobs.go, job_recovery.go).  The endpoint of
      internal/server/nonadmission.go: [NonAdmission], on that store.
    - The session engine, capability-broker/internal/sessionengine:
      [EngineTypes] (errors, offerings, the engine's state and the class
      [Outside] of all it calls: payee, runners, capacity counters, disk),
      [SessionSettlement] (settlement.go, reconciliation.go),
      [SessionRevisions] (revisions.go, revision_decisions.go and
      ReviseAuthorization), [SessionEngine] (events and winddown), [SessionOpen]
      (opens and their recovery: descriptor.go, engine.go, open_recovery.go,
      capacity.go), [SessionSweep] (New, Sweep, Recover).  Each
      write to the store may fail, each answer is the outside's.
    - The pool controller's books, pool-controller/internal/repo, types,
      accounting, payoutpolicy, service/settlement, and the endpoints of
      internal/server/admin and cmd/livepeer-pool-controller/main.go that move
      payouts: [PoolTypes] (records, and the database [PoolDB]), [PoolRevenue]
      (the evidence of pool-commons/revenue), [PoolStore] (terms and their
      acceptance, sources, receipts, guarded writes), [PoolAccounting] (modelb.go,
      the division of a window), [PoolRegional] (the payout policy, policy.go;
      rounds, corrections, windows, approval, intents in the store),
      [PoolIntents] (the endpoints: list, derive, export, claim, renew, release,
      requeue, status, round close, approval), [PoolSettlement] (windows without
      registered sources and their automatic close).
    - The payout executor: [PayoutEngine] (internal/payouts, engine.go and
      identity.go: one transaction intent per payout on [TxIntent] and
      [TxProcessor], the goroutines that process them, and the identity a store
      is bound to) and [PayoutExecutor] (the client of internal/poolcontroller,
      the records of internal/repo and the commands of
      cmd/livepeer-pool-payout-executor/main.go).  The wallet and the node answer
      through a [Chain], requests reach the endpoints of [PoolIntents] through a
      [Net] that may lose them or their answers; a [Site] is the controller's
      database, the engine and the records together.

    ** How data is represented

    A Go string or byte slice is a [string] of bytes, with nil and empty alike;
    where the code tells a nil pointer apart it is an [option].  Amounts are
    decimal strings in records, as the code stores them, and [Z] in
    computations; uint64 and uint32 counters wrap through [u64] and [u32], int64
    through [i64].  Times are [Z] nanoseconds.  A bucket that the code creates
    lazily is an [option].  A record stands for its JSON, protobuf or msgpack;
    decoding errors of stored rows are not modelled.  The variadic account id is
    one string, empty for none.  Results returned beside an error are dropped,
    as callers ignore them.  Formatted details of error messages are left out,
    but for the reasons a transaction intent fails with, which are stored.

    ** What the theorems show

    - [WholesaleSpec]: a step relation over all operations that touch the
      wholesale ledger; every reachable ledger is solvent, its books balance,
      its authorizations stay within their signed caps, its totals are exact;
      canceled and closed authorizations stay so.  [WholesaleInv] and
      [WholesaleSteps] carry the invariant.  [WholesaleOps]: the exact effect of
      settlement, advance, admission, funding, freeze and domain binding;
      [WholesaleDemo] runs them on concrete ledgers.
    - [ServiceSpec] and [AdmissionSpec]: every RPC of the payee that touches the
      wholesale ledger is a sequence of those steps, so the invariants hold of
      the running service; what is admitted was signed by the payer.
    - [SessionsSpec]: cumulative billing without drift, free replays, pricing
      once, compare-and-swap rotation, and three defects of sealing, re-opening
      and the legacy index key.
    - [Nonces], [Mints]: replay protection, strictly increasing payer nonces, one
      mint per intent.
    - [RedemptionsSpec]: the bucket encoding refines a first-in first-out list;
      settled tickets never return; revenue counts a ticket once.
    - [TicketsSpec]: the ticket hash binds its fields; validation is sound and
      refuses the malleated signature.
    - [Escrow], [SettlementSpec]: bounds of the float; the outcome of every tick,
      the guards of a submission, arrival order, success when the chain
      confirms, and the starvation after a restart.
    - [ReceiverSpec]: ticket parameters worth exactly the requested value,
      balance checks that agree with billing, payments and fundings credited
      exactly once, and two defects (unbounded win probability, sign of an
      overdraft).
    - [PaymentsSpec], [PaymentsExact], [PaymentsRetry]: a mint
      id signs once; a payment is worth exactly the shortfall it funds; no
      ticket slot is signed twice; what a retry replays; where the spend limits
      are evaded.  [Limits]: the printed price policy parses back.
    - [Handshake]: what the payer signs the payee admits; a padded scope is the
      exception.  [Relay]: a quote survives the broker unchanged.
      [RevenueReport]: a complete report agrees with the ledger.
    - [TxIntentSpec]: the stored form loses only the cause of a failure and
      whether an amount was set; every reachable manager is well formed and final
      states stay; a waiter that registers late sleeps for ever.  [TxProcessorSpec]: one nonce per run, at most 5 transactions and 15
      outside calls per iteration, an end when the outside cooperates, and two
      defects (an outage, a replacement that loses to its original).
    - [WorkLedgerSpec]: receipts add up to what was billed, item by item, and are
      never changed; a round reported complete never changes; units that cost nothing are never receipted.
      [WorkClientSpec]: one refused operation blocks everybody's receipts.
    - [EvidenceSpec]: over all operations of the session store, a newly signed
      statement of non-admission is true of all that went before, and stays true.
    - [EngineLogic] has the rules by which the engine's computations are followed,
      [SessionLife] the order in which a session's record may change and what
      makes it good, [SessionForward] and [SessionLifeSpec] that every call keeps
      to both, with failing writes and any answers from outside.  [SessionSpec]:
      the life of a session, events counted once, an end with the payee's
      figures when the outside does its part, and a released amount that a retry
      loses for good; and a concrete outside for the witnesses.
    - [PoolInv]: every write of the controller keeps the books (closed rounds,
      the windows made of them, the intents made of those) and never changes
      what is closed or paid.  [PoolSpec]: hence payouts and the operator's part
      stay within what was collected; the division of a window to the wei, in
      any order of the receipts; the bounds of an automatic approval; that what a
      broker's work ledger reports passes both checks of the controller, the
      validation and the comparison with its receipts; and three defects
      (reports after a lease ran out, a round's name used twice, windows without
      sources).
    - [PayoutInv]: every call of the payout engine and every turn of its
      goroutines keeps what was sent for an intent at the nonce of its current
      attempt, leaves settled intents alone and keeps a bound store to its wallet
      and chain.  [PayoutSpec]: hence, over all lives of a store, a payout is sent
      once; at a site, the commands that confirm and send report only confirmed
      payouts paid; and three defects (failed payouts are never sent again, an
      idle round ends the loop, a pool's executor refuses every answer of its
      controller).  The operator's mark-submitted, mark-paid and mark-failed are
      modelled, and the trace of a site notes them apart: the executor takes him
      at his word.

    ** Assumptions, bounds and fuel

    The nonce theorems are for nonces in uint32 and rands that are not negative,
    as genRand makes them; the queue theorems for fewer than 2^64 enqueues.
    A wholesale step comes from a 20-byte payer with an account id without NUL,
    whose authorization identity does not collide under SHA-256 with a stored
    one ([honest]), and FundWholesale, which also moves a negative balance, is
    taken on sessions that are not overdrawn ([fundable]), both in
    [WholesaleSteps].  Recursion is structural nearly everywhere.  The fuel is
    the bit length in big.Int printing ([bits_fuel]), proved sufficient by the
    round trips of [GoBytes]; the processor's loops run as often as their
    configuration allows (MaxReplacements iterations, maxNonceRetries retries),
    which is the code's own bound; the controller's loop over ended windows takes
    one step per window, proved enough in [PoolInv].  The invariant of the books
    is for rounds named after their number, as the reconciler names them, and
    terms whose rounds fit in a uint64 ([proper_op]); that the name matters is
    one of the defects.  The executor's goroutines run when a schedule says so,
    in halves of the processor's loop; a schedule is finite, as a call's context
    ends, and so is the number of rounds of reconcile-loop.  Hash injectivity is never assumed globally:
    theorems name the two inputs that must not collide.

    ** What is not modelled

    Logging, metrics, gRPC and HTTP transport, process wiring, and the chain
    itself.  The mutexes are not modelled: bbolt serialises transactions, each
    handler is a sequence of them, and handlers run one after the other; the
    exception is Wait of the intents, whose two steps are apart because the
    difference shows.  identity.BrokerURI needs net/url and is a parameter.
    Left out because they decide nothing about money or evidence: the HTTP
    server, extractors and offers of src/capability-broker, the chain providers
    of src/chain-commons (RPC clients), the controller's placement, scoring and
    certification of machines, the executor's run history and the commands that
    only print, the polling processes around the modelled endpoints
    (pool-reconciler, pool-member-agent), and the round services and operator programs (protocol-daemon, orch-coordinator,
    secure-orch-console, service-registry-daemon, member-portal). *)
From stdpp Require Export base tactics numbers list strings fin_maps gmap sorting relations.
From Stdlib Require Export ZArith Lia.

#[export] Set Default Goal Selector "!".

Open Scope Z_scope.

Declare Scope go_scope.
Delimit Scope go_scope with go.
Open Scope go_scope.

(** ** Go error values

    The sentinels are the package-level [errors.New] values of
    payment-daemon/internal/store; [ErrMsg] stands for an error built in place
    from a constant message (the formatted details are not kept). *)
Inductive error :=
  | ErrNotFound
  | ErrClosed
  | ErrSenderMismatch
  | ErrPricingConflict
  | ErrPricingUnset
  | ErrNonceAlreadySeen
  | ErrTooManyNonces
  | ErrMintFingerprintMismatch
  | ErrMintExpired
  | ErrMintIncomplete
  | ErrAuthorizationFingerprint
  | ErrAuthorizationNotFound
  | ErrAuthorizationState
  | ErrAuthorizationSettlement
  | ErrInsufficientWholesale
  | ErrAuthorizationCanceled
  | ErrRevisionPredecessor
  | ErrRevisionLimits
  | ErrReservationExceedsRemaining
  | ErrMsg (msg : string).

#[export] Instance error_eq_dec : EqDecision error.
Proof. solve_decision. Defined.

(** [errors.Is err target]: the four admission sentinels of
    admission_recovery.go wrap [ErrAuthorizationState] with [%w]. *)
Definition errors_Is (err target : error) : bool :=
  bool_decide (err = target) ||
  match err with
  | ErrAuthorizationCanceled | ErrRevisionPredecessor
  | ErrRevisionLimits | ErrReservationExceedsRemaining =>
      bool_decide (target = ErrAuthorizationState)
  | _ => false
  end.

(** ** The result type of fallible code, generic in the error *)
Inductive result (E A : Type) :=
  | Ok (a : A)
  | Err (e : E).
Arguments Ok {E A} a.
Arguments Err {E A} e.

#[export] Instance result_eq_dec `{EqDecision E, EqDecision A} : EqDecision (result E A).
Proof. solve_decision. Defined.

(** Sequencing of fallible steps: an error returns early. *)
Notation "'let!' x := m 'in' k" :=
  (match m with Ok x => k | Err e => Err e end)
  (at level 10, x pattern, m at level 100, k at level 200)
  : go_scope.

Definition is_ok {E A} (r : result E A) : bool :=
  match r with Ok _ => true | Err _ => false end.

(** ** Machine integers: [uint64], [uint32] as [Z] with their wrap-around *)
Definition two64 : Z := 18446744073709551616.
Definition two32 : Z := 4294967296.
Definition u64 (x : Z) : Z := x mod two64.
Definition u32 (x : Z) : Z := x mod two32.

Lemma u64_small x : 0 <= x < two64 -> u64 x = x.
Proof. apply Z.mod_small. Qed.

(** [int64] arithmetic. *)
Definition i64 (x : Z) : Z := (x + 2 ^ 63) mod two64 - 2 ^ 63.

Lemma i64_small x : - 2 ^ 63 <= x < 2 ^ 63 -> i64 x = x.
Proof. intros Hx. unfold i64. rewrite Z.mod_small; [lia|]. unfold two64. lia. Qed.

Lemma u64_range x : 0 <= u64 x < two64.
Proof. apply Z.mod_pos_bound. done. Qed.

(** ** Proof automation shared by the components *)
Create HintDb ledger discriminated.
#[export] Hint Resolve u64_range : ledger.

(** Reduce the boolean tests the code branches on to propositions. *)
Ltac to_prop :=
  repeat match goal with
  | H : (_ || _)%bool = true |- _ => apply orb_true_iff in H
  | H : (_ || _)%bool = false |- _ => apply orb_false_iff in H as [? ?]
  | H : (_ && _)%bool = true |- _ => apply andb_true_iff in H as [? ?]
  | H : (_ && _)%bool = false |- _ => apply andb_false_iff in H
  | H : negb _ = true |- _ => apply negb_true_iff in H
  | H : negb _ = false |- _ => apply negb_false_iff in H
  | H : bool_decide _ = true |- _ => apply bool_decide_eq_true in H
  | H : bool_decide _ = false |- _ => apply bool_decide_eq_false in H
  | H : Z.eqb _ _ = true |- _ => apply Z.eqb_eq in H
  | H : Z.eqb _ _ = false |- _ => apply Z.eqb_neq in H
  | H : Z.leb _ _ = true |- _ => apply Z.leb_le in H
  | H : Z.leb _ _ = false |- _ => apply Z.leb_gt in H
  | H : Z.ltb _ _ = true |- _ => apply Z.ltb_lt in H
  | H : Z.ltb _ _ = false |- _ => apply Z.ltb_ge in H
  end.

(** Walk down the successful path of a [let!]/[if]/[match] chain. *)
Ltac ok_step H :=
  match type of H with
  | context [match ?x with _ => _ end] =>
      lazymatch x with
      | context [match _ with _ => _ end] => fail
      | _ => destruct x eqn:?
      end; cbn beta iota in H; try discriminate H
  end.
Ltac inv_ok H := repeat ok_step H; simplify_eq H || idtac; to_prop.

(** Equality of closed terms by evaluation. *)
Ltac vm_refl := match goal with |- ?x = ?y => exact (@eq_refl _ y <: x = y) end.

(** An operation's answer determines the pair it returns, the new state being
    named by projection. *)
Lemma answer {A B} (p : A * B) a : p.1 = a -> p = (a, p.2).
Proof. destruct p. by intros <-. Qed.

Lemma StronglySorted_filter {A} (R : relation A) (P : A -> Prop) `{!forall x, Decision (P x)} l :
  StronglySorted R l -> StronglySorted R (filter P l).
Proof.
  induction 1 as [|x l _ IH Hx]; [constructor|]. rewrite filter_cons. case_decide; [|done].
  constructor; [done|]. rewrite Forall_forall in *. intros y [_ Hy]%list_elem_of_filter. by apply Hx.
Qed.

(** ** Sums over finite maps *)
Section msum.
Context `{FinMap K M} {A : Type}.
Implicit Types (m : M A) (f : K -> A -> Z).

Definition msum f m : Z := map_fold (fun k x acc => f k x + acc) 0 m.

Lemma msum_empty f : msum f ∅ = 0.
Proof. apply map_fold_empty. Qed.

Lemma msum_insert_new f m k x :
  m !! k = None -> msum f (<[k:=x]> m) = f k x + msum f m.
Proof.
  intros Hk. unfold msum. rewrite map_fold_insert_L; [done | | done].
  intros; lia.
Qed.

Lemma msum_delete f m k x :
  m !! k = Some x -> msum f m = f k x + msum f (delete k m).
Proof.
  intros Hk. unfold msum. rewrite (map_fold_delete_L _ _ k x m); [done | | done].
  intros; lia.
Qed.

(** What a [Put] does to a sum: the old row's share is replaced. *)
Lemma msum_insert f m k x :
  msum f (<[k:=x]> m) = msum f m - default 0 (f k <$> m !! k) + f k x.
Proof.
  destruct (m !! k) as [y|] eqn:Hk; simpl.
  - rewrite (msum_delete f m k y Hk).
    rewrite <- insert_delete_eq, msum_insert_new; [lia|].
    apply lookup_delete_eq.
  - rewrite msum_insert_new by done. lia.
Qed.

(** The sum in any enumeration order. *)
Lemma msum_list f m l :
  l ≡ₚ map_to_list m -> msum f m = foldr (fun kx acc => f kx.1 kx.2 + acc) 0 l.
Proof.
  intros Hl. assert (forall l l' : list (K * A), l ≡ₚ l' ->
    foldr (fun kx acc => f kx.1 kx.2 + acc) 0 l = foldr (fun kx acc => f kx.1 kx.2 + acc) 0 l') as Hp.
  { induction 1; simpl; lia. }
  rewrite (Hp _ _ Hl). clear l Hl. induction m as [|k x m Hk IH] using map_ind.
  - by rewrite msum_empty, map_to_list_empty.
  - by rewrite msum_insert_new, (Hp _ _ (map_to_list_insert m k x Hk)), IH.
Qed.

Lemma msum_ext f g m :
  (forall k x, m !! k = Some x -> f k x = g k x) -> msum f m = msum g m.
Proof.
  induction m as [|k x m Hk IH] using map_ind; intros Hfg.
  - by rewrite !msum_empty.
  - rewrite !msum_insert_new by done. rewrite (Hfg k x) by apply lookup_insert_eq.
    rewrite IH; [done|]. intros k' x' Hk'. apply Hfg.
    rewrite lookup_insert_ne; [done|]. congruence.
Qed.

Lemma msum_nonneg f m :
  (forall k x, m !! k = Some x -> 0 <= f k x) -> 0 <= msum f m.
Proof.
  induction m as [|k x m Hk IH] using map_ind; intros Hf.
  - by rewrite msum_empty.
  - rewrite msum_insert_new by done.
    assert (0 <= f k x) by (apply Hf, lookup_insert_eq).
    assert (0 <= msum f m); [|lia]. apply IH. intros k' x' Hk'. apply Hf.
    rewrite lookup_insert_ne; [done|]. congruence.
Qed.

(** One row is at most the whole, when no row is negative. *)
Lemma msum_ge_one f m k x :
  (forall k x, m !! k = Some x -> 0 <= f k x) ->
  m !! k = Some x -> f k x <= msum f m.
Proof.
  intros Hf Hk. rewrite (msum_delete f m k x Hk).
  assert (0 <= msum f (delete k m)); [|lia]. apply msum_nonneg.
  intros k' x' [_ Hk']%lookup_delete_Some. by eapply Hf.
Qed.
End msum.

(** ** Updating one field of a record

    Go assigns to the fields of a struct it copied out of a bucket.  [r <| f :=
    v |>] is the record [r] with field [f] replaced.  A record type declares its
    constructor applied to its own fields ([Eta]); the setter of a field is that
    term with the field abstracted. *)
Class Eta (R : Type) := eta : R -> R.

Class Setter {R T : Type} (f : R -> T) := setter : T -> R -> R.
Arguments setter {R T} f {_} _ _.

Ltac solve_setter :=
  match goal with
  | |- @Setter ?R ?T ?f =>
      let i := constr:(_ : Eta R) in
      let e := eval hnf in (i : R -> R) in
      match eval pattern f in e with
      | ?G _ => let s := eval cbv beta in (fun (v : T) (r : R) => G (fun _ => v) r) in exact s
      end
  end.
#[export] Hint Extern 0 (@Setter _ _ _) => solve_setter : typeclass_instances.

Declare Scope record_scope.
Delimit Scope record_scope with rec.
Notation "r '<|' f := v '|>'" := (setter f v r)
  (at level 1, left associativity, f at next level, v at level 200, format "r  <| f  :=  v |>") : record_scope.
#[export] Hint Unfold setter : core.
