(* ===== verification/GoBytes.v ===== *)
(** * Go byte strings and the standard-library codecs the ledger keys use

    A Go [string] or [[]byte] is a [string] of 8-bit characters (the empty
    slice and the nil slice are both [""]; where the code tells them apart an
    [option string] is used).  This file models what the source calls of
    [encoding/binary], [encoding/hex], [math/big] (decimal and byte forms),
    [fmt] ("%020d") and [strings]/[bytes], with their round trips. *)
From S2P Require Import Prelude.
From Stdlib Require Import Ascii.

(** stdpp blocks the reduction of [+:+]; the codecs here compute with it. *)
#[global] Arguments String.append s1 s2 : simpl nomatch.

(** ** Bytes *)
Definition byte_of (n : Z) : ascii := ascii_of_N (Z.to_N n).
Definition byte_val (c : ascii) : Z := Z.of_N (N_of_ascii c).
Definition len (s : string) : Z := Z.of_nat (String.length s).

Lemma byte_val_of n : 0 <= n < 256 -> byte_val (byte_of n) = n.
Proof.
  intros Hn. unfold byte_val, byte_of. rewrite N_ascii_embedding; lia.
Qed.

Lemma byte_of_val c : byte_of (byte_val c) = c.
Proof. unfold byte_of, byte_val. rewrite N2Z.id. apply ascii_N_embedding. Qed.

Lemma byte_val_range c : 0 <= byte_val c < 256.
Proof. unfold byte_val. pose proof (N_ascii_bounded c). lia. Qed.

#[export] Instance byte_val_inj : Inj (=) (=) byte_val.
Proof. intros a b Hab. by rewrite <- (byte_of_val a), <- (byte_of_val b), Hab. Qed.

(** ** Concatenation *)
Lemma len_app a b : len (a +:+ b) = len a + len b.
Proof. unfold len. induction a as [|c a IH]; simpl in *; lia. Qed.

Lemma len_nonneg s : 0 <= len s.
Proof. unfold len. lia. Qed.

Lemma app_inv_len a b x y : len a = len b -> a +:+ x = b +:+ y -> a = b /\ x = y.
Proof.
  unfold len. revert b. induction a as [|c a IH]; intros [|d b] Hl Heq; simpl in *; try lia; [done|].
  injection Heq as -> Heq. destruct (IH b) as [-> ->]; [lia|done|done].
Qed.

Lemma app_inv_len_r a b x y : len x = len y -> a +:+ x = b +:+ y -> a = b /\ x = y.
Proof.
  intros Hl Heq. apply app_inv_len; [|done].
  apply (f_equal len) in Heq. rewrite !len_app in Heq. lia.
Qed.

Lemma app_assoc_str a b c : (a +:+ b) +:+ c = a +:+ (b +:+ c).
Proof. induction a as [|x a IH]; [done|]. cbn. by rewrite IH. Qed.

Lemma app_nil_str a : a +:+ "" = a.
Proof. induction a as [|x a IH]; [done|]. cbn. by rewrite IH. Qed.

Fixpoint all_bytes (P : ascii -> bool) (s : string) : bool :=
  match s with
  | "" => true
  | String c s' => P c && all_bytes P s'
  end.

Lemma all_bytes_impl (P Q : ascii -> bool) s :
  (forall c, P c = true -> Q c = true) -> all_bytes P s = true -> all_bytes Q s = true.
Proof.
  intros HPQ. induction s as [|c s IH]; [done|]. cbn. intros [Hc Hs]%andb_true_iff.
  by rewrite (HPQ _ Hc), (IH Hs).
Qed.

Lemma all_bytes_app P a b : all_bytes P (a +:+ b) = all_bytes P a && all_bytes P b.
Proof. induction a as [|c a IH]; [done|]. cbn. by rewrite IH, andb_assoc. Qed.

(** A separator that occurs in neither left part splits a concatenation
    uniquely. *)
Lemma app_sep_inj (c : ascii) a b x y :
  all_bytes (fun d => negb (bool_decide (d = c))) a = true ->
  all_bytes (fun d => negb (bool_decide (d = c))) b = true ->
  a +:+ String c x = b +:+ String c y -> a = b /\ x = y.
Proof.
  revert b. induction a as [|d a IH]; intros [|e b]; cbn; intros Ha Hb Heq;
    simplify_eq; to_prop; try done.
  destruct (IH b) as [-> ->]; done.
Qed.

(** The same for a separator that occurs in neither right part. *)
Lemma app_sep_inj_r (c : ascii) a b x y :
  all_bytes (fun d => negb (bool_decide (d = c))) x = true ->
  all_bytes (fun d => negb (bool_decide (d = c))) y = true ->
  a +:+ String c x = b +:+ String c y -> a = b /\ x = y.
Proof.
  assert (forall s, all_bytes (fun d => negb (bool_decide (d = c))) (s +:+ String c "") = false) as Hc.
  { intros s. rewrite all_bytes_app. cbn. rewrite bool_decide_true by done. apply andb_false_r. }
  assert (forall s t, all_bytes (fun d => negb (bool_decide (d = c))) (s +:+ String c t) = true -> False) as Hno.
  { intros s t Hs. change (String c t) with (String c "" +:+ t) in Hs.
    rewrite <- app_assoc_str, all_bytes_app, Hc in Hs. done. }
  intros Hx Hy. revert b. induction a as [|d a IH]; intros [|e b]; cbn; intros Heq; simplify_eq; try done.
  - exfalso. by eapply Hno.
  - exfalso. by eapply Hno.
  - destruct (IH b) as [-> ->]; done.
Qed.

(** [bytes.HasPrefix] and the package's own [hasPrefix]. *)
Fixpoint hasPrefix (b prefix : string) : bool :=
  match prefix, b with
  | "", _ => true
  | String p prefix', String c b' => bool_decide (c = p) && hasPrefix b' prefix'
  | String _ _, "" => false
  end.

Lemma hasPrefix_app p s : hasPrefix (p +:+ s) p = true.
Proof. induction p as [|c p IH]; [by destruct s|]. cbn. by rewrite bool_decide_true, IH. Qed.

Lemma hasPrefix_spec b p : hasPrefix b p = true <-> exists s, b = p +:+ s.
Proof.
  split; [|by intros [s ->]; apply hasPrefix_app].
  revert b. induction p as [|c p IH]; intros b Hb; [by exists b|].
  destruct b as [|d b]; cbn in Hb; [done|]. to_prop. subst.
  destruct (IH b) as [s ->]; [done|]. by exists s.
Qed.

(** [b[n:]], the empty slice when out of range (the code guards the length). *)
Fixpoint drop_bytes (n : nat) (s : string) : string :=
  match n, s with
  | O, _ => s
  | S n', String _ s' => drop_bytes n' s'
  | S _, "" => ""
  end.

Fixpoint take_bytes (n : nat) (s : string) : string :=
  match n, s with
  | S n', String c s' => String c (take_bytes n' s')
  | _, _ => ""
  end.

Lemma drop_bytes_app p s : drop_bytes (String.length p) (p +:+ s) = s.
Proof. induction p as [|c p IH]; [by destruct s|done]. Qed.

Fixpoint replicate_byte (n : nat) (c : ascii) : string :=
  match n with O => "" | S n' => String c (replicate_byte n' c) end.

Lemma len_replicate n c : len (replicate_byte n c) = Z.of_nat n.
Proof. unfold len. induction n as [|n IH]; simpl in *; lia. Qed.

Definition zero_byte : ascii := byte_of 0.
Definition is_zero_bytes (s : string) : bool :=
  all_bytes (fun c => bool_decide (c = zero_byte)) s.

(** ** Big-endian integers ([binary.BigEndian], [big.Int.SetBytes]) *)
Fixpoint be_bytes (n : nat) (x : Z) : string :=
  match n with
  | O => ""
  | S n' => String (byte_of ((x / 256 ^ Z.of_nat n') mod 256)) (be_bytes n' x)
  end.

Fixpoint be_acc (s : string) (acc : Z) : Z :=
  match s with
  | "" => acc
  | String c s' => be_acc s' (acc * 256 + byte_val c)
  end.
Definition be_Z (s : string) : Z := be_acc s 0.

Lemma len_be_bytes n x : len (be_bytes n x) = Z.of_nat n.
Proof. unfold len. induction n as [|n IH]; simpl String.length in *; lia. Qed.

Lemma be_acc_bytes n x acc :
  be_acc (be_bytes n x) acc = acc * 256 ^ Z.of_nat n + x mod 256 ^ Z.of_nat n.
Proof.
  revert acc. induction n as [|n IH]; intros acc.
  - cbn. rewrite Z.mod_1_r. lia.
  - cbn [be_bytes be_acc]. rewrite IH, byte_val_of by (apply Z.mod_pos_bound; lia).
    rewrite Nat2Z.inj_succ, Z.pow_succ_r by lia.
    rewrite (Z.mul_comm 256), Z.rem_mul_r by lia. ring.
Qed.

Lemma be_Z_bytes n x : 0 <= x < 256 ^ Z.of_nat n -> be_Z (be_bytes n x) = x.
Proof. intros Hx. unfold be_Z. rewrite be_acc_bytes, Z.mod_small; lia. Qed.

Lemma be_bytes_inj n x y :
  0 <= x < 256 ^ Z.of_nat n -> 0 <= y < 256 ^ Z.of_nat n ->
  be_bytes n x = be_bytes n y -> x = y.
Proof. intros Hx Hy Heq. by rewrite <- (be_Z_bytes n x), Heq, be_Z_bytes. Qed.

Lemma byte_compare c d : Ascii.compare c d = Z.compare (byte_val c) (byte_val d).
Proof. unfold Ascii.compare, byte_val. by rewrite N2Z.inj_compare. Qed.

(** Equal-width big-endian keys are ordered bytewise as the numbers are: a
    cursor over such keys visits them in numeric order. *)
Lemma be_bytes_compare n x y :
  0 <= x < 256 ^ Z.of_nat n -> 0 <= y < 256 ^ Z.of_nat n ->
  String.compare (be_bytes n x) (be_bytes n y) = Z.compare x y.
Proof.
  intros Hx Hy.
  assert (forall n x y, x / 256 ^ Z.of_nat n = y / 256 ^ Z.of_nat n ->
    String.compare (be_bytes n x) (be_bytes n y) = Z.compare x y) as Hgen; last first.
  { apply Hgen. by rewrite !Z.div_small. }
  clear. intros n. induction n as [|n IH]; intros x y Hdiv.
  - cbn in *. rewrite !Z.div_1_r in Hdiv. subst. by rewrite Z.compare_refl.
  - set (p := 256 ^ Z.of_nat n) in *.
    assert (0 < p) by (apply Z.pow_pos_nonneg; lia).
    rewrite Nat2Z.inj_succ, Z.pow_succ_r in Hdiv by lia. fold p in Hdiv.
    rewrite (Z.mul_comm 256), <- !Z.div_div in Hdiv by lia.
    cbn [be_bytes String.compare]. rewrite byte_compare. fold p.
    pose proof (Z.mod_pos_bound (x / p) 256). pose proof (Z.mod_pos_bound (y / p) 256).
    rewrite !byte_val_of by lia.
    pose proof (Z.div_mod (x / p) 256). pose proof (Z.div_mod (y / p) 256).
    pose proof (Z.div_mod x p). pose proof (Z.div_mod y p).
    pose proof (Z.mod_pos_bound x p). pose proof (Z.mod_pos_bound y p).
    destruct (Z.compare_spec ((x / p) mod 256) ((y / p) mod 256)) as [E|E|E].
    + apply IH. fold p. lia.
    + symmetry. apply Z.compare_lt_iff. nia.
    + symmetry. apply Z.compare_gt_iff. nia.
Qed.

(** [big.Int.Bytes]: the absolute value, big-endian, no leading zero byte. *)
Fixpoint big_bytes_go (fuel : nat) (n : Z) (acc : string) : string :=
  match fuel with
  | O => acc
  | S fuel' =>
      if n =? 0 then acc
      else big_bytes_go fuel' (n / 256) (String (byte_of (n mod 256)) acc)
  end.
Definition bits_fuel (n : Z) : nat := S (Z.to_nat (Z.log2 n)).
Definition big_bytes (x : Z) : string := big_bytes_go (bits_fuel (Z.abs x)) (Z.abs x) "".

(** Dividing by a base of at least two loses a bit, so [bits_fuel] suffices
    for any positional printing loop. *)
Lemma bits_fuel_div base n f :
  2 <= base -> 0 < n / base -> (bits_fuel n <= S f)%nat -> (bits_fuel (n / base) <= f)%nat.
Proof.
  intros Hb Hpos Hf.
  assert (Hn : base <= n).
  { destruct (Z.lt_ge_cases n base); [|lia].
    pose proof (Z.div_lt_upper_bound n base 1). lia. }
  assert (n / base <= n / 2) by (apply Z.div_le_compat_l; lia).
  assert (Z.log2 (n / base) <= Z.log2 (n / 2)) by (apply Z.log2_le_mono; lia).
  assert (1 <= Z.log2 n) by (apply Z.log2_le_pow2; lia).
  assert (Z.log2 (n / 2) = Z.log2 n - 1).
  { change 2 with (2 ^ 1) at 1. rewrite <- Z.shiftr_div_pow2, Z.log2_shiftr; lia. }
  unfold bits_fuel in *. pose proof (Z.log2_nonneg (n / base)). lia.
Qed.

Lemma be_acc_big_bytes_go f n acc :
  0 <= n -> (n = 0 \/ (bits_fuel n <= f)%nat) ->
  be_acc (big_bytes_go f n acc) 0 = be_acc acc n.
Proof.
  revert n acc. induction f as [|f IH]; intros n acc Hn Hf; cbn [big_bytes_go].
  - destruct Hf as [->|Hf]; [done|]. unfold bits_fuel in Hf. lia.
  - destruct (Z.eqb_spec n 0) as [->|Hn0]; [done|].
    pose proof (Z.div_pos n 256). pose proof (Z.mod_pos_bound n 256).
    rewrite IH; [|lia|].
    + cbn [be_acc]. rewrite byte_val_of by lia.
      rewrite (Z.div_mod n 256) at 3 by lia. f_equal. lia.
    + destruct (Z.eq_dec (n / 256) 0); [by left|right].
      apply bits_fuel_div; [lia|lia|]. by destruct Hf.
Qed.

(** [SetBytes] reads back what [Bytes] wrote. *)
Lemma be_Z_big_bytes x : be_Z (big_bytes x) = Z.abs x.
Proof.
  unfold be_Z, big_bytes. rewrite be_acc_big_bytes_go; [done|lia|by right].
Qed.

Lemma be_acc_bound s acc : 0 <= acc -> 0 <= be_acc s acc < (acc + 1) * 256 ^ len s.
Proof.
  revert acc. induction s as [|c s IH]; intros acc Ha; cbn [be_acc].
  - unfold len. simpl. lia.
  - pose proof (byte_val_range c). specialize (IH (acc * 256 + byte_val c) ltac:(lia)).
    assert (len (String c s) = Z.succ (len s)) as -> by (unfold len; simpl; lia).
    rewrite Z.pow_succ_r by apply len_nonneg.
    assert (0 < 256 ^ len s) by (apply Z.pow_pos_nonneg; [lia|apply len_nonneg]). nia.
Qed.

(** ** Hexadecimal ([encoding/hex], [fmt] "%x") *)
Definition hex_digit (d : Z) : ascii :=
  if d <? 10 then byte_of (48 + d) else byte_of (87 + d).

Fixpoint hex_encode (s : string) : string :=
  match s with
  | "" => ""
  | String c s' =>
      String (hex_digit (byte_val c / 16)) (String (hex_digit (byte_val c mod 16)) (hex_encode s'))
  end.

Lemma hex_digit_inj d e : 0 <= d < 16 -> 0 <= e < 16 -> hex_digit d = hex_digit e -> d = e.
Proof.
  intros Hd He Heq. unfold hex_digit in Heq.
  apply (f_equal byte_val) in Heq.
  destruct (Z.ltb_spec d 10), (Z.ltb_spec e 10); rewrite !byte_val_of in Heq by lia; lia.
Qed.

Lemma hex_digit_not_nul d : 0 <= d < 16 -> hex_digit d <> zero_byte.
Proof.
  intros Hd Heq. unfold hex_digit, zero_byte in Heq. apply (f_equal byte_val) in Heq.
  destruct (Z.ltb_spec d 10); rewrite !byte_val_of in Heq by lia; lia.
Qed.

#[export] Instance hex_encode_inj : Inj (=) (=) hex_encode.
Proof.
  intros a. induction a as [|c a IH]; intros [|d b] Heq; cbn [hex_encode] in Heq; try done.
  injection Heq as Hhi Hlo Heq. f_equal; [|by apply IH].
  pose proof (byte_val_range c). pose proof (byte_val_range d).
  apply hex_digit_inj in Hhi; [|split; [apply Z.div_pos|apply Z.div_lt_upper_bound]; lia..].
  apply hex_digit_inj in Hlo; [|apply Z.mod_pos_bound; lia..].
  apply (inj byte_val). rewrite (Z.div_mod (byte_val c) 16), (Z.div_mod (byte_val d) 16) by lia.
  by rewrite Hhi, Hlo.
Qed.

Lemma hex_encode_no_nul s :
  all_bytes (fun d => negb (bool_decide (d = zero_byte))) (hex_encode s) = true.
Proof.
  induction s as [|c s IH]; [done|]. cbn [hex_encode all_bytes].
  pose proof (byte_val_range c). rewrite IH.
  rewrite !bool_decide_false; [done|apply hex_digit_not_nul..].
  - apply Z.mod_pos_bound. lia.
  - split; [apply Z.div_pos|apply Z.div_lt_upper_bound]; lia.
Qed.

(** ** Decimal ([big.Int.String], [big.Int.SetString(s, 10)], "%020d") *)
Fixpoint dec_go (fuel : nat) (n : Z) (acc : string) : string :=
  match fuel with
  | O => acc
  | S fuel' =>
      let acc' := String (byte_of (48 + n mod 10)) acc in
      if n / 10 =? 0 then acc' else dec_go fuel' (n / 10) acc'
  end.
Definition dec_nonneg (n : Z) : string := dec_go (bits_fuel n) n "".
Definition dec_string (x : Z) : string :=
  if x <? 0 then "-" +:+ dec_nonneg (- x) else dec_nonneg x.

Definition digit_val (c : ascii) : option Z :=
  let v := byte_val c in
  if (48 <=? v) && (v <=? 57) then Some (v - 48) else None.

Fixpoint parse_digits (s : string) (acc : Z) : option Z :=
  match s with
  | "" => Some acc
  | String c s' =>
      match digit_val c with
      | Some d => parse_digits s' (acc * 10 + d)
      | None => None
      end
  end.
Definition parse_nonneg (s : string) : option Z :=
  match s with "" => None | _ => parse_digits s 0 end.

(** [new(big.Int).SetString(s, 10)]: an optional sign and at least one digit. *)
Definition SetString10 (s : string) : option Z :=
  match s with
  | "" => None
  | String c s' =>
      if bool_decide (c = "-"%char) then Z.opp <$> parse_nonneg s'
      else if bool_decide (c = "+"%char) then parse_nonneg s'
      else parse_nonneg s
  end.

Lemma digit_val_of d : 0 <= d < 10 -> digit_val (byte_of (48 + d)) = Some d.
Proof.
  intros Hd. unfold digit_val. rewrite byte_val_of by lia.
  destruct (Z.leb_spec 48 (48 + d)), (Z.leb_spec (48 + d) 57); simpl; try lia. f_equal. lia.
Qed.

Lemma parse_dec_go f n acc :
  0 <= n -> (bits_fuel n <= f)%nat ->
  parse_digits (dec_go f n acc) 0 = parse_digits acc n.
Proof.
  revert n acc. induction f as [|f IH]; intros n acc Hn Hf; [unfold bits_fuel in Hf; lia|].
  cbn [dec_go]. pose proof (Z.div_pos n 10). pose proof (Z.mod_pos_bound n 10).
  pose proof (Z.div_mod n 10).
  destruct (Z.eqb_spec (n / 10) 0) as [E|E].
  - cbn [parse_digits]. rewrite digit_val_of by lia. f_equal. lia.
  - rewrite IH; [|lia|apply bits_fuel_div; lia].
    cbn [parse_digits]. rewrite digit_val_of by lia. f_equal. lia.
Qed.

Lemma dec_go_head f n acc :
  (0 < f)%nat -> 0 <= n -> exists d s, 0 <= d < 10 /\ dec_go f n acc = String (byte_of (48 + d)) s.
Proof.
  revert n acc. induction f as [|f IH]; intros n acc Hf Hn; [lia|]. cbn [dec_go].
  pose proof (Z.div_pos n 10). pose proof (Z.mod_pos_bound n 10).
  destruct (n / 10 =? 0); [by exists (n mod 10), acc; split; [lia|]|].
  destruct f as [|f]; [by exists (n mod 10), acc; split; [lia|]|].
  apply IH; lia.
Qed.

Lemma byte_of_digit_ne d c : 0 <= d < 10 -> byte_val c < 48 -> byte_of (48 + d) <> c.
Proof. intros Hd Hc Heq. subst. rewrite byte_val_of in Hc by lia. lia. Qed.

Lemma parse_dec_nonneg n : 0 <= n -> parse_nonneg (dec_nonneg n) = Some n.
Proof.
  intros Hn. unfold dec_nonneg.
  destruct (dec_go_head (bits_fuel n) n "") as (d & s & Hd & E); [unfold bits_fuel; lia|lia|].
  transitivity (parse_digits (dec_go (bits_fuel n) n "") 0); [by rewrite E|].
  by rewrite parse_dec_go.
Qed.

(** Decimal round trip: what [String] prints, [SetString] reads back. *)
Lemma SetString10_dec x : SetString10 (dec_string x) = Some x.
Proof.
  unfold dec_string. destruct (Z.ltb_spec x 0) as [Hx|Hx].
  - change (Z.opp <$> parse_nonneg (dec_nonneg (- x)) = Some x).
    rewrite parse_dec_nonneg by lia. cbn. f_equal. lia.
  - destruct (dec_go_head (bits_fuel x) x "") as (d & s & Hd & E); [unfold bits_fuel; lia|lia|].
    pose proof (parse_dec_nonneg x Hx) as Hp. unfold dec_nonneg in *. rewrite E in *.
    unfold SetString10. by rewrite !bool_decide_false by (apply byte_of_digit_ne; [lia|reflexivity]).
Qed.

#[export] Instance dec_string_inj : Inj (=) (=) dec_string.
Proof. intros x y E. apply (f_equal SetString10) in E. rewrite !SetString10_dec in E. by injection E. Qed.

Lemma dec_string_ne_nil x : dec_string x <> "".
Proof. intros E. apply (f_equal SetString10) in E. by rewrite SetString10_dec in E. Qed.

Definition pad_left (n : nat) (c : ascii) (s : string) : string :=
  replicate_byte (n - String.length s) c +:+ s.

Lemma len_dec_go f n acc (k : nat) :
  (0 < k)%nat -> 0 <= n < 10 ^ Z.of_nat k -> len (dec_go f n acc) <= Z.of_nat k + len acc.
Proof.
  revert n acc k. induction f as [|f IH]; intros n acc k Hk Hn; cbn [dec_go]; [lia|].
  assert (Hc : forall c, len (String c acc) = 1 + len acc) by (intros; unfold len; simpl; lia).
  destruct (Z.eqb_spec (n / 10) 0) as [E|E]; [rewrite Hc; lia|].
  destruct k as [|[|k]]; [lia| |].
  - change (10 ^ Z.of_nat 1) with 10 in Hn. rewrite Z.div_small in E; lia.
  - etransitivity; [apply (IH _ _ (S k)); [lia|]|rewrite Hc; lia].
    rewrite Nat2Z.inj_succ, Z.pow_succ_r in Hn by lia.
    split; [apply Z.div_pos; lia|apply Z.div_lt_upper_bound; lia].
Qed.

Lemma parse_digits_zeros n s acc : acc = 0 ->
  parse_digits (replicate_byte n "0"%char +:+ s) acc = parse_digits s acc.
Proof. intros ->. induction n as [|n IH]; [done|]. exact IH. Qed.

(** [fmt.Sprintf("%020d", n)]. *)
Definition dec20 (n : Z) : string := pad_left 20 "0"%char (dec_nonneg n).

(** Every [uint64] prints as exactly twenty digits... *)
Lemma len_dec20 n : 0 <= n < two64 -> len (dec20 n) = 20.
Proof.
  intros Hn. unfold dec20, pad_left. rewrite len_app, len_replicate.
  assert (len (dec_nonneg n) <= Z.of_nat 20 + len "").
  { apply len_dec_go; [lia|]. unfold two64 in Hn. split; [lia|].
    transitivity (2 ^ 64); [lia|]. by vm_compute. }
  unfold len in *. simpl (String.length "") in *. lia.
Qed.

(** ... and distinct numbers print differently. *)
Lemma dec20_inj n m : 0 <= n -> 0 <= m -> dec20 n = dec20 m -> n = m.
Proof.
  intros Hn Hm E. apply (f_equal (fun s => parse_digits s 0)) in E.
  unfold dec20, pad_left in E. rewrite !parse_digits_zeros in E by done.
  unfold dec_nonneg in E. rewrite !parse_dec_go in E by (done || lia). by injection E.
Qed.
