(* ===== verification/GoCodecs.v ===== *)
(** * SHA-256, base64 and the JSON form of a struct key

    The ledger derives some bucket keys with [crypto/sha256] and one with
    [encoding/json]; both are the Go standard library's, written out here so
    that the keys of the model are the keys of the code. *)
From S2P Require Import Prelude.
From S2P Require Import GoBytes.
From Stdlib Require Import Ascii.

(** ** SHA-256 (FIPS 180-4) *)
Module Sha256.

Definition K : list Z :=
  [1116352408; 1899447441; 3049323471; 3921009573; 961987163; 1508970993; 2453635748; 2870763221;
   3624381080; 310598401; 607225278; 1426881987; 1925078388; 2162078206; 2614888103; 3248222580;
   3835390401; 4022224774; 264347078; 604807628; 770255983; 1249150122; 1555081692; 1996064986;
   2554220882; 2821834349; 2952996808; 3210313671; 3336571891; 3584528711; 113926993; 338241895;
   666307205; 773529912; 1294757372; 1396182291; 1695183700; 1986661051; 2177026350; 2456956037;
   2730485921; 2820302411; 3259730800; 3345764771; 3516065817; 3600352804; 4094571909; 275423344;
   430227734; 506948616; 659060556; 883997877; 958139571; 1322822218; 1537002063; 1747873779;
   1955562222; 2024104815; 2227730452; 2361852424; 2428436474; 2756734187; 3204031479; 3329325298].

Record state := St { sa : Z; sb : Z; sc : Z; sd : Z; se : Z; sf : Z; sg : Z; sh : Z }.

Definition init : state :=
  St 1779033703 3144134277 1013904242 2773480762 1359893119 2600822924 528734635 1541459225.

Definition rotr (n x : Z) : Z := Z.lor (Z.shiftr x n) (u32 (Z.shiftl x (32 - n))).
Definition xor3 (a b c : Z) : Z := Z.lxor a (Z.lxor b c).
Definition bsig0 x := xor3 (rotr 2 x) (rotr 13 x) (rotr 22 x).
Definition bsig1 x := xor3 (rotr 6 x) (rotr 11 x) (rotr 25 x).
Definition ssig0 x := xor3 (rotr 7 x) (rotr 18 x) (Z.shiftr x 3).
Definition ssig1 x := xor3 (rotr 17 x) (rotr 19 x) (Z.shiftr x 10).
Definition ch x y z := Z.lxor (Z.land x y) (Z.land (two32 - 1 - x) z).
Definition maj x y z := xor3 (Z.land x y) (Z.land x z) (Z.land y z).

Definition round (s : state) (k w : Z) : state :=
  let t1 := sh s + bsig1 (se s) + ch (se s) (sf s) (sg s) + k + w in
  let t2 := bsig0 (sa s) + maj (sa s) (sb s) (sc s) in
  St (u32 (t1 + t2)) (sa s) (sb s) (sc s) (u32 (sd s + t1)) (se s) (sf s) (sg s).

(** [win] holds words [t .. t+15] of the message schedule. *)
Fixpoint rounds (ks win : list Z) (s : state) : state :=
  match ks, win with
  | k :: ks', w :: win' =>
      let wnext := u32 (ssig1 (nth 14 win 0) + nth 9 win 0 + ssig0 (nth 1 win 0) + w) in
      rounds ks' (win' ++ [wnext]) (round s k w)
  | _, _ => s
  end.

Definition block (s : state) (win : list Z) : state :=
  let r := rounds K win s in
  St (u32 (sa s + sa r)) (u32 (sb s + sb r)) (u32 (sc s + sc r)) (u32 (sd s + sd r))
     (u32 (se s + se r)) (u32 (sf s + sf r)) (u32 (sg s + sg r)) (u32 (sh s + sh r)).

Fixpoint words (n : nat) (s : string) : list Z :=
  match n with
  | O => []
  | S n' => be_Z (take_bytes 4 s) :: words n' (drop_bytes 4 s)
  end.

Fixpoint blocks (n : nat) (s : string) (st : state) : state :=
  match n with
  | O => st
  | S n' => blocks n' (drop_bytes 64 s) (block st (words 16 s))
  end.

Definition pad (s : string) : string :=
  s +:+ String (byte_of 128)
    (replicate_byte (Z.to_nat ((55 - len s) mod 64)) zero_byte +:+ be_bytes 8 (8 * len s)).

Definition sum256 (s : string) : string :=
  let p := pad s in
  let r := blocks (Z.to_nat (len p / 64)) p init in
  be_bytes 4 (sa r) +:+ be_bytes 4 (sb r) +:+ be_bytes 4 (sc r) +:+ be_bytes 4 (sd r) +:+
  be_bytes 4 (se r) +:+ be_bytes 4 (sf r) +:+ be_bytes 4 (sg r) +:+ be_bytes 4 (sh r).

End Sha256.

Definition sha256 : string -> string := Sha256.sum256.

Example sha256_abc :
  hex_encode (sha256 "abc") = "ba7816bf8f01cfea414140de5dae2223b00361a396177a9cb410ff61f20015ad".
Proof. vm_compute. reflexivity. Qed.

Lemma len_sha256 s : len (sha256 s) = 32.
Proof. unfold sha256, Sha256.sum256. rewrite !len_app, !len_be_bytes. done. Qed.

#[global] Opaque sha256.

(** ** [encoding/base64] (standard alphabet, padded) *)
Definition b64_char (d : Z) : ascii :=
  if d <? 26 then byte_of (65 + d)
  else if d <? 52 then byte_of (71 + d)
  else if d <? 62 then byte_of (d - 4)
  else if d =? 62 then "+"%char else "/"%char.

Fixpoint base64 (s : string) : string :=
  match s with
  | String a (String b (String c s')) =>
      let n := be_Z (String a (String b (String c ""))) in
      String (b64_char (n / 262144)) (String (b64_char (n / 4096 mod 64))
        (String (b64_char (n / 64 mod 64)) (String (b64_char (n mod 64)) (base64 s'))))
  | String a (String b "") =>
      let n := be_Z (String a (String b (String zero_byte ""))) in
      String (b64_char (n / 262144)) (String (b64_char (n / 4096 mod 64))
        (String (b64_char (n / 64 mod 64)) "="))
  | String a "" =>
      let n := be_Z (String a (String zero_byte (String zero_byte ""))) in
      String (b64_char (n / 262144)) (String (b64_char (n / 4096 mod 64)) "==")
  | "" => ""
  end.

(** ** [encoding/json]: strings and byte slices of a struct without tags *)
Definition between (lo hi : Z) (c : ascii) : bool := (lo <=? byte_val c) && (byte_val c <=? hi).
Definition is_cont (c : ascii) : bool := between 128 191 c.

(** The replacement escape for an invalid UTF-8 byte. *)
Definition json_invalid : string := String "\"%char "ufffd".

Definition json_ascii (c : ascii) : string :=
  let v := byte_val c in
  let esc (r : string) := String "\"%char r in
  if v =? 92 then esc (String c "")
  else if v =? 34 then esc (String c "")
  else if v =? 8 then esc "b"
  else if v =? 12 then esc "f"
  else if v =? 10 then esc "n"
  else if v =? 13 then esc "r"
  else if v =? 9 then esc "t"
  else if (v <? 32) || (v =? 60) || (v =? 62) || (v =? 38)
  then esc ("u00" +:+ String (hex_digit (v / 16)) (String (hex_digit (v mod 16)) ""))
  else String c "".

(** Three-byte rune [c d e] is valid, per the ranges of [unicode/utf8]. *)
Definition utf8_3 (c d e : ascii) : bool :=
  is_cont e &&
  ((between 224 224 c && between 160 191 d) || (between 225 236 c && is_cont d) ||
   (between 237 237 c && between 128 159 d) || (between 238 239 c && is_cont d)).
Definition utf8_4 (c d e f : ascii) : bool :=
  is_cont e && is_cont f &&
  ((between 240 240 c && between 144 191 d) || (between 241 243 c && is_cont d) ||
   (between 244 244 c && between 128 143 d)).

(** U+2028 and U+2029 are escaped; other runes are copied. *)
Definition json_rune3 (c d e : ascii) : string :=
  if between 226 226 c && between 128 128 d && between 168 169 e
  then String "\"%char ("u202" +:+ String (hex_digit (byte_val e - 160)) "")
  else String c (String d (String e "")).

Fixpoint json_body (s : string) : string :=
  match s with
  | "" => ""
  | String c s1 =>
      if byte_val c <? 128 then json_ascii c +:+ json_body s1
      else match s1 with
      | String d s2 =>
          if between 194 223 c && is_cont d then String c (String d (json_body s2))
          else match s2 with
          | String e s3 =>
              if utf8_3 c d e then json_rune3 c d e +:+ json_body s3
              else match s3 with
              | String f s4 =>
                  if utf8_4 c d e f
                  then String c (String d (String e (String f (json_body s4))))
                  else json_invalid +:+ json_body s1
              | "" => json_invalid +:+ json_body s1
              end
          | "" => json_invalid +:+ json_body s1
          end
      | "" => json_invalid +:+ json_body s1
      end
  end.

Definition dquote : ascii := byte_of 34.
Definition json_string (s : string) : string := String dquote (json_body s +:+ String dquote "").
(** A nil slice is [null]. *)
Definition json_bytes (s : string) : string :=
  match s with "" => "null" | _ => String dquote (base64 s +:+ String dquote "") end.

Definition json_field (name value : string) : string :=
  json_string name +:+ String ":"%char value.

Definition json_object (fields : list string) : string :=
  "{" +:+ String.concat "," fields +:+ "}".

Example json_object_example :
  json_object [json_field "Sender" (json_bytes "Man"); json_field "Offering" (json_string "a<b")] =
  "{" +:+ String dquote ("Sender" +:+ String dquote (":" +:+ String dquote ("TWFu" +:+
    String dquote ("," +:+ String dquote ("Offering" +:+ String dquote (":" +:+
    String dquote ("a\u003cb" +:+ String dquote "}"))))))).
Proof. vm_compute. reflexivity. Qed.
