(* ===== verification/GoStrings.v ===== *)
(** * Strings, times and numbers as text

    What the programs use of [strings], [time] and [strconv].  [TrimSpace]
    removes the white space of Unicode at both ends of a UTF-8 string; [Split]
    and [Cut] take a separator of one byte. *)
From S2P Require Import Prelude.
From S2P Require Import GoBytes.
From S2P Require Import GoCodecs.
From Stdlib Require Import Ascii.

(** ** White space *)
Definition space1 (a : ascii) : bool := between 9 13 a || (byte_val a =? 32).
(** U+0085 and U+00A0. *)
Definition space2 (a b : ascii) : bool :=
  (byte_val a =? 0xC2) && ((byte_val b =? 0x85) || (byte_val b =? 0xA0)).
(** U+1680, U+2000 to U+200A, U+2028, U+2029, U+202F, U+205F and U+3000. *)
Definition space3 (a b c : ascii) : bool :=
  ((byte_val a =? 0xE1) && (byte_val b =? 0x9A) && (byte_val c =? 0x80)) ||
  ((byte_val a =? 0xE2) && (byte_val b =? 0x80) &&
     (between 0x80 0x8A c || (byte_val c =? 0xA8) || (byte_val c =? 0xA9) || (byte_val c =? 0xAF))) ||
  ((byte_val a =? 0xE2) && (byte_val b =? 0x81) && (byte_val c =? 0x9F)) ||
  ((byte_val a =? 0xE3) && (byte_val b =? 0x80) && (byte_val c =? 0x80)).

(** Strip white space from the front, where two- and three-byte spaces are
    recognised by the given tests. *)
Fixpoint strip (two : ascii -> ascii -> bool) (three : ascii -> ascii -> ascii -> bool) (s : string) : string :=
  match s with
  | "" => ""
  | String a s1 =>
      if space1 a then strip two three s1
      else match s1 with
      | "" => s
      | String b s2 =>
          if two a b then strip two three s2
          else match s2 with
          | "" => s
          | String c s3 => if three a b c then strip two three s3 else s
          end
      end
  end.

Fixpoint str_rev_onto (s acc : string) : string :=
  match s with "" => acc | String c s' => str_rev_onto s' (String c acc) end.
Definition str_rev (s : string) : string := str_rev_onto s "".

Definition trim_left (s : string) : string := strip space2 space3 s.
Definition trim_right (s : string) : string :=
  str_rev (strip (fun b a => space2 a b) (fun c b a => space3 a b c) (str_rev s)).
Definition TrimSpace (s : string) : string := trim_right (trim_left s).

(** [strings.TrimSpace(s) == ""]. *)
Definition blank (s : string) : bool := bool_decide (TrimSpace s = "").

(** ** Separators *)

(** The text up to the first separator and the text after it. *)
Fixpoint Cut (sep : ascii) (s : string) : string * string * bool :=
  match s with
  | "" => ("", "", false)
  | String c s' =>
      if bool_decide (c = sep) then ("", s', true)
      else let '(a, b, found) := Cut sep s' in (String c a, b, found)
  end.

Fixpoint Split (sep : ascii) (s : string) : list string :=
  match s with
  | "" => [""]
  | String c s' =>
      if bool_decide (c = sep) then "" :: Split sep s'
      else match Split sep s' with
           | [] => [String c ""]
           | part :: parts => String c part :: parts
           end
  end.

Definition Join (sep : string) (parts : list string) : string := String.concat sep parts.

(** ** Facts *)

(** A visible ASCII character. *)
Definition visible (c : ascii) : bool := between 33 126 c.

Lemma visible_val c : visible c = true -> 33 <= byte_val c <= 126.
Proof. unfold visible, between. intros H. to_prop. lia. Qed.

Lemma visible_space1 c : visible c = true -> space1 c = false.
Proof.
  intros H%visible_val. unfold space1, between. rewrite (proj2 (Z.leb_gt (byte_val c) 13)), (proj2 (Z.eqb_neq (byte_val c) 32)) by lia.
  by rewrite andb_false_r.
Qed.
Lemma visible_space2 a b : visible a = true \/ visible b = true -> space2 a b = false.
Proof.
  intros [H%visible_val|H%visible_val]; unfold space2; [rewrite (proj2 (Z.eqb_neq _ 0xC2)) by lia; done|].
  rewrite (proj2 (Z.eqb_neq _ 0x85)), (proj2 (Z.eqb_neq _ 0xA0)) by lia. by rewrite andb_false_r.
Qed.
Lemma visible_space3 a b c : visible a = true \/ visible c = true -> space3 a b c = false.
Proof.
  unfold space3, between. intros [H%visible_val|H%visible_val].
  - by rewrite (proj2 (Z.eqb_neq _ 0xE1)), (proj2 (Z.eqb_neq (byte_val a) 0xE2)), (proj2 (Z.eqb_neq _ 0xE3)) by lia.
  - rewrite !(proj2 (Z.eqb_neq (byte_val c) _)), (proj2 (Z.leb_gt 0x80 (byte_val c))) by lia.
    by rewrite ?andb_false_r, ?andb_false_l, ?orb_false_r, ?andb_false_r.
Qed.

Lemma str_rev_onto_app s t acc : str_rev_onto (s +:+ t) acc = str_rev_onto t (str_rev_onto s acc).
Proof. revert acc. induction s as [|c s IH]; intros acc; [done|]. apply IH. Qed.
Lemma str_rev_rev s : str_rev (str_rev s) = s.
Proof.
  unfold str_rev. assert (forall s acc, str_rev_onto (str_rev_onto s acc) "" = str_rev_onto acc s) as E.
  { clear. induction s as [|c s IH]; intros acc; [done|]. simpl. by rewrite IH. }
  exact (E s "").
Qed.
Lemma str_rev_snoc s c : str_rev (s +:+ String c "") = String c (str_rev s).
Proof. unfold str_rev. by rewrite str_rev_onto_app. Qed.

(** Nothing is stripped from a text that starts visibly. *)
Lemma strip_visible two three c s :
  (forall x, two c x = false) -> (forall x y, three c x y = false) -> visible c = true ->
  strip two three (String c s) = String c s.
Proof.
  intros H2 H3 Hc. cbn [strip]. rewrite (visible_space1 c Hc).
  destruct s as [|d s]; [done|]. rewrite H2. destruct s as [|e s]; [done|]. by rewrite H3.
Qed.

(** Nothing is trimmed from a text of visible characters. *)
Lemma TrimSpace_visible s : all_bytes visible s = true -> TrimSpace s = s.
Proof.
  intros Hs. unfold TrimSpace.
  assert (trim_left s = s) as ->.
  { destruct s as [|c s]; [done|]. apply andb_true_iff in Hs as [Hc _].
    apply strip_visible; [intros; apply visible_space2; by left|intros; apply visible_space3; by left|done]. }
  unfold trim_right. rewrite <- (str_rev_rev s) at 2. f_equal.
  assert (forall s acc, all_bytes visible s = true -> all_bytes visible acc = true -> all_bytes visible (str_rev_onto s acc) = true)
    as Hrev.
  { clear. induction s as [|c s IH]; intros acc Hs Ha; [done|]. cbn in *. apply andb_true_iff in Hs as [Hc Hs].
    apply IH; [done|]. cbn. by rewrite Hc, Ha. }
  specialize (Hrev s "" Hs eq_refl). fold (str_rev s) in Hrev. destruct (str_rev s) as [|c r]; [done|].
  apply andb_true_iff in Hrev as [Hc _].
  apply strip_visible; [intros; apply visible_space2; by right|intros; apply visible_space3; by right|done].
Qed.

Lemma TrimSpace_empty : TrimSpace "" = "".
Proof. done. Qed.

(** Cutting at the separator, when the first part does not contain it. *)
Lemma Cut_app sep a b :
  all_bytes (fun c => negb (bool_decide (c = sep))) a = true -> Cut sep (a +:+ String sep b) = (a, b, true).
Proof.
  induction a as [|c a IH]; intros Ha; cbn in *; [by rewrite bool_decide_true|].
  apply andb_true_iff in Ha as [Hc Ha]. apply negb_true_iff in Hc. rewrite Hc, (IH Ha). done.
Qed.

Lemma Split_nonempty sep s : Split sep s <> [].
Proof. destruct s as [|c s]; [done|]. cbn. destruct (bool_decide _); [done|]. by destruct (Split sep s). Qed.

Lemma Split_app sep a b :
  all_bytes (fun c => negb (bool_decide (c = sep))) a = true -> Split sep (a +:+ String sep b) = a :: Split sep b.
Proof.
  induction a as [|c a IH]; intros Ha; cbn in *; [by rewrite bool_decide_true|].
  apply andb_true_iff in Ha as [Hc Ha]. apply negb_true_iff in Hc. by rewrite Hc, (IH Ha).
Qed.

Lemma Split_none sep a :
  all_bytes (fun c => negb (bool_decide (c = sep))) a = true -> Split sep a = [a].
Proof.
  induction a as [|c a IH]; intros Ha; cbn in *; [done|].
  apply andb_true_iff in Ha as [Hc Ha]. apply negb_true_iff in Hc. by rewrite Hc, (IH Ha).
Qed.

(** Splitting undoes joining parts that do not contain the separator. *)
Lemma Split_Join sep parts :
  parts <> [] -> Forall (fun p => all_bytes (fun c => negb (bool_decide (c = sep))) p = true) parts ->
  Split sep (Join (String sep "") parts) = parts.
Proof.
  intros Hne Hall. induction Hall as [|p parts Hp Hall IH]; [done|]. unfold Join in *.
  destruct parts as [|q parts]; [by apply Split_none|].
  change (Split sep (p +:+ String sep "" +:+ String.concat (String sep "") (q :: parts)) = p :: q :: parts).
  cbn [String.append]. rewrite Split_app by done. by rewrite IH.
Qed.

Example trim_example : TrimSpace (String (byte_of 0xC2) (String (byte_of 0xA0) "  token ")) = "token".
Proof. vm_compute. reflexivity. Qed.

(** * Times and numbers

    What the pool programs use of [time] and [strconv]: the JSON form of a time
    in UTC (RFC 3339 with nanoseconds), [ParseInt] and [ParseUint] in base 10,
    and the JSON forms of numbers, booleans and lists.  A time is its number of
    nanoseconds since 1970, the zero time is [None]. *)

(** ** Calendar *)

(** The civil date of a day counted from 1970-01-01: year, month, day. *)
Definition civil (days : Z) : Z * Z * Z :=
  let z := days + 719468 in
  let era := z / 146097 in
  let doe := z mod 146097 in
  let yoe := (doe - doe / 1460 + doe / 36524 - doe / 146096) / 365 in
  let doy := doe - (365 * yoe + yoe / 4 - yoe / 100) in
  let mp := (5 * doy + 2) / 153 in
  let month := if mp <? 10 then mp + 3 else mp - 9 in
  (yoe + era * 400 + (if month <=? 2 then 1 else 0), month, doy - (153 * mp + 2) / 5 + 1).

Definition digits (width : nat) (n : Z) : string := pad_left width "0"%char (dec_nonneg n).

Fixpoint drop_zeros (s : string) : string :=
  match s with String c s' => if bool_decide (c = "0"%char) then drop_zeros s' else s | "" => "" end.
(** The fraction of a second without its trailing zeros. *)
Definition fraction (ns : Z) : string :=
  if ns =? 0 then "" else "." +:+ str_rev (drop_zeros (str_rev (digits 9 ns))).

(** [t.Format(time.RFC3339Nano)] in UTC, for the years 0 to 9999. *)
Definition rfc3339 (t : option Z) : string :=
  match t with
  | None => "0001-01-01T00:00:00Z"
  | Some t =>
      let seconds := t / 1000000000 in
      let '(year, month, day) := civil (seconds / 86400) in
      let s := seconds mod 86400 in
      digits 4 year +:+ "-" +:+ digits 2 month +:+ "-" +:+ digits 2 day +:+ "T" +:+ digits 2 (s / 3600) +:+ ":" +:+
        digits 2 (s / 60 mod 60) +:+ ":" +:+ digits 2 (s mod 60) +:+ fraction (t mod 1000000000) +:+ "Z"
  end.

Example rfc3339_epoch : rfc3339 (Some 0) = "1970-01-01T00:00:00Z".
Proof. vm_compute. reflexivity. Qed.
Example rfc3339_leap : rfc3339 (Some (1709210096 * 1000000000 + 120000)) = "2024-02-29T12:34:56.00012Z".
Proof. vm_compute. reflexivity. Qed.

(** ** Numbers *)

(** [strconv.ParseInt(s, 10, 64)] and [strconv.ParseUint(s, 10, 64)]. *)
Definition ParseInt (s : string) : option Z :=
  match SetString10 s with
  | Some n => if (- 2 ^ 63 <=? n) && (n <? 2 ^ 63) then Some n else None
  | None => None
  end.
Definition ParseUint (s : string) : option Z :=
  match parse_nonneg s with Some n => if n <? two64 then Some n else None | None => None end.

Lemma dec_string_nonneg n : 0 <= n -> dec_string n = dec_nonneg n.
Proof. intros Hn. unfold dec_string. destruct (Z.ltb_spec n 0); [lia|done]. Qed.

Lemma ParseInt_dec n : - 2 ^ 63 <= n < 2 ^ 63 -> ParseInt (dec_string n) = Some n.
Proof.
  intros Hn. unfold ParseInt. rewrite SetString10_dec.
  destruct (Z.leb_spec (- 2 ^ 63) n), (Z.ltb_spec n (2 ^ 63)); simpl; try lia. done.
Qed.
Lemma ParseUint_dec n : 0 <= n < two64 -> ParseUint (dec_string n) = Some n.
Proof.
  intros Hn. unfold ParseUint. rewrite dec_string_nonneg, parse_dec_nonneg by lia.
  destruct (Z.ltb_spec n two64); [done|lia].
Qed.

(** ** JSON *)
Definition json_time (t : option Z) : string := String dquote (rfc3339 t +:+ String dquote "").
Definition json_bool (b : bool) : string := if b then "true" else "false".
Definition json_list {A} (f : A -> string) (l : list A) : string := "[" +:+ String.concat "," (f <$> l) +:+ "]".

(** Fields, and those left out when empty. *)
Definition field_string (name value : string) : list string := [json_field name (json_string value)].
Definition field_number (name : string) (n : Z) : list string := [json_field name (dec_string n)].
Definition field_bool (name : string) (b : bool) : list string := [json_field name (json_bool b)].
Definition field_time (name : string) (t : option Z) : list string := [json_field name (json_time t)].
Definition nonempty_string (name value : string) : list string :=
  if bool_decide (value = "") then [] else field_string name value.
Definition nonzero_number (name : string) (n : Z) : list string := if n =? 0 then [] else field_number name n.
Definition nonempty_list {A} (name : string) (f : A -> string) (l : list A) : list string :=
  match l with [] => [] | _ => [json_field name (json_list f l)] end.
