(* ===== verification/Actions.v ===== *)
(** * Computations on a state that may fail

    [st S E A]: a computation on a state [S] that returns an [A] or an error
    [E] and keeps what it did before failing; its notations; and the logics the
    components' theorems are proved in.  [pres I m Q]: the computation [m]
    keeps [I], whether it succeeds or fails, and its result satisfies [Q].
    [triple P m Q]: from a state in [P], the outcome of [m] and the state it
    leaves are in [Q]. *)
From S2P Require Import Prelude.

Definition st (S E A : Type) : Type := S -> result E A * S.

Section actions.
Context {S E : Type}.

Definition ret {A} (a : A) : st S E A := fun s => (Ok a, s).
Definition fail {A} (err : E) : st S E A := fun s => (Err err, s).
Definition bind {A B} (m : st S E A) (k : A -> st S E B) : st S E B :=
  fun s => match m s with (Ok a, s) => k a s | (Err err, s) => (Err err, s) end.
Definition lift {A E'} (wrap : E' -> E) (r : result E' A) : st S E A :=
  match r with Ok a => ret a | Err e => fail (wrap e) end.
Definition require (test : bool) (err : E) : st S E unit := if test then ret tt else fail err.
Definition get : st S E S := fun s => (Ok s, s).
Definition update (f : S -> S) : st S E unit := fun s => (Ok tt, f s).
Definition map_err {A} (f : E -> E) (m : st S E A) : st S E A :=
  fun s => match m s with (Ok a, s) => (Ok a, s) | (Err err, s) => (Err (f err), s) end.
(** The outcome as a value: the caller looks at the error itself. *)
Definition observe {A} (m : st S E A) : st S E (result E A) := fun s => let '(r, s) := m s in (Ok r, s).
End actions.

Declare Scope act_scope.
Delimit Scope act_scope with act.
Notation "'do!' x <- m ; k" := (bind m (fun x => k))
  (at level 20, x pattern, m at level 100, k at level 200, right associativity) : act_scope.
Notation "'run!' m ; k" := (bind m (fun _ => k)) (at level 20, m at level 100, k at level 200, right associativity) : act_scope.

(** ** Invariants *)
Definition pres {S E A} (I : S -> Prop) (m : st S E A) (Q : A -> Prop) : Prop :=
  forall s, I s -> I (m s).2 /\ forall a, (m s).1 = Ok a -> Q a.

Section rules.
Context {S E : Type} (I : S -> Prop).

Lemma pres_ret {A} (a : A) (Q : A -> Prop) : Q a -> pres I (ret (E := E) a) Q.
Proof. intros Ha s Hs. split; [done|]. by intros ? [= <-]. Qed.
Lemma pres_fail {A} (err : E) (Q : A -> Prop) : pres I (fail err) Q.
Proof. by intros s Hs. Qed.
Lemma pres_bind {A B} (m : st S E A) (k : A -> st S E B) P Q :
  pres I m P -> (forall a, P a -> pres I (k a) Q) -> pres I (bind m k) Q.
Proof.
  intros Hm Hk s Hs. specialize (Hm s Hs). unfold bind. destruct (m s) as [[a|e] s']; simpl in *.
  - destruct Hm as [Hs' Ha]. by apply Hk; [apply Ha|].
  - by destruct Hm.
Qed.
Lemma pres_lift {A E'} (f : E' -> E) (r : result E' A) (Q : A -> Prop) :
  (forall a, r = Ok a -> Q a) -> pres I (lift f r) Q.
Proof. intros HQ. destruct r; [by apply pres_ret, HQ|apply pres_fail]. Qed.
Lemma pres_require b (err : E) : pres I (require b err) (fun _ => b = true).
Proof. destruct b; [by apply pres_ret|apply pres_fail]. Qed.
Lemma pres_get : pres I (get (E := E)) I.
Proof. intros s Hs. split; [done|]. by intros ? [= <-]. Qed.
Lemma pres_update f : (forall s, I s -> I (f s)) -> pres I (update (E := E) f) (fun _ => True).
Proof. intros Hf s Hs. split; [by apply Hf|done]. Qed.
Lemma pres_map_err {A} f (m : st S E A) Q : pres I m Q -> pres I (map_err f m) Q.
Proof.
  intros Hm s Hs. specialize (Hm s Hs). unfold map_err. destruct (m s) as [[a|e] s']; [done|]. by destruct Hm.
Qed.
Lemma pres_observe {A} (m : st S E A) Q : pres I m Q -> pres I (observe m) (fun r => forall a, r = Ok a -> Q a).
Proof.
  intros Hm s Hs. specialize (Hm s Hs). unfold observe. destruct (m s) as [r s']. simpl in *.
  destruct Hm as [Hs' Ha]. split; [done|]. intros ? [= <-]. exact Ha.
Qed.
Lemma pres_weaken {A} (m : st S E A) (P Q : A -> Prop) : pres I m P -> (forall a, P a -> Q a) -> pres I m Q.
Proof. intros Hm HPQ s Hs. destruct (Hm s Hs) as [? Ha]. split; [done|]. intros a E'. by apply HPQ, Ha. Qed.
Lemma pres_true {A} (m : st S E A) (Q : A -> Prop) : pres I m Q -> pres I m (fun _ => True).
Proof. intros Hm. by eapply pres_weaken. Qed.
Lemma pres_seq {A B} (m : st S E A) (k : A -> st S E B) Q :
  pres I m (fun _ => True) -> (forall a, pres I (k a) Q) -> pres I (bind m k) Q.
Proof. intros Hm Hk. apply (pres_bind m k _ Q Hm). by intros. Qed.
End rules.

(** The same at one state. *)
Definition pres_at {S E A} (I : S -> Prop) (m : st S E A) (Q : A -> Prop) (s : S) : Prop :=
  I (m s).2 /\ forall a, (m s).1 = Ok a -> Q a.

Lemma pres_get_at {S E B} (I : S -> Prop) (k : S -> st S E B) Q :
  (forall s, I s -> pres_at I (k s) Q s) -> pres I (bind get k) Q.
Proof. intros Hk s Hs. by apply Hk. Qed.
Lemma pres_at_get {S E B} (I : S -> Prop) (k : S -> st S E B) Q s : pres_at I (k s) Q s -> pres_at I (bind get k) Q s.
Proof. done. Qed.
Lemma pres_at_ret {S E A} (I : S -> Prop) (a : A) (Q : A -> Prop) s : I s -> Q a -> pres_at I (ret (E := E) a) Q s.
Proof. intros Hs Ha. split; [done|]. by intros ? [= <-]. Qed.
Lemma pres_at_bind {S E A B} (I J : S -> Prop) (m : st S E A) (k : A -> st S E B) P Q s :
  pres_at J m P s -> (forall s, J s -> I s) -> (forall a s, P a -> J s -> pres_at I (k a) Q s) -> pres_at I (bind m k) Q s.
Proof.
  intros [Hs Ha] HJ Hk. unfold pres_at, bind in *. destruct (m s) as [[a|e] s']; simpl in *; [|by split; [apply HJ|]].
  by apply Hk; [apply Ha|].
Qed.

Create HintDb act.

(** Follow the code: split binds and branches, close actions with the rules. *)
Ltac act_step :=
  match goal with
  | |- pres _ (bind _ _) _ => apply pres_seq; [|intros ?]
  | |- pres _ (match ?x with _ => _ end) _ => destruct x
  | |- pres _ (map_err _ _) _ => apply pres_map_err
  | |- pres _ (ret _) _ => by apply pres_ret
  | |- pres _ (fail _) _ => apply pres_fail
  | |- pres _ (lift _ _) _ => by apply pres_lift
  | |- pres _ get _ => eapply pres_true, pres_get
  | |- pres _ (require _ _) _ => eapply pres_true, pres_require
  | |- pres _ (observe _) _ => eapply pres_true, pres_observe
  end.
Ltac act_auto := repeat (cbv zeta; first [act_step | solve [auto with act]]).

(** ** Successful computations *)
Section success.
Context {S E : Type}.

Lemma bind_ok {A B} (m : st S E A) (k : A -> st S E B) s b s' :
  bind m k s = (Ok b, s') -> exists a s1, m s = (Ok a, s1) /\ k a s1 = (Ok b, s').
Proof. unfold bind. destruct (m s) as [[a|e] s1]; [eauto|done]. Qed.
Lemma lift_ok {A E'} (f : E' -> E) (r : result E' A) (s : S) a s' : lift f r s = (Ok a, s') -> r = Ok a /\ s' = s.
Proof. by destruct r; intros [= -> ->]. Qed.
Lemma require_ok b (err : E) (s : S) a s' : require b err s = (Ok a, s') -> b = true /\ s' = s.
Proof. destruct b; by intros [=]. Qed.
Lemma ret_ok {A} (a b : A) (s s' : S) : ret (E := E) a s = (Ok b, s') -> a = b /\ s' = s.
Proof. by intros [= -> ->]. Qed.
Lemma get_ok (s s' t : S) : get (E := E) s = (Ok t, s') -> t = s /\ s' = s.
Proof. by intros [= -> ->]. Qed.
Lemma map_err_ok {A} f (m : st S E A) s a s' : map_err f m s = (Ok a, s') -> m s = (Ok a, s').
Proof. unfold map_err. by destruct (m s) as [[]]. Qed.
Lemma pres_ok {A} (I : S -> Prop) (m : st S E A) Q s a s' : pres I m Q -> I s -> m s = (Ok a, s') -> I s' /\ Q a.
Proof. intros Hm Hs Em. destruct (Hm s Hs) as [Hs' Ha]. rewrite Em in *. split; [done|by apply Ha]. Qed.
Lemma bind_require {B} b (err : E) (k : unit -> st S E B) s : b = true -> bind (require b err) k s = k tt s.
Proof. by intros ->. Qed.
End success.

(** ** Triples *)
Definition triple {S E A} (P : S -> Prop) (m : st S E A) (Q : result E A -> S -> Prop) : Prop :=
  forall s, P s -> Q (m s).1 (m s).2.

Section triples.
Context {S E : Type}.
Implicit Types (P : S -> Prop).

Lemma triple_ret {A} (a : A) P (Q : result E A -> S -> Prop) : (forall s, P s -> Q (Ok a) s) -> triple P (ret a) Q.
Proof. intros HQ s Hs. by apply HQ. Qed.
Lemma triple_fail {A} (err : E) P (Q : result E A -> S -> Prop) : (forall s, P s -> Q (Err err) s) -> triple P (fail err) Q.
Proof. intros HQ s Hs. by apply HQ. Qed.
Lemma triple_bind {A B} (m : st S E A) (k : A -> st S E B) P (R : A -> S -> Prop) Q :
  triple P m (fun r s => match r with Ok a => R a s | Err e => Q (Err e) s end) ->
  (forall a, triple (R a) (k a) Q) -> triple P (bind m k) Q.
Proof.
  intros Hm Hk s Hs. specialize (Hm s Hs). unfold bind. destruct (m s) as [[a|e] s']; simpl in *; [by apply Hk|done].
Qed.
Lemma triple_lift {A E'} (f : E' -> E) (r : result E' A) P (Q : result E A -> S -> Prop) :
  (forall s a, P s -> r = Ok a -> Q (Ok a) s) -> (forall s e, P s -> r = Err e -> Q (Err (f e)) s) -> triple P (lift f r) Q.
Proof. intros Ho He s Hs. destruct r; [by apply Ho|by apply He]. Qed.
Lemma triple_get {B} (k : S -> st S E B) P Q : (forall s0, P s0 -> triple (fun s => s = s0) (k s0) Q) -> triple P (bind get k) Q.
Proof. intros Hk s Hs. by apply Hk. Qed.
Lemma triple_map_err {A} f (m : st S E A) P Q :
  triple P m (fun r s => match r with Ok a => Q (Ok a) s | Err e => Q (Err (f e)) s end) -> triple P (map_err f m) Q.
Proof. intros Hm s Hs. specialize (Hm s Hs). unfold map_err. by destruct (m s) as [[a|e] s']. Qed.
Lemma triple_observe {A} (m : st S E A) P Q : triple P m (fun r s => Q (Ok r) s) -> triple P (observe m) Q.
Proof. intros Hm s Hs. specialize (Hm s Hs). unfold observe. by destruct (m s). Qed.
Lemma triple_pre {A} (m : st S E A) P P' Q : triple P' m Q -> (forall s, P s -> P' s) -> triple P m Q.
Proof. intros Hm HP s Hs. by apply Hm, HP. Qed.
Lemma triple_post {A} (m : st S E A) P (Q Q' : result E A -> S -> Prop) :
  triple P m Q' -> (forall r s, Q' r s -> Q r s) -> triple P m Q.
Proof. intros Hm HQ s Hs. by apply HQ, Hm. Qed.
Lemma triple_pure {A} (m : st S E A) P (C : Prop) Q : (C -> triple P m Q) -> triple (fun s => P s /\ C) m Q.
Proof. intros Hm s [Hs Hc]. by apply (Hm Hc). Qed.
Lemma triple_exists {A X} (m : st S E A) (P : X -> S -> Prop) Q :
  (forall x, triple (P x) m Q) -> triple (fun s => exists x, P x s) m Q.
Proof. intros Hm s [x Hs]. by apply (Hm x). Qed.
Lemma triple_or {A} (m : st S E A) P P' Q : triple P m Q -> triple P' m Q -> triple (fun s => P s \/ P' s) m Q.
Proof. intros Hm Hm' s [Hs|Hs]; [by apply Hm|by apply Hm']. Qed.
End triples.
