(* ===== verification/Bolt.v ===== *)
(** * The key-value store the ledger persists in

    The ledger keeps its state in [go.etcd.io/bbolt], which is not part of the
    repository.  What the code relies on is stated as an interface: a bucket
    with values of type [A] is an [M A] for some [M] with the operations and
    laws of a finite map keyed by byte strings, and a transaction body runs on
    the whole database, its effects discarded when it returns an error.
    Every model of the ledger takes such an [M]; [gmap string] is one. *)
From S2P Require Import Prelude.
From S2P Require Import GoBytes.

(** [Get], [Put] and [Delete] are [!!], [<[_:=_]>] and [delete]. *)
Class Bolt (M : Type -> Type) := {
  bolt_fmap :: FMap M;
  bolt_lookup :: forall A, Lookup string A (M A);
  bolt_empty :: forall A, Empty (M A);
  bolt_partial_alter :: forall A, PartialAlter string A (M A);
  bolt_omap :: OMap M;
  bolt_merge :: Merge M;
  bolt_fold :: forall A, MapFold string A (M A);
  bolt_finmap :: FinMap string M;
}.

#[export] Instance gmap_bolt : Bolt (gmap string) := {}.

(** ** Transactions

    A body reads and writes the database [D] and returns a value or an error.
    [Update] commits on success and rolls back on error; [View] only reads. *)
Section transactions.
Context {D E A : Type}.

Definition Update (body : D -> result E (A * D)) (db : D) : result E A * D :=
  match body db with
  | Ok (a, db') => (Ok a, db')
  | Err e => (Err e, db)
  end.

Lemma Update_Ok body db a db' :
  Update body db = (Ok a, db') <-> body db = Ok (a, db').
Proof. unfold Update. destruct (body db) as [[a' d']|e]; split; congruence. Qed.

(** Atomicity: a failed transaction leaves no trace. *)
Lemma Update_Err body db e db' :
  Update body db = (Err e, db') <-> body db = Err e /\ db' = db.
Proof. unfold Update. destruct (body db) as [[a' d']|e']; split; intuition congruence. Qed.
End transactions.

(** ** Byte order and prefixes *)
Lemma str_compare_cons c d a b :
  String.compare (String c a) (String d b) =
  match Z.compare (byte_val c) (byte_val d) with Eq => String.compare a b | r => r end.
Proof. cbn [String.compare]. by rewrite byte_compare. Qed.

Lemma below_not_prefix k p : String.ltb k p = true -> hasPrefix k p = false.
Proof.
  unfold String.ltb. revert k. induction p as [|c p IH]; intros [|d k]; try done.
  rewrite str_compare_cons. cbn [hasPrefix].
  destruct (Z.compare_spec (byte_val d) (byte_val c)) as [E|E|E]; intros Hlt; try done.
  - by rewrite IH, andb_false_r.
  - rewrite bool_decide_false; [done|]. intros ->. lia.
Qed.

Lemma le_str_spec a b : String.le a b <-> String.compare a b <> Gt.
Proof.
  unfold String.le, String.leb. destruct (String.compare a b); cbn; naive_solver.
Qed.

Lemma not_prefix_above p h k :
  String.ltb h p = false -> hasPrefix h p = false -> String.le h k -> hasPrefix k p = false.
Proof.
  rewrite le_str_spec. unfold String.ltb. revert h k.
  induction p as [|c p IH]; intros [|d h] [|e k]; try done.
  rewrite !str_compare_cons. cbn [hasPrefix].
  destruct (Z.compare_spec (byte_val d) (byte_val c)) as [E|E|E]; try done;
  destruct (Z.compare_spec (byte_val d) (byte_val e)) as [F|F|F]; try done; intros Hlt Hpre Hle.
  - apply (inj byte_val) in E. subst d. rewrite bool_decide_true in Hpre by done.
    by rewrite (IH h k), andb_false_r.
  - rewrite bool_decide_false; [done|]. intros ->. lia.
  - rewrite bool_decide_false; [done|]. intros ->. lia.
  - rewrite bool_decide_false; [done|]. intros ->. lia.
Qed.

Lemma ltb_above p h k : String.ltb h p = false -> String.le h k -> String.ltb k p = false.
Proof.
  intros Hh Hhk. destruct (String.ltb k p) eqn:Hk; [|done]. exfalso.
  assert (String.le p h).
  { apply le_str_spec. rewrite String.compare_antisym. unfold String.ltb in Hh.
    destruct (String.compare h p); done. }
  assert (Hpk : String.le p k) by (by etransitivity).
  apply le_str_spec in Hpk. rewrite String.compare_antisym in Hpk. unfold String.ltb in Hk.
  destruct (String.compare k p); done.
Qed.

(** ** Iteration

    [ForEach] and cursors visit keys in byte order. *)
Section iteration.
Context `{Bolt M} {A : Type}.
Implicit Types (b : M A).

Definition key_le (x y : string * A) : Prop := String.le x.1 y.1.
#[global] Instance key_le_dec : RelDecision key_le.
Proof. intros x y. apply String.le_dec. Defined.
#[global] Instance key_le_total : Total key_le.
Proof. intros x y. apply (String.le_total x.1 y.1). Qed.
#[global] Instance key_le_trans : Transitive key_le.
Proof. intros x y z Hxy Hyz. unfold key_le in *. by etransitivity. Qed.

Definition ForEach b : list (string * A) := merge_sort key_le (map_to_list b).

Lemma ForEach_perm b : ForEach b ≡ₚ map_to_list b.
Proof. apply merge_sort_Permutation. Qed.

Lemma elem_of_ForEach b k x : (k, x) ∈ ForEach b <-> b !! k = Some x.
Proof. rewrite ForEach_perm. apply elem_of_map_to_list. Qed.

Lemma NoDup_ForEach_keys b : NoDup (ForEach b).*1.
Proof. rewrite ForEach_perm. apply NoDup_fst_map_to_list. Qed.

Lemma ForEach_sorted b : StronglySorted key_le (ForEach b).
Proof. apply (StronglySorted_merge_sort key_le). Qed.

(** A cursor loop [for k := c.Seek(prefix); hasPrefix(k, prefix); k = c.Next()]
    starts at the first key not below [prefix] and stops at the first key
    without it. *)
Fixpoint seek (prefix : string) (l : list (string * A)) : list (string * A) :=
  match l with
  | [] => []
  | kv :: l' => if String.ltb kv.1 prefix then seek prefix l' else l
  end.
Fixpoint while_prefix (prefix : string) (l : list (string * A)) : list (string * A) :=
  match l with
  | [] => []
  | kv :: l' => if hasPrefix kv.1 prefix then kv :: while_prefix prefix l' else []
  end.
Definition cursor_scan (prefix : string) b : list (string * A) :=
  while_prefix prefix (seek prefix (ForEach b)).

Lemma while_prefix_none prefix (l : list (string * A)) :
  Forall (fun kv => hasPrefix kv.1 prefix = false) l ->
  filter (fun kv => hasPrefix kv.1 prefix = true) l = [].
Proof.
  induction 1 as [|kv l Hkv _ IH]; [done|].
  rewrite filter_cons_False; [done|]. by rewrite Hkv.
Qed.

Lemma while_prefix_filter prefix (l : list (string * A)) :
  StronglySorted key_le l -> Forall (fun kv => String.ltb kv.1 prefix = false) l ->
  while_prefix prefix l = filter (fun kv => hasPrefix kv.1 prefix = true) l.
Proof.
  induction 1 as [|kv l Hs IH Hle]; intros Hge; [done|]. inversion_clear Hge as [|? ? Hkv Hge'].
  simpl. destruct (hasPrefix kv.1 prefix) eqn:Hp.
  - rewrite filter_cons_True by done. by rewrite IH.
  - rewrite filter_cons_False by (by rewrite Hp).
    symmetry. apply while_prefix_none. eapply Forall_impl; [exact Hle|].
    intros kv' Hle'. by eapply not_prefix_above.
Qed.

(** Byte order keeps the keys with one prefix together, so the cursor loop
    sees exactly the keys with the prefix. *)
Lemma cursor_scan_filter prefix b :
  cursor_scan prefix b = filter (fun kv => hasPrefix kv.1 prefix = true) (ForEach b).
Proof.
  unfold cursor_scan. pose proof (ForEach_sorted b) as Hs.
  induction Hs as [|kv l Hs IH Hle]; [done|]. simpl.
  destruct (String.ltb kv.1 prefix) eqn:Hlt.
  - rewrite filter_cons_False by (by rewrite below_not_prefix). done.
  - apply while_prefix_filter; [by constructor|]. constructor; [done|].
    eapply Forall_impl; [exact Hle|]. intros kv' Hle'. by eapply ltb_above.
Qed.

Lemma elem_of_cursor_scan prefix b k x :
  (k, x) ∈ cursor_scan prefix b <-> hasPrefix k prefix = true /\ b !! k = Some x.
Proof. by rewrite cursor_scan_filter, list_elem_of_filter, elem_of_ForEach. Qed.

Lemma NoDup_cursor_scan prefix b : NoDup (cursor_scan prefix b).
Proof.
  rewrite cursor_scan_filter. apply NoDup_filter.
  rewrite ForEach_perm. apply NoDup_map_to_list.
Qed.

(** Deleting a list of keys, one [Delete] at a time. *)
Definition delete_keys (ks : list string) b : M A := foldr delete b ks.

Lemma lookup_delete_keys ks b k :
  delete_keys ks b !! k = if decide (k ∈ ks) then None else b !! k.
Proof.
  induction ks as [|k' ks IH]; simpl.
  - done.
  - destruct (decide (k = k')) as [->|Hne].
    + rewrite lookup_delete_eq, decide_True; [done|]. left.
    + rewrite lookup_delete_ne, IH by done.
      destruct (decide (k ∈ ks)).
      * rewrite decide_True; [done|]. by right.
      * rewrite decide_False; [done|]. rewrite elem_of_cons. naive_solver.
Qed.
End iteration.

(** A bucket created on first use ([CreateBucketIfNotExists]) is [None]
    before it exists; reading it then finds nothing. *)
Definition opt_bucket `{Bolt M} {A} (b : option (M A)) : M A := default ∅ b.
