(* ===== verification/Limits.v ===== *)
(** * The payer's spend limits

    payment-daemon/internal/service/sender/limits.go: what this payer will
    sign, and the textual form of its price policy.  [None] is a [nil] limit:
    unlimited. *)
From S2P Require Import Prelude.
From S2P Require Import GoBytes.
From S2P Require Import GoCodecs.
From S2P Require Import GoStrings.
From S2P Require Import Bolt.
From Stdlib Require Import Ascii.

Record Limits := mkLimits {
  l_MaxPaymentWei : option Z;
  l_MaxTicketFaceValueWei : option Z;
  l_MaxAuthorizationWei : option Z;
  l_MaxPricePerUnit : gmap string Z;
}.

(** A value above a limit that is set. *)
Definition exceeds (value : Z) (limit : option Z) : bool :=
  match limit with Some max => max <? value | None => false end.

Definition CheckAuthorization (l : Limits) (maxDebitWei : Z) : result string unit :=
  if exceeds maxDebitWei (l_MaxAuthorizationWei l) then Err "max-authorization-wei" else Ok tt.

Definition CheckSignedTicketBatch (l : Limits) (totalExpectedValueWei faceValueWei : Z) : result string unit :=
  if exceeds totalExpectedValueWei (l_MaxPaymentWei l) then Err "max-payment-wei"
  else if exceeds faceValueWei (l_MaxTicketFaceValueWei l) then Err "max-ticket-face-value-wei"
  else Ok tt.

(** A price is quoted per [perUnits] units, the ceiling per unit. *)
Definition CheckMint (l : Limits) (workUnit : string) (pricePerUnitWei perUnits fundedValueWei : Z) : result string unit :=
  if exceeds fundedValueWei (l_MaxPaymentWei l) then Err "max-payment-wei"
  else match l_MaxPricePerUnit l !! TrimSpace workUnit with
  | None => Ok tt
  | Some ceiling =>
      let perUnits := if perUnits =? 0 then 1 else perUnits in
      if ceiling * perUnits <? pricePerUnitWei then Err "max-price-per-unit" else Ok tt
  end.

(** ** The flag [unit=wei,unit=wei] *)
Definition comma : ascii := ",".
Definition equals : ascii := "=".

Fixpoint parse_pairs (items : list string) (out : gmap string Z) : result string (gmap string Z) :=
  match items with
  | [] => Ok out
  | item :: items' =>
      let item := TrimSpace item in
      if bool_decide (item = "") then parse_pairs items' out
      else
        let '(unit, value, ok) := Cut equals item in
        let unit := TrimSpace unit in
        let value := TrimSpace value in
        if negb ok || bool_decide (unit = "") || bool_decide (value = "")
        then Err "malformed entry: want unit=wei"
        else match SetString10 value with
        | None => Err "not a non-negative decimal integer"
        | Some wei =>
            if wei <? 0 then Err "not a non-negative decimal integer"
            else parse_pairs items' (<[unit := wei]> out)
        end
  end.

Definition ParseMaxPricePerUnit (raw : string) : result string (gmap string Z) :=
  parse_pairs (Split comma raw) ∅.

(** ** The startup log line *)
Definition rate (kv : string * Z) : string := kv.1 +:+ String equals (dec_string kv.2).

(** The rates by unit, in byte order. *)
Definition rates (m : gmap string Z) : string := Join (String comma "") (rate <$> ForEach m).

Definition limit_part (name : string) (limit : option Z) : string :=
  name +:+ match limit with Some max => dec_string max | None => "unlimited" end.

Definition Describe (l : Limits) : string :=
  Join " " [limit_part "max_payment_wei=" (l_MaxPaymentWei l);
            limit_part "max_ticket_face_value_wei=" (l_MaxTicketFaceValueWei l);
            limit_part "max_authorization_wei=" (l_MaxAuthorizationWei l);
            if bool_decide (l_MaxPricePerUnit l = ∅)
            then "max_price_per_unit=(none set — only the circuit breaker applies)"
            else "max_price_per_unit=" +:+ rates (l_MaxPricePerUnit l)].

(** ** What passing the limits means *)
Lemma exceeds_false v limit : exceeds v limit = false <-> forall max, limit = Some max -> v <= max.
Proof.
  destruct limit as [m|]; simpl; [|done]. rewrite Z.ltb_ge. split; [by intros ? ? [= <-]|by intros Hm; apply Hm].
Qed.

Lemma CheckMint_ok l wu price per funded :
  CheckMint l wu price per funded = Ok tt <->
  (forall max, l_MaxPaymentWei l = Some max -> funded <= max) /\
  (forall ceiling, l_MaxPricePerUnit l !! TrimSpace wu = Some ceiling ->
     price <= ceiling * (if per =? 0 then 1 else per)).
Proof.
  unfold CheckMint. rewrite <- exceeds_false. destruct (exceeds funded _); [split; [done|by intros [? _]]|].
  destruct (l_MaxPricePerUnit l !! TrimSpace wu) as [c|]; [|split; [done|done]].
  destruct (Z.ltb_spec (c * (if per =? 0 then 1 else per)) price) as [H|H].
  - split; [done|]. intros [_ Hc]. specialize (Hc _ eq_refl). lia.
  - split; [|done]. intros _. split; [done|]. by intros ? [= <-].
Qed.

Lemma CheckSignedTicketBatch_ok l ev face :
  CheckSignedTicketBatch l ev face = Ok tt <->
  (forall max, l_MaxPaymentWei l = Some max -> ev <= max) /\
  (forall max, l_MaxTicketFaceValueWei l = Some max -> face <= max).
Proof.
  unfold CheckSignedTicketBatch. rewrite <- !exceeds_false.
  destruct (exceeds ev _); [split; [done|by intros [? _]]|].
  destruct (exceeds face _); split; done || by intros [? ?].
Qed.

(** ** The round trip of the price policy *)

(** The names of work units: visible characters other than the separators. *)
Definition unit_char (c : ascii) : bool := visible c && negb (bool_decide (c = comma)) && negb (bool_decide (c = equals)).
Definition unit_name (u : string) : Prop := u <> "" /\ all_bytes unit_char u = true.

Lemma unit_char_not c d : d = comma \/ d = equals -> unit_char c = true -> negb (bool_decide (c = d)) = true.
Proof. unfold unit_char. intros Hd H. to_prop. apply negb_true_iff, bool_decide_eq_false. by destruct Hd as [->|Hd]; [|subst d]. Qed.

Lemma unit_name_visible u : all_bytes unit_char u = true -> all_bytes visible u = true.
Proof. apply all_bytes_impl. unfold unit_char. intros c H. by to_prop. Qed.

Lemma dec_string_digits n : 0 <= n -> all_bytes unit_char (dec_string n) = true.
Proof.
  intros Hn. unfold dec_string. rewrite (proj2 (Z.ltb_ge n 0)) by lia. unfold dec_nonneg.
  assert (forall f n acc, 0 <= n -> all_bytes unit_char acc = true -> all_bytes unit_char (dec_go f n acc) = true) as E.
  { clear. induction f as [|f IH]; intros n acc Hn Ha; [done|]. cbn [dec_go].
    assert (unit_char (byte_of (48 + n mod 10)) = true) as Hd.
    { pose proof (Z.mod_pos_bound n 10 ltac:(lia)). assert (n mod 10 = 0 \/ n mod 10 = 1 \/ n mod 10 = 2 \/ n mod 10 = 3 \/
        n mod 10 = 4 \/ n mod 10 = 5 \/ n mod 10 = 6 \/ n mod 10 = 7 \/ n mod 10 = 8 \/ n mod 10 = 9) as Hc by lia.
      repeat (destruct Hc as [Hc|Hc]; [by rewrite Hc|]). by rewrite Hc. }
    destruct (_ =? 0); [|apply IH; [apply Z.div_pos; lia|]]; cbn; by rewrite Hd, Ha. }
  by apply E.
Qed.

Lemma dec_string_nonempty n : dec_string n <> "".
Proof. intros E. pose proof (SetString10_dec n) as H. by rewrite E in H. Qed.

Lemma parse_rates l m :
  NoDup l.*1 -> Forall (fun kv => unit_name kv.1 /\ 0 <= kv.2) l -> (forall k v, (k, v) ∈ l -> m !! k = None) ->
  parse_pairs (rate <$> l) m = Ok (list_to_map l ∪ m).
Proof.
  revert m. induction l as [|[u v] l IH]; intros m Hnd Hall Hm; simpl.
  { by rewrite (left_id_L ∅ (∪)). }
  apply NoDup_cons in Hnd as [Hu Hnd]. apply Forall_cons in Hall as [[[Hne Hc] Hv] Hall]. simpl in *.
  pose proof (dec_string_digits v Hv) as Hd.
  assert (all_bytes visible (rate (u, v)) = true) as Hvis.
  { unfold rate. simpl. rewrite all_bytes_app. cbn [all_bytes]. rewrite (unit_name_visible _ Hc).
    by rewrite (unit_name_visible _ Hd). }
  rewrite (TrimSpace_visible _ Hvis). rewrite bool_decide_false by (unfold rate; by destruct u).
  unfold rate. simpl. rewrite Cut_app.
  2: { eapply all_bytes_impl; [|exact Hc]. intros c. apply unit_char_not. by right. }
  rewrite !TrimSpace_visible by (by apply unit_name_visible).
  rewrite (bool_decide_false (u = "")), (bool_decide_false (dec_string v = "")) by (done || apply dec_string_nonempty).
  simpl. rewrite SetString10_dec, (proj2 (Z.ltb_ge v 0)) by lia. rewrite IH; [|done|done|].
  - f_equal. rewrite <- insert_union_l, insert_union_r; [done|].
    apply not_elem_of_list_to_map_1. done.
  - intros k w Hk. rewrite lookup_insert_ne; [by eapply Hm; right|]. intros ->. apply Hu.
    apply list_elem_of_fmap. by exists (k, w).
Qed.

(** The price policy survives its textual form: parsing what the daemon prints
    for a policy over well-formed unit names gives the policy back. *)
Theorem price_policy_roundtrip m :
  (forall u wei, m !! u = Some wei -> unit_name u /\ 0 <= wei) -> ParseMaxPricePerUnit (rates m) = Ok m.
Proof.
  intros Hm. unfold ParseMaxPricePerUnit, rates.
  pose proof (ForEach_perm m : ForEach m ≡ₚ map_to_list m) as Hperm.
  destruct (decide (m = ∅)) as [->|Hne]; [by vm_compute|].
  assert (Forall (fun kv => unit_name kv.1 /\ 0 <= kv.2) (ForEach m)) as Hall.
  { apply Forall_forall. intros [u v] Hin%elem_of_ForEach. by apply Hm. }
  rewrite Split_Join.
  - rewrite parse_rates; [|apply NoDup_ForEach_keys|done|by intros; rewrite lookup_empty].
    rewrite (right_id_L ∅ (∪)). f_equal. rewrite <- (list_to_map_to_list m) at 2.
    apply list_to_map_proper; [apply NoDup_ForEach_keys|exact Hperm].
  - intros E. apply fmap_nil_inv in E. apply Hne. apply map_to_list_empty_iff, Permutation_nil_r.
    by rewrite <- Hperm, E.
  - apply Forall_fmap, (Forall_impl _ _ _ Hall). intros [u v] [[_ Hc] Hv]. unfold rate. simpl.
    rewrite all_bytes_app. cbn [all_bytes].
    rewrite !(all_bytes_impl unit_char (fun c => negb (bool_decide (c = comma)))); [done|..];
      try (intros c; apply unit_char_not; by left);
      [by apply dec_string_digits|done].
Qed.

Lemma price_policy_roundtrip_witness :
  ParseMaxPricePerUnit (rates {[ "token" := 7; "video_seconds" := 1200 ]}) = Ok {[ "token" := 7; "video_seconds" := 1200 ]} /\
  rates {[ "token" := 7; "video_seconds" := 1200 ]} = "token=7,video_seconds=1200".
Proof.
  split; [|vm_refl]. apply price_policy_roundtrip. intros u wei H.
  apply lookup_insert_Some in H as [[<- <-]|[_ H]]; [split; [split; [done|vm_refl]|lia]|].
  apply lookup_singleton_Some in H as [<- <-]. split; [split; [done|vm_refl]|lia].
Defined.
