(* ===== verification/Ledger.v ===== *)
(** * The ledger's data: session, account, ticket and mint records, and the database

    One Rocq record per Go struct of payment-daemon/internal/store, fields in
    the struct's order under a prefix of their own.  [*big.Int] amounts that
    the structs keep as decimal strings stay decimal strings; [time.Time] is a
    number of nanoseconds whose zero is Go's zero time; the buckets hold
    the decoded records (each bucket only ever holds what this package
    marshalled into it). *)
From S2P Require Import Prelude.
From S2P Require Import GoBytes.
From S2P Require Import Bolt.

(** The on-disk receiver session record ([type Session struct]). *)
Record Session := mkSession {
  s_WholesaleAccountID : string;
  s_TicketStreamID : string;
  s_WorkID : string;
  s_Sender : string;
  s_Recipient : string;
  s_Capability : string;
  s_Offering : string;
  s_PricePerWorkUnitWei : string;
  s_PerUnits : Z;
  s_WorkUnit : string;
  s_DebitedUnits : Z;
  s_BalanceWei : string;
  s_Closed : bool;
  s_OpenedAt : Z;
  s_ClosedAt : Z;
  s_RecipientRand : string;
  s_FaceValueWei : string;
  s_WinProb : string;
}.

Definition s_with_WholesaleAccountID (v : string) (r : Session) : Session :=
  mkSession v (s_TicketStreamID r) (s_WorkID r) (s_Sender r) (s_Recipient r) (s_Capability r) (s_Offering r) (s_PricePerWorkUnitWei r) (s_PerUnits r) (s_WorkUnit r) (s_DebitedUnits r) (s_BalanceWei r) (s_Closed r) (s_OpenedAt r) (s_ClosedAt r) (s_RecipientRand r) (s_FaceValueWei r) (s_WinProb r).
Definition s_with_TicketStreamID (v : string) (r : Session) : Session :=
  mkSession (s_WholesaleAccountID r) v (s_WorkID r) (s_Sender r) (s_Recipient r) (s_Capability r) (s_Offering r) (s_PricePerWorkUnitWei r) (s_PerUnits r) (s_WorkUnit r) (s_DebitedUnits r) (s_BalanceWei r) (s_Closed r) (s_OpenedAt r) (s_ClosedAt r) (s_RecipientRand r) (s_FaceValueWei r) (s_WinProb r).
Definition s_with_WorkID (v : string) (r : Session) : Session :=
  mkSession (s_WholesaleAccountID r) (s_TicketStreamID r) v (s_Sender r) (s_Recipient r) (s_Capability r) (s_Offering r) (s_PricePerWorkUnitWei r) (s_PerUnits r) (s_WorkUnit r) (s_DebitedUnits r) (s_BalanceWei r) (s_Closed r) (s_OpenedAt r) (s_ClosedAt r) (s_RecipientRand r) (s_FaceValueWei r) (s_WinProb r).
Definition s_with_Sender (v : string) (r : Session) : Session :=
  mkSession (s_WholesaleAccountID r) (s_TicketStreamID r) (s_WorkID r) v (s_Recipient r) (s_Capability r) (s_Offering r) (s_PricePerWorkUnitWei r) (s_PerUnits r) (s_WorkUnit r) (s_DebitedUnits r) (s_BalanceWei r) (s_Closed r) (s_OpenedAt r) (s_ClosedAt r) (s_RecipientRand r) (s_FaceValueWei r) (s_WinProb r).
Definition s_with_Recipient (v : string) (r : Session) : Session :=
  mkSession (s_WholesaleAccountID r) (s_TicketStreamID r) (s_WorkID r) (s_Sender r) v (s_Capability r) (s_Offering r) (s_PricePerWorkUnitWei r) (s_PerUnits r) (s_WorkUnit r) (s_DebitedUnits r) (s_BalanceWei r) (s_Closed r) (s_OpenedAt r) (s_ClosedAt r) (s_RecipientRand r) (s_FaceValueWei r) (s_WinProb r).
Definition s_with_Capability (v : string) (r : Session) : Session :=
  mkSession (s_WholesaleAccountID r) (s_TicketStreamID r) (s_WorkID r) (s_Sender r) (s_Recipient r) v (s_Offering r) (s_PricePerWorkUnitWei r) (s_PerUnits r) (s_WorkUnit r) (s_DebitedUnits r) (s_BalanceWei r) (s_Closed r) (s_OpenedAt r) (s_ClosedAt r) (s_RecipientRand r) (s_FaceValueWei r) (s_WinProb r).
Definition s_with_Offering (v : string) (r : Session) : Session :=
  mkSession (s_WholesaleAccountID r) (s_TicketStreamID r) (s_WorkID r) (s_Sender r) (s_Recipient r) (s_Capability r) v (s_PricePerWorkUnitWei r) (s_PerUnits r) (s_WorkUnit r) (s_DebitedUnits r) (s_BalanceWei r) (s_Closed r) (s_OpenedAt r) (s_ClosedAt r) (s_RecipientRand r) (s_FaceValueWei r) (s_WinProb r).
Definition s_with_PricePerWorkUnitWei (v : string) (r : Session) : Session :=
  mkSession (s_WholesaleAccountID r) (s_TicketStreamID r) (s_WorkID r) (s_Sender r) (s_Recipient r) (s_Capability r) (s_Offering r) v (s_PerUnits r) (s_WorkUnit r) (s_DebitedUnits r) (s_BalanceWei r) (s_Closed r) (s_OpenedAt r) (s_ClosedAt r) (s_RecipientRand r) (s_FaceValueWei r) (s_WinProb r).
Definition s_with_PerUnits (v : Z) (r : Session) : Session :=
  mkSession (s_WholesaleAccountID r) (s_TicketStreamID r) (s_WorkID r) (s_Sender r) (s_Recipient r) (s_Capability r) (s_Offering r) (s_PricePerWorkUnitWei r) v (s_WorkUnit r) (s_DebitedUnits r) (s_BalanceWei r) (s_Closed r) (s_OpenedAt r) (s_ClosedAt r) (s_RecipientRand r) (s_FaceValueWei r) (s_WinProb r).
Definition s_with_WorkUnit (v : string) (r : Session) : Session :=
  mkSession (s_WholesaleAccountID r) (s_TicketStreamID r) (s_WorkID r) (s_Sender r) (s_Recipient r) (s_Capability r) (s_Offering r) (s_PricePerWorkUnitWei r) (s_PerUnits r) v (s_DebitedUnits r) (s_BalanceWei r) (s_Closed r) (s_OpenedAt r) (s_ClosedAt r) (s_RecipientRand r) (s_FaceValueWei r) (s_WinProb r).
Definition s_with_DebitedUnits (v : Z) (r : Session) : Session :=
  mkSession (s_WholesaleAccountID r) (s_TicketStreamID r) (s_WorkID r) (s_Sender r) (s_Recipient r) (s_Capability r) (s_Offering r) (s_PricePerWorkUnitWei r) (s_PerUnits r) (s_WorkUnit r) v (s_BalanceWei r) (s_Closed r) (s_OpenedAt r) (s_ClosedAt r) (s_RecipientRand r) (s_FaceValueWei r) (s_WinProb r).
Definition s_with_BalanceWei (v : string) (r : Session) : Session :=
  mkSession (s_WholesaleAccountID r) (s_TicketStreamID r) (s_WorkID r) (s_Sender r) (s_Recipient r) (s_Capability r) (s_Offering r) (s_PricePerWorkUnitWei r) (s_PerUnits r) (s_WorkUnit r) (s_DebitedUnits r) v (s_Closed r) (s_OpenedAt r) (s_ClosedAt r) (s_RecipientRand r) (s_FaceValueWei r) (s_WinProb r).
Definition s_with_Closed (v : bool) (r : Session) : Session :=
  mkSession (s_WholesaleAccountID r) (s_TicketStreamID r) (s_WorkID r) (s_Sender r) (s_Recipient r) (s_Capability r) (s_Offering r) (s_PricePerWorkUnitWei r) (s_PerUnits r) (s_WorkUnit r) (s_DebitedUnits r) (s_BalanceWei r) v (s_OpenedAt r) (s_ClosedAt r) (s_RecipientRand r) (s_FaceValueWei r) (s_WinProb r).
Definition s_with_OpenedAt (v : Z) (r : Session) : Session :=
  mkSession (s_WholesaleAccountID r) (s_TicketStreamID r) (s_WorkID r) (s_Sender r) (s_Recipient r) (s_Capability r) (s_Offering r) (s_PricePerWorkUnitWei r) (s_PerUnits r) (s_WorkUnit r) (s_DebitedUnits r) (s_BalanceWei r) (s_Closed r) v (s_ClosedAt r) (s_RecipientRand r) (s_FaceValueWei r) (s_WinProb r).
Definition s_with_ClosedAt (v : Z) (r : Session) : Session :=
  mkSession (s_WholesaleAccountID r) (s_TicketStreamID r) (s_WorkID r) (s_Sender r) (s_Recipient r) (s_Capability r) (s_Offering r) (s_PricePerWorkUnitWei r) (s_PerUnits r) (s_WorkUnit r) (s_DebitedUnits r) (s_BalanceWei r) (s_Closed r) (s_OpenedAt r) v (s_RecipientRand r) (s_FaceValueWei r) (s_WinProb r).
Definition s_with_RecipientRand (v : string) (r : Session) : Session :=
  mkSession (s_WholesaleAccountID r) (s_TicketStreamID r) (s_WorkID r) (s_Sender r) (s_Recipient r) (s_Capability r) (s_Offering r) (s_PricePerWorkUnitWei r) (s_PerUnits r) (s_WorkUnit r) (s_DebitedUnits r) (s_BalanceWei r) (s_Closed r) (s_OpenedAt r) (s_ClosedAt r) v (s_FaceValueWei r) (s_WinProb r).
Definition s_with_FaceValueWei (v : string) (r : Session) : Session :=
  mkSession (s_WholesaleAccountID r) (s_TicketStreamID r) (s_WorkID r) (s_Sender r) (s_Recipient r) (s_Capability r) (s_Offering r) (s_PricePerWorkUnitWei r) (s_PerUnits r) (s_WorkUnit r) (s_DebitedUnits r) (s_BalanceWei r) (s_Closed r) (s_OpenedAt r) (s_ClosedAt r) (s_RecipientRand r) v (s_WinProb r).
Definition s_with_WinProb (v : string) (r : Session) : Session :=
  mkSession (s_WholesaleAccountID r) (s_TicketStreamID r) (s_WorkID r) (s_Sender r) (s_Recipient r) (s_Capability r) (s_Offering r) (s_PricePerWorkUnitWei r) (s_PerUnits r) (s_WorkUnit r) (s_DebitedUnits r) (s_BalanceWei r) (s_Closed r) (s_OpenedAt r) (s_ClosedAt r) (s_RecipientRand r) (s_FaceValueWei r) v.

#[export] Instance Session_eq_dec : EqDecision Session.
Proof. solve_decision. Defined.

(** The stable identity [GetTicketParams] reuses a session for. *)
Record TicketSessionKey := mkTicketSessionKey {
  k_WholesaleAccountID : string;
  k_TicketStreamID : string;
  k_Sender : string;
  k_Recipient : string;
  k_Capability : string;
  k_Offering : string;
}.

#[export] Instance TicketSessionKey_eq_dec : EqDecision TicketSessionKey.
Proof. solve_decision. Defined.

(** One payer/payee ledger row ([type WholesaleAccount struct]). *)
Record WholesaleAccount := mkWholesaleAccount {
  acc_WholesaleAccountID : string;
  acc_Payer : string;
  acc_Payee : string;
  acc_CreditedWei : string;
  acc_ReservedWei : string;
  acc_DebitedWei : string;
  acc_Version : Z;
  acc_UpdatedAt : Z;
}.

Definition acc_with_CreditedWei (v : string) (r : WholesaleAccount) : WholesaleAccount :=
  mkWholesaleAccount (acc_WholesaleAccountID r) (acc_Payer r) (acc_Payee r) v (acc_ReservedWei r) (acc_DebitedWei r) (acc_Version r) (acc_UpdatedAt r).
Definition acc_with_ReservedWei (v : string) (r : WholesaleAccount) : WholesaleAccount :=
  mkWholesaleAccount (acc_WholesaleAccountID r) (acc_Payer r) (acc_Payee r) (acc_CreditedWei r) v (acc_DebitedWei r) (acc_Version r) (acc_UpdatedAt r).
Definition acc_with_DebitedWei (v : string) (r : WholesaleAccount) : WholesaleAccount :=
  mkWholesaleAccount (acc_WholesaleAccountID r) (acc_Payer r) (acc_Payee r) (acc_CreditedWei r) (acc_ReservedWei r) v (acc_Version r) (acc_UpdatedAt r).
Definition acc_with_Version (v : Z) (r : WholesaleAccount) : WholesaleAccount :=
  mkWholesaleAccount (acc_WholesaleAccountID r) (acc_Payer r) (acc_Payee r) (acc_CreditedWei r) (acc_ReservedWei r) (acc_DebitedWei r) v (acc_UpdatedAt r).
Definition acc_with_UpdatedAt (v : Z) (r : WholesaleAccount) : WholesaleAccount :=
  mkWholesaleAccount (acc_WholesaleAccountID r) (acc_Payer r) (acc_Payee r) (acc_CreditedWei r) (acc_ReservedWei r) (acc_DebitedWei r) (acc_Version r) v.

#[export] Instance WholesaleAccount_eq_dec : EqDecision WholesaleAccount.
Proof. solve_decision. Defined.

(** The payee-wide exposure view. *)
Record WholesaleTotals := mkWholesaleTotals {
  tot_CreditedWei : string;
  tot_ReservedWei : string;
  tot_DebitedWei : string;
}.

#[export] Instance WholesaleTotals_eq_dec : EqDecision WholesaleTotals.
Proof. solve_decision. Defined.

(** What an admission asks for. *)
Record WholesaleAuthorizationSeed := mkWholesaleAuthorizationSeed {
  sd_WholesaleAccountID : string;
  sd_ID : string;
  sd_Fingerprint : string;
  sd_Payer : string;
  sd_Payee : string;
  sd_RequestID : string;
  sd_SessionID : string;
  sd_Protocol : string;
  sd_Capability : string;
  sd_Offering : string;
  sd_PriceWei : string;
  sd_PerUnits : Z;
  sd_WorkUnit : string;
  sd_MaxDebitWei : string;
  sd_MaxTotalUnits : Z;
  sd_ExpiresAt : Z;
  sd_Revision : Z;
  sd_PredecessorID : string;
}.

#[export] Instance WholesaleAuthorizationSeed_eq_dec : EqDecision WholesaleAuthorizationSeed.
Proof. solve_decision. Defined.

(** The states an authorization row is stored in; [AuthorizationCanceledUnused]
    is only ever reported, for a canceled admission that has no row. *)
Inductive AuthorizationState :=
  | AuthorizationAdmitted
  | AuthorizationSettled
  | AuthorizationExpiredUnused
  | AuthorizationSuperseded
  | AuthorizationCanceledUnused.

#[export] Instance AuthorizationState_eq_dec : EqDecision AuthorizationState.
Proof. solve_decision. Defined.

(** A recorded spend authorization. *)
Record WholesaleAuthorization := mkWholesaleAuthorization {
  au_WholesaleAccountID : string;
  au_ID : string;
  au_Fingerprint : string;
  au_Payer : string;
  au_Payee : string;
  au_RequestID : string;
  au_SessionID : string;
  au_Protocol : string;
  au_Capability : string;
  au_Offering : string;
  au_PriceWei : string;
  au_PerUnits : Z;
  au_WorkUnit : string;
  au_MaxDebitWei : string;
  au_MaxTotalUnits : Z;
  au_State : AuthorizationState;
  au_ActualUnits : Z;
  au_BilledWei : string;
  au_ReleasedWei : string;
  au_ReservedWei : string;
  au_SettlementSeq : Z;
  au_ExpiresAt : Z;
  au_UpdatedAt : Z;
  au_Revision : Z;
  au_PredecessorID : string;
}.

Definition au_with_State (v : AuthorizationState) (r : WholesaleAuthorization) : WholesaleAuthorization :=
  mkWholesaleAuthorization (au_WholesaleAccountID r) (au_ID r) (au_Fingerprint r) (au_Payer r) (au_Payee r) (au_RequestID r) (au_SessionID r) (au_Protocol r) (au_Capability r) (au_Offering r) (au_PriceWei r) (au_PerUnits r) (au_WorkUnit r) (au_MaxDebitWei r) (au_MaxTotalUnits r) v (au_ActualUnits r) (au_BilledWei r) (au_ReleasedWei r) (au_ReservedWei r) (au_SettlementSeq r) (au_ExpiresAt r) (au_UpdatedAt r) (au_Revision r) (au_PredecessorID r).
Definition au_with_ActualUnits (v : Z) (r : WholesaleAuthorization) : WholesaleAuthorization :=
  mkWholesaleAuthorization (au_WholesaleAccountID r) (au_ID r) (au_Fingerprint r) (au_Payer r) (au_Payee r) (au_RequestID r) (au_SessionID r) (au_Protocol r) (au_Capability r) (au_Offering r) (au_PriceWei r) (au_PerUnits r) (au_WorkUnit r) (au_MaxDebitWei r) (au_MaxTotalUnits r) (au_State r) v (au_BilledWei r) (au_ReleasedWei r) (au_ReservedWei r) (au_SettlementSeq r) (au_ExpiresAt r) (au_UpdatedAt r) (au_Revision r) (au_PredecessorID r).
Definition au_with_BilledWei (v : string) (r : WholesaleAuthorization) : WholesaleAuthorization :=
  mkWholesaleAuthorization (au_WholesaleAccountID r) (au_ID r) (au_Fingerprint r) (au_Payer r) (au_Payee r) (au_RequestID r) (au_SessionID r) (au_Protocol r) (au_Capability r) (au_Offering r) (au_PriceWei r) (au_PerUnits r) (au_WorkUnit r) (au_MaxDebitWei r) (au_MaxTotalUnits r) (au_State r) (au_ActualUnits r) v (au_ReleasedWei r) (au_ReservedWei r) (au_SettlementSeq r) (au_ExpiresAt r) (au_UpdatedAt r) (au_Revision r) (au_PredecessorID r).
Definition au_with_ReleasedWei (v : string) (r : WholesaleAuthorization) : WholesaleAuthorization :=
  mkWholesaleAuthorization (au_WholesaleAccountID r) (au_ID r) (au_Fingerprint r) (au_Payer r) (au_Payee r) (au_RequestID r) (au_SessionID r) (au_Protocol r) (au_Capability r) (au_Offering r) (au_PriceWei r) (au_PerUnits r) (au_WorkUnit r) (au_MaxDebitWei r) (au_MaxTotalUnits r) (au_State r) (au_ActualUnits r) (au_BilledWei r) v (au_ReservedWei r) (au_SettlementSeq r) (au_ExpiresAt r) (au_UpdatedAt r) (au_Revision r) (au_PredecessorID r).
Definition au_with_ReservedWei (v : string) (r : WholesaleAuthorization) : WholesaleAuthorization :=
  mkWholesaleAuthorization (au_WholesaleAccountID r) (au_ID r) (au_Fingerprint r) (au_Payer r) (au_Payee r) (au_RequestID r) (au_SessionID r) (au_Protocol r) (au_Capability r) (au_Offering r) (au_PriceWei r) (au_PerUnits r) (au_WorkUnit r) (au_MaxDebitWei r) (au_MaxTotalUnits r) (au_State r) (au_ActualUnits r) (au_BilledWei r) (au_ReleasedWei r) v (au_SettlementSeq r) (au_ExpiresAt r) (au_UpdatedAt r) (au_Revision r) (au_PredecessorID r).
Definition au_with_SettlementSeq (v : Z) (r : WholesaleAuthorization) : WholesaleAuthorization :=
  mkWholesaleAuthorization (au_WholesaleAccountID r) (au_ID r) (au_Fingerprint r) (au_Payer r) (au_Payee r) (au_RequestID r) (au_SessionID r) (au_Protocol r) (au_Capability r) (au_Offering r) (au_PriceWei r) (au_PerUnits r) (au_WorkUnit r) (au_MaxDebitWei r) (au_MaxTotalUnits r) (au_State r) (au_ActualUnits r) (au_BilledWei r) (au_ReleasedWei r) (au_ReservedWei r) v (au_ExpiresAt r) (au_UpdatedAt r) (au_Revision r) (au_PredecessorID r).
Definition au_with_UpdatedAt (v : Z) (r : WholesaleAuthorization) : WholesaleAuthorization :=
  mkWholesaleAuthorization (au_WholesaleAccountID r) (au_ID r) (au_Fingerprint r) (au_Payer r) (au_Payee r) (au_RequestID r) (au_SessionID r) (au_Protocol r) (au_Capability r) (au_Offering r) (au_PriceWei r) (au_PerUnits r) (au_WorkUnit r) (au_MaxDebitWei r) (au_MaxTotalUnits r) (au_State r) (au_ActualUnits r) (au_BilledWei r) (au_ReleasedWei r) (au_ReservedWei r) (au_SettlementSeq r) (au_ExpiresAt r) v (au_Revision r) (au_PredecessorID r).

#[export] Instance WholesaleAuthorization_eq_dec : EqDecision WholesaleAuthorization.
Proof. solve_decision. Defined.

(** The fence left by a canceled admission. *)
Record canceledAdmission := mkcanceledAdmission {
  ca_Payee : string;
  ca_Fingerprint : string;
  ca_At : Z;
}.

#[export] Instance canceledAdmission_eq_dec : EqDecision canceledAdmission.
Proof. solve_decision. Defined.

(** The fence left by [CloseUnexecutedAuthorization]. *)
Record unexecutedFence := mkunexecutedFence {
  uf_Reason : string;
  uf_At : Z;
}.

#[export] Instance unexecutedFence_eq_dec : EqDecision unexecutedFence.
Proof. solve_decision. Defined.

(** A winning ticket awaiting redemption. *)
Record SignedTicket := mkSignedTicket {
  st_Recipient : string;
  st_Sender : string;
  st_FaceValue : Z;
  st_WinProb : Z;
  st_SenderNonce : Z;
  st_RecipientRandHash : string;
  st_CreationRound : Z;
  st_CreationRoundHash : string;
  st_Sig : string;
  st_RecipientRand : Z;
}.

#[export] Instance SignedTicket_eq_dec : EqDecision SignedTicket.
Proof. solve_decision. Defined.

(** Chain inclusion evidence (types/redemption.go). *)
Record RedemptionInclusion := mkRedemptionInclusion {
  inc_TxHash : string;
  inc_BlockNumber : Z;
  inc_BlockHash : string;
  inc_Round : Z;
  inc_ObservedHead : Z;
  inc_ObservedHeadHash : string;
  inc_CheckedAt : Z;
}.

#[export] Instance RedemptionInclusion_eq_dec : EqDecision RedemptionInclusion.
Proof. solve_decision. Defined.

(** The durable record of a ticket that left the queue. *)
Record RedeemedRedemption := mkRedeemedRedemption {
  rr_DrainReason : string;
  rr_Inclusion : option RedemptionInclusion;
  rr_TicketHash : string;
  rr_TxHash : string;
  rr_Sender : string;
  rr_FaceValueWei : string;
  rr_CreationRound : Z;
  rr_RedeemedRound : Z;
  rr_ConfirmedOnChain : bool;
}.

#[export] Instance RedeemedRedemption_eq_dec : EqDecision RedeemedRedemption.
Proof. solve_decision. Defined.

(** The recorded response of one mint intent. *)
Record MintRecord := mkMintRecord {
  mr_Fingerprint : string;
  mr_PaymentBytes : string;
  mr_TicketsCreated : Z;
  mr_ExpectedValue : string;
  mr_FundedValueWei : string;
  mr_AccountShortfallWei : string;
  mr_QuoteRefJSON : string;
  mr_WorkID : string;
  mr_CreatedAt : Z;
}.

Definition mr_with_CreatedAt (v : Z) (r : MintRecord) : MintRecord :=
  mkMintRecord (mr_Fingerprint r) (mr_PaymentBytes r) (mr_TicketsCreated r) (mr_ExpectedValue r) (mr_FundedValueWei r) (mr_AccountShortfallWei r) (mr_QuoteRefJSON r) (mr_WorkID r) v.

#[export] Instance MintRecord_eq_dec : EqDecision MintRecord.
Proof. solve_decision. Defined.

(** The permanent trace of a mint intent. *)
Record mintTombstone := mkmintTombstone {
  mt_Fingerprint : string;
  mt_FirstSeenAt : Z;
  mt_Completed : bool;
}.

#[export] Instance mintTombstone_eq_dec : EqDecision mintTombstone.
Proof. solve_decision. Defined.

(** The durable receipt of one funding payment. *)
Record FundingReceipt := mkFundingReceipt {
  fr_FundingID : string;
  fr_Account : WholesaleAccount;
  fr_CreditedWei : string;
}.

#[export] Instance FundingReceipt_eq_dec : EqDecision FundingReceipt.
Proof. solve_decision. Defined.

(** [type SourceFence struct]: the irreversible freeze of a source. *)
Record SourceFenceState := mkSourceFenceState {
  sf_Frozen : bool;
  sf_Reason : string;
  sf_FrozenAt : Z;
}.

#[export] Instance SourceFenceState_eq_dec : EqDecision SourceFenceState.
Proof. solve_decision. Defined.

(** The identity a ledger is bound to. *)
Record settlementDomain := mksettlementDomain {
  dom_ID : string;
  dom_ChainID : Z;
  dom_Payee : string;
}.

#[export] Instance settlementDomain_eq_dec : EqDecision settlementDomain.
Proof. solve_decision. Defined.

(** The totals bucket also carries the settlement-domain format marker. *)
Inductive totalsRow :=
  | TotalsValue (t : WholesaleTotals)
  | FormatMarker.

(** Older rows of the redeemed bucket are the bare 32-byte transaction hash. *)
Inductive redeemedRow :=
  | LegacyTxHash (h : string)
  | RedeemedRow (r : RedeemedRedemption).

(** ** The database: one field per bucket. Buckets that [Open] does not create
    are [None] until their first use. *)
Section database.
Context (M : Type -> Type).

Record DB := mkDB {
  sessions : M Session;
  debit_seqs : M string;
  capability_index : M string;
  ticket_session_index : M string;
  wholesale_accounts : M WholesaleAccount;
  spend_authorizations : M WholesaleAuthorization;
  wholesale_totals : M totalsRow;
  nonces : M string;
  mints : M MintRecord;
  mint_tombstones : M mintTombstone;
  redemptions_pending : M SignedTicket;
  redemptions_by_hash : M string;
  redemptions_redeemed : M redeemedRow;
  redemptions_meta : M string;
  sender_nonces : option (M string);
  wholesale_advance_history : option (M WholesaleAuthorization);
  unexecuted_fences : option (M unexecutedFence);
  canceled_admissions : option (M canceledAdmission);
  wholesale_funding_receipts : option (M FundingReceipt);
  source_fence : option (M SourceFenceState);
  settlement_domain : option (M settlementDomain);
  sender_identity : option (M string);
}.

End database.

Arguments sessions {M} d : rename.
Arguments debit_seqs {M} d : rename.
Arguments capability_index {M} d : rename.
Arguments ticket_session_index {M} d : rename.
Arguments wholesale_accounts {M} d : rename.
Arguments spend_authorizations {M} d : rename.
Arguments wholesale_totals {M} d : rename.
Arguments nonces {M} d : rename.
Arguments mints {M} d : rename.
Arguments mint_tombstones {M} d : rename.
Arguments redemptions_pending {M} d : rename.
Arguments redemptions_by_hash {M} d : rename.
Arguments redemptions_redeemed {M} d : rename.
Arguments redemptions_meta {M} d : rename.
Arguments sender_nonces {M} d : rename.
Arguments wholesale_advance_history {M} d : rename.
Arguments unexecuted_fences {M} d : rename.
Arguments canceled_admissions {M} d : rename.
Arguments wholesale_funding_receipts {M} d : rename.
Arguments source_fence {M} d : rename.
Arguments settlement_domain {M} d : rename.
Arguments sender_identity {M} d : rename.
Arguments mkDB {M}.

Section updates.
Context {M : Type -> Type}.

Definition with_sessions (v : M Session) (d : DB M) : DB M :=
  mkDB v (debit_seqs d) (capability_index d) (ticket_session_index d) (wholesale_accounts d) (spend_authorizations d) (wholesale_totals d) (nonces d) (mints d) (mint_tombstones d) (redemptions_pending d) (redemptions_by_hash d) (redemptions_redeemed d) (redemptions_meta d) (sender_nonces d) (wholesale_advance_history d) (unexecuted_fences d) (canceled_admissions d) (wholesale_funding_receipts d) (source_fence d) (settlement_domain d) (sender_identity d).
Definition with_debit_seqs (v : M string) (d : DB M) : DB M :=
  mkDB (sessions d) v (capability_index d) (ticket_session_index d) (wholesale_accounts d) (spend_authorizations d) (wholesale_totals d) (nonces d) (mints d) (mint_tombstones d) (redemptions_pending d) (redemptions_by_hash d) (redemptions_redeemed d) (redemptions_meta d) (sender_nonces d) (wholesale_advance_history d) (unexecuted_fences d) (canceled_admissions d) (wholesale_funding_receipts d) (source_fence d) (settlement_domain d) (sender_identity d).
Definition with_capability_index (v : M string) (d : DB M) : DB M :=
  mkDB (sessions d) (debit_seqs d) v (ticket_session_index d) (wholesale_accounts d) (spend_authorizations d) (wholesale_totals d) (nonces d) (mints d) (mint_tombstones d) (redemptions_pending d) (redemptions_by_hash d) (redemptions_redeemed d) (redemptions_meta d) (sender_nonces d) (wholesale_advance_history d) (unexecuted_fences d) (canceled_admissions d) (wholesale_funding_receipts d) (source_fence d) (settlement_domain d) (sender_identity d).
Definition with_ticket_session_index (v : M string) (d : DB M) : DB M :=
  mkDB (sessions d) (debit_seqs d) (capability_index d) v (wholesale_accounts d) (spend_authorizations d) (wholesale_totals d) (nonces d) (mints d) (mint_tombstones d) (redemptions_pending d) (redemptions_by_hash d) (redemptions_redeemed d) (redemptions_meta d) (sender_nonces d) (wholesale_advance_history d) (unexecuted_fences d) (canceled_admissions d) (wholesale_funding_receipts d) (source_fence d) (settlement_domain d) (sender_identity d).
Definition with_wholesale_accounts (v : M WholesaleAccount) (d : DB M) : DB M :=
  mkDB (sessions d) (debit_seqs d) (capability_index d) (ticket_session_index d) v (spend_authorizations d) (wholesale_totals d) (nonces d) (mints d) (mint_tombstones d) (redemptions_pending d) (redemptions_by_hash d) (redemptions_redeemed d) (redemptions_meta d) (sender_nonces d) (wholesale_advance_history d) (unexecuted_fences d) (canceled_admissions d) (wholesale_funding_receipts d) (source_fence d) (settlement_domain d) (sender_identity d).
Definition with_spend_authorizations (v : M WholesaleAuthorization) (d : DB M) : DB M :=
  mkDB (sessions d) (debit_seqs d) (capability_index d) (ticket_session_index d) (wholesale_accounts d) v (wholesale_totals d) (nonces d) (mints d) (mint_tombstones d) (redemptions_pending d) (redemptions_by_hash d) (redemptions_redeemed d) (redemptions_meta d) (sender_nonces d) (wholesale_advance_history d) (unexecuted_fences d) (canceled_admissions d) (wholesale_funding_receipts d) (source_fence d) (settlement_domain d) (sender_identity d).
Definition with_wholesale_totals (v : M totalsRow) (d : DB M) : DB M :=
  mkDB (sessions d) (debit_seqs d) (capability_index d) (ticket_session_index d) (wholesale_accounts d) (spend_authorizations d) v (nonces d) (mints d) (mint_tombstones d) (redemptions_pending d) (redemptions_by_hash d) (redemptions_redeemed d) (redemptions_meta d) (sender_nonces d) (wholesale_advance_history d) (unexecuted_fences d) (canceled_admissions d) (wholesale_funding_receipts d) (source_fence d) (settlement_domain d) (sender_identity d).
Definition with_nonces (v : M string) (d : DB M) : DB M :=
  mkDB (sessions d) (debit_seqs d) (capability_index d) (ticket_session_index d) (wholesale_accounts d) (spend_authorizations d) (wholesale_totals d) v (mints d) (mint_tombstones d) (redemptions_pending d) (redemptions_by_hash d) (redemptions_redeemed d) (redemptions_meta d) (sender_nonces d) (wholesale_advance_history d) (unexecuted_fences d) (canceled_admissions d) (wholesale_funding_receipts d) (source_fence d) (settlement_domain d) (sender_identity d).
Definition with_mints (v : M MintRecord) (d : DB M) : DB M :=
  mkDB (sessions d) (debit_seqs d) (capability_index d) (ticket_session_index d) (wholesale_accounts d) (spend_authorizations d) (wholesale_totals d) (nonces d) v (mint_tombstones d) (redemptions_pending d) (redemptions_by_hash d) (redemptions_redeemed d) (redemptions_meta d) (sender_nonces d) (wholesale_advance_history d) (unexecuted_fences d) (canceled_admissions d) (wholesale_funding_receipts d) (source_fence d) (settlement_domain d) (sender_identity d).
Definition with_mint_tombstones (v : M mintTombstone) (d : DB M) : DB M :=
  mkDB (sessions d) (debit_seqs d) (capability_index d) (ticket_session_index d) (wholesale_accounts d) (spend_authorizations d) (wholesale_totals d) (nonces d) (mints d) v (redemptions_pending d) (redemptions_by_hash d) (redemptions_redeemed d) (redemptions_meta d) (sender_nonces d) (wholesale_advance_history d) (unexecuted_fences d) (canceled_admissions d) (wholesale_funding_receipts d) (source_fence d) (settlement_domain d) (sender_identity d).
Definition with_redemptions_pending (v : M SignedTicket) (d : DB M) : DB M :=
  mkDB (sessions d) (debit_seqs d) (capability_index d) (ticket_session_index d) (wholesale_accounts d) (spend_authorizations d) (wholesale_totals d) (nonces d) (mints d) (mint_tombstones d) v (redemptions_by_hash d) (redemptions_redeemed d) (redemptions_meta d) (sender_nonces d) (wholesale_advance_history d) (unexecuted_fences d) (canceled_admissions d) (wholesale_funding_receipts d) (source_fence d) (settlement_domain d) (sender_identity d).
Definition with_redemptions_by_hash (v : M string) (d : DB M) : DB M :=
  mkDB (sessions d) (debit_seqs d) (capability_index d) (ticket_session_index d) (wholesale_accounts d) (spend_authorizations d) (wholesale_totals d) (nonces d) (mints d) (mint_tombstones d) (redemptions_pending d) v (redemptions_redeemed d) (redemptions_meta d) (sender_nonces d) (wholesale_advance_history d) (unexecuted_fences d) (canceled_admissions d) (wholesale_funding_receipts d) (source_fence d) (settlement_domain d) (sender_identity d).
Definition with_redemptions_redeemed (v : M redeemedRow) (d : DB M) : DB M :=
  mkDB (sessions d) (debit_seqs d) (capability_index d) (ticket_session_index d) (wholesale_accounts d) (spend_authorizations d) (wholesale_totals d) (nonces d) (mints d) (mint_tombstones d) (redemptions_pending d) (redemptions_by_hash d) v (redemptions_meta d) (sender_nonces d) (wholesale_advance_history d) (unexecuted_fences d) (canceled_admissions d) (wholesale_funding_receipts d) (source_fence d) (settlement_domain d) (sender_identity d).
Definition with_redemptions_meta (v : M string) (d : DB M) : DB M :=
  mkDB (sessions d) (debit_seqs d) (capability_index d) (ticket_session_index d) (wholesale_accounts d) (spend_authorizations d) (wholesale_totals d) (nonces d) (mints d) (mint_tombstones d) (redemptions_pending d) (redemptions_by_hash d) (redemptions_redeemed d) v (sender_nonces d) (wholesale_advance_history d) (unexecuted_fences d) (canceled_admissions d) (wholesale_funding_receipts d) (source_fence d) (settlement_domain d) (sender_identity d).
Definition with_sender_nonces (v : option (M string)) (d : DB M) : DB M :=
  mkDB (sessions d) (debit_seqs d) (capability_index d) (ticket_session_index d) (wholesale_accounts d) (spend_authorizations d) (wholesale_totals d) (nonces d) (mints d) (mint_tombstones d) (redemptions_pending d) (redemptions_by_hash d) (redemptions_redeemed d) (redemptions_meta d) v (wholesale_advance_history d) (unexecuted_fences d) (canceled_admissions d) (wholesale_funding_receipts d) (source_fence d) (settlement_domain d) (sender_identity d).
Definition with_wholesale_advance_history (v : option (M WholesaleAuthorization)) (d : DB M) : DB M :=
  mkDB (sessions d) (debit_seqs d) (capability_index d) (ticket_session_index d) (wholesale_accounts d) (spend_authorizations d) (wholesale_totals d) (nonces d) (mints d) (mint_tombstones d) (redemptions_pending d) (redemptions_by_hash d) (redemptions_redeemed d) (redemptions_meta d) (sender_nonces d) v (unexecuted_fences d) (canceled_admissions d) (wholesale_funding_receipts d) (source_fence d) (settlement_domain d) (sender_identity d).
Definition with_unexecuted_fences (v : option (M unexecutedFence)) (d : DB M) : DB M :=
  mkDB (sessions d) (debit_seqs d) (capability_index d) (ticket_session_index d) (wholesale_accounts d) (spend_authorizations d) (wholesale_totals d) (nonces d) (mints d) (mint_tombstones d) (redemptions_pending d) (redemptions_by_hash d) (redemptions_redeemed d) (redemptions_meta d) (sender_nonces d) (wholesale_advance_history d) v (canceled_admissions d) (wholesale_funding_receipts d) (source_fence d) (settlement_domain d) (sender_identity d).
Definition with_canceled_admissions (v : option (M canceledAdmission)) (d : DB M) : DB M :=
  mkDB (sessions d) (debit_seqs d) (capability_index d) (ticket_session_index d) (wholesale_accounts d) (spend_authorizations d) (wholesale_totals d) (nonces d) (mints d) (mint_tombstones d) (redemptions_pending d) (redemptions_by_hash d) (redemptions_redeemed d) (redemptions_meta d) (sender_nonces d) (wholesale_advance_history d) (unexecuted_fences d) v (wholesale_funding_receipts d) (source_fence d) (settlement_domain d) (sender_identity d).
Definition with_wholesale_funding_receipts (v : option (M FundingReceipt)) (d : DB M) : DB M :=
  mkDB (sessions d) (debit_seqs d) (capability_index d) (ticket_session_index d) (wholesale_accounts d) (spend_authorizations d) (wholesale_totals d) (nonces d) (mints d) (mint_tombstones d) (redemptions_pending d) (redemptions_by_hash d) (redemptions_redeemed d) (redemptions_meta d) (sender_nonces d) (wholesale_advance_history d) (unexecuted_fences d) (canceled_admissions d) v (source_fence d) (settlement_domain d) (sender_identity d).
Definition with_source_fence (v : option (M SourceFenceState)) (d : DB M) : DB M :=
  mkDB (sessions d) (debit_seqs d) (capability_index d) (ticket_session_index d) (wholesale_accounts d) (spend_authorizations d) (wholesale_totals d) (nonces d) (mints d) (mint_tombstones d) (redemptions_pending d) (redemptions_by_hash d) (redemptions_redeemed d) (redemptions_meta d) (sender_nonces d) (wholesale_advance_history d) (unexecuted_fences d) (canceled_admissions d) (wholesale_funding_receipts d) v (settlement_domain d) (sender_identity d).
Definition with_settlement_domain (v : option (M settlementDomain)) (d : DB M) : DB M :=
  mkDB (sessions d) (debit_seqs d) (capability_index d) (ticket_session_index d) (wholesale_accounts d) (spend_authorizations d) (wholesale_totals d) (nonces d) (mints d) (mint_tombstones d) (redemptions_pending d) (redemptions_by_hash d) (redemptions_redeemed d) (redemptions_meta d) (sender_nonces d) (wholesale_advance_history d) (unexecuted_fences d) (canceled_admissions d) (wholesale_funding_receipts d) (source_fence d) v (sender_identity d).
Definition with_sender_identity (v : option (M string)) (d : DB M) : DB M :=
  mkDB (sessions d) (debit_seqs d) (capability_index d) (ticket_session_index d) (wholesale_accounts d) (spend_authorizations d) (wholesale_totals d) (nonces d) (mints d) (mint_tombstones d) (redemptions_pending d) (redemptions_by_hash d) (redemptions_redeemed d) (redemptions_meta d) (sender_nonces d) (wholesale_advance_history d) (unexecuted_fences d) (canceled_admissions d) (wholesale_funding_receipts d) (source_fence d) (settlement_domain d) v.

End updates.

(** What [Open] leaves on a fresh file: every eager bucket, empty. *)
Definition Open `{Bolt M} : DB M :=
  mkDB ∅ ∅ ∅ ∅ ∅ ∅ ∅ ∅ ∅ ∅ ∅ ∅ ∅ ∅ None None None None None None None None.
