(* ===== verification/Billing.v ===== *)
(** * Billing: decimal amounts and the cumulative ceiling bill

    [parseDecimalBig] and [BillFor] of payment-daemon/internal/store/store.go. *)
From S2P Require Import Prelude.
From S2P Require Import GoBytes.

(** Unset or unreadable amounts count as zero. *)
Definition parseDecimalBig (s : string) : Z :=
  if bool_decide (s = "") then 0
  else match SetString10 s with Some v => v | None => 0 end.

Lemma parse_dec x : parseDecimalBig (dec_string x) = x.
Proof.
  unfold parseDecimalBig. rewrite bool_decide_false by apply dec_string_ne_nil.
  by rewrite SetString10_dec.
Qed.

Create Rewrite HintDb money.
#[export] Hint Rewrite parse_dec : money.

Lemma parse_zero : parseDecimalBig "0" = 0.
Proof. by vm_compute. Qed.
Lemma parse_unset : parseDecimalBig "" = 0.
Proof. done. Qed.
#[export] Hint Rewrite parse_zero parse_unset : money.

(** The total wei owed for [units] cumulative work units, [ceil(units * price / perUnits)],
    with [big.Int]'s truncating [QuoRem]. *)
Definition BillFor (price perUnits units : Z) : Z :=
  if (price =? 0) || (units =? 0) then 0
  else
    let denom := if perUnits =? 0 then 1 else perUnits in
    let total := price * units in
    let quo := Z.quot total denom in
    if Z.rem total denom =? 0 then quo else quo + 1.

(** The denominator a bill uses: zero is read as one. *)
Definition effective_per (perUnits : Z) : Z := if perUnits =? 0 then 1 else perUnits.

Section billing.
Context (price per : Z) (Hprice : 0 <= price) (Hper : 0 <= per).

Lemma effective_per_pos : 0 < effective_per per.
Proof using Hper. unfold effective_per. destruct (Z.eqb_spec per 0); lia. Qed.

(** The two bounds that say "ceiling": the payee is never left short, and
    never collects a whole extra wei. *)
Lemma BillFor_ceil units :
  0 <= units ->
  price * units <= BillFor price per units * effective_per per < price * units + effective_per per.
Proof using Hprice Hper.
  intros Hu. pose proof effective_per_pos as He. unfold BillFor.
  destruct (Z.eqb_spec price 0) as [->|]; simpl; [lia|].
  destruct (Z.eqb_spec units 0) as [->|]; simpl; [lia|].
  fold (effective_per per).
  assert (0 <= price * units) by lia.
  pose proof (Z.quot_rem (price * units) (effective_per per)).
  pose proof (Z.rem_bound_pos (price * units) (effective_per per)).
  destruct (Z.eqb_spec (Z.rem (price * units) (effective_per per)) 0); lia.
Qed.

Lemma BillFor_zero : BillFor price per 0 = 0.
Proof. unfold BillFor. by rewrite orb_true_r. Qed.

Lemma BillFor_nonneg units : 0 <= units -> 0 <= BillFor price per units.
Proof using Hprice Hper.
  intros Hu. pose proof (BillFor_ceil units Hu). pose proof effective_per_pos. nia.
Qed.

Lemma BillFor_mono u v : 0 <= u <= v -> BillFor price per u <= BillFor price per v.
Proof using Hprice Hper.
  intros Huv. pose proof (BillFor_ceil u ltac:(lia)). pose proof (BillFor_ceil v ltac:(lia)).
  pose proof effective_per_pos. nia.
Qed.
End billing.
