(* ===== verification/Nonces.v ===== *)
(** * Nonce ledgers (payment-daemon/internal/store/nonces.go, noncewatermark.go)

    The payee side records each (recipientRand, nonce) once and at most
    [MaxSenderNonces] per rand; the payer side allocates nonces from a durable
    watermark. *)
From S2P Require Import Prelude.
From S2P Require Import GoBytes.
From S2P Require Import Bolt.
From S2P Require Import Ledger.

Definition MaxSenderNonces : Z := 600.

Definition randHex (recipientRand : Z) : string := hex_encode (big_bytes recipientRand).
Definition noncePrefix (recipientRand : Z) : string := randHex recipientRand +:+ String zero_byte "".
Definition nonceKey (recipientRand nonce : Z) : string := noncePrefix recipientRand +:+ be_bytes 4 nonce.

(** The presence marker [[]byte{1}]. *)
Definition nonceMark : string := String (byte_of 1) "".

Section nonces.
Context `{Bolt M}.

(** ** Payee: recorded nonces *)
Definition NonceSeen (recipientRand nonce : Z) (db : DB M) : bool :=
  bool_decide (is_Some (nonces db !! nonceKey recipientRand nonce)).

(** The counting loop of [recordNonce]: it gives up once the cap is reached. *)
Fixpoint count_below_cap (keys : list (string * string)) (count : Z) : bool :=
  match keys with
  | [] => true
  | _ :: keys' =>
      let count := count + 1 in
      if MaxSenderNonces <=? count then false else count_below_cap keys' count
  end.

Definition recordNonce (recipientRand nonce : Z) (tx : DB M) : result error (DB M) :=
  let key := nonceKey recipientRand nonce in
  match nonces tx !! key with
  | Some _ => Err ErrNonceAlreadySeen
  | None =>
      if count_below_cap (cursor_scan (noncePrefix recipientRand) (nonces tx)) 0
      then Ok (with_nonces (<[key := nonceMark]> (nonces tx)) tx)
      else Err ErrTooManyNonces
  end.

Definition RecordNonce (recipientRand nonce : Z) (db : DB M) : result error unit * DB M :=
  Update (fun tx => let! tx := recordNonce recipientRand nonce tx in Ok (tt, tx)) db.

Definition NonceCount (recipientRand : Z) (db : DB M) : Z :=
  Z.of_nat (length (cursor_scan (noncePrefix recipientRand) (nonces db))).

Definition deleteNonceLedger (recipientRand : Z) (bucket : M string) : M string :=
  delete_keys (map fst (cursor_scan (noncePrefix recipientRand) bucket)) bucket.

(** Tests fill a ledger to capacity with it, without the cap check. *)
Definition FillNonceLedger (recipientRand from count : Z) (db : DB M) : result error unit * DB M :=
  Update (fun tx =>
    Ok (tt, with_nonces
      (foldl (fun b i => <[nonceKey recipientRand (u32 (from + Z.of_nat i)) := nonceMark]> b)
        (nonces tx) (seq 0 (Z.to_nat count))) tx)) db.

(** The maximum over the nonces under the rand's prefix. *)
Definition highest_step (prefix : string) (acc : Z * bool) (kv : string * string) : Z * bool :=
  if len kv.1 <? len prefix + 4 then acc
  else
    let n := be_Z (take_bytes 4 (drop_bytes (String.length prefix) kv.1)) in
    if negb acc.2 || (acc.1 <? n) then (n, true) else acc.

Definition HighestSenderNonce (recipientRand : Z) (db : DB M) : Z * bool :=
  let prefix := noncePrefix recipientRand in
  foldl (highest_step prefix) (0, false) (cursor_scan prefix (nonces db)).

(** ** Payer: the durable watermark *)
Definition watermark (b : M string) (workID : string) : Z :=
  match b !! workID with
  | Some raw => if len raw =? 4 then be_Z raw else 0
  | None => 0
  end.

Definition NextSenderNonce (workID : string) (db : DB M) : result error Z * DB M :=
  if bool_decide (workID = "") then (Err (ErrMsg "store: empty work_id"), db)
  else Update (fun tx =>
    let b := opt_bucket (sender_nonces tx) in
    let current := watermark b workID in
    if current =? two32 - 1 then Err (ErrMsg "store: nonce space exhausted")
    else
      let next := u32 (current + 1) in
      Ok (next, with_sender_nonces (Some (<[workID := be_bytes 4 next]> b)) tx)) db.

Definition SenderNoncesUsed (workID : string) (db : DB M) : result error Z :=
  if bool_decide (workID = "") then Err (ErrMsg "store: empty work_id")
  else match sender_nonces db with
       | None => Ok 0
       | Some b => Ok (watermark b workID)
       end.

(** Tests simulate payer state loss with it; nothing else calls it. *)
Definition ForgetSenderNonces (workID : string) (db : DB M) : result error unit * DB M :=
  if bool_decide (workID = "") then (Err (ErrMsg "store: empty work_id"), db)
  else Update (fun tx =>
    match sender_nonces tx with
    | None => Ok (tt, tx)
    | Some b => Ok (tt, with_sender_nonces (Some (delete workID b)) tx)
    end) db.

Definition ResyncSenderNonces (workID : string) (seen : Z) (db : DB M) : result error bool * DB M :=
  if bool_decide (workID = "") then (Err (ErrMsg "store: empty work_id"), db)
  else Update (fun tx =>
    let b := opt_bucket (sender_nonces tx) in
    let current := watermark b workID in
    if seen <=? current then Ok (false, with_sender_nonces (Some b) tx)
    else Ok (true, with_sender_nonces (Some (<[workID := be_bytes 4 seen]> b)) tx)) db.

(** ** Keys: one rand never sees another's nonces *)
Lemma nonceKey_split r n : nonceKey r n = randHex r +:+ String zero_byte (be_bytes 4 n).
Proof. unfold nonceKey, noncePrefix. by rewrite app_assoc_str. Qed.

Lemma randHex_inj r r' : 0 <= r -> 0 <= r' -> randHex r = randHex r' -> r = r'.
Proof.
  intros Hr Hr' E%(inj hex_encode). apply (f_equal be_Z) in E. rewrite !be_Z_big_bytes in E. lia.
Qed.

Lemma randHex_sep r r' x y :
  0 <= r -> 0 <= r' ->
  randHex r +:+ String zero_byte x = randHex r' +:+ String zero_byte y -> r = r' /\ x = y.
Proof.
  intros Hr Hr' [E ?]%app_sep_inj; [|apply hex_encode_no_nul..]. eauto using randHex_inj.
Qed.

Definition valid_nonce (n : Z) : Prop := 0 <= n < two32.

Lemma nonceKey_inj r r' n n' :
  0 <= r -> 0 <= r' -> valid_nonce n -> valid_nonce n' ->
  nonceKey r n = nonceKey r' n' -> r = r' /\ n = n'.
Proof.
  rewrite !nonceKey_split. intros Hr Hr' Hn Hn' [-> E]%randHex_sep; [|done..].
  by apply be_bytes_inj in E.
Qed.

Lemma nonceKey_prefix r r' n :
  0 <= r -> 0 <= r' -> hasPrefix (nonceKey r n) (noncePrefix r') = bool_decide (r = r').
Proof.
  intros Hr Hr'. apply eq_true_iff_eq. rewrite bool_decide_eq_true, hasPrefix_spec. split.
  - intros [s E]. rewrite nonceKey_split in E. unfold noncePrefix in E.
    rewrite app_assoc_str in E. simpl in E. by apply randHex_sep in E as [-> _].
  - intros ->. by exists (be_bytes 4 n).
Qed.

(** ** Counting *)
Definition under (p k : string) : Z := if hasPrefix k p then 1 else 0.

Lemma length_cursor_scan p (b : M string) :
  Z.of_nat (length (cursor_scan p b)) = msum (fun k _ => under p k) b.
Proof.
  rewrite cursor_scan_filter, ForEach_perm.
  induction b as [|k x b Hk IH] using map_ind; [by rewrite map_to_list_empty, msum_empty|].
  rewrite map_to_list_insert, msum_insert_new, <- IH by done.
  unfold under. rewrite filter_cons. simpl.
  destruct (hasPrefix k p); simpl; lia.
Qed.

Lemma count_below_cap_spec keys c :
  c < MaxSenderNonces ->
  count_below_cap keys c = bool_decide (c + Z.of_nat (length keys) < MaxSenderNonces).
Proof.
  revert c. induction keys as [|kv keys IH]; intros c Hc; simpl.
  - rewrite bool_decide_true; [done|]. lia.
  - destruct (Z.leb_spec MaxSenderNonces (c + 1)).
    + rewrite bool_decide_false; [done|]. lia.
    + rewrite IH by done. apply bool_decide_ext. lia.
Qed.

(** [recordNonce] on every branch. *)
Lemma recordNonce_spec r n db :
  recordNonce r n db =
    if NonceSeen r n db then Err ErrNonceAlreadySeen
    else if NonceCount r db <? MaxSenderNonces
         then Ok (with_nonces (<[nonceKey r n := nonceMark]> (nonces db)) db)
         else Err ErrTooManyNonces.
Proof.
  unfold recordNonce, NonceSeen, NonceCount.
  destruct (nonces db !! nonceKey r n) as [v|] eqn:E.
  - by rewrite bool_decide_true by eauto.
  - rewrite bool_decide_false by (by intros [? ?]).
    rewrite count_below_cap_spec by done. rewrite Z.add_0_l.
    destruct (Z.ltb_spec (Z.of_nat (length (cursor_scan (noncePrefix r) (nonces db)))) MaxSenderNonces);
      [by rewrite bool_decide_true|rewrite bool_decide_false; [done|lia]].
Qed.

Lemma RecordNonce_spec r n db :
  RecordNonce r n db =
    if NonceSeen r n db then (Err ErrNonceAlreadySeen, db)
    else if NonceCount r db <? MaxSenderNonces
         then (Ok tt, with_nonces (<[nonceKey r n := nonceMark]> (nonces db)) db)
         else (Err ErrTooManyNonces, db).
Proof.
  unfold RecordNonce, Update. rewrite recordNonce_spec.
  destruct (NonceSeen r n db); [done|]. by destruct (NonceCount r db <? MaxSenderNonces).
Qed.

Lemma NonceSeen_insert r n r' n' db :
  0 <= r -> 0 <= r' -> valid_nonce n -> valid_nonce n' ->
  NonceSeen r' n' (with_nonces (<[nonceKey r n := nonceMark]> (nonces db)) db) =
    bool_decide (r' = r /\ n' = n) || NonceSeen r' n' db.
Proof.
  intros Hr Hr' Hn Hn'. unfold NonceSeen. simpl.
  destruct (decide (r' = r /\ n' = n)) as [[-> ->]|Hne].
  - rewrite lookup_insert_eq, !bool_decide_true by eauto. done.
  - rewrite (bool_decide_false (r' = r /\ n' = n)) by done.
    rewrite lookup_insert_ne; [done|]. intros E. apply Hne.
    apply nonceKey_inj in E; naive_solver.
Qed.

Lemma NonceCount_insert r n r' db :
  0 <= r -> 0 <= r' -> NonceSeen r n db = false ->
  NonceCount r' (with_nonces (<[nonceKey r n := nonceMark]> (nonces db)) db) =
    NonceCount r' db + (if bool_decide (r = r') then 1 else 0).
Proof.
  intros Hr Hr' Hs. unfold NonceCount. rewrite !length_cursor_scan. simpl.
  rewrite msum_insert_new.
  - unfold under at 1. rewrite nonceKey_prefix by done. lia.
  - unfold NonceSeen in Hs. to_prop. by apply eq_None_not_Some.
Qed.

Lemma NonceCount_nonneg r db : 0 <= NonceCount r db.
Proof. unfold NonceCount. lia. Qed.

(** ** A run of payments against the ledger *)
Fixpoint record_run (reqs : list (Z * Z)) (db : DB M) : list (Z * Z) * DB M :=
  match reqs with
  | [] => ([], db)
  | (r, n) :: reqs' =>
      match RecordNonce r n db with
      | (Ok _, db') => let '(acc, d) := record_run reqs' db' in ((r, n) :: acc, d)
      | (Err _, db') => record_run reqs' db'
      end
  end.

Definition valid_req (rn : Z * Z) : Prop := 0 <= rn.1 /\ valid_nonce rn.2.
Definition count_rand (r : Z) (l : list (Z * Z)) : Z :=
  Z.of_nat (length (filter (fun rn => rn.1 = r) l)).

Lemma count_rand_cons r rn l :
  count_rand r (rn :: l) = (if bool_decide (rn.1 = r) then 1 else 0) + count_rand r l.
Proof.
  unfold count_rand. rewrite filter_cons. case_decide as E.
  - rewrite bool_decide_true by done. simpl. lia.
  - rewrite bool_decide_false by done. lia.
Qed.

(** Every accepted pair was unseen when the run started, no pair is accepted
    twice, and the counts add up. *)
Lemma record_run_spec reqs db acc db' :
  Forall valid_req reqs -> record_run reqs db = (acc, db') ->
  NoDup acc /\ Forall valid_req acc /\
  (forall r n, (r, n) ∈ acc -> NonceSeen r n db = false) /\
  (forall r, 0 <= r -> NonceCount r db <= MaxSenderNonces ->
     NonceCount r db + count_rand r acc <= MaxSenderNonces).
Proof.
  revert db acc. induction reqs as [|[r n] reqs IH]; intros db acc Hv Hrun; simpl in Hrun.
  - simplify_eq. split_and!; [constructor|constructor|by intros ? ? ?%elem_of_nil|].
    intros r _ Hc. unfold count_rand. simpl. lia.
  - inversion_clear Hv as [|? ? [Hr Hn] Hv']. simpl in *. rewrite RecordNonce_spec in Hrun.
    destruct (NonceSeen r n db) eqn:Hs; [by eapply IH|].
    destruct (Z.ltb_spec (NonceCount r db) MaxSenderNonces) as [Hc|Hc]; [|by eapply IH].
    destruct (record_run reqs _) as [acc1 d1] eqn:E. simplify_eq.
    destruct (IH _ _ Hv' E) as (Hnd & Hva & Hun & Hcount). split_and!.
    + constructor; [|done]. intros Hin. apply Hun in Hin.
      rewrite NonceSeen_insert, bool_decide_true in Hin by done. done.
    + by constructor.
    + intros r' n' [?|Hin]%elem_of_cons; [by simplify_eq|].
      pose proof Hva as Hva'. rewrite Forall_forall in Hva'.
      destruct (Hva' _ Hin) as [Hr' Hn']. simpl in *.
      apply Hun in Hin. rewrite NonceSeen_insert in Hin by done. by to_prop.
    + intros r' Hr' Hc'. specialize (Hcount r' Hr').
      rewrite NonceCount_insert in Hcount by done. rewrite count_rand_cons. simpl.
      destruct (decide (r = r')) as [->|]; rewrite ?bool_decide_true, ?bool_decide_false in * by done; lia.
Qed.

(** ** Retiring a rand *)
Lemma lookup_deleteNonceLedger r (b : M string) k :
  deleteNonceLedger r b !! k = if hasPrefix k (noncePrefix r) then None else b !! k.
Proof.
  unfold deleteNonceLedger. rewrite lookup_delete_keys.
  assert (k ∈ map fst (cursor_scan (noncePrefix r) b) <->
          hasPrefix k (noncePrefix r) = true /\ is_Some (b !! k)) as Hin.
  { change (map fst (cursor_scan (noncePrefix r) b)) with (cursor_scan (noncePrefix r) b).*1.
    rewrite list_elem_of_fmap. split.
    - intros ([k' x] & -> & [? ?]%elem_of_cursor_scan). eauto.
    - intros [? [x ?]]. exists (k, x). by rewrite elem_of_cursor_scan. }
  destruct (hasPrefix k (noncePrefix r)) eqn:Hp; case_decide as Hd.
  - done.
  - apply eq_None_not_Some. naive_solver.
  - naive_solver.
  - done.
Qed.

Lemma cursor_scan_retired r (b : M string) : cursor_scan (noncePrefix r) (deleteNonceLedger r b) = [].
Proof.
  destruct (cursor_scan _ _) as [|[k x] l] eqn:E; [done|].
  assert ((k, x) ∈ cursor_scan (noncePrefix r) (deleteNonceLedger r b)) as Hin by (rewrite E; left).
  apply elem_of_cursor_scan in Hin as [Hp Hk].
  rewrite lookup_deleteNonceLedger, Hp in Hk. done.
Qed.

(** ** The payer's watermark *)
Lemma watermark_insert (b : M string) w x :
  0 <= x < two32 -> watermark (<[w := be_bytes 4 x]> b) w = x.
Proof.
  intros Hx. unfold watermark. rewrite lookup_insert_eq, len_be_bytes. simpl.
  by apply (be_Z_bytes 4).
Qed.

Lemma watermark_insert_ne (b : M string) w w' v :
  w <> w' -> watermark (<[w := v]> b) w' = watermark b w'.
Proof. intros. unfold watermark. by rewrite lookup_insert_ne. Qed.

Lemma watermark_range (b : M string) w : 0 <= watermark b w < two32.
Proof.
  unfold watermark. destruct (b !! w) as [raw|]; [|done].
  destruct (Z.eqb_spec (len raw) 4) as [E|]; [|done].
  pose proof (be_acc_bound raw 0 ltac:(lia)) as Hb. rewrite E in Hb. exact Hb.
Qed.

Definition watermark_of (workID : string) (db : DB M) : Z := watermark (opt_bucket (sender_nonces db)) workID.

Lemma SenderNoncesUsed_watermark w db :
  w <> "" -> SenderNoncesUsed w db = Ok (watermark_of w db).
Proof.
  intros Hw. unfold SenderNoncesUsed, watermark_of, opt_bucket.
  rewrite bool_decide_false by done. destruct (sender_nonces db); [done|]. simpl.
  unfold watermark. by rewrite lookup_empty.
Qed.

(** [NextSenderNonce] returns the successor of the watermark and makes it the
    watermark, or refuses when the 32-bit space is spent. *)
Lemma NextSenderNonce_spec w db :
  w <> "" ->
  (watermark_of w db = two32 - 1 /\
     exists m, NextSenderNonce w db = (Err (ErrMsg m), db)) \/
  (exists db', NextSenderNonce w db = (Ok (watermark_of w db + 1), db') /\
     watermark_of w db' = watermark_of w db + 1).
Proof.
  intros Hw. unfold NextSenderNonce, Update. rewrite bool_decide_false by done.
  fold (watermark_of w db).
  pose proof (watermark_range (opt_bucket (sender_nonces db)) w) as Hr. fold (watermark_of w db) in Hr.
  destruct (Z.eqb_spec (watermark_of w db) (two32 - 1)) as [E|E]; [left; eauto|right].
  assert (u32 (watermark_of w db + 1) = watermark_of w db + 1) as Hu by (apply Z.mod_small; lia).
  rewrite Hu. eexists. split; [done|]. unfold watermark_of at 1. simpl. apply watermark_insert. lia.
Qed.

Lemma ResyncSenderNonces_spec w seen db :
  w <> "" -> 0 <= seen < two32 ->
  exists db', ResyncSenderNonces w seen db = (Ok (bool_decide (watermark_of w db < seen)), db') /\
    watermark_of w db' = Z.max (watermark_of w db) seen.
Proof.
  intros Hw Hs. unfold ResyncSenderNonces, Update. rewrite bool_decide_false by done.
  fold (watermark_of w db). destruct (Z.leb_spec seen (watermark_of w db)) as [Hle|Hlt].
  - rewrite bool_decide_false by lia. eexists. split; [done|].
    unfold watermark_of at 1. simpl. fold (watermark_of w db). lia.
  - rewrite bool_decide_true by lia. eexists. split; [done|].
    rewrite Z.max_r by lia. unfold watermark_of at 1. simpl. by apply watermark_insert.
Qed.

(** What a payer does to one work id's counter, and the nonces it is handed. *)
Inductive payer_op := OpNext | OpResync (seen : Z).

Fixpoint payer_run (w : string) (ops : list payer_op) (db : DB M) : list Z * DB M :=
  match ops with
  | [] => ([], db)
  | OpNext :: ops' =>
      match NextSenderNonce w db with
      | (Ok n, db') => let '(ns, d) := payer_run w ops' db' in (n :: ns, d)
      | (Err _, db') => payer_run w ops' db'
      end
  | OpResync seen :: ops' => payer_run w ops' (ResyncSenderNonces w seen db).2
  end.

Definition valid_op (op : payer_op) : Prop :=
  match op with OpNext => True | OpResync seen => 0 <= seen < two32 end.

Lemma payer_run_spec w ops db :
  w <> "" -> Forall valid_op ops ->
  Sorted Z.lt (payer_run w ops db).1 /\ Forall (fun n => watermark_of w db < n) (payer_run w ops db).1.
Proof.
  intros Hw. revert db. induction ops as [|op ops IH]; intros db Hv; simpl; [by split|].
  inversion_clear Hv as [|? ? Hop Hv']. destruct op as [|seen].
  - destruct (NextSenderNonce_spec w db Hw) as [[_ [m ->]]|(db' & -> & Hw')]; [by apply IH|].
    specialize (IH db' Hv'). destruct (payer_run w ops db') as [ns d]. simpl in *.
    destruct IH as [Hs Hf]. split.
    + constructor; [done|]. destruct ns; constructor. inversion Hf. lia.
    + constructor; [lia|]. eapply Forall_impl; [done|]. intros n Hn. simpl in Hn. lia.
  - destruct (ResyncSenderNonces_spec w seen db Hw Hop) as (db' & -> & Hw').
    destruct (IH db' Hv') as [Hs Hf]. split; [done|].
    eapply Forall_impl; [done|]. intros n Hn. simpl in Hn. lia.
Qed.

(** ** The high-water mark *)
Definition wf_nonces (db : DB M) : Prop :=
  forall k, is_Some (nonces db !! k) -> exists r n, 0 <= r /\ valid_nonce n /\ k = nonceKey r n.

Lemma wf_nonces_Open : wf_nonces Open.
Proof. intros k [x Hk]. simpl in Hk. by rewrite lookup_empty in Hk. Qed.

Lemma wf_nonces_RecordNonce r n db :
  0 <= r -> valid_nonce n -> wf_nonces db -> wf_nonces (RecordNonce r n db).2.
Proof.
  intros Hr Hn Hwf. rewrite RecordNonce_spec. destruct (NonceSeen r n db); [done|].
  destruct (NonceCount r db <? MaxSenderNonces); [|done]. intros k Hk. simpl in Hk.
  rewrite lookup_insert_is_Some in Hk. destruct Hk as [<-|[_ Hk]]; [by exists r, n|by apply Hwf].
Qed.

Lemma take_bytes_all s : take_bytes (String.length s) s = s.
Proof. induction s as [|c s IH]; [done|]. simpl. by rewrite IH. Qed.

Lemma highest_step_key r n acc x :
  valid_nonce n ->
  highest_step (noncePrefix r) acc (nonceKey r n, x) =
    if negb acc.2 || (acc.1 <? n) then (n, true) else acc.
Proof.
  intros Hn. unfold highest_step. simpl fst. unfold nonceKey.
  rewrite len_app, len_be_bytes, drop_bytes_app. rewrite (proj2 (Z.ltb_ge _ _)) by lia.
  assert (take_bytes 4 (be_bytes 4 n) = be_bytes 4 n) as -> by exact (take_bytes_all (be_bytes 4 n)).
  by rewrite (be_Z_bytes 4).
Qed.

Lemma foldl_highest r l acc :
  Forall (fun kv => exists n, valid_nonce n /\ kv.1 = nonceKey r n) l ->
  let res := foldl (highest_step (noncePrefix r)) acc l in
  (acc.2 = true -> res.2 = true /\ acc.1 <= res.1) /\
  (forall n x, valid_nonce n -> (nonceKey r n, x) ∈ l -> res.2 = true /\ n <= res.1) /\
  (res = acc \/ exists n x, valid_nonce n /\ (nonceKey r n, x) ∈ l /\ res = (n, true)).
Proof.
  intros Hl. revert acc. induction Hl as [|[k x] l [n [Hn Hk]] Hl IH]; intros acc res.
  - subst res. simpl. split_and!; [by intros ->|by intros ? ? ? ?%elem_of_nil|by left].
  - simpl in Hk. subst k. subst res. simpl. rewrite highest_step_key by done.
    set (acc' := if negb acc.2 || (acc.1 <? n) then (n, true) else acc).
    destruct (IH acc') as (H1 & H2 & H3).
    assert (acc'.2 = true /\ n <= acc'.1 /\ (acc.2 = true -> acc.1 <= acc'.1)) as (Ha & Hb & Hc).
    { subst acc'. destruct acc as [a []]; simpl; [|split_and!; lia || done].
      destruct (Z.ltb_spec a n); simpl; split_and!; (lia || done). }
    specialize (H1 Ha) as [H1 H1']. split_and!.
    + intros Ht. specialize (Hc Ht). split; [done|lia].
    + intros n' x' Hn' [Heq|Hin]%elem_of_cons.
      * injection Heq as Heq ->. unfold nonceKey in Heq.
        apply app_inv_len_r in Heq as [_ Heq]; [|by rewrite !len_be_bytes].
        apply be_bytes_inj in Heq; [|done..]. subst n'. split; [done|lia].
      * by eapply H2.
    + destruct H3 as [H3|(n' & x' & Hn' & Hin & H3)].
      * rewrite H3. subst acc'. destruct (negb acc.2 || (acc.1 <? n)); [|by left].
        right. exists n, x. split_and!; [done|left|done].
      * right. exists n', x'. split_and!; [done|by right|done].
Qed.

Lemma record_run_seen reqs db r n :
  Forall valid_req reqs -> 0 <= r -> valid_nonce n ->
  NonceSeen r n db = true \/ (r, n) ∈ (record_run reqs db).1 ->
  NonceSeen r n (record_run reqs db).2 = true.
Proof.
  intros Hv Hr Hn. revert db. induction reqs as [|[r0 n0] reqs IH]; intros db Hs; simpl in *.
  { destruct Hs as [|?%elem_of_nil]; done. }
  inversion_clear Hv as [|? ? [Hr0 Hn0] Hv']. simpl in *. specialize (IH Hv').
  rewrite RecordNonce_spec in *. destruct (NonceSeen r0 n0 db) eqn:Hs0; [by apply IH|].
  destruct (NonceCount r0 db <? MaxSenderNonces); [|by apply IH].
  set (db' := with_nonces _ db) in *. specialize (IH db').
  destruct (record_run reqs db') as [a d]. simpl in *. apply IH.
  subst db'. rewrite NonceSeen_insert by done.
  destruct Hs as [->|[Heq|Hin]%elem_of_cons]; [left; apply orb_true_r| |by right].
  injection Heq as -> ->. left. by rewrite bool_decide_true.
Qed.

(** ** Properties *)

(** C19: Replay protection of the payee's nonce ledger: however payments are
    interleaved, no (recipientRand, nonce) pair is accepted twice or accepted
    when it had been recorded before, every accepted pair is refused from then
    on with [ErrNonceAlreadySeen], and no rand takes more than
    [MaxSenderNonces] nonces. *)
Theorem nonce_ledger_no_replay reqs db acc db' :
  Forall valid_req reqs -> record_run reqs db = (acc, db') ->
  (forall r, 0 <= r -> NonceCount r db <= MaxSenderNonces) ->
  NoDup acc /\
  (forall r n, (r, n) ∈ acc ->
     NonceSeen r n db = false /\ RecordNonce r n db' = (Err ErrNonceAlreadySeen, db')) /\
  (forall r, 0 <= r -> NonceCount r db + count_rand r acc <= MaxSenderNonces).
Proof.
  intros Hv Hrun Hcap. destruct (record_run_spec _ _ _ _ Hv Hrun) as (Hnd & Hva & Hun & Hc).
  split_and!; [done| |by auto].
  intros r n Hin. split; [by apply Hun|]. rewrite Forall_forall in Hva.
  destruct (Hva _ Hin) as [Hr Hn]. simpl in *. rewrite RecordNonce_spec.
  pose proof (record_run_seen reqs db r n Hv Hr Hn) as Hs. rewrite Hrun in Hs. simpl in Hs.
  by rewrite Hs by auto.
Qed.

(** Retiring a recipient rand empties exactly its own nonce ledger: its
    count becomes zero while every other rand keeps its count and its recorded
    nonces. *)
Theorem nonce_ledger_retire_isolated r r' n db :
  0 <= r -> 0 <= r' -> r' <> r ->
  let db' := with_nonces (deleteNonceLedger r (nonces db)) db in
  NonceCount r db' = 0 /\ NonceCount r' db' = NonceCount r' db /\
  NonceSeen r' n db' = NonceSeen r' n db.
Proof.
  intros Hr Hr' Hne db'. unfold NonceCount. subst db'. simpl. split_and!.
  - by rewrite cursor_scan_retired.
  - f_equal. apply Permutation_length, NoDup_Permutation; [apply NoDup_cursor_scan..|].
    intros [k x]. rewrite !elem_of_cursor_scan, lookup_deleteNonceLedger.
    destruct (hasPrefix k (noncePrefix r)) eqn:Hp; [|done].
    split; [by intros [_ ?]|]. intros [Hp' _].
    apply hasPrefix_spec in Hp as [s ->]. apply hasPrefix_spec in Hp' as [s' E].
    unfold noncePrefix in E. rewrite !app_assoc_str in E. simpl in E.
    by apply randHex_sep in E as [? _].
  - unfold NonceSeen. simpl. rewrite lookup_deleteNonceLedger, nonceKey_prefix by done.
    by rewrite (bool_decide_false (r' = r)) by done.
Qed.

(** The payer's durable nonce counter never hands out a nonce twice: over
    any interleaving of allocations and resyncs the allocated nonces strictly
    increase and stay above the watermark found at the start. *)
Theorem payer_nonces_strictly_increase w ops db :
  w <> "" -> Forall valid_op ops ->
  Sorted Z.lt (payer_run w ops db).1 /\
  Forall (fun n => watermark_of w db < n) (payer_run w ops db).1.
Proof. apply payer_run_spec. Qed.

(** [HighestSenderNonce] reports the true high-water mark of a rand: it
    answers "none" exactly when nothing is recorded, and otherwise a recorded
    nonce that no recorded nonce exceeds. *)
Theorem highest_sender_nonce_correct r db h found :
  0 <= r -> wf_nonces db -> HighestSenderNonce r db = (h, found) ->
  (found = false <-> NonceCount r db = 0) /\
  (found = true -> NonceSeen r h db = true /\
     forall n, valid_nonce n -> NonceSeen r n db = true -> n <= h).
Proof.
  intros Hr Hwf E. unfold HighestSenderNonce in E.
  assert (Forall (fun kv => exists n, valid_nonce n /\ kv.1 = nonceKey r n)
    (cursor_scan (noncePrefix r) (nonces db))) as Hall.
  { apply Forall_forall. intros [k x] [Hp Hk]%elem_of_cursor_scan.
    destruct (Hwf k) as (r' & n & Hr' & Hn & ->); [eauto|].
    rewrite nonceKey_prefix in Hp by done. to_prop. subst r'. by exists n. }
  pose proof (foldl_highest r _ (0, false) Hall) as (_ & Hmax & Hres).
  cbv zeta in *. rewrite E in Hmax, Hres. simpl in Hmax. split.
  - unfold NonceCount. split.
    + intros ->. destruct (cursor_scan _ _) as [|[k x] l] eqn:El; [done|].
      inversion Hall as [|? ? [n [Hn Hk]] _]. simpl in Hk. subst k.
      destruct (Hmax n x Hn) as [? _]; [left|done].
    + intros Hz. destruct (cursor_scan _ _); [|simpl in Hz; lia]. simpl in E. congruence.
  - intros ->. destruct Hres as [?|(n & x & Hn & Hin & ?)]; [done|]. simplify_eq.
    apply elem_of_cursor_scan in Hin as [_ Hin]. split.
    + unfold NonceSeen. by rewrite bool_decide_true by eauto.
    + intros n' Hn' Hs. unfold NonceSeen in Hs. to_prop. destruct Hs as [x' Hs].
      eapply Hmax; [done|]. apply elem_of_cursor_scan. split; [|done].
      by rewrite nonceKey_prefix, bool_decide_true.
Qed.

End nonces.

(** ** Witnesses *)
Lemma nonce_ledger_no_replay_witness :
  let run := record_run [(5, 1); (5, 1); (7, 1); (5, 2)] (Open (M := gmap string)) in
  run.1 = [(5, 1); (7, 1); (5, 2)] /\ NoDup run.1.
Proof.
  intros run. split; [by vm_compute|].
  apply (nonce_ledger_no_replay [(5, 1); (5, 1); (7, 1); (5, 2)] (Open (M := gmap string)) run.1 run.2).
  - repeat constructor; simpl; unfold two32; lia.
  - apply surjective_pairing.
  - intros r _. unfold NonceCount, MaxSenderNonces. simpl.
    unfold cursor_scan, ForEach. rewrite map_to_list_empty. simpl. lia.
Defined.

Lemma nonce_ledger_retire_isolated_witness :
  let db := (record_run [(5, 1); (7, 1)] (Open (M := gmap string))).2 in
  NonceCount 5 db = 1 /\
  NonceCount 5 (with_nonces (deleteNonceLedger 5 (nonces db)) db) = 0.
Proof.
  intros db. split; [by vm_compute|].
  apply (nonce_ledger_retire_isolated 5 7 1 db); lia.
Defined.

Lemma payer_nonces_strictly_increase_witness :
  let ops := [OpNext; OpResync 10; OpNext; OpResync 4; OpNext] in
  (payer_run "w" ops (Open (M := gmap string))).1 = [1; 11; 12] /\
  Sorted Z.lt (payer_run "w" ops (Open (M := gmap string))).1.
Proof.
  intros ops. split; [by vm_compute|].
  apply (payer_nonces_strictly_increase "w" ops (Open (M := gmap string))); [done|].
  repeat constructor; simpl; unfold two32; lia.
Defined.

Lemma highest_sender_nonce_correct_witness :
  let db := (RecordNonce 5 9 (RecordNonce 5 3 (Open (M := gmap string))).2).2 in
  HighestSenderNonce 5 db = (9, true) /\ NonceSeen 5 9 db = true.
Proof.
  intros db. split; [by vm_compute|].
  apply (highest_sender_nonce_correct 5 db 9 true); [lia| |by vm_compute|done].
  apply wf_nonces_RecordNonce; [lia|done|].
  apply wf_nonces_RecordNonce; [lia|done|]. apply wf_nonces_Open.
Defined.
