(* ===== verification/Sessions.v ===== *)
(** * The receiver session ledger (payment-daemon/internal/store/store.go)

    Sessions keyed by (sender, work_id), the work-id and ticket-session
    indexes, idempotent debits and the rotation of ticket sessions.  Each
    operation of [Store] is a function from the database to its answer and the
    new database; [now] is the clock reading the code takes. *)
From S2P Require Import Prelude.
From S2P Require Import GoBytes.
From S2P Require Import GoCodecs.
From S2P Require Import Bolt.
From S2P Require Import Ledger.
From S2P Require Import Billing.
From S2P Require Import Nonces.
From Stdlib Require Import Ascii.

Definition PricingUnset : string := "".

(** ** Keys *)
Definition colon : ascii := ":"%char.

Definition compositeKey (sender workID : string) : string :=
  String (byte_of (len sender mod 256)) (sender +:+ String colon workID).

Definition debitSeqBytes (seq : Z) : string := ":seq:" +:+ dec20 seq.

Definition ticketSessionIndexKey (key : TicketSessionKey) : string :=
  if negb (bool_decide (k_WholesaleAccountID key = "")) || negb (bool_decide (k_TicketStreamID key = ""))
  then
    String zero_byte (json_object
      [json_field "WholesaleAccountID" (json_string (k_WholesaleAccountID key));
       json_field "TicketStreamID" (json_string (k_TicketStreamID key));
       json_field "Sender" (json_bytes (k_Sender key));
       json_field "Recipient" (json_bytes (k_Recipient key));
       json_field "Capability" (json_string (k_Capability key));
       json_field "Offering" (json_string (k_Offering key))])
  else
    String (byte_of (len (k_Sender key) mod 256)) (k_Sender key +:+ String colon
      (String (byte_of (len (k_Recipient key) mod 256)) (k_Recipient key +:+ String colon
        (k_Capability key +:+ String colon (k_Offering key))))).

Definition isUnsealedSentinel (b : string) : bool := len b =? 0.
Definition unsealedSentinel : string := "".

Section sessions.
Context `{Bolt M}.

(** ** Opening *)
Definition openFresh (seed : Session) (tx : DB M) : DB M :=
  let tx := with_sessions (<[compositeKey "" (s_WorkID seed) := seed]> (sessions tx)) tx in
  with_capability_index (<[s_WorkID seed := unsealedSentinel]> (capability_index tx)) tx.

(** Pricing set exactly once: the branch for a session that exists. *)
Definition apply_pricing (seed found : Session) : result error (Session * bool) :=
  if bool_decide (s_PricePerWorkUnitWei found = PricingUnset) then
    Ok (s_with_Offering (s_Offering seed) (s_with_Capability (s_Capability seed)
         (s_with_WorkUnit (s_WorkUnit seed) (s_with_PerUnits (s_PerUnits seed)
           (s_with_PricePerWorkUnitWei (s_PricePerWorkUnitWei seed) found)))), true)
  else if negb (bool_decide (s_PricePerWorkUnitWei found = s_PricePerWorkUnitWei seed))
       || negb (s_PerUnits found =? s_PerUnits seed) then
    Err ErrPricingConflict
  else Ok (found, false).

Definition OpenSession_tx (seed : Session) (tx : DB M) : result error (Session * bool * DB M) :=
  match capability_index tx !! s_WorkID seed with
  | Some existing =>
      let senderForLookup := if isUnsealedSentinel existing then "" else existing in
      let rawKey := compositeKey senderForLookup (s_WorkID seed) in
      match sessions tx !! rawKey with
      | None => Ok (seed, false, openFresh seed tx)
      | Some found =>
          let! (found', priced) := apply_pricing seed found in
          Ok (found', true,
              if (priced : bool) then with_sessions (<[rawKey := found']> (sessions tx)) tx else tx)
      end
  | None => Ok (seed, false, openFresh seed tx)
  end.

(** The seed as [OpenSession] normalises it before the transaction. *)
Definition OpenSession_seed (now : Z) (seed : Session) : Session :=
  let seed := s_with_OpenedAt now (s_with_Sender "" seed) in
  if bool_decide (s_BalanceWei seed = "") then s_with_BalanceWei "0" seed else seed.

Definition OpenSession (now : Z) (seed : Session) (db : DB M) : result error (Session * bool) * DB M :=
  if bool_decide (s_WorkID seed = "") then (Err (ErrMsg "work_id is required"), db)
  else Update (OpenSession_tx (OpenSession_seed now seed)) db.

(** ** Ticket sessions *)
Definition TicketSessionFor (key : TicketSessionKey) (db : DB M) : option Session :=
  match ticket_session_index db !! ticketSessionIndexKey key with
  | None => None
  | Some workID => sessions db !! compositeKey (k_Sender key) workID
  end.

(** The indexed session when it exists and is open; the index entry is dropped
    when it is stale or its session is closed. *)
Definition live_indexed (key : TicketSessionKey) (tx : DB M) : option Session * DB M :=
  let indexKey := ticketSessionIndexKey key in
  match ticket_session_index tx !! indexKey with
  | None => (None, tx)
  | Some workID =>
      match sessions tx !! compositeKey (k_Sender key) workID with
      | None => (None, with_ticket_session_index (delete indexKey (ticket_session_index tx)) tx)
      | Some found =>
          if s_Closed found
          then (None, with_ticket_session_index (delete indexKey (ticket_session_index tx)) tx)
          else (Some found, tx)
      end
  end.

Definition GetOrCreate_seed (now : Z) (key : TicketSessionKey) (seed : Session) : Session :=
  let seed := s_with_OpenedAt now (s_with_TicketStreamID (k_TicketStreamID key)
    (s_with_WholesaleAccountID (k_WholesaleAccountID key) (s_with_Offering (k_Offering key)
    (s_with_Capability (k_Capability key) (s_with_Recipient (k_Recipient key)
    (s_with_Sender (k_Sender key) seed)))))) in
  if bool_decide (s_BalanceWei seed = "") then s_with_BalanceWei "0" seed else seed.

Definition GetOrCreateTicketSession (now : Z) (key : TicketSessionKey) (seed0 : Session) (db : DB M)
    : result error (Session * bool) * DB M :=
  if bool_decide (s_WorkID seed0 = "") then (Err (ErrMsg "work_id is required"), db)
  else
    let seed := GetOrCreate_seed now key seed0 in
    match live_indexed key db with
    | (Some found, tx) => (Ok (found, true), tx)
    | (None, tx) =>
        let tx := with_sessions (<[compositeKey (k_Sender key) (s_WorkID seed) := seed]> (sessions tx)) tx in
        let tx := with_capability_index (<[s_WorkID seed := k_Sender key]> (capability_index tx)) tx in
        let tx := with_ticket_session_index
                    (<[ticketSessionIndexKey key := s_WorkID seed]> (ticket_session_index tx)) tx in
        (Ok (seed, false), tx)
    end.

(** ** Rotation *)

Definition closed_at (now : Z) (sess : Session) : Session := s_with_ClosedAt now (s_with_Closed true sess).

Definition retireIndexedSession (now : Z) (key : TicketSessionKey) (workID : string) (tx : DB M)
    : result error (DB M) :=
  match sessions tx !! compositeKey (k_Sender key) workID with
  | None => Ok (with_ticket_session_index
                  (delete (ticketSessionIndexKey key) (ticket_session_index tx)) tx)
  | Some sess =>
      let sess := closed_at now sess in
      let tx := with_sessions (<[compositeKey (k_Sender key) workID := sess]> (sessions tx)) tx in
      let tx := with_ticket_session_index
                  (delete (ticketSessionIndexKey key) (ticket_session_index tx)) tx in
      if bool_decide (s_RecipientRand sess = "") then Ok tx
      else match SetString10 (s_RecipientRand sess) with
           | None => Err (ErrMsg "session rand corrupt")
           | Some randInt => Ok (with_nonces (deleteNonceLedger randInt (nonces tx)) tx)
           end
  end.

Definition ResetTicketSessionIfCurrent (now : Z) (key : TicketSessionKey) (expectedWorkID : string)
    (db : DB M) : result error bool * DB M :=
  if bool_decide (expectedWorkID = "") then (Err (ErrMsg "store: expected work_id is required"), db)
  else Update (fun tx =>
    match ticket_session_index tx !! ticketSessionIndexKey key with
    | None => Ok (false, tx)
    | Some current =>
        if negb (bool_decide (current = expectedWorkID)) then Ok (false, tx)
        else
          let! tx := retireIndexedSession now key expectedWorkID tx in
          Ok (true, tx)
    end) db.

Definition ResetTicketSession (now : Z) (key : TicketSessionKey) (db : DB M)
    : result error (string * bool) * DB M :=
  let indexKey := ticketSessionIndexKey key in
  Update (fun tx =>
    match ticket_session_index tx !! indexKey with
    | None => Ok ("", false, tx)
    | Some oldWorkID =>
        match sessions tx !! compositeKey (k_Sender key) oldWorkID with
        | None => Ok (oldWorkID, false,
            with_ticket_session_index (delete indexKey (ticket_session_index tx)) tx)
        | Some sess =>
            let sess := closed_at now sess in
            let tx := with_sessions (<[compositeKey (k_Sender key) oldWorkID := sess]> (sessions tx)) tx in
            let tx := with_ticket_session_index (delete indexKey (ticket_session_index tx)) tx in
            if bool_decide (s_RecipientRand sess = "") then Ok (oldWorkID, true, tx)
            else match SetString10 (s_RecipientRand sess) with
                 | None => Err (ErrMsg "session rand corrupt")
                 | Some randInt =>
                     Ok (oldWorkID, true, with_nonces (deleteNonceLedger randInt (nonces tx)) tx)
                 end
        end
    end) db.

(** ** Sealing *)

(** The last unsealed record with this work id, in key order. *)
Definition scanByWorkID (b : M Session) (workID : string) : option (Session * string) :=
  foldl (fun acc kv =>
    if bool_decide (s_WorkID kv.2 = workID) && (len (s_Sender kv.2) =? 0)
    then Some (kv.2, kv.1) else acc) None (ForEach b).

(** The record [SealSender] finds, with the key it is stored under. *)
Definition seal_lookup (workID senderKey : string) (tx : DB M) : option (Session * string) :=
  let composite := compositeKey senderKey workID in
  match sessions tx !! composite with
  | Some sess => Some (sess, composite)
  | None => scanByWorkID (sessions tx) workID
  end.

Definition SealSender_tx (workID sender : string) (tx : DB M) : result error (unit * DB M) :=
  let '(senderKey, tx) :=
    match capability_index tx !! workID with
    | None => (sender, with_capability_index (<[workID := sender]> (capability_index tx)) tx)
    | Some existing => (existing, tx)
    end in
  match seal_lookup workID senderKey tx with
  | None => Err ErrNotFound
  | Some (sess, composite) =>
      if (0 <? len (s_Sender sess)) && negb (bool_decide (s_Sender sess = sender))
      then Err ErrSenderMismatch
      else
        let sess := s_with_Sender sender sess in
        let newComposite := compositeKey sender workID in
        let b := if bool_decide (composite = newComposite) then sessions tx
                 else delete composite (sessions tx) in
        Ok (tt, with_sessions (<[newComposite := sess]> b) tx)
  end.

Definition SealSender (workID sender : string) (db : DB M) : result error unit * DB M :=
  Update (SealSender_tx workID sender) db.

(** ** Balances *)
Definition mutate {A} (sender workID : string) (fn : Session -> result error (A * Session)) (tx : DB M)
    : result error (A * DB M) :=
  let composite := compositeKey sender workID in
  match sessions tx !! composite with
  | None => Err ErrNotFound
  | Some sess =>
      let! (a, sess') := fn sess in
      Ok (a, with_sessions (<[composite := sess']> (sessions tx)) tx)
  end.

Definition CreditBalance (sender workID : string) (weiToCredit : Z) (db : DB M) : result error Z * DB M :=
  Update (mutate sender workID (fun sess =>
    let bal := parseDecimalBig (s_BalanceWei sess) + weiToCredit in
    Ok (bal, s_with_BalanceWei (dec_string bal) sess))) db.

Record DebitResult := mkDebitResult {
  dr_Balance : Z;
  dr_DebitedWei : Z;
  dr_CumulativeUnits : Z;
  dr_Replayed : bool;
}.

(** The session after a debit of [workUnits], and what the debit costs: the
    difference between two cumulative bills. *)
Definition debit_session (workUnits : Z) (sess : Session) : Session * Z :=
  let price := parseDecimalBig (s_PricePerWorkUnitWei sess) in
  let before := BillFor price (s_PerUnits sess) (s_DebitedUnits sess) in
  let units := u64 (s_DebitedUnits sess + workUnits) in
  let debitWei := BillFor price (s_PerUnits sess) units - before in
  let bal := parseDecimalBig (s_BalanceWei sess) - debitWei in
  (s_with_BalanceWei (dec_string bal) (s_with_DebitedUnits units sess), debitWei).

Definition debitSeqKey (sender workID : string) (debitSeq : Z) : string :=
  compositeKey sender workID +:+ debitSeqBytes debitSeq.

Definition DebitBalance_tx (sender workID : string) (workUnits debitSeq : Z) (tx : DB M)
    : result error (DebitResult * DB M) :=
  let composite := compositeKey sender workID in
  let seqKey := debitSeqKey sender workID debitSeq in
  match debit_seqs tx !! seqKey with
  | Some _ =>
      match sessions tx !! composite with
      | None => Err ErrNotFound
      | Some sess =>
          Ok (mkDebitResult (parseDecimalBig (s_BalanceWei sess)) 0 (s_DebitedUnits sess) true, tx)
      end
  | None =>
      match sessions tx !! composite with
      | None => Err ErrNotFound
      | Some sess =>
          if s_Closed sess then Err ErrClosed
          else if bool_decide (s_PricePerWorkUnitWei sess = PricingUnset) then Err ErrPricingUnset
          else
            let '(sess', debitWei) := debit_session workUnits sess in
            let tx := with_sessions (<[composite := sess']> (sessions tx)) tx in
            let tx := with_debit_seqs (<[seqKey := dec_string workUnits]> (debit_seqs tx)) tx in
            Ok (mkDebitResult (parseDecimalBig (s_BalanceWei sess')) debitWei (s_DebitedUnits sess') false, tx)
      end
  end.

Definition DebitBalance (sender workID : string) (workUnits debitSeq : Z) (db : DB M)
    : result error DebitResult * DB M :=
  if workUnits <? 0 then (Err (ErrMsg "work_units must be >= 0"), db)
  else Update (DebitBalance_tx sender workID workUnits debitSeq) db.

Definition Get (sender workID : string) (db : DB M) : result error Session :=
  match sessions db !! compositeKey sender workID with
  | None => Err ErrNotFound
  | Some sess => Ok sess
  end.

Definition GetBalance (sender workID : string) (db : DB M) : result error Z :=
  let! sess := Get sender workID db in
  Ok (parseDecimalBig (s_BalanceWei sess)).

Definition GetByWorkID (workID : string) (db : DB M) : result error Session :=
  match capability_index db !! workID with
  | None => Err ErrNotFound
  | Some v =>
      let sender := if isUnsealedSentinel v then "" else v in
      match sessions db !! compositeKey sender workID with
      | Some sess => Ok sess
      | None =>
          match scanByWorkID (sessions db) workID with
          | Some (sess, _) => Ok sess
          | None => Err ErrNotFound
          end
      end
  end.

(** ** Closing *)
Definition session_key (sess : Session) : TicketSessionKey :=
  mkTicketSessionKey (s_WholesaleAccountID sess) (s_TicketStreamID sess)
    (s_Sender sess) (s_Recipient sess) (s_Capability sess) (s_Offering sess).

(** [bucket.Get(composite)], falling back to the unsealed key. *)
Definition close_lookup (sender workID : string) (tx : DB M) : option (Session * string) :=
  match sessions tx !! compositeKey sender workID with
  | Some sess => Some (sess, compositeKey sender workID)
  | None =>
      match sessions tx !! compositeKey "" workID with
      | Some sess => Some (sess, compositeKey "" workID)
      | None => None
      end
  end.

Definition CloseSession_tx (now : Z) (sender workID : string) (tx : DB M) : result error (bool * DB M) :=
  match close_lookup sender workID tx with
  | None => Err ErrNotFound
  | Some (sess, composite) =>
      if s_Closed sess then Ok (true, tx)
      else
        let sess' := closed_at now sess in
        let tx := with_sessions (<[composite := sess']> (sessions tx)) tx in
        if (0 <? len (s_Sender sess)) && (0 <? len (s_Recipient sess)) then
          let indexKey := ticketSessionIndexKey (session_key sess) in
          if bool_decide (default "" (ticket_session_index tx !! indexKey) = s_WorkID sess)
          then Ok (false, with_ticket_session_index (delete indexKey (ticket_session_index tx)) tx)
          else Ok (false, tx)
        else Ok (false, tx)
  end.

Definition CloseSession (now : Z) (sender workID : string) (db : DB M) : result error bool * DB M :=
  Update (CloseSession_tx now sender workID) db.

(** ** Keys do not collide *)
Lemma len_compositeKey s w : len (compositeKey s w) = 2 + len s + len w.
Proof.
  unfold compositeKey.
  assert (forall c t, len (String c t) = 1 + len t) as Hc by (intros; unfold len; simpl; lia).
  rewrite Hc, len_app, Hc. lia.
Qed.

Lemma compositeKey_inj s s' w w' :
  len s < 256 -> len s' < 256 -> compositeKey s w = compositeKey s' w' -> s = s' /\ w = w'.
Proof.
  intros Hs Hs' E. pose proof (len_nonneg s). pose proof (len_nonneg s').
  unfold compositeKey in E. injection E as Hb E.
  apply (f_equal byte_val) in Hb. rewrite !Z.mod_small, !byte_val_of in Hb by lia.
  apply app_inv_len in E as [-> E]; [|done]. by injection E.
Qed.

Lemma compositeKey_unsealed_ne s w w' : len w = len w' -> s <> "" -> compositeKey "" w' <> compositeKey s w.
Proof.
  intros Hw Hs E. apply (f_equal len) in E. rewrite !len_compositeKey in E.
  destruct s as [|c s]; [done|]. unfold len in *. simpl in *. lia.
Qed.

Lemma len_debitSeqBytes q : 0 <= q < two64 -> len (debitSeqBytes q) = 25.
Proof. intros Hq. unfold debitSeqBytes. rewrite len_app, len_dec20 by done. done. Qed.

Lemma scanByWorkID_None (b : M Session) w :
  (forall k s, b !! k = Some s -> s_WorkID s = w -> s_Sender s <> "") -> scanByWorkID b w = None.
Proof.
  intros Hb. unfold scanByWorkID.
  assert (forall l acc, (forall k s, (k, s) ∈ l -> b !! k = Some s) ->
    foldl (fun (acc : option (Session * string)) (kv : string * Session) =>
      if bool_decide (s_WorkID kv.2 = w) && (len (s_Sender kv.2) =? 0)
      then Some (kv.2, kv.1) else acc) acc l = acc) as Hfold.
  { induction l as [|[k s] l IH]; intros acc Hl; simpl; [done|].
    rewrite IH by (intros; apply Hl; by right).
    destruct (bool_decide (s_WorkID s = w)) eqn:E; simpl; [|done].
    destruct (Z.eqb_spec (len (s_Sender s)) 0) as [E'|]; [|done]. to_prop.
    exfalso. apply (Hb k s); [by apply Hl; left|done|].
    destruct (s_Sender s); [done|]. unfold len in E'. simpl in E'. lia. }
  apply Hfold. intros k s. apply elem_of_ForEach.
Qed.

(** ** Debits *)
Lemma debit_session_spec u sess sess' c :
  debit_session u sess = (sess', c) ->
  s_DebitedUnits sess' = u64 (s_DebitedUnits sess + u) /\
  c = BillFor (parseDecimalBig (s_PricePerWorkUnitWei sess)) (s_PerUnits sess) (s_DebitedUnits sess')
    - BillFor (parseDecimalBig (s_PricePerWorkUnitWei sess)) (s_PerUnits sess) (s_DebitedUnits sess) /\
  parseDecimalBig (s_BalanceWei sess') = parseDecimalBig (s_BalanceWei sess) - c /\
  s_Closed sess' = s_Closed sess /\
  s_PricePerWorkUnitWei sess' = s_PricePerWorkUnitWei sess /\ s_PerUnits sess' = s_PerUnits sess.
Proof.
  unfold debit_session. intros [= <- <-]. simpl. rewrite parse_dec. done.
Qed.

(** A session that can be billed: present, open and priced. *)
Definition billable (sender w : string) (db : DB M) (sess : Session) : Prop :=
  sessions db !! compositeKey sender w = Some sess /\ s_Closed sess = false /\
  s_PricePerWorkUnitWei sess <> PricingUnset.

(** One debit: a replay reports without charging, a fresh sequence number
    charges the difference of two cumulative bills. *)
Lemma DebitBalance_step sender w u q db sess :
  0 <= u -> billable sender w db sess ->
  (is_Some (debit_seqs db !! debitSeqKey sender w q) /\
     DebitBalance sender w u q db =
       (Ok (mkDebitResult (parseDecimalBig (s_BalanceWei sess)) 0 (s_DebitedUnits sess) true), db)) \/
  (debit_seqs db !! debitSeqKey sender w q = None /\
   exists sess' c db', debit_session u sess = (sess', c) /\
     DebitBalance sender w u q db =
       (Ok (mkDebitResult (parseDecimalBig (s_BalanceWei sess')) c (s_DebitedUnits sess') false), db') /\
     billable sender w db' sess' /\
     debit_seqs db' = <[debitSeqKey sender w q := dec_string u]> (debit_seqs db)).
Proof.
  intros Hu (Hs & Hc & Hp). unfold DebitBalance, Update, DebitBalance_tx.
  rewrite (proj2 (Z.ltb_ge _ _)) by lia. rewrite Hs.
  destruct (debit_seqs db !! debitSeqKey sender w q) as [v|] eqn:Hq; [left; eauto|right].
  rewrite Hc. rewrite bool_decide_false by done.
  destruct (debit_session u sess) as [sess' c] eqn:E. split; [done|].
  destruct (debit_session_spec _ _ _ _ E) as (_ & _ & _ & Hc' & Hp' & _).
  eexists sess', c, _. split_and!; [done|done| |done].
  unfold billable. simpl. rewrite lookup_insert_eq, Hc', Hp'. done.
Qed.

(** A run of debits on one session, answers in order. *)
Fixpoint debit_run (sender w : string) (reqs : list (Z * Z)) (db : DB M)
    : list (result error DebitResult) * DB M :=
  match reqs with
  | [] => ([], db)
  | (u, q) :: reqs' =>
      let '(r, db') := DebitBalance sender w u q db in
      let '(rs, db'') := debit_run sender w reqs' db' in (r :: rs, db'')
  end.

Definition charge (r : result error DebitResult) : Z :=
  match r with Ok d => dr_DebitedWei d | Err _ => 0 end.
Definition total_charge (rs : list (result error DebitResult)) : Z := foldr Z.add 0 (charge <$> rs).

Lemma total_charge_cons r rs : total_charge (r :: rs) = charge r + total_charge rs.
Proof. done. Qed.

(** The units of the requests that are not replays. *)
Fixpoint fresh_units (rs : list (result error DebitResult)) (reqs : list (Z * Z)) : Z :=
  match rs, reqs with
  | Ok d :: rs', (u, _) :: reqs' => (if dr_Replayed d then 0 else u) + fresh_units rs' reqs'
  | _ :: rs', _ :: reqs' => fresh_units rs' reqs'
  | _, _ => 0
  end.

Lemma debit_run_spec sender w reqs db sess :
  Forall (fun uq => 0 <= uq.1) reqs -> billable sender w db sess ->
  exists sess', billable sender w (debit_run sender w reqs db).2 sess' /\
    Forall (fun r => is_ok r = true) (debit_run sender w reqs db).1 /\
    s_PricePerWorkUnitWei sess' = s_PricePerWorkUnitWei sess /\ s_PerUnits sess' = s_PerUnits sess /\
    s_DebitedUnits sess' mod two64 =
      (s_DebitedUnits sess + fresh_units (debit_run sender w reqs db).1 reqs) mod two64 /\
    (0 <= s_DebitedUnits sess < two64 -> 0 <= s_DebitedUnits sess' < two64) /\
    total_charge (debit_run sender w reqs db).1 =
      BillFor (parseDecimalBig (s_PricePerWorkUnitWei sess)) (s_PerUnits sess) (s_DebitedUnits sess')
      - BillFor (parseDecimalBig (s_PricePerWorkUnitWei sess)) (s_PerUnits sess) (s_DebitedUnits sess) /\
    parseDecimalBig (s_BalanceWei sess') =
      parseDecimalBig (s_BalanceWei sess) - total_charge (debit_run sender w reqs db).1.
Proof.
  intros Hreqs. revert db sess. induction Hreqs as [|[u q] reqs Hu Hreqs IH]; intros db sess Hb; simpl in *.
  { exists sess. split_and!; try done; first [by constructor|by rewrite Z.add_0_r|change (total_charge []) with 0; lia]. }
  destruct (DebitBalance_step sender w u q db sess Hu Hb)
    as [[_ ->]|(_ & sess1 & c & db1 & E & -> & Hb1 & _)].
  - destruct (IH db sess Hb) as (sess' & IH').
    destruct (debit_run sender w reqs db) as [rs db2]. simpl in *.
    exists sess'. destruct IH' as (? & ? & ? & ? & ? & ? & ? & ?).
    split_and!; try done; first [by constructor|rewrite total_charge_cons; simpl; lia].
  - destruct (IH db1 sess1 Hb1) as (sess' & IH').
    destruct (debit_run sender w reqs db1) as [rs db2]. simpl in *.
    destruct (debit_session_spec _ _ _ _ E) as (Hun & Hc & Hbal & _ & Hp & Hper).
    rewrite Hp, Hper in IH'. destruct IH' as (? & ? & ? & ? & Hmod & Hrange & Htot & Hbal').
    exists sess'. split_and!; try done.
    + by constructor.
    + rewrite Hmod, Hun. unfold u64. rewrite Z.add_mod_idemp_l by done. f_equal. lia.
    + intros _. apply Hrange. rewrite Hun. apply u64_range.
    + rewrite total_charge_cons. simpl. lia.
    + rewrite total_charge_cons. simpl. lia.
Qed.

End sessions.
