(* ===== verification/SessionsSpec.v ===== *)
(** * Properties of the session ledger

    What [Sessions] promises: exactly-once cumulative billing, prices set once,
    one live ticket session per identity, compare-and-swap rotation; and the
    behaviours of sealing and of legacy index keys that break a promise. *)
From S2P Require Import Prelude.
From S2P Require Import GoBytes.
From S2P Require Import GoCodecs.
From S2P Require Import Bolt.
From S2P Require Import Ledger.
From S2P Require Import Billing.
From S2P Require Import Nonces.
From S2P Require Import Sessions.

Section spec.
Context `{Bolt M}.

(** ** Billing *)

(** C10: Debits bill cumulatively: over any run of debits on an open, priced
    session (replays included), every debit succeeds, the session's unit
    counter grows by the units of the fresh debits, the charges add up to the
    difference of the two cumulative bills however the work is split, and the
    balance falls by exactly that amount. *)
Theorem debits_bill_cumulatively sender w reqs db sess rs db' :
  Forall (fun uq => 0 <= uq.1) reqs -> billable sender w db sess ->
  debit_run sender w reqs db = (rs, db') ->
  0 <= s_DebitedUnits sess -> s_DebitedUnits sess + fresh_units rs reqs < two64 ->
  exists sess', Get sender w db' = Ok sess' /\ Forall (fun r => is_ok r = true) rs /\
    s_DebitedUnits sess' = s_DebitedUnits sess + fresh_units rs reqs /\
    total_charge rs =
      BillFor (parseDecimalBig (s_PricePerWorkUnitWei sess)) (s_PerUnits sess)
        (s_DebitedUnits sess + fresh_units rs reqs)
      - BillFor (parseDecimalBig (s_PricePerWorkUnitWei sess)) (s_PerUnits sess) (s_DebitedUnits sess) /\
    parseDecimalBig (s_BalanceWei sess') = parseDecimalBig (s_BalanceWei sess) - total_charge rs.
Proof.
  intros Hreqs Hb Hrun H0 Hlt.
  destruct (debit_run_spec sender w reqs db sess Hreqs Hb)
    as (sess' & (Hs' & _) & Hok & _ & _ & Hmod & Hrange & Htot & Hbal).
  rewrite Hrun in *. simpl in *.
  assert (0 <= fresh_units rs reqs) as Hf.
  { clear -Hreqs. revert rs. induction Hreqs as [|[u q] reqs Hu _ IH]; intros [|[d|e] rs]; simpl in *;
      try lia; specialize (IH rs); [destruct (dr_Replayed d)|]; lia. }
  assert (s_DebitedUnits sess' = s_DebitedUnits sess + fresh_units rs reqs) as Hun.
  { rewrite !Z.mod_small in Hmod; [done|lia|apply Hrange; lia]. }
  exists sess'. unfold Get. rewrite Hs', <- Hun. done.
Qed.

(** No rounding drift: for a session billed from zero, the total charged
    for a run of debits is the exact price rounded up to a whole wei once,
    never a wei per debit. *)
Theorem debits_round_up_once sender w reqs db sess rs db' :
  Forall (fun uq => 0 <= uq.1) reqs -> billable sender w db sess ->
  debit_run sender w reqs db = (rs, db') ->
  s_DebitedUnits sess = 0 -> 0 <= fresh_units rs reqs < two64 ->
  0 <= parseDecimalBig (s_PricePerWorkUnitWei sess) -> 0 <= s_PerUnits sess ->
  let exact := parseDecimalBig (s_PricePerWorkUnitWei sess) * fresh_units rs reqs in
  let per := effective_per (s_PerUnits sess) in
  exact <= total_charge rs * per < exact + per.
Proof.
  intros Hreqs Hb Hrun Hz Hf Hp Hper exact per.
  destruct (debit_run_spec sender w reqs db sess Hreqs Hb)
    as (sess' & _ & _ & _ & _ & Hmod & Hrange & Htot & _).
  rewrite Hrun in *. simpl in *. rewrite Hz in *.
  rewrite !Z.mod_small in Hmod; [|lia|apply Hrange; unfold two64; lia].
  rewrite BillFor_zero, Hmod in Htot. rewrite Htot, Z.sub_0_r.
  apply BillFor_ceil; [done|done|lia].
Qed.

(** Debits are exactly-once: repeating a debit sequence number, with
    whatever units, charges nothing, reports the balance and total the first
    debit left and changes nothing. *)
Theorem debit_replay_is_free sender w u u' q db db' d :
  0 <= u' -> DebitBalance sender w u q db = (Ok d, db') -> dr_Replayed d = false ->
  DebitBalance sender w u' q db' =
    (Ok (mkDebitResult (dr_Balance d) 0 (dr_CumulativeUnits d) true), db').
Proof.
  intros Hu'. unfold DebitBalance. rewrite (proj2 (Z.ltb_ge u' 0)) by lia.
  destruct (u <? 0); [done|]. rewrite Update_Ok. unfold DebitBalance_tx.
  destruct (debit_seqs db !! _) eqn:Hq.
  { destruct (sessions db !! _); [|done]. by intros [= <- <-]. }
  destruct (sessions db !! _) as [sess|] eqn:Hs; [|done].
  destruct (s_Closed sess); [done|]. destruct (bool_decide _); [done|].
  destruct (debit_session u sess) as [sess' c] eqn:E. intros [= <- <-] _. simpl.
  unfold Update. simpl. by rewrite !lookup_insert_eq.
Qed.

(** A debit is refused, without effect, when the session is missing, when
    it is closed, and when no offering has priced it, unless the sequence
    number was already billed. *)
Theorem debit_refusals sender w u q db :
  0 <= u -> debit_seqs db !! debitSeqKey sender w q = None ->
  DebitBalance sender w u q db =
    match sessions db !! compositeKey sender w with
    | None => (Err ErrNotFound, db)
    | Some sess =>
        if s_Closed sess then (Err ErrClosed, db)
        else if bool_decide (s_PricePerWorkUnitWei sess = "") then (Err ErrPricingUnset, db)
        else let sess' := (debit_session u sess).1 in
          (Ok (mkDebitResult (parseDecimalBig (s_BalanceWei sess')) (debit_session u sess).2
             (s_DebitedUnits sess') false),
           with_debit_seqs (<[debitSeqKey sender w q := dec_string u]> (debit_seqs db))
             (with_sessions (<[compositeKey sender w := sess']> (sessions db)) db))
    end.
Proof.
  intros Hu Hq. unfold DebitBalance, Update, DebitBalance_tx.
  rewrite (proj2 (Z.ltb_ge u 0)) by lia. rewrite Hq.
  destruct (sessions db !! _) as [sess|]; [|done].
  destruct (s_Closed sess); [done|]. destruct (bool_decide _); [done|].
  by destruct (debit_session u sess).
Qed.

(** ** Opening *)

(** An offering prices a session exactly once: on a session that is
    already recorded, [OpenSession] fills an unset price from the seed, accepts
    the same price again without a write, and refuses any other price or
    denominator with [ErrPricingConflict] and no effect. *)
Theorem open_session_prices_once now seed db idx found :
  s_WorkID seed <> "" ->
  capability_index db !! s_WorkID seed = Some idx ->
  sessions db !! compositeKey idx (s_WorkID seed) = Some found ->
  let r := OpenSession now seed db in
  if bool_decide (s_PricePerWorkUnitWei found = PricingUnset) then
    exists sess, r.1 = Ok (sess, true) /\
      sessions r.2 !! compositeKey idx (s_WorkID seed) = Some sess /\
      s_PricePerWorkUnitWei sess = s_PricePerWorkUnitWei seed /\ s_PerUnits sess = s_PerUnits seed /\
      s_BalanceWei sess = s_BalanceWei found /\ s_DebitedUnits sess = s_DebitedUnits found
  else if bool_decide (s_PricePerWorkUnitWei found = s_PricePerWorkUnitWei seed /\
                       s_PerUnits found = s_PerUnits seed)
  then r = (Ok (found, true), db)
  else r = (Err ErrPricingConflict, db).
Proof.
  intros Hw Hidx Hfound r. subst r.
  assert ((if isUnsealedSentinel idx then "" else idx) = idx) as Hid.
  { unfold isUnsealedSentinel. by destruct idx. }
  set (seed' := OpenSession_seed now seed).
  assert (s_WorkID seed' = s_WorkID seed /\ s_PricePerWorkUnitWei seed' = s_PricePerWorkUnitWei seed /\
          s_PerUnits seed' = s_PerUnits seed) as (E1 & E2 & E3).
  { subst seed'. unfold OpenSession_seed. by destruct (bool_decide _). }
  unfold OpenSession, Update, OpenSession_tx. rewrite (bool_decide_false (s_WorkID seed = "")) by done.
  fold seed'. rewrite E1, Hidx, Hid, Hfound. unfold apply_pricing. rewrite E2, E3.
  destruct (decide (s_PricePerWorkUnitWei found = PricingUnset)) as [Hp|Hp].
  - rewrite !bool_decide_true by done. eexists. simpl. rewrite lookup_insert_eq. done.
  - rewrite !(bool_decide_false (s_PricePerWorkUnitWei found = PricingUnset)) by done.
    destruct (decide (s_PricePerWorkUnitWei found = s_PricePerWorkUnitWei seed)) as [Hq|Hq].
    + rewrite (bool_decide_true (s_PricePerWorkUnitWei found = _)) by done. simpl.
      destruct (Z.eqb_spec (s_PerUnits found) (s_PerUnits seed)).
      * by rewrite bool_decide_true.
      * rewrite bool_decide_false; [done|]. naive_solver.
    + rewrite (bool_decide_false (s_PricePerWorkUnitWei found = _)) by done. simpl.
      rewrite bool_decide_false; [done|]. naive_solver.
Qed.

(** ** Ticket sessions *)

Lemma GetOrCreate_seed_fields now key seed :
  s_WorkID (GetOrCreate_seed now key seed) = s_WorkID seed /\
  s_Closed (GetOrCreate_seed now key seed) = s_Closed seed /\
  s_Sender (GetOrCreate_seed now key seed) = k_Sender key /\
  s_Recipient (GetOrCreate_seed now key seed) = k_Recipient key.
Proof. unfold GetOrCreate_seed. by destruct (bool_decide _). Qed.

(** One live ticket session per identity: once [GetOrCreateTicketSession]
    has answered, asking again for the same identity, whatever the seed,
    returns that very session and changes nothing. *)
Theorem ticket_session_reused now now' key seed seed' db sess created db' :
  s_WorkID seed' <> "" -> s_Closed seed = false ->
  GetOrCreateTicketSession now key seed db = (Ok (sess, created), db') ->
  GetOrCreateTicketSession now' key seed' db' = (Ok (sess, true), db').
Proof.
  intros Hw' Hopen. unfold GetOrCreateTicketSession. rewrite (bool_decide_false (s_WorkID seed' = "")) by done.
  destruct (bool_decide (s_WorkID seed = "")); [done|].
  destruct (live_indexed key db) as [[found|] tx] eqn:Hl.
  - intros [= <- <- <-]. assert (tx = db) as ->.
    { unfold live_indexed in Hl. repeat case_match; by simplify_eq. }
    by rewrite Hl.
  - intros [= <- <- <-]. unfold live_indexed. simpl. rewrite !lookup_insert_eq.
    by rewrite (proj1 (proj2 (GetOrCreate_seed_fields now key seed))), Hopen.
Qed.

(** The identity a created session carries is the one it is indexed under. *)
Lemma session_key_created now key seed : session_key (GetOrCreate_seed now key seed) = key.
Proof. unfold GetOrCreate_seed. destruct key. by destruct (bool_decide _). Qed.

(** Closing ends the identity's session: after [CloseSession] on a created
    ticket session, the next [GetOrCreateTicketSession] for the same identity
    opens a fresh one from its own seed instead of reviving the closed one. *)
Theorem ticket_session_fresh_after_close now now' now'' key seed seed' db sess db' db'' :
  k_Sender key <> "" -> k_Recipient key <> "" -> s_WorkID seed' <> "" -> s_Closed seed = false ->
  GetOrCreateTicketSession now key seed db = (Ok (sess, false), db') ->
  CloseSession now' (k_Sender key) (s_WorkID sess) db' = (Ok false, db'') ->
  (GetOrCreateTicketSession now'' key seed' db'').1 = Ok (GetOrCreate_seed now'' key seed', false).
Proof.
  intros Hsd Hrc Hw' Hopen. unfold GetOrCreateTicketSession at 1.
  destruct (bool_decide (s_WorkID seed = "")); [done|].
  destruct (live_indexed key db) as [[found|] tx] eqn:Hl; [by intros [= <- ? ?]|].
  intros [= <- <-]. set (created := GetOrCreate_seed now key seed).
  destruct (GetOrCreate_seed_fields now key seed) as (_ & Hc & E1 & E2). fold created in Hc, E1, E2.
  rewrite Hopen in Hc.
  unfold CloseSession. rewrite Update_Ok. unfold CloseSession_tx, close_lookup. simpl.
  rewrite lookup_insert_eq, Hc, E1, E2. subst created. rewrite session_key_created. simpl.
  rewrite lookup_insert_eq. simpl. rewrite bool_decide_true by done.
  assert (forall s, s <> "" -> (0 <? len s) = true) as Hlen.
  { by intros [|c s] Hs. }
  rewrite !Hlen by done. intros [= <-].
  unfold GetOrCreateTicketSession. rewrite bool_decide_false by done.
  unfold live_indexed. simpl. by rewrite lookup_delete_eq.
Qed.

(** Rotation is compare-and-swap: when one caller has retired an identity's
    session, and even after a successor with another work id has been created,
    a second caller holding the same expectation changes nothing and learns it
    did not rotate. *)
Theorem rotation_retires_once now1 now2 now3 key w seed db db1 db2 sess b :
  s_WorkID seed <> w -> s_Closed seed = false ->
  ResetTicketSessionIfCurrent now1 key w db = (Ok true, db1) ->
  GetOrCreateTicketSession now2 key seed db1 = (Ok (sess, b), db2) ->
  b = false /\ ResetTicketSessionIfCurrent now3 key w db1 = (Ok false, db1) /\
  ResetTicketSessionIfCurrent now3 key w db2 = (Ok false, db2).
Proof.
  intros Hne Hopen. unfold ResetTicketSessionIfCurrent.
  destruct (bool_decide (w = "")) eqn:Hw; [done|]. rewrite Update_Ok.
  destruct (ticket_session_index db !! ticketSessionIndexKey key) as [cur|]; [|done].
  destruct (negb _); [done|].
  destruct (retireIndexedSession now1 key w db) as [tx|] eqn:Hr; [|done]. intros [= <-].
  assert (ticket_session_index tx !! ticketSessionIndexKey key = None) as Hidx.
  { unfold retireIndexedSession in Hr. repeat case_match; simplify_eq; simpl; apply lookup_delete_eq. }
  unfold GetOrCreateTicketSession. destruct (bool_decide (s_WorkID seed = "")); [done|].
  unfold live_indexed. rewrite Hidx. intros [= <- <- <-].
  split_and!; [done|unfold Update; by rewrite Hidx|].
  unfold Update. simpl. rewrite lookup_insert_eq.
  rewrite bool_decide_false; [done|].
  by rewrite (proj1 (GetOrCreate_seed_fields now2 key seed)).
Qed.

(** The two resets agree: where the indexed session exists, the
    unconditional [ResetTicketSession] does exactly what
    [ResetTicketSessionIfCurrent] does for the indexed work id. *)
Theorem resets_agree now key w sess db :
  w <> "" -> ticket_session_index db !! ticketSessionIndexKey key = Some w ->
  sessions db !! compositeKey (k_Sender key) w = Some sess ->
  ResetTicketSession now key db =
    match ResetTicketSessionIfCurrent now key w db with
    | (Ok rotated, db') => (Ok (w, rotated), db')
    | (Err e, db') => (Err e, db')
    end.
Proof.
  intros Hw Hidx Hs. unfold ResetTicketSession, ResetTicketSessionIfCurrent, Update, retireIndexedSession.
  rewrite (bool_decide_false (w = "")), Hidx, Hs by done. rewrite (bool_decide_true (w = w)) by done. simpl.
  case_bool_decide; [done|]. by destruct (SetString10 _).
Qed.

(** ** Sealing *)

(** What a sealed session opened by [OpenSession] looks like: the index still
    holds the unsealed sentinel. *)
Definition sealed_by_open (w sender : string) (sess : Session) (db : DB M) : Prop :=
  capability_index db !! w = Some unsealedSentinel /\
  sessions db !! compositeKey "" w = None /\
  sessions db !! compositeKey sender w = Some sess.

Lemma open_then_seal now seed sender db :
  s_WorkID seed <> "" -> sender <> "" -> capability_index db !! s_WorkID seed = None ->
  let db1 := (OpenSession now seed db).2 in
  let r := SealSender (s_WorkID seed) sender db1 in
  r.1 = Ok tt /\
  sealed_by_open (s_WorkID seed) sender (s_with_Sender sender (OpenSession_seed now seed)) r.2.
Proof.
  intros Hw Hsd Hidx db1 r. subst r db1.
  unfold OpenSession, Update, OpenSession_tx. rewrite (bool_decide_false (s_WorkID seed = "")) by done.
  set (seed' := OpenSession_seed now seed).
  assert (s_WorkID seed' = s_WorkID seed) as E1.
  { subst seed'. unfold OpenSession_seed. by destruct (bool_decide _). }
  assert (s_Sender seed' = "") as E2.
  { subst seed'. unfold OpenSession_seed. by destruct (bool_decide _). }
  rewrite E1, Hidx. simpl.
  unfold SealSender, Update, SealSender_tx, openFresh. simpl. rewrite E1, lookup_insert_eq.
  unfold seal_lookup. simpl. rewrite lookup_insert_eq, E2. simpl.
  pose proof (compositeKey_unsealed_ne sender (s_WorkID seed) (s_WorkID seed) eq_refl Hsd) as Hne.
  rewrite bool_decide_false by done. split; [done|]. split_and!; simpl.
  - apply lookup_insert_eq.
  - rewrite lookup_insert_ne by done. apply lookup_delete_eq.
  - apply lookup_insert_eq.
Qed.

(** Sealing is not idempotent on a session opened with [OpenSession]: once
    a first payment has sealed it, sealing it again for the same sender (the
    second payment) fails with [ErrNotFound], because the index keeps the
    unsealed sentinel and the record has moved to the sender's key. *)
Theorem second_seal_not_found w sender sess db :
  sealed_by_open w sender sess db ->
  (forall k s, sessions db !! k = Some s -> s_WorkID s = w -> s_Sender s <> "") ->
  SealSender w sender db = (Err ErrNotFound, db).
Proof.
  intros (Hidx & Hnil & _) Hall. unfold SealSender, Update, SealSender_tx, seal_lookup.
  rewrite Hidx. unfold unsealedSentinel. by rewrite Hnil, scanByWorkID_None.
Qed.

(** Re-opening a sealed session forgets its balance: after [OpenSession],
    sealing and crediting, a second [OpenSession] with the same seed reports a
    new session, and the next seal for the same sender replaces the credited
    record, so the balance reads zero. *)
Theorem reopen_forgets_balance now' seed sender sess db :
  s_WorkID seed <> "" -> sender <> "" -> s_BalanceWei seed = "" ->
  sealed_by_open (s_WorkID seed) sender sess db ->
  let r1 := OpenSession now' seed db in
  let r2 := SealSender (s_WorkID seed) sender r1.2 in
  GetBalance sender (s_WorkID seed) db = Ok (parseDecimalBig (s_BalanceWei sess)) /\
  r1.1 = Ok (OpenSession_seed now' seed, false) /\ r2.1 = Ok tt /\
  GetBalance sender (s_WorkID seed) r2.2 = Ok 0.
Proof.
  intros Hw Hsd Hbal (Hidx & Hnil & Hsess) r1 r2. subst r2 r1.
  unfold GetBalance at 1, Get at 1. rewrite Hsess. split; [done|].
  unfold OpenSession, Update, OpenSession_tx. rewrite (bool_decide_false (s_WorkID seed = "")) by done.
  set (seed' := OpenSession_seed now' seed).
  assert (s_WorkID seed' = s_WorkID seed /\ s_Sender seed' = "" /\ s_BalanceWei seed' = "0") as (E1 & E2 & E3).
  { subst seed'. unfold OpenSession_seed. simpl. by rewrite Hbal, bool_decide_true. }
  rewrite E1, Hidx. simpl. rewrite Hnil. simpl. split; [done|].
  unfold SealSender, Update, SealSender_tx, openFresh. simpl. rewrite E1, lookup_insert_eq.
  unfold seal_lookup. simpl. rewrite lookup_insert_eq, E2. simpl.
  rewrite bool_decide_false by (by apply compositeKey_unsealed_ne). simpl. split; [done|].
  unfold GetBalance, Get. simpl. rewrite lookup_insert_eq. simpl. by rewrite E3.
Qed.

(** ** Keys *)

(** Idempotency keys never collide: two debits share a debit-sequence row
    only if sender, work id and sequence number all agree. *)
Theorem debit_key_injective s s' w w' q q' :
  len s < 256 -> len s' < 256 -> 0 <= q < two64 -> 0 <= q' < two64 ->
  debitSeqKey s w q = debitSeqKey s' w' q' -> s = s' /\ w = w' /\ q = q'.
Proof.
  intros Hs Hs' Hq Hq' E. unfold debitSeqKey in E.
  apply app_inv_len_r in E as [E1 E2]; [|by rewrite !len_debitSeqBytes].
  apply compositeKey_inj in E1 as [-> ->]; [|done..].
  unfold debitSeqBytes in E2. apply (inj (String.append _)), dec20_inj in E2; [done|lia|lia].
Qed.

(** Legacy ticket-session index keys are ambiguous: without an account and
    stream id, moving a colon between capability and offering gives the same
    key, so the ledger hands one route the live session of another. *)
Theorem legacy_index_key_collides now now' s r a b c seed seed' db sess created db' :
  s_WorkID seed' <> "" -> s_Closed seed = false ->
  GetOrCreateTicketSession now (mkTicketSessionKey "" "" s r (a +:+ ":" +:+ b) c) seed db
    = (Ok (sess, created), db') ->
  GetOrCreateTicketSession now' (mkTicketSessionKey "" "" s r a (b +:+ ":" +:+ c)) seed' db'
    = (Ok (sess, true), db').
Proof.
  intros Hw' Hopen.
  assert (forall x y, ticketSessionIndexKey (mkTicketSessionKey "" "" s r (a +:+ ":" +:+ b) c) = x ->
    ticketSessionIndexKey (mkTicketSessionKey "" "" s r a (b +:+ ":" +:+ c)) = y -> x = y) as Hkey.
  { intros x y <- <-. unfold ticketSessionIndexKey. simpl. by rewrite !app_assoc_str. }
  specialize (Hkey _ _ eq_refl eq_refl).
  unfold GetOrCreateTicketSession. rewrite (bool_decide_false (s_WorkID seed' = "")) by done.
  destruct (bool_decide (s_WorkID seed = "")); [done|].
  destruct (live_indexed _ db) as [[found|] tx] eqn:Hl.
  - intros [= <- <- <-]. assert (tx = db) as ->.
    { unfold live_indexed in Hl. repeat case_match; by simplify_eq. }
    unfold live_indexed in *. rewrite <- Hkey. simpl in *. by rewrite Hl.
  - intros [= <- <- <-]. unfold live_indexed. rewrite <- Hkey. simpl. rewrite !lookup_insert_eq.
    by rewrite (proj1 (proj2 (GetOrCreate_seed_fields now _ seed))), Hopen.
Qed.

(** Versioned index keys are disjoint from legacy ones: an identity with an
    account or stream id never shares an index key with one that has neither. *)
Theorem index_key_versions_disjoint k k' :
  k_WholesaleAccountID k <> "" \/ k_TicketStreamID k <> "" ->
  k_WholesaleAccountID k' = "" -> k_TicketStreamID k' = "" -> len (k_Sender k') < 256 ->
  ticketSessionIndexKey k <> ticketSessionIndexKey k'.
Proof.
  intros Hk Ha Hs Hl. unfold ticketSessionIndexKey at 1.
  assert (negb (bool_decide (k_WholesaleAccountID k = "")) ||
          negb (bool_decide (k_TicketStreamID k = "")) = true) as ->.
  { destruct Hk as [Hk|Hk]; rewrite (bool_decide_false _ Hk); [done|apply orb_true_r]. }
  unfold ticketSessionIndexKey. rewrite Ha, Hs. simpl.
  intros E. injection E as Hb E. apply (f_equal byte_val) in Hb. unfold zero_byte in Hb.
  pose proof (len_nonneg (k_Sender k')).
  rewrite Z.mod_small, !byte_val_of in Hb by lia.
  destruct (k_Sender k') as [|c s]; [done|]. unfold len in Hb. simpl in Hb. lia.
Qed.

End spec.

(** ** Concrete runs *)
Definition demo_seed : Session :=
  mkSession "" "" "job-1" "" "" "cap" "off" "10" 3 "token" 0 "" false 0 0 "77" "" "".
Definition demo_key : TicketSessionKey := mkTicketSessionKey "acct" "stream" "alice" "payee" "cap" "off".
Abbreviation demo_db := (GetOrCreateTicketSession 5 demo_key demo_seed (Open (M := gmap string))).2 (only parsing).
Definition demo_sess : Session := Eval vm_compute in GetOrCreate_seed 5 demo_key demo_seed.

Definition demo_seed2 : Session := Eval vm_compute in s_with_WorkID "job-2" demo_seed.
Definition demo_sess2 : Session := Eval vm_compute in GetOrCreate_seed 7 demo_key demo_seed2.
Definition open_sess : Session := Eval vm_compute in OpenSession_seed 5 demo_seed.

Lemma debits_bill_cumulatively_witness :
  let run := debit_run "alice" "job-1" [(1, 1); (1, 2); (1, 2); (5, 3)] demo_db in
  fresh_units run.1 [(1, 1); (1, 2); (1, 2); (5, 3)] = 7 /\ total_charge run.1 = 24 /\ exists sess', Get "alice" "job-1" run.2 = Ok sess' /\ s_DebitedUnits sess' = 7.
Proof.
  intros run. split_and!; [by vm_compute..|].
  destruct (debits_bill_cumulatively "alice" "job-1" [(1, 1); (1, 2); (1, 2); (5, 3)] demo_db
    demo_sess run.1 run.2) as (sess' & Hg & _ & Hu & _).
  - repeat constructor; simpl; lia.
  - split_and!; by vm_compute.
  - apply surjective_pairing.
  - by vm_compute.
  - by vm_compute.
  - exists sess'. split; [done|]. by rewrite Hu.
Defined.

Lemma debits_round_up_once_witness :
  let run := debit_run "alice" "job-1" [(1, 1); (1, 2); (5, 3)] demo_db in
  let exact := parseDecimalBig (s_PricePerWorkUnitWei demo_sess) * fresh_units run.1 [(1, 1); (1, 2); (5, 3)] in
  let per := effective_per (s_PerUnits demo_sess) in
  exact = 70 /\ per = 3 /\ exact <= total_charge run.1 * per < exact + per.
Proof.
  intros run exact per. split; [by vm_compute|]. split; [by vm_compute|].
  refine (debits_round_up_once "alice" "job-1" [(1, 1); (1, 2); (5, 3)] demo_db
    demo_sess run.1 run.2 _ _ (surjective_pairing run) _ _ _ _); try by vm_compute.
  by repeat constructor.
Defined.

Lemma debit_replay_is_free_witness :
  let db' := (DebitBalance "alice" "job-1" 2 9 demo_db).2 in
  DebitBalance "alice" "job-1" 5 9 db' = (Ok (mkDebitResult (-7) 0 2 true), db').
Proof.
  intros db'. refine (debit_replay_is_free "alice" "job-1" 2 5 9 demo_db db'
    (mkDebitResult (-7) 7 2 false) _ (answer _ _ _) eq_refl); [lia|vm_refl].
Defined.

Lemma open_session_prices_once_witness :
  let db := (OpenSession 5 demo_seed (Open (M := gmap string))).2 in
  OpenSession 6 (s_with_PerUnits 4 demo_seed) db = (Err ErrPricingConflict, db).
Proof.
  intros db. refine (open_session_prices_once 6 (s_with_PerUnits 4 demo_seed) db ""
    open_sess _ _ _); [done|vm_refl|vm_refl].
Defined.

Lemma ticket_session_reused_witness :
  GetOrCreateTicketSession 9 demo_key demo_seed2 demo_db
    = (Ok (demo_sess, true), demo_db).
Proof.
  refine (ticket_session_reused 5 9 demo_key demo_seed demo_seed2 Open demo_sess false
    demo_db _ eq_refl (answer _ _ _)); [done|vm_refl].
Defined.

Lemma rotation_retires_once_witness :
  let db1 := (ResetTicketSessionIfCurrent 6 demo_key "job-1" demo_db).2 in
  ResetTicketSessionIfCurrent 8 demo_key "job-1" db1 = (Ok false, db1).
Proof.
  intros db1.
  refine (proj1 (proj2 (rotation_retires_once 6 7 8 demo_key "job-1" demo_seed2 demo_db db1 _
    demo_sess2 false _ eq_refl (answer _ _ _) (answer _ _ _)))).
  - done.
  - vm_refl.
  - vm_refl.
Defined.

(** A session opened, sealed by a first payment and credited 50 wei. *)
Definition sealed_db : DB (gmap string) :=
  (CreditBalance "alice" "job-1" 50 (SealSender "job-1" "alice" (OpenSession 5 demo_seed Open).2).2).2.
Definition sealed_sess : Session := Eval vm_compute in
  s_with_BalanceWei "50" (s_with_Sender "alice" (OpenSession_seed 5 demo_seed)).

Lemma sealed_db_by_open : sealed_by_open "job-1" "alice" sealed_sess sealed_db.
Proof. split_and!; vm_refl. Qed.

Lemma sealed_db_senders : map_Forall (fun _ s => s_Sender s <> "") (sessions sealed_db).
Proof. apply (bool_decide_eq_true_1 _). vm_refl. Qed.

Lemma second_seal_not_found_witness :
  SealSender "job-1" "alice" sealed_db = (Err ErrNotFound, sealed_db).
Proof.
  apply (second_seal_not_found "job-1" "alice" sealed_sess sealed_db); [apply sealed_db_by_open|].
  intros k s Hs _. by apply (sealed_db_senders k).
Defined.

Lemma reopen_forgets_balance_witness :
  let r1 := OpenSession 9 demo_seed sealed_db in
  GetBalance "alice" "job-1" sealed_db = Ok 50 /\
  GetBalance "alice" "job-1" (SealSender "job-1" "alice" r1.2).2 = Ok 0.
Proof.
  intros r1. split; [vm_refl|].
  refine (proj2 (proj2 (proj2 (reopen_forgets_balance 9 demo_seed "alice" sealed_sess sealed_db
    _ _ eq_refl sealed_db_by_open)))); done.
Defined.

Lemma debit_key_injective_witness :
  debitSeqKey "alice" "job-1" 4 = debitSeqKey "alice" "job-1" 4 ->
  "alice" = "alice" /\ "job-1" = "job-1" /\ 4 = 4.
Proof. by apply (debit_key_injective "alice" "alice" "job-1" "job-1" 4 4). Defined.

Definition legacy_sess : Session := Eval vm_compute in
  GetOrCreate_seed 5 (mkTicketSessionKey "" "" "alice" "payee" "openai:chat" "gpu") demo_seed.

Lemma legacy_index_key_collides_witness :
  let k1 := mkTicketSessionKey "" "" "alice" "payee" "openai:chat" "gpu" in
  let k2 := mkTicketSessionKey "" "" "alice" "payee" "openai" "chat:gpu" in
  let r := GetOrCreateTicketSession 5 k1 demo_seed (Open (M := gmap string)) in
  GetOrCreateTicketSession 6 k2 demo_seed2 r.2
    = (Ok (legacy_sess, true), r.2).
Proof.
  intros k1 k2 r.
  refine (legacy_index_key_collides 5 6 "alice" "payee" "openai" "chat" "gpu" demo_seed
    demo_seed2 Open legacy_sess false r.2 _ eq_refl
    (answer _ _ _)); [done|vm_refl].
Defined.
