(* ===== verification/Redemptions.v ===== *)
(** * The redemption queue (payment-daemon/internal/store/redemptions.go)

    Winning tickets wait in a first-in first-out queue, indexed by ticket hash;
    a ticket that leaves the queue is recorded as redeemed, with or without a
    transaction, and never comes back.  The queue is refined to a plain list. *)
From S2P Require Import Prelude.
From S2P Require Import GoBytes.
From S2P Require Import Bolt.
From S2P Require Import Ledger.

Definition metaNextSeq : string := "next_seq".

Definition seqBytes (n : Z) : string := be_bytes 8 n.
Definition readSeq (b : string) : Z := if len b <? 8 then 0 else be_Z (take_bytes 8 b).
Definition isAllZero (b : string) : bool := is_zero_bytes b.

(** A queued ticket with its place in the queue. *)
Record PendingRedemption := mkPendingRedemption {
  pr_Seq : Z;
  pr_Ticket : SignedTicket;
  pr_Hash : string;
}.

(** [copy(stamped, txHash[:min(32, len(txHash))])] into 32 zero bytes. *)
Definition stamp32 (txHash : string) : string :=
  let head := take_bytes 32 txHash in
  head +:+ replicate_byte (32 - String.length head) zero_byte.

Section redemptions.
Context `{Bolt M}.

(** ** Enqueueing *)
Definition enqueueRedemption (ticketHash : string) (t : SignedTicket) (tx : DB M) : bool * DB M :=
  if bool_decide (default "" (redemptions_by_hash tx !! ticketHash) <> "") then (false, tx)
  else if bool_decide (is_Some (redemptions_redeemed tx !! ticketHash)) then (false, tx)
  else
    let seq := u64 (readSeq (default "" (redemptions_meta tx !! metaNextSeq)) + 1) in
    let tx := with_redemptions_meta (<[metaNextSeq := seqBytes seq]> (redemptions_meta tx)) tx in
    let tx := with_redemptions_pending (<[seqBytes seq := t]> (redemptions_pending tx)) tx in
    let tx := with_redemptions_by_hash (<[ticketHash := seqBytes seq]> (redemptions_by_hash tx)) tx in
    (true, tx).

Definition EnqueueRedemption (ticketHash : string) (t : option SignedTicket) (db : DB M)
    : result error bool * DB M :=
  if negb (len ticketHash =? 32) then (Err (ErrMsg "ticketHash must be 32 bytes"), db)
  else match t with
       | None => (Err (ErrMsg "nil ticket"), db)
       | Some t => Update (fun tx => Ok (enqueueRedemption ticketHash t tx)) db
       end.

(** ** Reading the queue *)

(** The reverse map [seqToHash]: a later entry overwrites an earlier one. *)
Definition seqToHash (byHash : M string) : gmap Z string :=
  list_to_map (reverse ((fun kv => (readSeq kv.2, kv.1)) <$> ForEach byHash)).

Definition PendingRedemptions (db : DB M) : list PendingRedemption :=
  let hashes := seqToHash (redemptions_by_hash db) in
  (fun kv => mkPendingRedemption (readSeq kv.1) kv.2 (default "" (hashes !! readSeq kv.1)))
    <$> ForEach (redemptions_pending db).

(** ** Leaving the queue *)
Definition redeemed_record (ticketHash txHash : string) (ticket : SignedTicket) (redeemedRound : Z)
    (evidence : option RedemptionInclusion) (drainReason : string) : RedeemedRedemption :=
  mkRedeemedRedemption drainReason evidence ticketHash (stamp32 txHash) (st_Sender ticket)
    (dec_string (st_FaceValue ticket)) (st_CreationRound ticket) redeemedRound
    (negb (isAllZero (stamp32 txHash))).

Definition markRedeemed (ticketHash txHash : string) (ticket : option SignedTicket) (redeemedRound : Z)
    (evidence : option RedemptionInclusion) (drainReason : string) (db : DB M)
    : result error unit * DB M :=
  if negb (len ticketHash =? 32) then (Err (ErrMsg "ticketHash must be 32 bytes"), db)
  else match ticket with
  | None => (Err (ErrMsg "ticket is nil"), db)
  | Some ticket =>
      let record := redeemed_record ticketHash txHash ticket redeemedRound evidence drainReason in
      Update (fun tx =>
        let seq := default "" (redemptions_by_hash tx !! ticketHash) in
        let tx :=
          if 0 <? len seq then
            with_redemptions_by_hash (delete ticketHash (redemptions_by_hash tx))
              (with_redemptions_pending (delete seq (redemptions_pending tx)) tx)
          else tx in
        Ok (tt, with_redemptions_redeemed (<[ticketHash := RedeemedRow record]> (redemptions_redeemed tx)) tx)) db
  end.

Definition MarkRedeemed (ticketHash txHash : string) (ticket : option SignedTicket) (redeemedRound : Z) (db : DB M) :=
  markRedeemed ticketHash txHash ticket redeemedRound None "" db.

Definition MarkRedeemedWithInclusion (ticketHash : string) (ticket : option SignedTicket)
    (evidence : option RedemptionInclusion) (db : DB M) : result error unit * DB M :=
  match evidence with
  | None => (Err (ErrMsg "invalid inclusion evidence"), db)
  | Some ev =>
      if negb (len (inc_TxHash ev) =? 32) || isAllZero (inc_TxHash ev) ||
         negb (len (inc_BlockHash ev) =? 32) || (inc_Round ev <=? 0)
      then (Err (ErrMsg "invalid inclusion evidence"), db)
      else markRedeemed ticketHash (inc_TxHash ev) ticket (inc_Round ev) (Some ev) "" db
  end.

Definition MarkDrained (hash : string) (ticket : option SignedTicket) (round : Z) (reason : string) (db : DB M) :=
  markRedeemed hash (replicate_byte 32 zero_byte) ticket round None reason db.

(** ** Reading what was redeemed *)
Definition RedeemedTxHash (ticketHash : string) (db : DB M) : option string :=
  match redemptions_redeemed db !! ticketHash with
  | None => None
  | Some (LegacyTxHash h) => Some h
  | Some (RedeemedRow rec) => Some (rr_TxHash rec)
  end.

Definition revenue_step (roundID : Z) (acc : result error (Z * Z)) (kv : string * redeemedRow)
    : result error (Z * Z) :=
  let! (total, count) := acc in
  match kv.2 with
  | LegacyTxHash _ => Ok (total, count)
  | RedeemedRow rec =>
      if negb (rr_ConfirmedOnChain rec) || negb (rr_RedeemedRound rec =? roundID) then Ok (total, count)
      else match SetString10 (rr_FaceValueWei rec) with
           | None => Err (ErrMsg "invalid redeemed face value")
           | Some faceValue => Ok (total + faceValue, u64 (count + 1))
           end
  end.

Definition RoundRevenue (roundID : Z) (db : DB M) : result error (Z * Z) :=
  foldl (revenue_step roundID) (Ok (0, 0)) (ForEach (redemptions_redeemed db)).

(** One snapshot: pending in ticket-hash order, redeemed records, and whether
    a legacy row was met. *)
Fixpoint history_pending (pending : M SignedTicket) (l : list (string * string))
    : result error (list PendingRedemption) :=
  match l with
  | [] => Ok []
  | (hash, seq) :: l' =>
      match pending !! seq with
      | None => Err (ErrMsg "redemption index is incomplete")
      | Some ticket =>
          let! rest := history_pending pending l' in
          Ok (mkPendingRedemption (readSeq seq) ticket hash :: rest)
      end
  end.

Fixpoint history_redeemed (l : list (string * redeemedRow)) : list RedeemedRedemption * bool :=
  match l with
  | [] => ([], false)
  | (_, LegacyTxHash _) :: l' => let '(rs, _) := history_redeemed l' in (rs, true)
  | (_, RedeemedRow record) :: l' => let '(rs, legacy) := history_redeemed l' in (record :: rs, legacy)
  end.

Definition RedemptionHistory (db : DB M)
    : result error (list PendingRedemption * list RedeemedRedemption * bool) :=
  let! pending := history_pending (redemptions_pending db) (ForEach (redemptions_by_hash db)) in
  let '(redeemed, legacy) := history_redeemed (ForEach (redemptions_redeemed db)) in
  Ok (pending, redeemed, legacy).

End redemptions.
