(* ===== verification/RedemptionsSpec.v ===== *)
(** * The redemption queue refines a list

    [queue] is the abstract queue: tickets in arrival order and the set of
    ticket hashes already settled.  Every run of operations on the buckets gives
    the answers of the same run on the list, and reading the buckets gives the
    list back. *)
From S2P Require Import Prelude.
From S2P Require Import GoBytes.
From S2P Require Import Bolt.
From S2P Require Import Ledger.
From S2P Require Import Redemptions.

(** ** The abstract queue *)
Record queue := mkQueue {
  q_items : list (string * SignedTicket);
  q_done : gset string;
}.

(** What can happen to the queue. *)
Inductive q_op :=
  | QEnqueue (h : string) (t : SignedTicket)
  | QRedeem (h tx : string) (t : SignedTicket) (round : Z) (ev : option RedemptionInclusion) (reason : string).

Definition q_spec (op : q_op) (q : queue) : result error bool * queue :=
  match op with
  | QEnqueue h t =>
      if negb (len h =? 32) then (Err (ErrMsg "ticketHash must be 32 bytes"), q)
      else if bool_decide (h ∈ (q_items q).*1 \/ h ∈ q_done q) then (Ok false, q)
      else (Ok true, mkQueue (q_items q ++ [(h, t)]) (q_done q))
  | QRedeem h _ _ _ _ _ =>
      if negb (len h =? 32) then (Err (ErrMsg "ticketHash must be 32 bytes"), q)
      else (Ok true, mkQueue (filter (fun e => e.1 <> h) (q_items q)) ({[h]} ∪ q_done q))
  end.

Fixpoint q_spec_run (ops : list q_op) (q : queue) : list (result error bool) * queue :=
  match ops with
  | [] => ([], q)
  | op :: ops' =>
      let '(a, q') := q_spec op q in
      let '(rest, q'') := q_spec_run ops' q' in (a :: rest, q'')
  end.

Section spec.
Context `{Bolt M}.

Definition q_impl (op : q_op) (db : DB M) : result error bool * DB M :=
  match op with
  | QEnqueue h t => EnqueueRedemption h (Some t) db
  | QRedeem h tx t round ev reason =>
      let '(r, db') := markRedeemed h tx (Some t) round ev reason db in
      (match r with Ok _ => Ok true | Err e => Err e end, db')
  end.

Fixpoint q_impl_run (ops : list q_op) (db : DB M) : list (result error bool) * DB M :=
  match ops with
  | [] => ([], db)
  | op :: ops' =>
      let '(a, db') := q_impl op db in
      let '(rest, db'') := q_impl_run ops' db' in (a :: rest, db'')
  end.

(** ** The refinement relation *)
Definition next_seq (db : DB M) : Z := readSeq (default "" (redemptions_meta db !! metaNextSeq)).
Definition seq_lt (e e' : PendingRedemption) : Prop := pr_Seq e < pr_Seq e'.

Record queue_rel (db : DB M) (l : list PendingRedemption) (q : queue) : Prop := {
  r_next : 0 <= next_seq db < two64;
  r_sorted : StronglySorted seq_lt l;
  r_range : forall e, e ∈ l -> 0 < pr_Seq e <= next_seq db;
  r_hashes : NoDup (pr_Hash <$> l);
  r_pending : forall k t, redemptions_pending db !! k = Some t <->
    exists e, e ∈ l /\ k = seqBytes (pr_Seq e) /\ t = pr_Ticket e;
  r_by_hash : forall h v, redemptions_by_hash db !! h = Some v <->
    exists e, e ∈ l /\ h = pr_Hash e /\ v = seqBytes (pr_Seq e);
  r_items : q_items q = (fun e => (pr_Hash e, pr_Ticket e)) <$> l;
  r_done : forall h, is_Some (redemptions_redeemed db !! h) <-> h ∈ q_done q;
}.

(** ** Sequence numbers *)
Lemma readSeq_seqBytes n : 0 <= n < two64 -> readSeq (seqBytes n) = n.
Proof.
  intros Hn. unfold readSeq, seqBytes. rewrite len_be_bytes. simpl Z.ltb.
  assert (take_bytes 8 (be_bytes 8 n) = be_bytes 8 n) as -> by done.
  by apply (be_Z_bytes 8).
Qed.

Lemma seqBytes_inj n m : 0 <= n < two64 -> 0 <= m < two64 -> seqBytes n = seqBytes m -> n = m.
Proof. apply (be_bytes_inj 8). Qed.

Lemma seqBytes_le n m : 0 <= n < two64 -> 0 <= m < two64 -> String.le (seqBytes n) (seqBytes m) <-> n <= m.
Proof. intros Hn Hm. rewrite le_str_spec. unfold seqBytes. by rewrite be_bytes_compare. Qed.

Lemma seqBytes_ne_nil n : seqBytes n <> "".
Proof. intros E. apply (f_equal len) in E. unfold seqBytes in E. by rewrite len_be_bytes in E. Qed.

Section reading.
Context (db : DB M) (l : list PendingRedemption) (q : queue) (R : queue_rel db l q).

Lemma r_bounds e : e ∈ l -> 0 <= pr_Seq e < two64.
Proof using R. intros He%(r_range _ _ _ R). pose proof (r_next _ _ _ R). lia. Qed.

Lemma l_NoDup : NoDup l.
Proof using R. eapply NoDup_fmap_1, (r_hashes _ _ _ R). Qed.

Lemma seq_unique e e' : e ∈ l -> e' ∈ l -> pr_Seq e = pr_Seq e' -> e = e'.
Proof using R.
  intros He He' E. pose proof (r_sorted _ _ _ R) as Hs. clear R.
  induction Hs as [|x l Hs IH Hx]; [by apply elem_of_nil in He|]. rewrite Forall_forall in Hx.
  apply elem_of_cons in He as [->|He], He' as [->|He']; [done| | |by apply IH].
  - specialize (Hx _ He'). unfold seq_lt in Hx. lia.
  - specialize (Hx _ He). unfold seq_lt in Hx. lia.
Qed.

Lemma hash_unique e e' : e ∈ l -> e' ∈ l -> pr_Hash e = pr_Hash e' -> e = e'.
Proof using R.
  intros [i Hi]%list_elem_of_lookup [j Hj]%list_elem_of_lookup E.
  assert (i = j) as ->; [|congruence].
  eapply NoDup_lookup; [apply (r_hashes _ _ _ R)|..]; rewrite list_lookup_fmap; [by rewrite Hi|].
  by rewrite Hj, E.
Qed.

Lemma seqToHash_lookup e : e ∈ l -> seqToHash (redemptions_by_hash db) !! pr_Seq e = Some (pr_Hash e).
Proof using R.
  intros He. pose proof (r_bounds e He) as Hb. unfold seqToHash. apply elem_of_list_to_map_1'.
  - intros h'. rewrite elem_of_reverse, list_elem_of_fmap. intros ([h v] & [= E ->] & Hin).
    apply elem_of_ForEach, (r_by_hash _ _ _ R) in Hin as (e' & He' & -> & ->). simpl in E.
    pose proof (r_bounds e' He'). rewrite readSeq_seqBytes in E by done.
    by rewrite (seq_unique e e').
  - rewrite elem_of_reverse, list_elem_of_fmap. exists (pr_Hash e, seqBytes (pr_Seq e)).
    simpl. rewrite readSeq_seqBytes by done. split; [done|].
    apply elem_of_ForEach, (r_by_hash _ _ _ R). eauto.
Qed.

Lemma ForEach_pending :
  ForEach (redemptions_pending db) = (fun e => (seqBytes (pr_Seq e), pr_Ticket e)) <$> l.
Proof using R.
  apply (StronglySorted_unique_strong key_le).
  - intros [k t] [k' t'] Hx (e' & [= -> ->] & He')%list_elem_of_fmap Hle Hge.
    apply elem_of_ForEach, (r_pending _ _ _ R) in Hx as (e & He & -> & ->).
    unfold key_le in *. simpl in *. rewrite seqBytes_le in Hle, Hge by (by apply r_bounds).
    assert (pr_Seq e = pr_Seq e') by lia. by rewrite (seq_unique e e').
  - apply ForEach_sorted.
  - pose proof (r_sorted _ _ _ R) as Hs. assert (forall e, e ∈ l -> 0 <= pr_Seq e < two64) as Hb by apply r_bounds.
    clear R. induction Hs as [|e l' Hs IH Hx]; simpl; [constructor|]. constructor.
    + apply IH. intros ? ?. apply Hb. by right.
    + rewrite Forall_fmap. rewrite !Forall_forall in *. intros e' He'. specialize (Hx _ He').
      unfold key_le, seq_lt in *. simpl. apply seqBytes_le; [apply Hb; by left|apply Hb; by right|lia].
  - apply NoDup_Permutation.
    + rewrite ForEach_perm. apply NoDup_map_to_list.
    + apply NoDup_fmap_2_strong; [|apply l_NoDup]. intros e e' He He' E.
      apply (f_equal fst) in E. cbn [fst] in E.
      apply seqBytes_inj in E; [|by apply r_bounds..]. by apply seq_unique.
    + intros [k t]. rewrite elem_of_ForEach, (r_pending _ _ _ R), list_elem_of_fmap.
      split; intros (e & ?); exists e; naive_solver.
Qed.

Lemma read_pending : PendingRedemptions db = l.
Proof using R.
  unfold PendingRedemptions. rewrite ForEach_pending, <- list_fmap_compose.
  transitivity (id <$> l); [|apply list_fmap_id].
  apply list_fmap_ext. intros i e He%list_elem_of_lookup_2. simpl.
  rewrite readSeq_seqBytes, seqToHash_lookup by auto using r_bounds. by destruct e.
Qed.

(** The snapshot never meets a dangling index entry. *)
Lemma history_ok : is_ok (RedemptionHistory db) = true.
Proof using R.
  unfold RedemptionHistory.
  assert (forall h v, (h, v) ∈ ForEach (redemptions_by_hash db) ->
    is_Some (redemptions_pending db !! v)) as Hall.
  { intros h v (e & He & -> & ->)%elem_of_ForEach%(r_by_hash _ _ _ R).
    exists (pr_Ticket e). apply (r_pending _ _ _ R). eauto. }
  assert (is_ok (history_pending (redemptions_pending db) (ForEach (redemptions_by_hash db))) = true) as Hp.
  { induction (ForEach (redemptions_by_hash db)) as [|[h v] rest IH]; simpl; [done|].
    destruct (Hall h v) as [t ->]; [by left|].
    specialize (IH ltac:(intros; eapply Hall; by right)).
    by destruct (history_pending _ rest). }
  destruct (history_pending _ _); [|done]. by destruct (history_redeemed _).
Qed.

End reading.

(** ** The simulation *)
Lemma queue_rel_Open : queue_rel (Open (M := M)) [] (mkQueue [] ∅).
Proof.
  split; simpl.
  - unfold next_seq. simpl. by rewrite lookup_empty.
  - constructor.
  - by intros e ?%elem_of_nil.
  - constructor.
  - intros k t. rewrite lookup_empty. split; [done|]. by intros (e & ?%elem_of_nil & _).
  - intros k t. rewrite lookup_empty. split; [done|]. by intros (e & ?%elem_of_nil & _).
  - done.
  - intros h. rewrite lookup_empty, elem_of_empty. split; [by intros []|done].
Qed.

Lemma queue_rel_enqueue db l q h t :
  next_seq db + 1 < two64 -> queue_rel db l q ->
  exists l', queue_rel (q_impl (QEnqueue h t) db).2 l' (q_spec (QEnqueue h t) q).2 /\
    (q_impl (QEnqueue h t) db).1 = (q_spec (QEnqueue h t) q).1 /\
    next_seq (q_impl (QEnqueue h t) db).2 <= next_seq db + 1.
Proof.
  intros Hn R. simpl. unfold EnqueueRedemption.
  destruct (negb (len h =? 32)); [exists l; split_and!; [done|done|simpl; lia]|].
  unfold Update, enqueueRedemption.
  assert (bool_decide (default "" (redemptions_by_hash db !! h) <> "") = bool_decide (h ∈ (q_items q).*1)) as ->.
  { apply bool_decide_ext. rewrite (r_items _ _ _ R), <- list_fmap_compose, list_elem_of_fmap. split.
    - intros Hd. destruct (redemptions_by_hash db !! h) as [v|] eqn:E; [|done].
      apply (r_by_hash _ _ _ R) in E as (e & ? & -> & ->). by exists e.
    - intros (e & -> & He).
      assert (redemptions_by_hash db !! pr_Hash e = Some (seqBytes (pr_Seq e))) as E
        by (apply (r_by_hash _ _ _ R); eauto).
      simpl. rewrite E. apply seqBytes_ne_nil. }
  rewrite (bool_decide_ext _ _ (r_done _ _ _ R h)). rewrite bool_decide_or.
  destruct (bool_decide (h ∈ (q_items q).*1)) eqn:Hq; simpl; [exists l; split_and!; [done|done|simpl; lia]|].
  destruct (bool_decide (h ∈ q_done q)) eqn:Hd; simpl; [exists l; split_and!; [done|done|simpl; lia]|]. to_prop.
  pose proof (r_next _ _ _ R) as Hr. fold (next_seq db).
  rewrite u64_small by lia. set (n := next_seq db + 1) in *.
  exists (l ++ [mkPendingRedemption n t h]).
  match goal with |- queue_rel ?d _ _ /\ _ => assert (next_seq d = n) as Hnext end.
  { unfold next_seq. cbn [redemptions_meta with_redemptions_meta with_redemptions_pending with_redemptions_by_hash].
    rewrite lookup_insert_eq. cbn [default id from_option]. apply readSeq_seqBytes. lia. }
  split_and!; [|done|by rewrite Hnext].
  assert (forall e, e ∈ l -> pr_Seq e < n) as Hlt.
  { intros e He%(r_range _ _ _ R). lia. }
  split; cbn [redemptions_pending redemptions_by_hash redemptions_redeemed redemptions_meta
    with_redemptions_meta with_redemptions_pending with_redemptions_by_hash q_items q_done].
  - rewrite Hnext. lia.
  - apply StronglySorted_app_2; [|apply (r_sorted _ _ _ R)|repeat constructor].
    intros e e' He ->%list_elem_of_singleton. by apply Hlt.
  - intros e. rewrite Hnext. intros [He%(r_range _ _ _ R)| ->%list_elem_of_singleton]%elem_of_app; simpl; lia.
  - rewrite fmap_app. apply NoDup_app. split_and!; [apply (r_hashes _ _ _ R)| |apply NoDup_singleton].
    intros h' Hh' ->%list_elem_of_singleton. apply Hq. rewrite (r_items _ _ _ R), <- list_fmap_compose. done.
  - intros k t'. setoid_rewrite elem_of_app. setoid_rewrite list_elem_of_singleton.
    rewrite lookup_insert_Some, (r_pending _ _ _ R). split.
    + intros [[<- <-]|[_ (e & He & -> & ->)]]; [eexists; split; [by right|done]|eauto].
    + intros (e & [He| ->] & -> & ->); [|by left]. right. split; [|eauto].
      intros E%seqBytes_inj; [|lia|]; [specialize (Hlt e He); lia|]. by eapply r_bounds.
  - intros h' v. setoid_rewrite elem_of_app. setoid_rewrite list_elem_of_singleton.
    rewrite lookup_insert_Some, (r_by_hash _ _ _ R). split.
    + intros [[<- <-]|[_ (e & He & -> & ->)]]; [eexists; split; [by right|done]|eauto].
    + intros (e & [He| ->] & -> & ->); [|by left]. right. split; [|eauto].
      intros ->. apply Hq. rewrite (r_items _ _ _ R), <- list_fmap_compose. apply list_elem_of_fmap. eauto.
  - by rewrite fmap_app, (r_items _ _ _ R).
  - apply (r_done _ _ _ R).
Qed.

Lemma filter_items h (l : list PendingRedemption) :
  filter (fun e => e.1 <> h) ((fun e => (pr_Hash e, pr_Ticket e)) <$> l) =
  (fun e => (pr_Hash e, pr_Ticket e)) <$> filter (fun e => pr_Hash e <> h) l.
Proof.
  induction l as [|e l IH]; [done|]. rewrite fmap_cons, !filter_cons. simpl.
  destruct (decide (pr_Hash e = h)); rewrite ?decide_True, ?decide_False by tauto; simpl; by rewrite IH.
Qed.

Lemma queue_rel_mark db l q h tx t round ev reason :
  queue_rel db l q -> len h = 32 ->
  let db' := (markRedeemed h tx (Some t) round ev reason db).2 in
  (markRedeemed h tx (Some t) round ev reason db).1 = Ok tt /\ next_seq db' = next_seq db /\
  redemptions_redeemed db' !! h = Some (RedeemedRow (redeemed_record h tx t round ev reason)) /\
  queue_rel db' (filter (fun e => pr_Hash e <> h) l)
    (mkQueue (filter (fun e => e.1 <> h) (q_items q)) ({[h]} ∪ q_done q)).
Proof.
  intros R Hh. unfold markRedeemed. rewrite Hh. unfold Update. simpl. split; [done|].
  set (db' := if 0 <? len (default "" (redemptions_by_hash db !! h)) then _ else _).
  assert (redemptions_redeemed db' = redemptions_redeemed db /\ redemptions_meta db' = redemptions_meta db)
    as [E1 E2] by (subst db'; by destruct (0 <? _)).
  assert (redemptions_by_hash db' = delete h (redemptions_by_hash db) /\
    forall k, redemptions_pending db' !! k =
      if decide (Some k = redemptions_by_hash db !! h) then None else redemptions_pending db !! k) as [E3 E4].
  { subst db'. destruct (redemptions_by_hash db !! h) as [v|] eqn:E.
    - pose proof E as (e & _ & _ & ->)%(r_by_hash _ _ _ R). cbn [default id from_option].
      unfold seqBytes. rewrite len_be_bytes. simpl. split; [done|]. intros k.
      case_decide as Hk; [injection Hk as ->; apply lookup_delete_eq|].
      apply lookup_delete_ne. congruence.
    - simpl. split; [by rewrite delete_id|]. done. }
  split; [unfold next_seq; simpl; by rewrite E2|]. split; [apply lookup_insert_eq|].
  split; cbn [redemptions_pending redemptions_by_hash redemptions_redeemed redemptions_meta
    with_redemptions_redeemed q_items q_done].
  - unfold next_seq. simpl. rewrite E2. apply (r_next _ _ _ R).
  - apply StronglySorted_filter, (r_sorted _ _ _ R).
  - intros e [_ He]%list_elem_of_filter. unfold next_seq. simpl. rewrite E2. by apply (r_range _ _ _ R).
  - eapply sublist_NoDup; [apply (r_hashes _ _ _ R)|]. apply fmap_sublist, sublist_filter.
  - intros k t'. rewrite E4. setoid_rewrite list_elem_of_filter. case_decide as Hk.
    + split; [done|]. intros (e & [Hne He] & -> & ->).
      symmetry in Hk. apply (r_by_hash _ _ _ R) in Hk as (e' & He' & -> & E).
      apply seqBytes_inj in E; [|by eapply r_bounds..]. by rewrite (seq_unique _ _ _ R e e') in Hne.
    + rewrite (r_pending _ _ _ R). split; intros (e & ?); exists e; [|naive_solver].
      destruct_and!. split_and!; try done. intros <-. apply Hk. symmetry.
      apply (r_by_hash _ _ _ R). naive_solver.
  - intros h' v. rewrite E3, lookup_delete_Some, (r_by_hash _ _ _ R).
    setoid_rewrite list_elem_of_filter. naive_solver.
  - rewrite (r_items _ _ _ R). apply filter_items.
  - intros h'. rewrite E1, elem_of_union, elem_of_singleton, <- (r_done _ _ _ R).
    destruct (decide (h' = h)) as [->|Hne]; [rewrite lookup_insert_eq; naive_solver|].
    rewrite lookup_insert_ne by done. naive_solver.
Qed.

Lemma queue_rel_redeem db l q h tx t round ev reason :
  queue_rel db l q ->
  let op := QRedeem h tx t round ev reason in
  exists l', queue_rel (q_impl op db).2 l' (q_spec op q).2 /\
    (q_impl op db).1 = (q_spec op q).1 /\ next_seq (q_impl op db).2 = next_seq db.
Proof.
  intros R op. subst op. simpl. destruct (Z.eqb_spec (len h) 32) as [Hh|Hh].
  - destruct (queue_rel_mark db l q h tx t round ev reason R Hh) as (E & En & _ & R').
    destruct (markRedeemed h tx (Some t) round ev reason db) as [r db']. simpl in *. subst r. eauto.
  - exists l. unfold markRedeemed. rewrite (proj2 (Z.eqb_neq _ _) Hh). done.
Qed.

Lemma queue_rel_run ops db l q :
  next_seq db + Z.of_nat (length ops) < two64 -> queue_rel db l q ->
  exists l', queue_rel (q_impl_run ops db).2 l' (q_spec_run ops q).2 /\
    (q_impl_run ops db).1 = (q_spec_run ops q).1.
Proof.
  revert db l q. induction ops as [|op ops IH]; intros db l q Hn R; simpl in *; [by exists l|].
  assert (exists l', queue_rel (q_impl op db).2 l' (q_spec op q).2 /\
    (q_impl op db).1 = (q_spec op q).1 /\ next_seq (q_impl op db).2 <= next_seq db + 1)
    as (l' & R' & Ha & Hn').
  { destruct op as [h t|h tx t round ev reason].
    - apply (queue_rel_enqueue db l q); [lia|done].
    - destruct (queue_rel_redeem db l q h tx t round ev reason R) as (l' & ? & ? & E).
      exists l'. rewrite E. split_and!; [done|done|lia]. }
  destruct (q_impl op db) as [a db'], (q_spec op q) as [a' q']. simpl in *. subst a'.
  destruct (IH db' l' q' ltac:(lia) R') as (l'' & R'' & E).
  destruct (q_impl_run ops db'), (q_spec_run ops q'). simpl in *. subst. eauto.
Qed.

(** C11: The redemption queue refines a first-in first-out list: over any run of
    enqueues and redemptions on a fresh ledger, the answers are those of the
    abstract queue (a ticket is queued exactly when its hash is neither pending
    nor already redeemed), [PendingRedemptions] lists exactly the abstract
    queue, oldest first with increasing sequence numbers, and the history
    snapshot never reports an incomplete index. *)
Theorem redemption_queue_refines ops :
  Z.of_nat (length ops) < two64 ->
  let impl := q_impl_run ops Open in
  let spec := q_spec_run ops (mkQueue [] ∅) in
  impl.1 = spec.1 /\
  (fun p => (pr_Hash p, pr_Ticket p)) <$> PendingRedemptions impl.2 = q_items spec.2 /\
  StronglySorted seq_lt (PendingRedemptions impl.2) /\
  is_ok (RedemptionHistory impl.2) = true.
Proof.
  intros Hn impl spec. subst impl spec.
  destruct (queue_rel_run ops Open [] (mkQueue [] ∅)) as (l & R & E).
  - unfold next_seq. simpl. rewrite lookup_empty. simpl. exact Hn.
  - apply queue_rel_Open.
  - rewrite (read_pending _ _ _ R). split_and!.
    + done.
    + symmetry. apply (r_items _ _ _ R).
    + apply (r_sorted _ _ _ R).
    + by eapply history_ok.
Qed.

Definition settled (h : string) (q : queue) : Prop := h ∈ q_done q /\ h ∉ (q_items q).*1.

Lemma settled_redeem h tx t round ev reason q :
  len h = 32 -> settled h (q_spec (QRedeem h tx t round ev reason) q).2.
Proof.
  intros Hh. simpl. rewrite Hh. simpl. split; simpl; [set_solver|].
  intros ([h' t'] & -> & [Hne _]%list_elem_of_filter)%list_elem_of_fmap. done.
Qed.

Lemma settled_step h op q : settled h q -> settled h (q_spec op q).2.
Proof.
  intros [Hd Hi]. destruct op as [h' t|h' tx t round ev reason]; simpl;
    destruct (negb (len h' =? 32)); simpl; try done.
  - case_bool_decide as Hc; simpl; [done|]. split; simpl; [done|].
    rewrite fmap_app. simpl. rewrite elem_of_app, list_elem_of_singleton. naive_solver.
  - split; simpl; [set_solver|].
    intros (e & -> & [_ He]%list_elem_of_filter)%list_elem_of_fmap. apply Hi.
    apply list_elem_of_fmap. eauto.
Qed.

Lemma settled_run h ops q : settled h q -> settled h (q_spec_run ops q).2.
Proof.
  revert q. induction ops as [|op ops IH]; intros q Hq; simpl; [done|].
  apply (settled_step _ op) in Hq. destruct (q_spec op q) as [a q']. simpl in Hq. apply IH in Hq.
  by destruct (q_spec_run ops q').
Qed.

Lemma q_spec_run_app ops ops' q :
  (q_spec_run (ops ++ ops') q).2 = (q_spec_run ops' (q_spec_run ops q).2).2.
Proof.
  revert q. induction ops as [|op ops IH]; intros q; simpl; [done|].
  destruct (q_spec op q) as [a q']. specialize (IH q').
  destruct (q_spec_run (ops ++ ops') q'), (q_spec_run ops q'). exact IH.
Qed.

(** A redeemed ticket never returns: once a ticket hash has been marked
    redeemed or drained, no later sequence of operations queues it again, and
    an attempt to do so is answered [false] without effect, so the settlement
    loop cannot redeem one ticket twice. *)
Theorem redeemed_ticket_never_returns ops h tx t round ev reason ops' t' :
  len h = 32 ->
  Z.of_nat (length (ops ++ QRedeem h tx t round ev reason :: ops')) < two64 ->
  let db := (q_impl_run (ops ++ QRedeem h tx t round ev reason :: ops') Open).2 in
  Forall (fun p => pr_Hash p <> h) (PendingRedemptions db) /\ EnqueueRedemption h (Some t') db = (Ok false, db).
Proof.
  intros Hh Hn db. set (all := ops ++ _) in *.
  destruct (queue_rel_run all Open [] (mkQueue [] ∅)) as (l & R & _).
  { unfold next_seq. simpl. rewrite lookup_empty. simpl. exact Hn. }
  { apply queue_rel_Open. }
  assert (settled h (q_spec_run all (mkQueue [] ∅)).2) as [Hd Hi].
  { subst all. rewrite q_spec_run_app. cbn [q_spec_run].
    match goal with |- context [q_spec (QRedeem _ _ _ _ _ _) ?q] =>
      pose proof (settled_redeem h tx t round ev reason q Hh) as Hs;
      destruct (q_spec (QRedeem h tx t round ev reason) q) as [a q'] end.
    cbn [snd] in Hs. apply (settled_run h ops') in Hs. by destruct (q_spec_run ops' q'). }
  fold db in R. split.
  - rewrite (read_pending _ _ _ R). rewrite (r_items _ _ _ R), <- list_fmap_compose in Hi.
    apply Forall_forall. intros p Hp <-. apply Hi, list_elem_of_fmap. by exists p.
  - unfold EnqueueRedemption. rewrite Hh. simpl. unfold Update, enqueueRedemption.
    apply (r_done _ _ _ R) in Hd. rewrite (bool_decide_true (is_Some _)) by done.
    by destruct (bool_decide _).
Qed.

(** ** Revenue *)
Definition counts (roundID : Z) (row : redeemedRow) : bool :=
  match row with
  | LegacyTxHash _ => false
  | RedeemedRow rec => rr_ConfirmedOnChain rec && (rr_RedeemedRound rec =? roundID)
  end.
Definition face_of (row : redeemedRow) : Z :=
  match row with
  | LegacyTxHash _ => 0
  | RedeemedRow rec => default 0 (SetString10 (rr_FaceValueWei rec))
  end.
Definition revenue (roundID : Z) (db : DB M) : Z :=
  msum (fun _ row => if counts roundID row then face_of row else 0) (redemptions_redeemed db).
Definition revenue_count (roundID : Z) (db : DB M) : Z :=
  msum (fun _ row => if counts roundID row then 1 else 0) (redemptions_redeemed db).

(** Face values are recorded by [big.Int.String], so they always parse. *)
Definition wf_redeemed (db : DB M) : Prop :=
  forall h rec, redemptions_redeemed db !! h = Some (RedeemedRow rec) -> is_Some (SetString10 (rr_FaceValueWei rec)).

Lemma RoundRevenue_sum roundID db :
  wf_redeemed db -> RoundRevenue roundID db = Ok (revenue roundID db, u64 (revenue_count roundID db)).
Proof.
  intros Hwf. unfold RoundRevenue, revenue, revenue_count.
  rewrite !(msum_list _ _ _ (ForEach_perm (redemptions_redeemed db))).
  assert (forall h rec, (h, RedeemedRow rec) ∈ ForEach (redemptions_redeemed db) ->
    is_Some (SetString10 (rr_FaceValueWei rec))) as Hl.
  { intros h rec Hin%elem_of_ForEach. by eapply Hwf. }
  change 0 with (u64 0) at 2. rewrite <- (Z.add_0_l (foldr _ _ _)).
  assert (forall l a c, (forall h rec, (h, RedeemedRow rec) ∈ l -> is_Some (SetString10 (rr_FaceValueWei rec))) ->
    foldl (revenue_step roundID) (Ok (a, u64 c)) l =
    Ok (a + foldr (fun kx acc => (if counts roundID kx.2 then face_of kx.2 else 0) + acc) 0 l,
        u64 (c + foldr (fun kx acc => (if counts roundID kx.2 then 1 else 0) + acc) 0 l))) as Hfold.
  { clear. induction l as [|[h row] l IH]; intros a c Hl; simpl; [by rewrite !Z.add_0_r|].
    assert (forall h rec, (h, RedeemedRow rec) ∈ l -> is_Some (SetString10 (rr_FaceValueWei rec)))
      as Hl' by (intros; eapply Hl; by right).
    destruct row as [h'|rec]; simpl; [by rewrite IH, !Z.add_0_l by done|].
    destruct (Hl h rec) as [f Hf]; [by left|].
    destruct (rr_ConfirmedOnChain rec), (rr_RedeemedRound rec =? roundID); simpl;
      try by rewrite IH, !Z.add_0_l by done.
    rewrite Hf. simpl. unfold u64 at 1 2. rewrite Z.add_mod_idemp_l by done. fold (u64 (c + 1)).
    rewrite IH by done. f_equal. f_equal; [lia|]. f_equal. lia. }
  by apply (Hfold _ 0 0).
Qed.

(** Revenue counts each ticket once: marking a ticket redeemed adds its
    face value to the round exactly when a transaction hash confirms it and
    the round matches, replaces (never doubles) what an earlier mark of the
    same ticket contributed, and keeps every recorded amount readable. *)
Theorem round_revenue_counts_once h tx t round ev reason db db' roundID :
  wf_redeemed db -> markRedeemed h tx (Some t) round ev reason db = (Ok tt, db') ->
  wf_redeemed db' /\
  RoundRevenue roundID db = Ok (revenue roundID db, u64 (revenue_count roundID db)) /\
  RoundRevenue roundID db' =
    Ok (revenue roundID db
          - default 0 ((fun row => if counts roundID row then face_of row else 0) <$> redemptions_redeemed db !! h)
          + (if negb (isAllZero (stamp32 tx)) && (round =? roundID) then st_FaceValue t else 0),
        u64 (revenue_count roundID db')).
Proof.
  intros Hwf. unfold markRedeemed. destruct (negb (len h =? 32)); [done|]. rewrite Update_Ok.
  set (tx0 := if 0 <? _ then _ else _). intros [= <-].
  assert (redemptions_redeemed tx0 = redemptions_redeemed db) as E by (subst tx0; by destruct (0 <? _)).
  match goal with |- wf_redeemed ?d /\ _ => assert (wf_redeemed d) as Hwf' end.
  { intros h' rec. simpl. rewrite E, lookup_insert_Some. intros [[_ [= <-]]|[_ Hr]]; [|by eapply Hwf].
    simpl. rewrite SetString10_dec. eauto. }
  split_and!; [done|by apply RoundRevenue_sum|].
  rewrite RoundRevenue_sum by done. do 2 f_equal. unfold revenue. simpl.
  rewrite E, msum_insert. simpl. by rewrite SetString10_dec.
Qed.

End spec.

(** ** Concrete runs *)
Definition demo_ticket (n : Z) : SignedTicket := mkSignedTicket "payee" "alice" 40 9 n "" 3 "" "" 1.
Definition demo_hash (n : Z) : string := be_bytes 32 n.
Definition demo_ops : list q_op :=
  [QEnqueue (demo_hash 7) (demo_ticket 1); QEnqueue (demo_hash 2) (demo_ticket 2);
   QEnqueue (demo_hash 7) (demo_ticket 1); QRedeem (demo_hash 7) "tx" (demo_ticket 1) 4 None "";
   QEnqueue (demo_hash 7) (demo_ticket 1); QEnqueue (demo_hash 1) (demo_ticket 3)].

Lemma redemption_queue_refines_witness :
  let impl := q_impl_run demo_ops (Open (M := gmap string)) in
  impl.1 = [Ok true; Ok true; Ok false; Ok true; Ok false; Ok true] /\
  (fun p => (pr_Hash p, pr_Ticket p)) <$> PendingRedemptions impl.2 =
    q_items (q_spec_run demo_ops (mkQueue [] ∅)).2.
Proof.
  intros impl. split; [vm_refl|].
  refine (proj1 (proj2 (redemption_queue_refines demo_ops _))). done.
Defined.

Lemma redeemed_ticket_never_returns_witness :
  let db := (q_impl_run demo_ops (Open (M := gmap string))).2 in
  EnqueueRedemption (demo_hash 7) (Some (demo_ticket 1)) db = (Ok false, db).
Proof.
  refine (proj2 (redeemed_ticket_never_returns (take 3 demo_ops) (demo_hash 7) "tx" (demo_ticket 1) 4 None ""
    (drop 4 demo_ops) (demo_ticket 1) _ _)); done.
Defined.

Lemma round_revenue_counts_once_witness :
  let r := markRedeemed (demo_hash 7) "tx" (Some (demo_ticket 1)) 4 None "" (Open (M := gmap string)) in
  RoundRevenue 4 r.2 = Ok (0 - 0 + 40, u64 (revenue_count 4 r.2)).
Proof.
  intros r.
  refine (proj2 (proj2 (round_revenue_counts_once (demo_hash 7) "tx" (demo_ticket 1) 4 None "" Open r.2 4 _
    (answer _ _ _)))); [|vm_refl].
  intros h rec. simpl. by rewrite lookup_empty.
Defined.
