(* ===== verification/Mints.v ===== *)
(** * Mint idempotency (payment-daemon/internal/store/mints.go)

    The payer reserves a mint id before signing, records the response after,
    and evicts old responses; a permanent tombstone keeps an id from ever being
    minted twice. *)
From S2P Require Import Prelude.
From S2P Require Import GoBytes.
From S2P Require Import GoCodecs.
From S2P Require Import Bolt.
From S2P Require Import Ledger.

Definition MintKey (sender mintRequestID : string) : string :=
  sha256 (sender +:+ String zero_byte mintRequestID).

Section mints.
Context `{Bolt M}.

(** [Ok None] is Go's [(nil, nil)]: reserved by this call, go and mint. *)
Definition MintReserve (now : Z) (sender mintRequestID fingerprint : string) (db : DB M)
    : result error (option MintRecord) * DB M :=
  let key := MintKey sender mintRequestID in
  Update (fun tx =>
    match mint_tombstones tx !! key with
    | Some tomb =>
        if negb (bool_decide (mt_Fingerprint tomb = fingerprint)) then Err ErrMintFingerprintMismatch
        else match mints tx !! key with
             | None => if mt_Completed tomb then Err ErrMintExpired else Err ErrMintIncomplete
             | Some rec => Ok (Some rec, tx)
             end
    | None =>
        Ok (None, with_mint_tombstones
                    (<[key := mkmintTombstone fingerprint now false]> (mint_tombstones tx)) tx)
    end) db.

Definition MintRecall (sender mintRequestID fingerprint : string) (db : DB M)
    : result error (option MintRecord) :=
  let key := MintKey sender mintRequestID in
  match mint_tombstones db !! key with
  | None => Ok None
  | Some tomb =>
      if negb (bool_decide (mt_Fingerprint tomb = fingerprint)) then Err ErrMintFingerprintMismatch
      else match mints db !! key with
           | None => Err ErrMintExpired
           | Some rec => Ok (Some rec)
           end
  end.

(** [Store.MintRecord]; the type has its name here. *)
Definition recordMint (now : Z) (sender mintRequestID : string) (rec : MintRecord) (db : DB M)
    : result error unit * DB M :=
  let key := MintKey sender mintRequestID in
  let rec := mr_with_CreatedAt now rec in
  Update (fun tx =>
    let tx := with_mint_tombstones
      (<[key := mkmintTombstone (mr_Fingerprint rec) (mr_CreatedAt rec) true]> (mint_tombstones tx)) tx in
    Ok (tt, with_mints (<[key := rec]> (mints tx)) tx)) db.

(** The keys [EvictMints] collects, in key order. *)
Definition evictable (cutoff : Z) (b : M MintRecord) : list string :=
  fst <$> filter (fun kv => mr_CreatedAt kv.2 < cutoff) (ForEach b).

Definition EvictMints (cutoff : Z) (db : DB M) : result error Z * DB M :=
  Update (fun tx =>
    let evict := evictable cutoff (mints tx) in
    Ok (Z.of_nat (length evict), with_mints (delete_keys evict (mints tx)) tx)) db.

(** ** Eviction drops exactly the old records *)
Lemma elem_of_evictable cutoff (b : M MintRecord) k :
  k ∈ evictable cutoff b <-> exists rec, b !! k = Some rec /\ mr_CreatedAt rec < cutoff.
Proof.
  unfold evictable. rewrite list_elem_of_fmap. split.
  - intros ([k' rec] & -> & [? Hin%elem_of_ForEach]%list_elem_of_filter). eauto.
  - intros (rec & Hk & Hlt). exists (k, rec).
    by rewrite list_elem_of_filter, elem_of_ForEach.
Qed.

Lemma lookup_evicted cutoff (b : M MintRecord) k :
  delete_keys (evictable cutoff b) b !! k =
    match b !! k with
    | Some rec => if mr_CreatedAt rec <? cutoff then None else Some rec
    | None => None
    end.
Proof.
  rewrite lookup_delete_keys. case_decide as Hk; rewrite elem_of_evictable in Hk.
  - destruct Hk as (rec & -> & Hlt). by rewrite (proj2 (Z.ltb_lt _ _) Hlt).
  - destruct (b !! k) as [rec|] eqn:E; [|done].
    destruct (Z.ltb_spec (mr_CreatedAt rec) cutoff); [|done]. naive_solver.
Qed.

(** ** Histories of one payer daemon *)
Inductive mint_op :=
  | MReserve (now : Z) (sender id fp : string)
  | MRecord (now : Z) (sender id : string) (rec : MintRecord)
  | MEvict (cutoff : Z).

(** Whether the operation told the caller to go and mint. *)
Definition mint_step (op : mint_op) (db : DB M) : bool * DB M :=
  match op with
  | MReserve now s id fp =>
      let '(r, db') := MintReserve now s id fp db in
      (match r with Ok None => true | _ => false end, db')
  | MRecord now s id rec => (false, (recordMint now s id rec db).2)
  | MEvict cutoff => (false, (EvictMints cutoff db).2)
  end.

Definition reserves (s id : string) (op : mint_op) : bool :=
  match op with MReserve _ s' id' _ => bool_decide (s' = s /\ id' = id) | _ => false end.

(** How often a history tells callers to mint for [(s, id)]. *)
Fixpoint go_aheads (s id : string) (ops : list mint_op) (db : DB M) : nat :=
  match ops with
  | [] => 0
  | op :: ops' =>
      let '(go, db') := mint_step op db in
      ((if go && reserves s id op then 1 else 0) + go_aheads s id ops' db')%nat
  end.

Definition tombstoned (s id : string) (db : DB M) : Prop := is_Some (mint_tombstones db !! MintKey s id).

Lemma tombstoned_step s id op db : tombstoned s id db -> tombstoned s id (mint_step op db).2.
Proof.
  unfold tombstoned. intros Ht. destruct op as [now s' id' fp|now s' id' rec|cutoff]; simpl.
  - unfold MintReserve, Update. repeat case_match; simplify_eq; simpl; try done.
    by apply lookup_insert_is_Some'; right.
  - by apply lookup_insert_is_Some'; right.
  - done.
Qed.

Lemma go_ahead_fresh s id op db :
  (mint_step op db).1 && reserves s id op = true ->
  ~ tombstoned s id db /\ tombstoned s id (mint_step op db).2.
Proof.
  destruct op as [now s' id' fp|now s' id' rec|cutoff]; simpl; [|done..].
  unfold MintReserve, Update, tombstoned. intros Hgo.
  destruct (mint_tombstones db !! MintKey s' id') as [tomb|] eqn:E.
  - exfalso. repeat case_match; simplify_eq.
  - simpl in *. to_prop. destruct Hgo as [-> ->]. rewrite E, lookup_insert_eq.
    split; [by intros []|eauto].
Qed.

Lemma go_aheads_tombstoned s id ops db : tombstoned s id db -> go_aheads s id ops db = 0%nat.
Proof.
  revert db. induction ops as [|op ops IH]; intros db Ht; simpl; [done|].
  pose proof (tombstoned_step s id op db Ht) as Ht'. pose proof (go_ahead_fresh s id op db) as Hf.
  destruct (mint_step op db) as [go db']. simpl in *.
  rewrite (IH db' Ht'). destruct (go && reserves s id op); [|done]. by destruct Hf.
Qed.

(** One mint per intent: over any history of reservations, recorded
    responses and evictions, from any ledger, callers are told to mint for a
    given sender and mint id at most once; a retry after a crash or after
    eviction is never a second go-ahead. *)
Theorem mint_at_most_once s id ops db : (go_aheads s id ops db <= 1)%nat.
Proof.
  revert db. induction ops as [|op ops IH]; intros db; simpl; [lia|].
  pose proof (go_ahead_fresh s id op db) as Hf. specialize (IH (mint_step op db).2).
  destruct (mint_step op db) as [go db']. simpl in *.
  destruct (go && reserves s id op); [|simpl; lia].
  destruct Hf as [_ Ht]; [done|]. by rewrite (go_aheads_tombstoned _ _ _ _ Ht).
Qed.

(** Both or neither: a recorded response always has its tombstone. *)
Definition mints_tombstoned (db : DB M) : Prop :=
  forall k, is_Some (mints db !! k) -> is_Some (mint_tombstones db !! k).

Lemma mints_tombstoned_Open : mints_tombstoned Open.
Proof. intros k. simpl. rewrite lookup_empty. by intros []. Qed.

Lemma mints_tombstoned_step op db : mints_tombstoned db -> mints_tombstoned (mint_step op db).2.
Proof.
  intros Hwf k. destruct op as [now s' id' fp|now s' id' rec|cutoff]; simpl.
  - unfold MintReserve, Update. repeat case_match; simplify_eq; simpl; try apply Hwf.
    intros Hk%Hwf. by apply lookup_insert_is_Some'; right.
  - intros [<-|Hk]%lookup_insert_is_Some'; apply lookup_insert_is_Some'; [by left|right; by apply Hwf].
  - rewrite lookup_evicted. intros Hk. apply Hwf. destruct (mints db !! k); [done|by destruct Hk].
Qed.

(** What a retry is answered: after a reservation that was told to mint, a
    retry is refused as incomplete; once the response is recorded the retry
    replays it verbatim (with its recording time); after an eviction the retry
    still replays it if it is not older than the cutoff and is refused as
    expired otherwise; and a retry with another fingerprint is refused as a
    mismatch at every stage.  No retry changes the ledger. *)
Theorem mint_retry_outcome s id fp fp' now1 now2 now3 cutoff rec db db1 :
  mints_tombstoned db -> mr_Fingerprint rec = fp -> fp' <> fp ->
  MintReserve now1 s id fp db = (Ok None, db1) ->
  let db2 := (recordMint now2 s id rec db1).2 in
  let db3 := (EvictMints cutoff db2).2 in
  let kept := mr_with_CreatedAt now2 rec in
  MintReserve now3 s id fp db1 = (Err ErrMintIncomplete, db1) /\
  MintReserve now3 s id fp db2 = (Ok (Some kept), db2) /\
  MintReserve now3 s id fp db3 =
    (if now2 <? cutoff then Err ErrMintExpired else Ok (Some kept), db3) /\
  Forall (fun d => MintReserve now3 s id fp' d = (Err ErrMintFingerprintMismatch, d)) [db1; db2; db3].
Proof.
  intros Hwf <- Hfp Hres db2 db3 kept. unfold MintReserve in Hres. rewrite Update_Ok in Hres.
  set (k := MintKey s id) in *.
  destruct (mint_tombstones db !! k) as [tomb|] eqn:Ht; [by repeat case_match; simplify_eq|].
  injection Hres as <-.
  assert (mints db !! k = None) as Hm.
  { apply eq_None_not_Some. intros Hk%Hwf. rewrite Ht in Hk. by destruct Hk. }
  subst db3 db2. unfold MintReserve, EvictMints, recordMint, Update. fold k. simpl. fold k.
  rewrite lookup_evicted, !lookup_insert_eq, Hm. simpl. rewrite bool_decide_true by done. simpl.
  split_and!; [done|done|by destruct (now2 <? cutoff)|].
  repeat constructor; simpl; rewrite lookup_insert_eq; simpl; rewrite bool_decide_false by done; done.
Qed.

End mints.

Definition demo_rec : MintRecord := mkMintRecord "fp" "payment" 1 "" "" "" "" "w" 0.

Lemma mint_retry_outcome_witness :
  let r := MintReserve 1 "alice" "m-1" "fp" (Open (M := gmap string)) in
  MintReserve 9 "alice" "m-1" "fp" (EvictMints 5 (recordMint 2 "alice" "m-1" demo_rec r.2).2).2 =
    (Err ErrMintExpired, (EvictMints 5 (recordMint 2 "alice" "m-1" demo_rec r.2).2).2).
Proof.
  intros r. refine (proj1 (proj2 (proj2 (mint_retry_outcome "alice" "m-1" "fp" "other" 1 2 9 5 demo_rec Open r.2
    mints_tombstoned_Open eq_refl _ (answer _ _ _))))); [done|reflexivity].
Defined.
