(* ===== verification/Wholesale.v ===== *)
(** * The wholesale account ledger (payment-daemon/internal/store/wholesale.go)

    Per-payer accounts hold credited, reserved and debited wei; a spend
    authorization reserves part of an account, advances along its cumulative
    bill and settles, releasing what it did not use.  The variadic account-id
    parameters of the Go code appear as one string, empty when absent
    ([accountScope]).  On an error the callers ignore the partially filled
    result, so only the error is returned. *)
From S2P Require Import Prelude.
From S2P Require Import GoBytes.
From S2P Require Import GoCodecs.
From S2P Require Import Bolt.
From S2P Require Import Ledger.
From S2P Require Import Billing.
From S2P Require Import Sessions.

Definition accountScope (ids : list string) : string :=
  match ids with [] => "" | a :: _ => a end.

(** [Available]: what is neither reserved nor debited. *)
Definition Available (a : WholesaleAccount) : Z :=
  parseDecimalBig (acc_CreditedWei a) - (parseDecimalBig (acc_ReservedWei a) + parseDecimalBig (acc_DebitedWei a)).
Definition TotalsAvailable (t : WholesaleTotals) : Z :=
  parseDecimalBig (tot_CreditedWei t) - (parseDecimalBig (tot_ReservedWei t) + parseDecimalBig (tot_DebitedWei t)).

(** ** Keys *)
Definition accountPreimage (payer payee accountID : string) : string :=
  payer +:+ payee +:+ (if bool_decide (accountID = "") then "" else String zero_byte accountID).
Definition wholesaleAccountKey (payer payee accountID : string) : string :=
  let sum := sha256 (accountPreimage payer payee accountID) in
  if bool_decide (accountID = "") then sum else "v3:" +:+ sum.

Definition authorizationPreimage (payer id accountID : string) : string :=
  payer +:+ String zero_byte (id +:+ (if bool_decide (accountID = "") then "" else String zero_byte accountID)).
Definition wholesaleAuthorizationKey (payer id accountID : string) : string :=
  let sum := sha256 (authorizationPreimage payer id accountID) in
  if bool_decide (accountID = "") then sum else "v3:" +:+ sum.

Definition advanceHistoryKey (payer id accountID : string) (advanceSeq : Z) : string :=
  wholesaleAuthorizationKey payer id accountID +:+ String zero_byte (be_bytes 8 advanceSeq).

Record WholesaleAdmissionResult := mkAdmission {
  adm_Account : WholesaleAccount;
  adm_Authorization : option WholesaleAuthorization;
  adm_Transferred : Z;
  adm_Replayed : bool;
}.

Record WholesaleAdvanceResult := mkAdvance {
  adv_Account : WholesaleAccount;
  adv_Authorization : WholesaleAuthorization;
  adv_BilledDelta : Z;
  adv_Transferred : Z;
  adv_Replayed : bool;
}.

Record WholesaleSettlementResult := mkSettlement {
  set_Account : WholesaleAccount;
  set_Authorization : WholesaleAuthorization;
  set_Billed : Z;
  set_Released : Z;
  set_Replayed : bool;
}.

Section wholesale.
Context `{Bolt M}.

(** ** Accounts and totals *)
Definition new_account (payer payee accountID : string) : WholesaleAccount :=
  mkWholesaleAccount accountID payer payee "0" "0" "0" 0 0.

Definition loadWholesaleAccount (payer payee accountID : string) (tx : DB M) : WholesaleAccount :=
  match wholesale_accounts tx !! wholesaleAccountKey payer payee accountID with
  | None => new_account payer payee accountID
  | Some account => account
  end.

Definition totalsKey : string := "totals".

Definition GetWholesaleTotals (db : DB M) : WholesaleTotals :=
  match wholesale_totals db !! totalsKey with
  | Some (TotalsValue t) => t
  | _ => mkWholesaleTotals "" "" ""
  end.

Definition adjust (total before after : string) : string :=
  dec_string (parseDecimalBig total + (parseDecimalBig after - parseDecimalBig before)).

Definition putWholesaleAccount (account : WholesaleAccount) (tx : DB M) : DB M :=
  let key := wholesaleAccountKey (acc_Payer account) (acc_Payee account) (acc_WholesaleAccountID account) in
  let previous := default (mkWholesaleAccount "" "" "" "" "" "" 0 0) (wholesale_accounts tx !! key) in
  let totals := GetWholesaleTotals tx in
  let totals := mkWholesaleTotals
    (adjust (tot_CreditedWei totals) (acc_CreditedWei previous) (acc_CreditedWei account))
    (adjust (tot_ReservedWei totals) (acc_ReservedWei previous) (acc_ReservedWei account))
    (adjust (tot_DebitedWei totals) (acc_DebitedWei previous) (acc_DebitedWei account)) in
  let tx := with_wholesale_totals (<[totalsKey := TotalsValue totals]> (wholesale_totals tx)) tx in
  with_wholesale_accounts (<[key := account]> (wholesale_accounts tx)) tx.

(** [account.Version++; account.UpdatedAt = now.UTC()] *)
Definition bump (now : Z) (account : WholesaleAccount) : WholesaleAccount :=
  acc_with_UpdatedAt now (acc_with_Version (u64 (acc_Version account + 1)) account).

Definition credit_account (amount : Z) (account : WholesaleAccount) : WholesaleAccount :=
  acc_with_CreditedWei (dec_string (parseDecimalBig (acc_CreditedWei account) + amount)) account.

(** ** Funding from a ticket session *)
Definition FundWholesale (payer payee fundingWorkID : string) (now : Z) (accountID : string) (db : DB M)
    : result error (WholesaleAccount * Z) * DB M :=
  if negb (len payer =? 20) || negb (len payee =? 20) || bool_decide (fundingWorkID = "")
  then (Err (ErrMsg "store: payer, payee, and funding work id are required"), db)
  else if negb (bool_decide (accountID = ""))
  then (Err (ErrMsg "isolated funding requires a durable receipt"), db)
  else Update (fun tx =>
    let account := loadWholesaleAccount payer payee accountID tx in
    let key := compositeKey payer fundingWorkID in
    match sessions tx !! key with
    | None => Err ErrNotFound
    | Some session =>
        let transferred := parseDecimalBig (s_BalanceWei session) in
        if transferred =? 0 then Ok (account, transferred, tx)
        else
          let account := bump now (credit_account transferred account) in
          let tx := with_sessions (<[key := s_with_BalanceWei "0" session]> (sessions tx)) tx in
          Ok (account, transferred, putWholesaleAccount account tx)
    end) db.

(** The transfer step of admission and advance: the positive balance of the
    funding session moves to the account being updated (written later). *)
Definition transfer_balance (payer fundingWorkID accountID : string) (account : WholesaleAccount) (tx : DB M)
    : result error (WholesaleAccount * Z * DB M) :=
  if bool_decide (fundingWorkID = "") then Ok (account, 0, tx)
  else if negb (bool_decide (accountID = ""))
  then Err (ErrMsg "isolated funding requires a durable funding receipt")
  else
    let sessionKey := compositeKey payer fundingWorkID in
    match sessions tx !! sessionKey with
    | None => Err ErrNotFound
    | Some session =>
        let balance := parseDecimalBig (s_BalanceWei session) in
        if 0 <? balance then
          Ok (credit_account balance account, balance,
              with_sessions (<[sessionKey := s_with_BalanceWei "0" session]> (sessions tx)) tx)
        else Ok (account, 0, tx)
    end.

(** ** Fences consulted by admission *)
Definition canceledAdmissionIn (key : string) (tx : DB M) : option canceledAdmission :=
  match canceled_admissions tx with
  | None => None
  | Some fences => fences !! key
  end.

Definition admission_fenced (authKey fingerprint : string) (tx : DB M) : result error unit :=
  match canceledAdmissionIn authKey tx with
  | Some fence =>
      if negb (bool_decide (ca_Fingerprint fence = fingerprint)) then Err ErrAuthorizationFingerprint
      else Err ErrAuthorizationCanceled
  | None =>
      match unexecuted_fences tx with
      | Some fences => if bool_decide (is_Some (fences !! authKey)) then Err ErrAuthorizationState else Ok tt
      | None => Ok tt
      end
  end.

(** ** Admission *)

(** The row a seed becomes; the empty strings are Go's zero values. *)
Definition seed_row (seed : WholesaleAuthorizationSeed) (state : AuthorizationState) (actual : Z)
    (billed reserved : string) (seq now : Z) : WholesaleAuthorization :=
  mkWholesaleAuthorization (sd_WholesaleAccountID seed) (sd_ID seed) (sd_Fingerprint seed)
    (sd_Payer seed) (sd_Payee seed) (sd_RequestID seed) (sd_SessionID seed) (sd_Protocol seed)
    (sd_Capability seed) (sd_Offering seed) (sd_PriceWei seed) (sd_PerUnits seed) (sd_WorkUnit seed)
    (sd_MaxDebitWei seed) (sd_MaxTotalUnits seed) state actual billed "" reserved seq
    (sd_ExpiresAt seed) now (sd_Revision seed) (sd_PredecessorID seed).

(** The predecessor's claims on a revision: its row, checked. *)
Definition revision_compatible (pred : WholesaleAuthorization) (seed : WholesaleAuthorizationSeed) : bool :=
  bool_decide (au_State pred = AuthorizationAdmitted) &&
  negb (bool_decide (au_SessionID pred = "")) &&
  bool_decide (au_SessionID pred = sd_SessionID seed) &&
  bool_decide (au_Protocol pred = sd_Protocol seed) &&
  bool_decide (au_Capability pred = sd_Capability seed) &&
  bool_decide (au_Offering pred = sd_Offering seed) &&
  bool_decide (au_PriceWei pred = sd_PriceWei seed) &&
  (au_PerUnits pred =? sd_PerUnits seed) &&
  bool_decide (au_WorkUnit pred = sd_WorkUnit seed) &&
  negb (sd_Revision seed <=? au_Revision pred).

Definition load_predecessor (seed : WholesaleAuthorizationSeed) (tx : DB M)
    : result error (option WholesaleAuthorization) :=
  if bool_decide (sd_PredecessorID seed = "") then Ok None
  else
    match spend_authorizations tx !!
            wholesaleAuthorizationKey (sd_Payer seed) (sd_PredecessorID seed) (sd_WholesaleAccountID seed) with
    | None => Err ErrAuthorizationNotFound
    | Some pred =>
        if negb (revision_compatible pred seed) then Err ErrRevisionPredecessor
        else if (sd_MaxTotalUnits seed <? au_ActualUnits pred) ||
                (parseDecimalBig (sd_MaxDebitWei seed) <? parseDecimalBig (au_BilledWei pred))
        then Err ErrRevisionLimits
        else Ok (Some pred)
    end.

Definition superseded (now : Z) (pred : WholesaleAuthorization) : WholesaleAuthorization :=
  au_with_UpdatedAt now
    (au_with_ReleasedWei (dec_string (parseDecimalBig (au_ReleasedWei pred) + parseDecimalBig (au_ReservedWei pred)))
      (au_with_ReservedWei "0" (au_with_State AuthorizationSuperseded pred))).

(** The admission decision and its writes, once the account is funded. *)
Definition admit_reserve (seed : WholesaleAuthorizationSeed) (reservation : option Z) (now : Z)
    (account : WholesaleAccount) (transferred : Z) (tx : DB M)
    : result error (WholesaleAdmissionResult * bool * DB M) :=
  let! predecessor := load_predecessor seed tx in
  let maxDebit := parseDecimalBig (sd_MaxDebitWei seed) in
  let inheritedUnits := default 0 (au_ActualUnits <$> predecessor) in
  let inheritedSeq := default 0 (au_SettlementSeq <$> predecessor) in
  let inheritedBilled := default 0 ((fun p => parseDecimalBig (au_BilledWei p)) <$> predecessor) in
  let oldReserve := default 0 ((fun p => parseDecimalBig (au_ReservedWei p)) <$> predecessor) in
  let reservation :=
    match reservation with
    | None => maxDebit - inheritedBilled
    | Some r => if r =? 0 then maxDebit - inheritedBilled else r
    end in
  if (reservation <? 0) || (maxDebit - inheritedBilled <? reservation)
  then Err ErrReservationExceedsRemaining
  else if Available account + oldReserve <? reservation then
    if 0 <? transferred then
      let account := bump now account in
      Ok (mkAdmission account None transferred false, true, putWholesaleAccount account tx)
    else Ok (mkAdmission account None transferred false, true, tx)
  else
    let '(account, tx) :=
      match predecessor with
      | None => (account, tx)
      | Some pred =>
          (acc_with_ReservedWei (dec_string (parseDecimalBig (acc_ReservedWei account) - oldReserve)) account,
           with_spend_authorizations
             (<[wholesaleAuthorizationKey (sd_Payer seed) (sd_PredecessorID seed) (sd_WholesaleAccountID seed)
                := superseded now pred]> (spend_authorizations tx)) tx)
      end in
    let account := bump now
      (acc_with_ReservedWei (dec_string (parseDecimalBig (acc_ReservedWei account) + reservation)) account) in
    let auth := seed_row seed AuthorizationAdmitted inheritedUnits (dec_string inheritedBilled)
      (dec_string reservation) inheritedSeq now in
    let tx := with_spend_authorizations
      (<[wholesaleAuthorizationKey (sd_Payer seed) (sd_ID seed) (sd_WholesaleAccountID seed) := auth]>
        (spend_authorizations tx)) tx in
    Ok (mkAdmission account (Some auth) transferred false, false, putWholesaleAccount account tx).

Definition AdmitWholesale_tx (seed : WholesaleAuthorizationSeed) (fundingWorkID : string)
    (reservation : option Z) (now : Z) (tx : DB M)
    : result error (WholesaleAdmissionResult * bool * DB M) :=
  let authKey := wholesaleAuthorizationKey (sd_Payer seed) (sd_ID seed) (sd_WholesaleAccountID seed) in
  let! _ := admission_fenced authKey (sd_Fingerprint seed) tx in
  let account := loadWholesaleAccount (sd_Payer seed) (sd_Payee seed) (sd_WholesaleAccountID seed) tx in
  match spend_authorizations tx !! authKey with
  | Some existing =>
      if negb (bool_decide (au_Fingerprint existing = sd_Fingerprint seed)) then Err ErrAuthorizationFingerprint
      else Ok (mkAdmission account (Some existing) 0 true, false, tx)
  | None =>
      if negb (now <? sd_ExpiresAt seed) then
        let auth := seed_row seed AuthorizationExpiredUnused 0 "" "" 0 now in
        Ok (mkAdmission account (Some auth) 0 false, false,
            with_spend_authorizations (<[authKey := auth]> (spend_authorizations tx)) tx)
      else
        let! (account, transferred, tx) :=
          transfer_balance (sd_Payer seed) fundingWorkID (sd_WholesaleAccountID seed) account tx in
        admit_reserve seed reservation now account transferred tx
  end.

(** An insufficient admission commits the transfer and reports
    [ErrInsufficientWholesale]. *)
Definition AdmitWholesale (seed : WholesaleAuthorizationSeed) (fundingWorkID : string)
    (reservation : option Z) (now : Z) (db : DB M) : result error WholesaleAdmissionResult * DB M :=
  if bool_decide (sd_ID seed = "") || negb (len (sd_Payer seed) =? 20) || negb (len (sd_Payee seed) =? 20)
  then (Err (ErrMsg "store: authorization id and 20-byte principals are required"), db)
  else
    match Update (AdmitWholesale_tx seed fundingWorkID reservation now) db with
    | (Ok (_, true), db') => (Err ErrInsufficientWholesale, db')
    | (Ok (res, false), db') => (Ok res, db')
    | (Err e, db') => (Err e, db')
    end.

(** ** Advance *)

(** A recorded advance, repeated: it must match what was recorded. *)
Definition advance_replay (payer payee accountID : string) (cumulativeUnits targetReserved advanceSeq : Z)
    (previous : WholesaleAuthorization) (tx : DB M) : result error (WholesaleAdvanceResult * DB M) :=
  if negb (bool_decide (au_Payee previous = payee)) || negb (au_ActualUnits previous =? cumulativeUnits) ||
     negb (bool_decide (au_ReservedWei previous = dec_string targetReserved)) ||
     negb (au_SettlementSeq previous =? advanceSeq)
  then Err ErrAuthorizationSettlement
  else Ok (mkAdvance (loadWholesaleAccount payer payee accountID tx) previous 0 0 true, tx).

(** The billing step: checks and writes. *)
Definition advance_apply (key historyKey : string) (cumulativeUnits targetReserved advanceSeq now : Z)
    (auth : WholesaleAuthorization) (account : WholesaleAccount) (transferred : Z) (tx : DB M)
    : result error (WholesaleAdvanceResult * DB M) :=
  let newBilled := BillFor (parseDecimalBig (au_PriceWei auth)) (au_PerUnits auth) cumulativeUnits in
  let oldBilled := parseDecimalBig (au_BilledWei auth) in
  let maxDebit := parseDecimalBig (au_MaxDebitWei auth) in
  if (newBilled <? oldBilled) || (maxDebit <? newBilled) then Err ErrAuthorizationState
  else
    let delta := newBilled - oldBilled in
    if maxDebit - newBilled <? targetReserved then Err ErrAuthorizationState
    else
      let oldReserved := parseDecimalBig (au_ReservedWei auth) in
      if Available account + oldReserved <? delta + targetReserved then Err ErrInsufficientWholesale
      else
        let account := bump now
          (acc_with_DebitedWei (dec_string (parseDecimalBig (acc_DebitedWei account) + delta))
            (acc_with_ReservedWei
              (dec_string (parseDecimalBig (acc_ReservedWei account) - oldReserved + targetReserved)) account)) in
        let auth := au_with_UpdatedAt now (au_with_SettlementSeq advanceSeq
          (au_with_ReservedWei (dec_string targetReserved) (au_with_BilledWei (dec_string newBilled)
            (au_with_ActualUnits cumulativeUnits auth)))) in
        let tx := with_spend_authorizations (<[key := auth]> (spend_authorizations tx)) tx in
        let tx := putWholesaleAccount account tx in
        let tx := with_wholesale_advance_history
          (Some (<[historyKey := auth]> (opt_bucket (wholesale_advance_history tx)))) tx in
        Ok (mkAdvance account auth delta transferred false, tx).

Definition AdvanceWholesale_tx (payer payee authorizationID : string) (cumulativeUnits targetReserved advanceSeq : Z)
    (fundingWorkID : string) (now : Z) (accountID : string) (tx : DB M)
    : result error (WholesaleAdvanceResult * DB M) :=
  let history := opt_bucket (wholesale_advance_history tx) in
  let tx := with_wholesale_advance_history (Some history) tx in
  let historyKey := advanceHistoryKey payer authorizationID accountID advanceSeq in
  match history !! historyKey with
  | Some previous => advance_replay payer payee accountID cumulativeUnits targetReserved advanceSeq previous tx
  | None =>
      let key := wholesaleAuthorizationKey payer authorizationID accountID in
      match spend_authorizations tx !! key with
      | None => Err ErrAuthorizationNotFound
      | Some auth =>
          if negb (bool_decide (au_Payee auth = payee)) || negb (bool_decide (au_State auth = AuthorizationAdmitted))
             || (au_MaxTotalUnits auth <? cumulativeUnits) then Err ErrAuthorizationState
          else if negb (now <? au_ExpiresAt auth) then Err ErrAuthorizationState
          else if advanceSeq <? au_SettlementSeq auth then Err ErrAuthorizationSettlement
          else if advanceSeq =? au_SettlementSeq auth then
            if negb (cumulativeUnits =? au_ActualUnits auth) ||
               negb (targetReserved =? parseDecimalBig (au_ReservedWei auth))
            then Err ErrAuthorizationSettlement
            else Ok (mkAdvance (loadWholesaleAccount payer payee accountID tx) auth 0 0 true, tx)
          else
            let account := loadWholesaleAccount payer payee accountID tx in
            let! (account, transferred, tx) := transfer_balance payer fundingWorkID accountID account tx in
            advance_apply key historyKey cumulativeUnits targetReserved advanceSeq now auth account transferred tx
      end
  end.

Definition AdvanceWholesale (payer payee authorizationID : string) (cumulativeUnits : Z)
    (targetReserved : option Z) (advanceSeq : Z) (fundingWorkID : string) (now : Z) (accountID : string) (db : DB M)
    : result error WholesaleAdvanceResult * DB M :=
  match targetReserved with
  | None => (Err ErrAuthorizationState, db)
  | Some target =>
      if (advanceSeq =? 0) || (target <? 0) then (Err ErrAuthorizationState, db)
      else Update (AdvanceWholesale_tx payer payee authorizationID cumulativeUnits target advanceSeq
                     fundingWorkID now accountID) db
  end.

(** ** Settlement *)
Definition SettleWholesale_tx (payer payee authorizationID : string) (actualUnits settlementSeq now : Z)
    (accountID : string) (tx : DB M) : result error (WholesaleSettlementResult * DB M) :=
  let key := wholesaleAuthorizationKey payer authorizationID accountID in
  match spend_authorizations tx !! key with
  | None => Err ErrAuthorizationNotFound
  | Some auth =>
      if negb (bool_decide (au_Payee auth = payee)) then Err ErrAuthorizationNotFound
      else if bool_decide (au_State auth = AuthorizationSettled) then
        if negb (au_ActualUnits auth =? actualUnits) || negb (au_SettlementSeq auth =? settlementSeq)
        then Err ErrAuthorizationSettlement
        else Ok (mkSettlement (loadWholesaleAccount payer payee accountID tx) auth
                   (parseDecimalBig (au_BilledWei auth)) (parseDecimalBig (au_ReleasedWei auth)) true, tx)
      else if negb (bool_decide (au_State auth = AuthorizationAdmitted)) || (au_MaxTotalUnits auth <? actualUnits)
      then Err ErrAuthorizationState
      else if settlementSeq <=? au_SettlementSeq auth then Err ErrAuthorizationSettlement
      else
        let billed := BillFor (parseDecimalBig (au_PriceWei auth)) (au_PerUnits auth) actualUnits in
        if parseDecimalBig (au_MaxDebitWei auth) <? billed then Err ErrAuthorizationState
        else
          let priorBilled := parseDecimalBig (au_BilledWei auth) in
          if billed <? priorBilled then Err ErrAuthorizationState
          else
            let billedDelta := billed - priorBilled in
            let released := parseDecimalBig (au_ReservedWei auth) in
            let account := loadWholesaleAccount payer payee accountID tx in
            if released <? billedDelta then Err ErrAuthorizationState
            else
              let account := bump now
                (acc_with_DebitedWei (dec_string (parseDecimalBig (acc_DebitedWei account) + billedDelta))
                  (acc_with_ReservedWei (dec_string (parseDecimalBig (acc_ReservedWei account) - released)) account)) in
              let auth := au_with_UpdatedAt now (au_with_ReservedWei "0"
                (au_with_ReleasedWei (dec_string (released - billedDelta)) (au_with_BilledWei (dec_string billed)
                  (au_with_SettlementSeq settlementSeq (au_with_ActualUnits actualUnits
                    (au_with_State AuthorizationSettled auth)))))) in
              let tx := with_spend_authorizations (<[key := auth]> (spend_authorizations tx)) tx in
              Ok (mkSettlement account auth billed (released - billedDelta) false, putWholesaleAccount account tx)
  end.

Definition SettleWholesale (payer payee authorizationID : string) (actualUnits settlementSeq now : Z)
    (accountID : string) (db : DB M) : result error WholesaleSettlementResult * DB M :=
  Update (SettleWholesale_tx payer payee authorizationID actualUnits settlementSeq now accountID) db.

(** ** Reads *)
Definition GetWholesaleAccount (payer payee accountID : string) (db : DB M) : WholesaleAccount :=
  loadWholesaleAccount payer payee accountID db.

Definition GetWholesaleAuthorization (payer id accountID : string) (db : DB M)
    : result error WholesaleAuthorization :=
  let key := wholesaleAuthorizationKey payer id accountID in
  match spend_authorizations db !! key with
  | Some auth => Ok auth
  | None =>
      match canceledAdmissionIn key db with
      | Some fence =>
          Ok (mkWholesaleAuthorization accountID id (ca_Fingerprint fence) payer (ca_Payee fence)
                "" "" "" "" "" "" 0 "" "" 0 AuthorizationCanceledUnused 0 "" "" "" 0 0 (ca_At fence) 0 "")
      | None => Err ErrAuthorizationNotFound
      end
  end.

End wholesale.
