(* ===== verification/Fences.v ===== *)
(** * Fences, freezes and identities of the ledger

    Closing and canceling authorizations (unexecuted.go, admission_recovery.go),
    the irreversible source freeze (source_fence.go), the settlement-domain
    binding (settlement_domain.go), the payer's ticket-stream id (isolation.go)
    and the identifier formats of livepeer-network-protocol/proto-go/identity.
    [rand] is the outcome of [crypto/rand.Read] on 32 bytes. *)
From S2P Require Import Prelude.
From S2P Require Import GoBytes.
From S2P Require Import GoCodecs.
From S2P Require Import Bolt.
From S2P Require Import Ledger.
From S2P Require Import Billing.
From S2P Require Import Wholesale.
From Stdlib Require Import Ascii.

(** ** Identifier formats *)
Definition is_lower_hex (c : ascii) : bool := between 48 57 c || between 97 102 c.

Definition ValidDomain (id : string) : bool :=
  if negb (len id =? 66) || negb (bool_decide (take_bytes 2 id = "0x")) then false
  else all_bytes is_lower_hex (drop_bytes 2 id) &&
       negb (all_bytes (fun c => bool_decide (c = byte_of 48)) (drop_bytes 2 id)).

Definition account_char (c : ascii) : bool :=
  between 97 122 c || between 65 90 c || between 48 57 c ||
  (byte_val c =? 46) || (byte_val c =? 95) || (byte_val c =? 58) || (byte_val c =? 45).

Definition ValidWholesaleAccountID (s : string) : bool :=
  if (len s =? 0) || (128 <? len s) then false else all_bytes account_char s.

Section fences.
Context `{Bolt M}.

(** ** Closing an authorization the broker never executed *)
Definition close_row (now : Z) (auth : WholesaleAuthorization) : WholesaleAuthorization :=
  au_with_UpdatedAt now (au_with_SettlementSeq (u64 (au_SettlementSeq auth + 1))
    (au_with_ReleasedWei (dec_string (parseDecimalBig (au_ReservedWei auth)))
      (au_with_ReservedWei "0" (au_with_BilledWei "0" (au_with_State AuthorizationSettled auth))))).

Definition close_existing (now : Z) (payer payee accountID key : string) (auth : WholesaleAuthorization) (tx : DB M)
    : result error (DB M) :=
  if negb (bool_decide (au_Payee auth = payee)) || negb (au_ActualUnits auth =? 0) ||
     negb (parseDecimalBig (au_BilledWei auth) =? 0)
  then Err (ErrMsg "authorization has usage or inconsistent identity; cannot classify as unexecuted")
  else match au_State auth with
  | AuthorizationAdmitted =>
      let account := loadWholesaleAccount payer payee accountID tx in
      let released := parseDecimalBig (au_ReservedWei auth) in
      if (released <? 0) || (parseDecimalBig (acc_ReservedWei account) <? released) ||
         (au_SettlementSeq auth =? two64 - 1)
      then Err ErrAuthorizationState
      else
        let account := bump now
          (acc_with_ReservedWei (dec_string (parseDecimalBig (acc_ReservedWei account) - released)) account) in
        let tx := with_spend_authorizations (<[key := close_row now auth]> (spend_authorizations tx)) tx in
        Ok (putWholesaleAccount account tx)
  | AuthorizationSettled | AuthorizationExpiredUnused | AuthorizationSuperseded => Ok tx
  | AuthorizationCanceledUnused => Err ErrAuthorizationState
  end.

(** [now] is the time of the row and account update, [now'] that of the fence. *)
Definition CloseUnexecutedAuthorization (now now' : Z) (payer payee id reason accountID : string) (db : DB M)
    : result error unit * DB M :=
  if negb (len payer =? 20) || negb (len payee =? 20) || bool_decide (id = "") || bool_decide (reason = "")
  then (Err (ErrMsg "unexecuted authorization identity and reason required"), db)
  else Update (fun tx =>
    let key := wholesaleAuthorizationKey payer id accountID in
    let fences := opt_bucket (unexecuted_fences tx) in
    let tx := with_unexecuted_fences (Some fences) tx in
    match fences !! key with
    | Some _ => Ok (tt, tx)
    | None =>
        let! tx :=
          match spend_authorizations tx !! key with
          | None => Ok tx
          | Some auth => close_existing now payer payee accountID key auth tx
          end in
        Ok (tt, with_unexecuted_fences (Some (<[key := mkunexecutedFence reason now']> fences)) tx)
    end) db.

(** ** Canceling an admission *)
Record CancelResult := mkCancelResult {
  can_Account : WholesaleAccount;
  can_Authorization : option WholesaleAuthorization;
  can_Canceled : bool;
}.

Definition CancelAuthorizationAdmission (now : Z) (payer payee id fingerprint accountID : string) (db : DB M)
    : result error CancelResult * DB M :=
  if negb (ValidWholesaleAccountID accountID) || negb (len payer =? 20) || negb (len payee =? 20) ||
     bool_decide (id = "") || negb (len fingerprint =? 32)
  then (Err (ErrMsg "invalid admission cancellation identity"), db)
  else Update (fun tx =>
    let key := wholesaleAuthorizationKey payer id accountID in
    let! (auth, tx) :=
      match spend_authorizations tx !! key with
      | Some auth =>
          if negb (bool_decide (au_Payee auth = payee)) || negb (bool_decide (au_Fingerprint auth = fingerprint))
          then Err ErrAuthorizationFingerprint
          else Ok (Some auth, tx)
      | None =>
          let fences := opt_bucket (canceled_admissions tx) in
          let tx := with_canceled_admissions (Some fences) tx in
          match canceledAdmissionIn key tx with
          | Some prior =>
              if negb (bool_decide (ca_Fingerprint prior = fingerprint)) then Err ErrAuthorizationFingerprint
              else Ok (None, tx)
          | None =>
              Ok (None, with_canceled_admissions
                          (Some (<[key := mkcanceledAdmission payee fingerprint now]> fences)) tx)
          end
      end in
    Ok (mkCancelResult (loadWholesaleAccount payer payee accountID tx) auth
          (match auth with Some _ => false | None => true end), tx)) db.

(** ** The source freeze *)
Definition fence_state (b : M SourceFenceState) : result error SourceFenceState :=
  match b !! "state" with
  | None => Err (ErrMsg "source fence state missing")
  | Some out =>
      if negb (sf_Frozen out) || bool_decide (sf_Reason out = "") || (sf_FrozenAt out =? 0)
      then Err (ErrMsg "invalid persisted source fence")
      else Ok out
  end.

Definition SourceFence (db : DB M) : result error SourceFenceState :=
  match source_fence db with
  | None => Ok (mkSourceFenceState false "" 0)
  | Some b => fence_state b
  end.

Definition activeAuthorizations (tx : DB M) : Z :=
  foldl (fun count kv => if bool_decide (au_State kv.2 = AuthorizationAdmitted) then u64 (count + 1) else count)
    0 (ForEach (spend_authorizations tx)).

Definition ActiveAuthorizations (db : DB M) : Z := activeAuthorizations db.

Definition FreezeSource (now : Z) (reason : string) (db : DB M) : result error SourceFenceState * DB M :=
  if bool_decide (reason = "") then (Err (ErrMsg "source freeze requires audit reason"), db)
  else Update (fun tx =>
    match source_fence tx with
    | Some b => let! out := fence_state b in Ok (out, tx)
    | None =>
        if negb (activeAuthorizations tx =? 0) then Err (ErrMsg "source has unsettled authorizations")
        else
          let out := mkSourceFenceState true reason now in
          Ok (out, with_source_fence (Some (<["state" := out]> ∅)) tx)
    end) db.

(** ** The settlement domain *)
Definition formatKey : string := "settlement_domain_format".
Definition identityKey : string := "identity".

(** A stored identity: readable, well formed, and the one configured. *)
Definition stored_domain (b : M settlementDomain) (configured : string) (chainID : Z) (payee : string)
    : result error settlementDomain :=
  match b !! identityKey with
  | None => Err (ErrMsg "settlement domain metadata is corrupt; restore complete ledger backup")
  | Some d =>
      if negb (ValidDomain (dom_ID d))
      then Err (ErrMsg "settlement domain metadata is corrupt; restore complete ledger backup")
      else if negb (bool_decide (configured = "")) && negb (bool_decide (configured = dom_ID d))
      then Err (ErrMsg "configured settlement domain differs from stored ledger identity")
      else if negb (bool_decide (dom_Payee d = "")) &&
              (negb (bool_decide (dom_Payee d = hex_encode payee)) || negb (dom_ChainID d =? chainID))
      then Err (ErrMsg "settlement ledger chain/payee identity cannot change")
      else Ok d
  end.

Definition new_domain (rand : result error string) (configured : string) (tx : DB M)
    : result error settlementDomain :=
  match wholesale_totals tx !! formatKey with
  | Some _ => Err (ErrMsg "settlement domain metadata was lost; restore complete ledger backup")
  | None =>
      if existsb (fun kv => bool_decide (au_State kv.2 = AuthorizationAdmitted)) (ForEach (spend_authorizations tx))
      then Err (ErrMsg "drain admitted legacy authorizations before settlement-domain upgrade")
      else if negb (bool_decide (configured = "")) then Ok (mksettlementDomain configured 0 "")
      else let! raw := rand in Ok (mksettlementDomain ("0x" +:+ hex_encode raw) 0 "")
  end.

Definition InitSettlementDomain (rand : result error string) (configured : string) (chainID : Z) (payee : string)
    (db : DB M) : result error string * DB M :=
  if negb (bool_decide (configured = "")) && negb (ValidDomain configured)
  then (Err (ErrMsg "invalid settlement-domain-id"), db)
  else Update (fun tx =>
    let! d :=
      match settlement_domain tx with
      | Some b => stored_domain b configured chainID payee
      | None => new_domain rand configured tx
      end in
    let d := if len payee =? 0 then d else mksettlementDomain (dom_ID d) chainID (hex_encode payee) in
    let tx := with_settlement_domain (Some (<[identityKey := d]> (opt_bucket (settlement_domain tx)))) tx in
    let tx := with_wholesale_totals (<[formatKey := FormatMarker]> (wholesale_totals tx)) tx in
    Ok (dom_ID d, tx)) db.

(** ** The payer's ticket-stream id *)
Definition TicketStreamID (rand : result error string) (db : DB M) : result error string * DB M :=
  Update (fun tx =>
    let b := opt_bucket (sender_identity tx) in
    match b !! "ticket_stream_id" with
    | Some v => Ok (v, with_sender_identity (Some b) tx)
    | None =>
        let! raw := rand in
        let id := hex_encode raw in
        Ok (id, with_sender_identity (Some (<["ticket_stream_id" := id]> b)) tx)
    end) db.

End fences.
