(* ===== verification/Funding.v ===== *)
(** * Durable account funding (payment-daemon/internal/store/funding.go)

    One transaction records the nonces of a payment's tickets, queues the
    winners, credits the account and stores the receipt. *)
From S2P Require Import Prelude.
From S2P Require Import GoBytes.
From S2P Require Import Bolt.
From S2P Require Import Ledger.
From S2P Require Import Billing.
From S2P Require Import Nonces.
From S2P Require Import Sessions.
From S2P Require Import Redemptions.
From S2P Require Import Wholesale.
From S2P Require Import Fences.

(** A validated ticket; a [nil] credit is [None]. *)
Record FundingTicket := mkFundingTicket {
  ft_Nonce : Z;
  ft_Credit : option Z;
  ft_Winner : option SignedTicket;
  ft_Hash : string;
}.

Section funding.
Context `{Bolt M}.

Definition receipt_for (payer payee accountID : string) (r : FundingReceipt) : bool :=
  bool_decide (acc_Payer (fr_Account r) = payer) && bool_decide (acc_Payee (fr_Account r) = payee) &&
  bool_decide (acc_WholesaleAccountID (fr_Account r) = accountID).

Definition GetFundingReceipt (payer payee accountID fundingID : string) (db : DB M) : result error FundingReceipt :=
  match wholesale_funding_receipts db with
  | None => Err ErrNotFound
  | Some b =>
      match b !! fundingID with
      | None => Err ErrNotFound
      | Some r => if negb (receipt_for payer payee accountID r) then Err ErrSenderMismatch else Ok r
      end
  end.

(** The loop over the tickets, accumulating the credit. *)
Fixpoint apply_tickets (rand : Z) (tickets : list FundingTicket) (credit : Z) (tx : DB M)
    : result error (Z * DB M) :=
  match tickets with
  | [] => Ok (credit, tx)
  | t :: tickets' =>
      match ft_Credit t with
      | None => Err (ErrMsg "invalid credit")
      | Some c =>
          if c <=? 0 then Err (ErrMsg "invalid credit")
          else
            let! tx := recordNonce rand (ft_Nonce t) tx in
            let tx := match ft_Winner t with
                      | Some w => (enqueueRedemption (ft_Hash t) w tx).2
                      | None => tx
                      end in
            apply_tickets rand tickets' (credit + c) tx
      end
  end.

Definition apply_funding (payer payee accountID workID fundingID : string) (tickets : list FundingTicket)
    (now : Z) (receipts : M FundingReceipt) (tx : DB M) : result error (FundingReceipt * DB M) :=
  match sessions tx !! compositeKey payer workID with
  | None => Err ErrNotFound
  | Some session =>
      if s_Closed session then Err ErrClosed
      else if negb (bool_decide (s_WholesaleAccountID session = accountID)) ||
              bool_decide (s_TicketStreamID session = "") || negb (bool_decide (s_Recipient session = payee))
      then Err ErrSenderMismatch
      else match SetString10 (s_RecipientRand session) with
      | None => Err (ErrMsg "invalid generation rand")
      | Some rand =>
          let! (credit, tx) := apply_tickets rand tickets 0 tx in
          let account := bump now (credit_account credit (loadWholesaleAccount payer payee accountID tx)) in
          let tx := putWholesaleAccount account tx in
          let receipt := mkFundingReceipt fundingID account (dec_string credit) in
          Ok (receipt, with_wholesale_funding_receipts (Some (<[fundingID := receipt]> receipts)) tx)
      end
  end.

Definition ApplyWholesaleFunding (payer payee accountID workID fundingID : string) (tickets : list FundingTicket)
    (now : Z) (db : DB M) : result error (FundingReceipt * bool) * DB M :=
  if negb (ValidWholesaleAccountID accountID) || negb (len fundingID =? 64) || bool_decide (length tickets = 0%nat)
  then (Err (ErrMsg "funding identity and tickets required"), db)
  else Update (fun tx =>
    let receipts := opt_bucket (wholesale_funding_receipts tx) in
    let tx := with_wholesale_funding_receipts (Some receipts) tx in
    match receipts !! fundingID with
    | Some r => if negb (receipt_for payer payee accountID r) then Err ErrSenderMismatch else Ok (r, true, tx)
    | None =>
        let! (receipt, tx) := apply_funding payer payee accountID workID fundingID tickets now receipts tx in
        Ok (receipt, false, tx)
    end) db.

End funding.
