(* ===== verification/WholesaleInv.v ===== *)
(** * The wholesale ledger's invariant

    What ties the three buckets together: each account's reserved and debited
    amounts are the sums over its authorization rows, no account is overdrawn,
    no row bills past its cap or off its price, and the totals row is the sum
    of the accounts.  [ledger_ok] states it, the lemmas of this file show that
    every write of the ledger keeps it. *)
From S2P Require Import Prelude.
From S2P Require Import GoBytes.
From S2P Require Import GoCodecs.
From S2P Require Import Bolt.
From S2P Require Import Ledger.
From S2P Require Import Billing.
From S2P Require Import Sessions.
From S2P Require Import Wholesale.

(** ** Keys

    A key is a SHA-256 sum of an unambiguous pre-image; two requests share a
    row only if they name the same row or SHA-256 collides. *)
Definition no_nul (s : string) : bool := all_bytes (fun c => negb (bool_decide (c = zero_byte))) s.

(** [x] collides with no pre-image among [xs]. *)
Definition collision_free (x : string) (xs : list string) : Prop :=
  Forall (fun y => sha256 y = sha256 x -> y = x) xs.

Lemma authorizationKey_split p i a p' i' a' :
  wholesaleAuthorizationKey p i a = wholesaleAuthorizationKey p' i' a' ->
  (a = "" <-> a' = "") /\ sha256 (authorizationPreimage p i a) = sha256 (authorizationPreimage p' i' a').
Proof.
  unfold wholesaleAuthorizationKey. intros E. pose proof (f_equal len E) as El.
  destruct (decide (a = "")) as [Ha|Ha], (decide (a' = "")) as [Ha'|Ha'].
  - rewrite !bool_decide_true in E by assumption. split; [by clear E El; subst|exact E].
  - rewrite (bool_decide_true (a = "")), (bool_decide_false (a' = "")) in El by assumption.
    rewrite len_app, !len_sha256 in El. discriminate El.
  - rewrite (bool_decide_false (a = "")), (bool_decide_true (a' = "")) in El by assumption.
    rewrite len_app, !len_sha256 in El. discriminate El.
  - rewrite !bool_decide_false in E by assumption. apply (inj (String.append _)) in E.
    split; [by clear E El|exact E].
Qed.

Lemma authorizationPreimage_inj p i a p' i' a' :
  len p = 20 -> len p' = 20 -> no_nul a = true -> no_nul a' = true -> (a = "" <-> a' = "") ->
  authorizationPreimage p i a = authorizationPreimage p' i' a' -> p = p' /\ i = i' /\ a = a'.
Proof.
  intros Hp Hp' Ha Ha' Haa E. unfold authorizationPreimage in E.
  apply app_inv_len in E as [-> E]; [|lia]. injection E as E.
  destruct (decide (a = "")) as [->|Hne].
  - assert (a' = "") as -> by naive_solver.
    rewrite !bool_decide_true, !app_nil_str in E by done. done.
  - rewrite !bool_decide_false in E by naive_solver. apply app_sep_inj_r in E as [-> ->]; done.
Qed.

(** A row stored under the key of a request is the row the request names. *)
Lemma authorizationKey_names xs p i a p' i' a' :
  len p = 20 -> len p' = 20 -> no_nul a = true -> no_nul a' = true ->
  collision_free (authorizationPreimage p i a) xs -> authorizationPreimage p' i' a' ∈ xs ->
  wholesaleAuthorizationKey p i a = wholesaleAuthorizationKey p' i' a' -> p = p' /\ i = i' /\ a = a'.
Proof.
  intros Hp Hp' Ha Ha' Hcf Hin [Haa E]%authorizationKey_split.
  unfold collision_free in Hcf. rewrite Forall_forall in Hcf.
  apply authorizationPreimage_inj; try assumption. symmetry. apply Hcf; [exact Hin|].
  symmetry. exact E.
Qed.

(** ** The invariant *)
Definition credited (acc : WholesaleAccount) : Z := parseDecimalBig (acc_CreditedWei acc).
Definition reserved (acc : WholesaleAccount) : Z := parseDecimalBig (acc_ReservedWei acc).
Definition debited (acc : WholesaleAccount) : Z := parseDecimalBig (acc_DebitedWei acc).
Definition row_reserved (a : WholesaleAuthorization) : Z := parseDecimalBig (au_ReservedWei a).
Definition row_billed (a : WholesaleAuthorization) : Z := parseDecimalBig (au_BilledWei a).
Definition row_max (a : WholesaleAuthorization) : Z := parseDecimalBig (au_MaxDebitWei a).
Definition row_price (a : WholesaleAuthorization) : Z := parseDecimalBig (au_PriceWei a).
Definition account_key (acc : WholesaleAccount) : string :=
  wholesaleAccountKey (acc_Payer acc) (acc_Payee acc) (acc_WholesaleAccountID acc).
Definition no_account : WholesaleAccount := mkWholesaleAccount "" "" "" "" "" "" 0 0.

Section invariant.
Context `{Bolt M} (payee : string).

(** The key of the account a row draws on. *)
Definition row_account (a : WholesaleAuthorization) : string :=
  wholesaleAccountKey (au_Payer a) payee (au_WholesaleAccountID a).

(** One authorization row: filed under its own identity, reserving nothing
    unless admitted, billed exactly on its price curve and within its caps. *)
Record row_ok (k : string) (a : WholesaleAuthorization) : Prop := {
  ro_key : k = wholesaleAuthorizationKey (au_Payer a) (au_ID a) (au_WholesaleAccountID a);
  ro_payee : au_Payee a = payee;
  ro_payer : len (au_Payer a) = 20;
  ro_scope : no_nul (au_WholesaleAccountID a) = true;
  ro_price : 0 <= row_price a /\ 0 <= au_PerUnits a;
  ro_units : 0 <= au_ActualUnits a;
  ro_seq : 0 <= au_SettlementSeq a < two64;
  ro_reserved : 0 <= row_reserved a;
  ro_billed : row_billed a = BillFor (row_price a) (au_PerUnits a) (au_ActualUnits a);
  ro_cap : au_State a <> AuthorizationExpiredUnused ->
    row_billed a + row_reserved a <= row_max a /\ au_ActualUnits a <= au_MaxTotalUnits a;
  ro_idle : au_State a <> AuthorizationAdmitted -> row_reserved a = 0;
}.

(** What a row contributes to the account at [K]. A superseded row's bill is
    carried on by its successor. *)
Definition res_share (K : string) (_ : string) (a : WholesaleAuthorization) : Z :=
  if bool_decide (row_account a = K) then row_reserved a else 0.
Definition bill_share (K : string) (_ : string) (a : WholesaleAuthorization) : Z :=
  if bool_decide (row_account a = K) && negb (bool_decide (au_State a = AuthorizationSuperseded))
  then row_billed a else 0.

Definition account_at (K : string) (accounts : M WholesaleAccount) : WholesaleAccount :=
  default no_account (accounts !! K).

Definition totals_in (b : M totalsRow) : WholesaleTotals :=
  match b !! totalsKey with Some (TotalsValue t) => t | _ => mkWholesaleTotals "" "" "" end.

Record ledger_ok (accounts : M WholesaleAccount) (rows : M WholesaleAuthorization) (totals : M totalsRow) : Prop := {
  lo_rows : forall k a, rows !! k = Some a -> row_ok k a;
  lo_keys : forall K acc, accounts !! K = Some acc -> K = account_key acc;
  lo_solvent : forall K acc, accounts !! K = Some acc -> reserved acc + debited acc <= credited acc;
  lo_reserved : forall K, reserved (account_at K accounts) = msum (res_share K) rows;
  lo_debited : forall K, debited (account_at K accounts) = msum (bill_share K) rows;
  lo_tot_credited : parseDecimalBig (tot_CreditedWei (totals_in totals)) = msum (fun _ a => credited a) accounts;
  lo_tot_reserved : parseDecimalBig (tot_ReservedWei (totals_in totals)) = msum (fun _ a => reserved a) accounts;
  lo_tot_debited : parseDecimalBig (tot_DebitedWei (totals_in totals)) = msum (fun _ a => debited a) accounts;
}.

Definition Inv (db : DB M) : Prop :=
  ledger_ok (wholesale_accounts db) (spend_authorizations db) (wholesale_totals db).

Lemma Inv_Open : Inv Open.
Proof.
  split; simpl; intros *; rewrite ?msum_empty; try done.
  - by rewrite lookup_empty.
  - by rewrite lookup_empty.
  - by rewrite lookup_empty.
  - unfold account_at. by rewrite lookup_empty.
  - unfold account_at. by rewrite lookup_empty.
  - unfold totals_in. by rewrite lookup_empty.
  - unfold totals_in. by rewrite lookup_empty.
  - unfold totals_in. by rewrite lookup_empty.
Qed.

Lemma res_share_nonneg K (rows : M WholesaleAuthorization) k a :
  (forall k a, rows !! k = Some a -> row_ok k a) -> rows !! k = Some a -> 0 <= res_share K k a.
Proof. intros Hr Hk%Hr. unfold res_share. destruct (bool_decide _); [apply (ro_reserved _ _ Hk)|lia]. Qed.

Lemma row_billed_nonneg k a : row_ok k a -> 0 <= row_billed a.
Proof. intros R. rewrite (ro_billed _ _ R). apply BillFor_nonneg; apply R. Qed.

Lemma bill_share_nonneg K (rows : M WholesaleAuthorization) k a :
  (forall k a, rows !! k = Some a -> row_ok k a) -> rows !! k = Some a -> 0 <= bill_share K k a.
Proof.
  intros Hr Hk%Hr. unfold bill_share. destruct (_ && _); [by eapply row_billed_nonneg|lia].
Qed.

(** Filing [a'] where [old] was, both drawing on [K]: only [K]'s sums move. *)
Lemma shares_insert (rows : M WholesaleAuthorization) k a' K K' :
  row_account a' = K -> (forall a, rows !! k = Some a -> row_account a = K) ->
  msum (res_share K') (<[k := a']> rows) = msum (res_share K') rows +
    (if bool_decide (K' = K) then row_reserved a' - default 0 (row_reserved <$> rows !! k) else 0) /\
  msum (bill_share K') (<[k := a']> rows) = msum (bill_share K') rows +
    (if bool_decide (K' = K) then
       (if bool_decide (au_State a' = AuthorizationSuperseded) then 0 else row_billed a')
       - default 0 ((fun a => if bool_decide (au_State a = AuthorizationSuperseded) then 0 else row_billed a)
                      <$> rows !! k)
     else 0).
Proof.
  intros Ha' Hold. rewrite !msum_insert. unfold res_share at 2 3, bill_share at 2 3. rewrite Ha'.
  assert (forall a, rows !! k = Some a -> bool_decide (row_account a = K') = bool_decide (K = K')) as Hb
    by (intros a Ha; by rewrite (Hold a Ha)).
  destruct (rows !! k) as [a|] eqn:E; simpl; [rewrite (Hb a) by done|].
  - destruct (decide (K = K')) as [->|Hne].
    + rewrite !bool_decide_true by done. simpl. split; [lia|].
      destruct (bool_decide (au_State a = _)), (bool_decide (au_State a' = _)); simpl; lia.
    + rewrite (bool_decide_false (K = K')), (bool_decide_false (K' = K)) by congruence. simpl. lia.
  - destruct (decide (K = K')) as [->|Hne].
    + rewrite !bool_decide_true by done. simpl. split; [lia|].
      destruct (bool_decide (au_State a' = _)); simpl; lia.
    + rewrite (bool_decide_false (K = K')), (bool_decide_false (K' = K)) by congruence. simpl. lia.
Qed.

Lemma totals_put acc (db : DB M) :
  let tot := totals_in (wholesale_totals (putWholesaleAccount acc db)) in
  let old := totals_in (wholesale_totals db) in
  let prev := account_at (account_key acc) (wholesale_accounts db) in
  parseDecimalBig (tot_CreditedWei tot) = parseDecimalBig (tot_CreditedWei old) + (credited acc - credited prev) /\
  parseDecimalBig (tot_ReservedWei tot) = parseDecimalBig (tot_ReservedWei old) + (reserved acc - reserved prev) /\
  parseDecimalBig (tot_DebitedWei tot) = parseDecimalBig (tot_DebitedWei old) + (debited acc - debited prev).
Proof.
  unfold totals_in at 1. simpl. rewrite lookup_insert_eq. simpl. unfold adjust. rewrite !parse_dec. done.
Qed.

Lemma msum_account f (accounts : M WholesaleAccount) acc :
  f no_account = 0 ->
  msum (fun _ a => f a) (<[account_key acc := acc]> accounts) =
    msum (fun _ a => f a) accounts + (f acc - f (account_at (account_key acc) accounts)).
Proof.
  intros Hf. rewrite msum_insert. unfold account_at.
  destruct (accounts !! account_key acc); simpl; lia.
Qed.

(** The write every operation ends with: rows and one account, together. *)
Lemma ledger_ok_put (db : DB M) acc rows' :
  Inv db -> (forall k a, rows' !! k = Some a -> row_ok k a) ->
  reserved acc + debited acc <= credited acc ->
  (forall K, msum (res_share K) rows' = msum (res_share K) (spend_authorizations db) +
    (if bool_decide (K = account_key acc)
     then reserved acc - reserved (account_at (account_key acc) (wholesale_accounts db)) else 0)) ->
  (forall K, msum (bill_share K) rows' = msum (bill_share K) (spend_authorizations db) +
    (if bool_decide (K = account_key acc)
     then debited acc - debited (account_at (account_key acc) (wholesale_accounts db)) else 0)) ->
  Inv (putWholesaleAccount acc (with_spend_authorizations rows' db)).
Proof.
  intros I Hrows Hs Hres Hbil.
  assert (forall K, account_at K (<[account_key acc := acc]> (wholesale_accounts db)) =
    if bool_decide (K = account_key acc) then acc else account_at K (wholesale_accounts db)) as Hat.
  { intros K. unfold account_at. destruct (decide (K = account_key acc)) as [->|Hne].
    - by rewrite lookup_insert_eq, bool_decide_true.
    - by rewrite lookup_insert_ne, bool_decide_false by done. }
  destruct (totals_put acc (with_spend_authorizations rows' db)) as (T1 & T2 & T3).
  split; try (fold (account_key acc)).
  - exact Hrows.
  - intros K a. simpl. fold (account_key acc).
    intros [[<- <-]|[_ Hk]]%lookup_insert_Some; [done|by apply (lo_keys _ _ _ I)].
  - intros K a. simpl. fold (account_key acc).
    intros [[<- <-]|[_ Hk]]%lookup_insert_Some; [done|by eapply (lo_solvent _ _ _ I)].
  - intros K. simpl. fold (account_key acc). rewrite Hat, Hres, <- (lo_reserved _ _ _ I).
    case_bool_decide; subst; lia.
  - intros K. simpl. fold (account_key acc). rewrite Hat, Hbil, <- (lo_debited _ _ _ I).
    case_bool_decide; subst; lia.
  - rewrite T1. simpl. fold (account_key acc). rewrite msum_account by done.
    by rewrite (lo_tot_credited _ _ _ I).
  - rewrite T2. simpl. fold (account_key acc). rewrite msum_account by done.
    by rewrite (lo_tot_reserved _ _ _ I).
  - rewrite T3. simpl. fold (account_key acc). rewrite msum_account by done.
    by rewrite (lo_tot_debited _ _ _ I).
Qed.

End invariant.
