(* ===== verification/WholesaleSteps.v ===== *)
(** * Every ledger operation keeps the invariant *)
From S2P Require Import Prelude.
From S2P Require Import GoBytes.
From S2P Require Import GoCodecs.
From S2P Require Import Bolt.
From S2P Require Import Ledger.
From S2P Require Import Billing.
From S2P Require Import Sessions.
From S2P Require Import Redemptions.
From S2P Require Import Wholesale.
From S2P Require Import Fences.
From S2P Require Import Funding.
From S2P Require Import WholesaleInv.

Section steps.
Context `{Bolt M} (payee : string).
Implicit Types (db : DB M).
Abbreviation Inv := (Inv payee).

(** ** Requests *)
Definition stored_preimages (rows : M WholesaleAuthorization) : list string :=
  (fun kv => authorizationPreimage (au_Payer kv.2) (au_ID kv.2) (au_WholesaleAccountID kv.2)) <$> map_to_list rows.

(** A request the service accepts: a 20-byte payer, an account id without NUL,
    and an identity whose SHA-256 sum collides with no other stored row's. *)
Definition honest (payer id accountID : string) db : Prop :=
  len payer = 20 /\ no_nul accountID = true /\
  collision_free (authorizationPreimage payer id accountID) (stored_preimages (spend_authorizations db)).

Lemma found_row db p i a row :
  Inv db -> honest p i a db -> spend_authorizations db !! wholesaleAuthorizationKey p i a = Some row ->
  au_Payer row = p /\ au_ID row = i /\ au_WholesaleAccountID row = a /\
  row_account payee row = wholesaleAccountKey p payee a.
Proof.
  intros I (Hp & Ha & Hcf) Hrow. pose proof (lo_rows _ _ _ _ I _ _ Hrow) as R.
  assert (p = au_Payer row /\ i = au_ID row /\ a = au_WholesaleAccountID row) as (-> & -> & ->).
  { eapply authorizationKey_names; [exact Hp|apply R|exact Ha|apply R|exact Hcf| |apply R].
    unfold stored_preimages. apply list_elem_of_fmap. eexists (_, row). split; [reflexivity|].
    apply elem_of_map_to_list. exact Hrow. }
  unfold row_account. split_and!; reflexivity.
Qed.

Lemma load_spec db p pe a :
  Inv db ->
  let K := wholesaleAccountKey p pe a in
  let acc := loadWholesaleAccount p pe a db in
  let at_K := account_at K (wholesale_accounts db) in
  account_key acc = K /\ reserved acc = reserved at_K /\ debited acc = debited at_K /\
  credited acc = credited at_K /\ reserved acc + debited acc <= credited acc.
Proof.
  intros I K acc at_K. subst acc at_K. unfold loadWholesaleAccount, account_at. fold K.
  destruct (wholesale_accounts db !! K) as [acc|] eqn:E; simpl.
  - split_and!; try reflexivity.
    + symmetry. exact (lo_keys _ _ _ _ I _ _ E).
    + exact (lo_solvent _ _ _ _ I _ _ E).
  - split_and!; reflexivity || (vm_compute; discriminate).
Qed.

(** ** Writes *)

(** Only the account moves, by a credit. *)
Lemma Inv_credit db acc :
  Inv db -> reserved acc + debited acc <= credited acc ->
  reserved acc = reserved (account_at (account_key acc) (wholesale_accounts db)) ->
  debited acc = debited (account_at (account_key acc) (wholesale_accounts db)) ->
  Inv (putWholesaleAccount acc db).
Proof.
  intros I Hs Hr Hd.
  refine (ledger_ok_put payee db acc (spend_authorizations db) I (lo_rows _ _ _ _ I) Hs _ _);
    intros K; case_bool_decide; lia.
Qed.

(** A row that counts is replaced by one that counts. *)
Lemma Inv_row db acc k old new :
  Inv db -> spend_authorizations db !! k = Some old -> row_ok payee k new ->
  au_State old <> AuthorizationSuperseded -> au_State new <> AuthorizationSuperseded ->
  row_account payee old = account_key acc -> row_account payee new = account_key acc ->
  reserved acc + debited acc <= credited acc ->
  reserved acc = reserved (account_at (account_key acc) (wholesale_accounts db)) - row_reserved old + row_reserved new ->
  debited acc = debited (account_at (account_key acc) (wholesale_accounts db)) - row_billed old + row_billed new ->
  Inv (putWholesaleAccount acc (with_spend_authorizations (<[k := new]> (spend_authorizations db)) db)).
Proof.
  intros I Hk Hnew So Sn Ho Hn Hs Hr Hd.
  assert (forall a, spend_authorizations db !! k = Some a -> row_account payee a = account_key acc) as Hold.
  { intros a Ha. rewrite Hk in Ha. injection Ha as <-. exact Ho. }
  pose proof (fun K => shares_insert payee (spend_authorizations db) k new (account_key acc) K Hn Hold) as Hsh.
  rewrite Hk in Hsh. simpl in Hsh.
  rewrite (bool_decide_false (au_State old = _)), (bool_decide_false (au_State new = _)) in Hsh by assumption.
  apply ledger_ok_put; [exact I| |exact Hs| |].
  - intros k' a [[<- <-]|[_ Ha]]%lookup_insert_Some; [exact Hnew|by apply (lo_rows _ _ _ _ I)].
  - intros K. rewrite (proj1 (Hsh K)). destruct (bool_decide (K = _)); lia.
  - intros K. rewrite (proj2 (Hsh K)). destruct (bool_decide (K = _)); lia.
Qed.

(** A new row that reserves and bills nothing leaves the accounts alone. *)
Lemma Inv_idle_row db k a :
  Inv db -> spend_authorizations db !! k = None -> row_ok payee k a ->
  row_reserved a = 0 -> row_billed a = 0 ->
  Inv (with_spend_authorizations (<[k := a]> (spend_authorizations db)) db).
Proof.
  intros I Hk Ha Hr Hb.
  assert (forall a', spend_authorizations db !! k = Some a' -> row_account payee a' = row_account payee a) as Hold.
  { rewrite Hk. intros a' [=]. }
  pose proof (fun K => shares_insert payee (spend_authorizations db) k a (row_account payee a) K eq_refl Hold) as Hsh.
  rewrite Hk, Hr, Hb in Hsh. simpl in Hsh.
  destruct I as [I1 I2 I3 I4 I5 I6 I7 I8]. split; simpl; try assumption.
  - intros k' a' [[<- <-]|[_ Ha']]%lookup_insert_Some; [exact Ha|by apply I1].
  - intros K. rewrite I4, (proj1 (Hsh K)). destruct (bool_decide (K = _)); lia.
  - intros K. rewrite I5, (proj2 (Hsh K)). destruct (bool_decide (au_State a = _)), (bool_decide (K = _)); lia.
Qed.

(** ** Settlement *)
Lemma Inv_SettleWholesale db p pe id units seq now a :
  Inv db -> honest p id a db -> 0 <= units -> 0 <= seq < two64 ->
  Inv (SettleWholesale p pe id units seq now a db).2.
Proof.
  intros I Hh Hu Hseq. unfold SettleWholesale, Update.
  destruct (SettleWholesale_tx p pe id units seq now a db) as [[res db']|e] eqn:E; [|exact I]. simpl.
  unfold SettleWholesale_tx in E.
  destruct (spend_authorizations db !! _) as [old|] eqn:Hrow; [|discriminate E].
  destruct (found_row _ _ _ _ _ I Hh Hrow) as (Hp & Hid & Ha & HK).
  pose proof (lo_rows _ _ _ _ I _ _ Hrow) as R.
  destruct (bool_decide (au_Payee old = pe)) eqn:Hpe; simpl in E; [|discriminate E].
  apply bool_decide_eq_true in Hpe. rewrite (ro_payee _ _ _ R) in Hpe. subst pe.
  destruct (bool_decide (au_State old = AuthorizationSettled)) eqn:Hst.
  { destruct (_ || _); [discriminate E|]. injection E as _ <-. exact I. }
  destruct (negb _ || _) eqn:Hg in E; [discriminate E|].
  destruct (seq <=? au_SettlementSeq old); [discriminate E|].
  destruct (parseDecimalBig (au_MaxDebitWei old) <? _) eqn:Hmax; [discriminate E|].
  destruct (_ <? parseDecimalBig (au_BilledWei old)) eqn:Hmono; [discriminate E|].
  destruct (parseDecimalBig (au_ReservedWei old) <? _) eqn:Hrel; [discriminate E|].
  injection E as _ <-. to_prop.
  destruct (load_spec db p payee a I) as (Hk & Lr & Ld & Lc & Ls). set (acc := loadWholesaleAccount p payee a db) in *.
  apply Inv_row with (old := old); try assumption.
  - destruct R. split; simpl; try assumption; unfold row_billed, row_reserved, row_max, row_price in *; simpl;
      autorewrite with money; intros; try split; try lia; try reflexivity.
  - congruence.
  - discriminate.
  - rewrite HK. symmetry. exact Hk.
  - unfold row_account. simpl. rewrite Hp, Ha. symmetry. exact Hk.
  - unfold reserved, debited, credited in *. simpl. autorewrite with money. lia.
  - change (account_key _) with (account_key acc). rewrite Hk, <- Lr.
    unfold reserved, row_reserved. simpl. autorewrite with money. lia.
  - change (account_key _) with (account_key acc). rewrite Hk, <- Ld.
    unfold debited, row_billed. simpl. autorewrite with money. lia.
Qed.

(** ** Transfers *)
Lemma transfer_spec p w a acc db acc' t db' :
  transfer_balance p w a acc db = Ok (acc', t, db') ->
  exists ss, db' = with_sessions ss db /\ 0 <= t /\ credited acc' = credited acc + t /\
    account_key acc' = account_key acc /\ reserved acc' = reserved acc /\ debited acc' = debited acc.
Proof.
  assert (with_sessions (sessions db) db = db) as Eta by (by destruct db).
  assert (exists ss, db = with_sessions ss db /\ 0 <= 0 /\ credited acc = credited acc + 0 /\
    account_key acc = account_key acc /\ reserved acc = reserved acc /\ debited acc = debited acc) as Hnone.
  { exists (sessions db). rewrite Eta. split_and!; try reflexivity; lia. }
  unfold transfer_balance. destruct (bool_decide (w = "")); [intros [= <- <- <-]; exact Hnone|].
  destruct (negb _); [discriminate|].
  destruct (sessions db !! compositeKey p w) as [sess|]; [|discriminate].
  destruct (Z.ltb_spec 0 (parseDecimalBig (s_BalanceWei sess))); intros [= <- <- <-]; [|exact Hnone].
  eexists. split_and!; try reflexivity; [lia|].
  unfold credited, credit_account. simpl. by autorewrite with money.
Qed.

(** ** Advance *)
Lemma Inv_advance_apply db db0 p id a units target seq now old acc t hk res db' :
  Inv db -> honest p id a db -> 0 <= units -> 0 <= seq < two64 -> 0 <= target ->
  spend_authorizations db !! wholesaleAuthorizationKey p id a = Some old ->
  au_State old = AuthorizationAdmitted -> units <= au_MaxTotalUnits old ->
  (exists ss h, db0 = with_sessions ss (with_wholesale_advance_history h db)) ->
  (let base := loadWholesaleAccount p payee a db in
   0 <= t /\ credited acc = credited base + t /\ account_key acc = account_key base /\
   reserved acc = reserved base /\ debited acc = debited base) ->
  advance_apply (wholesaleAuthorizationKey p id a) hk units target seq now old acc t db0 = Ok (res, db') ->
  Inv db'.
Proof.
  intros I Hh Hu Hseq Ht Hrow Hst Hmaxu (ss & h & ->) (Htr & Hc & Hk & Hr & Hd) E. unfold advance_apply in E.
  destruct (found_row _ _ _ _ _ I Hh Hrow) as (Hp & Hid & Ha & HK).
  pose proof (lo_rows _ _ _ _ I _ _ Hrow) as R.
  destruct (_ || _) eqn:Hb in E; [discriminate E|].
  destruct (_ <? target) eqn:Hcap; [discriminate E|].
  destruct (Available acc + _ <? _) eqn:Hav; [discriminate E|]. injection E as _ <-. to_prop.
  destruct (load_spec db p payee a I) as (Lk & Lr & Ld & Lc & Ls).
  match goal with |- Inv (with_wholesale_advance_history _ (putWholesaleAccount ?acc' _)) =>
    set (acc2 := acc') end.
  assert (account_key acc2 = wholesaleAccountKey p payee a) as Hk2.
  { change (account_key acc2) with (account_key acc). rewrite Hk. exact Lk. }
  refine (Inv_row db acc2 _ old _ I Hrow _ _ _ _ _ _ _ _).
  - destruct R. split; simpl; try assumption; unfold row_billed, row_reserved, row_max, row_price in *; simpl;
      autorewrite with money; intros; try split; try lia; try reflexivity. simpl in *. contradiction.
  - congruence.
  - simpl. congruence.
  - rewrite HK. symmetry. exact Hk2.
  - unfold row_account. simpl. rewrite Hp, Ha. symmetry. exact Hk2.
  - unfold Available, reserved, debited, credited in *. subst acc2. simpl. autorewrite with money. lia.
  - rewrite Hk2, <- Lr, <- Hr. subst acc2. unfold reserved, row_reserved. simpl. autorewrite with money. lia.
  - rewrite Hk2, <- Ld, <- Hd. subst acc2. unfold debited, row_billed. simpl. autorewrite with money. lia.
Qed.

Lemma Inv_AdvanceWholesale db p pe id units target seq w now a :
  Inv db -> honest p id a db -> 0 <= units -> 0 <= seq < two64 ->
  Inv (AdvanceWholesale p pe id units target seq w now a db).2.
Proof.
  intros I Hh Hu Hseq. unfold AdvanceWholesale. destruct target as [target|]; [|exact I].
  destruct (_ || _) eqn:Hz; [exact I|]. to_prop. unfold Update.
  destruct (AdvanceWholesale_tx p pe id units target seq w now a db) as [[res db']|e] eqn:E; [|exact I]. simpl.
  unfold AdvanceWholesale_tx in E.
  destruct (opt_bucket (wholesale_advance_history db) !! _) as [prev|].
  { unfold advance_replay in E. destruct (_ || _); [discriminate E|]. injection E as _ <-. exact I. }
  simpl in E. destruct (spend_authorizations db !! _) as [old|] eqn:Hrow; [|discriminate E].
  pose proof (lo_rows _ _ _ _ I _ _ Hrow) as R.
  destruct (negb (bool_decide (au_Payee old = pe)) || _ || _) eqn:Hg; [discriminate E|]. to_prop.
  assert (pe = payee) as -> by (rewrite <- (ro_payee _ _ _ R); congruence).
  destruct (negb _); [discriminate E|]. destruct (seq <? _); [discriminate E|].
  destruct (seq =? _).
  { destruct (_ || _); [discriminate E|]. injection E as _ <-. exact I. }
  destruct (transfer_balance _ _ _ _ _) as [[[acc t] db1]|] eqn:Et; [|discriminate E].
  destruct (transfer_spec _ _ _ _ _ _ _ _ Et) as (ss & -> & Htr).
  refine (Inv_advance_apply db _ p id a units target seq now old acc t _ res db'
    I Hh Hu Hseq _ Hrow _ _ _ Htr E); [lia|assumption|lia|].
  by exists ss, (Some (opt_bucket (wholesale_advance_history db))).
Qed.

(** ** Admission *)
Definition wf_seed (seed : WholesaleAuthorizationSeed) db : Prop :=
  sd_Payee seed = payee /\ 0 <= parseDecimalBig (sd_PriceWei seed) /\ 0 <= sd_PerUnits seed /\
  0 <= sd_MaxTotalUnits seed /\
  honest (sd_Payer seed) (sd_ID seed) (sd_WholesaleAccountID seed) db /\
  honest (sd_Payer seed) (sd_PredecessorID seed) (sd_WholesaleAccountID seed) db.

(** The predecessor a revision inherits from, when there is one. *)
Lemma load_predecessor_spec seed db pred :
  Inv db -> wf_seed seed db -> load_predecessor seed db = Ok (Some pred) ->
  let pk := wholesaleAuthorizationKey (sd_Payer seed) (sd_PredecessorID seed) (sd_WholesaleAccountID seed) in
  spend_authorizations db !! pk = Some pred /\ row_ok payee pk pred /\
  row_account payee pred = wholesaleAccountKey (sd_Payer seed) payee (sd_WholesaleAccountID seed) /\
  au_State pred = AuthorizationAdmitted /\ au_PriceWei pred = sd_PriceWei seed /\
  au_PerUnits pred = sd_PerUnits seed /\ au_ActualUnits pred <= sd_MaxTotalUnits seed /\
  row_billed pred <= parseDecimalBig (sd_MaxDebitWei seed).
Proof.
  intros I (_ & _ & _ & _ & _ & Hh) E pk. unfold load_predecessor in E.
  destruct (bool_decide _) in E; [discriminate E|]. fold pk in E.
  destruct (spend_authorizations db !! pk) as [pred'|] eqn:Hp; [|discriminate E].
  destruct (negb _) eqn:Hc in E; [discriminate E|]. destruct (_ || _) eqn:Hl in E; [discriminate E|].
  injection E as ->. unfold revision_compatible in Hc. to_prop.
  unfold row_billed. split_and!; try reflexivity; try assumption; try lia; try exact (lo_rows _ _ _ _ I _ _ Hp).
  exact (proj2 (proj2 (proj2 (found_row _ _ _ _ _ I Hh Hp)))).
Qed.

Lemma row_ok_superseded k now pred : row_ok payee k pred -> au_State pred = AuthorizationAdmitted ->
  row_ok payee k (superseded now pred).
Proof.
  intros R Hst. destruct R. split; simpl; try assumption;
    unfold row_billed, row_reserved, row_max, row_price in *; simpl; autorewrite with money; intros; try lia.
  destruct ro_cap; [congruence|lia].
Qed.

Lemma row_ok_admitted seed db units billed reservation seq now :
  wf_seed seed db -> 0 <= units <= sd_MaxTotalUnits seed -> 0 <= seq < two64 -> 0 <= reservation ->
  billed = BillFor (parseDecimalBig (sd_PriceWei seed)) (sd_PerUnits seed) units ->
  billed + reservation <= parseDecimalBig (sd_MaxDebitWei seed) ->
  row_ok payee (wholesaleAuthorizationKey (sd_Payer seed) (sd_ID seed) (sd_WholesaleAccountID seed))
    (seed_row seed AuthorizationAdmitted units (dec_string billed) (dec_string reservation) seq now).
Proof.
  intros (Hpe & Hpr & Hper & Hmax & (Hp & Ha & _) & _) Hu Hseq Hr Hb Hcap.
  split; simpl; try assumption; try lia; try reflexivity; try done;
    unfold row_billed, row_reserved, row_max, row_price; simpl; autorewrite with money; try lia.
Qed.

(** An admitted row is filed on its own. *)
Lemma Inv_new_row db acc k auth :
  Inv db -> spend_authorizations db !! k = None -> row_ok payee k auth -> au_State auth = AuthorizationAdmitted ->
  row_account payee auth = account_key acc -> reserved acc + debited acc <= credited acc ->
  reserved acc = reserved (account_at (account_key acc) (wholesale_accounts db)) + row_reserved auth ->
  debited acc = debited (account_at (account_key acc) (wholesale_accounts db)) + row_billed auth ->
  Inv (putWholesaleAccount acc (with_spend_authorizations (<[k := auth]> (spend_authorizations db)) db)).
Proof.
  intros I Hk Hok Hst HK Hs Hr Hd.
  pose proof (fun K' => shares_insert payee (spend_authorizations db) k auth (account_key acc) K' HK
    ltac:(rewrite Hk; intros a [=])) as S.
  rewrite Hk, Hst in S. simpl in S. 
  apply ledger_ok_put; [exact I| |exact Hs| |].
  - intros k' a [[<- <-]|[_ Ha]]%lookup_insert_Some; [exact Hok|by apply (lo_rows _ _ _ _ I)].
  - intros K. rewrite (proj1 (S K)). destruct (bool_decide (K = _)); lia.
  - intros K. rewrite (proj2 (S K)). destruct (bool_decide (K = _)); lia.
Qed.

(** An admitted row replaces its predecessor, which is superseded. *)
Lemma Inv_revision db acc k auth pk pred now :
  Inv db -> spend_authorizations db !! k = None -> spend_authorizations db !! pk = Some pred ->
  row_ok payee k auth -> au_State auth = AuthorizationAdmitted -> au_State pred = AuthorizationAdmitted ->
  row_account payee pred = account_key acc -> row_account payee auth = account_key acc ->
  reserved acc + debited acc <= credited acc ->
  reserved acc = reserved (account_at (account_key acc) (wholesale_accounts db)) - row_reserved pred + row_reserved auth ->
  debited acc = debited (account_at (account_key acc) (wholesale_accounts db)) - row_billed pred + row_billed auth ->
  Inv (putWholesaleAccount acc (with_spend_authorizations
    (<[k := auth]> (<[pk := superseded now pred]> (spend_authorizations db))) db)).
Proof.
  intros I Hk Hpk Hok Hst Hpst HKp HK Hs Hr Hd.
  set (rows1 := <[pk := superseded now pred]> (spend_authorizations db)).
  assert (rows1 !! k = None) as Hk1.
  { subst rows1. rewrite lookup_insert_ne; [exact Hk|]. intros E'. congruence. }
  pose proof (fun K' => shares_insert payee (spend_authorizations db) pk (superseded now pred) (account_key acc) K'
    HKp ltac:(intros a; rewrite Hpk; intros [= <-]; exact HKp)) as S1.
  pose proof (fun K' => shares_insert payee rows1 k auth (account_key acc) K' HK
    ltac:(rewrite Hk1; intros a [=])) as S2.
  rewrite Hpk in S1. rewrite Hk1, Hst in S2. simpl in S1, S2. rewrite Hpst in S1.
  simpl in S1.
  fold rows1 in S1.
  assert (row_reserved (superseded now pred) = 0) as Hz by (by vm_compute). rewrite Hz in S1.
  apply ledger_ok_put; [exact I| |exact Hs| |].
  - intros k' a [[<- <-]|[_ Ha]]%lookup_insert_Some; [exact Hok|].
    apply lookup_insert_Some in Ha as [[<- <-]|[_ Ha]]; [|by apply (lo_rows _ _ _ _ I)].
    apply row_ok_superseded; [exact (lo_rows _ _ _ _ I _ _ Hpk)|exact Hpst].
  - intros K. rewrite (proj1 (S2 K)), (proj1 (S1 K)). destruct (bool_decide (K = _)); lia.
  - intros K. rewrite (proj2 (S2 K)), (proj2 (S1 K)). destruct (bool_decide (K = _)); lia.
Qed.

Lemma Inv_admit_reserve seed reservation now acc t db ss res ins db' :
  Inv db -> wf_seed seed db ->
  spend_authorizations db !! wholesaleAuthorizationKey (sd_Payer seed) (sd_ID seed) (sd_WholesaleAccountID seed) = None ->
  (let base := loadWholesaleAccount (sd_Payer seed) payee (sd_WholesaleAccountID seed) db in
   0 <= t /\ credited acc = credited base + t /\ account_key acc = account_key base /\
   reserved acc = reserved base /\ debited acc = debited base) ->
  admit_reserve seed reservation now acc t (with_sessions ss db) = Ok (res, ins, db') -> Inv db'.
Proof.
  intros I Hwf Hnone (Htr & Hc & Hk & Hr & Hd) E.
  destruct (load_spec db (sd_Payer seed) payee (sd_WholesaleAccountID seed) I) as (Lk & Lr & Ld & Lc & Ls).
  rewrite Lk in Hk. set (K := wholesaleAccountKey (sd_Payer seed) payee (sd_WholesaleAccountID seed)) in *.
  set (k := wholesaleAuthorizationKey (sd_Payer seed) (sd_ID seed) (sd_WholesaleAccountID seed)) in *.
  unfold admit_reserve in E. fold k in E. change (load_predecessor seed (with_sessions ss db)) with (load_predecessor seed db) in E.
  destruct (load_predecessor seed db) as [pred|] eqn:Hpred; [|discriminate E].
  set (units := default 0 (au_ActualUnits <$> pred)) in *. set (seq := default 0 (au_SettlementSeq <$> pred)) in *.
  set (billed := default 0 ((fun p => parseDecimalBig (au_BilledWei p)) <$> pred)) in *.
  set (oldR := default 0 ((fun p => parseDecimalBig (au_ReservedWei p)) <$> pred)) in *.
  set (amount := match reservation with None => _ | Some r => _ end) in *.
  destruct (_ || _) eqn:Hrange in E; [discriminate E|]. to_prop.
  assert (0 <= units <= sd_MaxTotalUnits seed /\ 0 <= seq < two64 /\
    billed = BillFor (parseDecimalBig (sd_PriceWei seed)) (sd_PerUnits seed) units) as (Hunits & Hseq & Hbill).
  { subst units seq billed. destruct pred as [pred|]; simpl.
    - destruct (load_predecessor_spec seed db pred I Hwf Hpred) as (_ & R & _ & _ & Ep & Eper & Hu & _).
      destruct R. unfold row_billed, row_price in *. rewrite Ep, Eper in *. split_and!; try assumption; lia.
    - rewrite BillFor_zero. unfold two64. destruct Hwf as (_ & _ & _ & ? & _). split_and!; lia. }
  pose proof (row_ok_admitted seed db units billed amount seq now Hwf Hunits Hseq ltac:(lia) Hbill ltac:(lia)) as Hnew.
  fold k in Hnew. set (auth := seed_row seed AuthorizationAdmitted units _ _ _ _) in *.
  destruct (Available acc + oldR <? amount) eqn:Hav in E.
  { destruct (0 <? t) in E; injection E as _ _ <-; [|exact I].
    refine (Inv_credit db (bump now acc) I _ _ _).
    - unfold reserved, debited, credited in *. simpl. lia.
    - change (account_key (bump now acc)) with (account_key acc). rewrite Hk, <- Lr. exact Hr.
    - change (account_key (bump now acc)) with (account_key acc). rewrite Hk, <- Ld. exact Hd. }
  to_prop. unfold Available in Hav.
  destruct pred as [pred|]; injection E as _ _ <-.
  - destruct (load_predecessor_spec seed db pred I Hwf Hpred) as (Hpk & R & HKp & Hst & _).
    refine (Inv_revision db _ k auth _ pred now I Hnone Hpk Hnew eq_refl Hst _ _ _ _ _).
    + rewrite HKp. symmetry. exact Hk.
    + symmetry. exact Hk.
    + unfold reserved, debited, credited in *. simpl. autorewrite with money. lia.
    + change (account_key _) with (account_key acc). rewrite Hk, <- Lr, <- Hr.
      unfold row_reserved, reserved. simpl. by autorewrite with money.
    + change (account_key _) with (account_key acc). rewrite Hk, <- Ld, <- Hd.
      unfold row_billed, debited. simpl. autorewrite with money. subst billed. simpl. lia.
  - refine (Inv_new_row db _ k auth I Hnone Hnew eq_refl _ _ _ _).
    + symmetry. exact Hk.
    + unfold reserved, debited, credited in *. simpl. autorewrite with money. subst oldR. simpl in *. lia.
    + change (account_key _) with (account_key acc). rewrite Hk, <- Lr, <- Hr.
      unfold row_reserved, reserved. simpl. by autorewrite with money.
    + change (account_key _) with (account_key acc). rewrite Hk, <- Ld, <- Hd.
      unfold row_billed, debited. simpl. autorewrite with money. subst billed. simpl. lia.
Qed.

Lemma row_ok_expired seed db now :
  wf_seed seed db ->
  row_ok payee (wholesaleAuthorizationKey (sd_Payer seed) (sd_ID seed) (sd_WholesaleAccountID seed))
    (seed_row seed AuthorizationExpiredUnused 0 "" "" 0 now).
Proof.
  intros (Hpe & Hpr & Hper & Hmax & (Hp & Ha & _) & _).
  split; simpl; try assumption; try lia; try reflexivity; try done;
    unfold row_billed, row_reserved, row_price; simpl; rewrite ?BillFor_zero; autorewrite with money; done.
Qed.

Lemma Inv_AdmitWholesale db seed w reservation now :
  Inv db -> wf_seed seed db -> Inv (AdmitWholesale seed w reservation now db).2.
Proof.
  intros I Hwf. unfold AdmitWholesale. destruct (_ || _); [exact I|]. unfold Update.
  destruct (AdmitWholesale_tx seed w reservation now db) as [[[res ins] db']|e] eqn:E; [|exact I].
  assert (Inv db'); [|by destruct ins]. unfold AdmitWholesale_tx in E.
  destruct (admission_fenced _ _ _); [|discriminate E].
  destruct (spend_authorizations db !! _) as [old|] eqn:Hrow.
  { destruct (negb _); [discriminate E|]. injection E as _ _ <-. exact I. }
  destruct (negb _).
  { injection E as _ _ <-. apply Inv_idle_row; [exact I|exact Hrow|by eapply row_ok_expired|done|done]. }
  rewrite (proj1 Hwf) in E.
  destruct (transfer_balance _ _ _ _ _) as [[[acc t] db1]|] eqn:Et; [|discriminate E].
  destruct (transfer_spec _ _ _ _ _ _ _ _ Et) as (ss & -> & Htr).
  exact (Inv_admit_reserve seed reservation now acc t db ss res ins db' I Hwf Hrow Htr E).
Qed.

(** ** Funding *)
Lemma Inv_credited db0 db p pe a now amount :
  Inv db -> wholesale_accounts db0 = wholesale_accounts db ->
  spend_authorizations db0 = spend_authorizations db -> wholesale_totals db0 = wholesale_totals db ->
  0 <= amount ->
  Inv (putWholesaleAccount (bump now (credit_account amount (loadWholesaleAccount p pe a db0))) db0).
Proof.
  intros I E1 E2 E3 Hamt.
  assert (Inv db0) as I0 by (unfold Inv, WholesaleInv.Inv; rewrite E1, E2, E3; exact I).
  destruct (load_spec db0 p pe a I0) as (Lk & Lr & Ld & Lc & Ls).
  set (base := loadWholesaleAccount p pe a db0) in *.
  apply Inv_credit; [exact I0| | |].
  - unfold reserved, debited, credited, credit_account in *. simpl. autorewrite with money. lia.
  - change (account_key _) with (account_key base). rewrite Lk. exact Lr.
  - change (account_key _) with (account_key base). rewrite Lk. exact Ld.
Qed.

(** Funding from a session; a negative session balance is not funding. *)
Definition fundable (payer fundingWorkID : string) db : Prop :=
  forall sess, sessions db !! compositeKey payer fundingWorkID = Some sess ->
    0 <= parseDecimalBig (s_BalanceWei sess).

Lemma Inv_FundWholesale db p pe w now a :
  Inv db -> fundable p w db -> Inv (FundWholesale p pe w now a db).2.
Proof.
  intros I Hf. unfold FundWholesale. destruct (_ || _); [exact I|]. destruct (negb _); [exact I|].
  unfold Update. destruct (sessions db !! _) as [sess|] eqn:E; [|exact I].
  destruct (_ =? 0); [exact I|].
  refine (Inv_credited (with_sessions _ db) db p pe a now _ I eq_refl eq_refl eq_refl _). by apply Hf.
Qed.

Lemma apply_tickets_frame rand tickets credit db credit' db' :
  apply_tickets rand tickets credit db = Ok (credit', db') ->
  credit <= credit' /\ wholesale_accounts db' = wholesale_accounts db /\
  spend_authorizations db' = spend_authorizations db /\ wholesale_totals db' = wholesale_totals db.
Proof.
  revert credit db. induction tickets as [|t ts IH]; intros credit db E; simpl in E.
  - injection E as <- <-. split_and!; [lia|reflexivity..].
  - destruct (ft_Credit t) as [c|]; [|discriminate E]. destruct (Z.leb_spec c 0); [discriminate E|].
    unfold Nonces.recordNonce in E. destruct (nonces db !! _); [discriminate E|].
    destruct (Nonces.count_below_cap _ _); [|discriminate E].
    destruct (ft_Winner t) as [win|].
    + unfold enqueueRedemption in E.
      destruct (bool_decide _) in E; [|destruct (bool_decide _) in E];
        apply IH in E as (? & -> & -> & ->); (split_and!; [lia|reflexivity..]).
    + apply IH in E as (? & -> & -> & ->). split_and!; [lia|reflexivity..].
Qed.

Lemma Inv_ApplyWholesaleFunding db p pe a w fid tickets now :
  Inv db -> Inv (ApplyWholesaleFunding p pe a w fid tickets now db).2.
Proof.
  intros I. unfold ApplyWholesaleFunding. destruct (_ || _); [exact I|]. unfold Update.
  destruct (opt_bucket (wholesale_funding_receipts db) !! fid) as [r|].
  { destruct (negb _); exact I. }
  unfold apply_funding. simpl. destruct (sessions db !! _) as [sess|]; [|exact I].
  destruct (s_Closed sess); [exact I|]. destruct (_ || _); [exact I|].
  destruct (SetString10 _) as [rand|]; [|exact I].
  destruct (apply_tickets _ _ _ _) as [[credit db1]|] eqn:E; [|exact I].
  apply apply_tickets_frame in E as (Hc & E1 & E2 & E3).
  exact (Inv_credited db1 db p pe a now credit I E1 E2 E3 Hc).
Qed.

(** ** Fences *)
Lemma row_ok_closed k now a : row_ok payee k a -> au_State a = AuthorizationAdmitted ->
  au_ActualUnits a = 0 -> au_SettlementSeq a <> two64 - 1 -> row_ok payee k (close_row now a).
Proof.
  intros R Hst Hu Hseq. pose proof (row_billed_nonneg payee k a R) as Hb. destruct R. split; simpl; try assumption;
    unfold row_billed, row_reserved, row_max, row_price in *; simpl; autorewrite with money; intros; try lia;
    rewrite ?Hu, ?BillFor_zero; try reflexivity; try apply u64_range.
  destruct ro_cap; [congruence|lia].
Qed.

Lemma Inv_CloseUnexecuted db now now' p pe id reason a :
  Inv db -> honest p id a db -> Inv (CloseUnexecutedAuthorization now now' p pe id reason a db).2.
Proof.
  intros I Hh. unfold CloseUnexecutedAuthorization. destruct (_ || _); [exact I|]. unfold Update.
  destruct (opt_bucket (unexecuted_fences db) !! _); [exact I|]. simpl.
  destruct (spend_authorizations db !! _) as [old|] eqn:Hrow; [|exact I].
  destruct (found_row _ _ _ _ _ I Hh Hrow) as (Hp & Hid & Ha & HK).
  pose proof (lo_rows _ _ _ _ I _ _ Hrow) as R. unfold close_existing.
  destruct (negb (bool_decide (au_Payee old = pe)) || _ || _) eqn:Hg; [exact I|]. to_prop.
  assert (pe = payee) as -> by (rewrite <- (ro_payee _ _ _ R); congruence).
  destruct (au_State old) eqn:Hst; try exact I.
  set (db0 := with_unexecuted_fences _ db).
  change (loadWholesaleAccount p payee a db0) with (loadWholesaleAccount p payee a db).
  destruct (load_spec db p payee a I) as (Lk & Lr & Ld & Lc & Ls). set (base := loadWholesaleAccount p payee a db) in *.
  destruct (_ || _) eqn:Hg2; [exact I|]. to_prop. simpl.
  refine (Inv_row db _ _ old (close_row now old) I Hrow _ _ _ _ _ _ _ _).
  - apply row_ok_closed; assumption || lia.
  - congruence.
  - discriminate.
  - rewrite HK. symmetry. exact Lk.
  - unfold row_account. simpl. rewrite Hp, Ha. symmetry. exact Lk.
  - unfold reserved, debited, credited in *. simpl. autorewrite with money. lia.
  - change (account_key _) with (account_key base). rewrite Lk, <- Lr.
    unfold reserved, row_reserved. simpl. autorewrite with money. lia.
  - change (account_key _) with (account_key base). rewrite Lk, <- Ld.
    unfold debited, row_billed. simpl. autorewrite with money. lia.
Qed.

Lemma Inv_Cancel db now p pe id fp a : Inv db -> Inv (CancelAuthorizationAdmission now p pe id fp a db).2.
Proof.
  intros I. unfold CancelAuthorizationAdmission. destruct (_ || _); [exact I|]. unfold Update.
  destruct (spend_authorizations db !! _) as [old|]; [destruct (_ || _); exact I|].
  destruct (canceledAdmissionIn _ _); [destruct (negb _); exact I|exact I].
Qed.

Lemma Inv_FreezeSource db now reason : Inv db -> Inv (FreezeSource now reason db).2.
Proof.
  intros I. unfold FreezeSource. destruct (bool_decide _); [exact I|]. unfold Update.
  destruct (source_fence db) as [b|]; [destruct (fence_state b); exact I|]. destruct (negb _); exact I.
Qed.

Lemma Inv_InitSettlementDomain db rand conf chain pe : Inv db -> Inv (InitSettlementDomain rand conf chain pe db).2.
Proof.
  intros I. unfold InitSettlementDomain. destruct (_ && _); [exact I|]. unfold Update.
  destruct (match settlement_domain db with Some b => _ | None => _ end); [|exact I]. simpl.
  destruct I as [I1 I2 I3 I4 I5 I6 I7 I8].
  assert (totals_in (<[formatKey := FormatMarker]> (wholesale_totals db)) = totals_in (wholesale_totals db)) as Et.
  { unfold totals_in. by rewrite lookup_insert_ne. }
  split; simpl; rewrite ?Et; assumption.
Qed.

End steps.
