(* ===== verification/WholesaleSpec.v ===== *)
(** * What the wholesale ledger promises

    The ledger as a state machine: [ledger_step] has one rule per operation
    that touches accounts, authorizations or fences and a frame rule for the
    rest of the store; every reachable state satisfies the invariant, and the
    promises to payer and payee follow. *)
From S2P Require Import Prelude.
From S2P Require Import GoBytes.
From S2P Require Import GoCodecs.
From S2P Require Import Bolt.
From S2P Require Import Ledger.
From S2P Require Import Billing.
From S2P Require Import Nonces.
From S2P Require Import Sessions.
From S2P Require Import Redemptions.
From S2P Require Import Wholesale.
From S2P Require Import Fences.
From S2P Require Import Funding.
From S2P Require Import WholesaleInv.
From S2P Require Import WholesaleSteps.

Section spec.
Context `{Bolt M} (payee : string).
Implicit Types (db : DB M).

(** ** The state machine *)

(** The buckets the wholesale ledger lives in are untouched. *)
Definition same_wholesale db db' : Prop :=
  wholesale_accounts db' = wholesale_accounts db /\ spend_authorizations db' = spend_authorizations db /\
  wholesale_totals db' = wholesale_totals db /\ unexecuted_fences db' = unexecuted_fences db /\
  canceled_admissions db' = canceled_admissions db.

Inductive ledger_step : DB M -> DB M -> Prop :=
  | step_admit db seed w reservation now :
      wf_seed payee seed db -> ledger_step db (AdmitWholesale seed w reservation now db).2
  | step_advance db p pe id units target seq w now a :
      honest p id a db -> 0 <= units -> 0 <= seq < two64 ->
      ledger_step db (AdvanceWholesale p pe id units target seq w now a db).2
  | step_settle db p pe id units seq now a :
      honest p id a db -> 0 <= units -> 0 <= seq < two64 ->
      ledger_step db (SettleWholesale p pe id units seq now a db).2
  | step_close db now now' p pe id reason a :
      honest p id a db -> ledger_step db (CloseUnexecutedAuthorization now now' p pe id reason a db).2
  | step_cancel db now p pe id fp a :
      ledger_step db (CancelAuthorizationAdmission now p pe id fp a db).2
  | step_fund db p pe w now a :
      fundable p w db -> ledger_step db (FundWholesale p pe w now a db).2
  | step_apply_funding db p pe a w fid tickets now :
      ledger_step db (ApplyWholesaleFunding p pe a w fid tickets now db).2
  | step_freeze db now reason : ledger_step db (FreezeSource now reason db).2
  | step_init_domain db rand conf chain pe : ledger_step db (InitSettlementDomain rand conf chain pe db).2
  | step_frame db db' : same_wholesale db db' -> ledger_step db db'.

Definition reachable db : Prop := rtc ledger_step Open db.

Lemma Inv_step db db' : ledger_step db db' -> Inv payee db -> Inv payee db'.
Proof.
  destruct 1 as [| | | | | | | | |db db' (E1 & E2 & E3 & _)]; intros I.
  - by apply Inv_AdmitWholesale.
  - by apply Inv_AdvanceWholesale.
  - by apply Inv_SettleWholesale.
  - by apply Inv_CloseUnexecuted.
  - by apply Inv_Cancel.
  - by apply Inv_FundWholesale.
  - by apply Inv_ApplyWholesaleFunding.
  - by apply Inv_FreezeSource.
  - by apply Inv_InitSettlementDomain.
  - unfold Inv. rewrite E1, E2, E3. exact I.
Qed.

Lemma reachable_Inv db : reachable db -> Inv payee db.
Proof.
  unfold reachable. intros Hr. assert (forall d, rtc ledger_step d db -> Inv payee d -> Inv payee db) as Hgen.
  { intros d. induction 1 as [|x y z Hxy _ IH]; [done|]. intros I. by apply IH, (Inv_step x). }
  by apply (Hgen Open), Inv_Open.
Qed.

(** The session, nonce and queue operations fall under the frame rule. *)
Lemma frame_DebitBalance s w u q db : same_wholesale db (DebitBalance s w u q db).2.
Proof.
  unfold DebitBalance, Update, DebitBalance_tx, debit_session. by repeat case_match; simplify_eq.
Qed.
Lemma frame_CreditBalance s w c db : same_wholesale db (CreditBalance s w c db).2.
Proof. unfold CreditBalance, Update, mutate. by repeat case_match; simplify_eq. Qed.
Lemma frame_GetOrCreate now key seed db : same_wholesale db (GetOrCreateTicketSession now key seed db).2.
Proof. unfold GetOrCreateTicketSession, live_indexed. by repeat case_match; simplify_eq. Qed.
Lemma frame_CloseSession now s w db : same_wholesale db (CloseSession now s w db).2.
Proof. unfold CloseSession, Update, CloseSession_tx. by repeat case_match; simplify_eq. Qed.
Lemma frame_RecordNonce r n db : same_wholesale db (RecordNonce r n db).2.
Proof. rewrite RecordNonce_spec. by repeat case_match. Qed.
Lemma frame_EnqueueRedemption h t db : same_wholesale db (EnqueueRedemption h t db).2.
Proof. unfold EnqueueRedemption, Update, enqueueRedemption. by repeat case_match; simplify_eq. Qed.
Lemma frame_markRedeemed h tx t r ev reason db : same_wholesale db (markRedeemed h tx t r ev reason db).2.
Proof. unfold markRedeemed, Update. by repeat case_match; simplify_eq. Qed.

(** ** Promises about every reachable state *)

(** C1: No account is ever overdrawn: in every reachable state of the ledger,
    whatever the interleaving of admissions, advances, settlements, fundings,
    closes and cancellations, each account's reserved and debited amounts are
    not negative and together never exceed what was credited. *)
Theorem wholesale_accounts_solvent db p pe a :
  reachable db ->
  let acc := GetWholesaleAccount p pe a db in
  0 <= reserved acc /\ 0 <= debited acc /\ reserved acc + debited acc <= credited acc /\ 0 <= Available acc.
Proof.
  intros I%reachable_Inv acc. destruct (load_spec payee db p pe a I) as (_ & Hr & Hd & _ & Hs).
  fold (GetWholesaleAccount p pe a db) in Hr, Hd, Hs. fold acc in Hr, Hd, Hs.
  rewrite (lo_reserved _ _ _ _ I) in Hr. rewrite (lo_debited _ _ _ _ I) in Hd.
  pose proof (msum_nonneg (res_share payee (wholesaleAccountKey p pe a)) (spend_authorizations db)
    (fun k r => res_share_nonneg payee _ _ k r (lo_rows _ _ _ _ I))).
  pose proof (msum_nonneg (bill_share payee (wholesaleAccountKey p pe a)) (spend_authorizations db)
    (fun k r => bill_share_nonneg payee _ _ k r (lo_rows _ _ _ _ I))).
  unfold Available. unfold reserved, debited, credited in *. lia.
Qed.

(** C2: The books balance: in every reachable state an account's reserved
    amount is the sum of what its admitted authorizations reserve, and its
    debited amount is the sum of what its authorizations have billed, each
    chain of revisions counted once. *)
Theorem wholesale_books_balance db p a :
  reachable db ->
  let acc := GetWholesaleAccount p payee a db in
  let K := wholesaleAccountKey p payee a in
  reserved acc = msum (fun _ r => if bool_decide (row_account payee r = K) &&
                                     bool_decide (au_State r = AuthorizationAdmitted)
                                  then row_reserved r else 0) (spend_authorizations db) /\
  debited acc = msum (bill_share payee K) (spend_authorizations db).
Proof.
  intros I%reachable_Inv acc K. destruct (load_spec payee db p payee a I) as (_ & Hr & Hd & _).
  fold (GetWholesaleAccount p payee a db) in Hr, Hd. fold acc K in Hr, Hd.
  rewrite Hr, Hd, (lo_reserved _ _ _ _ I), (lo_debited _ _ _ _ I). split; [|reflexivity].
  apply msum_ext. intros k r Hk. pose proof (ro_idle _ _ _ (lo_rows _ _ _ _ I _ _ Hk)) as Hi.
  unfold res_share. destruct (bool_decide (row_account payee r = K)); [|reflexivity]. simpl.
  destruct (decide (au_State r = AuthorizationAdmitted)) as [Hs|Hs].
  - by rewrite bool_decide_true.
  - by rewrite bool_decide_false, Hi.
Qed.

(** C9: No authorization is billed off its price or past its caps: in every
    reachable state a stored authorization's bill is exactly the ceiling price
    of its units, and (unless it expired unused) bill plus reservation stay
    within its signed maximum debit and its units within the signed maximum;
    a non-admitted one reserves nothing. *)
Theorem authorization_within_caps db p id a r :
  reachable db -> GetWholesaleAuthorization p id a db = Ok r -> au_State r <> AuthorizationCanceledUnused ->
  row_billed r = BillFor (row_price r) (au_PerUnits r) (au_ActualUnits r) /\
  (au_State r <> AuthorizationExpiredUnused ->
     row_billed r + row_reserved r <= row_max r /\ au_ActualUnits r <= au_MaxTotalUnits r) /\
  (au_State r <> AuthorizationAdmitted -> row_reserved r = 0).
Proof.
  intros I%reachable_Inv Hg Hc. unfold GetWholesaleAuthorization in Hg.
  destruct (spend_authorizations db !! _) as [r'|] eqn:E.
  - injection Hg as <-. pose proof (lo_rows _ _ _ _ I _ _ E) as R. destruct R. done.
  - destruct (canceledAdmissionIn _ db); [|discriminate Hg]. injection Hg as <-. contradiction.
Qed.

(** The exposure totals are exact: in every reachable state the three
    totals are the sums over all accounts, so the payee-wide available amount is
    the sum of the accounts' available amounts and never negative. *)
Theorem wholesale_totals_exact db :
  reachable db ->
  let t := GetWholesaleTotals db in
  parseDecimalBig (tot_CreditedWei t) = msum (fun _ a => credited a) (wholesale_accounts db) /\
  parseDecimalBig (tot_ReservedWei t) = msum (fun _ a => reserved a) (wholesale_accounts db) /\
  parseDecimalBig (tot_DebitedWei t) = msum (fun _ a => debited a) (wholesale_accounts db) /\
  0 <= TotalsAvailable t.
Proof.
  intros I%reachable_Inv t. pose proof (lo_tot_credited _ _ _ _ I) as E1.
  pose proof (lo_tot_reserved _ _ _ _ I) as E2. pose proof (lo_tot_debited _ _ _ _ I) as E3.
  change (totals_in (wholesale_totals db)) with t in E1, E2, E3.
  split_and!; [exact E1|exact E2|exact E3|]. unfold TotalsAvailable. rewrite E1, E2, E3.
  assert (0 <= msum (fun _ a => credited a - (reserved a + debited a)) (wholesale_accounts db)) as Hn.
  { apply msum_nonneg. intros K acc Hk. pose proof (lo_solvent _ _ _ _ I _ _ Hk). lia. }
  clear -Hn. revert Hn.
  assert (forall m : M WholesaleAccount, msum (fun _ a => credited a - (reserved a + debited a)) m =
    msum (fun _ a => credited a) m - (msum (fun _ a => reserved a) m + msum (fun _ a => debited a) m)) as ->; [|lia].
  induction m as [|k x m Hk IH] using map_ind; [by rewrite !msum_empty|].
  rewrite !msum_insert_new by done. lia.
Qed.

(** ** Fences *)
Definition fenced (k : string) db : bool :=
  bool_decide (is_Some (canceledAdmissionIn k db)) ||
  bool_decide (is_Some (opt_bucket (unexecuted_fences db) !! k)).

(** A row changes only while it is admitted, and appears only unfenced. *)
Definition rows_evolve db db' : Prop :=
  forall k r', spend_authorizations db' !! k = Some r' ->
    spend_authorizations db !! k = Some r' \/
    (exists r, spend_authorizations db !! k = Some r /\ au_State r = AuthorizationAdmitted) \/
    (spend_authorizations db !! k = None /\ fenced k db = false).

Lemma rows_evolve_refl db : rows_evolve db db.
Proof. by left. Qed.

Lemma rows_evolve_same db db' : spend_authorizations db' = spend_authorizations db -> rows_evolve db db'.
Proof. intros E k r'. rewrite E. by left. Qed.

(** A row is written over an admitted one. *)
Lemma rows_evolve_put db db' k r new acc db0 :
  spend_authorizations db !! k = Some r -> au_State r = AuthorizationAdmitted ->
  spend_authorizations db0 = spend_authorizations db ->
  db' = putWholesaleAccount acc (with_spend_authorizations (<[k := new]> (spend_authorizations db0)) db0) ->
  rows_evolve db db'.
Proof.
  intros Hk Hst E -> k' r'. simpl. rewrite E. intros [[<- <-]|[_ Hr]]%lookup_insert_Some; [|by left].
  right. left. eauto.
Qed.

Lemma admission_unfenced k fp db : admission_fenced k fp db = Ok tt -> fenced k db = false.
Proof.
  unfold admission_fenced, fenced. destruct (canceledAdmissionIn k db); [by destruct (negb _)|].
  rewrite bool_decide_false by (by intros []). simpl. unfold opt_bucket.
  destruct (unexecuted_fences db) as [f|]; simpl.
  - by destruct (bool_decide _).
  - intros _. rewrite lookup_empty. apply bool_decide_false. by intros [].
Qed.

Lemma load_predecessor_found seed db pred :
  load_predecessor seed db = Ok (Some pred) ->
  spend_authorizations db !!
    wholesaleAuthorizationKey (sd_Payer seed) (sd_PredecessorID seed) (sd_WholesaleAccountID seed) = Some pred /\
  au_State pred = AuthorizationAdmitted.
Proof.
  unfold load_predecessor. destruct (bool_decide _); [discriminate|].
  destruct (spend_authorizations db !! _) as [p'|]; [|discriminate].
  destruct (negb _) eqn:Hc; [discriminate|]. destruct (_ || _); [discriminate|]. intros [= ->].
  unfold revision_compatible in Hc. to_prop. done.
Qed.

Lemma rows_evolve_admit db seed w reservation now : rows_evolve db (AdmitWholesale seed w reservation now db).2.
Proof.
  unfold AdmitWholesale. destruct (_ || _); [apply rows_evolve_refl|]. unfold Update.
  destruct (AdmitWholesale_tx seed w reservation now db) as [[[res ins] db']|e] eqn:E;
    [|apply rows_evolve_refl].
  assert (rows_evolve db db'); [|by destruct ins]. unfold AdmitWholesale_tx in E.
  destruct (admission_fenced _ _ _) as [[]|] eqn:Hf; [|discriminate E]. apply admission_unfenced in Hf.
  destruct (spend_authorizations db !! _) as [old|] eqn:Hrow.
  { destruct (negb _); [discriminate E|]. injection E as _ _ <-. apply rows_evolve_refl. }
  destruct (negb _).
  { injection E as _ _ <-. intros k' r'. simpl. intros [[<- <-]|[_ Hr]]%lookup_insert_Some; [|by left]. eauto. }
  destruct (transfer_balance _ _ _ _ _) as [[[acc t] db1]|] eqn:Et; [|discriminate E].
  destruct (transfer_spec _ _ _ _ _ _ _ _ Et) as (ss & -> & _).
  unfold admit_reserve in E.
  destruct (load_predecessor seed (with_sessions ss db)) as [pred|] eqn:Hp; [|discriminate E].
  destruct (_ || _) in E; [discriminate E|]. destruct (_ <? _) in E.
  { destruct (0 <? t); injection E as _ _ <-; by apply rows_evolve_same. }
  destruct pred as [pred|]; injection E as _ _ <-; intros k' r'; simpl.
  - intros [[<- <-]|[_ Hr]]%lookup_insert_Some; [eauto|].
    apply lookup_insert_Some in Hr as [[<- <-]|[_ Hr]]; [|by left]. right. left.
    exists pred. exact (load_predecessor_found _ _ _ Hp).
  - intros [[<- <-]|[_ Hr]]%lookup_insert_Some; eauto.
Qed.

Lemma rows_evolve_advance db p pe id units target seq w now a :
  rows_evolve db (AdvanceWholesale p pe id units target seq w now a db).2.
Proof.
  unfold AdvanceWholesale. destruct target as [target|]; [|apply rows_evolve_refl].
  destruct (_ || _); [apply rows_evolve_refl|]. unfold Update.
  destruct (AdvanceWholesale_tx p pe id units target seq w now a db) as [[res db']|e] eqn:E;
    [|apply rows_evolve_refl]. simpl. unfold AdvanceWholesale_tx in E.
  destruct (opt_bucket (wholesale_advance_history db) !! _) as [prev|].
  { unfold advance_replay in E. destruct (_ || _); [discriminate E|]. injection E as _ <-. by apply rows_evolve_same. }
  simpl in E. destruct (spend_authorizations db !! _) as [old|] eqn:Hrow; [|discriminate E].
  destruct (negb (bool_decide (au_Payee old = pe)) || _ || _) eqn:Hg; [discriminate E|]. to_prop.
  destruct (negb _); [discriminate E|]. destruct (seq <? _); [discriminate E|].
  destruct (seq =? _).
  { destruct (_ || _); [discriminate E|]. injection E as _ <-. by apply rows_evolve_same. }
  destruct (transfer_balance _ _ _ _ _) as [[[acc t] db1]|] eqn:Et; [|discriminate E].
  destruct (transfer_spec _ _ _ _ _ _ _ _ Et) as (ss & -> & _). unfold advance_apply in E.
  destruct (_ || _) in E; [discriminate E|]. destruct (_ <? target); [discriminate E|].
  destruct (Available acc + _ <? _); [discriminate E|]. injection E as _ <-.
  intros k' r'. simpl. intros [[<- <-]|[_ Hr]]%lookup_insert_Some; [|by left]. right. left. eauto.
Qed.

Lemma rows_evolve_settle db p pe id units seq now a : rows_evolve db (SettleWholesale p pe id units seq now a db).2.
Proof.
  unfold SettleWholesale, Update.
  destruct (SettleWholesale_tx p pe id units seq now a db) as [[res db']|e] eqn:E; [|apply rows_evolve_refl]. simpl.
  unfold SettleWholesale_tx in E.
  destruct (spend_authorizations db !! _) as [old|] eqn:Hrow; [|discriminate E].
  destruct (negb _); [discriminate E|].
  destruct (bool_decide (au_State old = AuthorizationSettled)).
  { destruct (_ || _); [discriminate E|]. injection E as _ <-. apply rows_evolve_refl. }
  destruct (negb _ || _) eqn:Hg in E; [discriminate E|].
  destruct (seq <=? au_SettlementSeq old); [discriminate E|].
  destruct (parseDecimalBig (au_MaxDebitWei old) <? _); [discriminate E|].
  destruct (_ <? parseDecimalBig (au_BilledWei old)); [discriminate E|].
  destruct (parseDecimalBig (au_ReservedWei old) <? _); [discriminate E|].
  injection E as _ <-. to_prop. by eapply (rows_evolve_put db _ _ old).
Qed.

Lemma rows_evolve_close db now now' p pe id reason a :
  rows_evolve db (CloseUnexecutedAuthorization now now' p pe id reason a db).2.
Proof.
  unfold CloseUnexecutedAuthorization. destruct (_ || _); [apply rows_evolve_refl|]. unfold Update.
  destruct (opt_bucket (unexecuted_fences db) !! _); [by apply rows_evolve_same|]. simpl.
  destruct (spend_authorizations db !! _) as [old|] eqn:Hrow; [|by apply rows_evolve_same].
  unfold close_existing. destruct (_ || _); [apply rows_evolve_refl|].
  destruct (au_State old) eqn:Hst; try (by apply rows_evolve_same).
  destruct (_ || _); [apply rows_evolve_refl|]. simpl.
  intros k' r'. simpl. intros [[<- <-]|[_ Hr]]%lookup_insert_Some; [|by left]. right. left. eauto.
Qed.

Lemma rows_evolve_apply_funding db p pe a w fid tickets now :
  rows_evolve db (ApplyWholesaleFunding p pe a w fid tickets now db).2.
Proof.
  unfold ApplyWholesaleFunding. destruct (_ || _); [apply rows_evolve_refl|]. unfold Update.
  destruct (opt_bucket (wholesale_funding_receipts db) !! fid) as [r|].
  { destruct (negb _); by apply rows_evolve_same. }
  unfold apply_funding. simpl. destruct (sessions db !! _) as [sess|]; [|apply rows_evolve_refl].
  destruct (s_Closed sess); [apply rows_evolve_refl|]. destruct (_ || _); [apply rows_evolve_refl|].
  destruct (SetString10 _) as [rand|]; [|apply rows_evolve_refl].
  destruct (apply_tickets _ _ _ _) as [[credit db1]|] eqn:E; [|apply rows_evolve_refl].
  apply apply_tickets_frame in E as (_ & _ & E2 & _). by apply rows_evolve_same.
Qed.

Lemma ledger_step_rows db db' : ledger_step db db' -> rows_evolve db db'.
Proof.
  destruct 1 as [| | | | | | | | |db db' (_ & E & _)].
  - apply rows_evolve_admit.
  - apply rows_evolve_advance.
  - apply rows_evolve_settle.
  - apply rows_evolve_close.
  - apply rows_evolve_same. unfold CancelAuthorizationAdmission, Update. by repeat case_match; simplify_eq.
  - apply rows_evolve_same. unfold FundWholesale, Update. by repeat case_match; simplify_eq.
  - apply rows_evolve_apply_funding.
  - apply rows_evolve_same. unfold FreezeSource, Update. by repeat case_match; simplify_eq.
  - apply rows_evolve_same. unfold InitSettlementDomain, Update. by repeat case_match; simplify_eq.
  - by apply rows_evolve_same.
Qed.

(** Both fence buckets only grow. *)
Definition same_fences db db' : Prop :=
  unexecuted_fences db' = unexecuted_fences db /\ canceled_admissions db' = canceled_admissions db.

Lemma same_fences_admit db seed w reservation now : same_fences db (AdmitWholesale seed w reservation now db).2.
Proof.
  unfold AdmitWholesale, Update, AdmitWholesale_tx, transfer_balance, admit_reserve.
  repeat (case_match; simplify_eq; try done).
Qed.

Lemma same_fences_advance db p pe id units target seq w now a :
  same_fences db (AdvanceWholesale p pe id units target seq w now a db).2.
Proof.
  unfold AdvanceWholesale, Update, AdvanceWholesale_tx, advance_replay, transfer_balance, advance_apply.
  repeat (case_match; simplify_eq; try done).
Qed.

Lemma same_fences_settle db p pe id units seq now a : same_fences db (SettleWholesale p pe id units seq now a db).2.
Proof. unfold SettleWholesale, Update, SettleWholesale_tx. repeat (case_match; simplify_eq; try done). Qed.

Lemma apply_tickets_fences rand tickets credit db credit' db' :
  apply_tickets rand tickets credit db = Ok (credit', db') -> same_fences db db'.
Proof.
  revert credit db. induction tickets as [|t ts IH]; intros credit db E; simpl in E; [by simplify_eq|].
  unfold Nonces.recordNonce, enqueueRedemption in E.
  repeat (case_match; simplify_eq); exact (IH _ _ E).
Qed.

Lemma same_fences_apply_funding db p pe a w fid tickets now :
  same_fences db (ApplyWholesaleFunding p pe a w fid tickets now db).2.
Proof.
  unfold ApplyWholesaleFunding. destruct (_ || _); [done|]. unfold Update.
  destruct (opt_bucket (wholesale_funding_receipts db) !! fid); [by destruct (negb _)|].
  unfold apply_funding. simpl. destruct (sessions db !! _); [|done].
  destruct (s_Closed _); [done|]. destruct (_ || _); [done|]. destruct (SetString10 _); [|done].
  destruct (apply_tickets _ _ _ _) as [[credit db1]|] eqn:E; [|done].
  by apply apply_tickets_fences in E.
Qed.

Definition canceled_at (k : string) db : Prop := is_Some (canceledAdmissionIn k db).
Definition closed_at_key (k : string) db : Prop := is_Some (opt_bucket (unexecuted_fences db) !! k).

Lemma same_fences_mono k db db' : same_fences db db' ->
  (canceled_at k db -> canceled_at k db') /\ (closed_at_key k db -> closed_at_key k db').
Proof. unfold canceled_at, closed_at_key, canceledAdmissionIn. by intros [-> ->]. Qed.

Lemma fences_mono_close k db now now' p pe id reason a :
  let db' := (CloseUnexecutedAuthorization now now' p pe id reason a db).2 in
  (canceled_at k db -> canceled_at k db') /\ (closed_at_key k db -> closed_at_key k db').
Proof.
  unfold CloseUnexecutedAuthorization. destruct (_ || _); [done|]. unfold Update.
  destruct (opt_bucket (unexecuted_fences db) !! _) eqn:E; [done|].
  match goal with |- context [let! _ := ?m in _] => destruct m as [tx|] eqn:Em end; [|done].
  assert (canceled_admissions tx = canceled_admissions db) as Ec.
  { unfold close_existing in Em. by repeat (case_match; simplify_eq). }
  unfold canceled_at, closed_at_key, canceledAdmissionIn. simpl. rewrite Ec. split; [done|].
  intros Hk. unfold opt_bucket at 1. simpl. apply lookup_insert_is_Some'. by right.
Qed.

Lemma fences_mono_cancel k db now p pe id fp a :
  let db' := (CancelAuthorizationAdmission now p pe id fp a db).2 in
  (canceled_at k db -> canceled_at k db') /\ (closed_at_key k db -> closed_at_key k db').
Proof.
  unfold CancelAuthorizationAdmission. destruct (_ || _); [done|]. unfold Update.
  destruct (spend_authorizations db !! _); [by destruct (_ || _)|].
  set (kk := wholesaleAuthorizationKey p id a).
  unfold canceled_at, closed_at_key, canceledAdmissionIn. simpl.
  destruct (canceled_admissions db) as [f|] eqn:Ef; simpl.
  - destruct (f !! kk) as [prior|]; [destruct (negb (bool_decide (ca_Fingerprint prior = fp))); simpl; rewrite ?Ef; tauto|]. simpl.
    split; [|done]. intros Hk. apply lookup_insert_is_Some'. by right.
  - split; [by intros []|]. destruct (_ !! kk) as [prior|]; [|done].
    destruct (negb (bool_decide (ca_Fingerprint prior = fp))); simpl; tauto.
Qed.

Lemma fences_mono k db db' : ledger_step db db' ->
  (canceled_at k db -> canceled_at k db') /\ (closed_at_key k db -> closed_at_key k db').
Proof.
  destruct 1 as [| | | | | | | | |db db' (_ & _ & _ & E1 & E2)].
  - apply same_fences_mono, same_fences_admit.
  - apply same_fences_mono, same_fences_advance.
  - apply same_fences_mono, same_fences_settle.
  - apply fences_mono_close.
  - apply fences_mono_cancel.
  - apply same_fences_mono. unfold FundWholesale, Update. by repeat case_match; simplify_eq.
  - apply same_fences_mono, same_fences_apply_funding.
  - apply same_fences_mono. unfold FreezeSource, Update. by repeat case_match; simplify_eq.
  - apply same_fences_mono. unfold InitSettlementDomain, Update. by repeat case_match; simplify_eq.
  - by apply same_fences_mono.
Qed.

(** A fenced identity stays out: no admitted row, now or later. *)
Definition shut (k : string) db : Prop :=
  fenced k db = true /\ (forall r, spend_authorizations db !! k = Some r -> au_State r <> AuthorizationAdmitted).

Lemma fenced_cases k db : fenced k db = true <-> canceled_at k db \/ closed_at_key k db.
Proof. unfold fenced. rewrite orb_true_iff, !bool_decide_eq_true. done. Qed.

Lemma shut_step k db db' : ledger_step db db' -> shut k db -> shut k db'.
Proof.
  intros Hstep [Hf Hr]. pose proof (fences_mono k db db' Hstep) as [H1 H2].
  pose proof (ledger_step_rows db db' Hstep) as Hev. split.
  - rewrite fenced_cases in *. tauto.
  - intros r Hk. destruct (Hev k r Hk) as [Hold|[(r0 & Hold & Hst)|[_ Hun]]].
    + by apply Hr.
    + by apply Hr in Hold.
    + rewrite Hf in Hun. discriminate Hun.
Qed.

Lemma shut_run k db db' : rtc ledger_step db db' -> shut k db -> shut k db'.
Proof. induction 1 as [|x y z Hxy _ IH]; [done|]. intros Hs. by apply IH, (shut_step k x). Qed.

Lemma shut_refuses seed w reservation now db :
  shut (wholesaleAuthorizationKey (sd_Payer seed) (sd_ID seed) (sd_WholesaleAccountID seed)) db ->
  exists e, AdmitWholesale seed w reservation now db = (Err e, db).
Proof.
  intros [Hf _]. unfold AdmitWholesale. destruct (_ || _); [eauto|].
  unfold Update, AdmitWholesale_tx.
  destruct (admission_fenced _ _ _) as [[]|e] eqn:E; [|eauto].
  apply admission_unfenced in E. rewrite Hf in E. discriminate E.
Qed.

Lemma cancel_shuts now p pe id fp a db res db1 :
  CancelAuthorizationAdmission now p pe id fp a db = (Ok res, db1) -> can_Canceled res = true ->
  shut (wholesaleAuthorizationKey p id a) db1.
Proof.
  intros Hc Hres. set (k := wholesaleAuthorizationKey _ _ _).
  unfold CancelAuthorizationAdmission in Hc. destruct (_ || _); [done|]. rewrite Update_Ok in Hc. fold k in Hc.
  destruct (spend_authorizations db !! k) as [r|] eqn:Hrow.
  - destruct (_ || _); [done|]. injection Hc as <- <-. discriminate Hres.
  - simpl in Hc. unfold canceledAdmissionIn in Hc. simpl in Hc.
    destruct (opt_bucket (canceled_admissions db) !! k) as [prior|] eqn:Hp;
      [destruct (negb _); [done|]|]; injection Hc as <- <-; (split; [|simpl; by rewrite Hrow]);
      apply fenced_cases; left; unfold canceled_at, canceledAdmissionIn; simpl.
    + by rewrite Hp.
    + by rewrite lookup_insert_eq.
Qed.

(** A close that succeeds leaves no admitted row behind, given that fences
    already on file do not. *)
Lemma close_shuts now now' p pe id reason a db db1 :
  let k := wholesaleAuthorizationKey p id a in
  CloseUnexecutedAuthorization now now' p pe id reason a db = (Ok tt, db1) ->
  (fenced k db = true -> shut k db) -> shut k db1.
Proof.
  intros k Hc Hprior.
  unfold CloseUnexecutedAuthorization in Hc. destruct (_ || _); [done|]. rewrite Update_Ok in Hc. fold k in Hc.
  destruct (opt_bucket (unexecuted_fences db) !! k) as [f|] eqn:Hf.
  { injection Hc as <-. assert (closed_at_key k db) as Hcl by (unfold closed_at_key; by rewrite Hf).
    destruct Hprior as [_ Hr]; [apply fenced_cases; by right|]. split; [|exact Hr].
    apply fenced_cases. right. unfold closed_at_key. unfold opt_bucket at 1. simpl. by rewrite Hf. }
  match type of Hc with context [let! _ := ?m in _] => destruct m as [tx|] eqn:Em end; [|done].
  injection Hc as <-. split.
  - apply fenced_cases. right. unfold closed_at_key. unfold opt_bucket at 1. simpl. by rewrite lookup_insert_eq.
  - simpl in *. destruct (spend_authorizations db !! k) as [r|] eqn:Hrow; [|injection Em as <-; simpl; by rewrite Hrow].
    unfold close_existing in Em. destruct (_ || _); [done|].
    destruct (au_State r) eqn:Hst; try discriminate Em;
      [destruct (_ || _); [done|]; injection Em as <-; simpl; rewrite lookup_insert_eq; by intros r' [= <-]|..];
      injection Em as <-; simpl; rewrite Hrow; intros r' [= <-]; by rewrite Hst.
Qed.

(** Where a new fence comes from: an operation that leaves the identity shut. *)
Lemma same_fences_fenced k db db' : same_fences db db' -> fenced k db' = fenced k db.
Proof. intros [E1 E2]. unfold fenced, canceledAdmissionIn. by rewrite E1, E2. Qed.

Lemma fence_origin_close k db now now' p pe id reason a :
  let r := CloseUnexecutedAuthorization now now' p pe id reason a db in
  fenced k db = false -> fenced k r.2 = true -> shut k r.2.
Proof.
  intros r Hf0 Hf. destruct (decide (k = wholesaleAuthorizationKey p id a)) as [->|Hne].
  - subst r. destruct (CloseUnexecutedAuthorization now now' p pe id reason a db) as [[[]|e] db1] eqn:E.
    + eapply close_shuts; [exact E|]. by rewrite Hf0.
    + exfalso. unfold CloseUnexecutedAuthorization in E. simpl in Hf.
      destruct (_ || _); [simplify_eq; by rewrite Hf0 in Hf|]. apply Update_Err in E as [_ ->]. by rewrite Hf0 in Hf.
  - exfalso. revert Hf. subst r. unfold CloseUnexecutedAuthorization. destruct (_ || _); [cbn [snd]; by rewrite Hf0|].
    unfold Update. set (kk := wholesaleAuthorizationKey p id a) in *.
    destruct (opt_bucket (unexecuted_fences db) !! kk).
    { unfold fenced, canceledAdmissionIn in *. simpl. rewrite Hf0. discriminate. }
    match goal with |- context [let! _ := ?m in _] => destruct m as [tx|] eqn:Em end; [|by simpl; rewrite Hf0].
    assert (canceled_admissions tx = canceled_admissions db) as Ec.
    { unfold close_existing in Em. by repeat (case_match; simplify_eq). }
    unfold fenced, canceledAdmissionIn in *. cbn -[opt_bucket]. rewrite Ec.
    match goal with |- context [opt_bucket (Some ?m)] => change (opt_bucket (Some m)) with m end.
    rewrite lookup_insert_ne by congruence. rewrite Hf0. discriminate.
Qed.

Lemma fence_origin_cancel k db now p pe id fp a :
  let r := CancelAuthorizationAdmission now p pe id fp a db in
  fenced k db = false -> fenced k r.2 = true -> shut k r.2.
Proof.
  intros r Hf0 Hf.
  assert (opt_bucket (canceled_admissions db) !! k = None /\ opt_bucket (unexecuted_fences db) !! k = None) as [Hc Hu].
  { unfold fenced, canceledAdmissionIn in Hf0. to_prop. unfold opt_bucket in *.
    split; [|by apply eq_None_not_Some].
    destruct (canceled_admissions db); simpl; [by apply eq_None_not_Some|apply lookup_empty]. }
  assert (r.2 = db \/ exists f, r = (r.1, with_canceled_admissions (Some f) db) /\
    spend_authorizations db !! wholesaleAuthorizationKey p id a = None /\
    forall k', k' <> wholesaleAuthorizationKey p id a -> f !! k' = opt_bucket (canceled_admissions db) !! k')
    as [E|(f & E & Hrow & Hf')].
  { subst r. unfold CancelAuthorizationAdmission. destruct (_ || _); [by left|]. unfold Update.
    destruct (spend_authorizations db !! _) as [old|] eqn:Hrow; [destruct (_ || _); by left|].
    unfold canceledAdmissionIn. simpl.
    destruct (opt_bucket (canceled_admissions db) !! wholesaleAuthorizationKey p id a) as [prior|].
    - destruct (negb _); [by left|]. right. eexists. split_and!; [reflexivity|done|done].
    - right. eexists. split_and!; [reflexivity|done|]. intros k' Hk. by rewrite lookup_insert_ne by congruence. }
  - rewrite E, Hf0 in Hf. discriminate Hf.
  - rewrite E in *. simpl in *. split; [exact Hf|]. intros row Hk.
    destruct (decide (k = wholesaleAuthorizationKey p id a)) as [->|Hne]; [simpl in Hk; congruence|].
    exfalso. unfold fenced, canceledAdmissionIn in Hf. simpl in Hf. rewrite (Hf' k Hne), Hc, Hu in Hf. discriminate Hf.
Qed.

Lemma fence_origin k db db' : ledger_step db db' ->
  fenced k db = false -> fenced k db' = true -> shut k db'.
Proof.
  intros Hstep Hf0 Hf.
  destruct Hstep as [| | | | | | | | |db db' (_ & _ & _ & E1 & E2)];
    [| | |by apply fence_origin_close|by apply fence_origin_cancel|..];
    (rewrite (same_fences_fenced k db) in Hf; [congruence|]).
  - apply same_fences_admit.
  - apply same_fences_advance.
  - apply same_fences_settle.
  - unfold FundWholesale, Update. by repeat case_match; simplify_eq.
  - apply same_fences_apply_funding.
  - unfold FreezeSource, Update. by repeat case_match; simplify_eq.
  - unfold InitSettlementDomain, Update. by repeat case_match; simplify_eq.
  - done.
Qed.

(** In a reachable state every fence shuts its identity. *)
Lemma reachable_shut k db : reachable db -> fenced k db = true -> shut k db.
Proof.
  assert (forall d d', rtc ledger_step d d' -> (fenced k d = true -> shut k d) -> fenced k d' = true -> shut k d') as Hgen.
  { intros d d'. induction 1 as [|x y z Hxy _ IH]; [done|]. intros Hx. apply IH. intros Hy.
    destruct (fenced k x) eqn:Hf; [apply (shut_step k x); [exact Hxy|by apply Hx]|by eapply (fence_origin k x)]. }
  intros Hr. apply (Hgen Open); [done|]. unfold fenced, canceledAdmissionIn. simpl.
  rewrite lookup_empty, !bool_decide_false by (by intros []). discriminate.
Qed.

(** A canceled admission stays canceled: once
    [CancelAuthorizationAdmission] has reported an identity canceled, no
    sequence of ledger operations lets an admission for that identity through,
    whatever its content, and no authorization row for it is ever admitted. *)
Theorem canceled_never_admitted now p pe id fp a db db1 res db2 seed w reservation now' :
  CancelAuthorizationAdmission now p pe id fp a db = (Ok res, db1) -> can_Canceled res = true ->
  rtc ledger_step db1 db2 ->
  sd_Payer seed = p -> sd_ID seed = id -> sd_WholesaleAccountID seed = a ->
  (exists e, AdmitWholesale seed w reservation now' db2 = (Err e, db2)) /\
  (forall r, spend_authorizations db2 !! wholesaleAuthorizationKey p id a = Some r ->
     au_State r <> AuthorizationAdmitted).
Proof.
  intros Hc Hres Hrun <- <- <-. pose proof (cancel_shuts _ _ _ _ _ _ _ _ _ Hc Hres) as Hs.
  apply (shut_run _ _ _ Hrun) in Hs. split; [by apply shut_refuses|apply Hs].
Qed.

(** A closed authorization stays closed: once
    [CloseUnexecutedAuthorization] has succeeded for an identity in a reachable
    ledger, no sequence of ledger operations admits it again, and its row, if
    there was one, is never in the admitted state. *)
Theorem closed_never_readmitted now now' p pe id reason a db db1 db2 seed w reservation now2 :
  reachable db -> CloseUnexecutedAuthorization now now' p pe id reason a db = (Ok tt, db1) ->
  rtc ledger_step db1 db2 ->
  sd_Payer seed = p -> sd_ID seed = id -> sd_WholesaleAccountID seed = a ->
  (exists e, AdmitWholesale seed w reservation now2 db2 = (Err e, db2)) /\
  (forall r, spend_authorizations db2 !! wholesaleAuthorizationKey p id a = Some r ->
     au_State r <> AuthorizationAdmitted).
Proof.
  intros Hreach Hc Hrun <- <- <-.
  pose proof (close_shuts _ _ _ _ _ _ _ _ _ Hc (reachable_shut _ _ Hreach)) as Hs.
  apply (shut_run _ _ _ Hrun) in Hs. split; [by apply shut_refuses|apply Hs].
Qed.

End spec.
