(* ===== verification/WholesaleOps.v ===== *)
(** * What each wholesale operation does

    Settlement and advance on their successful path with exact amounts and
    replays, the value an admission conserves, funding receipts, the source
    freeze and the settlement-domain binding. *)
From S2P Require Import Prelude.
From S2P Require Import GoBytes.
From S2P Require Import GoCodecs.
From S2P Require Import Bolt.
From S2P Require Import Ledger.
From S2P Require Import Billing.
From S2P Require Import Nonces.
From S2P Require Import Sessions.
From S2P Require Import Redemptions.
From S2P Require Import Wholesale.
From S2P Require Import Fences.
From S2P Require Import Funding.
From S2P Require Import WholesaleInv.
From S2P Require Import WholesaleSteps.
From S2P Require Import WholesaleSpec.

Section ops.
Context `{Bolt M} (payee : string).
Implicit Types (db : DB M).

(** Reading back an account just written. *)
Lemma load_put p pe a acc db :
  account_key acc = wholesaleAccountKey p pe a -> loadWholesaleAccount p pe a (putWholesaleAccount acc db) = acc.
Proof.
  intros E. unfold loadWholesaleAccount. rewrite <- E. simpl. fold (account_key acc). by rewrite lookup_insert_eq.
Qed.

(** ** Settlement *)
Definition settled_row (r : WholesaleAuthorization) (units seq now : Z) : WholesaleAuthorization :=
  let billed := BillFor (row_price r) (au_PerUnits r) units in
  au_with_UpdatedAt now (au_with_ReservedWei "0"
    (au_with_ReleasedWei (dec_string (row_reserved r - (billed - row_billed r)))
      (au_with_BilledWei (dec_string billed) (au_with_SettlementSeq seq (au_with_ActualUnits units
        (au_with_State AuthorizationSettled r)))))).

Definition settled_account (acc : WholesaleAccount) (r : WholesaleAuthorization) (units now : Z) : WholesaleAccount :=
  bump now (acc_with_DebitedWei
    (dec_string (debited acc + (BillFor (row_price r) (au_PerUnits r) units - row_billed r)))
    (acc_with_ReservedWei (dec_string (reserved acc - row_reserved r)) acc)).

(** The settling run, branch by branch. *)
Lemma settle_first db p id a r units seq now :
  let billed := BillFor (row_price r) (au_PerUnits r) units in
  spend_authorizations db !! wholesaleAuthorizationKey p id a = Some r -> au_Payee r = payee ->
  au_State r = AuthorizationAdmitted -> units <= au_MaxTotalUnits r -> au_SettlementSeq r < seq ->
  row_billed r <= billed <= row_max r -> billed - row_billed r <= row_reserved r ->
  let acc' := settled_account (GetWholesaleAccount p payee a db) r units now in
  SettleWholesale p payee id units seq now a db =
    (Ok (mkSettlement acc' (settled_row r units seq now) billed (row_reserved r - (billed - row_billed r)) false),
     putWholesaleAccount acc' (with_spend_authorizations
       (<[wholesaleAuthorizationKey p id a := settled_row r units seq now]> (spend_authorizations db)) db)).
Proof.
  intros billed Hrow Hpe Hst Hu Hseq Hb Hcov acc'.
  unfold SettleWholesale, Update, SettleWholesale_tx. rewrite Hrow, Hpe, Hst.
  rewrite bool_decide_true by done. simpl.
  rewrite (proj2 (Z.ltb_ge (au_MaxTotalUnits r) units)) by lia.
  rewrite (proj2 (Z.leb_gt seq (au_SettlementSeq r))) by lia.
  fold (row_price r) (row_billed r) (row_reserved r) (row_max r). fold billed.
  rewrite (proj2 (Z.ltb_ge (row_max r) billed)), (proj2 (Z.ltb_ge billed (row_billed r))),
    (proj2 (Z.ltb_ge (row_reserved r) (billed - row_billed r))) by lia.
  reflexivity.
Qed.

(** A settled row answers replays and refuses anything else. *)
Lemma settle_again db p id a r units seq now units' seq' now' :
  let billed := BillFor (row_price r) (au_PerUnits r) units in
  spend_authorizations db !! wholesaleAuthorizationKey p id a = Some (settled_row r units seq now) ->
  au_Payee r = payee ->
  SettleWholesale p payee id units' seq' now' a db =
    (if negb (units =? units') || negb (seq =? seq') then (Err ErrAuthorizationSettlement, db)
     else (Ok (mkSettlement (GetWholesaleAccount p payee a db) (settled_row r units seq now) billed
                 (row_reserved r - (billed - row_billed r)) true), db)).
Proof.
  intros billed Hrow Hpe. unfold SettleWholesale, Update, SettleWholesale_tx. rewrite Hrow.
  cbn [au_Payee au_State au_ActualUnits au_SettlementSeq settled_row au_with_UpdatedAt au_with_ReservedWei
    au_with_ReleasedWei au_with_BilledWei au_with_SettlementSeq au_with_ActualUnits au_with_State
    au_BilledWei au_ReleasedWei].
  rewrite Hpe, (bool_decide_true (payee = payee)) by done. simpl.
  destruct (negb (units =? units') || negb (seq =? seq')); [done|]. by rewrite !parse_dec.
Qed.

(** Settlement is exact and final: an admitted authorization settles for
    any units between what it already billed and its signed maximum that its
    reservation covers; the account is debited exactly the unbilled part of
    the ceiling price, the whole reservation is released, the remainder becomes
    available, repeating the settlement reports the same amounts and changes
    nothing, and any other settlement of it is refused. *)
Theorem settlement_exact db p id a r units seq now :
  reachable payee db -> honest p id a db ->
  spend_authorizations db !! wholesaleAuthorizationKey p id a = Some r -> au_State r = AuthorizationAdmitted ->
  au_ActualUnits r <= units <= au_MaxTotalUnits r -> au_SettlementSeq r < seq ->
  BillFor (row_price r) (au_PerUnits r) units <= row_billed r + row_reserved r ->
  let billed := BillFor (row_price r) (au_PerUnits r) units in
  let released := row_reserved r - (billed - row_billed r) in
  let acc := GetWholesaleAccount p payee a db in
  let db' := (SettleWholesale p payee id units seq now a db).2 in
  let acc' := GetWholesaleAccount p payee a db' in
  (SettleWholesale p payee id units seq now a db).1 =
    Ok (mkSettlement acc' (settled_row r units seq now) billed released false) /\
  0 <= released /\ debited acc' = debited acc + (billed - row_billed r) /\
  reserved acc' = reserved acc - row_reserved r /\ Available acc' = Available acc + released /\
  (forall now', SettleWholesale p payee id units seq now' a db' =
     (Ok (mkSettlement acc' (settled_row r units seq now) billed released true), db')) /\
  (forall units' seq' now', units' <> units \/ seq' <> seq ->
     SettleWholesale p payee id units' seq' now' a db' = (Err ErrAuthorizationSettlement, db')).
Proof.
  intros I%reachable_Inv Hh Hrow Hst Hu Hseq Hcov billed released acc db' acc'.
  pose proof (lo_rows _ _ _ _ I _ _ Hrow) as R.
  assert (row_billed r <= billed) as Hmono.
  { rewrite (ro_billed _ _ _ R). apply BillFor_mono; [apply R|apply R|]. pose proof (ro_units _ _ _ R). lia. }
  destruct (ro_cap _ _ _ R) as [Hcap _]; [congruence|].
  destruct (load_spec payee db p payee a I) as (Lk & _). fold (GetWholesaleAccount p payee a db) in Lk. fold acc in Lk.
  pose proof (settle_first db p id a r units seq now Hrow (ro_payee _ _ _ R) Hst ltac:(lia) Hseq ltac:(lia) ltac:(lia)) as E.
  assert (acc' = settled_account acc r units now) as Ea.
  { subst acc' db'. rewrite E. apply load_put. exact Lk. }
  assert (spend_authorizations db' !! wholesaleAuthorizationKey p id a = Some (settled_row r units seq now)) as Hrow'.
  { subst db'. rewrite E. simpl. apply lookup_insert_eq. }
  pose proof (fun u q n => settle_again db' p id a r units seq now u q n Hrow' (ro_payee _ _ _ R)) as Hre.
  split_and!.
  - rewrite Ea, E. done.
  - lia.
  - rewrite Ea. unfold debited at 1. simpl. by rewrite parse_dec.
  - rewrite Ea. unfold reserved at 1. simpl. by rewrite parse_dec.
  - rewrite Ea. unfold Available. simpl. rewrite !parse_dec. unfold reserved, debited. lia.
  - intros now'. by rewrite Hre, !Z.eqb_refl.
  - intros units' seq' now' Hne. rewrite Hre.
    destruct (Z.eqb_spec units units'), (Z.eqb_spec seq seq'); simpl; try done. lia.
Qed.

(** ** Advance *)
Definition advanced_row (r : WholesaleAuthorization) (units target seq now : Z) : WholesaleAuthorization :=
  au_with_UpdatedAt now (au_with_SettlementSeq seq (au_with_ReservedWei (dec_string target)
    (au_with_BilledWei (dec_string (BillFor (row_price r) (au_PerUnits r) units)) (au_with_ActualUnits units r)))).

Definition advanced_account (acc : WholesaleAccount) (r : WholesaleAuthorization) (units target now : Z)
    : WholesaleAccount :=
  bump now (acc_with_DebitedWei
    (dec_string (debited acc + (BillFor (row_price r) (au_PerUnits r) units - row_billed r)))
    (acc_with_ReservedWei (dec_string (reserved acc - row_reserved r + target)) acc)).

Lemma advance_first db p id a r units target seq now :
  let billed := BillFor (row_price r) (au_PerUnits r) units in
  let acc := GetWholesaleAccount p payee a db in
  let hk := advanceHistoryKey p id a seq in
  opt_bucket (wholesale_advance_history db) !! hk = None ->
  spend_authorizations db !! wholesaleAuthorizationKey p id a = Some r -> au_Payee r = payee ->
  au_State r = AuthorizationAdmitted -> units <= au_MaxTotalUnits r -> now < au_ExpiresAt r ->
  0 <= au_SettlementSeq r < seq -> 0 <= target -> row_billed r <= billed -> billed + target <= row_max r ->
  billed - row_billed r + target <= Available acc + row_reserved r ->
  AdvanceWholesale p payee id units (Some target) seq "" now a db =
    (Ok (mkAdvance (advanced_account acc r units target now) (advanced_row r units target seq now)
           (billed - row_billed r) 0 false),
     with_wholesale_advance_history
       (Some (<[hk := advanced_row r units target seq now]> (opt_bucket (wholesale_advance_history db))))
       (putWholesaleAccount (advanced_account acc r units target now) (with_spend_authorizations
         (<[wholesaleAuthorizationKey p id a := advanced_row r units target seq now]> (spend_authorizations db)) db))).
Proof.
  intros billed acc hk Hhist Hrow Hpe Hst Hu Hexp Hseq Ht Hb Hmax Hav.
  unfold AdvanceWholesale. rewrite (proj2 (Z.eqb_neq seq 0)), (proj2 (Z.ltb_ge target 0)) by lia. simpl.
  unfold Update, AdvanceWholesale_tx. fold hk. rewrite Hhist. simpl. rewrite Hrow, Hpe, Hst.
  rewrite (bool_decide_true (payee = payee)) by done. simpl.
  rewrite (proj2 (Z.ltb_ge (au_MaxTotalUnits r) units)), (proj2 (Z.ltb_lt now (au_ExpiresAt r))),
    (proj2 (Z.ltb_ge seq (au_SettlementSeq r))), (proj2 (Z.eqb_neq seq (au_SettlementSeq r))) by lia. simpl.
  unfold advance_apply. fold (row_price r) (row_billed r) (row_reserved r) (row_max r). fold billed.
  change (loadWholesaleAccount p payee a _) with acc.
  rewrite (proj2 (Z.ltb_ge billed (row_billed r))), (proj2 (Z.ltb_ge (row_max r) billed)),
    (proj2 (Z.ltb_ge (row_max r - billed) target)) by lia. simpl.
  rewrite (proj2 (Z.ltb_ge (Available acc + row_reserved r) (billed - row_billed r + target))) by lia.
  reflexivity.
Qed.

(** An advance bills the curve exactly and once: moving an admitted,
    unexpired authorization to a higher unit count and a new runway reservation
    within its cap and the account's float debits the account by the difference
    of the two cumulative bills, swaps the old reservation for the new one, and
    repeating the same advance, at any later time, returns the recorded
    authorization without charging again. *)
Theorem advance_exact db p id a r units target seq now :
  reachable payee db ->
  opt_bucket (wholesale_advance_history db) !! advanceHistoryKey p id a seq = None ->
  spend_authorizations db !! wholesaleAuthorizationKey p id a = Some r -> au_State r = AuthorizationAdmitted ->
  au_ActualUnits r <= units <= au_MaxTotalUnits r -> now < au_ExpiresAt r -> au_SettlementSeq r < seq ->
  0 <= target -> BillFor (row_price r) (au_PerUnits r) units + target <= row_max r ->
  let billed := BillFor (row_price r) (au_PerUnits r) units in
  let acc := GetWholesaleAccount p payee a db in
  billed - row_billed r + target <= Available acc + row_reserved r ->
  let out := AdvanceWholesale p payee id units (Some target) seq "" now a db in
  let acc' := GetWholesaleAccount p payee a out.2 in
  out.1 = Ok (mkAdvance acc' (advanced_row r units target seq now) (billed - row_billed r) 0 false) /\
  0 <= billed - row_billed r /\ debited acc' = debited acc + (billed - row_billed r) /\
  reserved acc' = reserved acc - row_reserved r + target /\ credited acc' = credited acc /\
  (forall now', AdvanceWholesale p payee id units (Some target) seq "" now' a out.2 =
     (Ok (mkAdvance acc' (advanced_row r units target seq now) 0 0 true), out.2)).
Proof.
  intros I%reachable_Inv Hhist Hrow Hst Hu Hexp Hseq Ht Hmax billed acc Hav out acc'.
  pose proof (lo_rows _ _ _ _ I _ _ Hrow) as R.
  assert (row_billed r <= billed) as Hmono.
  { rewrite (ro_billed _ _ _ R). apply BillFor_mono; [apply R|apply R|]. pose proof (ro_units _ _ _ R). lia. }
  destruct (load_spec payee db p payee a I) as (Lk & _). fold (GetWholesaleAccount p payee a db) in Lk. fold acc in Lk.
  pose proof (ro_seq _ _ _ R) as Hs0.
  pose proof (advance_first db p id a r units target seq now Hhist Hrow (ro_payee _ _ _ R) Hst
    ltac:(lia) Hexp ltac:(lia) Ht Hmono ltac:(lia) Hav) as E.
  assert (acc' = advanced_account acc r units target now) as Ea.
  { subst acc' out. rewrite E. by apply (load_put p payee a (advanced_account acc r units target now)). }
  split_and!.
  - rewrite Ea. subst out. by rewrite E.
  - lia.
  - rewrite Ea. unfold debited at 1. simpl. by rewrite parse_dec.
  - rewrite Ea. unfold reserved at 1. simpl. by rewrite parse_dec.
  - by rewrite Ea.
  - intros now'. unfold AdvanceWholesale.
    rewrite (proj2 (Z.eqb_neq seq 0)), (proj2 (Z.ltb_ge target 0)) by lia. cbn [orb].
    unfold Update, AdvanceWholesale_tx. rewrite Ea. subst out. rewrite E.
    change (opt_bucket (wholesale_advance_history _)) with
      (<[advanceHistoryKey p id a seq := advanced_row r units target seq now]> (opt_bucket (wholesale_advance_history db))) at 1.
    rewrite lookup_insert_eq. unfold advance_replay. simpl. rewrite (ro_payee _ _ _ R), !Z.eqb_refl.
    rewrite !bool_decide_true by done. simpl.
    change (loadWholesaleAccount p payee a _) with
      (loadWholesaleAccount p payee a (putWholesaleAccount (advanced_account acc r units target now) db)).
    by rewrite load_put.
Qed.

(** ** Admission *)

(** The balance waiting on a funding session. *)
Definition funding_balance (payer w : string) db : Z :=
  default 0 ((fun sess => parseDecimalBig (s_BalanceWei sess)) <$> sessions db !! compositeKey payer w).

(** A transfer moves value, it creates none. *)
Lemma transfer_conserves p w a acc db acc' t db' :
  transfer_balance p w a acc db = Ok (acc', t, db') ->
  credited acc' = credited acc + t /\ 0 <= t /\ funding_balance p w db' = funding_balance p w db - t.
Proof.
  unfold transfer_balance, funding_balance. destruct (bool_decide _); [intros [= <- <- <-]; lia|].
  destruct (negb _); [discriminate|].
  destruct (sessions db !! compositeKey p w) as [sess|] eqn:E; [|discriminate].
  destruct (Z.ltb_spec 0 (parseDecimalBig (s_BalanceWei sess))); intros [= <- <- <-].
  - simpl. rewrite lookup_insert_eq. unfold credited, credit_account. simpl. autorewrite with money. lia.
  - rewrite E. simpl. lia.
Qed.

(** The reserving step writes the account it was given, or nothing was moved. *)
Lemma admit_reserve_account seed reservation now acc t db res ins db' :
  admit_reserve seed reservation now acc t db = Ok (res, ins, db') ->
  account_key acc = wholesaleAccountKey (sd_Payer seed) (sd_Payee seed) (sd_WholesaleAccountID seed) ->
  sessions db' = sessions db /\
  (ins = true -> spend_authorizations db' = spend_authorizations db) /\
  (credited (GetWholesaleAccount (sd_Payer seed) (sd_Payee seed) (sd_WholesaleAccountID seed) db') = credited acc \/
   ~ 0 < t /\ db' = db).
Proof.
  intros E Hk. unfold admit_reserve in E.
  destruct (load_predecessor seed db) as [pred|]; [|discriminate E].
  destruct (_ || _) in E; [discriminate E|]. destruct (_ <? _) in E.
  { destruct (Z.ltb_spec 0 t); injection E as <- <- <-.
    - split_and!; [done|done|]. left. unfold GetWholesaleAccount. by rewrite load_put.
    - split_and!; [done|done|]. right. split; [lia|done]. }
  destruct pred as [pred|]; injection E as <- <- <-; (split_and!; [done|discriminate|]); left;
    unfold GetWholesaleAccount; by rewrite load_put.
Qed.

(** An admission never loses or invents funds: whatever its outcome, the
    balance left on the funding session plus the account's credit is what it
    was before; a refusal other than insufficient credit leaves no trace at
    all; and an insufficient admission leaves every authorization, in
    particular the predecessor it would have replaced, as it was. *)
Theorem admission_conserves_value db seed w reservation now :
  reachable payee db -> sd_Payee seed = payee ->
  let acc := GetWholesaleAccount (sd_Payer seed) payee (sd_WholesaleAccountID seed) in
  let out := AdmitWholesale seed w reservation now db in
  funding_balance (sd_Payer seed) w out.2 + credited (acc out.2) =
    funding_balance (sd_Payer seed) w db + credited (acc db) /\
  (forall e, out.1 = Err e -> e = ErrInsufficientWholesale /\ spend_authorizations out.2 = spend_authorizations db \/
                              out.2 = db).
Proof.
  intros I%reachable_Inv Hpe acc out. subst out. unfold AdmitWholesale.
  destruct (_ || _); [split; [done|by right]|]. unfold Update.
  destruct (AdmitWholesale_tx seed w reservation now db) as [[[res ins] db']|e] eqn:E; [|split; [done|by right]].
  unfold AdmitWholesale_tx in E. destruct (admission_fenced _ _ _); [|discriminate E].
  destruct (spend_authorizations db !! _) as [old|] eqn:Hrow.
  { destruct (negb _); [discriminate E|]. injection E as <- <- <-. split; [done|]. discriminate. }
  destruct (negb _); [injection E as <- <- <-; split; [done|discriminate]|].
  destruct (transfer_balance _ _ _ _ _) as [[[acc1 t] db1]|] eqn:Et; [|discriminate E].
  destruct (transfer_conserves _ _ _ _ _ _ _ _ Et) as (Hc & Ht & Hb).
  destruct (transfer_spec _ _ _ _ _ _ _ _ Et) as (ss & -> & _ & _ & Hk & _).
  destruct (load_spec payee db (sd_Payer seed) (sd_Payee seed) (sd_WholesaleAccountID seed) I) as (Lk & _).
  rewrite Lk in Hk. destruct (admit_reserve_account _ _ _ _ _ _ _ _ _ E Hk) as (Hs & Hins & Hacc).
  assert (funding_balance (sd_Payer seed) w db' = funding_balance (sd_Payer seed) w db - t) as Hb'.
  { rewrite <- Hb. unfold funding_balance. by rewrite Hs. }
  rewrite Hpe in *.
  assert (funding_balance (sd_Payer seed) w db' + credited (acc db') =
    funding_balance (sd_Payer seed) w db + credited (acc db)) as Hsum.
  { rewrite Hb'. unfold acc in *. destruct Hacc as [-> |[Hz ->]]; [unfold GetWholesaleAccount; lia|].
    change (GetWholesaleAccount _ _ _ (with_sessions ss db)) with
      (loadWholesaleAccount (sd_Payer seed) payee (sd_WholesaleAccountID seed) db).
    unfold GetWholesaleAccount. lia. }
  destruct ins; simpl; (split; [exact Hsum|]); [|discriminate].
  intros e [= <-]. left. split; [done|]. by rewrite Hins.
Qed.

(** ** Funding receipts *)
Definition total_credit (tickets : list FundingTicket) : Z :=
  foldr (fun t acc => default 0 (ft_Credit t) + acc) 0 tickets.

Lemma apply_tickets_sum rand tickets credit db credit' db' :
  apply_tickets rand tickets credit db = Ok (credit', db') ->
  credit' = credit + total_credit tickets /\
  Forall (fun t => NonceSeen rand (ft_Nonce t) db = false) tickets /\
  (forall k, is_Some (nonces db !! k) -> is_Some (nonces db' !! k)) /\
  Forall (fun t => NonceSeen rand (ft_Nonce t) db' = true) tickets.
Proof.
  revert credit db. induction tickets as [|t ts IH]; intros credit db E; simpl in E.
  - injection E as <- <-. split_and!; [simpl; lia|done..].
  - destruct (ft_Credit t) as [c|] eqn:Hc; [|discriminate E]. destruct (Z.leb_spec c 0); [discriminate E|].
    rewrite recordNonce_spec in E.
    destruct (NonceSeen rand (ft_Nonce t) db) eqn:Hn; [discriminate E|].
    destruct (_ <? _); [|discriminate E].
    set (db1 := with_nonces _ db) in E.
    assert (exists db2, apply_tickets rand ts (credit + c) db2 = Ok (credit', db') /\ nonces db2 = nonces db1) as (db2 & E2 & En).
    { destruct (ft_Winner t) as [win|]; [|by exists db1]. eexists. split; [exact E|].
      unfold enqueueRedemption. by repeat case_match. }
    destruct (IH _ _ E2) as (Hsum & Hun & Hmono & Hseen). rewrite En in *.
    assert (forall n, NonceSeen rand n db2 = false -> NonceSeen rand n db = false) as Hback.
    { intros n. unfold NonceSeen. rewrite En. subst db1. simpl. rewrite !bool_decide_eq_false. intros Hno Hyes. apply Hno.
      apply lookup_insert_is_Some'. by right. }
    split_and!.
    + simpl. rewrite Hc. simpl. lia.
    + constructor; [done|]. eapply Forall_impl; [exact Hun|]. intros t' Ht'. by apply Hback.
    + intros k Hk. apply Hmono. subst db1. simpl. apply lookup_insert_is_Some'. by right.
    + constructor; [|done]. unfold NonceSeen. apply bool_decide_true. apply Hmono. subst db1. simpl.
      rewrite lookup_insert_eq. eauto.
Qed.

(** A funding payment credits once: when [ApplyWholesaleFunding] accepts a
    payment, every ticket nonce was unseen and is now recorded, the account is
    credited exactly the sum of the tickets' values, and presenting the same
    funding id again, even with other tickets, returns the stored receipt and
    changes nothing. *)
Lemma ApplyWholesaleFunding_exact db p pe a w fid tickets now r db' :
  reachable payee db ->
  ApplyWholesaleFunding p pe a w fid tickets now db = (Ok (r, false), db') ->
  let acc := GetWholesaleAccount p pe a in
  credited (acc db') = credited (acc db) + total_credit tickets /\
  parseDecimalBig (fr_CreditedWei r) = total_credit tickets /\ fr_Account r = acc db' /\
  (exists rand, Forall (fun t => NonceSeen rand (ft_Nonce t) db = false) tickets /\
                Forall (fun t => NonceSeen rand (ft_Nonce t) db' = true) tickets) /\
  GetFundingReceipt (acc_Payer (fr_Account r)) (acc_Payee (fr_Account r))
    (acc_WholesaleAccountID (fr_Account r)) fid db' = Ok r /\
  (forall w' tickets' now', tickets' <> [] ->
     receipt_for p pe a r = true ->
     ApplyWholesaleFunding p pe a w' fid tickets' now' db' = (Ok (r, true), db')).
Proof.
  intros I%reachable_Inv E acc. unfold ApplyWholesaleFunding in E.
  destruct (_ || _) eqn:Hg; [discriminate E|]. rewrite Update_Ok in E.
  destruct (opt_bucket (wholesale_funding_receipts db) !! fid) as [r0|] eqn:Hr0.
  { by destruct (negb (receipt_for p pe a r0)); simplify_eq. }
  unfold apply_funding in E. simpl in E. destruct (sessions db !! _) as [sess|]; [|discriminate E].
  destruct (s_Closed sess); [discriminate E|]. destruct (_ || _) in E; [discriminate E|].
  destruct (SetString10 _) as [rand|]; [|discriminate E].
  destruct (apply_tickets _ _ _ _) as [[credit db1]|] eqn:Et; [|discriminate E]. injection E as <- <-.
  destruct (apply_tickets_frame _ _ _ _ _ _ Et) as (_ & E1 & E2 & E3).
  destruct (apply_tickets_sum _ _ _ _ _ _ Et) as (-> & Hun & _ & Hseen).
  destruct (load_spec payee db p pe a I) as (Lk & _). simpl in E1.
  assert (loadWholesaleAccount p pe a db1 = loadWholesaleAccount p pe a db) as El
    by (unfold loadWholesaleAccount; by rewrite E1).
  rewrite El. set (base := loadWholesaleAccount p pe a db) in *.
  set (accn := bump now (credit_account (0 + total_credit tickets) base)).
  assert (acc (with_wholesale_funding_receipts (Some (<[fid := mkFundingReceipt fid accn (dec_string (0 + total_credit tickets))]>
    (opt_bucket (wholesale_funding_receipts db)))) (putWholesaleAccount accn db1)) = accn) as Ea.
  { apply (load_put p pe a accn db1). exact Lk. }
  rewrite Ea. to_prop. split_and!.
  - unfold accn, credited, credit_account. simpl. rewrite parse_dec. reflexivity.
  - simpl. by rewrite parse_dec.
  - done.
  - exists rand. split; [exact Hun|exact Hseen].
  - unfold GetFundingReceipt. simpl. rewrite lookup_insert_eq. unfold receipt_for. simpl.
    by rewrite !bool_decide_true.
  - intros w' tickets' now' Hne Hfor. unfold ApplyWholesaleFunding.
    rewrite (bool_decide_false (length tickets' = 0%nat)) by (by destruct tickets').
    match goal with H1 : ValidWholesaleAccountID a = true, H2 : len fid = 64 |- _ => rewrite H1, H2 end. simpl.
    unfold Update, opt_bucket. simpl. rewrite lookup_insert_eq, Hfor. reflexivity.
Qed.

(** ** The source freeze *)
Lemma activeAuthorizations_count db :
  activeAuthorizations db =
    u64 (msum (fun _ r => if bool_decide (au_State r = AuthorizationAdmitted) then 1 else 0) (spend_authorizations db)).
Proof.
  unfold activeAuthorizations. rewrite (msum_list _ _ _ (ForEach_perm (spend_authorizations db))).
  assert (forall l c, foldl (fun count (kv : string * WholesaleAuthorization) =>
      if bool_decide (au_State kv.2 = AuthorizationAdmitted) then u64 (count + 1) else count) (u64 c) l =
    u64 (c + foldr (fun kx acc => (if bool_decide (au_State kx.2 = AuthorizationAdmitted) then 1 else 0) + acc) 0 l))
    as Hfold; [|exact (Hfold _ 0)].
  induction l as [|kv l IH]; intros c; simpl; [by rewrite Z.add_0_r|].
  destruct (bool_decide _).
  - assert (u64 (u64 c + 1) = u64 (c + 1)) as -> by (unfold u64; by rewrite Z.add_mod_idemp_l).
    rewrite IH. f_equal. lia.
  - by rewrite IH.
Qed.

(** A freeze is drained and irreversible: [FreezeSource] succeeds on an
    unfrozen source only when no authorization is admitted, and from then on
    the fence it returned is what [SourceFence] reports and what every further
    freeze, whatever its reason, returns without effect. *)
Theorem freeze_drained_and_final now reason db f db' :
  source_fence db = None -> now <> 0 ->
  msum (fun _ r => if bool_decide (au_State r = AuthorizationAdmitted) then 1 else 0) (spend_authorizations db) < two64 ->
  FreezeSource now reason db = (Ok f, db') ->
  (forall k r, spend_authorizations db !! k = Some r -> au_State r <> AuthorizationAdmitted) /\
  SourceFence db' = Ok f /\ sf_Frozen f = true /\ sf_Reason f = reason /\
  (forall now' reason', reason' <> "" -> FreezeSource now' reason' db' = (Ok f, db')).
Proof.
  intros Hnone Hnow Hlt. unfold FreezeSource. destruct (bool_decide (reason = "")) eqn:Hreason; [discriminate|].
  rewrite Update_Ok, Hnone, activeAuthorizations_count.
  assert (forall k r, spend_authorizations db !! k = Some r ->
    0 <= (if bool_decide (au_State r = AuthorizationAdmitted) then 1 else 0)) as Hpos.
  { intros k r _. destruct (bool_decide (au_State r = _)); lia. }
  pose proof (msum_nonneg _ _ Hpos) as Hn. rewrite u64_small by lia.
  destruct (Z.eqb_spec (msum (fun _ r => if bool_decide (au_State r = AuthorizationAdmitted) then 1 else 0)
    (spend_authorizations db)) 0) as [Hz|]; [|discriminate]. simpl. intros [= <- <-]. to_prop.
  assert (fence_state (<["state" := mkSourceFenceState true reason now]> (∅ : M SourceFenceState)) =
    Ok (mkSourceFenceState true reason now)) as Hst.
  { unfold fence_state. rewrite lookup_insert_eq. simpl.
    rewrite bool_decide_false, (proj2 (Z.eqb_neq now 0)) by done. done. }
  split_and!; [|exact Hst|done|done|].
  - intros k r Hk Hadm. pose proof (msum_ge_one _ _ k r Hpos Hk) as Hge. cbv beta in Hge.
    rewrite bool_decide_true in Hge by done. lia.
  - intros now' reason' Hr'. rewrite bool_decide_false by done. unfold Update. simpl. by rewrite Hst.
Qed.

(** ** The settlement domain *)

(** A ledger's settlement identity is immutable: once
    [InitSettlementDomain] has bound a ledger to a domain, a chain and a
    (non-empty) payee, a later start with the same chain and payee and no or
    the same configured domain returns the same domain and changes nothing,
    whatever the random source yields, and any other start is refused without
    effect. *)
Theorem settlement_domain_immutable rand conf chain pe db id db' rand' conf' chain' pe' :
  InitSettlementDomain rand conf chain pe db = (Ok id, db') -> pe <> "" -> ValidDomain id = true ->
  if bool_decide ((conf' = "" \/ conf' = id) /\ chain' = chain /\ pe' = pe)
  then (InitSettlementDomain rand' conf' chain' pe' db').1 = Ok id /\
       settlement_domain (InitSettlementDomain rand' conf' chain' pe' db').2 = settlement_domain db'
  else exists e, InitSettlementDomain rand' conf' chain' pe' db' = (Err e, db').
Proof.
  intros E Hpe Hv. unfold InitSettlementDomain in E. destruct (_ && _); [discriminate E|]. rewrite Update_Ok in E.
  match type of E with (let! _ := ?m in _) = _ => destruct m as [d|] eqn:Ed end; [|discriminate E].
  assert ((len pe =? 0) = false) as Hl by (by destruct pe). rewrite Hl in E. injection E as Hid <-. simpl in Hid.
  unfold InitSettlementDomain, Update. simpl. rewrite Hid.
  assert (hex_encode pe <> "") as Hhex by (by destruct pe).
  unfold stored_domain. rewrite lookup_insert_eq. simpl. rewrite Hv. simpl.
  rewrite (bool_decide_false (hex_encode pe = "")) by done. simpl.
  case_bool_decide as Hsame.
  - destruct Hsame as (Hconf & -> & ->). rewrite (bool_decide_true (hex_encode pe = hex_encode pe)), Z.eqb_refl, Hl by done. simpl.
    assert (negb (bool_decide (conf' = "")) && negb (ValidDomain conf') = false) as ->.
    { destruct Hconf as [-> | ->]; [done|]. rewrite Hv. apply andb_false_r. }
    assert (negb (bool_decide (conf' = "")) && negb (bool_decide (conf' = id)) = false) as ->.
    { destruct Hconf as [-> | ->]; [done|]. rewrite (bool_decide_true (id = id)) by done. apply andb_false_r. }
    simpl. split; [done|]. unfold opt_bucket. simpl. by rewrite insert_insert_eq.
  - destruct (negb (bool_decide (conf' = "")) && negb (ValidDomain conf')); [eauto|].
    destruct (negb (bool_decide (conf' = "")) && negb (bool_decide (conf' = id))) eqn:Hc; [eauto|].
    destruct (negb (bool_decide (hex_encode pe = hex_encode pe')) || negb (chain =? chain')) eqn:Hb; [eauto|].
    exfalso. apply Hsame. to_prop.
    match goal with H : hex_encode pe = hex_encode pe' |- _ => apply (inj hex_encode) in H end.
    split_and!; [destruct Hc; to_prop; tauto|done|done].
Qed.

End ops.
