(* ===== verification/WholesaleDemo.v ===== *)
(** * The wholesale promises on a concrete ledger

    One payer funds an account with 100 wei from a ticket session and admits an
    authorization that reserves 60 of them; the promises of [WholesaleSpec] and
    [WholesaleOps] are instantiated there. *)
From S2P Require Import Prelude.
From S2P Require Import GoBytes.
From S2P Require Import GoCodecs.
From S2P Require Import Bolt.
From S2P Require Import Ledger.
From S2P Require Import Billing.
From S2P Require Import Nonces.
From S2P Require Import Sessions.
From S2P Require Import Wholesale.
From S2P Require Import Fences.
From S2P Require Import Funding.
From S2P Require Import WholesaleInv.
From S2P Require Import WholesaleSteps.
From S2P Require Import WholesaleSpec.
From S2P Require Import WholesaleOps.

Definition payer : string := "payer-address-20byte".
Definition payee : string := "payee-address-20byte".

Definition fund_sess : Session :=
  mkSession "" "" "w" payer payee "cap" "off" "" 0 "" 0 "100" false 1 0 "77" "" "".
Definition auth_seed : WholesaleAuthorizationSeed :=
  mkWholesaleAuthorizationSeed "" "auth-1" "fp" payer payee "req" "sess" "http" "cap" "off" "10" 3 "token" "60" 15 100 1 "".

(** The three states of the run, kept as notation so that proofs stay on the
    operations rather than on evaluated maps. *)
Abbreviation db0 := (with_sessions (<[compositeKey payer "w" := fund_sess]> ∅) (Open (M := gmap string))) (only parsing).
Abbreviation db1 := (AdmitWholesale auth_seed "w" None 5 db0).2 (only parsing).

Definition auth_row : WholesaleAuthorization :=
  Eval vm_compute in seed_row auth_seed AuthorizationAdmitted 0 "0" "60" 0 5.
Definition auth_key : string := wholesaleAuthorizationKey payer "auth-1" "".

Lemma honest_db0 id : honest payer id "" db0.
Proof.
  split_and!; [reflexivity|reflexivity|]. unfold collision_free, stored_preimages. simpl.
  rewrite map_to_list_empty. constructor.
Qed.

Lemma wf_auth_seed : wf_seed payee auth_seed db0.
Proof. split_and!; try done; apply honest_db0. Qed.

Lemma reach0 : reachable payee db0.
Proof. eapply rtc_once, step_frame. split_and!; reflexivity. Qed.

Lemma reach1 : reachable payee db1.
Proof. eapply rtc_r; [apply reach0|]. apply (step_admit payee). apply wf_auth_seed. Qed.

Lemma row1 : spend_authorizations db1 !! auth_key = Some auth_row.
Proof. vm_refl. Qed.

Lemma rows1 : stored_preimages (spend_authorizations db1) = [authorizationPreimage payer "auth-1" ""].
Proof. vm_refl. Qed.

Lemma honest_db1 : honest payer "auth-1" "" db1.
Proof.
  split_and!; [reflexivity|reflexivity|]. unfold collision_free. rewrite rows1.
  constructor; [|constructor]. intros _. reflexivity.
Qed.

Lemma wholesale_accounts_solvent_witness :
  let acc := GetWholesaleAccount payer payee "" db1 in
  reserved acc = 60 /\ credited acc = 100 /\ 0 <= Available acc.
Proof.
  intros acc. split; [vm_refl|]. split; [vm_refl|].
  exact (proj2 (proj2 (proj2 (wholesale_accounts_solvent payee db1 payer payee "" reach1)))).
Defined.

Lemma wholesale_books_balance_witness :
  let acc := GetWholesaleAccount payer payee "" db1 in
  debited acc = msum (bill_share payee (wholesaleAccountKey payer payee "")) (spend_authorizations db1).
Proof. exact (proj2 (wholesale_books_balance payee db1 payer "" reach1)). Defined.

Lemma authorization_within_caps_witness :
  row_billed auth_row = BillFor (row_price auth_row) (au_PerUnits auth_row) (au_ActualUnits auth_row) /\
  row_billed auth_row + row_reserved auth_row <= row_max auth_row.
Proof.
  assert (GetWholesaleAuthorization payer "auth-1" "" db1 = Ok auth_row) as Hg.
  { vm_refl. }
  pose proof (authorization_within_caps payee db1 payer "auth-1" "" auth_row reach1 Hg ltac:(discriminate)) as (E & Hc & _).
  split; [exact E|]. apply Hc. discriminate.
Defined.

Lemma wholesale_totals_exact_witness :
  0 <= TotalsAvailable (GetWholesaleTotals db1) /\ TotalsAvailable (GetWholesaleTotals db1) = 40.
Proof.
  split; [|vm_refl]. exact (proj2 (proj2 (proj2 (wholesale_totals_exact payee db1 reach1)))).
Defined.

Lemma canceled_never_admitted_witness :
  let fp := replicate_byte 32 zero_byte in
  let out := CancelAuthorizationAdmission 4 payer payee "auth-9" fp "acct" db0 in
  let seed := mkWholesaleAuthorizationSeed "acct" "auth-9" fp payer payee "req" "sess" "http" "cap" "off" "10" 3
                "token" "60" 15 100 1 "" in
  exists e, AdmitWholesale seed "" None 5 out.2 = (Err e, out.2).
Proof.
  intros fp out seed.
  refine (proj1 (canceled_never_admitted payee 4 payer payee "auth-9" fp "acct" db0 out.2
    (mkCancelResult (new_account payer payee "acct") None true) out.2 seed "" None 5
    (answer _ _ _) eq_refl (rtc_refl _ _) eq_refl eq_refl eq_refl)).
  vm_refl.
Defined.

Lemma closed_never_readmitted_witness :
  let out := CloseUnexecutedAuthorization 6 6 payer payee "auth-1" "no binding" "" db1 in
  exists e, AdmitWholesale auth_seed "" None 7 out.2 = (Err e, out.2).
Proof.
  intros out.
  refine (proj1 (closed_never_readmitted payee 6 6 payer payee "auth-1" "no binding" "" db1 out.2 out.2 auth_seed "" None 7
    reach1 (answer _ _ _) (rtc_refl _ _) eq_refl eq_refl eq_refl)).
  vm_refl.
Defined.

Lemma settlement_exact_witness :
  let db' := (SettleWholesale payer payee "auth-1" 4 1 9 "" db1).2 in
  let acc' := GetWholesaleAccount payer payee "" db' in
  BillFor (row_price auth_row) (au_PerUnits auth_row) 4 = 14 /\
  debited acc' = debited (GetWholesaleAccount payer payee "" db1) +
    (BillFor (row_price auth_row) (au_PerUnits auth_row) 4 - row_billed auth_row) /\
  SettleWholesale payer payee "auth-1" 5 1 9 "" db' = (Err ErrAuthorizationSettlement, db').
Proof.
  intros db' acc'.
  assert (au_ActualUnits auth_row <= 4 <= au_MaxTotalUnits auth_row) as Hu by (vm_compute; split; discriminate).
  assert (BillFor (row_price auth_row) (au_PerUnits auth_row) 4 <= row_billed auth_row + row_reserved auth_row) as Hb
    by (vm_compute; discriminate).
  destruct (settlement_exact payee db1 payer "auth-1" "" auth_row 4 1 9 reach1 honest_db1 row1 eq_refl Hu eq_refl Hb)
    as (_ & _ & Hd & _ & _ & _ & Hother).
  split; [vm_refl|]. split; [exact Hd|]. apply Hother. left. discriminate.
Defined.

Lemma advance_exact_witness :
  let out := AdvanceWholesale payer payee "auth-1" 4 (Some 30) 1 "" 9 "" db1 in
  let acc' := GetWholesaleAccount payer payee "" out.2 in
  debited acc' = debited (GetWholesaleAccount payer payee "" db1) +
    (BillFor (row_price auth_row) (au_PerUnits auth_row) 4 - row_billed auth_row) /\
  reserved acc' = reserved (GetWholesaleAccount payer payee "" db1) - row_reserved auth_row + 30.
Proof.
  intros out acc'.
  assert (au_ActualUnits auth_row <= 4 <= au_MaxTotalUnits auth_row) as Hu by (vm_compute; split; discriminate).
  assert (BillFor (row_price auth_row) (au_PerUnits auth_row) 4 + 30 <= row_max auth_row) as Hb
    by (vm_compute; discriminate).
  assert (BillFor (row_price auth_row) (au_PerUnits auth_row) 4 - row_billed auth_row + 30 <=
    Available (GetWholesaleAccount payer payee "" db1) + row_reserved auth_row) as Hav by (vm_compute; discriminate).
  assert (opt_bucket (wholesale_advance_history db1) !! advanceHistoryKey payer "auth-1" "" 1 = None) as Hh by vm_refl.
  destruct (advance_exact payee db1 payer "auth-1" "" auth_row 4 30 1 9 reach1 Hh row1 eq_refl Hu eq_refl eq_refl
    ltac:(lia) Hb Hav) as (_ & _ & Hd & Hr & _).
  split; [exact Hd|exact Hr].
Defined.

Lemma admission_conserves_value_witness :
  let acc := GetWholesaleAccount payer payee "" in
  funding_balance payer "w" db1 + credited (acc db1) = funding_balance payer "w" db0 + credited (acc db0).
Proof. exact (proj1 (admission_conserves_value payee db0 auth_seed "w" None 5 reach0 eq_refl)). Defined.

(** An isolated account funded by two tickets of a stream. *)
Definition stream_sess : Session :=
  mkSession "acct" "stream" "w2" payer payee "cap" "off" "" 0 "" 0 "0" false 1 0 "77" "" "".
Abbreviation db2 := (with_sessions (<[compositeKey payer "w2" := stream_sess]> ∅) (Open (M := gmap string))) (only parsing).
Definition fund_tickets : list FundingTicket :=
  [mkFundingTicket 1 (Some 30) None ""; mkFundingTicket 2 (Some 12) None ""].
Definition fund_id : string := hex_encode (replicate_byte 32 zero_byte).
Definition fund_receipt : FundingReceipt :=
  mkFundingReceipt fund_id (mkWholesaleAccount "acct" payer payee "42" "0" "0" 1 8) "42".

Lemma reach2 : reachable payee db2.
Proof. eapply rtc_once, step_frame. split_and!; reflexivity. Qed.

Lemma ApplyWholesaleFunding_exact_demo :
  let out := ApplyWholesaleFunding payer payee "acct" "w2" fund_id fund_tickets 8 db2 in
  let acc := GetWholesaleAccount payer payee "acct" in
  total_credit fund_tickets = 42 /\ credited (acc out.2) = credited (acc db2) + total_credit fund_tickets /\
  ApplyWholesaleFunding payer payee "acct" "w2" fund_id fund_tickets 9 out.2 = (Ok (fund_receipt, true), out.2).
Proof.
  intros out acc. split; [vm_refl|].
  assert (out = (Ok (fund_receipt, false), out.2)) as Hout by (apply answer; vm_refl).
  destruct (ApplyWholesaleFunding_exact payee db2 payer payee "acct" "w2" fund_id fund_tickets 8 fund_receipt out.2 reach2 Hout)
    as (Hc & _ & _ & _ & _ & Hre).
  split; [exact Hc|]. apply Hre; [discriminate|vm_refl].
Defined.

Lemma freeze_drained_and_final_witness :
  let out := FreezeSource 8 "audit" db0 in
  SourceFence out.2 = Ok (mkSourceFenceState true "audit" 8) /\
  FreezeSource 9 "again" out.2 = (Ok (mkSourceFenceState true "audit" 8), out.2).
Proof.
  intros out.
  destruct (freeze_drained_and_final 8 "audit" db0 (mkSourceFenceState true "audit" 8) out.2) as (_ & Hf & _ & _ & Hag).
  - reflexivity.
  - discriminate.
  - simpl. rewrite msum_empty. reflexivity.
  - apply answer. vm_refl.
  - split; [exact Hf|]. apply Hag. discriminate.
Defined.

Definition demo_domain : string := "0x" +:+ replicate_byte 64 (byte_of 49).

Lemma settlement_domain_immutable_witness :
  let out := InitSettlementDomain (Ok "") demo_domain 42161 payee db0 in
  exists e, InitSettlementDomain (Ok "") "" 1 payee out.2 = (Err e, out.2).
Proof.
  intros out.
  refine (settlement_domain_immutable (Ok "") demo_domain 42161 payee db0 demo_domain out.2 (Ok "") "" 1 payee
    (answer _ _ _) _ _); [vm_refl|discriminate|vm_refl].
Defined.
