(* ===== verification/Tickets.v ===== *)
(** * Tickets: expected value, hashing and validation

    payment-daemon/internal/types (types.go, ticket.go) and
    internal/service/receiver/validator.  The go-ethereum functions the code
    calls are the operations of the interface [EthCrypto]; what a theorem needs
    of them is one of the named laws below. *)
From S2P Require Import Prelude.
From S2P Require Import GoBytes.
From Stdlib Require Import Ascii.

(** ** Expected value *)
Definition MaxWinProb : Z := 2 ^ 256 - 1.

(** [None] is a [nil] amount. *)
Definition CreditedEV (faceValue winProb : option Z) : Z :=
  match faceValue, winProb with
  | Some f, Some w => Z.quot (f * w) MaxWinProb
  | _, _ => 0
  end.

(** [EV]: the exact rational, as numerator and denominator. *)
Definition EV (faceValue winProb : option Z) : option (Z * Z) :=
  match faceValue, winProb with
  | Some f, Some w => Some (f * w, MaxWinProb)
  | _, _ => None
  end.

Definition ParseFaceValue (raw : string) : result error Z :=
  if len raw =? 0 then Err (ErrMsg "face_value is empty")
  else if 32 <? len raw then Err (ErrMsg "face_value exceeds the uint256 cap")
  else Ok (be_Z raw).

(** The credit is the expected value rounded down to a whole wei. *)
Lemma CreditedEV_floor f w :
  0 <= f -> 0 <= w ->
  CreditedEV (Some f) (Some w) * MaxWinProb <= f * w < (CreditedEV (Some f) (Some w) + 1) * MaxWinProb.
Proof.
  intros Hf Hw. unfold CreditedEV.
  pose proof (Z.quot_rem (f * w) MaxWinProb) as Hq.
  pose proof (Z.rem_bound_pos (f * w) MaxWinProb ltac:(lia) ltac:(reflexivity)) as Hr.
  specialize (Hq ltac:(discriminate)). lia.
Qed.

Lemma CreditedEV_bounds f w :
  0 <= f -> 0 <= w <= MaxWinProb -> 0 <= CreditedEV (Some f) (Some w) <= f.
Proof.
  intros Hf [Hw Hm]. pose proof (CreditedEV_floor f w Hf Hw). assert (0 < MaxWinProb) by reflexivity.
  split; [unfold CreditedEV; apply Z.quot_pos; lia|nia].
Qed.

(** ** Tickets *)
Record Ticket := mkTicket {
  tk_Recipient : string;
  tk_Sender : string;
  tk_FaceValue : option Z;
  tk_WinProb : option Z;
  tk_SenderNonce : Z;
  tk_RecipientRandHash : string;
  tk_CreationRound : Z;
  tk_CreationRoundHash : string;
}.

Definition addressSize : nat := 20.
Definition uint256Size : nat := 32.
Definition bytes32Size : nat := 32.

Definition allZero (b : string) : bool := is_zero_bytes b.

Definition safeBytes (v : option Z) : string :=
  match v with None => "" | Some v => big_bytes v end.

(** Left-padded to [n] bytes, cut from the front when longer. *)
Definition leftPad (b : string) (n : nat) : string :=
  if Z.of_nat n <=? len b then take_bytes n (drop_bytes (String.length b - n) b)
  else replicate_byte (n - String.length b) zero_byte +:+ b.

(** ** What the code calls of go-ethereum *)
Class EthCrypto := {
  (** [crypto.Keccak256], arguments concatenated. *)
  Keccak256 : string -> string;
  (** [common.LeftPadBytes]. *)
  LeftPadBytes : string -> nat -> string;
  (** [accounts.TextHash], the EIP-191 digest. *)
  TextHash : string -> string;
  (** [crypto.SigToPub] followed by [crypto.PubkeyToAddress]. *)
  SigToAddress : string -> string -> option string;
}.

(** [LeftPadBytes] zero-pads on the left up to the given length and returns a
    longer slice unchanged. *)
Definition LeftPadBytes_law `{EthCrypto} : Prop :=
  forall b n, LeftPadBytes b n =
    if Z.of_nat n <=? len b then b else replicate_byte (n - String.length b) zero_byte +:+ b.

(** [x] and [y] do not collide under Keccak-256. *)
Definition keccak_distinct `{EthCrypto} (x y : string) : Prop := Keccak256 x = Keccak256 y -> x = y.

Inductive validation_error :=
  | ErrInvalidRecipient
  | ErrInvalidSender
  | ErrInvalidRecipientRand
  | ErrInvalidSignature.

Section tickets.
Context `{EthCrypto}.

Definition AuxData (t : Ticket) : string :=
  let zero := allZero (tk_CreationRoundHash t) in
  if (tk_CreationRound t =? 0) && zero then ""
  else
    let hash := tk_CreationRoundHash t in
    let hash := if Z.of_nat bytes32Size <? len hash then take_bytes bytes32Size hash else hash in
    LeftPadBytes (big_bytes (tk_CreationRound t)) uint256Size +:+ LeftPadBytes hash bytes32Size.

Definition flatten (t : Ticket) : string :=
  leftPad (tk_Recipient t) addressSize +:+
  (leftPad (tk_Sender t) addressSize +:+
  (LeftPadBytes (safeBytes (tk_FaceValue t)) uint256Size +:+
  (LeftPadBytes (safeBytes (tk_WinProb t)) uint256Size +:+
  (LeftPadBytes (big_bytes (tk_SenderNonce t)) uint256Size +:+
  (leftPad (tk_RecipientRandHash t) bytes32Size +:+ AuxData t))))).

Definition Hash (t : Ticket) : string := Keccak256 (flatten t).

Definition HashRecipientRand (rand : option Z) : string :=
  Keccak256 (LeftPadBytes (big_bytes (default 0 rand)) uint256Size).

Definition WinningHash (sig : string) (rand : option Z) : Z :=
  be_Z (Keccak256 (sig +:+ LeftPadBytes (big_bytes (default 0 rand)) uint256Size)).

(** ** Validation *)
Definition secp256k1n : Z := 0xfffffffffffffffffffffffffffffffebaaedce6af48a03bbfd25e8cd0364141.
Definition secp256k1halfN : Z := secp256k1n / 2.

Definition isZeroAddr (b : string) : bool := (len b =? 0) || is_zero_bytes b.

(** The last byte of a 65-byte signature. *)
Definition sig_v (sig : string) : Z :=
  match drop_bytes 64 sig with String c _ => byte_val c | "" => 0 end.
Definition sig_s (sig : string) : Z := be_Z (take_bytes 32 (drop_bytes 32 sig)).

Definition verifySig (addr msg sig : string) : bool :=
  if negb (len sig =? 65) then false
  else if secp256k1halfN <? sig_s sig then false
  else if negb (sig_v sig =? 27) && negb (sig_v sig =? 28) then false
  else
    let ethSig := take_bytes 64 sig +:+ String (byte_of (sig_v sig - 27)) "" in
    match SigToAddress (TextHash msg) ethSig with
    | None => false
    | Some recovered => bool_decide (recovered = addr)
    end.

Definition Validate (recipient : string) (ticket : Ticket) (sig : string) (recipientRand : option Z)
    : result validation_error unit :=
  if negb (bool_decide (tk_Recipient ticket = recipient)) then Err ErrInvalidRecipient
  else if isZeroAddr (tk_Sender ticket) then Err ErrInvalidSender
  else if negb (bool_decide (HashRecipientRand recipientRand = tk_RecipientRandHash ticket))
  then Err ErrInvalidRecipientRand
  else if negb (verifySig (tk_Sender ticket) (Hash ticket) sig) then Err ErrInvalidSignature
  else Ok tt.

(** A [nil] win probability would panic; a ticket always carries one here. *)
Definition IsWinning (ticket : Ticket) (sig : string) (recipientRand : option Z) : bool :=
  WinningHash sig recipientRand <? default 0 (tk_WinProb ticket).

End tickets.
