(* ===== verification/TicketsSpec.v ===== *)
(** * What a ticket hash and a validated signature promise *)
From S2P Require Import Prelude.
From S2P Require Import GoBytes.
From S2P Require Import Tickets.
From Stdlib Require Import Ascii.

(** ** Fixed-width fields *)
Lemma be_acc_zeros n s : be_acc (replicate_byte n zero_byte +:+ s) 0 = be_acc s 0.
Proof. induction n as [|n IH]; [done|]. exact IH. Qed.

Lemma len_cons c s : len (String c s) = len s + 1.
Proof. unfold len. simpl String.length. lia. Qed.

Lemma len_big_bytes_go f n acc (k : nat) :
  0 <= n < 256 ^ Z.of_nat k -> len (big_bytes_go f n acc) <= Z.of_nat k + len acc.
Proof.
  revert n acc k. induction f as [|f IH]; intros n acc k Hn; simpl; [lia|].
  destruct (Z.eqb_spec n 0); [lia|].
  destruct k as [|k]; [simpl in Hn; lia|]. rewrite Nat2Z.inj_succ, Z.pow_succ_r in Hn by lia.
  etransitivity; [apply (IH _ _ k)|rewrite len_cons; lia].
  split; [apply Z.div_pos; lia|]. apply Z.div_lt_upper_bound; lia.
Qed.

Lemma len_big_bytes x (k : nat) : 0 <= x < 256 ^ Z.of_nat k -> len (big_bytes x) <= Z.of_nat k.
Proof.
  intros Hx. unfold big_bytes. rewrite Z.abs_eq by lia.
  etransitivity; [by apply (len_big_bytes_go _ _ _ k)|]. unfold len. simpl. lia.
Qed.

Section binding.
Context `{EthCrypto} (pad : LeftPadBytes_law).

Lemma len_pad b (n : nat) : len b <= Z.of_nat n -> len (LeftPadBytes b n) = Z.of_nat n.
Proof using pad.
  intros Hl. rewrite pad. destruct (Z.leb_spec (Z.of_nat n) (len b)); [lia|].
  rewrite len_app, len_replicate. unfold len in *. lia.
Qed.

Lemma pad_value b (n : nat) : be_Z (LeftPadBytes b n) = be_Z b.
Proof using pad.
  rewrite pad. destruct (Z.of_nat n <=? len b); [done|]. apply be_acc_zeros.
Qed.

(** A 256-bit field: always 32 bytes, and its bytes give the number back. *)
Lemma len_field x : 0 <= x < 2 ^ 256 -> len (LeftPadBytes (big_bytes x) uint256Size) = 32.
Proof using pad. intros Hx. apply (len_pad _ 32), (len_big_bytes x 32). exact Hx. Qed.

Lemma field_inj x y :
  0 <= x -> 0 <= y ->
  LeftPadBytes (big_bytes x) uint256Size = LeftPadBytes (big_bytes y) uint256Size -> x = y.
Proof using pad.
  intros Hx Hy E. apply (f_equal be_Z) in E. rewrite !pad_value, !be_Z_big_bytes in E. lia.
Qed.

Lemma drop_zero s : drop_bytes 0 s = s.
Proof. by destruct s. Qed.
Lemma take_all s : take_bytes (String.length s) s = s.
Proof. induction s as [|c s IH]; simpl; [done|]. by rewrite IH. Qed.

Lemma leftPad_exact b (n : nat) : len b = Z.of_nat n -> leftPad b n = b.
Proof.
  intros Hl. unfold leftPad. rewrite Hl, (proj2 (Z.leb_le _ _)) by lia.
  assert (n = String.length b) as -> by (unfold len in Hl; lia).
  by rewrite Nat.sub_diag, drop_zero, take_all.
Qed.

Lemma pad_exact b (n : nat) : len b = Z.of_nat n -> LeftPadBytes b n = b.
Proof using pad. intros Hl. by rewrite pad, Hl, (proj2 (Z.leb_le _ _)) by lia. Qed.

(** ** The hash binds every field *)

(** A ticket as the receiver builds it: full-width addresses and hashes,
    256-bit amounts, a 32-bit nonce, a round that is not negative. *)
Definition wf_ticket (t : Ticket) (f w : Z) : Prop :=
  len (tk_Recipient t) = 20 /\ len (tk_Sender t) = 20 /\
  tk_FaceValue t = Some f /\ 0 <= f < 2 ^ 256 /\ tk_WinProb t = Some w /\ 0 <= w < 2 ^ 256 /\
  0 <= tk_SenderNonce t < two32 /\ len (tk_RecipientRandHash t) = 32 /\
  0 <= tk_CreationRound t < two64 /\ len (tk_CreationRoundHash t) = 32.

(** The 32 zero bytes are the only all-zero hash. *)
Lemma all_zero_unique s : is_zero_bytes s = true -> s = replicate_byte (String.length s) zero_byte.
Proof.
  unfold is_zero_bytes. induction s as [|c s IH]; cbn; [done|]. intros Hz. to_prop. subst. f_equal. by apply IH.
Qed.

Lemma all_zero_hash s : len s = 32 -> is_zero_bytes s = true -> s = replicate_byte 32 zero_byte.
Proof.
  intros Hl Hz%all_zero_unique. assert (String.length s = 32%nat) as E by (unfold len in Hl; lia). by rewrite E in Hz.
Qed.

Lemma AuxData_inj t t' f w f' w' :
  wf_ticket t f w -> wf_ticket t' f' w' -> AuxData t = AuxData t' ->
  tk_CreationRound t = tk_CreationRound t' /\ tk_CreationRoundHash t = tk_CreationRoundHash t'.
Proof using pad.
  intros (_ & _ & _ & _ & _ & _ & _ & _ & Hr & Hh) (_ & _ & _ & _ & _ & _ & _ & _ & Hr' & Hh') E.
  assert (two64 <= 2 ^ 256) as H64 by (by vm_compute).
  assert (forall u, 0 <= tk_CreationRound u < two64 -> len (tk_CreationRoundHash u) = 32 ->
    AuxData u = if (tk_CreationRound u =? 0) && allZero (tk_CreationRoundHash u) then ""
                else LeftPadBytes (big_bytes (tk_CreationRound u)) uint256Size +:+ tk_CreationRoundHash u) as Haux.
  { intros u Hu Hl. unfold AuxData. rewrite Hl. change (Z.of_nat bytes32Size <? 32) with false. cbv beta zeta iota.
    by rewrite (pad_exact (tk_CreationRoundHash u) bytes32Size). }
  rewrite !Haux in E by done. clear Haux.
  assert (forall u v, 0 <= u < two64 -> len (LeftPadBytes (big_bytes u) uint256Size +:+ v) = 32 + len v) as Hlen.
  { intros u v Hu. rewrite len_app, len_field by lia. done. }
  destruct (_ && _) eqn:Hz in E; destruct (_ && _) eqn:Hz' in E; to_prop.
  - split; [congruence|]. by rewrite (all_zero_hash (tk_CreationRoundHash t)), (all_zero_hash (tk_CreationRoundHash t')).
  - exfalso. apply (f_equal len) in E. rewrite Hlen, Hh' in E by done. discriminate E.
  - exfalso. apply (f_equal len) in E. rewrite Hlen, Hh in E by done. discriminate E.
  - apply app_inv_len in E as [E ->]; [|by rewrite !len_field by lia]. split; [|done].
    apply field_inj in E; [done|lia|lia].
Qed.

Lemma flatten_inj t t' f w f' w' :
  wf_ticket t f w -> wf_ticket t' f' w' -> flatten t = flatten t' -> t = t'.
Proof using pad.
  intros Wt Wt' E. pose proof Wt as (H1 & H2 & H3 & H4 & H5 & H6 & H7 & H8 & _).
  pose proof Wt' as (H1' & H2' & H3' & H4' & H5' & H6' & H7' & H8' & _).
  assert (two32 <= 2 ^ 256) as H32 by (by vm_compute).
  unfold flatten in E. rewrite H3, H3', H5, H5' in E. simpl safeBytes in E.
  rewrite !(leftPad_exact _ addressSize), !(leftPad_exact _ bytes32Size) in E by done.
  apply app_inv_len in E as [E1 E]; [|lia]. apply app_inv_len in E as [E2 E]; [|lia].
  apply app_inv_len in E as [E3%field_inj E]; [|lia|lia|by rewrite !len_field by lia].
  apply app_inv_len in E as [E4%field_inj E]; [|lia|lia|by rewrite !len_field by lia].
  apply app_inv_len in E as [E5%field_inj E]; [|lia|lia|by rewrite !len_field by lia].
  apply app_inv_len in E as [E6 E]; [|lia].
  destruct (AuxData_inj _ _ _ _ _ _ Wt Wt' E) as [E7 E8].
  destruct t, t'. simpl in *. congruence.
Qed.

(** The ticket hash binds every field: two well-formed tickets with the
    same hash are the same ticket (recipient, sender, amounts, nonce, rand
    hash, round and round hash), given that Keccak-256 does not collide on
    their encodings; a signature over the hash commits the payer to all of it. *)
Theorem ticket_hash_binds t t' f w f' w' :
  wf_ticket t f w -> wf_ticket t' f' w' -> keccak_distinct (flatten t) (flatten t') ->
  Hash t = Hash t' -> t = t'.
Proof using pad. intros Wt Wt' Hk E%Hk. by eapply flatten_inj. Qed.

(** ** Signatures *)

(** The malleated twin of a signature: same [r], [s] negated modulo the group
    order, any recovery byte. *)
Definition twin (sig : string) (v : Z) : string :=
  take_bytes 32 sig +:+ (be_bytes 32 (secp256k1n - sig_s sig) +:+ String (byte_of v) "").

Lemma len_take n s : (n <= String.length s)%nat -> String.length (take_bytes n s) = n.
Proof. revert s. induction n as [|n IH]; intros [|c s] Hn; simpl in *; try lia. by rewrite IH by lia. Qed.

Lemma take_app_exact a b : take_bytes (String.length a) (a +:+ b) = a.
Proof. induction a as [|c a IH]; simpl; [by destruct b|]. by rewrite IH. Qed.

Lemma sig_s_twin sig v :
  len sig = 65 -> 0 <= sig_s sig <= secp256k1n -> sig_s (twin sig v) = secp256k1n - sig_s sig.
Proof.
  intros Hl Hs. unfold sig_s at 1, twin.
  assert (String.length (take_bytes 32 sig) = 32%nat) as E by (apply len_take; unfold len in Hl; lia).
  rewrite <- E at 2. rewrite drop_bytes_app.
  pose proof (len_be_bytes 32 (secp256k1n - sig_s sig)) as El.
  assert (32%nat = String.length (be_bytes 32 (secp256k1n - sig_s sig))) as -> by (unfold len in El; lia).
  rewrite take_app_exact. apply (be_Z_bytes 32).
  assert (secp256k1n < 256 ^ Z.of_nat 32) by (by vm_compute). lia.
Qed.

(** C33: Validation is sound and leaves no malleable twin: a ticket that
    validates names this recipient, a non-zero sender, the preimage of its rand
    hash, and carries a 65-byte low-s signature with v 27 or 28 whose EIP-191
    recovery is the sender; and the same ticket with the negated-s twin of that
    signature, which the curve equation also accepts, is refused. *)
Theorem validated_ticket_sound recipient t sig rand v :
  Validate recipient t sig rand = Ok tt ->
  tk_Recipient t = recipient /\ isZeroAddr (tk_Sender t) = false /\
  HashRecipientRand rand = tk_RecipientRandHash t /\
  len sig = 65 /\ sig_s sig <= secp256k1halfN /\ (sig_v sig = 27 \/ sig_v sig = 28) /\
  SigToAddress (TextHash (Hash t)) (take_bytes 64 sig +:+ String (byte_of (sig_v sig - 27)) "") = Some (tk_Sender t) /\
  Validate recipient t (twin sig v) rand = Err ErrInvalidSignature.
Proof.
  unfold Validate. destruct (bool_decide (tk_Recipient t = recipient)) eqn:H1; [|done]. simpl.
  destruct (isZeroAddr (tk_Sender t)) eqn:H2; [done|].
  destruct (bool_decide (HashRecipientRand rand = tk_RecipientRandHash t)) eqn:H3; [|done]. simpl.
  destruct (verifySig (tk_Sender t) (Hash t) sig) eqn:H4; [|done]. intros _.
  unfold verifySig in H4. destruct (Z.eqb_spec (len sig) 65) as [Hl|]; [|done]. simpl in H4.
  destruct (Z.ltb_spec secp256k1halfN (sig_s sig)) as [|Hs]; [done|].
  destruct (negb (sig_v sig =? 27) && negb (sig_v sig =? 28)) eqn:Hv; [done|].
  destruct (SigToAddress _ _) as [rec|] eqn:Hr; [|done]. to_prop. subst rec.
  split_and!; try done.
  - destruct Hv; to_prop; [by left|by right].
  - assert (0 <= sig_s sig) as H0 by (apply (be_acc_bound _ 0); lia).
    assert (2 * secp256k1halfN < secp256k1n) as Hn by (by vm_compute).
    unfold verifySig. rewrite sig_s_twin by lia.
    rewrite (proj2 (Z.ltb_lt secp256k1halfN (secp256k1n - sig_s sig))) by lia.
    by destruct (negb (len (twin sig v) =? 65)).
Qed.

End binding.

(** ** A concrete instance of the interface *)
Definition demo_sender : string := "alice-address-20byte".
Definition demo_eth : EthCrypto := {|
  Keccak256 x := x;
  LeftPadBytes b n :=
    if Z.of_nat n <=? len b then b else replicate_byte (n - String.length b) zero_byte +:+ b;
  TextHash m := m;
  SigToAddress _ _ := Some demo_sender;
|}.

Lemma demo_pad : @LeftPadBytes_law demo_eth.
Proof. intros b n. reflexivity. Qed.

Definition demo_ticket (nonce : Z) : Ticket :=
  mkTicket "payee-address-20byte" demo_sender (Some 1000) (Some 77) nonce (be_bytes 32 5) 3 (be_bytes 32 9).

Lemma wf_demo_ticket nonce : 0 <= nonce < two32 -> wf_ticket (demo_ticket nonce) 1000 77.
Proof. intros [H0 H1]. split_and!; first [exact H0|exact H1|reflexivity|(vm_compute; discriminate)]. Qed.

(** Two tickets that differ only in their nonce hash differently. *)
Lemma ticket_hash_binds_witness : @Hash demo_eth (demo_ticket 1) <> @Hash demo_eth (demo_ticket 2).
Proof.
  intros E.
  assert (demo_ticket 1 = demo_ticket 2) as E'.
  { apply (@ticket_hash_binds demo_eth demo_pad (demo_ticket 1) (demo_ticket 2) 1000 77 1000 77).
    - apply wf_demo_ticket. unfold two32. lia.
    - apply wf_demo_ticket. unfold two32. lia.
    - intros Hk. exact Hk.
    - exact E. }
  discriminate E'.
Defined.

Definition demo_sig : string := be_bytes 32 11 +:+ (be_bytes 32 12 +:+ String (byte_of 27) "").

Lemma validated_ticket_sound_witness :
  sig_s demo_sig <= secp256k1halfN /\
  @Validate demo_eth "payee-address-20byte" (demo_ticket 1) (twin demo_sig 28) (Some 5) = Err ErrInvalidSignature.
Proof.
  destruct (@validated_ticket_sound demo_eth "payee-address-20byte" (demo_ticket 1) demo_sig (Some 5) 28)
    as (_ & _ & _ & _ & Hs & _ & _ & Hv); [vm_refl|].
  split; [exact Hs|exact Hv].
Defined.
