(* ===== verification/Escrow.v ===== *)
(** * Escrow: how much of a sender's money is safe to rely on

    payment-daemon/internal/service/escrow/escrow.go.  The service keeps, in
    memory, the face value of in-flight redemptions per sender; the sender's
    on-chain deposit and reserve come from the chain ([GetSenderInfo]) and the
    pool size from the chain clock, both arguments here. *)
From S2P Require Import Prelude.
From S2P Require Import GoBytes.
From S2P Require Import Bolt.
From S2P Require Import Ledger.
From S2P Require Import Redemptions.
From S2P Require Import RedemptionsSpec.

(** ** The chain's view of a sender (providers.go); [None] is a [nil] pointer *)
Record Reserve := mkReserve {
  rv_FundsRemaining : option Z;
  rv_Claimed : option (gmap string (option Z));
}.
Record SenderInfo := mkSenderInfo {
  si_Deposit : option Z;
  si_Reserve : option Reserve;
  si_WithdrawRound : Z;
}.

(** ** The service *)
Record Escrow := mkEscrow {
  es_Claimant : string;
  es_pending : gmap string Z;
}.

Definition MinDepositPendingRatio : Z := 3.

(** [ErrPendingUnderflow] is the only error the service makes itself. *)
Inductive escrow_error := ErrPendingUnderflow.

Definition NewEscrow (claimant : string) : Escrow := mkEscrow claimant ∅.

Definition nilToZero (v : option Z) : Z := default 0 v.

(** [strings.ToLower(fmt.Sprintf("%x", sender))]: [%x] is already lower case. *)
Definition pendingKey (sender : string) : string := hex_encode sender.

(** Looking a sender up creates its entry. *)
Definition getPendingLocked (sender : string) (e : Escrow) : Z * Escrow :=
  match es_pending e !! pendingKey sender with
  | Some v => (v, e)
  | None => (0, mkEscrow (es_Claimant e) (<[pendingKey sender := 0]> (es_pending e)))
  end.

Definition getPending (sender : string) (e : Escrow) : Z * Escrow := getPendingLocked sender e.
Definition Pending (sender : string) (e : Escrow) : Z * Escrow := getPending sender e.

(** What the claimant has already drawn this round; only our own claim is
    filled in by the broker. *)
Definition claimedByMe (claimant : string) (reserve : Reserve) : Z :=
  match rv_Claimed reserve with
  | None => 0
  | Some claimed =>
      if 0 <? len claimant then nilToZero (default None (claimed !! ("0x" +:+ hex_encode claimant))) else 0
  end.

Definition reserveAlloc (claimant : string) (pool : option Z) (info : SenderInfo) : Z :=
  match si_Reserve info, pool with
  | Some reserve, Some pool =>
      if pool =? 0 then 0
      else
        let claimed := claimedByMe claimant reserve in
        let total := nilToZero (rv_FundsRemaining reserve) + claimed in
        Z.quot total pool - claimed
  | _, _ => 0
  end.

(** [info] and [pool] are the answers of the broker and the clock. *)
Definition MaxFloat {E} (info : result E SenderInfo) (pool : option Z) (sender : string) (e : Escrow)
    : result E Z * Escrow :=
  match info with
  | Err err => (Err err, e)
  | Ok info =>
      let alloc := reserveAlloc (es_Claimant e) pool info in
      let deposit := nilToZero (si_Deposit info) in
      let '(pending, e) := getPending sender e in
      if pending =? 0 then (Ok (alloc + deposit), e)
      else if pending * MinDepositPendingRatio <=? deposit then (Ok (alloc + deposit), e)
      else (Ok (alloc + deposit - pending), e)
  end.

Definition AvailableFunds {E} (info : result E SenderInfo) (pool : option Z) (sender : string) (e : Escrow)
    : result E Z * Escrow :=
  match info with
  | Err err => (Err err, e)
  | Ok info =>
      let alloc := reserveAlloc (es_Claimant e) pool info in
      let deposit := nilToZero (si_Deposit info) in
      let '(pending, e) := getPending sender e in
      (Ok (alloc + deposit - pending), e)
  end.

Definition put_pending (sender : string) (v : Z) (e : Escrow) : Escrow :=
  mkEscrow (es_Claimant e) (<[pendingKey sender := v]> (es_pending e)).

Definition SubFloat (sender : string) (amount : option Z) (e : Escrow) : Escrow :=
  match amount with
  | None => e
  | Some amount =>
      if amount =? 0 then e
      else let '(p, e) := getPendingLocked sender e in put_pending sender (p + amount) e
  end.

Definition AddFloat (sender : string) (amount : option Z) (e : Escrow) : result escrow_error unit * Escrow :=
  match amount with
  | None => (Ok tt, e)
  | Some amount =>
      if amount =? 0 then (Ok tt, e)
      else
        let '(p, e) := getPendingLocked sender e in
        if p <? amount then (Err ErrPendingUnderflow, e)
        else (Ok tt, put_pending sender (p - amount) e)
  end.

(** A queued record always decodes to a ticket with a face value, so the
    loop's [nil] guard never skips one. *)
Definition rebuild_step (e : Escrow) (p : PendingRedemption) : Escrow :=
  let '(v, e) := getPendingLocked (st_Sender (pr_Ticket p)) e in
  put_pending (st_Sender (pr_Ticket p)) (v + st_FaceValue (pr_Ticket p)) e.

Definition Rebuild `{Bolt M} (db : DB M) (e : Escrow) : Escrow :=
  foldl rebuild_step e (PendingRedemptions db).

(** ** What the service keeps per sender *)
Definition pending_of (sender : string) (e : Escrow) : Z := default 0 (es_pending e !! pendingKey sender).

(** The entries [getPendingLocked] creates are invisible: two escrows are
    equivalent when every sender has the same pending amount. *)
Definition escrow_equiv (e e' : Escrow) : Prop :=
  es_Claimant e = es_Claimant e' /\ forall sender, pending_of sender e = pending_of sender e'.

#[export] Instance escrow_equiv_equivalence : Equivalence escrow_equiv.
Proof.
  split.
  - by split.
  - intros e e' [Hc Hp]. by split.
  - intros e1 e2 e3 [Hc Hp] [Hc' Hp']. split; [congruence|]. intros s. by rewrite Hp.
Qed.

#[export] Instance pendingKey_inj : Inj (=) (=) pendingKey := hex_encode_inj.

Lemma getPendingLocked_spec sender e :
  (getPendingLocked sender e).1 = pending_of sender e /\ escrow_equiv (getPendingLocked sender e).2 e.
Proof.
  unfold getPendingLocked, pending_of at 1. destruct (es_pending e !! pendingKey sender) eqn:E; [done|].
  split; [done|]. split; [done|]. intros s. unfold pending_of. simpl.
  destruct (decide (s = sender)) as [->|Hne]; [by rewrite lookup_insert_eq, E|].
  rewrite lookup_insert_ne; [done|]. intros <-%(inj pendingKey). done.
Qed.

Lemma pending_of_put sender sender' v e :
  pending_of sender' (put_pending sender v e) = if decide (sender' = sender) then v else pending_of sender' e.
Proof.
  unfold pending_of, put_pending. simpl. case_decide as Hs; [subst; by rewrite lookup_insert_eq|].
  rewrite lookup_insert_ne; [done|]. intros E. apply Hs. by apply (inj pendingKey) in E.
Qed.

Lemma SubFloat_spec sender amount e sender' :
  pending_of sender' (SubFloat sender (Some amount) e) =
    pending_of sender' e + if decide (sender' = sender) then amount else 0.
Proof.
  unfold SubFloat. destruct (Z.eqb_spec amount 0) as [->|Ha]; [case_decide; lia|].
  destruct (getPendingLocked_spec sender e) as [E [_ E']].
  destruct (getPendingLocked sender e) as [p e']. simpl in E, E'. subst p.
  rewrite pending_of_put. case_decide as Hs; [by subst|]. rewrite E'. lia.
Qed.

Lemma SubFloat_claimant sender amount e : es_Claimant (SubFloat sender amount e) = es_Claimant e.
Proof.
  unfold SubFloat. destruct amount as [a|]; [|done]. destruct (a =? 0); [done|].
  destruct (getPendingLocked_spec sender e) as [_ [Hc _]]. by destruct (getPendingLocked sender e).
Qed.

(** A release is refused exactly when more would be released than is held. *)
Lemma AddFloat_spec sender amount e :
  0 <= amount <= pending_of sender e ->
  (AddFloat sender (Some amount) e).1 = Ok tt /\ es_Claimant (AddFloat sender (Some amount) e).2 = es_Claimant e /\
  forall sender', pending_of sender' (AddFloat sender (Some amount) e).2 =
    pending_of sender' e - if decide (sender' = sender) then amount else 0.
Proof.
  intros Ha. unfold AddFloat. destruct (Z.eqb_spec amount 0) as [->|Ha'].
  { split_and!; [done|done|]. intros s. case_decide; simpl; lia. }
  destruct (getPendingLocked_spec sender e) as [E [Hc E']].
  destruct (getPendingLocked sender e) as [p e']. simpl in E, E', Hc. subst p.
  destruct (Z.ltb_spec (pending_of sender e) amount); [lia|]. split_and!; [done|done|].
  intros s. cbn [snd]. rewrite pending_of_put. case_decide as Hs; [by subst|]. rewrite E'. lia.
Qed.

(** Reserving and releasing the same amount is the identity up to
    [escrow_equiv], and the release cannot underflow. *)
Lemma reserve_release_neutral sender amount e :
  0 <= amount -> 0 <= pending_of sender e ->
  let r := AddFloat sender (Some amount) (SubFloat sender (Some amount) e) in
  r.1 = Ok tt /\ escrow_equiv r.2 e.
Proof.
  intros Ha Hp. destruct (AddFloat_spec sender amount (SubFloat sender (Some amount) e)) as (E & Hc & Hs).
  { rewrite SubFloat_spec, decide_True by done. lia. }
  split; [done|]. split; [by rewrite Hc, SubFloat_claimant|]. intros s. rewrite Hs, SubFloat_spec. lia.
Qed.

(** The face value a sender has queued. *)
Definition queued_for (sender : string) (l : list PendingRedemption) : Z :=
  foldr (fun p acc => (if decide (sender = st_Sender (pr_Ticket p)) then st_FaceValue (pr_Ticket p) else 0) + acc) 0 l.

Lemma rebuild_step_spec e p sender :
  pending_of sender (rebuild_step e p) = pending_of sender e +
    if decide (sender = st_Sender (pr_Ticket p)) then st_FaceValue (pr_Ticket p) else 0.
Proof.
  unfold rebuild_step. destruct (getPendingLocked_spec (st_Sender (pr_Ticket p)) e) as [E [_ E']].
  destruct (getPendingLocked _ e) as [v e']. simpl in E, E'. subst v.
  rewrite pending_of_put. case_decide as Hs; [by subst|]. rewrite E'. lia.
Qed.

Lemma Rebuild_spec `{Bolt M} (db : DB M) e sender :
  pending_of sender (Rebuild db e) = pending_of sender e + queued_for sender (PendingRedemptions db).
Proof.
  unfold Rebuild. generalize (PendingRedemptions db) as l. intros l. revert e.
  induction l as [|p l IH]; intros e; cbn [foldl queued_for foldr]; [lia|].
  rewrite IH, rebuild_step_spec. unfold queued_for. lia.
Qed.

Lemma Rebuild_claimant `{Bolt M} (db : DB M) e : es_Claimant (Rebuild db e) = es_Claimant e.
Proof.
  unfold Rebuild. generalize (PendingRedemptions db) as l. intros l. revert e.
  induction l as [|p l IH]; intros e; simpl; [done|]. rewrite IH. unfold rebuild_step.
  destruct (getPendingLocked_spec (st_Sender (pr_Ticket p)) e) as [_ [Hc _]]. by destruct (getPendingLocked _ e).
Qed.

(** ** What a sender can be relied on for *)
Definition funds (claimant : string) (pool : option Z) (info : SenderInfo) : Z :=
  reserveAlloc claimant pool info + nilToZero (si_Deposit info).

Lemma AvailableFunds_Ok {E} info pool sender e :
  (AvailableFunds (E := E) (Ok info) pool sender e).1 = Ok (funds (es_Claimant e) pool info - pending_of sender e) /\
  escrow_equiv (AvailableFunds (E := E) (Ok info) pool sender e).2 e.
Proof.
  unfold AvailableFunds, getPending, funds. destruct (getPendingLocked_spec sender e) as [E1 E2].
  destruct (getPendingLocked sender e). simpl in *. by subst.
Qed.

(** The float ceiling of a sender is its deposit plus its reserve share,
    less what is in flight unless the deposit is at least three times that; it
    lies between the funds that are certainly free and the sender's whole
    funds, the read does not disturb the books, and what was already claimed
    plus the reserve share never exceeds an equal split of the reserve among
    the pool. *)
Theorem max_float_bounds {E} info pool sender e :
  0 <= pending_of sender e ->
  let r := MaxFloat (E := E) (Ok info) (Some pool) sender e in
  let avail := funds (es_Claimant e) (Some pool) info - pending_of sender e in
  (exists v, r.1 = Ok v /\ avail <= v <= funds (es_Claimant e) (Some pool) info /\
     (v = avail \/ (v = funds (es_Claimant e) (Some pool) info /\
        (pending_of sender e = 0 \/ 3 * pending_of sender e <= nilToZero (si_Deposit info))))) /\
  escrow_equiv r.2 e /\
  (0 < pool -> forall reserve, si_Reserve info = Some reserve ->
     let claimed := claimedByMe (es_Claimant e) reserve in
     0 <= nilToZero (rv_FundsRemaining reserve) + claimed ->
     pool * (reserveAlloc (es_Claimant e) (Some pool) info + claimed)
       <= nilToZero (rv_FundsRemaining reserve) + claimed).
Proof.
  intros Hp r avail. subst r avail. unfold MaxFloat, getPending, funds.
  destruct (getPendingLocked_spec sender e) as [E1 E2].
  destruct (getPendingLocked sender e) as [p e']. cbn [fst snd] in E1, E2. subst p.
  set (alloc := reserveAlloc (es_Claimant e) (Some pool) info). set (dep := nilToZero (si_Deposit info)).
  split_and!.
  - destruct (Z.eqb_spec (pending_of sender e) 0) as [Hz|Hz];
      [|destruct (Z.leb_spec (pending_of sender e * MinDepositPendingRatio) dep) as [Hl|Hl]];
      cbn [fst]; eexists; (split; [done|]); unfold MinDepositPendingRatio in *; (split; [lia|]).
    + right. split; [done|]. by left.
    + right. split; [done|]. right. lia.
    + left. lia.
  - by destruct (_ =? 0); [|destruct (_ <=? _)].
  - intros Hpos reserve Hr Hn. unfold alloc, reserveAlloc. rewrite Hr.
    destruct (Z.eqb_spec pool 0); [lia|]. rewrite Z.sub_add. by apply Z.mul_quot_le.
Qed.

Lemma max_float_bounds_witness :
  let info := mkSenderInfo (Some 100) (Some (mkReserve (Some 40) None)) 0 in
  let r := MaxFloat (E := unit) (Ok info) (Some 4) "alice" (SubFloat "alice" (Some 60) (NewEscrow "me")) in
  r.1 = Ok 50 /\ exists v, r.1 = Ok v /\ 50 <= v <= 110.
Proof.
  intros info r. split; [vm_refl|].
  destruct (max_float_bounds (E := unit) info 4 "alice" (SubFloat "alice" (Some 60) (NewEscrow "me"))
    ltac:(vm_compute; discriminate)) as [(v & E & B & _) _].
  exists v. split; [exact E|]. exact B.
Defined.
