(* ===== verification/ChainErrors.v ===== *)
(** * Error values and their classification (chain-commons/errors/errors.go)

    A Go error is a tree: a sentinel, a chain-commons [*Error], go-ethereum's
    [NotFound], a plain message, or a [%w] wrapper around one of them.
    [errors.Is], [errors.As] and [Error] walk it, and [Classify] decides what
    a retry could still change. *)
From S2P Require Import Prelude.
From S2P Require Import GoBytes.
From Stdlib Require Import Ascii.

(** ** Substrings *)

(** [strings.ToLower], for messages in ASCII. *)
Definition lower (c : ascii) : ascii :=
  if (65 <=? byte_val c) && (byte_val c <=? 90) then byte_of (byte_val c + 32) else c.
Fixpoint ToLower (s : string) : string :=
  match s with "" => "" | String c s' => String (lower c) (ToLower s') end.

(** [strings.Contains]. *)
Fixpoint Contains (s substr : string) : bool :=
  hasPrefix s substr || match s with "" => false | String _ s' => Contains s' substr end.

Lemma Contains_app p s substr : Contains s substr = true -> Contains (p +:+ s) substr = true.
Proof.
  intros Hs. induction p as [|c p IH]; [done|]. change (String c p +:+ s) with (String c (p +:+ s)).
  cbn [Contains]. rewrite IH. apply orb_true_r.
Qed.

(** ** Error values *)
Inductive ErrorClass :=
  | ClassUnknown | ClassTransient | ClassPermanent | ClassReverted | ClassNoncePast
  | ClassInsufficientFunds | ClassReorged | ClassCircuitOpen | ClassNotFound.

#[export] Instance ErrorClass_eq_dec : EqDecision ErrorClass.
Proof. solve_decision. Defined.

(** The sentinels of the settlement service and of the broker it calls. *)
Inductive sentinel :=
  | ErrTicketUsed | ErrTicketExpired | ErrFaceValueTooLow | ErrInsufficientFunds
  | ErrTicketAlreadyUsed | ErrRedemptionReverted.

#[export] Instance sentinel_eq_dec : EqDecision sentinel.
Proof. solve_decision. Defined.

Inductive goerr :=
  | GSentinel (s : sentinel)
  | GChain (class : ErrorClass) (code msg : string)
  | GChainWrap (class : ErrorClass) (code msg : string) (cause : goerr)
  | GNotFound
  | GPlain (msg : string)
  | GWrap (prefix : string) (cause : goerr).

#[export] Instance goerr_eq_dec : EqDecision goerr.
Proof. solve_decision. Defined.

Definition sentinel_msg (s : sentinel) : string :=
  match s with
  | ErrTicketUsed => "settlement: ticket already used on-chain"
  | ErrTicketExpired => "settlement: ticket creationRound past validity window"
  | ErrFaceValueTooLow => "settlement: face value below tx cost"
  | ErrInsufficientFunds => "settlement: insufficient sender funds"
  | ErrTicketAlreadyUsed => "broker: ticket already used on-chain"
  | ErrRedemptionReverted => "broker: redemption transaction reverted"
  end.

Fixpoint Error (e : goerr) : string :=
  match e with
  | GSentinel s => sentinel_msg s
  | GChain _ code msg => code +:+ (": " +:+ msg)
  | GChainWrap _ code msg cause => code +:+ (": " +:+ (msg +:+ (": " +:+ Error cause)))
  | GNotFound => "not found"
  | GPlain msg => msg
  | GWrap prefix cause => prefix +:+ (": " +:+ Error cause)
  end.

(** [errors.Is] against a sentinel: [*Error]'s own [Is] only answers for
    another [*Error]. *)
Fixpoint Is (e : goerr) (target : sentinel) : bool :=
  match e with
  | GSentinel s => bool_decide (s = target)
  | GChainWrap _ _ _ cause | GWrap _ cause => Is cause target
  | GChain _ _ _ | GNotFound | GPlain _ => false
  end.

Fixpoint IsNotFound (e : goerr) : bool :=
  match e with
  | GNotFound => true
  | GChainWrap _ _ _ cause | GWrap _ cause => IsNotFound cause
  | GSentinel _ | GChain _ _ _ | GPlain _ => false
  end.

(** A chain-commons [*Error] by itself. *)
Record CError := mkCError {
  ce_Class : ErrorClass;
  ce_Code : string;
  ce_Msg : string;
  ce_Cause : option goerr;
}.
#[export] Instance CError_eq_dec : EqDecision CError.
Proof. solve_decision. Defined.

Definition CError_error (e : CError) : goerr :=
  match ce_Cause e with
  | None => GChain (ce_Class e) (ce_Code e) (ce_Msg e)
  | Some cause => GChainWrap (ce_Class e) (ce_Code e) (ce_Msg e) cause
  end.

(** [errors.As] to [*Error]: the outermost one. *)
Fixpoint AsError (e : goerr) : option CError :=
  match e with
  | GChain class code msg => Some (mkCError class code msg None)
  | GChainWrap class code msg cause => Some (mkCError class code msg (Some cause))
  | GWrap _ cause => AsError cause
  | GSentinel _ | GNotFound | GPlain _ => None
  end.

(** ** Classification *)
Definition any_of (msg : string) (subs : list string) : bool := existsb (Contains msg) subs.

Definition Classify (e : goerr) : CError :=
  let wrapped class code msg := mkCError class code msg (Some e) in
  match AsError e with
  | Some ce => ce
  | None =>
      if IsNotFound e then wrapped ClassNotFound "rpc.not_found" "object not found on the endpoint (not yet mined or unknown)"
      else
        let msg := ToLower (Error e) in
        if any_of msg ["nonce too low"; "nonce already used"]
        then wrapped ClassNoncePast "tx.nonce_past" "transaction nonce is stale"
        else if any_of msg ["insufficient funds"]
        then wrapped ClassInsufficientFunds "tx.insufficient_funds" "wallet balance insufficient for transaction"
        else if any_of msg ["execution reverted"; "vm execution error"]
        then wrapped ClassReverted "tx.reverted" "transaction mined but reverted on-chain"
        else if any_of msg ["invalid argument"; "invalid params"]
        then wrapped ClassPermanent "rpc.invalid_argument" "invalid argument to RPC call"
        else if any_of msg ["eof"; "connection reset"; "use of closed connection"; "connection refused";
                            "tls: use of closed connection"]
        then wrapped ClassTransient "rpc.connection_error" "connection error to RPC"
        else if any_of msg ["context deadline exceeded"; "timeout"]
        then wrapped ClassTransient "rpc.timeout" "RPC call timed out"
        else if any_of msg ["429"; "rate limit"; "too many requests"]
        then wrapped ClassTransient "rpc.rate_limited" "RPC endpoint rate-limited"
        else if any_of msg ["unsupported block number"; "block not found"]
        then wrapped ClassTransient "rpc.block_not_synced" "RPC node has not yet synced the requested block"
        else wrapped ClassTransient "rpc.unknown" "unclassified error from RPC"
  end.

(** A classified error is not classified again. *)
Lemma Classify_CError ce : Classify (CError_error ce) = ce.
Proof. by destruct ce as [class code msg [cause|]]. Qed.

Definition IsTransient (e : goerr) : bool := bool_decide (ce_Class (Classify e) = ClassTransient).

Definition IsPermanent (e : goerr) : bool :=
  match ce_Class (Classify e) with
  | ClassPermanent | ClassReverted | ClassNoncePast | ClassInsufficientFunds => true
  | _ => false
  end.

(** An error is never both worth retrying and beyond retrying, and an
    explicit classification survives any wrapping. *)
Lemma transient_not_permanent e : IsTransient e = true -> IsPermanent e = false.
Proof. unfold IsTransient, IsPermanent. intros H%bool_decide_eq_true. by rewrite H. Qed.

Lemma Classify_GWrap p e ce : AsError e = Some ce -> Classify (GWrap p e) = ce /\ Classify e = ce.
Proof. intros H. unfold Classify. simpl. by rewrite H. Qed.

(** A plain transport failure keeps its ticket: nothing it does not
    recognise is classified as a revert. *)
Lemma Classify_plain msg :
  ce_Class (Classify (GPlain msg)) = ClassReverted ->
  Contains (ToLower msg) "execution reverted" = true \/ Contains (ToLower msg) "vm execution error" = true.
Proof.
  unfold Classify. cbn [AsError IsNotFound Error]. set (m := ToLower msg).
  do 2 (match goal with |- context [if ?b then _ else _] => destruct b; [discriminate|] end).
  destruct (any_of m ["execution reverted"; "vm execution error"]) eqn:E.
  - intros _. unfold any_of, existsb in E. rewrite orb_false_r in E. by apply orb_true_iff in E.
  - repeat (match goal with |- context [if ?b then _ else _] => destruct b; [discriminate|] end). discriminate.
Qed.
