(* ===== verification/TxIntent.v ===== *)
(** * The durable transaction intents

    chain-commons/services/txintent (types.go, manager.go): every on-chain
    write is an intent, addressed by what it does, whose status and signed
    attempts are stored before and after every step.

    A stored intent is the record [encodedIntent] the code hands to msgpack;
    [encodeIntent] and [decodeIntent] are the conversions around it, and the
    bytes msgpack makes of it are left out.  Error values are those of
    ChainErrors; of the [*Error] an intent failed with the stored form has the
    class, the code and the message, not the cause.  A call reads the clock
    once. *)
From S2P Require Import Prelude.
From S2P Require Import GoBytes.
From S2P Require Import GoCodecs.
From S2P Require Import Bolt.
From S2P Require Import ChainErrors.

(** ** Types *)
Inductive IntentStatus :=
  | StatusPending | StatusSigned | StatusSubmitted | StatusMined | StatusConfirmed | StatusFailed | StatusReplaced.

#[export] Instance IntentStatus_eq_dec : EqDecision IntentStatus.
Proof. solve_decision. Defined.

Definition status_String (s : IntentStatus) : string :=
  match s with
  | StatusPending => "pending"
  | StatusSigned => "signed"
  | StatusSubmitted => "submitted"
  | StatusMined => "mined"
  | StatusConfirmed => "confirmed"
  | StatusFailed => "failed"
  | StatusReplaced => "replaced"
  end.

Definition IsTerminal (s : IntentStatus) : bool := bool_decide (s = StatusConfirmed) || bool_decide (s = StatusFailed).

Definition ComputeID (kind keyParams : string) : string := sha256 (kind +:+ String zero_byte keyParams).

Record Params := mkParams {
  pa_Kind : string;
  pa_KeyParams : string;
  pa_To : string;
  pa_CallData : string;
  pa_Value : option Z;
  pa_GasLimit : Z;
  pa_Metadata : gmap string string;
}.

(** [None] is a [nil] cap or time. *)
Record IntentAttempt := mkAttempt {
  at_Nonce : Z;
  at_GasFeeCap : option Z;
  at_GasTipCap : option Z;
  at_SignedTxHash : string;
  at_BroadcastedAt : Z;
  at_MinedBlock : option Z;
  at_MinedBlockHash : option string;
  at_ReceiptStatus : option Z;
  at_ReplacedAt : option Z;
}.

Record TxIntent := mkTxIntent {
  ti_ID : string;
  ti_Kind : string;
  ti_KeyParams : string;
  ti_To : string;
  ti_CallData : string;
  ti_Value : option Z;
  ti_GasLimit : Z;
  ti_Metadata : gmap string string;
  ti_Status : IntentStatus;
  ti_Attempts : list IntentAttempt;
  ti_CreatedAt : Z;
  ti_LastUpdatedAt : Z;
  ti_ConfirmedAt : option Z;
  ti_FailedReason : option CError;
}.

(** The last attempt that was not superseded. *)
Definition CurrentAttempt (t : TxIntent) : option IntentAttempt :=
  List.find (fun a => bool_decide (at_ReplacedAt a = None)) (rev (ti_Attempts t)).

Record Filter := mkFilter {
  fl_Kinds : list string;
  fl_Statuses : list IntentStatus;
  fl_Since : option Z;
}.

(** ** The stored form *)
Record encodedAttempt := mkencodedAttempt {
  ea_Nonce : Z;
  ea_GasFeeCap : string;
  ea_GasTipCap : string;
  ea_SignedTxHash : string;
  ea_BroadcastedAt : Z;
  ea_MinedBlock : option Z;
  ea_MinedBlockHsh : option string;
  ea_ReceiptStatus : option Z;
  ea_ReplacedAt : Z;
}.

Record encodedIntent := mkencodedIntent {
  ei_ID : string;
  ei_Kind : string;
  ei_KeyParams : string;
  ei_To : string;
  ei_CallData : string;
  ei_Value : string;
  ei_GasLimit : Z;
  ei_Metadata : gmap string string;
  ei_Status : IntentStatus;
  ei_Attempts : list encodedAttempt;
  ei_CreatedAt : Z;
  ei_LastUpdatedAt : Z;
  ei_ConfirmedAt : Z;
  ei_FailedClass : option ErrorClass;
  ei_FailedCode : string;
  ei_FailedMsg : string;
}.

(** A [nil] slice and an empty one both decode to zero. *)
Definition valueBytes (b : option Z) : string := match b with None => "" | Some n => big_bytes n end.
Definition bytesValue (b : string) : option Z := Some (be_Z b).

(** [copy] into a 32-byte array. *)
Definition copy32 (b : string) : string := take_bytes 32 (b +:+ replicate_byte (32 - String.length b) zero_byte).

(** A time of 0 stands for none. *)
Definition time_or_zero (t : option Z) : Z := default 0 t.
Definition time_of (t : Z) : option Z := if t =? 0 then None else Some t.

Definition encodeAttempt (a : IntentAttempt) : encodedAttempt :=
  mkencodedAttempt (at_Nonce a) (valueBytes (at_GasFeeCap a)) (valueBytes (at_GasTipCap a)) (at_SignedTxHash a)
    (at_BroadcastedAt a) (at_MinedBlock a) (at_MinedBlockHash a) (at_ReceiptStatus a) (time_or_zero (at_ReplacedAt a)).
Definition decodeAttempt (e : encodedAttempt) : IntentAttempt :=
  mkAttempt (ea_Nonce e) (bytesValue (ea_GasFeeCap e)) (bytesValue (ea_GasTipCap e)) (copy32 (ea_SignedTxHash e))
    (ea_BroadcastedAt e) (ea_MinedBlock e) (copy32 <$> ea_MinedBlockHsh e) (ea_ReceiptStatus e) (time_of (ea_ReplacedAt e)).

Definition encodeIntent (t : TxIntent) : encodedIntent :=
  mkencodedIntent (ti_ID t) (ti_Kind t) (ti_KeyParams t) (ti_To t) (ti_CallData t) (valueBytes (ti_Value t)) (ti_GasLimit t)
    (ti_Metadata t) (ti_Status t) (encodeAttempt <$> ti_Attempts t) (ti_CreatedAt t) (ti_LastUpdatedAt t)
    (time_or_zero (ti_ConfirmedAt t)) (ce_Class <$> ti_FailedReason t) (default "" (ce_Code <$> ti_FailedReason t))
    (default "" (ce_Msg <$> ti_FailedReason t)).
Definition decodeIntent (e : encodedIntent) : TxIntent :=
  mkTxIntent (ei_ID e) (ei_Kind e) (ei_KeyParams e) (ei_To e) (ei_CallData e) (bytesValue (ei_Value e)) (ei_GasLimit e)
    (ei_Metadata e) (ei_Status e) (decodeAttempt <$> ei_Attempts e) (ei_CreatedAt e) (ei_LastUpdatedAt e)
    (time_of (ei_ConfirmedAt e)) ((fun class => mkCError class (ei_FailedCode e) (ei_FailedMsg e) None) <$> ei_FailedClass e).

(** ** Listing *)
Definition matchFilter (t : TxIntent) (f : Filter) : bool :=
  (bool_decide (fl_Kinds f = []) || bool_decide (ti_Kind t ∈ fl_Kinds f)) &&
  (bool_decide (fl_Statuses f = []) || bool_decide (ti_Status t ∈ fl_Statuses f)) &&
  match fl_Since f with Some since => negb (ti_CreatedAt t <? since) | None => true end.

(** The inner loop of [sortByCreatedAt]: an element sinks below the later ones
    of a sorted prefix, given in reverse. *)
Fixpoint sink (x : TxIntent) (rprefix : list TxIntent) : list TxIntent :=
  match rprefix with
  | [] => [x]
  | y :: ys => if ti_CreatedAt x <? ti_CreatedAt y then y :: sink x ys else x :: y :: ys
  end.
Definition sortByCreatedAt (l : list TxIntent) : list TxIntent := rev (foldl (fun acc x => sink x acc) [] l).

(** ** The manager *)
Record Manager (M : Type -> Type) := mkManager {
  mg_intents : M encodedIntent;
  (** For each intent, the buffered channels of the calls waiting for it. *)
  mg_waiters : gmap string (list (option TxIntent));
}.
Arguments mkManager {M}.
Arguments mg_intents {M}.
Arguments mg_waiters {M}.

Section manager.
Context `{Bolt M}.

Definition read (id : string) (m : Manager M) : option TxIntent := decodeIntent <$> mg_intents m !! id.
Definition write (t : TxIntent) (m : Manager M) : Manager M :=
  mkManager (<[ti_ID t := encodeIntent t]> (mg_intents m)) (mg_waiters m).

(** [store.ErrNotFound]. *)
Definition store_not_found : goerr := GPlain "store: key not found".

Definition notifyWaiters (t : TxIntent) (m : Manager M) : Manager M :=
  mkManager (mg_intents m)
    (alter (fmap (fun ch => match ch with None => Some t | Some _ => ch end)) (ti_ID t) (mg_waiters m)).

Definition transition (id : string) (fn : TxIntent -> result goerr TxIntent) (m : Manager M) : result goerr unit * Manager M :=
  match read id m with
  | None => (Err store_not_found, m)
  | Some t =>
      match fn t with
      | Err e => (Err e, m)
      | Ok t => (Ok tt, if IsTerminal (ti_Status t) then notifyWaiters t (write t m) else write t m)
      end
  end.

Definition new_intent (now : Z) (p : Params) (status : IntentStatus) (attempts : list IntentAttempt) : TxIntent :=
  mkTxIntent (ComputeID (pa_Kind p) (pa_KeyParams p)) (pa_Kind p) (pa_KeyParams p) (pa_To p) (pa_CallData p)
    (Some (default 0 (pa_Value p))) (pa_GasLimit p) (pa_Metadata p) status attempts now now None None.

(** The id, and whether the intent is new and its processing starts. *)
Definition Submit (now : Z) (p : Params) (m : Manager M) : result goerr (string * bool) * Manager M :=
  if bool_decide (pa_Kind p = "") then (Err (GPlain "txintent: Kind is required"), m)
  else if pa_GasLimit p =? 0 then (Err (GPlain "txintent: GasLimit is required (> 0)"), m)
  else
    let id := ComputeID (pa_Kind p) (pa_KeyParams p) in
    match read id m with
    | Some _ => (Ok (id, false), m)
    | None => (Ok (id, true), write (new_intent now p StatusPending []) m)
    end.

(** [broadcastedAt] and the caps are the options, [None] when not given. *)
Definition Adopt (now : Z) (p : Params) (txHash : string) (nonce : Z) (broadcastedAt feeCap tipCap : option Z) (m : Manager M)
    : result goerr (string * bool) * Manager M :=
  if bool_decide (pa_Kind p = "") then (Err (GPlain "txintent: Kind is required"), m)
  else if pa_GasLimit p =? 0 then (Err (GPlain "txintent: GasLimit is required (> 0)"), m)
  else if is_zero_bytes txHash then (Err (GPlain "txintent: Adopt requires a non-zero tx hash"), m)
  else
    let id := ComputeID (pa_Kind p) (pa_KeyParams p) in
    match read id m with
    | Some _ => (Ok (id, false), m)
    | None =>
        let a := mkAttempt nonce feeCap tipCap txHash (default now broadcastedAt) None None None None in
        (Ok (id, true), write (new_intent now p StatusSubmitted [a]) m)
    end.

Definition Status (id : string) (m : Manager M) : option TxIntent := read id m.

Definition ti_with_status (s : IntentStatus) (now : Z) (t : TxIntent) : TxIntent :=
  mkTxIntent (ti_ID t) (ti_Kind t) (ti_KeyParams t) (ti_To t) (ti_CallData t) (ti_Value t) (ti_GasLimit t) (ti_Metadata t)
    s (ti_Attempts t) (ti_CreatedAt t) now (ti_ConfirmedAt t) (ti_FailedReason t).
Definition ti_with_outcome (confirmed : option Z) (failed : option CError) (t : TxIntent) : TxIntent :=
  mkTxIntent (ti_ID t) (ti_Kind t) (ti_KeyParams t) (ti_To t) (ti_CallData t) (ti_Value t) (ti_GasLimit t) (ti_Metadata t)
    (ti_Status t) (ti_Attempts t) (ti_CreatedAt t) (ti_LastUpdatedAt t) confirmed failed.
Definition ti_with_calldata (data : string) (t : TxIntent) : TxIntent :=
  mkTxIntent (ti_ID t) (ti_Kind t) (ti_KeyParams t) (ti_To t) data (ti_Value t) (ti_GasLimit t) (ti_Metadata t)
    (ti_Status t) (ti_Attempts t) (ti_CreatedAt t) (ti_LastUpdatedAt t) (ti_ConfirmedAt t) (ti_FailedReason t).
Definition ti_with_attempts (l : list IntentAttempt) (t : TxIntent) : TxIntent :=
  mkTxIntent (ti_ID t) (ti_Kind t) (ti_KeyParams t) (ti_To t) (ti_CallData t) (ti_Value t) (ti_GasLimit t) (ti_Metadata t)
    (ti_Status t) l (ti_CreatedAt t) (ti_LastUpdatedAt t) (ti_ConfirmedAt t) (ti_FailedReason t).

Definition refuse (what : string) (s : IntentStatus) : result goerr TxIntent :=
  Err (GPlain (what +:+ (" (" +:+ (status_String s +:+ ")")))).

Definition Resubmit (now : Z) (id calldata : string) (m : Manager M) : result goerr unit * Manager M :=
  transition id (fun t =>
    if negb (bool_decide (ti_Status t = StatusFailed)) then refuse "txintent: Resubmit requires StatusFailed" (ti_Status t)
    else Ok (ti_with_outcome (ti_ConfirmedAt t) None (ti_with_status StatusPending now (ti_with_calldata calldata t)))) m.

Definition MarkConfirmed (now : Z) (id : string) (m : Manager M) : result goerr unit * Manager M :=
  transition id (fun t =>
    if negb (bool_decide (ti_Status t = StatusMined)) && negb (bool_decide (ti_Status t = StatusSubmitted))
    then refuse "MarkConfirmed: invalid prior status" (ti_Status t)
    else Ok (ti_with_outcome (Some now) (ti_FailedReason t) (ti_with_status StatusConfirmed now t))) m.

Definition MarkFailed (now : Z) (id : string) (reason : CError) (m : Manager M) : result goerr unit * Manager M :=
  transition id (fun t =>
    if IsTerminal (ti_Status t) then refuse "MarkFailed: intent already terminal" (ti_Status t)
    else Ok (ti_with_outcome (ti_ConfirmedAt t) (Some reason) (ti_with_status StatusFailed now t))) m.

Definition SetStatus (now : Z) (id : string) (s : IntentStatus) (m : Manager M) : result goerr unit * Manager M :=
  transition id (fun t =>
    if IsTerminal (ti_Status t) then refuse "SetStatus: intent already terminal" (ti_Status t)
    else Ok (ti_with_status s now t)) m.

(** The current attempt is marked in place, when the new one has its nonce. *)
Fixpoint supersede_last (now nonce : Z) (rattempts : list IntentAttempt) : list IntentAttempt :=
  match rattempts with
  | [] => []
  | a :: l =>
      if bool_decide (at_ReplacedAt a = None) then
        (if at_Nonce a =? nonce
         then mkAttempt (at_Nonce a) (at_GasFeeCap a) (at_GasTipCap a) (at_SignedTxHash a) (at_BroadcastedAt a)
                (at_MinedBlock a) (at_MinedBlockHash a) (at_ReceiptStatus a) (Some now)
         else a) :: l
      else a :: supersede_last now nonce l
  end.
Definition append_attempt (now : Z) (attempt : IntentAttempt) (l : list IntentAttempt) : list IntentAttempt :=
  rev (supersede_last now (at_Nonce attempt) (rev l)) ++ [attempt].

Definition AppendAttempt (now : Z) (id : string) (attempt : IntentAttempt) (newStatus : IntentStatus) (m : Manager M)
    : result goerr unit * Manager M :=
  transition id (fun t =>
    if IsTerminal (ti_Status t) then refuse "AppendAttempt: intent already terminal" (ti_Status t)
    else Ok (ti_with_status newStatus now (ti_with_attempts (append_attempt now attempt (ti_Attempts t)) t))) m.

Definition ListIntents (f : Filter) (m : Manager M) : list TxIntent :=
  sortByCreatedAt (List.filter (fun t => matchFilter t f) (decodeIntent <$> (ForEach (mg_intents m)).*2)).

(** The intents [Resume] hands to the processor. *)
Definition Resume (m : Manager M) : list string :=
  ti_ID <$> ListIntents (mkFilter [] [StatusPending; StatusSigned; StatusSubmitted; StatusMined; StatusReplaced] None) m.

(** *** Waiting, in the steps other goroutines can come between *)

(** The fast path: the intent when it is terminal already. *)
Definition Wait_read (id : string) (m : Manager M) : result goerr (option TxIntent) :=
  match read id m with
  | None => Err store_not_found
  | Some t => Ok (if IsTerminal (ti_Status t) then Some t else None)
  end.
(** A fresh channel among the waiters, and its index. *)
Definition Wait_register (id : string) (m : Manager M) : nat * Manager M :=
  let ws := default [] (mg_waiters m !! id) in
  (length ws, mkManager (mg_intents m) (<[id := ws ++ [None]]> (mg_waiters m))).
(** What arrived on the channel. *)
Definition Wait_receive (id : string) (ch : nat) (m : Manager M) : option TxIntent :=
  match default [] (mg_waiters m !! id) !! ch with Some (Some t) => Some t | _ => None end.

End manager.
