(* ===== verification/Settlement.v ===== *)
(** * Settlement: redeeming winning tickets on chain

    payment-daemon/internal/service/settlement/settlement.go.  One tick takes
    the oldest queued winner, checks that redeeming it is possible and worth
    its gas, submits it through the broker and records what came back.  What
    the chain answers during a tick (the broker, the clock, the gas oracle, the
    inclusion lookup) is a [tick]; the ticket is otherwise handled on the real
    queue and escrow.  Submissions are logged, so that theorems can speak of
    them. *)
From S2P Require Import Prelude.
From S2P Require Import GoBytes.
From S2P Require Import Bolt.
From S2P Require Import Ledger.
From S2P Require Import Redemptions.
From S2P Require Import RedemptionsSpec.
From S2P Require Import Escrow.
From S2P Require Import Tickets.
From S2P Require Import ChainErrors.

(** ** Configuration *)
Definition ChainValidityWindowRounds : Z := 2.

Record Config := mkConfig {
  cf_Inclusion : bool;
  cf_RedeemGas : Z;
  cf_ValidityWindow : Z;
}.

(** [New]'s defaults. *)
Definition NewSettlement (cfg : Config) : Config :=
  mkConfig (cf_Inclusion cfg)
    (if cf_RedeemGas cfg =? 0 then 500000 else cf_RedeemGas cfg)
    (if cf_ValidityWindow cfg =? 0 then ChainValidityWindowRounds else cf_ValidityWindow cfg).

(** ** What the outside answers during one tick *)
Record tick := mkTick {
  k_recover : result goerr (option RedemptionInclusion);  (* [cfg.Inclusion], first call *)
  k_round_expired : Z;                                    (* [LastInitializedRound] in [expired] *)
  k_IsUsedTicket : result goerr bool;
  k_gasPrice : option Z;
  k_info : result goerr SenderInfo;
  k_pool : option Z;
  k_Redeem : result goerr string;
  k_confirm : result goerr (option RedemptionInclusion);  (* [cfg.Inclusion], after submission *)
  k_round : Z;                                            (* [LastInitializedRound] when recording *)
}.

(** A call to [RedeemWinningTicket]. *)
Record submission := mkSubmission {
  sub_Ticket : Ticket;
  sub_Sig : string;
  sub_RecipientRand : Z;
}.

Definition IsNonRetryable (err : goerr) : bool :=
  if Is err ErrTicketUsed || Is err ErrTicketExpired || Is err ErrFaceValueTooLow ||
     Is err ErrTicketAlreadyUsed || Is err ErrRedemptionReverted then true
  else if Contains (Error err) "creationRound does not have a block hash" then true
  else bool_decide (ce_Class (Classify err) = ClassReverted).

Definition broker_ticket (t : SignedTicket) : Ticket :=
  mkTicket (st_Recipient t) (st_Sender t) (Some (st_FaceValue t)) (Some (st_WinProb t)) (st_SenderNonce t)
    (st_RecipientRandHash t) (st_CreationRound t) (st_CreationRoundHash t).

Section settlement.
Context `{Bolt M} (cfg : Config).

(** The service's state: the store, the escrow and the submissions made. *)
Record SState := mkSState {
  ss_db : DB M;
  ss_escrow : Escrow;
  ss_sent : list submission;
}.
Definition with_db (s : SState) (db : DB M) : SState := mkSState db (ss_escrow s) (ss_sent s).
Definition with_escrow (s : SState) (e : Escrow) : SState := mkSState (ss_db s) e (ss_sent s).

(** The errors of the redemption store are plain messages. *)
Definition store_err (e : error) : goerr := GPlain (match e with ErrMsg m => m | _ => "" end).

Definition expired (round : Z) (t : SignedTicket) : bool :=
  if round =? 0 then false else cf_ValidityWindow cfg <? i64 (round - st_CreationRound t).

Definition drain (round : Z) (ticketHash reason : string) (db : DB M) : result goerr unit * DB M :=
  match List.find (fun p => bool_decide (pr_Hash p = ticketHash)) (PendingRedemptions db) with
  | None => (Err (GPlain "pending ticket not found"), db)
  | Some p =>
      let '(r, db) := MarkDrained ticketHash (Some (pr_Ticket p)) round reason db in
      (match r with Ok _ => Ok tt | Err e => Err (store_err e) end, db)
  end.

(** [_ = s.drain(...); return err]. *)
Definition drain_and (k : tick) (p : PendingRedemption) (reason : string) (err : goerr) (s : SState)
    : result goerr unit * SState :=
  (Err err, with_db s (drain (k_round k) (pr_Hash p) reason (ss_db s)).2).

Definition mark_inclusion (p : PendingRedemption) (evidence : option RedemptionInclusion) (s : SState)
    : result goerr unit * SState :=
  let '(r, db) := MarkRedeemedWithInclusion (pr_Hash p) (Some (pr_Ticket p)) evidence (ss_db s) in
  (match r with Ok _ => Ok tt | Err e => Err (GWrap "mark redeemed with inclusion" (store_err e)) end,
   with_db s db).

(** What follows [RedeemWinningTicket]. *)
Definition after_submit (k : tick) (p : PendingRedemption) (s : SState) : result goerr unit * SState :=
  match k_Redeem k with
  | Err err =>
      if Is err ErrTicketAlreadyUsed then drain_and k p "used" (GSentinel ErrTicketUsed) s
      else if Contains (Error err) "creationRound does not have a block hash"
      then drain_and k p "expired" (GSentinel ErrTicketExpired) s
      else if IsNonRetryable err then drain_and k p "reverted" (GWrap "redeem" err) s
      else (Err (GWrap "redeem" err), s)
  | Ok txHash =>
      if cf_Inclusion cfg then
        match k_confirm k with
        | Err err => (Err (GWrap "confirm redemption inclusion" err), s)
        | Ok None => (Err (GPlain "confirmed transaction has no inclusion evidence"), s)
        | Ok (Some evidence) => mark_inclusion p (Some evidence) s
        end
      else
        let '(r, db) := MarkRedeemed (pr_Hash p) txHash (Some (pr_Ticket p)) (k_round k) (ss_db s) in
        (match r with Ok _ => Ok tt | Err e => Err (GWrap "mark redeemed" (store_err e)) end, with_db s db)
  end.

(** Reserve the face value, submit, release whatever happened. *)
Definition submit (k : tick) (p : PendingRedemption) (s : SState) : result goerr unit * SState :=
  let t := pr_Ticket p in
  let s := with_escrow s (SubFloat (st_Sender t) (Some (st_FaceValue t)) (ss_escrow s)) in
  let s := mkSState (ss_db s) (ss_escrow s)
             (ss_sent s ++ [mkSubmission (broker_ticket t) (st_Sig t) (st_RecipientRand t)]) in
  let '(r, s) := after_submit k p s in
  (r, with_escrow s (AddFloat (st_Sender t) (Some (st_FaceValue t)) (ss_escrow s)).2).

Definition tx_cost (k : tick) : Z := i64 (cf_RedeemGas cfg) * default 0 (k_gasPrice k).

(** The checks from [expired] on, for a ticket without earlier evidence. *)
Definition attempt_fresh (k : tick) (p : PendingRedemption) (s : SState) : result goerr unit * SState :=
  let t := pr_Ticket p in
  if expired (k_round_expired k) t then drain_and k p "expired" (GSentinel ErrTicketExpired) s
  else match k_IsUsedTicket k with
  | Err err => (Err (GWrap "isUsedTicket" err), s)
  | Ok true => drain_and k p "used" (GSentinel ErrTicketUsed) s
  | Ok false =>
      if st_FaceValue t <=? tx_cost k
      then drain_and k p "face_value_too_low" (GSentinel ErrFaceValueTooLow) s
      else
        let '(avail, e) := AvailableFunds (k_info k) (k_pool k) (st_Sender t) (ss_escrow s) in
        let s := with_escrow s e in
        match avail with
        | Err err => (Err (GWrap "available funds" err), s)
        | Ok avail =>
            if avail <=? tx_cost k then (Err (GSentinel ErrInsufficientFunds), s) else submit k p s
        end
  end.

Definition attempt (k : tick) (p : PendingRedemption) (s : SState) : result goerr unit * SState :=
  if cf_Inclusion cfg then
    match k_recover k with
    | Err err => (Err (GWrap "recover redemption inclusion" err), s)
    | Ok (Some evidence) => mark_inclusion p (Some evidence) s
    | Ok None => attempt_fresh k p s
    end
  else attempt_fresh k p s.

(** [None] is the [nil] hash of an empty queue. *)
Definition RedeemNext (k : tick) (s : SState) : option string * result goerr unit * SState :=
  match PendingRedemptions (ss_db s) with
  | [] => (None, Ok tt, s)
  | p :: _ => let '(r, s) := attempt k p s in (Some (pr_Hash p), r, s)
  end.

(** [Run]: one ticket per tick. *)
Fixpoint Run (ks : list tick) (s : SState) : SState :=
  match ks with
  | [] => s
  | k :: ks' => Run ks' (RedeemNext k s).2
  end.

End settlement.
