(* ===== verification/SettlementSpec.v ===== *)
(** * What the settlement loop guarantees

    The outcome of every attempt on the queue, the guards a submission has
    passed, that reservations in the escrow are always released, that the loop
    empties the queue in arrival order, and what a restart does to the funds
    check. *)
From S2P Require Import Prelude.
From S2P Require Import GoBytes.
From S2P Require Import Bolt.
From S2P Require Import Ledger.
From S2P Require Import Redemptions.
From S2P Require Import RedemptionsSpec.
From S2P Require Import Escrow.
From S2P Require Import Tickets.
From S2P Require Import ChainErrors.
From S2P Require Import Settlement.

(** Errors that take the ticket off the queue: the three sentinels of the
    service, and a submission the chain refused for good. *)
Definition terminal (e : goerr) : bool :=
  match e with
  | GSentinel ErrTicketUsed | GSentinel ErrTicketExpired | GSentinel ErrFaceValueTooLow => true
  | GWrap "redeem" err => IsNonRetryable err
  | _ => false
  end.
Definition leaves (r : result goerr unit) : bool :=
  match r with Ok _ => true | Err e => terminal e end.

Section spec.
Context `{Bolt M} (cfg : Config).
Implicit Types (s : SState (M := M)) (db : DB M) (l : list PendingRedemption).

(** A queue as the store's operations leave it, with the tickets in it. *)
Definition queue_ok db l : Prop :=
  (exists q, queue_rel db l q) /\ Forall (fun p => len (pr_Hash p) = 32) l.

Lemma queue_ok_read db l : queue_ok db l -> PendingRedemptions db = l.
Proof. intros [[q R] _]. by eapply read_pending. Qed.

Definition without (p : PendingRedemption) l : list PendingRedemption :=
  filter (fun e => pr_Hash e <> pr_Hash p) l.

(** Records of settled tickets stay. *)
Definition keeps_records db db' : Prop :=
  forall h, is_Some (redemptions_redeemed db !! h) -> is_Some (redemptions_redeemed db' !! h).

(** Recording a ticket removes exactly it. *)
Lemma queue_ok_mark db l p tx t round ev reason :
  queue_ok db l -> p ∈ l ->
  let r := markRedeemed (pr_Hash p) tx (Some t) round ev reason db in
  r.1 = Ok tt /\ queue_ok r.2 (without p l) /\
  redemptions_redeemed r.2 !! pr_Hash p = Some (RedeemedRow (redeemed_record (pr_Hash p) tx t round ev reason)) /\
  keeps_records db r.2.
Proof.
  intros [[q R] Hlen] Hp. rewrite Forall_forall in Hlen.
  destruct (queue_rel_mark db l q (pr_Hash p) tx t round ev reason R (Hlen p Hp)) as (E & _ & Hr & R').
  split_and!; [done| |done|].
  - split; [by eexists|]. rewrite Forall_forall. intros e [_ He]%list_elem_of_filter. by apply Hlen.
  - intros h. rewrite (r_done _ _ _ R), (r_done _ _ _ R'). simpl. set_solver.
Qed.

Lemma find_pending db l p : queue_ok db l -> p ∈ l ->
  List.find (fun e => bool_decide (pr_Hash e = pr_Hash p)) (PendingRedemptions db) = Some p.
Proof.
  intros Hok Hp. rewrite (queue_ok_read _ _ Hok). destruct Hok as [[q R] _].
  destruct (List.find _ l) as [e|] eqn:E.
  - apply List.find_some in E as [He%list_elem_of_In E%bool_decide_eq_true].
    by rewrite (hash_unique _ _ _ R e p He Hp E).
  - eapply List.find_none in E; [|by apply list_elem_of_In]. by rewrite bool_decide_true in E.
Qed.

Lemma drain_ok db l p round reason : queue_ok db l -> p ∈ l ->
  let r := drain round (pr_Hash p) reason db in
  queue_ok r.2 (without p l) /\
  redemptions_redeemed r.2 !! pr_Hash p = Some (RedeemedRow
    (redeemed_record (pr_Hash p) (replicate_byte 32 zero_byte) (pr_Ticket p) round None reason)) /\
  keeps_records db r.2.
Proof.
  intros Hok Hp. unfold drain. rewrite (find_pending _ _ _ Hok Hp). unfold MarkDrained.
  destruct (queue_ok_mark db l p (replicate_byte 32 zero_byte) (pr_Ticket p) round None reason Hok Hp)
    as (_ & Hq & Hr & Hk).
  by destruct (markRedeemed _ _ _ _ _ _ _).
Qed.

(** ** The outcome of an attempt *)

(** The ticket left the queue with a record, or nothing changed in the store. *)
Definition outcome l p (r : result goerr unit * SState) db : Prop :=
  if leaves r.1 then
    queue_ok (ss_db r.2) (without p l) /\ is_Some (redemptions_redeemed (ss_db r.2) !! pr_Hash p) /\
    keeps_records db (ss_db r.2)
  else ss_db r.2 = db.

Lemma outcome_drain k l p reason err s :
  queue_ok (ss_db s) l -> p ∈ l -> terminal err = true -> outcome l p (drain_and k p reason err s) (ss_db s).
Proof.
  intros Hok Hp Ht. unfold outcome, drain_and. cbn [fst snd leaves ss_db with_db]. rewrite Ht.
  destruct (drain_ok _ _ _ (k_round k) reason Hok Hp) as (? & ? & ?). eauto.
Qed.

Lemma outcome_inclusion l p ev s :
  queue_ok (ss_db s) l -> p ∈ l -> outcome l p (mark_inclusion p (Some ev) s) (ss_db s).
Proof.
  intros Hok Hp. unfold outcome, mark_inclusion, MarkRedeemedWithInclusion.
  destruct (_ || _ || _ || _); [done|].
  destruct (queue_ok_mark _ _ _ (inc_TxHash ev) (pr_Ticket p) (inc_Round ev) (Some ev) "" Hok Hp) as (E & Hq & Hr & Hk).
  destruct (markRedeemed _ _ _ _ _ _ _) as [r db]. simpl in E. subst r. simpl. eauto.
Qed.

Lemma outcome_after_submit k l p s :
  queue_ok (ss_db s) l -> p ∈ l -> outcome l p (after_submit cfg k p s) (ss_db s).
Proof.
  intros Hok Hp. unfold after_submit. destruct (k_Redeem k) as [tx|err].
  - destruct (cf_Inclusion cfg).
    + destruct (k_confirm k) as [[ev|]|err]; [by apply outcome_inclusion|done|done].
    + destruct (queue_ok_mark _ _ _ tx (pr_Ticket p) (k_round k) None "" Hok Hp) as (E & Hq & Hr & Hk).
      unfold outcome, MarkRedeemed. destruct (markRedeemed _ _ _ _ _ _ _) as [r db]. simpl in E. subst r.
      simpl. eauto.
  - destruct (Is err ErrTicketAlreadyUsed); [by apply outcome_drain|].
    destruct (Contains _ _); [by apply outcome_drain|].
    destruct (IsNonRetryable err) eqn:Hn; [by apply outcome_drain|].
    unfold outcome. simpl. by rewrite Hn.
Qed.

Lemma outcome_attempt_fresh k l p s :
  queue_ok (ss_db s) l -> p ∈ l -> outcome l p (attempt_fresh cfg k p s) (ss_db s).
Proof.
  intros Hok Hp. unfold attempt_fresh. destruct (expired _ _ _); [by apply outcome_drain|].
  destruct (k_IsUsedTicket k) as [[]|]; [by apply outcome_drain| |done].
  destruct (st_FaceValue _ <=? _); [by apply outcome_drain|].
  destruct (AvailableFunds _ _ _ _) as [[avail|err] e]; [|done].
  destruct (avail <=? _); [done|]. unfold submit.
  match goal with |- context [after_submit cfg k p ?s'] =>
    pose proof (outcome_after_submit k l p s' Hok Hp) as Ho; destruct (after_submit cfg k p s') as [r s''] end.
  exact Ho.
Qed.

Lemma outcome_attempt k l p s :
  queue_ok (ss_db s) l -> p ∈ l -> outcome l p (attempt cfg k p s) (ss_db s).
Proof.
  intros Hok Hp. unfold attempt. destruct (cf_Inclusion cfg); [|by apply outcome_attempt_fresh].
  destruct (k_recover k) as [[ev|]|err]; [by apply outcome_inclusion|by apply outcome_attempt_fresh|done].
Qed.

Lemma without_head db p l : queue_ok db (p :: l) -> without p (p :: l) = l.
Proof.
  intros [[q R] _]. pose proof (r_hashes _ _ _ R) as Hn. rewrite fmap_cons in Hn.
  apply NoDup_cons in Hn as [Hp _]. unfold without. rewrite filter_cons_False by tauto.
  assert (forall e, e ∈ l -> pr_Hash e <> pr_Hash p) as Hl.
  { intros e He E. apply Hp. rewrite <- E. by apply list_elem_of_fmap_2. }
  clear R Hp. induction l as [|e l IH]; [done|].
  rewrite filter_cons_True by (apply Hl; by left). f_equal. apply IH. intros e' He'. apply Hl. by right.
Qed.

Lemma RedeemNext_outcome k s p l :
  queue_ok (ss_db s) (p :: l) ->
  if leaves (RedeemNext cfg k s).1.2 then
    queue_ok (ss_db (RedeemNext cfg k s).2) l /\
    is_Some (redemptions_redeemed (ss_db (RedeemNext cfg k s).2) !! pr_Hash p) /\
    keeps_records (ss_db s) (ss_db (RedeemNext cfg k s).2)
  else ss_db (RedeemNext cfg k s).2 = ss_db s.
Proof.
  intros Hok. unfold RedeemNext. rewrite (queue_ok_read _ _ Hok).
  pose proof (outcome_attempt k (p :: l) p s Hok ltac:(by left)) as Ho. unfold outcome in Ho.
  destruct (attempt cfg k p s) as [r s']. cbn [fst snd] in *. destruct (leaves r); [|done].
  by rewrite (without_head _ _ _ Hok) in Ho.
Qed.

Lemma RedeemNext_empty k s : queue_ok (ss_db s) [] -> RedeemNext cfg k s = (None, Ok tt, s).
Proof. intros Hok. unfold RedeemNext. by rewrite (queue_ok_read _ _ Hok). Qed.

(** C15: Every settlement tick decides the oldest queued ticket or changes
    nothing: on success, and on the terminal errors (expired, already used, not
    worth its gas, refused for good by the chain), the ticket leaves the queue
    with a settled record and every other ticket stays in order; on any other
    error the store is untouched, so the ticket is tried again. *)
Theorem settlement_step k s l :
  queue_ok (ss_db s) l ->
  match l with
  | [] => RedeemNext cfg k s = (None, Ok tt, s)
  | p :: l' =>
      let '(h, r, s') := RedeemNext cfg k s in
      h = Some (pr_Hash p) /\
      if leaves r then
        queue_ok (ss_db s') l' /\ PendingRedemptions (ss_db s') = l' /\
        is_Some (redemptions_redeemed (ss_db s') !! pr_Hash p) /\ keeps_records (ss_db s) (ss_db s')
      else ss_db s' = ss_db s
  end.
Proof.
  intros Hok. destruct l as [|p l]; [by apply RedeemNext_empty|].
  pose proof (RedeemNext_outcome k s p l Hok) as Ho.
  assert ((RedeemNext cfg k s).1.1 = Some (pr_Hash p)) as Hh.
  { unfold RedeemNext. rewrite (queue_ok_read _ _ Hok). by destruct (attempt _ _ _ _). }
  destruct (RedeemNext cfg k s) as [[h r] s']. cbn [fst snd] in *. split; [done|].
  destruct (leaves r); [|done]. destruct Ho as (Hq & Hr & Hk).
  split_and!; [done|by apply queue_ok_read|done|done].
Qed.

(** ** Runs of ticks *)

(** Every tick of the run decides a ticket. *)
Fixpoint decisive (ks : list tick) s : Prop :=
  match ks with
  | [] => True
  | k :: ks' => leaves (RedeemNext cfg k s).1.2 = true /\ decisive ks' (RedeemNext cfg k s).2
  end.

(** The settlement loop works through the queue in arrival order: after any
    number of ticks the queue is a suffix of what it was, every ticket before
    it has its settled record (none is skipped), and when every tick decides
    its ticket, as many ticks as there are tickets empty the queue. *)
Theorem settlement_fifo ks s l :
  queue_ok (ss_db s) l ->
  exists n, queue_ok (ss_db (Run cfg ks s)) (drop n l) /\
    PendingRedemptions (ss_db (Run cfg ks s)) = drop n l /\ (n <= length ks)%nat /\
    Forall (fun p => is_Some (redemptions_redeemed (ss_db (Run cfg ks s)) !! pr_Hash p)) (take n l) /\
    keeps_records (ss_db s) (ss_db (Run cfg ks s)) /\
    (decisive ks s -> (length l <= length ks)%nat -> PendingRedemptions (ss_db (Run cfg ks s)) = []).
Proof.
  revert s l. induction ks as [|k ks IH]; intros s l Hok; cbn [Run].
  { exists 0%nat. rewrite drop_0. pose proof (queue_ok_read _ _ Hok) as E. split_and!; try done.
    - by intros h.
    - rewrite E. destruct l; [done|]. simpl. lia. }
  destruct l as [|p l].
  { rewrite (RedeemNext_empty _ _ Hok). destruct (IH s [] Hok) as (n & Hq & Hp & Hn & Hr & Hk & _).
    exists 0%nat. rewrite drop_nil in *. split_and!; try done. simpl. lia. }
  pose proof (RedeemNext_outcome k s p l Hok) as Hstep. cbn [decisive].
  destruct (RedeemNext cfg k s) as [[h r] s']. cbn [fst snd] in *. destruct (leaves r).
  - destruct Hstep as (Hq' & Hrec & Hk'). destruct (IH s' l Hq') as (n & Hq & Hp & Hn & Hr & Hk & Hd).
    exists (S n). cbn [drop take length]. split_and!; try done; [lia| | |].
    + constructor; [by apply Hk|done].
    + intros h' Hh'. by apply Hk, Hk'.
    + intros [_ Hdec] Hlen. apply Hd; [done|lia].
  - rewrite <- Hstep in Hok. destruct (IH s' (p :: l) Hok) as (n & Hq & Hp & Hn & Hr & Hk & Hd).
    exists n. rewrite <- Hstep. split_and!; try done; [simpl; lia|]. by intros [? _].
Qed.

(** ** What a submission has passed *)
Definition wf_escrow (e : Escrow) : Prop := forall sender, 0 <= pending_of sender e.

(** Draining and recording leave the escrow and the submissions alone. *)
Lemma after_submit_frame k p s :
  ss_escrow (after_submit cfg k p s).2 = ss_escrow s /\ ss_sent (after_submit cfg k p s).2 = ss_sent s.
Proof.
  unfold after_submit, drain_and, mark_inclusion. destruct (k_Redeem k) as [tx|err].
  - destruct (cf_Inclusion cfg).
    + destruct (k_confirm k) as [[ev|]|err]; [|done|done].
      by destruct (MarkRedeemedWithInclusion _ _ _ _).
    + by destruct (MarkRedeemed _ _ _ _ _).
  - destruct (Is err _); [done|]. destruct (Contains _ _); [done|]. by destruct (IsNonRetryable err).
Qed.

(** The checks a tick passes before it submits. *)
Definition worth_submitting k (p : PendingRedemption) (e : Escrow) : Prop :=
  expired cfg (k_round_expired k) (pr_Ticket p) = false /\ k_IsUsedTicket k = Ok false /\
  tx_cost cfg k < st_FaceValue (pr_Ticket p) /\
  exists info, k_info k = Ok info /\
    tx_cost cfg k < funds (es_Claimant e) (k_pool k) info - pending_of (st_Sender (pr_Ticket p)) e.

Definition submission_of (p : PendingRedemption) : submission :=
  mkSubmission (broker_ticket (pr_Ticket p)) (st_Sig (pr_Ticket p)) (st_RecipientRand (pr_Ticket p)).

Lemma submit_frame k p s :
  0 <= st_FaceValue (pr_Ticket p) -> wf_escrow (ss_escrow s) ->
  escrow_equiv (ss_escrow (submit cfg k p s).2) (ss_escrow s) /\
  ss_sent (submit cfg k p s).2 = ss_sent s ++ [submission_of p].
Proof.
  intros Hf Hwf. unfold submit.
  match goal with |- context [after_submit cfg k p ?s'] =>
    destruct (after_submit_frame k p s') as [E1 E2]; destruct (after_submit cfg k p s') as [r s''] end.
  cbn [fst snd] in *. cbn [ss_escrow ss_sent with_escrow] in *. rewrite E1, E2. split; [|done].
  by apply reserve_release_neutral.
Qed.

(** A redemption is only submitted when it can pay: the ticket is inside
    its validity window, unused on chain, worth more than its gas, and its
    sender's free funds cover the gas; each attempt submits at most once,
    exactly the queued ticket, and releases the float it reserved, so the
    escrow's books are as before and never underflow. *)
Theorem submission_guarded k p s :
  0 <= st_FaceValue (pr_Ticket p) -> wf_escrow (ss_escrow s) ->
  let s' := (attempt cfg k p s).2 in
  escrow_equiv (ss_escrow s') (ss_escrow s) /\ wf_escrow (ss_escrow s') /\
  (ss_sent s' = ss_sent s \/
   (ss_sent s' = ss_sent s ++ [submission_of p] /\ worth_submitting k p (ss_escrow s))).
Proof.
  intros Hf Hwf s'.
  assert (escrow_equiv (ss_escrow s') (ss_escrow s) /\
    (ss_sent s' = ss_sent s \/
     (ss_sent s' = ss_sent s ++ [submission_of p] /\ worth_submitting k p (ss_escrow s)))) as [He Hs].
  2: { split_and!; [done| |done]. intros sender. rewrite (proj2 He). apply Hwf. }
  assert (forall ev, ss_escrow (mark_inclusion p ev s).2 = ss_escrow s /\ ss_sent (mark_inclusion p ev s).2 = ss_sent s)
    as Hmark by (intros ev; unfold mark_inclusion; by destruct (MarkRedeemedWithInclusion _ _ _ _)).
  assert (escrow_equiv (ss_escrow (attempt_fresh cfg k p s).2) (ss_escrow s) /\
    (ss_sent (attempt_fresh cfg k p s).2 = ss_sent s \/
     (ss_sent (attempt_fresh cfg k p s).2 = ss_sent s ++ [submission_of p] /\ worth_submitting k p (ss_escrow s))))
    as Hfresh.
  { unfold attempt_fresh, worth_submitting. destruct (expired _ _ _); [by split; [|left]|].
    destruct (k_IsUsedTicket k) as [[]|]; [by split; [|left]| |by split; [|left]].
    destruct (Z.leb_spec (st_FaceValue (pr_Ticket p)) (tx_cost cfg k)); [by split; [|left]|].
    destruct (k_info k) as [info|err]; [|by split; [|left]].
    destruct (AvailableFunds_Ok (E := goerr) info (k_pool k) (st_Sender (pr_Ticket p)) (ss_escrow s)) as [E1 E2].
    destruct (AvailableFunds _ _ _ _) as [avail e]. cbn [fst snd] in E1, E2. subst avail.
    destruct (Z.leb_spec (funds (es_Claimant (ss_escrow s)) (k_pool k) info -
      pending_of (st_Sender (pr_Ticket p)) (ss_escrow s)) (tx_cost cfg k)); [by split; [|left]|].
    destruct (submit_frame k p (with_escrow s e) Hf) as [He ->].
    { intros sender. simpl. rewrite (proj2 E2). apply Hwf. }
    split; [by etransitivity|]. right. split; [done|]. split_and!; eauto. }
  subst s'. unfold attempt. destruct (cf_Inclusion cfg); [|done].
  destruct (k_recover k) as [[ev|]|err]; [|done|by split; [|left]].
  destruct (Hmark (Some ev)) as [-> ->]. by split; [|left].
Qed.

(** ** Restart *)

(** A tick at which the head ticket is redeemable on the chain's own terms. *)
Definition redeemable k (p : PendingRedemption) info : Prop :=
  k_recover k = Ok None /\ expired cfg (k_round_expired k) (pr_Ticket p) = false /\
  k_IsUsedTicket k = Ok false /\ tx_cost cfg k < st_FaceValue (pr_Ticket p) /\ k_info k = Ok info.

Lemma RedeemNext_redeemable k s p l info :
  queue_ok (ss_db s) (p :: l) -> redeemable k p info ->
  RedeemNext cfg k s =
    let '(avail, e) := AvailableFunds (E := goerr) (Ok info) (k_pool k) (st_Sender (pr_Ticket p)) (ss_escrow s) in
    let '(r, s') := match avail with
                    | Err err => (Err (GWrap "available funds" err), with_escrow s e)
                    | Ok avail => if avail <=? tx_cost cfg k then (Err (GSentinel ErrInsufficientFunds), with_escrow s e)
                                  else submit cfg k p (with_escrow s e)
                    end in (Some (pr_Hash p), r, s').
Proof.
  intros Hok (Hrec & Hexp & Hused & Hcost & Hinfo). unfold RedeemNext. rewrite (queue_ok_read _ _ Hok).
  assert (attempt cfg k p s = attempt_fresh cfg k p s) as ->
    by (unfold attempt; rewrite Hrec; by destruct (cf_Inclusion cfg)).
  unfold attempt_fresh. rewrite Hexp, Hused, Hinfo. destruct (Z.leb_spec (st_FaceValue (pr_Ticket p)) (tx_cost cfg k)); [lia|].
  by destruct (AvailableFunds _ _ _ _).
Qed.

(** The answers of the ticks of a run. *)
Fixpoint answers (ks : list tick) s : list (result goerr unit) :=
  match ks with
  | [] => []
  | k :: ks' => (RedeemNext cfg k s).1.2 :: answers ks' (RedeemNext cfg k s).2
  end.

Lemma starved_run claimant ks s p l :
  queue_ok (ss_db s) (p :: l) -> es_Claimant (ss_escrow s) = claimant ->
  pending_of (st_Sender (pr_Ticket p)) (ss_escrow s) = queued_for (st_Sender (pr_Ticket p)) (p :: l) ->
  Forall (fun k => exists info, redeemable k p info /\
    funds claimant (k_pool k) info <= queued_for (st_Sender (pr_Ticket p)) (p :: l) + tx_cost cfg k) ks ->
  Forall (fun r => r = Err (GSentinel ErrInsufficientFunds)) (answers ks s) /\
  ss_db (Run cfg ks s) = ss_db s /\ ss_sent (Run cfg ks s) = ss_sent s.
Proof.
  intros Hok Hc Hp Hks. revert s Hok Hc Hp. induction Hks as [|k ks (info & Hred & Hfunds) _ IH]; intros s Hok Hc Hp.
  { split; [constructor|done]. }
  cbn [answers Run]. rewrite (RedeemNext_redeemable k s p l info Hok Hred).
  destruct (AvailableFunds_Ok (E := goerr) info (k_pool k) (st_Sender (pr_Ticket p)) (ss_escrow s)) as [E1 [E2 E3]].
  destruct (AvailableFunds _ _ _ _) as [avail e]. cbn [fst snd] in E1, E2, E3. subst avail.
  rewrite Hc, Hp. destruct (Z.leb_spec (funds claimant (k_pool k) info -
    queued_for (st_Sender (pr_Ticket p)) (p :: l)) (tx_cost cfg k)); [|lia].
  cbn [fst snd]. destruct (IH (with_escrow s e)) as (? & ? & ?); simpl; [done|congruence|by rewrite E3|].
  split_and!; [by constructor|done|done].
Qed.

(** C40: A restart makes queued tickets compete with themselves.  [Rebuild]
    books every queued ticket's face value as in flight, and settlement only
    ever releases what it reserved itself; so when a sender's deposit and
    reserve share do not exceed its queued face value by more than the gas
    cost, every tick after a restart answers [ErrInsufficientFunds], for as
    long as the ticket is redeemable, and nothing is submitted, although the
    same tick with the escrow of a daemon that did not restart submits it. *)
Theorem restart_starves_redemption claimant db sent ks p l :
  queue_ok db (p :: l) -> 0 <= st_FaceValue (pr_Ticket p) ->
  Forall (fun k => exists info, redeemable k p info /\
    tx_cost cfg k < funds claimant (k_pool k) info <= queued_for (st_Sender (pr_Ticket p)) (p :: l) + tx_cost cfg k) ks ->
  let s := mkSState db (Rebuild db (NewEscrow claimant)) sent in
  Forall (fun r => r = Err (GSentinel ErrInsufficientFunds)) (answers ks s) /\
  ss_db (Run cfg ks s) = db /\ ss_sent (Run cfg ks s) = sent /\
  Forall (fun k => ss_sent (RedeemNext cfg k (mkSState db (NewEscrow claimant) sent)).2 = sent ++ [submission_of p]) ks.
Proof.
  intros Hok Hf Hks s.
  destruct (starved_run claimant ks s p l Hok) as (H1 & H2 & H3).
  - subst s. simpl. by rewrite Rebuild_claimant.
  - subst s. simpl ss_escrow. rewrite Rebuild_spec, (queue_ok_read _ _ Hok). done.
  - eapply Forall_impl; [exact Hks|]. intros k (info & Hr & _ & Hle). eauto.
  - split_and!; [done|done|done|]. eapply Forall_impl; [exact Hks|]. intros k (info & Hr & Hlt & _).
    rewrite (RedeemNext_redeemable k (mkSState db (NewEscrow claimant) sent) p l info Hok Hr). cbn [ss_escrow].
    destruct (AvailableFunds_Ok (E := goerr) info (k_pool k) (st_Sender (pr_Ticket p)) (NewEscrow claimant))
      as [E1 [E2 E3]].
    destruct (AvailableFunds _ _ _ _) as [avail e]. cbn [fst snd] in E1, E2, E3. subst avail.
    assert (pending_of (st_Sender (pr_Ticket p)) (NewEscrow claimant) = 0) as -> by done.
    cbn [es_Claimant NewEscrow]. destruct (Z.leb_spec (funds claimant (k_pool k) info - 0) (tx_cost cfg k)); [lia|].
    match goal with |- context [submit cfg k p ?s'] => destruct (submit_frame k p s' Hf) as [_ Hsent];
      [|destruct (submit cfg k p s'); exact Hsent] end.
    intros sender. simpl. rewrite E3. done.
Qed.

(** ** A redemption that goes through *)

(** The evidence the inclusion lookup must bring, when it is configured. *)
Definition good_evidence (ev : RedemptionInclusion) : Prop :=
  len (inc_TxHash ev) = 32 /\ isAllZero (inc_TxHash ev) = false /\ len (inc_BlockHash ev) = 32 /\ 0 < inc_Round ev.

Definition confirmed k (tx : string) (round : Z) (ev : option RedemptionInclusion) : Prop :=
  if cf_Inclusion cfg then
    exists e, k_confirm k = Ok (Some e) /\ good_evidence e /\ ev = Some e /\ tx = inc_TxHash e /\ round = inc_Round e
  else k_Redeem k = Ok tx /\ ev = None /\ round = k_round k.

Lemma after_submit_confirmed k p s l tx0 tx round ev :
  queue_ok (ss_db s) l -> p ∈ l -> k_Redeem k = Ok tx0 -> confirmed k tx round ev ->
  (after_submit cfg k p s).1 = Ok tt /\
  redemptions_redeemed (ss_db (after_submit cfg k p s).2) !! pr_Hash p =
    Some (RedeemedRow (redeemed_record (pr_Hash p) tx (pr_Ticket p) round ev "")).
Proof.
  intros Hok Hp Hk Hc. unfold after_submit. rewrite Hk. unfold confirmed in Hc. destruct (cf_Inclusion cfg).
  - destruct Hc as (e & -> & (H1 & H2 & H3 & H4) & -> & -> & ->).
    unfold mark_inclusion, MarkRedeemedWithInclusion. rewrite H1, H2, H3. destruct (Z.leb_spec (inc_Round e) 0); [lia|].
    cbn [Z.eqb Pos.eqb negb orb].
    destruct (queue_ok_mark _ _ _ (inc_TxHash e) (pr_Ticket p) (inc_Round e) (Some e) "" Hok Hp) as (E & _ & Hr & _).
    destruct (markRedeemed _ _ _ _ _ _ _) as [r db]. simpl in E. by subst r.
  - destruct Hc as (Htx & -> & ->). rewrite Htx in Hk. injection Hk as ->.
    destruct (queue_ok_mark _ _ _ tx0 (pr_Ticket p) (k_round k) None "" Hok Hp) as (E & _ & Hr & _).
    unfold MarkRedeemed. destruct (markRedeemed _ _ _ _ _ _ _) as [r db]. simpl in E. by subst r.
Qed.

(** C18: A redeemable winner is redeemed: when the oldest ticket is inside its
    window, unused, worth its gas and covered by its sender's free funds, and
    the broker confirms the transaction (with inclusion evidence where that is
    configured), the tick succeeds, submits exactly that ticket, and records it
    with the confirming transaction and round; nothing else is needed. *)
Theorem redemption_succeeds k s p l info tx0 tx round ev :
  queue_ok (ss_db s) (p :: l) -> 0 <= st_FaceValue (pr_Ticket p) -> wf_escrow (ss_escrow s) ->
  redeemable k p info ->
  tx_cost cfg k < funds (es_Claimant (ss_escrow s)) (k_pool k) info - pending_of (st_Sender (pr_Ticket p)) (ss_escrow s) ->
  k_Redeem k = Ok tx0 -> confirmed k tx round ev ->
  let '(h, r, s') := RedeemNext cfg k s in
  h = Some (pr_Hash p) /\ r = Ok tt /\ ss_sent s' = ss_sent s ++ [submission_of p] /\
  PendingRedemptions (ss_db s') = l /\
  redemptions_redeemed (ss_db s') !! pr_Hash p =
    Some (RedeemedRow (redeemed_record (pr_Hash p) tx (pr_Ticket p) round ev "")).
Proof.
  intros Hok Hf Hwf Hred Hfunds Hk Hc. pose proof (RedeemNext_outcome k s p l Hok) as Ho. revert Ho.
  rewrite (RedeemNext_redeemable k s p l info Hok Hred).
  destruct (AvailableFunds_Ok (E := goerr) info (k_pool k) (st_Sender (pr_Ticket p)) (ss_escrow s)) as [E1 E2].
  destruct (AvailableFunds _ _ _ _) as [avail e]. cbn [fst snd] in E1, E2. subst avail.
  destruct (Z.leb_spec (funds (es_Claimant (ss_escrow s)) (k_pool k) info -
    pending_of (st_Sender (pr_Ticket p)) (ss_escrow s)) (tx_cost cfg k)); [lia|].
  destruct (submit_frame k p (with_escrow s e) Hf) as [_ Hsent].
  { intros sender. simpl. rewrite (proj2 E2). apply Hwf. }
  revert Hsent. unfold submit.
  match goal with |- context [after_submit cfg k p ?s'] =>
    destruct (after_submit_confirmed k p s' (p :: l) tx0 tx round ev Hok ltac:(by left) Hk Hc) as [Hr Hrec];
    destruct (after_submit cfg k p s') as [r s''] end.
  cbn [fst snd] in *. subst r. cbn [leaves ss_db with_escrow ss_sent].
  intros Hsent (Hq & _). split_and!; [done|done|done|by apply queue_ok_read|done].
Qed.

End spec.

(** ** Concrete queues *)

Lemma q_spec_run_len ops q :
  Forall (fun e => len e.1 = 32) (q_items q) -> Forall (fun e => len e.1 = 32) (q_items (q_spec_run ops q).2).
Proof.
  revert q. induction ops as [|op ops IH]; intros q Hq; [done|]. cbn [q_spec_run].
  assert (Forall (fun e => len e.1 = 32) (q_items (q_spec op q).2)) as Hq'.
  { destruct op as [h t|h tx t round ev reason]; cbn [q_spec]; destruct (Z.eqb_spec (len h) 32); try done; cbn [negb].
    - destruct (bool_decide _); [done|]. simpl. apply Forall_app. split; [done|]. by repeat constructor.
    - simpl. rewrite Forall_forall in *. intros e' [_ He]%list_elem_of_filter. by apply Hq. }
  destruct (q_spec op q) as [a q']. specialize (IH q' Hq'). by destruct (q_spec_run ops q').
Qed.

(** Every queue the store's operations can build from an empty ledger
    satisfies the hypothesis of the theorems above. *)
Lemma queue_ok_run `{Bolt M} ops (db : DB M) :
  Z.of_nat (length ops) < two64 -> db = (q_impl_run ops Open).2 -> queue_ok db (PendingRedemptions db).
Proof.
  intros Hn ->. destruct (queue_rel_run ops Open [] (mkQueue [] ∅)) as (l & R & _).
  { unfold next_seq. simpl. rewrite lookup_empty. simpl. exact Hn. }
  { apply queue_rel_Open. }
  rewrite (read_pending _ _ _ R). split; [by eexists|].
  assert (Forall (fun e => len e.1 = 32) (q_items (q_spec_run ops (mkQueue [] ∅)).2)) as Hl
    by (apply q_spec_run_len; constructor).
  rewrite (r_items _ _ _ R), Forall_fmap in Hl. exact Hl.
Qed.

Definition set_ops : list q_op :=
  [QEnqueue (demo_hash 7) (demo_ticket 1); QEnqueue (demo_hash 2) (demo_ticket 2)].
Abbreviation set_db := (q_impl_run set_ops (Open (M := gmap string))).2 (only parsing).
Definition set_p1 : PendingRedemption := Eval vm_compute in mkPendingRedemption 1 (demo_ticket 1) (demo_hash 7).
Definition set_p2 : PendingRedemption := Eval vm_compute in mkPendingRedemption 2 (demo_ticket 2) (demo_hash 2).

Lemma set_db_ok : queue_ok set_db [set_p1; set_p2].
Proof.
  assert (PendingRedemptions set_db = [set_p1; set_p2]) as <- by vm_refl.
  by apply (queue_ok_run set_ops).
Qed.

Definition set_cfg : Config := NewSettlement (mkConfig false 10 0).
(** Deposit 50, no reserve, gas price 1, round 4, the broker confirming. *)
Definition set_info : SenderInfo := mkSenderInfo (Some 50) None 0.
Definition set_tick : tick :=
  mkTick (Ok None) 4 (Ok false) (Some 1) (Ok set_info) None (Ok "tx") (Ok None) 4.
(** The same tick while the node is unreachable. *)
Definition set_tick_down : tick :=
  mkTick (Ok None) 4 (Err (GPlain "connection refused")) (Some 1) (Ok set_info) None (Ok "tx") (Ok None) 4.

Abbreviation set_state := (mkSState set_db (NewEscrow "me") []) (only parsing).

Lemma set_escrow_wf : wf_escrow (NewEscrow "me").
Proof. intros sender. done. Qed.

Lemma set_redeemable : redeemable set_cfg set_tick set_p1 set_info.
Proof. split_and!; vm_compute; reflexivity. Qed.

Lemma settlement_step_witness :
  let r := RedeemNext set_cfg set_tick_down set_state in
  leaves r.1.2 = false /\ ss_db r.2 = set_db.
Proof.
  intros r. assert (leaves r.1.2 = false) as E by vm_refl. split; [exact E|].
  pose proof (settlement_step set_cfg set_tick_down set_state _ set_db_ok) as Hs. cbn beta iota in Hs.
  fold r in Hs. destruct r as [[h res] s']. cbn [fst snd] in E. rewrite E in Hs. exact (proj2 Hs).
Defined.

Lemma settlement_fifo_witness :
  exists n, PendingRedemptions (ss_db (Run set_cfg [set_tick_down; set_tick] set_state)) = drop n [set_p1; set_p2] /\
    (n <= 2)%nat.
Proof.
  destruct (settlement_fifo set_cfg [set_tick_down; set_tick] set_state _ set_db_ok) as (n & _ & Hp & Hn & _).
  exists n. split; [exact Hp|exact Hn].
Defined.

Lemma submission_guarded_witness :
  let s' := (attempt set_cfg set_tick set_p1 set_state).2 in
  ss_sent s' = [submission_of set_p1] /\ escrow_equiv (ss_escrow s') (NewEscrow "me").
Proof.
  intros s'. split; [vm_refl|].
  refine (proj1 (submission_guarded set_cfg set_tick set_p1 set_state _ set_escrow_wf)).
  vm_compute. discriminate.
Defined.

Lemma redemption_succeeds_witness :
  let '(h, r, s') := RedeemNext set_cfg set_tick set_state in
  h = Some (demo_hash 7) /\ r = Ok tt /\ PendingRedemptions (ss_db s') = [set_p2].
Proof.
  pose proof (redemption_succeeds set_cfg set_tick set_state set_p1 [set_p2] set_info "tx" "tx" 4 None
    set_db_ok ltac:(vm_compute; discriminate) set_escrow_wf set_redeemable ltac:(vm_compute; reflexivity)
    eq_refl ltac:(split_and!; reflexivity)) as Hr.
  destruct (RedeemNext set_cfg set_tick set_state) as [[h r] s']. destruct Hr as (H1 & H2 & _ & H3 & _).
  split_and!; [rewrite H1; vm_refl|exact H2|exact H3].
Defined.

Lemma restart_starves_redemption_witness :
  let s := mkSState set_db (Rebuild set_db (NewEscrow "me")) [] in
  answers set_cfg [set_tick; set_tick] s =
    [Err (GSentinel ErrInsufficientFunds); Err (GSentinel ErrInsufficientFunds)] /\
  ss_sent (Run set_cfg [set_tick; set_tick] s) = [].
Proof.
  intros s. split; [vm_refl|].
  refine (proj1 (proj2 (proj2 (restart_starves_redemption set_cfg "me" set_db [] [set_tick; set_tick] set_p1 [set_p2]
    set_db_ok _ _)))); [vm_compute; discriminate|].
  repeat constructor; exists set_info; (split; [exact set_redeemable|]); split; vm_compute; congruence.
Defined.
