(* ===== verification/Receiver.v ===== *)
(** * The payee daemon's handlers

    payment-daemon/internal/service/receiver (receiver.go, funding.go,
    source_fence.go): opening sessions, issuing ticket parameters, processing
    payments, billing and funding accounts, each on the store's operations.
    A handler runs several store transactions, so an error can leave the
    earlier ones committed: handlers return the database in every case.
    [proto.Unmarshal] is the parameter [decode]; [rand] is the outcome of
    [crypto/rand]; logging and metrics are left out. *)
From S2P Require Import Prelude.
From S2P Require Import GoBytes.
From S2P Require Import GoCodecs.
From S2P Require Import Bolt.
From S2P Require Import Ledger.
From S2P Require Import Billing.
From S2P Require Import Nonces.
From S2P Require Import Sessions.
From S2P Require Import Redemptions.
From S2P Require Import Wholesale.
From S2P Require Import Fences.
From S2P Require Import Funding.
From S2P Require Import Tickets.

(** ** Status errors *)
Inductive code :=
  | InvalidArgument | PermissionDenied | FailedPrecondition | NotFound | AlreadyExists | Aborted | Unavailable | Internal
  | Unknown.

(** A gRPC status, or one with an [ErrorInfo] of the domain
    [admissionErrorDomain]: its reason and metadata. *)
Inductive rpc_error :=
  | Status (c : code) (msg : string)
  | StatusInfo (c : code) (reason : string) (metadata : list (string * string)).

(** [status.Code]. *)
Definition status_code (err : rpc_error) : code :=
  match err with Status c _ | StatusInfo c _ _ => c end.

Definition admissionStatus (c : code) (reason : string) : rpc_error := StatusInfo c reason [].
Definition admissionFailure (reason : string) : rpc_error := admissionStatus FailedPrecondition reason.

#[export] Instance code_eq_dec : EqDecision code.
Proof. solve_decision. Defined.
#[export] Instance rpc_error_eq_dec : EqDecision rpc_error.
Proof. solve_decision. Defined.

Definition mapStoreErr (err : error) : rpc_error :=
  if errors_Is err ErrPricingUnset then Status FailedPrecondition "session has no offering price"
  else if errors_Is err ErrNotFound then Status NotFound "session not found"
  else if errors_Is err ErrClosed then Status FailedPrecondition "session is closed"
  else if errors_Is err ErrSenderMismatch then Status FailedPrecondition "sender mismatch"
  else Status Internal "".

(** ** Wire messages, decoded; [None] is an absent message *)
Record TicketParams := mkTicketParams {
  tp_Recipient : string;
  tp_FaceValue : string;
  tp_WinProb : string;
  tp_RecipientRandHash : string;
}.
Record TicketSenderParams := mkTicketSenderParams {
  tsp_SenderNonce : Z;
  tsp_Sig : string;
}.
Record Payment := mkPayment {
  pay_Sender : string;
  pay_TicketParams : option TicketParams;
  pay_ExpirationParams : option (Z * string);
  pay_TicketSenderParams : list TicketSenderParams;
  pay_ExpectedPrice : option (Z * Z);
}.

Inductive RejectionReason :=
  | UNSPECIFIED | INVALID_RECIPIENT_RAND | NONCE_REPLAY | NONCE_CAP_REACHED | INVALID_SIGNATURE | OTHER.

#[export] Instance RejectionReason_eq_dec : EqDecision RejectionReason.
Proof. solve_decision. Defined.

Record TicketStatus := mkTicketStatus {
  ts_SenderNonce : Z;
  ts_CreditedEv : string;
  ts_WasWinning : bool;
  ts_RejectionReason : RejectionReason;
}.
Record ProcessPaymentResponse := mkProcessPaymentResponse {
  pp_Sender : string;
  pp_CreditedEv : string;
  pp_Balance : string;
  pp_WinnersQueued : Z;
  pp_TicketStatus : list TicketStatus;
  pp_TicketsRejected : Z;
  pp_DominantRejection : RejectionReason;
}.

Definition validationErrorReason (err : validation_error) : RejectionReason :=
  match err with
  | ErrInvalidRecipientRand => INVALID_RECIPIENT_RAND
  | ErrInvalidSignature => INVALID_SIGNATURE
  | _ => OTHER
  end.

(** The count of rejections and the reason that reached the highest count
    first. *)
Fixpoint summarize (statuses : list TicketStatus) (counts : RejectionReason -> Z) (rejected : Z)
    (dominant : RejectionReason) (dominantCount : Z) : Z * RejectionReason :=
  match statuses with
  | [] => (rejected, dominant)
  | st :: statuses' =>
      let r := ts_RejectionReason st in
      if bool_decide (r = UNSPECIFIED) then summarize statuses' counts rejected dominant dominantCount
      else
        let counts' := fun r' => if bool_decide (r' = r) then counts r + 1 else counts r' in
        if dominantCount <? counts' r then summarize statuses' counts' (rejected + 1) r (counts' r)
        else summarize statuses' counts' (rejected + 1) dominant dominantCount
  end.
Definition summarizeTicketStatus (statuses : list TicketStatus) : Z * RejectionReason :=
  summarize statuses (fun _ => 0) 0 UNSPECIFIED 0.

(** ** The signed price *)
Definition checkSignedPrice (pay : Payment) (sess : Session) : result rpc_error unit :=
  match pay_ExpectedPrice pay with
  | None => Ok tt
  | Some (pricePerUnit, pixelsPerUnit) =>
      if bool_decide (s_PricePerWorkUnitWei sess = PricingUnset) then Ok tt
      else match SetString10 (s_PricePerWorkUnitWei sess) with
      | None => Err (Status Internal "session price corrupt")
      | Some stored =>
          if negb (pricePerUnit =? stored)
          then Err (Status FailedPrecondition "payment signed price does not match the session price")
          else
            let signedPerUnits := if pixelsPerUnit <=? 0 then 1 else pixelsPerUnit in
            let storedPerUnits := if s_PerUnits sess =? 0 then 1 else s_PerUnits sess in
            if negb (u64 signedPerUnits =? storedPerUnits)
            then Err (Status FailedPrecondition "payment signed per_units does not match the session per_units")
            else Ok tt
      end
  end.

(** ** Ticket economics *)

(** The smallest probability whose expected value reaches [target]; for the
    positive arguments it is called with. *)
Definition winProbForExactEV (faceValue target : Z) : Z :=
  let numerator := target * MaxWinProb in
  let prob := Z.quot numerator faceValue in
  if Z.rem numerator faceValue =? 0 then prob else prob + 1.

(** [New]'s defaults: the face value is raised to where a ticket is worth a
    wei.  A configured win probability of zero would divide by zero. *)
Definition ticket_defaults (cfgFaceValue cfgWinProb : option Z) : Z * Z :=
  let faceValue := default (10 ^ 15) cfgFaceValue in
  let winProb := default (Z.quot MaxWinProb 1024) cfgWinProb in
  let minFace := Z.quot MaxWinProb winProb in
  let minFace := if Z.rem MaxWinProb winProb =? 0 then minFace else minFace + 1 in
  let minFace := if minFace <=? 0 then 1 else minFace in
  (if faceValue <? minFace then minFace else faceValue, winProb).

Record Service := mkService {
  sv_recipient : string;
  sv_chainID : Z;
  sv_settlementDomain : result error string;
  sv_defaultFaceValue : Z;
  sv_defaultWinProb : Z;
}.

Section receiver.
Context `{Bolt M} `{EthCrypto} (decode : string -> option Payment).

Definition NewReceiver (rand : result error string) (recipient : string) (chainID : Z) (domainID : string)
    (cfgFaceValue cfgWinProb : option Z) (db : DB M) : Service * DB M :=
  let '(domain, db) := InitSettlementDomain rand domainID chainID recipient db in
  let '(face, prob) := ticket_defaults cfgFaceValue cfgWinProb in
  (mkService recipient chainID domain face prob, db).

Definition requireUnfrozenSource (db : DB M) : result rpc_error unit :=
  match SourceFence db with
  | Err _ => Err (Status Internal "source fence unavailable")
  | Ok fence => if sf_Frozen fence then Err (admissionFailure "RECEIVER_SOURCE_FROZEN") else Ok tt
  end.

(** [settlementDomainErr != nil || domain == "" || domain != settlementDomainID]. *)
Definition domain_matches (svc : Service) (domain : string) : bool :=
  match sv_settlementDomain svc with
  | Err _ => false
  | Ok id => negb (bool_decide (domain = "")) && bool_decide (domain = id)
  end.

(** ** Tickets of a payment *)

(** The ticket a sender param stands for. *)
Definition ticket_of (pay : Payment) (tp : TicketParams) (tsp : TicketSenderParams) : Ticket :=
  let '(expRound, expHash) := default (0, "") (pay_ExpirationParams pay) in
  mkTicket (tp_Recipient tp) (pay_Sender pay) (Some (be_Z (tp_FaceValue tp))) (Some (be_Z (tp_WinProb tp)))
    (tsp_SenderNonce tsp) (tp_RecipientRandHash tp) expRound expHash.

Definition signed_ticket (pay : Payment) (tp : TicketParams) (tsp : TicketSenderParams) (rand : Z) : SignedTicket :=
  let t := ticket_of pay tp tsp in
  mkSignedTicket (tk_Recipient t) (tk_Sender t) (be_Z (tp_FaceValue tp)) (be_Z (tp_WinProb tp))
    (tk_SenderNonce t) (tk_RecipientRandHash t) (tk_CreationRound t) (tk_CreationRoundHash t) (tsp_Sig tsp) rand.

Definition rejected_status (tsp : TicketSenderParams) (reason : RejectionReason) : TicketStatus :=
  mkTicketStatus (tsp_SenderNonce tsp) "" false reason.

(** The loop of [validateAndCredit]. *)
Fixpoint credit_loop (svc : Service) (now : Z) (pay : Payment) (tp : TicketParams) (sess : Session) (rand : Z)
    (tsps : list TicketSenderParams) (creditTotal winners : Z) (statuses : list TicketStatus) (db : DB M)
    : result rpc_error (Z * Z * list TicketStatus) * DB M :=
  match tsps with
  | [] => (Ok (creditTotal, winners, statuses), db)
  | tsp :: tsps' =>
      let ticket := ticket_of pay tp tsp in
      match Validate (sv_recipient svc) ticket (tsp_Sig tsp) (Some rand) with
      | Err err =>
          credit_loop svc now pay tp sess rand tsps' creditTotal winners
            (statuses ++ [rejected_status tsp (validationErrorReason err)]) db
      | Ok _ =>
          match RecordNonce rand (tsp_SenderNonce tsp) db with
          | (Err err, db) =>
              if errors_Is err ErrNonceAlreadySeen then
                credit_loop svc now pay tp sess rand tsps' creditTotal winners
                  (statuses ++ [rejected_status tsp NONCE_REPLAY]) db
              else if errors_Is err ErrTooManyNonces then
                let key := mkTicketSessionKey "" "" (s_Sender sess) (sv_recipient svc) (s_Capability sess) (s_Offering sess) in
                match ResetTicketSessionIfCurrent now key (s_WorkID sess) db with
                | (Err _, db) => (Err (Status Internal "retiring exhausted ticket session"), db)
                | (Ok _, db) =>
                    (Ok (creditTotal, winners, statuses ++ [rejected_status tsp INVALID_RECIPIENT_RAND]), db)
                end
              else (Err (Status Internal "record nonce"), db)
          | (Ok _, db) =>
              let num := CreditedEV (tk_FaceValue ticket) (tk_WinProb ticket) in
              if IsWinning ticket (tsp_Sig tsp) (Some rand) then
                match EnqueueRedemption (Hash ticket) (Some (signed_ticket pay tp tsp rand)) db with
                | (Err _, db) => (Err (Status Internal "enqueue redemption"), db)
                | (Ok enqueued, db) =>
                    credit_loop svc now pay tp sess rand tsps' (creditTotal + num)
                      (if (enqueued : bool) then u32 (winners + 1) else winners)
                      (statuses ++ [mkTicketStatus (tsp_SenderNonce tsp) (big_bytes num) true UNSPECIFIED]) db
                end
              else
                credit_loop svc now pay tp sess rand tsps' (creditTotal + num) winners
                  (statuses ++ [mkTicketStatus (tsp_SenderNonce tsp) (big_bytes num) false UNSPECIFIED]) db
          end
      end
  end.

Definition validateAndCredit (svc : Service) (now : Z) (pay : Payment) (tp : TicketParams) (sess : Session) (rand : Z)
    (db : DB M) : result rpc_error (Z * Z * list TicketStatus) * DB M :=
  credit_loop svc now pay tp sess rand (pay_TicketSenderParams pay) 0 0 [] db.

(** ** Processing a payment *)

(** The in-band refusal of a payment to a closed session. *)
Definition closed_response (pay : Payment) (sess : Session) : ProcessPaymentResponse :=
  let statuses := (fun tsp => rejected_status tsp INVALID_RECIPIENT_RAND) <$> pay_TicketSenderParams pay in
  let statuses := if bool_decide (length statuses = 0%nat) then [mkTicketStatus 0 "" false INVALID_RECIPIENT_RAND]
                  else statuses in
  let '(rejected, dominant) := summarizeTicketStatus statuses in
  mkProcessPaymentResponse (pay_Sender pay) "" (big_bytes (default 0 (SetString10 (s_BalanceWei sess)))) 0
    statuses rejected dominant.

(** The rand of a session: [None] for a session without one. *)
Definition session_rand (sess : Session) : result rpc_error (option Z) :=
  if bool_decide (s_RecipientRand sess = "") then Ok None
  else match SetString10 (s_RecipientRand sess) with
       | None => Err (Status Internal "session rand corrupt")
       | Some r => Ok (Some r)
       end.

Definition int32 (x : Z) : Z := (x + 2 ^ 31) mod two32 - 2 ^ 31.

Definition processPayment (svc : Service) (now : Z) (workID paymentBytes : string) (db : DB M)
    : result rpc_error ProcessPaymentResponse * DB M :=
  if bool_decide (workID = "") then (Err (Status InvalidArgument "work_id is empty"), db)
  else if len paymentBytes =? 0 then (Err (Status InvalidArgument "payment_bytes is empty"), db)
  else match decode paymentBytes with
  | None => (Err (Status InvalidArgument "decode payment"), db)
  | Some pay =>
    if len (pay_Sender pay) =? 0 then (Err (Status InvalidArgument "payment.sender is empty"), db)
    else match SealSender workID (pay_Sender pay) db with
    | (Err err, db) =>
        (Err (if errors_Is err ErrNotFound then Status FailedPrecondition "no session for work_id; OpenSession first"
              else if errors_Is err ErrSenderMismatch
              then Status FailedPrecondition "payment sender does not match the session's sealed sender"
              else Status Internal "seal sender"), db)
    | (Ok _, db) =>
      match Get (pay_Sender pay) workID db with
      | Err _ => (Err (Status Internal "load session"), db)
      | Ok sess =>
        if s_Closed sess then (Ok (closed_response pay sess), db)
        else if negb (bool_decide (s_WholesaleAccountID sess = ""))
        then (Err (Status FailedPrecondition "isolated generation requires wholesale funding"), db)
        else match session_rand sess with
        | Err err => (Err err, db)
        | Ok recipientRand =>
          match checkSignedPrice pay sess with
          | Err err => (Err err, db)
          | Ok _ =>
            let '(out, db) :=
              match recipientRand, pay_TicketParams pay with
              | Some rand, Some tp => validateAndCredit svc now pay tp sess rand db
              | _, _ => (Ok (0, 0, []), db)
              end in
            match out with
            | Err err => (Err err, db)
            | Ok (credited, winners, statuses) =>
              let '(rejected, dominant) := summarizeTicketStatus statuses in
              match CreditBalance (pay_Sender pay) workID credited db with
              | (Err _, db) => (Err (Status Internal "credit balance"), db)
              | (Ok balance, db) =>
                  (Ok (mkProcessPaymentResponse (pay_Sender pay) (big_bytes credited) (big_bytes balance)
                        (int32 winners) statuses rejected dominant), db)
              end
            end
          end
        end
      end
    end
  end.

(** Handlers that take new money or work are behind the source fence. *)
Definition unfrozen {A} (handler : DB M -> result rpc_error A * DB M) (db : DB M) : result rpc_error A * DB M :=
  match requireUnfrozenSource db with
  | Err err => (Err err, db)
  | Ok _ => handler db
  end.

Definition ProcessPayment (svc : Service) (now : Z) (workID paymentBytes : string) (db : DB M) :=
  unfrozen (processPayment svc now workID paymentBytes) db.

(** ** Sessions and balances.  The store's operation of the same name is called
    underneath; balances travel as [big.Int.Bytes]. *)

(** [rand] is 32 random bytes. *)
Definition genRand (rand : result error string) : result rpc_error Z :=
  match rand with
  | Err _ => Err (Status Internal "gen rand")
  | Ok buf => Ok (be_Z buf)
  end.

Inductive open_outcome := OPENED | ALREADY_OPEN.

Definition rpc_OpenSession (svc : Service) (rand : result error string) (now : Z)
    (workID capability offering workUnit price : string) (perUnits : Z) (db : DB M)
    : result rpc_error open_outcome * DB M :=
  unfrozen (fun db =>
    if bool_decide (workID = "") then (Err (Status InvalidArgument "work_id is empty"), db)
    else if bool_decide (capability = "") then (Err (Status InvalidArgument "capability is empty"), db)
    else if bool_decide (offering = "") then (Err (Status InvalidArgument "offering is empty"), db)
    else if bool_decide (workUnit = "") then (Err (Status InvalidArgument "work_unit is empty"), db)
    else match genRand rand with
    | Err err => (Err err, db)
    | Ok r =>
        let seed := mkSession "" "" workID "" "" capability offering (dec_string (be_Z price)) perUnits workUnit
                      0 "" false 0 0 (dec_string r) (dec_string (sv_defaultFaceValue svc))
                      (dec_string (sv_defaultWinProb svc)) in
        match OpenSession now seed db with
        | (Err err, db) =>
            (Err (if errors_Is err ErrPricingConflict
                  then Status FailedPrecondition "session price was already set by an offering and cannot be changed"
                  else Status Internal "open session"), db)
        | (Ok (_, alreadyOpen), db) => (Ok (if (alreadyOpen : bool) then ALREADY_OPEN else OPENED), db)
        end
    end) db.

Record DebitBalanceResponse := mkDebitBalanceResponse {
  db_Balance : string;
  db_DebitedWei : string;
  db_CumulativeUnits : Z;
  db_Replayed : bool;
}.

Definition rpc_DebitBalance (sender workID : string) (workUnits debitSeq : Z) (db : DB M)
    : result rpc_error DebitBalanceResponse * DB M :=
  unfrozen (fun db =>
    if len sender =? 0 then (Err (Status InvalidArgument "sender is empty"), db)
    else if bool_decide (workID = "") then (Err (Status InvalidArgument "work_id is empty"), db)
    else if workUnits <? 0 then (Err (Status InvalidArgument "work_units must be >= 0"), db)
    else match DebitBalance sender workID workUnits debitSeq db with
    | (Err err, db) => (Err (mapStoreErr err), db)
    | (Ok res, db) =>
        (Ok (mkDebitBalanceResponse (big_bytes (dr_Balance res)) (big_bytes (dr_DebitedWei res))
              (dr_CumulativeUnits res) (dr_Replayed res)), db)
    end) db.

(** Whether the balance covers the units, and the balance. *)
Definition rpc_SufficientBalance (sender workID : string) (minWorkUnits : Z) (db : DB M)
    : result rpc_error (bool * string) :=
  if len sender =? 0 then Err (Status InvalidArgument "sender is empty")
  else if bool_decide (workID = "") then Err (Status InvalidArgument "work_id is empty")
  else match Get sender workID db with
  | Err err => Err (mapStoreErr err)
  | Ok sess =>
      let balance := default 0 (SetString10 (s_BalanceWei sess)) in
      let price := default 0 (SetString10 (s_PricePerWorkUnitWei sess)) in
      let min := if minWorkUnits <? 0 then 0 else minWorkUnits in
      let required := BillFor price (s_PerUnits sess) (u64 (s_DebitedUnits sess + min))
                    - BillFor price (s_PerUnits sess) (s_DebitedUnits sess) in
      Ok (required <=? balance, big_bytes balance)
  end.

Definition rpc_GetBalance (sender workID : string) (db : DB M) : result rpc_error string :=
  if len sender =? 0 then Err (Status InvalidArgument "sender is empty")
  else if bool_decide (workID = "") then Err (Status InvalidArgument "work_id is empty")
  else match GetBalance sender workID db with
  | Err err => Err (mapStoreErr err)
  | Ok balance => Ok (big_bytes balance)
  end.

(** [true] when the session was already closed. *)
Definition rpc_CloseSession (now : Z) (sender workID : string) (db : DB M) : result rpc_error bool * DB M :=
  unfrozen (fun db =>
    if len sender =? 0 then (Err (Status InvalidArgument "sender is empty"), db)
    else if bool_decide (workID = "") then (Err (Status InvalidArgument "work_id is empty"), db)
    else match CloseSession now sender workID db with
    | (Err err, db) => (Err (mapStoreErr err), db)
    | (Ok alreadyClosed, db) => (Ok alreadyClosed, db)
    end) db.

(** Whether a session was retired, and its work id. *)
Definition rpc_ResetSession (svc : Service) (now : Z) (account stream sender recipient capability offering : string)
    (db : DB M) : result rpc_error (bool * string) * DB M :=
  unfrozen (fun db =>
    if len sender =? 0 then (Err (Status InvalidArgument "sender is empty"), db)
    else if negb (len recipient =? 0) && negb (bool_decide (recipient = sv_recipient svc))
    then (Err (Status InvalidArgument "recipient mismatch"), db)
    else if bool_decide (capability = "") then (Err (Status InvalidArgument "capability is empty"), db)
    else if bool_decide (offering = "") then (Err (Status InvalidArgument "offering is empty"), db)
    else if negb (ValidWholesaleAccountID account) || negb (ValidWholesaleAccountID stream)
    then (Err (Status InvalidArgument "account and ticket stream identity required"), db)
    else match ResetTicketSession now (mkTicketSessionKey account stream sender (sv_recipient svc) capability offering) db with
    | (Err _, db) => (Err (Status Internal "reset session"), db)
    | (Ok (oldWorkID, reset), db) => (Ok (reset, oldWorkID), db)
    end) db.

(** ** Ticket parameters *)
Record GetTicketParamsRequest := mkGetTicketParamsRequest {
  gtp_WholesaleAccountID : string;
  gtp_TicketStreamID : string;
  gtp_Sender : string;
  gtp_Recipient : string;
  gtp_Capability : string;
  gtp_Offering : string;
  gtp_FaceValue : string;
}.
Record GetTicketParamsResponse := mkGetTicketParamsResponse {
  gtr_PredecessorWorkID : string;
  gtr_HighestSeenNonce : Z;
  gtr_HasSeenNonces : bool;
  gtr_TicketParams : TicketParams;
  gtr_Seed : string;
}.

Definition tuple_key (svc : Service) (req : GetTicketParamsRequest) : TicketSessionKey :=
  mkTicketSessionKey (gtp_WholesaleAccountID req) (gtp_TicketStreamID req) (gtp_Sender req) (sv_recipient svc)
    (gtp_Capability req) (gtp_Offering req).

(** The face value and probability of an explicit target. *)
Definition target_params (svc : Service) (requestedEV : Z) : Z * Z :=
  let face := if sv_defaultFaceValue svc <? requestedEV then requestedEV else sv_defaultFaceValue svc in
  (face, winProbForExactEV face requestedEV).

(** Sizing: the explicit target, checked to be representable, or the defaults. *)
Definition requested_params (svc : Service) (raw : string) : result rpc_error (option Z * Z * Z) :=
  if len raw =? 0 then Ok (None, sv_defaultFaceValue svc, sv_defaultWinProb svc)
  else
    let requestedEV := be_Z raw in
    if requestedEV <=? 0 then Err (Status InvalidArgument "target expected value must be positive")
    else
      let '(face, prob) := target_params svc requestedEV in
      if (prob <=? 0) || (MaxWinProb <? prob) || negb (CreditedEV (Some face) (Some prob) =? requestedEV)
      then Err (Status FailedPrecondition "cannot represent target expected value")
      else Ok (Some requestedEV, face, prob).

(** Retire the indexed session when its rand has spent its nonces; the work id
    it had, when this call retired it. *)
Definition rotate_exhausted (now : Z) (key : TicketSessionKey) (db : DB M) : result rpc_error string * DB M :=
  match TicketSessionFor key db with
  | None => (Ok "", db)
  | Some existing =>
      match SetString10 (s_RecipientRand existing) with
      | None => (Ok "", db)
      | Some rand =>
          if NonceCount rand db <? MaxSenderNonces then (Ok "", db)
          else match ResetTicketSessionIfCurrent now key (s_WorkID existing) db with
               | (Err _, db) => (Err (Status Internal "rotate exhausted session"), db)
               | (Ok rotated, db) => (Ok (if (rotated : bool) then s_WorkID existing else ""), db)
               end
      end
  end.

Definition ticket_params_for (svc : Service) (requestedEV : option Z) (predecessor : string) (sess : Session) (db : DB M)
    : result rpc_error GetTicketParamsResponse :=
  match SetString10 (s_RecipientRand sess) with
  | None => Err (Status Internal "session rand corrupt")
  | Some recipientRand =>
    match SetString10 (s_FaceValueWei sess) with
    | None => Err (Status Internal "session face value corrupt")
    | Some storedFace =>
      let! (face, prob) :=
        match requestedEV with
        | Some ev => Ok (target_params svc ev)
        | None => match SetString10 (s_WinProb sess) with
                  | None => Err (Status Internal "session win prob corrupt")
                  | Some prob => Ok (storedFace, prob)
                  end
        end in
      let '(highest, seen) := HighestSenderNonce recipientRand db in
      Ok (mkGetTicketParamsResponse predecessor highest seen
            (mkTicketParams (sv_recipient svc) (big_bytes face) (big_bytes prob)
               (HashRecipientRand (Some recipientRand)))
            (LeftPadBytes (big_bytes recipientRand) 32))
    end
  end.

Definition GetTicketParams (svc : Service) (rand : result error string) (now : Z) (req : GetTicketParamsRequest)
    (db : DB M) : result rpc_error GetTicketParamsResponse * DB M :=
  if negb (ValidWholesaleAccountID (gtp_WholesaleAccountID req))
  then (Err (Status InvalidArgument "wholesale_account_id is required"), db)
  else unfrozen (fun db =>
    if negb (len (gtp_Sender req) =? 20) then (Err (Status InvalidArgument "sender must be 20 bytes"), db)
    else if bool_decide (gtp_Capability req = "") then (Err (Status InvalidArgument "capability is empty"), db)
    else if bool_decide (gtp_Offering req = "") then (Err (Status InvalidArgument "offering is empty"), db)
    else if negb (len (gtp_Recipient req) =? 0) && negb (bool_decide (gtp_Recipient req = sv_recipient svc))
    then (Err (Status InvalidArgument "recipient mismatch"), db)
    else match genRand rand with
    | Err err => (Err err, db)
    | Ok r =>
      match requested_params svc (gtp_FaceValue req) with
      | Err err => (Err err, db)
      | Ok (requestedEV, face, prob) =>
        if negb (ValidWholesaleAccountID (gtp_TicketStreamID req))
        then (Err (Status InvalidArgument "ticket_stream_id is required"), db)
        else
          let key := tuple_key svc req in
          match rotate_exhausted now key db with
          | (Err err, db) => (Err err, db)
          | (Ok predecessor, db) =>
              let seed := mkSession "" "" (hex_encode (HashRecipientRand (Some r))) "" "" "" "" PricingUnset 0 ""
                            0 "" false 0 0 (dec_string r) (dec_string face) (dec_string prob) in
              match GetOrCreateTicketSession now key seed db with
              | (Err _, db) => (Err (Status Internal "open session"), db)
              | (Ok (sess, _), db) => (ticket_params_for svc requestedEV predecessor sess db, db)
              end
          end
      end
    end) db.

(** ** Funding an account with a payment (funding.go) *)

(** The tickets of the payment, validated; the first invalid one refuses it. *)
Fixpoint funding_tickets (svc : Service) (pay : Payment) (tp : TicketParams) (rand : Z) (tsps : list TicketSenderParams)
    : result rpc_error (list FundingTicket) :=
  match tsps with
  | [] => Ok []
  | tsp :: tsps' =>
      let t := ticket_of pay tp tsp in
      match Validate (sv_recipient svc) t (tsp_Sig tsp) (Some rand) with
      | Err _ => Err (Status FailedPrecondition "invalid funding ticket")
      | Ok _ =>
          let! rest := funding_tickets svc pay tp rand tsps' in
          Ok (mkFundingTicket (tk_SenderNonce t) (Some (CreditedEV (tk_FaceValue t) (tk_WinProb t)))
                (if IsWinning t (tsp_Sig tsp) (Some rand) then Some (signed_ticket pay tp tsp rand) else None)
                (Hash t) :: rest)
      end
  end.

Definition fundWholesale (svc : Service) (now : Z) (paymentBytes domainID accountID : string) (db : DB M)
    : result rpc_error (FundingReceipt * bool) * DB M :=
  if negb (ValidWholesaleAccountID accountID) then (Err (Status InvalidArgument "wholesale_account_id is required"), db)
  else if negb (domain_matches svc domainID)
  then (Err (Status PermissionDenied "settlement domain does not match receiver ledger"), db)
  else match decode paymentBytes with
  | None => (Err (Status InvalidArgument "funding payment is malformed"), db)
  | Some pay =>
    match pay_TicketParams pay with
    | None => (Err (Status InvalidArgument "funding payment is malformed"), db)
    | Some tp =>
      if negb (len (pay_Sender pay) =? 20) || bool_decide (length (pay_TicketSenderParams pay) = 0%nat)
      then (Err (Status InvalidArgument "funding payment is malformed"), db)
      else
        let fundingID := hex_encode (sha256 paymentBytes) in
        let workID := hex_encode (tp_RecipientRandHash tp) in
        match GetFundingReceipt (pay_Sender pay) (sv_recipient svc) accountID fundingID db with
        | Ok receipt => (Ok (receipt, true), db)
        | Err err =>
          if negb (errors_Is err ErrNotFound)
          then (Err (Status PermissionDenied "funding receipt identity mismatch"), db)
          else match Get (pay_Sender pay) workID db with
          | Err _ => (Err (Status FailedPrecondition "funding generation not found"), db)
          | Ok sess =>
            if negb (bool_decide (s_WholesaleAccountID sess = accountID)) || bool_decide (s_TicketStreamID sess = "")
            then (Err (Status PermissionDenied "funding generation account mismatch"), db)
            else match checkSignedPrice pay sess with
            | Err err => (Err err, db)
            | Ok _ =>
              match SetString10 (s_RecipientRand sess) with
              | None => (Err (Status FailedPrecondition "invalid funding generation"), db)
              | Some rand =>
                match funding_tickets svc pay tp rand (pay_TicketSenderParams pay) with
                | Err err => (Err err, db)
                | Ok tickets =>
                  match ApplyWholesaleFunding (pay_Sender pay) (sv_recipient svc) accountID workID fundingID tickets now db with
                  | (Err err, db) =>
                      (Err (if errors_Is err ErrClosed || errors_Is err ErrTooManyNonces
                            then StatusInfo FailedPrecondition "INVALID_RECIPIENT_RAND" []
                            else Status FailedPrecondition "fund wholesale account"), db)
                  | (Ok (receipt, replay), db) => (Ok (receipt, replay), db)
                  end
                end
              end
            end
          end
        end
    end
  end.

Definition FundWholesaleAccount (svc : Service) (now : Z) (paymentBytes domainID accountID : string) (db : DB M) :=
  unfrozen (fundWholesale svc now paymentBytes domainID accountID) db.

(** ** Redemption status *)
Inductive redemption_status := STATUS_FAILED | STATUS_CONFIRMED (tx : string) | STATUS_QUEUED | STATUS_UNSPECIFIED.

Definition GetRedemptionStatus (ticketHash : string) (db : DB M) : result rpc_error redemption_status :=
  if negb (len ticketHash =? 32) then Err (Status InvalidArgument "ticket_hash must be 32 bytes")
  else match RedeemedTxHash ticketHash db with
  | Some tx =>
      Ok (if bool_decide (tx = replicate_byte 32 zero_byte) then STATUS_FAILED else STATUS_CONFIRMED tx)
  | None =>
      Ok (if existsb (fun p => bool_decide (pr_Hash p = ticketHash)) (PendingRedemptions db)
          then STATUS_QUEUED else STATUS_UNSPECIFIED)
  end.

End receiver.
