(* ===== verification/ReceiverSpec.v ===== *)
(** * What the payee's handlers guarantee

    Ticket parameters that are worth exactly what was asked, balance checks
    that agree with billing, and payments credited once, ticket by ticket. *)
From S2P Require Import Prelude.
From S2P Require Import GoBytes.
From S2P Require Import GoCodecs.
From S2P Require Import Bolt.
From S2P Require Import Ledger.
From S2P Require Import Billing.
From S2P Require Import Nonces.
From S2P Require Import Sessions.
From S2P Require Import Redemptions.
From S2P Require Import Wholesale.
From S2P Require Import Fences.
From S2P Require Import Funding.
From S2P Require Import WholesaleInv.
From S2P Require Import WholesaleSteps.
From S2P Require Import WholesaleSpec.
From S2P Require Import WholesaleOps.
From S2P Require Import Tickets.
From S2P Require Import TicketsSpec.
From S2P Require Import Receiver.

(** ** Ticket economics *)
Lemma MaxWinProb_pos : 0 < MaxWinProb.
Proof. reflexivity. Qed.

(** The probability is the quotient rounded up. *)
Lemma winProb_ceil face target :
  0 < target -> 0 < face ->
  (winProbForExactEV face target - 1) * face < target * MaxWinProb <= winProbForExactEV face target * face.
Proof.
  intros Ht Hf. pose proof MaxWinProb_pos as HM. unfold winProbForExactEV. set (n := target * MaxWinProb).
  assert (0 < n) by (subst n; nia).
  pose proof (Z.quot_rem n face ltac:(lia)) as Hq.
  pose proof (Z.rem_bound_pos n face ltac:(lia) ltac:(lia)) as Hr.
  destruct (Z.eqb_spec (Z.rem n face) 0); nia.
Qed.

Lemma CreditedEV_unique f w e :
  0 <= f -> 0 <= w -> e * MaxWinProb <= f * w < (e + 1) * MaxWinProb -> CreditedEV (Some f) (Some w) = e.
Proof.
  intros Hf Hw He. pose proof MaxWinProb_pos. pose proof (CreditedEV_floor f w Hf Hw).
  assert (CreditedEV (Some f) (Some w) < e + 1) by nia.
  assert (e < CreditedEV (Some f) (Some w) + 1) by nia. lia.
Qed.

Lemma winProb_exact face target :
  0 < target <= face -> face <= MaxWinProb \/ face = target ->
  let w := winProbForExactEV face target in
  0 < w <= MaxWinProb /\ CreditedEV (Some face) (Some w) = target /\
  forall w', 0 <= w' < w -> CreditedEV (Some face) (Some w') < target.
Proof.
  intros Ht Hface w. pose proof MaxWinProb_pos as HM.
  pose proof (winProb_ceil face target ltac:(lia) ltac:(lia)) as Hc. fold w in Hc.
  assert (0 < w <= MaxWinProb) as Hw by nia. split_and!; [lia|lia| |].
  - apply CreditedEV_unique; [lia|lia|]. split; [lia|]. destruct Hface as [Hm|Hm]; [nia|]. subst face. nia.
  - intros w' Hw'. pose proof (CreditedEV_floor face w' ltac:(lia) ltac:(lia)). nia.
Qed.

(** The defaults a payee issues are never worthless: whatever face value is
    configured, a ticket at the default face value and win probability credits
    at least one wei, and the floor is tight, one wei of face value less would
    credit nothing. *)
Theorem default_ticket_worth_a_wei cfgFace cfgWin :
  0 < default (Z.quot MaxWinProb 1024) cfgWin <= MaxWinProb ->
  let '(face, prob) := ticket_defaults cfgFace cfgWin in
  default (10 ^ 15) cfgFace <= face /\ 1 <= CreditedEV (Some face) (Some prob) /\
  (default (10 ^ 15) cfgFace < face -> 0 <= default (10 ^ 15) cfgFace ->
     CreditedEV (Some (face - 1)) (Some prob) = 0).
Proof.
  intros Hw. unfold ticket_defaults. set (prob := default (Z.quot MaxWinProb 1024) cfgWin) in *.
  set (cfg := default (10 ^ 15) cfgFace).
  pose proof (Z.quot_rem MaxWinProb prob ltac:(lia)) as Hq.
  pose proof (Z.rem_bound_pos MaxWinProb prob ltac:(lia) ltac:(lia)) as Hr.
  set (floor := if Z.rem MaxWinProb prob =? 0 then Z.quot MaxWinProb prob else Z.quot MaxWinProb prob + 1).
  assert (MaxWinProb <= floor * prob /\ (floor - 1) * prob < MaxWinProb) as [Hlo Hhi]
    by (subst floor; destruct (Z.eqb_spec (Z.rem MaxWinProb prob) 0); nia).
  assert (0 < floor) as Hpos by nia.
  destruct (Z.leb_spec floor 0); [lia|].
  assert (forall f, floor <= f -> 1 <= CreditedEV (Some f) (Some prob)) as Hworth.
  { intros f Hf. pose proof (CreditedEV_floor f prob ltac:(lia) ltac:(lia)). nia. }
  destruct (Z.ltb_spec cfg floor); (split_and!; [lia|apply Hworth; lia|]); [|lia].
  intros _ _. apply CreditedEV_unique; [lia|lia|]. split; [nia|lia].
Qed.

Section spec.
Context `{Bolt M} `{EthCrypto} (decode : string -> option Payment).
Implicit Types (db : DB M).

Lemma be_Z_nonneg s : 0 <= be_Z s.
Proof. apply (be_acc_bound s 0). lia. Qed.

(** An explicit target is always representable. *)
Lemma requested_params_exact svc raw :
  0 < sv_defaultFaceValue svc <= MaxWinProb -> 0 < be_Z raw -> len raw <> 0 ->
  let '(face, prob) := target_params svc (be_Z raw) in
  requested_params svc raw = Ok (Some (be_Z raw), face, prob) /\
  0 <= face /\ 0 < prob <= MaxWinProb /\ CreditedEV (Some face) (Some prob) = be_Z raw.
Proof.
  intros Hd Hev Hlen. unfold requested_params, target_params.
  set (face := if sv_defaultFaceValue svc <? be_Z raw then be_Z raw else sv_defaultFaceValue svc).
  assert (be_Z raw <= face /\ (face <= MaxWinProb \/ face = be_Z raw)) as [Hle Hor].
  { subst face. destruct (Z.ltb_spec (sv_defaultFaceValue svc) (be_Z raw)); lia. }
  destruct (winProb_exact face (be_Z raw) ltac:(lia) Hor) as (Hp & He & _).
  destruct (Z.eqb_spec (len raw) 0); [done|]. destruct (Z.leb_spec (be_Z raw) 0); [lia|].
  rewrite He. rewrite Z.eqb_refl. cbn [negb].
  destruct (Z.leb_spec (winProbForExactEV face (be_Z raw)) 0); [lia|].
  destruct (Z.ltb_spec MaxWinProb (winProbForExactEV face (be_Z raw))); [lia|]. split_and!; try done; lia.
Qed.

(** Ticket parameters are worth exactly what was asked: when a payer
    requests a target expected value, the parameters the payee returns (for a
    new stream or an existing one) credit exactly that value per ticket, with
    a probability that fits 256 bits and a face value of at least the payee's
    redeemable default; the request is never refused as unrepresentable. *)
Theorem ticket_params_credit_target svc rand now req db :
  0 < sv_defaultFaceValue svc <= MaxWinProb -> 0 < be_Z (gtp_FaceValue req) -> len (gtp_FaceValue req) <> 0 ->
  requested_params svc (gtp_FaceValue req) <> Err (Status FailedPrecondition "cannot represent target expected value") /\
  forall resp db', GetTicketParams svc rand now req db = (Ok resp, db') ->
    let tp := gtr_TicketParams resp in
    CreditedEV (Some (be_Z (tp_FaceValue tp))) (Some (be_Z (tp_WinProb tp))) = be_Z (gtp_FaceValue req) /\
    0 < be_Z (tp_WinProb tp) <= MaxWinProb /\ sv_defaultFaceValue svc <= be_Z (tp_FaceValue tp).
Proof.
  intros Hd Hev Hlen. pose proof (requested_params_exact svc (gtp_FaceValue req) Hd Hev Hlen) as Hr.
  destruct (target_params svc (be_Z (gtp_FaceValue req))) as [face prob] eqn:Ht. destruct Hr as (Hr & Hf & Hp & He).
  rewrite Hr. split; [done|]. intros resp db'. unfold GetTicketParams.
  destruct (negb _); [discriminate|]. unfold unfrozen. destruct (requireUnfrozenSource db); [|discriminate].
  do 4 (match goal with |- context [if ?b then _ else _] => destruct b; [discriminate|] end).
  destruct (genRand rand); [|discriminate]. rewrite Hr.
  destruct (negb _); [discriminate|]. destruct (rotate_exhausted _ _ _) as [[pre|] db1]; [|discriminate].
  destruct (GetOrCreateTicketSession _ _ _ _) as [[[sess ?]|] db2]; [|discriminate]. unfold ticket_params_for.
  destruct (SetString10 (s_RecipientRand sess)); [|discriminate].
  destruct (SetString10 (s_FaceValueWei sess)); [|discriminate]. rewrite Ht.
  destruct (HighestSenderNonce _ _). intros [= <- <-]. cbn [gtr_TicketParams tp_FaceValue tp_WinProb].
  rewrite !be_Z_big_bytes, !Z.abs_eq by lia. split_and!; [done|lia|lia|].
  unfold target_params in Ht. injection Ht as <- _. destruct (Z.ltb_spec (sv_defaultFaceValue svc) (be_Z (gtp_FaceValue req))); lia.
Qed.

(** ** Balances *)
Lemma parse_default s : parseDecimalBig s = default 0 (SetString10 s).
Proof.
  unfold parseDecimalBig. destruct (decide (s = "")) as [->|Hs]; [done|].
  rewrite bool_decide_false by done. by destruct (SetString10 s).
Qed.

(** The answer of a fresh debit through the handler. *)
Lemma rpc_debit_fresh sender w u q db sess :
  requireUnfrozenSource db = Ok tt -> sender <> "" -> w <> "" -> 0 <= u -> billable sender w db sess ->
  debit_seqs db !! debitSeqKey sender w q = None ->
  exists sess' c db', debit_session u sess = (sess', c) /\
    rpc_DebitBalance sender w u q db =
      (Ok (mkDebitBalanceResponse (big_bytes (parseDecimalBig (s_BalanceWei sess'))) (big_bytes c) (s_DebitedUnits sess') false), db') /\
    billable sender w db' sess'.
Proof.
  intros Hfz Hs Hw Hu Hb Hq.
  destruct (DebitBalance_step sender w u q db sess Hu Hb) as [[[? E] _]|(_ & sess' & c & db' & Hd & E & Hb' & _)];
    [congruence|].
  exists sess', c, db'. split_and!; [done| |done]. unfold rpc_DebitBalance, unfrozen. rewrite Hfz.
  destruct (Z.eqb_spec (len sender) 0) as [Hl|_]; [by destruct sender|].
  rewrite (bool_decide_false (w = "")) by done. destruct (Z.ltb_spec u 0); [lia|]. by rewrite E.
Qed.

(** A positive balance check is a promise: when [SufficientBalance] answers
    yes for some units, a debit of that many units (fresh sequence number, open
    priced session) succeeds and leaves the balance at or above zero, and the
    response then reads back as exactly the ledger's balance. *)
Theorem sufficient_covers_debit sender w n q db sess bal :
  requireUnfrozenSource db = Ok tt -> 0 <= n -> billable sender w db sess ->
  debit_seqs db !! debitSeqKey sender w q = None ->
  rpc_SufficientBalance sender w n db = Ok (true, bal) ->
  exists resp db', rpc_DebitBalance sender w n q db = (Ok resp, db') /\ db_Replayed resp = false /\
    0 <= be_Z (db_Balance resp) /\ GetBalance sender w db' = Ok (be_Z (db_Balance resp)) /\
    be_Z (db_Balance resp) = parseDecimalBig (s_BalanceWei sess) -
      (BillFor (parseDecimalBig (s_PricePerWorkUnitWei sess)) (s_PerUnits sess) (u64 (s_DebitedUnits sess + n)) -
       BillFor (parseDecimalBig (s_PricePerWorkUnitWei sess)) (s_PerUnits sess) (s_DebitedUnits sess)).
Proof.
  intros Hfz Hn Hb Hq. unfold rpc_SufficientBalance.
  destruct (Z.eqb_spec (len sender) 0) as [|Hl]; [discriminate|].
  destruct (decide (w = "")) as [->|Hw]; [discriminate|]. rewrite (bool_decide_false (w = "")) by done.
  unfold Get. rewrite (proj1 Hb). destruct (Z.ltb_spec n 0); [lia|]. rewrite <- !parse_default.
  intros [= Hle%Z.leb_le _].
  assert (sender <> "") as Hs by (by intros ->).
  destruct (rpc_debit_fresh sender w n q db sess Hfz Hs Hw Hn Hb Hq) as (sess' & c & db' & Hd & E & Hb').
  destruct (debit_session_spec _ _ _ _ Hd) as (Hun & Hc & Hbal & _). rewrite Hun in Hc.
  eexists _, db'. split; [exact E|]. cbn [db_Replayed db_Balance].
  rewrite be_Z_big_bytes, Z.abs_eq by lia. split_and!; [done|lia| |lia].
  unfold GetBalance, Get. by rewrite (proj1 Hb').
Qed.

(** An overdraft reads as credit: a debit beyond the balance is accepted
    and leaves the ledger negative by [d], but the response and [GetBalance]
    carry [big.Int.Bytes], which drops the sign, so a caller reads a positive
    balance of [d] instead of the negative value the protocol promises. *)
Theorem overdraft_reads_as_credit sender w u q db sess sess' c :
  requireUnfrozenSource db = Ok tt -> sender <> "" -> w <> "" -> 0 <= u -> billable sender w db sess ->
  debit_seqs db !! debitSeqKey sender w q = None ->
  debit_session u sess = (sess', c) -> parseDecimalBig (s_BalanceWei sess) < c ->
  let d := c - parseDecimalBig (s_BalanceWei sess) in
  exists resp db' bal, rpc_DebitBalance sender w u q db = (Ok resp, db') /\
    GetBalance sender w db' = Ok (- d) /\ 0 < d /\ be_Z (db_Balance resp) = d /\
    rpc_GetBalance sender w db' = Ok bal /\ be_Z bal = d.
Proof.
  intros Hfz Hs Hw Hu Hb Hq Hd Hover d.
  destruct (rpc_debit_fresh sender w u q db sess Hfz Hs Hw Hu Hb Hq) as (s1 & c1 & db' & Hd' & E & Hb').
  rewrite Hd in Hd'. injection Hd' as <- <-. destruct (debit_session_spec _ _ _ _ Hd) as (_ & _ & Hbal & _).
  assert (GetBalance sender w db' = Ok (- d)) as Hg.
  { unfold GetBalance, Get. rewrite (proj1 Hb'), Hbal. f_equal. lia. }
  eexists _, db', (big_bytes (- d)). split; [exact E|]. cbn [db_Balance]. rewrite !be_Z_big_bytes, Hbal.
  split_and!; [done|lia|lia| |lia]. unfold rpc_GetBalance.
  destruct (Z.eqb_spec (len sender) 0) as [Hl|_]; [by destruct sender|].
  rewrite (bool_decide_false (w = "")) by done. by rewrite Hg.
Qed.

(** ** Crediting the tickets of a payment *)
Definition accepted (sts : list TicketStatus) : list TicketStatus :=
  filter (fun st => ts_RejectionReason st = UNSPECIFIED) sts.

Definition ticket_ev (tp : TicketParams) : Z := CreditedEV (Some (be_Z (tp_FaceValue tp))) (Some (be_Z (tp_WinProb tp))).

Lemma ticket_ev_nonneg tp : 0 <= ticket_ev tp.
Proof. unfold ticket_ev, CreditedEV. apply Z.quot_pos; [|pose proof MaxWinProb_pos; lia].
  pose proof (be_Z_nonneg (tp_FaceValue tp)). pose proof (be_Z_nonneg (tp_WinProb tp)). nia. Qed.

Lemma ticket_of_ev pay tp tsp :
  CreditedEV (tk_FaceValue (ticket_of pay tp tsp)) (tk_WinProb (ticket_of pay tp tsp)) = ticket_ev tp.
Proof. unfold ticket_of. by destruct (default _ _). Qed.

(** A session's balance, when it exists. *)
Definition balance_of (sender w : string) db : option Z :=
  (fun s => parseDecimalBig (s_BalanceWei s)) <$> sessions db !! compositeKey sender w.

Lemma EnqueueRedemption_frame h t db :
  sessions (EnqueueRedemption h t db).2 = sessions db /\ nonces (EnqueueRedemption h t db).2 = nonces db.
Proof.
  unfold EnqueueRedemption. destruct (negb _); [done|]. destruct t; [|done]. unfold Update, enqueueRedemption.
  destruct (bool_decide _); [done|]. by destruct (bool_decide _).
Qed.

Lemma Reset_balance now key expected sender w db :
  balance_of sender w (ResetTicketSessionIfCurrent now key expected db).2 = balance_of sender w db.
Proof.
  unfold ResetTicketSessionIfCurrent. destruct (bool_decide _); [done|]. unfold Update.
  destruct (ticket_session_index db !! _); [|done]. destruct (negb _); [done|]. unfold retireIndexedSession.
  destruct (sessions db !! compositeKey (k_Sender key) expected) as [sess|] eqn:E; [|done].
  assert (forall d : DB M, sessions d = <[compositeKey (k_Sender key) expected := closed_at now sess]> (sessions db) ->
    balance_of sender w d = balance_of sender w db) as Hd.
  { intros d Ed. unfold balance_of. rewrite Ed.
    destruct (decide (compositeKey sender w = compositeKey (k_Sender key) expected)) as [->|Hne].
    - by rewrite lookup_insert_eq, E.
    - by rewrite lookup_insert_ne. }
  destruct (bool_decide _); [by apply Hd|]. destruct (SetString10 _); [by apply Hd|done].
Qed.

(** Recording one nonce of a rand makes that one seen, and no other. *)
Lemma NonceSeen_same_rand r n n' db :
  valid_nonce n -> valid_nonce n' ->
  NonceSeen r n' (with_nonces (<[nonceKey r n := nonceMark]> (nonces db)) db) = bool_decide (n' = n) || NonceSeen r n' db.
Proof.
  intros Hn Hn'. unfold NonceSeen. simpl. destruct (decide (n' = n)) as [->|Hne].
  - rewrite lookup_insert_eq, !bool_decide_true by eauto. done.
  - rewrite (bool_decide_false (n' = n)) by done. rewrite lookup_insert_ne; [done|].
    unfold nonceKey. intros [_ E]%app_inv_len; [|done]. apply Hne. symmetry.
    eapply (be_bytes_inj 4); [exact Hn|exact Hn'|exact E].
Qed.

(** What the loop adds to its accumulators [statuses] and [creditTotal]. *)
Record credited_by (tp : TicketParams) (rand : Z) (tsps : list TicketSenderParams) (new : list TicketStatus)
    (credit : Z) db db' : Prop := {
  cb_credit : credit = ticket_ev tp * Z.of_nat (length (accepted new));
  cb_nonces : NoDup (ts_SenderNonce <$> accepted new);
  cb_fresh : Forall (fun st => NonceSeen rand (ts_SenderNonce st) db = false) (accepted new);
  cb_valid : Forall (fun st => valid_nonce (ts_SenderNonce st)) (accepted new);
  cb_ev : Forall (fun st => be_Z (ts_CreditedEv st) = ticket_ev tp) (accepted new);
  cb_count : (length new <= length tsps)%nat;
  cb_balance : forall sender w, balance_of sender w db' = balance_of sender w db;
}.

Lemma credited_by_reject tp rand tsp tsps st new credit db db' :
  ts_RejectionReason st <> UNSPECIFIED ->
  credited_by tp rand tsps new credit db db' -> credited_by tp rand (tsp :: tsps) (st :: new) credit db db'.
Proof.
  intros Hst [Hc Hn Hf Hv He Hl Hb].
  assert (accepted (st :: new) = accepted new) as E by (unfold accepted; by rewrite filter_cons_False).
  split; rewrite ?E; try done. simpl. lia.
Qed.

Lemma credited_by_accept tp rand tsp tsps win new credit db db1 db' :
  valid_nonce (tsp_SenderNonce tsp) -> NonceSeen rand (tsp_SenderNonce tsp) db = false ->
  (forall n, valid_nonce n -> NonceSeen rand n db1 = bool_decide (n = tsp_SenderNonce tsp) || NonceSeen rand n db) ->
  (forall sender w, balance_of sender w db1 = balance_of sender w db) ->
  credited_by tp rand tsps new credit db1 db' ->
  credited_by tp rand (tsp :: tsps)
    (mkTicketStatus (tsp_SenderNonce tsp) (big_bytes (ticket_ev tp)) win UNSPECIFIED :: new)
    (ticket_ev tp + credit) db db'.
Proof.
  intros Hv0 Hun Hseen Hbal [Hc Hn Hf Hv He Hl Hb].
  assert (forall st, accepted (mkTicketStatus (tsp_SenderNonce tsp) st win UNSPECIFIED :: new) =
    mkTicketStatus (tsp_SenderNonce tsp) st win UNSPECIFIED :: accepted new) as E
    by (intros st; unfold accepted; by rewrite filter_cons_True).
  assert (Forall (fun st => NonceSeen rand (ts_SenderNonce st) db = false /\ ts_SenderNonce st <> tsp_SenderNonce tsp)
    (accepted new)) as Hback.
  { rewrite Forall_forall in *. intros st Hst. specialize (Hf st Hst). rewrite Hseen in Hf by by apply Hv.
    to_prop. done. }
  split; rewrite ?E; cbn [fmap list_fmap length ts_SenderNonce ts_CreditedEv].
  - rewrite Hc. lia.
  - constructor; [|done]. intros (st & Est & Hst)%list_elem_of_fmap. rewrite Forall_forall in Hback.
    by destruct (Hback st Hst).
  - constructor; [done|]. eapply Forall_impl; [exact Hback|]. by intros st [].
  - by constructor.
  - constructor; [|done]. cbn [ts_CreditedEv]. rewrite be_Z_big_bytes, Z.abs_eq; [done|apply ticket_ev_nonneg].
  - lia.
  - intros sender w. by rewrite Hb.
Qed.

Lemma credited_by_nil tp rand db : credited_by tp rand [] [] 0 db db.
Proof. split; try done; simpl; try constructor; lia. Qed.

Lemma credit_loop_spec svc now pay tp sess rand tsps c w sts db c' w' sts' db' :
  Forall (fun tsp => valid_nonce (tsp_SenderNonce tsp)) tsps ->
  credit_loop svc now pay tp sess rand tsps c w sts db = (Ok (c', w', sts'), db') ->
  exists new credit, sts' = sts ++ new /\ c' = c + credit /\ credited_by tp rand tsps new credit db db'.
Proof.
  intros Hv. revert c w sts db. induction Hv as [|tsp tsps Hn _ IH]; intros c w sts db E; cbn [credit_loop] in E.
  { injection E as <- <- <- <-. exists [], 0. rewrite app_nil_r. split_and!; [done|lia|apply credited_by_nil]. }
  rewrite ticket_of_ev in E.
  destruct (Validate _ _ _ _) as [[]|err].
  2: { apply IH in E as (new & credit & -> & -> & Hc). eexists _, credit. rewrite <- app_assoc.
       split_and!; [done|done|]. apply credited_by_reject; [by destruct err|done]. }
  rewrite RecordNonce_spec in E. destruct (NonceSeen rand (tsp_SenderNonce tsp) db) eqn:Hseen.
  { change (errors_Is ErrNonceAlreadySeen ErrNonceAlreadySeen) with true in E. cbn iota in E.
    apply IH in E as (new & credit & -> & -> & Hc). eexists _, credit. rewrite <- app_assoc.
    split_and!; [done|done|]. by apply credited_by_reject. }
  destruct (NonceCount rand db <? MaxSenderNonces).
  2: { change (errors_Is ErrTooManyNonces ErrNonceAlreadySeen) with false in E.
       change (errors_Is ErrTooManyNonces ErrTooManyNonces) with true in E. cbn iota in E.
       match type of E with context [ResetTicketSessionIfCurrent ?n ?k ?x ?d] =>
         pose proof (fun s w => Reset_balance n k x s w d) as Hb;
         destruct (ResetTicketSessionIfCurrent n k x d) as [[b|] db1] end; [|discriminate E].
       injection E as <- <- <- <-. eexists _, 0. split_and!; [done|lia|].
       apply credited_by_reject; [done|]. split; simpl; try done; try constructor; lia. }
  set (db1 := with_nonces _ db) in E.
  assert (forall n, valid_nonce n -> NonceSeen rand n db1 = bool_decide (n = tsp_SenderNonce tsp) || NonceSeen rand n db)
    as Hs1 by (intros n Hn'; by apply NonceSeen_same_rand).
  destruct (IsWinning _ _ _).
  - match type of E with context [EnqueueRedemption ?h ?t ?d] =>
      destruct (EnqueueRedemption_frame h t d) as [F1 F2];
      destruct (EnqueueRedemption h t d) as [[enq|] db2] end; [|discriminate E]. cbn [snd] in F1, F2.
    apply IH in E as (new & credit & -> & -> & Hc). eexists _, (ticket_ev tp + credit). rewrite <- app_assoc.
    split_and!; [done|lia|]. eapply credited_by_accept; [done|done| | |exact Hc].
    + intros n Hn'. unfold NonceSeen at 1. rewrite F2. by apply Hs1.
    + intros sender w0. unfold balance_of. by rewrite F1.
  - apply IH in E as (new & credit & -> & -> & Hc). eexists _, (ticket_ev tp + credit). rewrite <- app_assoc.
    split_and!; [done|lia|]. by eapply credited_by_accept.
Qed.

(** ** The refusal summary *)
Definition count_reason (r : RejectionReason) (sts : list TicketStatus) : Z :=
  Z.of_nat (length (filter (fun st => ts_RejectionReason st = r) sts)).

Lemma count_reason_cons r st sts :
  count_reason r (st :: sts) = (if decide (ts_RejectionReason st = r) then 1 else 0) + count_reason r sts.
Proof. unfold count_reason. rewrite filter_cons. case_decide; simpl length; lia. Qed.

(** [dom] is a rejection reason with the highest count [dc], if there is one. *)
Definition top (counts : RejectionReason -> Z) (dom : RejectionReason) (dc : Z) : Prop :=
  (forall r, r <> UNSPECIFIED -> counts r <= dc) /\
  ((dom = UNSPECIFIED /\ dc = 0) \/ (dom <> UNSPECIFIED /\ dc = counts dom)).

Lemma top_ext f g dom dc : (forall r, r <> UNSPECIFIED -> f r = g r) -> top f dom dc -> top g dom dc.
Proof.
  intros Hfg [Hm Hd]. split; [intros r Hr; rewrite <- Hfg by done; by apply Hm|].
  destruct Hd as [?|[Hd ->]]; [by left|right]. split; [done|by apply Hfg].
Qed.

Lemma summarize_spec sts counts rejected dom dc :
  top counts dom dc ->
  let '(rej, dom') := summarize sts counts rejected dom dc in
  rej = rejected + (Z.of_nat (length sts) - count_reason UNSPECIFIED sts) /\
  exists dc', top (fun r => counts r + count_reason r sts) dom' dc'.
Proof.
  revert counts rejected dom dc. induction sts as [|st sts IH]; intros counts rejected dom dc Ht; cbn [summarize].
  { split; [unfold count_reason; simpl; lia|]. exists dc. eapply top_ext; [|exact Ht].
    intros r _. unfold count_reason. simpl. lia. }
  rewrite count_reason_cons. destruct (decide (ts_RejectionReason st = UNSPECIFIED)) as [E|E].
  - rewrite bool_decide_true by done. specialize (IH counts rejected dom dc Ht).
    destruct (summarize _ _ _ _ _) as [rej dom']. destruct IH as (-> & dc' & IH). split; [simpl length; lia|].
    exists dc'. eapply top_ext; [|exact IH]. intros r Hr. simpl. rewrite count_reason_cons, decide_False by congruence. lia.
  - rewrite bool_decide_false by done. set (R := ts_RejectionReason st) in *.
    set (counts' := fun r' => if bool_decide (r' = R) then counts R + 1 else counts r').
    assert (forall r, counts' r = (if decide (R = r) then 1 else 0) + counts r) as Hc.
    { intros r. subst counts'. simpl. case_decide as Hd; [subst; rewrite bool_decide_true by done; lia|].
      rewrite bool_decide_false by congruence. lia. }
    assert (forall dom' dc', top counts' dom' dc' ->
      let '(rej, dom'') := summarize sts counts' (rejected + 1) dom' dc' in
      rej = rejected + (Z.of_nat (length (st :: sts)) - (0 + count_reason UNSPECIFIED sts)) /\
      exists dc'', top (fun r => counts r + count_reason r (st :: sts)) dom'' dc'') as Hgo.
    { intros dom' dc' Ht'. specialize (IH counts' (rejected + 1) dom' dc' Ht').
      destruct (summarize _ _ _ _ _) as [rej dom'']. destruct IH as (-> & dc'' & IH). split; [simpl length; lia|].
      exists dc''. eapply top_ext; [|exact IH]. intros r _. simpl. rewrite Hc, count_reason_cons. fold R. lia. }
    destruct Ht as [Hm Hd]. fold (counts' R). assert (counts' R = counts R + 1) as ER by (rewrite Hc, decide_True; [lia|done]).
    rewrite ER. destruct (Z.ltb_spec dc (counts R + 1)); apply Hgo; split.
    + intros r Hr. rewrite Hc. specialize (Hm r Hr). case_decide; [subst r|]; lia.
    + right. split; [done|lia].
    + intros r Hr. rewrite Hc. specialize (Hm r Hr). case_decide; [subst r|]; lia.
    + destruct Hd as [?|[Hd ->]]; [by left|right]. split; [done|]. rewrite Hc. case_decide; [subst dom|]; lia.
Qed.

(** The count is of the rejected tickets, and the dominant reason is a most
    frequent one. *)
Lemma summarizeTicketStatus_mode sts :
  let '(rej, dom) := summarizeTicketStatus sts in
  rej = Z.of_nat (length sts) - count_reason UNSPECIFIED sts /\
  forall r, r <> UNSPECIFIED -> count_reason r sts <= (if decide (dom = UNSPECIFIED) then 0 else count_reason dom sts).
Proof.
  unfold summarizeTicketStatus. pose proof (summarize_spec sts (fun _ => 0) 0 UNSPECIFIED 0) as Hs.
  destruct (summarize _ _ _ _ _) as [rej dom]. destruct Hs as (-> & dc & Hm & Hd).
  { split; [lia|by left]. }
  split; [lia|]. intros r Hr. specialize (Hm r Hr). simpl in Hm.
  destruct Hd as [[-> ->]|[Hd ->]]; [rewrite decide_True by done|rewrite decide_False by done]; simpl in *; lia.
Qed.

Lemma summarize_uniform sts R :
  R <> UNSPECIFIED -> sts <> [] -> Forall (fun st => ts_RejectionReason st = R) sts ->
  summarizeTicketStatus sts = (Z.of_nat (length sts), R).
Proof.
  intros HR Hne Hall. pose proof (summarizeTicketStatus_mode sts) as Hs.
  destruct (summarizeTicketStatus sts) as [rej dom]. destruct Hs as [-> Hm].
  assert (forall r, count_reason r sts = if decide (r = R) then Z.of_nat (length sts) else 0) as Hcount.
  { clear Hne Hm. intros r. induction Hall as [|st sts Hst _ IH]; [by case_decide|].
    rewrite count_reason_cons, IH, Hst. destruct (decide (r = R)) as [->|Hr].
    - rewrite !decide_True by done. simpl length. lia.
    - rewrite !decide_False by done. done. }
  specialize (Hm R HR). rewrite !Hcount in *. rewrite decide_True in Hm by done.
  rewrite decide_False by done.
  assert (0 < Z.of_nat (length sts)) by (destruct sts; [done|simpl length; lia]).
  f_equal; [lia|]. destruct (decide (dom = UNSPECIFIED)); [lia|]. case_decide; [done|lia].
Qed.

(** ** Processing a payment *)
Lemma CreditBalance_Ok sender w wei db bal db' :
  CreditBalance sender w wei db = (Ok bal, db') ->
  balance_of sender w db = Some (bal - wei) /\ balance_of sender w db' = Some bal.
Proof.
  unfold CreditBalance. rewrite Update_Ok. unfold mutate, balance_of.
  destruct (sessions db !! compositeKey sender w) as [sess|]; [|discriminate]. intros [= <- <-].
  simpl. rewrite lookup_insert_eq. simpl. rewrite parse_dec. split; f_equal; lia.
Qed.

(** C12: A payment is credited ticket by ticket and exactly once: on success,
    either the session was closed and the payment is refused in band with a
    dominant [INVALID_RECIPIENT_RAND] and nothing credited, or the balance
    grows by the ticket value times the number of accepted tickets, the amount
    reported; accepted tickets have pairwise distinct nonces none of which had
    been seen, and with a 256-bit win probability the credit is at most the
    face value of the accepted tickets. *)
Theorem payment_credits_once svc now w bytes pay db resp db' :
  decode bytes = Some pay ->
  Forall (fun tsp => valid_nonce (tsp_SenderNonce tsp)) (pay_TicketSenderParams pay) ->
  processPayment decode svc now w bytes db = (Ok resp, db') ->
  let db1 := (SealSender w (pay_Sender pay) db).2 in
  exists sess, Get (pay_Sender pay) w db1 = Ok sess /\
  if s_Closed sess then
    db' = db1 /\ pp_CreditedEv resp = "" /\ 0 < pp_TicketsRejected resp /\
    pp_DominantRejection resp = INVALID_RECIPIENT_RAND
  else
    exists credited, 0 <= credited /\ be_Z (pp_CreditedEv resp) = credited /\
      balance_of (pay_Sender pay) w db' = Some (parseDecimalBig (s_BalanceWei sess) + credited) /\
      (forall tp rand, pay_TicketParams pay = Some tp -> session_rand sess = Ok (Some rand) ->
         let acc := accepted (pp_TicketStatus resp) in
         credited = ticket_ev tp * Z.of_nat (length acc) /\ NoDup (ts_SenderNonce <$> acc) /\
         Forall (fun st => NonceSeen rand (ts_SenderNonce st) db1 = false) acc /\
         (be_Z (tp_WinProb tp) <= MaxWinProb -> credited <= be_Z (tp_FaceValue tp) * Z.of_nat (length acc))).
Proof.
  intros Hdec Hv. unfold processPayment. destruct (bool_decide _); [discriminate|]. destruct (_ =? 0); [discriminate|].
  rewrite Hdec. destruct (_ =? 0); [discriminate|].
  destruct (SealSender w (pay_Sender pay) db) as [[[]|] db1]; [|discriminate]. cbn [snd].
  destruct (Get (pay_Sender pay) w db1) as [sess|] eqn:Hget; [|discriminate]. intros E. exists sess. split; [done|].
  destruct (s_Closed sess).
  { injection E as <- <-. unfold closed_response.
    set (sts := if bool_decide _ then _ else _).
    rewrite (summarize_uniform sts INVALID_RECIPIENT_RAND); [|done|..].
    - cbn [pp_CreditedEv pp_TicketsRejected pp_DominantRejection]. split_and!; try done.
      subst sts. destruct (pay_TicketSenderParams pay); simpl; lia.
    - subst sts. by destruct (pay_TicketSenderParams pay).
    - subst sts. destruct (bool_decide _); [by repeat constructor|]. apply Forall_fmap, Forall_forall. done. }
  destruct (negb _); [discriminate E|]. destruct (session_rand sess) as [rand|] eqn:Hrand; [|discriminate E].
  destruct (checkSignedPrice pay sess); [|discriminate E].
  assert (balance_of (pay_Sender pay) w db1 = Some (parseDecimalBig (s_BalanceWei sess))) as Hb1.
  { unfold Get in Hget. unfold balance_of. destruct (sessions db1 !! _); [|discriminate]. by injection Hget as ->. }
  set (out := match rand with Some _ => _ | None => _ end) in E.
  destruct out as [[[[c winners] sts]|] db2] eqn:Hout; [|discriminate E].
  assert (0 <= c /\ balance_of (pay_Sender pay) w db2 = balance_of (pay_Sender pay) w db1 /\
    (forall tp r, pay_TicketParams pay = Some tp -> rand = Some r ->
       credited_by tp r (pay_TicketSenderParams pay) sts c db1 db2)) as (Hc0 & Hb2 & Hcb).
  { subst out. destruct rand as [r|]; [|injection Hout as <- <- <- <-; split_and!; [lia|done|discriminate]].
    destruct (pay_TicketParams pay) as [tp|]; [|injection Hout as <- <- <- <-; split_and!; [lia|done|discriminate]].
    apply credit_loop_spec in Hout as (new & credit & -> & -> & Hcb); [|done]. rewrite Z.add_0_l. simpl.
    split_and!; [|apply Hcb|by intros ? ? [= <-] [= <-]].
    rewrite (cb_credit _ _ _ _ _ _ _ Hcb). pose proof (ticket_ev_nonneg tp). nia. }
  clearbody out. subst out. destruct (summarizeTicketStatus sts) as [rej dom].
  destruct (CreditBalance _ _ _ _) as [[bal|] db3] eqn:Hcr; [|discriminate E]. injection E as <- <-.
  apply CreditBalance_Ok in Hcr as [Hbefore Hafter]. rewrite Hb2, Hb1 in Hbefore. injection Hbefore as Hbefore.
  exists c. cbn [pp_CreditedEv pp_TicketStatus]. rewrite be_Z_big_bytes, Z.abs_eq by done.
  split_and!; [done|done|rewrite Hafter; f_equal; lia|]. intros tp r Htp [= ->].
  destruct (Hcb tp r Htp eq_refl) as [H1 H2 H3 _ _ _ _]. split_and!; [done|done|done|].
  intros Hp. rewrite H1. apply Z.mul_le_mono_nonneg_r; [lia|].
  apply CreditedEV_bounds; [apply be_Z_nonneg|]. split; [apply be_Z_nonneg|done].
Qed.

(** ** Funding *)
Lemma funding_tickets_spec svc pay tp rand tsps tickets :
  funding_tickets svc pay tp rand tsps = Ok tickets ->
  length tickets = length tsps /\ total_credit tickets = ticket_ev tp * Z.of_nat (length tsps) /\
  Forall (fun tsp => Validate (sv_recipient svc) (ticket_of pay tp tsp) (tsp_Sig tsp) (Some rand) = Ok tt) tsps.
Proof.
  revert tickets. induction tsps as [|tsp tsps IH]; intros tickets E; cbn [funding_tickets] in E.
  { injection E as <-. split_and!; [done|cbn; lia|constructor]. }
  destruct (Validate _ _ _ _) as [[]|] eqn:Hval; [|discriminate E].
  destruct (funding_tickets _ _ _ _ tsps) as [rest|]; [|discriminate E]. injection E as <-.
  destruct (IH rest eq_refl) as (Hl & Hc & Hv). rewrite ticket_of_ev. split_and!.
  - simpl. by rewrite Hl.
  - unfold total_credit in *. cbn [foldr ft_Credit default from_option id length]. rewrite Hc. lia.
  - by constructor.
Qed.

(** A funding call that credited, step by step. *)
Lemma fundWholesale_fresh svc now bytes dom a db r db' :
  fundWholesale decode svc now bytes dom a db = (Ok (r, false), db') ->
  exists pay tp rand tickets, decode bytes = Some pay /\ pay_TicketParams pay = Some tp /\
    pay_TicketSenderParams pay <> [] /\
    funding_tickets svc pay tp rand (pay_TicketSenderParams pay) = Ok tickets /\
    ApplyWholesaleFunding (pay_Sender pay) (sv_recipient svc) a (hex_encode (tp_RecipientRandHash tp))
      (hex_encode (sha256 bytes)) tickets now db = (Ok (r, false), db') /\
    (GetFundingReceipt (pay_Sender pay) (sv_recipient svc) a (hex_encode (sha256 bytes)) db' = Ok r ->
     forall now', fundWholesale decode svc now' bytes dom a db' = (Ok (r, true), db')).
Proof.
  intros E. pose proof E as E0. unfold fundWholesale in E0.
  destruct (negb (ValidWholesaleAccountID a)) eqn:H1; [discriminate E0|].
  destruct (negb (domain_matches svc dom)) eqn:H2; [discriminate E0|].
  destruct (decode bytes) as [pay|] eqn:Hdec; [|discriminate E0].
  destruct (pay_TicketParams pay) as [tp|] eqn:Htp; [|discriminate E0].
  destruct (negb (len (pay_Sender pay) =? 20) || bool_decide (length (pay_TicketSenderParams pay) = 0%nat)) eqn:Hg;
    [discriminate E0|].
  destruct (GetFundingReceipt _ _ _ _ db) as [r0|err]; [discriminate E0|].
  destruct (negb _) in E0; [discriminate E0|].
  destruct (Get _ _ _) as [sess|]; [|discriminate E0]. destruct (_ || _) in E0; [discriminate E0|].
  destruct (checkSignedPrice _ _); [|discriminate E0]. destruct (SetString10 _) as [rand|]; [|discriminate E0].
  destruct (funding_tickets _ _ _ _ _) as [tickets|] eqn:Ht; [|discriminate E0].
  destruct (ApplyWholesaleFunding _ _ _ _ _ _ _ _) as [[[r1 rp]|err1] db1] eqn:Ha; [|discriminate E0].
  injection E0 as -> -> ->. exists pay, tp, rand, tickets. split_and!; try done.
  - to_prop. intros El. by rewrite El in *.
  - intros Hr now'. unfold fundWholesale. by rewrite H1, H2, Hdec, Htp, Hg, Hr.
Qed.

(** C13: Funding with a payment is exact and idempotent: when a payee accepts a
    funding payment, every ticket of it is validly signed for this payee and
    stream, every nonce was unseen, the account is credited the ticket value
    times the number of tickets, and presenting the same payment again returns
    the stored receipt without crediting. *)
Theorem funding_payment_exact svc payee now bytes dom a db r db' :
  reachable payee db -> fundWholesale decode svc now bytes dom a db = (Ok (r, false), db') ->
  exists pay tp rand, decode bytes = Some pay /\ pay_TicketParams pay = Some tp /\
    let n := Z.of_nat (length (pay_TicketSenderParams pay)) in
    let acc := GetWholesaleAccount (pay_Sender pay) (sv_recipient svc) a in
    0 < n /\ credited (acc db') = credited (acc db) + ticket_ev tp * n /\
    Forall (fun tsp => Validate (sv_recipient svc) (ticket_of pay tp tsp) (tsp_Sig tsp) (Some rand) = Ok tt)
      (pay_TicketSenderParams pay) /\
    (receipt_for (pay_Sender pay) (sv_recipient svc) a r = true ->
     forall now', fundWholesale decode svc now' bytes dom a db' = (Ok (r, true), db')).
Proof.
  intros Hr (pay & tp & rand & tickets & Hd & Htp & Hne & Ht & Ha & Hagain)%fundWholesale_fresh.
  destruct (funding_tickets_spec _ _ _ _ _ _ Ht) as (_ & Hsum & Hv).
  destruct (ApplyWholesaleFunding_exact _ _ _ _ _ _ _ _ _ _ _ Hr Ha) as (Hc & _ & _ & _ & Hrec & _).
  exists pay, tp, rand. cbv zeta in *. split_and!; try done.
  - destruct (pay_TicketSenderParams pay); [done|]. simpl length. lia.
  - by rewrite Hc, Hsum.
  - intros Hfor. apply Hagain. unfold receipt_for in Hfor. to_prop. congruence.
Qed.

(** Nothing bounds the win probability a payer signs: the field is read
    with [SetBytes] and only [Validate] and a positive credit stand before the
    ledger, so an accepted payment whose [win_prob] is [k] times the 256-bit
    maximum credits [k] times the face value of its tickets, more than they
    could ever pay out on chain. *)
Theorem oversized_win_prob_overcredits svc payee now bytes dom a db r db' pay tp k :
  reachable payee db -> fundWholesale decode svc now bytes dom a db = (Ok (r, false), db') ->
  decode bytes = Some pay -> pay_TicketParams pay = Some tp ->
  1 < k -> be_Z (tp_WinProb tp) = k * MaxWinProb ->
  let n := Z.of_nat (length (pay_TicketSenderParams pay)) in
  let acc := GetWholesaleAccount (pay_Sender pay) (sv_recipient svc) a in
  credited (acc db') - credited (acc db) = k * (be_Z (tp_FaceValue tp) * n).
Proof.
  intros Hr (pay' & tp' & rand & tickets & Hd & Htp & Hne & Ht & Ha & _)%fundWholesale_fresh Hd' Htp' Hk Hw.
  rewrite Hd' in Hd. injection Hd as <-. rewrite Htp' in Htp. injection Htp as <-.
  destruct (funding_tickets_spec _ _ _ _ _ _ Ht) as (_ & Hsum & _).
  destruct (ApplyWholesaleFunding_exact _ _ _ _ _ _ _ _ _ _ _ Hr Ha) as (Hc & _).
  cbv zeta in Hc |- *. rewrite Hc, Hsum. unfold ticket_ev, CreditedEV. rewrite Hw, Z.mul_assoc, Z.quot_mul by done. lia.
Qed.

End spec.

(** ** Concrete handlers *)
Lemma default_ticket_worth_a_wei_witness :
  ticket_defaults (Some 7) None = (1025, Z.quot MaxWinProb 1024) /\
  1 <= CreditedEV (Some 1025) (Some (Z.quot MaxWinProb 1024)).
Proof.
  assert (ticket_defaults (Some 7) None = (1025, Z.quot MaxWinProb 1024)) as E by vm_refl. split; [exact E|].
  pose proof (default_ticket_worth_a_wei (Some 7) None ltac:(vm_compute; split; congruence)) as Hd.
  rewrite E in Hd. exact (proj1 (proj2 Hd)).
Defined.

Definition demo_payee : string := "payee-address-20byte".
Definition demo_svc : Service := mkService demo_payee 1 (Ok "dom") (10 ^ 15) (Z.quot MaxWinProb 1024).
Definition demo_req : GetTicketParamsRequest :=
  mkGetTicketParamsRequest "acct" "stream" demo_sender "" "cap" "off" (big_bytes 12345).

Lemma ticket_params_credit_target_witness :
  let out := @GetTicketParams (gmap string) _ demo_eth demo_svc (Ok (be_bytes 32 5)) 3 demo_req Open in
  is_ok out.1 = true /\
  forall resp db', out = (Ok resp, db') ->
    CreditedEV (Some (be_Z (tp_FaceValue (gtr_TicketParams resp)))) (Some (be_Z (tp_WinProb (gtr_TicketParams resp)))) = 12345.
Proof.
  intros out. split; [vm_refl|]. intros resp db' E.
  assert (0 < sv_defaultFaceValue demo_svc <= MaxWinProb) as H1 by (vm_compute; split; congruence).
  assert (be_Z (gtp_FaceValue demo_req) = 12345) as H2 by vm_refl.
  assert (len (gtp_FaceValue demo_req) <> 0) as H3 by (vm_compute; discriminate).
  assert (0 < be_Z (gtp_FaceValue demo_req)) as H2' by (rewrite H2; lia).
  rewrite <- H2. unfold out in E.
  destruct (@ticket_params_credit_target (gmap string) _ demo_eth demo_svc (Ok (be_bytes 32 5)) 3 demo_req Open H1 H2' H3)
    as [_ Hall].
  exact (proj1 (Hall resp db' E)).
Defined.

(** A session with 50 wei at 7 wei per 2 units. *)
Definition bal_sess : Session :=
  mkSession "" "" "w" "alice" "" "cap" "off" "7" 2 "token" 0 "50" false 1 0 "" "" "".
Abbreviation bal_db := (with_sessions (<[compositeKey "alice" "w" := bal_sess]> ∅) (Open (M := gmap string))) (only parsing).

Lemma bal_billable : billable "alice" "w" bal_db bal_sess.
Proof. split_and!; [apply lookup_insert_eq|done|done]. Qed.

Lemma sufficient_covers_debit_witness :
  exists resp db', rpc_DebitBalance "alice" "w" 14 1 bal_db = (Ok resp, db') /\ 0 <= be_Z (db_Balance resp).
Proof.
  destruct (sufficient_covers_debit "alice" "w" 14 1 bal_db bal_sess (big_bytes 50) eq_refl ltac:(lia) bal_billable
    eq_refl ltac:(vm_refl)) as (resp & db' & E & _ & Hb & _).
  exists resp, db'. split; [exact E|exact Hb].
Defined.

(** Twenty units cost 70 of the 50 wei: the overdraft of 20 reads as 20. *)
Lemma overdraft_reads_as_credit_witness :
  exists resp db', rpc_DebitBalance "alice" "w" 20 1 bal_db = (Ok resp, db') /\
    GetBalance "alice" "w" db' = Ok (-20) /\ be_Z (db_Balance resp) = 20.
Proof.
  destruct (overdraft_reads_as_credit "alice" "w" 20 1 bal_db bal_sess (debit_session 20 bal_sess).1 70 eq_refl
    ltac:(done) ltac:(done) ltac:(lia) bal_billable eq_refl ltac:(vm_compute; reflexivity) ltac:(vm_compute; reflexivity))
    as (resp & db' & bal & E & Hg & _ & Hb & _).
  exists resp, db'. split; [exact E|]. split; [exact Hg|exact Hb].
Defined.

(** A payment of two tickets, to a stream funding an account or to an open
    session, at win probability [prob]. *)
Definition demo_pay (prob : Z) : Payment :=
  mkPayment demo_sender (Some (mkTicketParams demo_payee (big_bytes 1000) (big_bytes prob) (be_bytes 32 5))) (Some (3, be_bytes 32 9))
    [mkTicketSenderParams 1 demo_sig; mkTicketSenderParams 2 demo_sig] None.
Definition demo_decode (prob : Z) (bytes : string) : option Payment := Some (demo_pay prob).

Definition open_job : Session :=
  mkSession "" "" "job" "" "" "cap" "off" "7" 2 "token" 0 "0" false 1 0 "5" "" "".
Abbreviation job_db := (with_capability_index (<["job" := ""]> ∅)
  (with_sessions (<[compositeKey "" "job" := open_job]> ∅) (Open (M := gmap string)))) (only parsing).

Lemma payment_credits_once_witness :
  let out := @processPayment (gmap string) _ demo_eth (demo_decode MaxWinProb) demo_svc 4 "job" "bytes" job_db in
  is_ok out.1 = true /\
  forall resp db', out = (Ok resp, db') -> balance_of demo_sender "job" db' = Some (0 + be_Z (pp_CreditedEv resp)).
Proof.
  intros out. split; [vm_refl|]. intros resp db' E.
  destruct (@payment_credits_once (gmap string) _ demo_eth (demo_decode MaxWinProb) demo_svc 4 "job" "bytes" (demo_pay MaxWinProb) job_db
    resp db' eq_refl ltac:(repeat constructor; simpl; unfold valid_nonce, two32; lia) E) as (sess & Hget & Hs).
  assert (Get demo_sender "job" (SealSender "job" demo_sender job_db).2 = Ok (s_with_Sender demo_sender open_job)) as Hget' by vm_refl.
  change (pay_Sender (demo_pay MaxWinProb)) with demo_sender in *. rewrite Hget' in Hget. injection Hget as <-.
  destruct Hs as (credited & _ & Hc & Hb & _). rewrite Hc. exact Hb.
Defined.

Definition fund_sess : Session :=
  mkSession "acct" "stream" (hex_encode (be_bytes 32 5)) demo_sender demo_payee "cap" "off" "" 0 "" 0 "0" false 1 0 "5" "" "".
Abbreviation fund_db := (with_sessions (<[compositeKey demo_sender (hex_encode (be_bytes 32 5)) := fund_sess]> ∅)
  (Open (M := gmap string))) (only parsing).

Lemma fund_reach : reachable demo_payee fund_db.
Proof. eapply rtc_once, step_frame. split_and!; reflexivity. Qed.

Abbreviation fund_call prob now db :=
  (@fundWholesale (gmap string) _ demo_eth (demo_decode prob) demo_svc now "bytes" "dom" "acct" db) (only parsing).
Definition demo_receipt (prob : Z) (credit : string) : FundingReceipt :=
  mkFundingReceipt (hex_encode (sha256 "bytes")) (mkWholesaleAccount "acct" demo_sender demo_payee credit "0" "0" 1 8) credit.

Lemma funding_payment_exact_witness :
  let out := fund_call MaxWinProb 8 fund_db in
  out.1 = Ok (demo_receipt MaxWinProb "2000", false) /\
  fund_call MaxWinProb 9 out.2 = (Ok (demo_receipt MaxWinProb "2000", true), out.2).
Proof.
  intros out. assert (out.1 = Ok (demo_receipt MaxWinProb "2000", false)) as E by vm_refl. split; [exact E|].
  destruct (@funding_payment_exact (gmap string) _ demo_eth (demo_decode MaxWinProb) demo_svc demo_payee 8 "bytes" "dom" "acct" fund_db
    (demo_receipt MaxWinProb "2000") out.2 fund_reach (answer _ _ E)) as (pay & tp & rand & Hd & _ & _ & _ & _ & Hre).
  injection Hd as <-. apply Hre. vm_refl.
Defined.

(** Two tickets of 1000 wei credited 4000 wei. *)
Lemma oversized_win_prob_overcredits_witness :
  let out := fund_call (2 * MaxWinProb) 8 fund_db in
  let acc := GetWholesaleAccount demo_sender demo_payee "acct" in
  out.1 = Ok (demo_receipt (2 * MaxWinProb) "4000", false) /\
  credited (acc out.2) - credited (acc fund_db) = 2 * (1000 * 2).
Proof.
  intros out acc. assert (out.1 = Ok (demo_receipt (2 * MaxWinProb) "4000", false)) as E by vm_refl. split; [exact E|].
  refine (@oversized_win_prob_overcredits (gmap string) _ demo_eth (demo_decode (2 * MaxWinProb)) demo_svc demo_payee 8 "bytes" "dom"
    "acct" fund_db (demo_receipt (2 * MaxWinProb) "4000") out.2 (demo_pay (2 * MaxWinProb)) _ 2 fund_reach (answer _ _ E)
    eq_refl eq_refl _ _); [lia|vm_refl].
Defined.
