(* ===== verification/Types.v ===== *)
(** * In-process payment types and their wire forms

    payment-daemon/internal/types (types.go) and the JSON form of ticket
    parameters in internal/service/sender/ticketparams_fetcher.go.  The HTTP
    exchange and the JSON decoding are the parameter [post] of [Fetch]. *)
From S2P Require Import Prelude.
From S2P Require Import GoBytes.
From S2P Require Import GoCodecs.
From S2P Require Import GoStrings.
From S2P Require Import ChainErrors.
From Stdlib Require Import Ascii.

(** ** In-process *)
Record TicketExpirationParams := mkExpiration {
  ex_CreationRound : Z;
  ex_CreationRoundBlockHash : string;
}.

Record TicketParams := mkTicketParams {
  p_WholesaleAccountID : string;
  p_TicketStreamID : string;
  p_SettlementDomainID : string;
  p_Recipient : string;
  p_FaceValue : Z;
  p_WinProb : Z;
  p_RecipientRandHash : string;
  p_Seed : string;
  p_ExpirationBlock : Z;
  p_ExpirationParams : option TicketExpirationParams;
  p_HighestSeenNonce : Z;
  p_HasSeenNonces : bool;
}.

Record TicketSenderParams := mkTicketSenderParams {
  sp_SenderNonce : Z;
  sp_Sig : string;
}.

Record PriceInfo := mkPriceInfo {
  pi_PricePerUnit : Z;
  pi_PixelsPerUnit : Z;
  pi_Capability : Z;
  pi_Constraint : string;
}.

Record TicketBatch := mkTicketBatch {
  tb_TicketParams : option TicketParams;
  tb_Sender : string;
  tb_ExpirationParams : option TicketExpirationParams;
  tb_TicketSenderParams : list TicketSenderParams;
  tb_ExpectedPrice : option PriceInfo;
}.

(** ** Protobuf messages, decoded *)
Record pb_TicketParams := mkpb_TicketParams {
  wp_Recipient : string;
  wp_FaceValue : string;
  wp_WinProb : string;
  wp_RecipientRandHash : string;
  wp_Seed : string;
  wp_ExpirationBlock : string;
  wp_ExpirationParams : option TicketExpirationParams;
}.

Record pb_Payment := mkpb_Payment {
  wm_TicketParams : option pb_TicketParams;
  wm_Sender : string;
  wm_ExpirationParams : option TicketExpirationParams;
  wm_TicketSenderParams : list TicketSenderParams;
  wm_ExpectedPrice : option PriceInfo;
}.

(** The amounts of in-process parameters are never [nil] here. *)
Definition bigIntBytes (n : Z) : string := big_bytes n.

(** The message types of the expiration and the price have the fields of the
    in-process ones. *)
Definition expirationParamsToWire (e : option TicketExpirationParams) : option TicketExpirationParams := e.
Definition priceInfoToWire (p : option PriceInfo) : option PriceInfo := p.

Definition ticketParamsToWire (p : option TicketParams) : option pb_TicketParams :=
  match p with
  | None => None
  | Some p =>
      Some (mkpb_TicketParams (p_Recipient p) (bigIntBytes (p_FaceValue p)) (bigIntBytes (p_WinProb p))
              (p_RecipientRandHash p) (p_Seed p) (bigIntBytes (p_ExpirationBlock p))
              (expirationParamsToWire (p_ExpirationParams p)))
  end.

Definition ToWirePayment (b : option TicketBatch) : option pb_Payment :=
  match b with
  | None => None
  | Some b =>
      Some (mkpb_Payment (ticketParamsToWire (tb_TicketParams b)) (tb_Sender b)
              (expirationParamsToWire (tb_ExpirationParams b))
              ((fun sp => mkTicketSenderParams (sp_SenderNonce sp) (sp_Sig sp)) <$> tb_TicketSenderParams b)
              (priceInfoToWire (tb_ExpectedPrice b)))
  end.

Definition TicketParamsFromWire (p : option pb_TicketParams) : option TicketParams :=
  match p with
  | None => None
  | Some p =>
      Some (mkTicketParams "" "" "" (wp_Recipient p) (be_Z (wp_FaceValue p)) (be_Z (wp_WinProb p))
              (wp_RecipientRandHash p) (wp_Seed p) (be_Z (wp_ExpirationBlock p)) (wp_ExpirationParams p) 0 false)
  end.

Definition ParseFaceValue (raw : string) : result string Z :=
  if len raw =? 0 then Err "face_value is empty"
  else if 32 <? len raw then Err "face_value exceeds uint256"
  else Ok (be_Z raw).

(** ** The JSON form *)
Definition hexAddress (raw : string) : string := "0x" +:+ hex_encode raw.

(** [hex.DecodeString]: both cases, an even number of digits. *)
Definition hex_value (c : ascii) : option Z :=
  let v := byte_val c in
  if between 48 57 c then Some (v - 48)
  else if between 97 102 c then Some (v - 87)
  else if between 65 70 c then Some (v - 55)
  else None.

Fixpoint hex_decode (s : string) : option string :=
  match s with
  | "" => Some ""
  | String a (String b s') =>
      match hex_value a, hex_value b, hex_decode s' with
      | Some x, Some y, Some r => Some (String (byte_of (16 * x + y)) r)
      | _, _, _ => None
      end
  | String _ "" => None
  end.

(** [None] for the expected length accepts any, an empty text included. *)
Definition parseHexAddress (raw : string) (expectedLen : option Z) : result string string :=
  let s := TrimSpace raw in
  if bool_decide (s = "") then
    match expectedLen with None => Ok "" | Some _ => Err "value is empty" end
  else if negb (hasPrefix (ToLower s) "0x") then Err "must be 0x-prefixed hex"
  else match hex_decode (drop_bytes 2 s) with
  | None => Err "must be hex"
  | Some out =>
      match expectedLen with
      | Some n => if len out =? n then Ok out else Err "wrong length"
      | None => Ok out
      end
  end.

Record ticketParamsJSON := mkticketParamsJSON {
  j_Recipient : string;
  j_FaceValue : string;
  j_WinProb : string;
  j_RecipientRandHash : string;
  j_Seed : string;
  j_ExpirationBlock : string;
  j_CreationRound : Z;
  j_CreationRoundBlockHash : string;
}.

Definition toTypes (j : ticketParamsJSON) : result string TicketParams :=
  let! recipient := parseHexAddress (j_Recipient j) (Some 20) in
  match SetString10 (j_FaceValue j) with
  | None => Err "invalid face_value"
  | Some faceValue =>
    match SetString10 (j_WinProb j) with
    | None => Err "invalid win_prob"
    | Some winProb =>
      let! randHash := parseHexAddress (j_RecipientRandHash j) (Some 32) in
      let! seed := parseHexAddress (j_Seed j) None in
      let! expirationBlock :=
        if blank (j_ExpirationBlock j) then Ok 0
        else match SetString10 (j_ExpirationBlock j) with None => Err "invalid expiration_block" | Some n => Ok n end in
      let! exp :=
        if negb (j_CreationRound j =? 0) || negb (blank (j_CreationRoundBlockHash j)) then
          let! blockHash := parseHexAddress (j_CreationRoundBlockHash j) (Some 32) in
          Ok (Some (mkExpiration (j_CreationRound j) blockHash))
        else Ok None in
      Ok (mkTicketParams "" "" "" recipient faceValue winProb randHash seed expirationBlock exp 0 false)
    end
  end.

Record TicketParamsRequest := mkTicketParamsRequest {
  tq_WholesaleAccountID : string;
  tq_TicketStreamID : string;
  tq_BaseURL : string;
  tq_Sender : string;
  tq_Recipient : string;
  tq_FaceValue : Z;
  tq_Capability : string;
  tq_Offering : string;
}.

Record ticketParamsHTTPRequest := mkHTTPRequest {
  hr_WholesaleAccountID : string;
  hr_TicketStreamID : string;
  hr_SenderETHAddress : string;
  hr_RecipientETHAddress : string;
  hr_FaceValueWei : string;
  hr_Capability : string;
  hr_Offering : string;
}.

Record ticketParamsHTTPResponse := mkHTTPResponse {
  hs_WholesaleAccountID : string;
  hs_TicketStreamID : string;
  hs_IsolationVersion : Z;
  hs_SettlementDomainID : string;
  hs_TicketParams : ticketParamsJSON;
  hs_HighestSeenNonce : Z;
  hs_HasSeenNonces : bool;
}.

(** [strings.TrimRight(s, "/")]. *)
Fixpoint strip_slashes (s : string) : string :=
  match s with String c s' => if bool_decide (c = "/"%char) then strip_slashes s' else s | "" => "" end.
Definition trim_slashes (s : string) : string := str_rev (strip_slashes (str_rev s)).

(** [post url body]: the decoded answer to a status of 200, or an error. *)
Definition Fetch (post : string -> ticketParamsHTTPRequest -> result string ticketParamsHTTPResponse)
    (req : TicketParamsRequest) : result string TicketParams :=
  let baseURL := trim_slashes (TrimSpace (tq_BaseURL req)) in
  if bool_decide (baseURL = "") then Err "ticket params fetcher base URL is empty"
  else if tq_FaceValue req <=? 0 then Err "face_value must be positive"
  else
    let! parsed := post (baseURL +:+ "/v1/payment/ticket-params")
      (mkHTTPRequest (tq_WholesaleAccountID req) (tq_TicketStreamID req) (hexAddress (tq_Sender req))
         (hexAddress (tq_Recipient req)) (dec_string (tq_FaceValue req)) (tq_Capability req) (tq_Offering req)) in
    let! out := toTypes (hs_TicketParams parsed) in
    if negb (hs_IsolationVersion parsed =? 1) ||
       negb (bool_decide (hs_WholesaleAccountID parsed = tq_WholesaleAccountID req)) ||
       negb (bool_decide (hs_TicketStreamID parsed = tq_TicketStreamID req)) ||
       bool_decide (hs_WholesaleAccountID parsed = "") || bool_decide (hs_TicketStreamID parsed = "")
    then Err "ticket parameters do not support requested account/stream isolation"
    else Ok (mkTicketParams (hs_WholesaleAccountID parsed) (hs_TicketStreamID parsed) (hs_SettlementDomainID parsed)
               (p_Recipient out) (p_FaceValue out) (p_WinProb out) (p_RecipientRandHash out) (p_Seed out)
               (p_ExpirationBlock out) (p_ExpirationParams out) (hs_HighestSeenNonce parsed) (hs_HasSeenNonces parsed)).
