(* ===== verification/Relay.v ===== *)
(** * The broker's relay of ticket parameters

    capability-broker/internal/server/payment_ticket_params.go and the client
    call of capability-broker/internal/payment/grpc.go: a payer's request for
    ticket parameters travels as JSON to the broker, as a message to the payee,
    and its answer travels back.  HTTP and the JSON text itself are left out:
    the handler works on the decoded request and the response it encodes. *)
From S2P Require Import Prelude.
From S2P Require Import GoBytes.
From S2P Require Import GoCodecs.
From S2P Require Import GoStrings.
From S2P Require Import ChainErrors.
From S2P Require Import Bolt.
From S2P Require Import Limits.
From S2P Require Import Ledger.
From S2P Require Import Fences.
From S2P Require Import Tickets.
From S2P Require Import TicketsSpec.
From S2P Require Import Receiver.
From S2P Require Import ReceiverSpec.
From S2P Require Import Types.
From Stdlib Require Import Ascii.

(** The broker's [payment.TicketParams] has the fields of the payer's
    in-process record and the isolation version. *)
Record BrokerTicketParams := mkBrokerTicketParams {
  bt_IsolationVersion : Z;
  bt_params : Types.TicketParams;
}.

(** [payment.GetTicketParamsRequest]. *)
Record BrokerRequest := mkBrokerRequest {
  bq_WholesaleAccountID : string;
  bq_TicketStreamID : string;
  bq_Sender : string;
  bq_Recipient : string;
  bq_FaceValue : Z;
  bq_Capability : string;
  bq_Offering : string;
}.

(** The broker's [parseHexAddress]: 20 bytes. *)
Definition parseAddress (raw : string) : result string string :=
  let s := TrimSpace raw in
  if negb (len s =? 42) || negb (hasPrefix (ToLower s) "0x") then Err "must be a 0x-prefixed 20-byte hex address"
  else match hex_decode (drop_bytes 2 s) with
       | None => Err "must be hex"
       | Some out => if len out =? 20 then Ok out else Err "must be 20 bytes"
       end.

Definition parseTicketParamsRequest (r : ticketParamsHTTPRequest) : result string BrokerRequest :=
  if negb (ValidWholesaleAccountID (hr_WholesaleAccountID r)) || negb (ValidWholesaleAccountID (hr_TicketStreamID r))
  then Err "valid wholesale_account_id and ticket_stream_id are required"
  else
    let! sender := parseAddress (hr_SenderETHAddress r) in
    let! recipient := parseAddress (hr_RecipientETHAddress r) in
    match SetString10 (TrimSpace (hr_FaceValueWei r)) with
    | None => Err "face_value_wei must be a decimal integer"
    | Some faceValue =>
        if faceValue <=? 0 then Err "face_value_wei must be > 0"
        else if blank (hr_Capability r) then Err "capability is required"
        else if blank (hr_Offering r) then Err "offering is required"
        else Ok (mkBrokerRequest (hr_WholesaleAccountID r) (hr_TicketStreamID r) sender recipient faceValue
                   (TrimSpace (hr_Capability r)) (TrimSpace (hr_Offering r)))
    end.

(** [decimalString]; amounts are not [nil] here. *)
Definition decimalString (n : Z) : string := dec_string n.

Definition renderTicketParamsJSON (p : Types.TicketParams) : ticketParamsJSON :=
  let '(round, hash) :=
    match p_ExpirationParams p with
    | None => (0, "")
    | Some e => (ex_CreationRound e, hexAddress (ex_CreationRoundBlockHash e))
    end in
  mkticketParamsJSON (hexAddress (p_Recipient p)) (decimalString (p_FaceValue p)) (decimalString (p_WinProb p))
    (hexAddress (p_RecipientRandHash p)) (hexAddress (p_Seed p)) (decimalString (p_ExpirationBlock p)) round hash.

(** [ticketParamsHandler], on the decoded body; an error is the body of a
    status other than 200.  [client] is the broker's payment client. *)
Definition ticketParamsHandler {S} (client : BrokerRequest -> S -> result string (option BrokerTicketParams) * S)
    (r : ticketParamsHTTPRequest) (s : S) : result string ticketParamsHTTPResponse * S :=
  match parseTicketParamsRequest r with
  | Err e => (Err e, s)
  | Ok daemonReq =>
      match client daemonReq s with
      | (Err e, s) => (Err ("get ticket params: " +:+ e), s)
      | (Ok None, s) => (Err "receiver isolation identity mismatch", s)
      | (Ok (Some b), s) =>
          let p := bt_params b in
          if negb (bool_decide (p_WholesaleAccountID p = hr_WholesaleAccountID r)) ||
             negb (bool_decide (p_TicketStreamID p = hr_TicketStreamID r)) || negb (bt_IsolationVersion b =? 1)
          then (Err "receiver isolation identity mismatch", s)
          else (Ok (mkHTTPResponse (p_WholesaleAccountID p) (p_TicketStreamID p) (bt_IsolationVersion b)
                      (p_SettlementDomainID p) (renderTicketParamsJSON p) (p_HighestSeenNonce p) (p_HasSeenNonces p)), s)
      end
  end.

Section relay.
Context `{Bolt M} `{EthCrypto}.

(** [GRPC.SettlementDomain]: [domain] is the settlement domain the client read
    at start-up, compared with what the daemon's health reports now. *)
Definition grpc_SettlementDomain (svc : Service) (domain : string) : result string string :=
  match sv_settlementDomain svc with
  | Err _ => Err "health"
  | Ok id =>
      if bool_decide (id = "") || negb (bool_decide (id = domain)) then Err "payment ledger identity changed"
      else Ok domain
  end.

(** [GRPC.GetTicketParams] against the payee's handler. *)
Definition grpc_GetTicketParams (svc : Service) (domain : string) (rand : result error string) (now : Z)
    (req : BrokerRequest) (db : DB M) : result string (option BrokerTicketParams) * DB M :=
  match grpc_SettlementDomain svc domain with
  | Err e => (Err e, db)
  | Ok _ =>
        match GetTicketParams svc rand now
                (mkGetTicketParamsRequest (bq_WholesaleAccountID req) (bq_TicketStreamID req) (bq_Sender req)
                   (bq_Recipient req) (bq_Capability req) (bq_Offering req) (big_bytes (bq_FaceValue req))) db with
        | (Err _, db) => (Err "payee", db)
        | (Ok resp, db) =>
            let tp := gtr_TicketParams resp in
            (Ok (Some (mkBrokerTicketParams 1
               (Types.mkTicketParams (bq_WholesaleAccountID req) (bq_TicketStreamID req) domain (tp_Recipient tp)
                  (be_Z (tp_FaceValue tp)) (be_Z (tp_WinProb tp)) (tp_RecipientRandHash tp) (gtr_Seed resp) 0 None
                  (gtr_HighestSeenNonce resp) (gtr_HasSeenNonces resp)))), db)
        end
  end.
End relay.

(** ** Texts survive *)
Lemma hex_value_digit d : 0 <= d < 16 -> hex_value (hex_digit d) = Some d.
Proof.
  intros Hd. assert (d = 0 \/ d = 1 \/ d = 2 \/ d = 3 \/ d = 4 \/ d = 5 \/ d = 6 \/ d = 7 \/ d = 8 \/ d = 9 \/ d = 10 \/
    d = 11 \/ d = 12 \/ d = 13 \/ d = 14 \/ d = 15) as Hc by lia.
  repeat (destruct Hc as [->|Hc]; [done|]). by rewrite Hc.
Qed.

Lemma hex_roundtrip s : hex_decode (hex_encode s) = Some s.
Proof.
  induction s as [|c s IH]; [done|]. cbn [hex_encode hex_decode]. pose proof (byte_val_range c).
  rewrite !hex_value_digit, IH by (first [apply Z.mod_pos_bound; lia|split; [apply Z.div_pos|apply Z.div_lt_upper_bound]; lia]).
  rewrite <- (Z.div_mod (byte_val c) 16) by lia. unfold byte_of, byte_val. rewrite N2Z.id, ascii_N_embedding. done.
Qed.

Lemma hex_encode_visible s : all_bytes visible (hex_encode s) = true.
Proof.
  induction s as [|c s IH]; [done|]. cbn [hex_encode all_bytes]. rewrite IH.
  assert (forall d, 0 <= d < 16 -> visible (hex_digit d) = true) as E.
  { clear. intros d Hd. assert (d = 0 \/ d = 1 \/ d = 2 \/ d = 3 \/ d = 4 \/ d = 5 \/ d = 6 \/ d = 7 \/ d = 8 \/ d = 9 \/ d = 10 \/
      d = 11 \/ d = 12 \/ d = 13 \/ d = 14 \/ d = 15) as Hc by lia.
    repeat (destruct Hc as [->|Hc]; [done|]). by rewrite Hc. }
  pose proof (byte_val_range c).
  by rewrite !E by (first [apply Z.mod_pos_bound; lia|split; [apply Z.div_pos|apply Z.div_lt_upper_bound]; lia]).
Qed.

Lemma hexAddress_visible raw : all_bytes visible (hexAddress raw) = true.
Proof. unfold hexAddress. cbn. apply hex_encode_visible. Qed.

Lemma hexAddress_prefix raw : hasPrefix (ToLower (hexAddress raw)) "0x" = true.
Proof. unfold hexAddress. cbn [String.append ToLower hasPrefix]. by destruct (ToLower (hex_encode raw)). Qed.

Lemma parseHexAddress_hexAddress raw n :
  match n with None => True | Some n => len raw = n end -> parseHexAddress (hexAddress raw) n = Ok raw.
Proof.
  intros Hn. unfold parseHexAddress. rewrite TrimSpace_visible by apply hexAddress_visible.
  rewrite bool_decide_false by done. rewrite hexAddress_prefix. cbn [negb drop_bytes hexAddress String.append].
  rewrite hex_roundtrip. destruct n as [n|]; [|done]. by rewrite Hn, Z.eqb_refl.
Qed.

Lemma len_hex_encode s : len (hex_encode s) = 2 * len s.
Proof. induction s as [|c s IH]; [done|]. cbn [hex_encode]. rewrite !len_cons, IH. lia. Qed.

Lemma parseAddress_hexAddress raw : len raw = 20 -> parseAddress (hexAddress raw) = Ok raw.
Proof.
  intros Hn. unfold parseAddress. rewrite TrimSpace_visible by apply hexAddress_visible.
  assert (len (hexAddress raw) = 42) as ->.
  { unfold hexAddress. cbn [String.append]. rewrite !len_cons, len_hex_encode. lia. }
  rewrite Z.eqb_refl, hexAddress_prefix. cbn [negb orb drop_bytes hexAddress String.append].
  by rewrite hex_roundtrip, Hn, Z.eqb_refl.
Qed.

(** ** The relay *)

(** Parameters as a payee hands them out. *)
Definition wire_params (p : Types.TicketParams) : Prop :=
  len (p_Recipient p) = 20 /\ len (p_RecipientRandHash p) = 32 /\
  (forall e, p_ExpirationParams p = Some e -> len (ex_CreationRoundBlockHash e) = 32).

(** The identity fields, which the JSON carries beside the parameters. *)
Definition without_identity (p : Types.TicketParams) : Types.TicketParams :=
  Types.mkTicketParams "" "" "" (p_Recipient p) (p_FaceValue p) (p_WinProb p) (p_RecipientRandHash p) (p_Seed p)
    (p_ExpirationBlock p) (p_ExpirationParams p) 0 false.

Lemma dec_string_visible n : all_bytes visible (dec_string n) = true.
Proof.
  unfold dec_string. assert (forall n, 0 <= n -> all_bytes visible (dec_nonneg n) = true) as E.
  { clear. intros n Hn. pose proof (Limits.dec_string_digits n Hn) as H. unfold dec_string in H.
    rewrite (proj2 (Z.ltb_ge n 0)) in H by lia. by apply Limits.unit_name_visible. }
  destruct (Z.ltb_spec n 0); [rewrite all_bytes_app, (E (- n)) by lia; done|by apply E].
Qed.

Lemma not_blank s : all_bytes visible s = true -> s <> "" -> blank s = false.
Proof. intros Hs Hne. unfold blank. rewrite TrimSpace_visible by done. by rewrite bool_decide_false. Qed.

Lemma toTypes_render p : wire_params p -> toTypes (renderTicketParamsJSON p) = Ok (without_identity p).
Proof.
  intros (Hr & Hh & He). unfold renderTicketParamsJSON, toTypes, decimalString.
  destruct (p_ExpirationParams p) as [e|] eqn:Ee; cbn [j_Recipient j_FaceValue j_WinProb j_RecipientRandHash j_Seed
    j_ExpirationBlock j_CreationRound j_CreationRoundBlockHash].
  all: rewrite (parseHexAddress_hexAddress _ (Some 20)), !SetString10_dec, (parseHexAddress_hexAddress _ (Some 32)) by done.
  all: rewrite (parseHexAddress_hexAddress _ None) by done.
  all: rewrite not_blank by (apply dec_string_visible || apply Limits.dec_string_nonempty).
  - rewrite not_blank by (apply hexAddress_visible || done). rewrite orb_true_r.
    rewrite (parseHexAddress_hexAddress _ (Some 32)) by by apply He. unfold without_identity. rewrite Ee. by destruct e.
  - unfold without_identity. rewrite Ee. done.
Qed.

(** A request a broker accepts. *)
Definition relayable (req : TicketParamsRequest) : Prop :=
  trim_slashes (TrimSpace (tq_BaseURL req)) <> "" /\ 0 < tq_FaceValue req /\ len (tq_Sender req) = 20 /\
  len (tq_Recipient req) = 20 /\ ValidWholesaleAccountID (tq_WholesaleAccountID req) = true /\
  ValidWholesaleAccountID (tq_TicketStreamID req) = true /\
  TrimSpace (tq_Capability req) = tq_Capability req /\ tq_Capability req <> "" /\
  TrimSpace (tq_Offering req) = tq_Offering req /\ tq_Offering req <> "".

Definition broker_request (req : TicketParamsRequest) : BrokerRequest :=
  mkBrokerRequest (tq_WholesaleAccountID req) (tq_TicketStreamID req) (tq_Sender req) (tq_Recipient req)
    (tq_FaceValue req) (tq_Capability req) (tq_Offering req).

(** A quote survives the relay: a payer that fetches ticket parameters through
    the broker asks the payee exactly its own question (addresses, amount and
    route survive their JSON form) and receives exactly the parameters the
    payee answered with, provided they name the account and stream asked for. *)
Theorem quote_relay_roundtrip {S} (client : BrokerRequest -> S -> result string (option BrokerTicketParams) * S)
    (req : TicketParamsRequest) (s s' : S) (p : Types.TicketParams) :
  relayable req -> wire_params p ->
  p_WholesaleAccountID p = tq_WholesaleAccountID req -> p_TicketStreamID p = tq_TicketStreamID req ->
  client (broker_request req) s = (Ok (Some (mkBrokerTicketParams 1 p)), s') ->
  Fetch (fun _ body => (ticketParamsHandler client body s).1) req = Ok p.
Proof.
  intros (Hurl & Hface & Hs & Hr & Ha & Ht & Hcap & Hcap' & Hoff & Hoff') Hp Hacc Hstr Hc.
  unfold Fetch. rewrite bool_decide_false by done. rewrite (proj2 (Z.leb_gt _ _)) by lia.
  unfold ticketParamsHandler, parseTicketParamsRequest.
  cbn [hr_WholesaleAccountID hr_TicketStreamID hr_SenderETHAddress hr_RecipientETHAddress hr_FaceValueWei hr_Capability hr_Offering].
  rewrite Ha, Ht. cbn [negb orb]. rewrite !parseAddress_hexAddress by done.
  rewrite (TrimSpace_visible (dec_string _)) by apply dec_string_visible. rewrite SetString10_dec.
  rewrite (proj2 (Z.leb_gt _ _)) by lia. unfold blank. rewrite Hcap, Hoff, !bool_decide_false by done.
  fold (broker_request req). rewrite Hc. cbn [bt_params bt_IsolationVersion]. rewrite Hacc, Hstr.
  rewrite !bool_decide_true by done. cbn [negb orb Z.eqb Pos.eqb fst].
  cbn [hs_TicketParams hs_IsolationVersion hs_WholesaleAccountID hs_TicketStreamID hs_SettlementDomainID
    hs_HighestSeenNonce hs_HasSeenNonces]. rewrite (toTypes_render p Hp).
  rewrite !bool_decide_true by done.
  assert (forall a, ValidWholesaleAccountID a = true -> a <> "") as Hne by (intros a Hv ->; discriminate Hv).
  rewrite !bool_decide_false by (by apply Hne). cbn. rewrite <- Hacc, <- Hstr. by destruct p.
Qed.

Definition relay_request : TicketParamsRequest :=
  mkTicketParamsRequest "acct" "stream" "https://broker/" demo_sender demo_payee 12345 "cap" "off".
Definition relay_quote : Types.TicketParams :=
  Types.mkTicketParams "acct" "stream" "dom" demo_payee 1000000 (Z.quot MaxWinProb 81) (be_bytes 32 5) "seed" 0 None 7 true.

Lemma quote_relay_roundtrip_witness :
  Fetch (fun _ body => (ticketParamsHandler
    (fun (req : BrokerRequest) (asked : list BrokerRequest) => (Ok (Some (mkBrokerTicketParams 1 relay_quote)), req :: asked))
    body []).1) relay_request = Ok relay_quote.
Proof.
  refine (quote_relay_roundtrip (fun (req : BrokerRequest) (asked : list BrokerRequest) =>
    (Ok (Some (mkBrokerTicketParams 1 relay_quote)), req :: asked)) relay_request [] _ relay_quote _ _ eq_refl eq_refl eq_refl).
  - unfold relayable. split_and!; try done; vm_refl.
  - unfold wire_params. split_and!; try done; vm_refl.
Defined.
