(* ===== verification/Spendauth.v ===== *)
(** * Payer-signed spend authorizations

    payment-daemon/internal/spendauth: the digest a payer signs and the
    verification of the signature.  The protobuf encodings and the RFC 3339
    conversions the daemon calls are the operations of [AuthWire].  A [BigUInt]
    message stands for its bytes, and [None] for an absent one where the code
    tells the two apart. *)
From S2P Require Import Prelude.
From S2P Require Import GoBytes.
From S2P Require Import Tickets.

Record QuoteRef := mkQuoteRef {
  qr_QuoteId : string;
  qr_QuoteVersion : Z;
  qr_ConstraintFingerprint : string;
  qr_RouteFingerprint : string;
}.

(** The quote basis a payer accepted. *)
Record AcceptedPrice := mkAcceptedPrice {
  ap_PricePerUnitWei : option string;
  ap_UnitsPerPrice : Z;
  ap_WorkUnitName : string;
  ap_Capability : string;
  ap_Offering : string;
  ap_QuoteRef : option QuoteRef;
}.

(** [GetPricePerUnitWei().GetValue()] as a number. *)
Definition price_wei (p : AcceptedPrice) : Z := be_Z (default "" (ap_PricePerUnitWei p)).

Record SpendAuthorizationPayload := mkPayload {
  py_Domain : string;
  py_Payer : string;
  py_Payee : string;
  py_AuthorizationId : string;
  py_RequestId : string;
  py_SessionId : string;
  py_Protocol : string;
  py_Capability : string;
  py_Offering : string;
  py_AcceptedPrice : option AcceptedPrice;
  py_MaxDebitWei : string;
  py_MaxTotalUnits : Z;
  py_NotBefore : string;
  py_ExpiresAt : string;
  py_RequestDigest : string;
  py_CallerPublicKey : string;
  py_Revision : Z;
  py_PredecessorAuthorizationId : string;
  py_BrokerUri : string;
  py_ChainId : Z;
  py_Denomination : string;
  py_SettlementDomainId : string;
  py_WholesaleAccountId : string;
}.

Record SpendAuthorization := mkSpendAuthorization {
  sa_Payload : option SpendAuthorizationPayload;
  sa_Signature : string;
}.

(** What the code calls of the protobuf and time packages. *)
Class AuthWire := {
  (** [proto.Unmarshal] into a [SpendAuthorization]. *)
  unmarshal_auth : string -> option SpendAuthorization;
  (** What the message holds after [proto.Unmarshal], when it fails too. *)
  unmarshal_partial : string -> SpendAuthorization;
  (** Deterministic [proto.Marshal] of a payload. *)
  marshal_payload : SpendAuthorizationPayload -> option string;
  (** [proto.Marshal] of a whole authorization. *)
  marshal_auth : SpendAuthorization -> option string;
  (** [time.Parse(time.RFC3339Nano, _)] and [Time.Format], in nanoseconds. *)
  parse_time : string -> option Z;
  format_time : Z -> string;
}.

Definition Domain : string := "livepeer-spend-authorization/v3".

Inductive spendauth_error :=
  | ErrMalformedSignature
  | ErrSignatureMismatch
  | ErrPayload (msg : string).

#[export] Instance spendauth_error_eq_dec : EqDecision spendauth_error.
Proof. solve_decision. Defined.

Section spendauth.
Context `{EthCrypto} `{AuthWire}.

Definition Digest (payload : option SpendAuthorizationPayload) : result spendauth_error string :=
  match payload with
  | None => Err (ErrPayload "spend authorization payload is nil")
  | Some p =>
      if negb (bool_decide (py_Domain p = Domain)) then Err (ErrPayload "domain is unsupported")
      else match marshal_payload p with
           | None => Err (ErrPayload "marshal spend authorization payload")
           | Some b => Ok (Keccak256 b)
           end
  end.

Definition Verify (auth : option SpendAuthorization) : result spendauth_error unit :=
  match auth with
  | None => Err (ErrPayload "spend authorization payload is required")
  | Some a =>
    match sa_Payload a with
    | None => Err (ErrPayload "spend authorization payload is required")
    | Some p =>
      if negb (len (py_Payer p) =? 20) then Err (ErrPayload "spend authorization payer must be 20 bytes")
      else
        let sig := sa_Signature a in
        if negb (len sig =? 65) || (negb (sig_v sig =? 27) && negb (sig_v sig =? 28)) then Err ErrMalformedSignature
        else
          let! digest := Digest (Some p) in
          let normalized := take_bytes 64 sig +:+ String (byte_of (sig_v sig - 27)) "" in
          match SigToAddress (TextHash digest) normalized with
          | None => Err ErrSignatureMismatch
          | Some signer => if bool_decide (signer = py_Payer p) then Ok tt else Err ErrSignatureMismatch
          end
    end
  end.

(** A verified authorization names a 20-byte payer whose key signed exactly
    this payload's encoding under the current domain tag. *)
Lemma Verify_signed auth :
  Verify (Some auth) = Ok tt ->
  exists p b, sa_Payload auth = Some p /\ py_Domain p = Domain /\ len (py_Payer p) = 20 /\
    marshal_payload p = Some b /\
    SigToAddress (TextHash (Keccak256 b))
      (take_bytes 64 (sa_Signature auth) +:+ String (byte_of (sig_v (sa_Signature auth) - 27)) "") = Some (py_Payer p).
Proof.
  unfold Verify. destruct (sa_Payload auth) as [p|]; [|discriminate].
  destruct (negb (len (py_Payer p) =? 20)) eqn:Hl; [discriminate|].
  destruct (_ || _); [discriminate|]. unfold Digest.
  destruct (negb (bool_decide (py_Domain p = Domain))) eqn:Hd; [discriminate|].
  destruct (marshal_payload p) as [b|] eqn:Hb; [|discriminate].
  destruct (SigToAddress _ _) as [signer|] eqn:Hs; [|discriminate].
  destruct (bool_decide (signer = py_Payer p)) eqn:He; [|discriminate]. intros _.
  to_prop. rewrite He in Hs. exists p, b. split_and!; try reflexivity; assumption.
Qed.

End spendauth.
