(* ===== verification/TxProcessor.v ===== *)
(** * Driving an intent to its end

    chain-commons/services/txintent/processor.go: signing, broadcasting,
    waiting for confirmation and replacing a stuck transaction.

    The state [PState] is the manager, the next nonce this process may assign,
    the number of outside calls made so far and the trace of broadcasts.  The
    node, the gas oracle, the receipts provider and the clock answer through a
    [World], indexed by that number.  One intent is processed at a time:
    [nonceMu] serialises the section in which two could interfere. *)
From S2P Require Import Prelude.
From S2P Require Import GoBytes.
From S2P Require Import Bolt.
From S2P Require Import ChainErrors.
From S2P Require Import Actions.
From S2P Require Import TxIntent.

(** The fields of a [DynamicFeeTx]. *)
Record Tx := mkTx {
  tx_ChainID : Z;
  tx_Nonce : Z;
  tx_GasTipCap : Z;
  tx_GasFeeCap : Z;
  tx_Gas : Z;
  tx_To : string;
  tx_Value : Z;
  tx_Data : string;
}.

Record Receipt := mkReceipt {
  rc_Reorged : bool;
  rc_Status : Z;
  rc_Confirmed : bool;
}.

(** How [WaitConfirmed] ends under the submit timeout: the caller's context
    is done, any other error or the timeout, or an answer. *)
Inductive wait_answer :=
  | AnswerCanceled
  | AnswerError
  | AnswerReceipt (r : option Receipt).

Record World := mkWorld {
  w_now : nat -> Z;
  w_PendingNonceAt : nat -> result goerr Z;
  w_Suggest : nat -> result goerr (Z * Z);
  w_SendTransaction : nat -> Tx -> result goerr unit;
  w_WaitConfirmed : nat -> string -> wait_answer;
}.

Record ProcessorConfig := mkProcessorConfig {
  cf_MaxReplacements : nat;
  cf_ReplacementGasBump : Z;
  cf_ChainID : Z;
  cf_GasLimit : Z;
}.

(** The keystore: the hash of the signed transaction. *)
Class TxSigner := { SignTx : Tx -> result goerr string }.

Record PState (M : Type -> Type) := mkPState {
  ps_mgr : Manager M;
  ps_nonceFloor : Z;
  ps_calls : nat;
  (** The transactions handed to the node, and the class of its refusal. *)
  ps_sent : list (Tx * option ErrorClass);
}.
Arguments mkPState {M}.
Arguments ps_mgr {M}.
Arguments ps_nonceFloor {M}.
Arguments ps_calls {M}.
Arguments ps_sent {M}.

Inductive waitOutcome := waitConfirmed | waitReverted | waitReorged | waitTimeout.

Definition maxNonceRetries : nat := 3.

Definition unknownWei (b : option Z) : bool := match b with None => true | Some n => n =? 0 end.
Definition copyBig (b : option Z) : Z := default 0 b.

(** The bumped cap of a replacement, a percentage rounded down. *)
Definition bumped (cap bump : Z) : Z := Z.quot (cap * (100 + bump)) 100.

Section processor.
Context `{Bolt M} `{TxSigner} (cfg : ProcessorConfig) (w : World).

Open Scope act_scope.

Abbreviation pact := (st (PState M) goerr).

(** ** The outside *)
Definition tick : pact nat :=
  fun s => (Ok (ps_calls s), mkPState (ps_mgr s) (ps_nonceFloor s) (S (ps_calls s)) (ps_sent s)).
Definition manage {A} (op : Z -> Manager M -> result goerr A * Manager M) : pact A :=
  fun s => let '(r, m) := op (w_now w (ps_calls s)) (ps_mgr s) in
           (r, mkPState m (ps_nonceFloor s) (ps_calls s) (ps_sent s)).
Definition wrap_err (class : ErrorClass) (code msg : string) (e : goerr) : goerr := GChainWrap class code msg e.

(** [SendTransaction]; an error is classified. *)
Definition send (tx : Tx) : pact unit :=
  do! n <- tick;
  fun s => match w_SendTransaction w n tx with
           | Ok _ => (Ok tt, mkPState (ps_mgr s) (ps_nonceFloor s) (ps_calls s) (ps_sent s ++ [(tx, None)]))
           | Err e => (Err (CError_error (Classify e)),
                       mkPState (ps_mgr s) (ps_nonceFloor s) (ps_calls s) (ps_sent s ++ [(tx, Some (ce_Class (Classify e)))]))
           end.

(** The transaction and the hash of its signed form. *)
Definition signTx (intent : TxIntent) (nonce : Z) (feeCap tipCap : option Z) : result goerr (Tx * string) :=
  let gasLimit := if ti_GasLimit intent =? 0 then cf_GasLimit cfg else ti_GasLimit intent in
  let tx := mkTx (cf_ChainID cfg) nonce (copyBig tipCap) (copyBig feeCap) gasLimit (ti_To intent)
              (copyBig (ti_Value intent)) (ti_CallData intent) in
  match SignTx tx with
  | Err e => Err (wrap_err ClassPermanent "tx.sign_failed" "failed to sign transaction" e)
  | Ok hash => Ok (tx, hash)
  end.

Definition new_attempt (nonce : Z) (feeCap tipCap : option Z) (hash : string) (now : Z) : IntentAttempt :=
  mkAttempt nonce (Some (copyBig feeCap)) (Some (copyBig tipCap)) hash now None None None None.

(** ** First broadcast *)

(** One round of the retry loop: [Some] is a nonce the node calls stale. *)
Definition broadcast_once (intent : TxIntent) : pact (option goerr) :=
  do! n <- tick;
  do! pending <- lift (wrap_err ClassTransient "rpc.pending_nonce_failed" "failed to fetch pending nonce") (w_PendingNonceAt w n);
  do! s <- get;
  let nonce := if pending <? ps_nonceFloor s then ps_nonceFloor s else pending in
  do! n <- tick;
  do! est <- lift (wrap_err ClassTransient "rpc.gas_suggest_failed" "failed to suggest gas") (w_Suggest w n);
  do! signed <- lift (fun e => e) (signTx intent nonce (Some est.1) (Some est.2));
  run! map_err (wrap_err ClassPermanent "txintent.append_signed_failed" "failed to persist signed attempt")
    (manage (fun now => AppendAttempt now (ti_ID intent) (new_attempt nonce (Some est.1) (Some est.2) signed.2 now) StatusSigned));
  do! sent <- observe (send signed.1);
  match sent with
  | Err e => if bool_decide (ce_Class (Classify e) = ClassNoncePast) then ret (Some e) else fail e
  | Ok _ =>
      run! update (fun s => mkPState (ps_mgr s) (u64 (nonce + 1)) (ps_calls s) (ps_sent s));
      run! map_err (wrap_err ClassPermanent "txintent.set_submitted_failed" "failed to persist submitted status")
        (manage (fun now => SetStatus now (ti_ID intent) StatusSubmitted));
      ret None
  end.

Fixpoint broadcast_loop (intent : TxIntent) (retries : nat) : pact unit :=
  do! stale <- broadcast_once intent;
  match stale, retries with
  | None, _ => ret tt
  | Some _, S retries' => broadcast_loop intent retries'
  | Some e, O => fail e
  end.

Definition signAndBroadcast (intent : TxIntent) : pact unit := broadcast_loop intent maxNonceRetries.

(** ** Later broadcasts *)
Definition rebroadcast (intent : TxIntent) : pact unit :=
  match CurrentAttempt intent with
  | None => signAndBroadcast intent
  | Some cur =>
      do! signed <- lift (fun e => e) (signTx intent (at_Nonce cur) (at_GasFeeCap cur) (at_GasTipCap cur));
      do! sent <- observe (send signed.1);
      match sent with
      | Err e => if bool_decide (ce_Class (Classify e) = ClassNoncePast)
                 then manage (fun now => SetStatus now (ti_ID intent) StatusSubmitted) else fail e
      | Ok _ => manage (fun now => SetStatus now (ti_ID intent) StatusSubmitted)
      end
  end.

(** Sign at the nonce of an attempt, record, send. *)
Definition send_successor (intent : TxIntent) (prev : IntentAttempt) (feeCap tipCap : option Z) : pact unit :=
  do! signed <- lift (fun e => e) (signTx intent (at_Nonce prev) feeCap tipCap);
  run! manage (fun now => AppendAttempt now (ti_ID intent) (new_attempt (at_Nonce prev) feeCap tipCap signed.2 now) StatusSubmitted);
  send signed.1.

Definition rebroadcastFromAttempt (intent : TxIntent) (prev : IntentAttempt) : pact unit :=
  send_successor intent prev (at_GasFeeCap prev) (at_GasTipCap prev).

(** The caps to bump: the recorded ones, or the oracle's where none are known. *)
Definition base_caps (prev : IntentAttempt) : pact (Z * Z) :=
  if unknownWei (at_GasFeeCap prev) || unknownWei (at_GasTipCap prev) then
    do! n <- tick;
    do! est <- lift (wrap_err ClassTransient "rpc.gas_suggest_failed" "failed to suggest gas for replacement") (w_Suggest w n);
    ret (if unknownWei (at_GasFeeCap prev) then est.1 else copyBig (at_GasFeeCap prev),
         if unknownWei (at_GasTipCap prev) then est.2 else copyBig (at_GasTipCap prev))
  else ret (copyBig (at_GasFeeCap prev), copyBig (at_GasTipCap prev)).

Definition replace (intent : TxIntent) (prev : IntentAttempt) : pact unit :=
  do! base <- base_caps prev;
  let bump := cf_ReplacementGasBump cfg in
  send_successor intent prev (Some (bumped base.1 bump)) (Some (bumped base.2 bump)).

(** ** The loop *)

(** Whether the intent failed for good. *)
Definition handleSubmitErr (intent : TxIntent) (err : goerr) : pact bool :=
  let classified := Classify err in
  if IsPermanent err then
    run! observe (manage (fun now => MarkFailed now (ti_ID intent) classified));
    ret true
  else ret false.

(** [None] when the caller's context is done. *)
Definition judge (answer : wait_answer) : option waitOutcome :=
  match answer with
  | AnswerCanceled => None
  | AnswerError | AnswerReceipt None => Some waitTimeout
  | AnswerReceipt (Some r) =>
      if rc_Reorged r then Some waitReorged
      else if rc_Status r =? 0 then Some waitReverted
      else if rc_Confirmed r then Some waitConfirmed
      else Some waitTimeout
  end.
Definition waitWithTimeout (hash : string) : pact (option waitOutcome) :=
  do! n <- tick;
  ret (judge (w_WaitConfirmed w n hash)).

(** The first half of an iteration: bring the intent into flight. [true]
    when the iteration goes on to wait. *)
Inductive step := Stop | Again | Onward.

Definition submitted_or (intent : TxIntent) (m : pact unit) : pact step :=
  do! r <- observe m;
  match r with
  | Ok _ => ret Onward
  | Err e => do! failed <- handleSubmitErr intent e; ret (if failed : bool then Stop else Again)
  end.

Definition enter (intent : TxIntent) : pact step :=
  match ti_Status intent with
  | StatusPending => submitted_or intent (signAndBroadcast intent)
  | StatusSigned => submitted_or intent (rebroadcast intent)
  | _ => ret Onward
  end.

Definition retry_after (intent : TxIntent) (m : pact unit) : pact step :=
  do! r <- observe m;
  match r with
  | Ok _ => ret Again
  | Err e => do! failed <- handleSubmitErr intent e; ret (if failed : bool then Stop else Again)
  end.

(** The reasons of an intent whose transaction failed, or never came. *)
Definition reverted_reason (hash : string) : CError :=
  mkCError ClassReverted "tx.reverted" ("transaction " +:+ ("0x" +:+ (hex_encode hash +:+ " reverted on-chain"))) None.
Definition exhausted_reason (id : string) : CError :=
  mkCError ClassTransient "tx.replacement_exhausted"
    ("intent " +:+ (hex_encode id +:+ (" exhausted " +:+ (dec_string (Z.of_nat (cf_MaxReplacements cfg)) +:+ " replacements without confirmation")))) None.

(** The second half: wait, and act on the outcome. [last] is the iteration
    after which no replacement is left. *)
Definition await (last : bool) (id : string) : pact step :=
  do! s <- get;
  match Status id (ps_mgr s) with
  | None => ret Stop
  | Some intent =>
      match CurrentAttempt intent with
      | None => ret Stop
      | Some cur =>
          do! outcome <- waitWithTimeout (at_SignedTxHash cur);
          match outcome with
          | None => ret Stop
          | Some waitConfirmed => run! observe (manage (fun now => MarkConfirmed now id)); ret Stop
          | Some waitReverted =>
              run! observe (manage (fun now => MarkFailed now id (reverted_reason (at_SignedTxHash cur)))); ret Stop
          | Some waitReorged => retry_after intent (rebroadcastFromAttempt intent cur)
          | Some waitTimeout =>
              if last then
                run! observe (manage (fun now => MarkFailed now id (exhausted_reason id))); ret Stop
              else retry_after intent (replace intent cur)
          end
      end
  end.

Definition iteration (last : bool) (id : string) : pact step :=
  do! s <- get;
  match Status id (ps_mgr s) with
  | None => ret Stop
  | Some intent =>
      if IsTerminal (ti_Status intent) then ret Stop
      else
        do! entered <- enter intent;
        match entered with Onward => await last id | other => ret other end
  end.

(** [n] iterations are left. *)
Fixpoint process_loop (n : nat) (id : string) : pact unit :=
  match n with
  | O => ret tt
  | S n' =>
      do! next <- iteration (bool_decide (n' = O)) id;
      match next with Stop => ret tt | _ => process_loop n' id end
  end.

Definition Process (id : string) : pact unit := process_loop (S (cf_MaxReplacements cfg)) id.

End processor.
