(* ===== verification/TxIntentSpec.v ===== *)
(** * What the intent store guarantees

    Stored intents survive their encoding, listings are sorted, every operation
    keeps the stored intents well formed and settled intents final; and a
    waiter that registers too late is never woken. *)
From S2P Require Import Prelude.
From S2P Require Import GoBytes.
From S2P Require Import GoCodecs.
From S2P Require Import Bolt.
From S2P Require Import ChainErrors.
From S2P Require Import TicketsSpec.
From S2P Require Import ReceiverSpec.
From S2P Require Import TxIntent.

(** ** The stored form *)
Lemma copy32_len b : String.length (copy32 b) = 32%nat.
Proof.
  unfold copy32. apply len_take. pose proof (len_app b (replicate_byte (32 - String.length b) zero_byte)) as Ha.
  rewrite len_replicate in Ha. unfold len in Ha. lia.
Qed.
Lemma copy32_id b : String.length b = 32%nat -> copy32 b = b.
Proof.
  intros Hb. unfold copy32. rewrite Hb, <- Hb at 1. apply take_app_exact.
Qed.
Lemma copy32_idem b : copy32 (copy32 b) = copy32 b.
Proof. apply copy32_id, copy32_len. Qed.
Lemma bytesValue_idem b : bytesValue (valueBytes (bytesValue b)) = bytesValue b.
Proof. unfold bytesValue, valueBytes. rewrite be_Z_big_bytes, Z.abs_eq; [done|apply be_Z_nonneg]. Qed.
Lemma time_of_idem t : time_of (time_or_zero (time_of t)) = time_of t.
Proof. unfold time_of, time_or_zero. destruct (Z.eqb_spec t 0) as [->|Ht]; [done|]. simpl. by rewrite (proj2 (Z.eqb_neq _ _) Ht). Qed.

#[local] Arguments bytesValue : simpl never.
#[local] Arguments valueBytes : simpl never.
#[local] Arguments time_of : simpl never.
#[local] Arguments time_or_zero : simpl never.
#[local] Arguments copy32 : simpl never.

Lemma decodeAttempt_idem e : decodeAttempt (encodeAttempt (decodeAttempt e)) = decodeAttempt e.
Proof.
  destruct e as [n f t h b mb mh rs ra]. unfold decodeAttempt, encodeAttempt. simpl.
  rewrite !bytesValue_idem, copy32_idem, time_of_idem. f_equal. destruct mh; simpl; [by rewrite copy32_idem|done].
Qed.
Lemma decodeIntent_idem e : decodeIntent (encodeIntent (decodeIntent e)) = decodeIntent e.
Proof.
  destruct e as [id k kp to cd v g md st at_ ca lu co fa code msg]. unfold decodeIntent, encodeIntent. simpl.
  rewrite bytesValue_idem, time_of_idem. f_equal; [|by destruct fa]. rewrite <- !list_fmap_compose.
  apply list_fmap_ext. intros i a _. apply decodeAttempt_idem.
Qed.

(** What an intent becomes by being stored. *)
Abbreviation stored t := (decodeIntent (encodeIntent t)) (only parsing).

Definition storable_attempt (a : IntentAttempt) : Prop :=
  (forall n, at_GasFeeCap a = Some n -> 0 <= n) /\ (forall n, at_GasTipCap a = Some n -> 0 <= n) /\
  String.length (at_SignedTxHash a) = 32%nat /\ (forall h, at_MinedBlockHash a = Some h -> String.length h = 32%nat) /\
  at_ReplacedAt a <> Some 0.
Definition storable (t : TxIntent) : Prop :=
  (forall n, ti_Value t = Some n -> 0 <= n) /\ Forall storable_attempt (ti_Attempts t) /\ ti_ConfirmedAt t <> Some 0.

(** An error without its cause. *)
Definition uncaused (e : CError) : CError := mkCError (ce_Class e) (ce_Code e) (ce_Msg e) None.

(** Amounts that were [nil] read as zero, and an error loses its cause. *)
Definition filled_attempt (a : IntentAttempt) : IntentAttempt :=
  mkAttempt (at_Nonce a) (Some (default 0 (at_GasFeeCap a))) (Some (default 0 (at_GasTipCap a))) (at_SignedTxHash a)
    (at_BroadcastedAt a) (at_MinedBlock a) (at_MinedBlockHash a) (at_ReceiptStatus a) (at_ReplacedAt a).
Definition filled (t : TxIntent) : TxIntent :=
  mkTxIntent (ti_ID t) (ti_Kind t) (ti_KeyParams t) (ti_To t) (ti_CallData t) (Some (default 0 (ti_Value t))) (ti_GasLimit t)
    (ti_Metadata t) (ti_Status t) (filled_attempt <$> ti_Attempts t) (ti_CreatedAt t) (ti_LastUpdatedAt t)
    (ti_ConfirmedAt t) (uncaused <$> ti_FailedReason t).

Lemma amount_roundtrip v : (forall n, v = Some n -> 0 <= n) -> bytesValue (valueBytes v) = Some (default 0 v).
Proof.
  intros Hv. unfold bytesValue, valueBytes. destruct v as [n|]; [|done]. simpl. specialize (Hv n eq_refl).
  by rewrite be_Z_big_bytes, Z.abs_eq.
Qed.
Lemma time_roundtrip t : t <> Some 0 -> time_of (time_or_zero t) = t.
Proof.
  unfold time_of, time_or_zero. destruct t as [t|]; [|done]. simpl. intros Ht.
  destruct (Z.eqb_spec t 0) as [->|]; [by destruct Ht|done].
Qed.
Lemma attempt_roundtrip a : storable_attempt a -> decodeAttempt (encodeAttempt a) = filled_attempt a.
Proof.
  intros (Hf & Ht & Hh & Hm & Hr). unfold decodeAttempt, encodeAttempt, filled_attempt. simpl.
  rewrite !amount_roundtrip, copy32_id, time_roundtrip by done. f_equal.
  destruct (at_MinedBlockHash a) as [h|]; simpl; [by rewrite copy32_id by by apply Hm|done].
Qed.

Lemma filled_same t :
  is_Some (ti_Value t) -> Forall (fun a => is_Some (at_GasFeeCap a) /\ is_Some (at_GasTipCap a)) (ti_Attempts t) ->
  (forall e, ti_FailedReason t = Some e -> ce_Cause e = None) -> filled t = t.
Proof.
  destruct t as [id k kp to cd [v|] g md st at_ ca lu co fa]; unfold filled; simpl; [intros _ Hcaps Hcause|by intros []]. f_equal.
  - induction Hcaps as [|a l [[f Hf] [tip Ht]] _ IH]; [done|]. cbn [fmap list_fmap]. rewrite IH. f_equal. destruct a. simpl in *. by subst.
  - destruct fa as [[class code msg cause]|]; [|done]. specialize (Hcause _ eq_refl). simpl in Hcause. by subst.
Qed.


(** ** Listing *)
Definition by_created (a b : TxIntent) : Prop := ti_CreatedAt a <= ti_CreatedAt b.

Lemma sink_perm x l : sink x l ≡ₚ x :: l.
Proof. induction l as [|y l IH]; simpl; [done|]. destruct (_ <? _); [|done]. rewrite IH. constructor. Qed.
Lemma sink_sorted x l : Sorted (flip by_created) l -> Sorted (flip by_created) (sink x l).
Proof.
  induction l as [|y l IH]; simpl; intros Hs; [by repeat constructor|].
  destruct (Z.ltb_spec (ti_CreatedAt x) (ti_CreatedAt y)) as [Hlt|Hle].
  - inversion_clear Hs as [|? ? Hs' Hd]. constructor; [by apply IH|].
    destruct l as [|z l]; simpl; [constructor; unfold flip, by_created; lia|].
    inversion_clear Hd. destruct (_ <? _); constructor; [done|unfold flip, by_created; lia].
  - constructor; [done|]. constructor. unfold flip, by_created. lia.
Qed.
Lemma foldl_sink l acc : Sorted (flip by_created) acc ->
  Sorted (flip by_created) (foldl (fun acc x => sink x acc) acc l) /\ foldl (fun acc x => sink x acc) acc l ≡ₚ l ++ acc.
Proof.
  revert acc. induction l as [|x l IH]; intros acc Hs; simpl; [done|].
  destruct (IH (sink x acc) (sink_sorted x acc Hs)) as [Hs' Hp]. split; [done|]. rewrite Hp, sink_perm.
  by rewrite Permutation_middle.
Qed.

Lemma rev_sorted l : StronglySorted (flip by_created) l -> StronglySorted by_created (rev l).
Proof.
  induction 1 as [|a l Hs IH Ha]; simpl; [constructor|]. apply StronglySorted_app_2; [|done|by repeat constructor].
  intros x y Hx Hy. apply list_elem_of_singleton in Hy as ->. rewrite list_elem_of_In, <- in_rev, <- list_elem_of_In in Hx.
  rewrite Forall_forall in Ha. by apply Ha.
Qed.

(** [sortByCreatedAt] sorts: the same intents, oldest first. *)
Lemma sortByCreatedAt_spec l : StronglySorted by_created (sortByCreatedAt l) /\ sortByCreatedAt l ≡ₚ l.
Proof.
  unfold sortByCreatedAt. destruct (foldl_sink l []) as [Hs Hp]; [constructor|]. rewrite app_nil_r in Hp. split.
  - apply rev_sorted, Sorted_StronglySorted; [intros a b c; unfold flip, by_created; lia|done].
  - by rewrite <- Hp at 2; rewrite <- Permutation_rev.
Qed.

(** ** The attempts of an intent *)
Abbreviation reread a := (decodeAttempt (encodeAttempt a)) (only parsing).

(** An attempt is superseded exactly when the next one has its nonce; the last
    one is not. *)
Fixpoint chained (l : list IntentAttempt) : Prop :=
  match l with
  | [] => True
  | a :: l' => match l' with
               | [] => at_ReplacedAt a = None
               | b :: _ => is_Some (at_ReplacedAt a) <-> at_Nonce a = at_Nonce b
               end /\ chained l'
  end.
(** What was signed: the nonce and the transaction hash. *)
Definition trail (l : list IntentAttempt) : list (Z * string) := (fun a => (at_Nonce a, at_SignedTxHash a)) <$> l.

Lemma chained_extend l b b' a :
  chained (l ++ [b]) -> at_Nonce b' = at_Nonce b -> (is_Some (at_ReplacedAt b') <-> at_Nonce b' = at_Nonce a) ->
  at_ReplacedAt a = None -> chained (l ++ [b'; a]).
Proof.
  intros Hl Hn Hb Ha. induction l as [|c l IH]; [by repeat split; try apply Hb|]. destruct Hl as [Hc Hl].
  split; [|by apply IH]. destruct l as [|d l]; simpl in *; [by rewrite Hn|done].
Qed.
Lemma chained_last l b : chained (l ++ [b]) -> at_ReplacedAt b = None.
Proof. induction l as [|c l IH]; [by intros [? _]|]. intros [_ Hl]. by apply IH. Qed.

Definition mark (now nonce : Z) (b : IntentAttempt) : IntentAttempt :=
  if at_Nonce b =? nonce
  then mkAttempt (at_Nonce b) (at_GasFeeCap b) (at_GasTipCap b) (at_SignedTxHash b) (at_BroadcastedAt b)
         (at_MinedBlock b) (at_MinedBlockHash b) (at_ReceiptStatus b) (Some now)
  else b.
Lemma append_attempt_last now a l b :
  at_ReplacedAt b = None -> append_attempt now a (l ++ [b]) = l ++ [mark now (at_Nonce a) b; a].
Proof.
  intros Hb. unfold append_attempt. rewrite rev_app_distr. simpl. rewrite Hb, (bool_decide_true (None = None)) by done.
  simpl. by rewrite rev_involutive, <- app_assoc.
Qed.

(** Adding an attempt keeps the chain and extends the trail. *)
Lemma append_attempt_spec now a l :
  now <> 0 -> at_ReplacedAt a = None -> chained l -> Forall (fun b => reread b = b) l ->
  let l' := (fun b => reread b) <$> append_attempt now a l in
  chained l' /\ trail l' = trail l ++ trail [reread a] /\ last l' = Some (reread a).
Proof.
  intros Hnow Ha Hl Hc. destruct l as [|b l _] using rev_ind; simpl.
  { repeat split; try done. unfold decodeAttempt, encodeAttempt. simpl. by rewrite Ha. }
  pose proof (chained_last _ _ Hl) as Hb. apply Forall_app in Hc as [Hc Hcb]. inversion_clear Hcb as [|? ? Hr _]. rename Hr into Hcb.
  rewrite append_attempt_last, fmap_app by done. simpl.
  assert ((fun b => reread b) <$> l = l) as -> by (apply list_eq_Forall2, Forall2_fmap_l, Forall_Forall2_diag; done).
  assert (at_Nonce (reread (mark now (at_Nonce a) b)) = at_Nonce b) as Hn by (unfold mark; by destruct (_ =? _)).
  assert (at_SignedTxHash (reread (mark now (at_Nonce a) b)) = at_SignedTxHash b) as Hh
    by (unfold mark; destruct (_ =? _); apply (f_equal at_SignedTxHash Hcb)).
  split_and!.
  - eapply chained_extend; [done|done| |simpl; by rewrite Ha]. rewrite Hn. unfold mark.
    destruct (Z.eqb_spec (at_Nonce b) (at_Nonce a)) as [He|He].
    + split; [done|]. intros _. exists now. simpl. unfold time_of, time_or_zero. simpl. by rewrite (proj2 (Z.eqb_neq _ _) Hnow).
    + rewrite Hcb, Hb. split; [by intros [? ?]|done].
  - unfold trail. rewrite !fmap_app, <- app_assoc. f_equal. cbn [fmap list_fmap app]. by rewrite Hn, Hh.
  - by rewrite last_app.
Qed.

(** ** The life of the stored intents *)

(** The calls that change them. *)
Inductive mop :=
  | OpSubmit (p : Params)
  | OpAdopt (p : Params) (txHash : string) (nonce : Z) (broadcastedAt feeCap tipCap : option Z)
  | OpResubmit (id calldata : string)
  | OpMarkConfirmed (id : string)
  | OpMarkFailed (id : string) (reason : CError)
  | OpSetStatus (id : string) (s : IntentStatus)
  | OpAppendAttempt (id : string) (nonce : Z) (feeCap tipCap : option Z) (hash : string) (at_ : Z) (s : IntentStatus).

Section life.
Context `{Bolt M}.
Implicit Types (m : Manager M) (t : TxIntent).

(** Each call at the time it reads from the clock. *)
Definition mstep m (nop : Z * mop) : Manager M :=
  let now := nop.1 in
  match nop.2 with
  | OpSubmit p => (Submit now p m).2
  | OpAdopt p h n b f tip => (Adopt now p h n b f tip m).2
  | OpResubmit id data => (Resubmit now id data m).2
  | OpMarkConfirmed id => (MarkConfirmed now id m).2
  | OpMarkFailed id reason => (MarkFailed now id reason m).2
  | OpSetStatus id s => (SetStatus now id s m).2
  | OpAppendAttempt id n f tip h b s =>
      (AppendAttempt now id (mkAttempt n f tip h b None None None None) s m).2
  end.
Definition mrun : Manager M -> list (Z * mop) -> Manager M := foldl mstep.

Definition resubmits (id : string) (nop : Z * mop) : bool :=
  match nop.2 with OpResubmit id' _ => bool_decide (id' = id) | _ => false end.

(** A well-formed intent: addressed by its content, submittable, with a chain
    of attempts. *)
Record wf_intent (id : string) t : Prop := {
  wf_id : ti_ID t = id;
  wf_content : id = ComputeID (ti_Kind t) (ti_KeyParams t);
  wf_kind : ti_Kind t <> "";
  wf_gas : ti_GasLimit t <> 0;
  wf_chain : chained (ti_Attempts t);
}.
Definition wf_manager m : Prop := forall id t, read id m = Some t -> wf_intent id t.

(** What an intent is about. *)
Definition purpose t := (ti_ID t, ti_Kind t, ti_KeyParams t, ti_To t, ti_Value t, ti_GasLimit t, ti_Metadata t, ti_CreatedAt t).

Record evolves (resubmitted : bool) t t' : Prop := {
  ev_purpose : purpose t' = purpose t;
  ev_trail : trail (ti_Attempts t) `prefix_of` trail (ti_Attempts t');
  ev_confirmed : ti_Status t = StatusConfirmed -> t' = t;
  ev_failed : ti_Status t = StatusFailed -> resubmitted = false -> t' = t;
}.

Lemma evolves_refl b t : evolves b t t.
Proof. by split. Qed.
Lemma evolves_trans b b' t t' t'' : evolves b t t' -> evolves b' t' t'' -> evolves (b || b') t t''.
Proof.
  intros [P T C F] [P' T' C' F']. split; [congruence|by etrans| |].
  - intros Hc. rewrite <- (C Hc). apply C'. by rewrite (C Hc).
  - intros Hf [-> ->]%orb_false_iff. rewrite <- (F Hf eq_refl). apply F'; [by rewrite (F Hf)|done].
Qed.

(** ** Reads after writes *)
Lemma read_write t m id : read id (write t m) = if bool_decide (ti_ID t = id) then Some (stored t) else read id m.
Proof.
  unfold read, write. simpl. case_bool_decide as Hid; [by rewrite Hid, lookup_insert_eq|by rewrite lookup_insert_ne].
Qed.
Lemma read_stored id m t : read id m = Some t -> stored t = t.
Proof. unfold read. intros (e & _ & ->)%fmap_Some. apply decodeIntent_idem. Qed.
Lemma stored_attempts t : stored t = t -> Forall (fun b => reread b = b) (ti_Attempts t).
Proof.
  intros Hs. apply (f_equal ti_Attempts) in Hs. simpl in Hs. rewrite <- list_fmap_compose in Hs.
  apply Forall_lookup_2. intros i b Hi. pose proof Hi as Hj. rewrite <- Hs, list_lookup_fmap, Hi in Hj. by injection Hj.
Qed.
Lemma transition_read id fn m t j :
  read id m = Some t -> ti_ID t = id -> (forall t', fn t = Ok t' -> ti_ID t' = id) ->
  read j (transition id fn m).2 =
    if bool_decide (id = j) then Some (match fn t with Ok t' => stored t' | Err _ => t end) else read j m.
Proof.
  intros Hr Hid Hfn. unfold transition. rewrite Hr. destruct (fn t) as [t'|e] eqn:Ht; simpl; [|by case_bool_decide; subst].
  specialize (Hfn t' eq_refl). rewrite <- Hfn, <- read_write. by destruct (IsTerminal _).
Qed.

(** From [m] to [m'] every intent lives on, and may have left [StatusFailed]
    only where it was resubmitted. *)
Definition advances (resubmitted : string -> bool) m m' : Prop :=
  wf_manager m' /\ forall j t, read j m = Some t -> exists t', read j m' = Some t' /\ evolves (resubmitted j) t t'.

Lemma advances_refl r m : wf_manager m -> advances r m m.
Proof. intros Hwf. split; [done|]. intros j t Hj. exists t. split; [done|apply evolves_refl]. Qed.
Lemma advances_trans r r' m m' m'' :
  advances r m m' -> advances r' m' m'' -> advances (fun j => r j || r' j) m m''.
Proof.
  intros [_ He] [Hw He']. split; [done|]. intros j t Hj. destruct (He j t Hj) as (t' & Hj' & Ht').
  destruct (He' j t' Hj') as (t'' & Hj'' & Ht''). exists t''. split; [done|by eapply evolves_trans].
Qed.

Lemma transition_advances b r id fn m :
  wf_manager m -> (forall j, r j = bool_decide (id = j) && b) ->
  (forall t t', wf_intent id t -> stored t = t -> fn t = Ok t' -> wf_intent id (stored t') /\ evolves b t (stored t')) ->
  advances r m (transition id fn m).2.
Proof.
  intros Hwf Hb Hfn. destruct (read id m) as [t0|] eqn:Hr.
  2: { assert ((transition id fn m).2 = m) as -> by (unfold transition; by rewrite Hr). by apply advances_refl. }
  pose proof (Hwf _ _ Hr) as Hw. pose proof (read_stored _ _ _ Hr) as Hs.
  assert (forall t', fn t0 = Ok t' -> ti_ID t' = id) as Hid.
  { intros t' Ht'. by destruct (Hfn t0 t' Hw Hs Ht') as [[? _ _ _ _] _]. }
  assert (wf_intent id (match fn t0 with Ok t' => stored t' | Err _ => t0 end) /\
          evolves b t0 (match fn t0 with Ok t' => stored t' | Err _ => t0 end)) as [Hw' He].
  { destruct (fn t0) as [t'|e] eqn:Ht; [by apply Hfn|]. split; [done|apply evolves_refl]. }
  split.
  - intros j t. rewrite (transition_read id fn m t0 j Hr (wf_id _ _ Hw) Hid). case_bool_decide; [|apply Hwf].
    subst. by intros [= <-].
  - intros j t Hj. rewrite (transition_read id fn m t0 j Hr (wf_id _ _ Hw) Hid), Hb. case_bool_decide; [subst|].
    + rewrite Hr in Hj. injection Hj as <-. by eexists.
    + exists t. split; [done|apply evolves_refl].
Qed.

(** A new intent disturbs no other. *)
Lemma write_advances r t m :
  wf_manager m -> read (ti_ID t) m = None -> wf_intent (ti_ID t) (stored t) -> advances r m (write t m).
Proof.
  intros Hwf Hn Hw. split.
  - intros j t'. rewrite read_write. case_bool_decide; [subst; by intros [= <-]|apply Hwf].
  - intros j t' Hj. exists t'. rewrite read_write, bool_decide_false; [split; [done|apply evolves_refl]|].
    intros <-. by rewrite Hn in Hj.
Qed.

(** A change that keeps the purpose and extends the trail, from a status that
    allows it. *)
Lemma edit_evolves b id t t' :
  wf_intent id t -> purpose t' = purpose t -> chained (ti_Attempts t') ->
  trail (ti_Attempts t) `prefix_of` trail (ti_Attempts t') -> ti_Status t <> StatusConfirmed ->
  (ti_Status t = StatusFailed -> b = true) -> wf_intent id t' /\ evolves b t t'.
Proof.
  intros [I C K G L] P L' T N F. pose proof P as P'. unfold purpose in P'. split; [split; congruence|].
  split; [done|done|done|]. intros Hf Hb. by rewrite (F Hf) in Hb.
Qed.
Lemma stored_attempts_id t : stored t = t -> (fun b => reread b) <$> ti_Attempts t = ti_Attempts t.
Proof. intros Hs. apply (f_equal ti_Attempts) in Hs. simpl in Hs. by rewrite <- list_fmap_compose in Hs. Qed.
Lemma stored_value t : stored t = t -> bytesValue (valueBytes (ti_Value t)) = ti_Value t.
Proof. apply (f_equal ti_Value). Qed.

(** The same for one that leaves the attempts alone. *)
Lemma relabel_evolves b id t t' :
  wf_intent id t -> stored t = t -> purpose t' = purpose t -> ti_Attempts t' = ti_Attempts t ->
  ti_Status t <> StatusConfirmed -> (ti_Status t = StatusFailed -> b = true) ->
  wf_intent id (stored t') /\ evolves b t (stored t').
Proof.
  intros Hw Hs P A N F. assert (ti_Attempts (stored t') = ti_Attempts t) as HA.
  { simpl. rewrite A, <- list_fmap_compose. by apply stored_attempts_id. }
  apply edit_evolves; try done.
  - unfold purpose in *. simpl. assert (ti_Value t' = ti_Value t) as -> by congruence. rewrite (stored_value t Hs). congruence.
  - rewrite HA. apply Hw.
  - by rewrite HA.
Qed.

Lemma not_terminal s : IsTerminal s = false -> s <> StatusConfirmed /\ s <> StatusFailed.
Proof. by destruct s. Qed.

Ltac relabelled :=
  let t := fresh "t" in let t' := fresh "t'" in let Hw := fresh "Hw" in let Hs := fresh "Hs" in let Ht := fresh "Ht" in
  intros t t' Hw Hs Ht; cbv beta in Ht;
  match type of Ht with (if ?c then _ else _) = _ => destruct c eqn:Hguard; [done|injection Ht as <-] end;
  apply (relabel_evolves _ _ t); try done.

Lemma new_intent_wf now p status attempts :
  pa_Kind p <> "" -> pa_GasLimit p <> 0 -> chained (ti_Attempts (stored (new_intent now p status attempts))) ->
  wf_intent (ti_ID (new_intent now p status attempts)) (stored (new_intent now p status attempts)).
Proof. intros Hk Hg Hc. by split. Qed.

(** Every call keeps the store well formed. *)
Lemma mstep_advances nop m : wf_manager m -> nop.1 <> 0 -> advances (fun j => resubmits j nop) m (mstep m nop).
Proof.
  intros Hwf Hnow. destruct nop as [now op]. simpl in Hnow. unfold mstep, resubmits. simpl. destruct op; simpl.
  - unfold Submit. case_bool_decide; [by apply advances_refl|]. destruct (Z.eqb_spec (pa_GasLimit p) 0); [by apply advances_refl|].
    destruct (read _ m) eqn:Hr; [by apply advances_refl|]. apply write_advances; [done|done|by apply new_intent_wf].
  - unfold Adopt. case_bool_decide; [by apply advances_refl|]. destruct (Z.eqb_spec (pa_GasLimit p) 0); [by apply advances_refl|].
    destruct (is_zero_bytes _); [by apply advances_refl|].
    destruct (read _ m) eqn:Hr; [by apply advances_refl|]. apply write_advances; [done|done|by apply new_intent_wf].
  - apply (transition_advances true); [done|intros j; by rewrite andb_true_r|].
    relabelled. intros Hc. rewrite Hc in Hguard. by vm_compute in Hguard.
  - apply (transition_advances false); [done|intros j; by rewrite andb_false_r|].
    relabelled; intros Hc; rewrite Hc in Hguard; by vm_compute in Hguard.
  - apply (transition_advances false); [done|intros j; by rewrite andb_false_r|].
    relabelled; by apply not_terminal in Hguard as [??].
  - apply (transition_advances false); [done|intros j; by rewrite andb_false_r|].
    relabelled; by apply not_terminal in Hguard as [??].
  - apply (transition_advances false); [done|intros j; by rewrite andb_false_r|]. intros t t' Hw Hs Ht.
    destruct (IsTerminal (ti_Status t)) eqn:Hg; [done|]. apply not_terminal in Hg as [Hc Hf]. injection Ht as <-.
    set (a := mkAttempt nonce feeCap tipCap hash at_ None None None None).
    destruct (append_attempt_spec now a (ti_Attempts t)) as (Hch & Htr & _);
      [done|done|apply Hw|by apply stored_attempts|].
    assert (ti_Attempts (stored (ti_with_status s now (ti_with_attempts (append_attempt now a (ti_Attempts t)) t))) =
            (fun b => reread b) <$> append_attempt now a (ti_Attempts t)) as HA by (simpl; by rewrite <- list_fmap_compose).
    apply (edit_evolves _ _ t); [done| |by rewrite HA|rewrite HA, Htr; by eexists|done|done].
    unfold purpose. simpl. by rewrite (stored_value t Hs).
Qed.

Lemma mrun_advances ops m :
  wf_manager m -> Forall (fun nop => nop.1 <> 0) ops -> advances (fun j => existsb (resubmits j) ops) m (mrun m ops).
Proof.
  intros Hwf Hops. revert m Hwf. induction Hops as [|nop ops Hn _ IH]; intros m Hwf; simpl; [by apply advances_refl|].
  pose proof (mstep_advances nop m Hwf Hn) as Ha. eapply advances_trans; [exact Ha|]. apply IH, Ha.
Qed.

(** C21: over any sequence of manager calls on a fresh store, every stored intent is addressed by the hash of its kind and
    key parameters and carries a chain of attempts in which exactly those followed at the same nonce are marked replaced;
    and over any further calls no intent is lost, what it is about never changes, signed attempts are only added, a
    confirmed intent never changes again, and a failed one only if it is resubmitted. *)
Theorem intents_well_formed (before after : list (Z * mop)) :
  Forall (fun nop => nop.1 <> 0) (before ++ after) ->
  let m1 := mrun (mkManager ∅ ∅) before in
  let m2 := mrun m1 after in
  (forall id t, read id m2 = Some t -> wf_intent id t) /\
  (forall id t, read id m1 = Some t -> exists t', read id m2 = Some t' /\ evolves (existsb (resubmits id) after) t t').
Proof.
  intros [Hb Ha]%Forall_app. destruct (mrun_advances before (mkManager ∅ ∅)) as [Hw _]; [|done|by apply mrun_advances].
  intros id t. unfold read. simpl. by rewrite lookup_empty.
Qed.

End life.

(** ** Waking waiters *)
Section wait.
Context `{Bolt M}.
Implicit Types (m : Manager M) (t : TxIntent).

Definition channel (id : string) (ch : nat) m : option (option TxIntent) := default [] (mg_waiters m !! id) !! ch.

Definition fill t (c : option TxIntent) : option TxIntent := match c with None => Some t | Some _ => c end.

Lemma channel_notify id ch t m :
  channel id ch (notifyWaiters t m) = if bool_decide (ti_ID t = id) then fill t <$> channel id ch m else channel id ch m.
Proof.
  unfold channel, notifyWaiters. simpl. case_bool_decide as Hid.
  - subst id. rewrite lookup_alter_eq. destruct (mg_waiters m !! ti_ID t) as [ws|]; simpl; [by rewrite list_lookup_fmap|done].
  - by rewrite lookup_alter_ne.
Qed.

(** What a call does to a channel of [id]: it fills it when it makes the intent
    terminal, and otherwise leaves it. *)
Lemma transition_channel j fn m id ch :
  (forall t t', fn t = Ok t' -> ti_ID t' = ti_ID t) -> wf_manager m ->
  channel id ch (transition j fn m).2 =
    match read j m with
    | Some t => match fn t with
                | Ok t' => if bool_decide (j = id) && IsTerminal (ti_Status t') then fill t' <$> channel id ch m else channel id ch m
                | Err _ => channel id ch m
                end
    | None => channel id ch m
    end.
Proof.
  intros Hfn Hwf. unfold transition. destruct (read j m) as [t|] eqn:Hr; [|done].
  destruct (fn t) as [t'|e] eqn:Ht; [|done]. simpl. destruct (IsTerminal (ti_Status t')); [|by rewrite andb_false_r].
  rewrite channel_notify, (Hfn t t' Ht), (wf_id _ _ (Hwf _ _ Hr)). by case_bool_decide.
Qed.

(** The invariant of a call waiting for [id]. *)
Definition attended (id : string) (ch : nat) m : Prop :=
  (exists t, channel id ch m = Some (Some t) /\ IsTerminal (ti_Status t) = true) \/
  (channel id ch m = Some None /\ exists t, read id m = Some t /\ IsTerminal (ti_Status t) = false).

Lemma transition_attended j fn m id ch :
  (forall t t', fn t = Ok t' -> ti_ID t' = ti_ID t) -> wf_manager m ->
  attended id ch m -> attended id ch (transition j fn m).2.
Proof.
  intros Hfn Hwf Ha. unfold attended. rewrite transition_channel by done. destruct (read j m) as [t0|] eqn:Hr.
  2: { assert ((transition j fn m).2 = m) as -> by (unfold transition; by rewrite Hr). exact Ha. }
  pose proof (wf_id _ _ (Hwf _ _ Hr)) as Hid. rewrite (transition_read j fn m t0 id Hr Hid) by (intros t' Ht; by rewrite (Hfn t0 t' Ht)).
  destruct Ha as [(t & Hc & Ht)|(Hc & t & Hi & Ht)]; [left|].
  - exists t. split; [|done]. destruct (fn t0); [|done]. destruct (_ && _); [by rewrite Hc|done].
  - destruct (fn t0) as [t'|e] eqn:Hf; [|right; split; [done|]; case_bool_decide; [subst; rewrite Hr in Hi|]; by eauto].
    case_bool_decide as Hj; simpl; [subst j|right; by eauto]. destruct (IsTerminal (ti_Status t')) eqn:Hterm.
    + left. exists t'. by rewrite Hc.
    + right. split; [done|]. by exists (stored t').
Qed.
Lemma write_attended t m id ch : read (ti_ID t) m = None -> attended id ch m -> attended id ch (write t m).
Proof.
  intros Hn [Ha|(Hc & t' & Hi & Ht)]; [by left|right]. split; [done|]. exists t'. split; [|done].
  rewrite read_write, bool_decide_false; [done|]. intros Hid. by rewrite Hid, Hi in Hn.
Qed.

Ltac keeps_id := let t := fresh in let t' := fresh in let Ht := fresh in
  intros t t' Ht; cbv beta in Ht;
  match type of Ht with (if ?c then _ else _) = _ => destruct c; [done|injection Ht as <-; done] end.

Lemma mstep_attended nop m id ch : wf_manager m -> attended id ch m -> attended id ch (mstep m nop).
Proof.
  intros Hwf Ha. destruct nop as [now op]. unfold mstep. simpl. destruct op; simpl;
    try (apply transition_attended; [keeps_id|done|done]).
  - unfold Submit. case_bool_decide; [done|]. destruct (_ =? _); [done|]. destruct (read _ m) eqn:Hr; [done|].
    by apply write_attended.
  - unfold Adopt. case_bool_decide; [done|]. destruct (_ =? _); [done|]. destruct (is_zero_bytes _); [done|].
    destruct (read _ m) eqn:Hr; [done|]. by apply write_attended.
Qed.
Lemma mrun_attended ops m id ch :
  wf_manager m -> Forall (fun nop => nop.1 <> 0) ops -> attended id ch m -> attended id ch (mrun m ops).
Proof.
  intros Hwf Hops. revert m Hwf. induction Hops as [|nop ops Hn _ IH]; intros m Hwf Ha; simpl; [done|].
  apply IH; [by apply mstep_advances|by apply mstep_attended].
Qed.

(** A caller that registers for an intent while it is in flight is woken: as soon as any later calls have
    brought the intent to its end, its channel holds a terminal record of it. *)
Theorem registered_waiter_woken (before after : list (Z * mop)) (id : string) t :
  Forall (fun nop => nop.1 <> 0) (before ++ after) ->
  let m := mrun (mkManager ∅ ∅) before in
  read id m = Some t -> IsTerminal (ti_Status t) = false ->
  let '(ch, m1) := Wait_register id m in
  let m2 := mrun m1 after in
  (exists t', read id m2 = Some t' /\ (IsTerminal (ti_Status t') = true -> exists o, Wait_receive id ch m2 = Some o)) /\
  (forall o, Wait_receive id ch m2 = Some o -> IsTerminal (ti_Status o) = true).
Proof.
  intros [Hb Ha]%Forall_app m Hr Ht. simpl.
  assert (wf_manager m) as Hwf by (apply mrun_advances; [|done]; intros i u; unfold read; simpl; by rewrite lookup_empty).
  set (ws := default [] (mg_waiters m !! id)). set (m1 := mkManager (mg_intents m) (<[id := ws ++ [None]]> (mg_waiters m))).
  assert (attended id (length ws) m1) as Hat.
  { right. split; [|by exists t]. unfold channel, m1. simpl. rewrite lookup_insert_eq. simpl. by rewrite list_lookup_middle. }
  pose proof (mrun_attended after m1 id (length ws) Hwf Ha Hat) as Hatt. unfold Wait_receive.
  fold (channel id (length ws) (mrun m1 after)). split.
  - destruct (mrun_advances after m1 Hwf Ha) as [_ Hadv]. destruct (Hadv id t Hr) as (t' & Hr' & _).
    exists t'. split; [done|]. intros Hterm. destruct Hatt as [(o & Ho & _)|(_ & u & Hu & Hn)]; [rewrite Ho; by eexists|].
    rewrite Hr' in Hu. injection Hu as <-. by rewrite Hterm in Hn.
  - destruct Hatt as [(o & Ho & Hterm)|(Ho & _)]; rewrite Ho; [by intros ? [= <-]|done].
Qed.

(** ** The waiter that comes too late *)
Lemma transition_confirmed j fn m id ch t :
  (forall t t', fn t = Ok t' -> ti_ID t' = ti_ID t) -> (forall t t', ti_Status t = StatusConfirmed -> fn t <> Ok t') ->
  wf_manager m -> read id m = Some t -> ti_Status t = StatusConfirmed ->
  channel id ch (transition j fn m).2 = channel id ch m.
Proof.
  intros Hfn Hc Hwf Hr Ht. rewrite transition_channel by done. destruct (read j m) as [t0|] eqn:Hj; [|done].
  destruct (fn t0) as [t'|e] eqn:Hf; [|done]. case_bool_decide as He; [|done]. subst j. rewrite Hr in Hj.
  injection Hj as <-. by destruct (Hc _ _ Ht Hf).
Qed.

Ltac stays_confirmed := let t := fresh in let t' := fresh in let Ht := fresh in let Hf := fresh in
  intros t t' Ht Hf; cbv beta in Hf; rewrite Ht in Hf; vm_compute in Hf; done.

Lemma mstep_confirmed nop m id ch t :
  wf_manager m -> read id m = Some t -> ti_Status t = StatusConfirmed -> channel id ch (mstep m nop) = channel id ch m.
Proof.
  intros Hwf Hr Ht. destruct nop as [now op]. unfold mstep. simpl. destruct op; simpl;
    try (eapply transition_confirmed; [keeps_id|stays_confirmed|done|done|done]).
  - unfold Submit. case_bool_decide; [done|]. destruct (_ =? _); [done|]. by destruct (read (ComputeID _ _) m).
  - unfold Adopt. case_bool_decide; [done|]. destruct (_ =? _); [done|]. destruct (is_zero_bytes _); [done|].
    by destruct (read (ComputeID _ _) m).
Qed.
Lemma mrun_confirmed ops m id ch t :
  wf_manager m -> Forall (fun nop => nop.1 <> 0) ops -> read id m = Some t -> ti_Status t = StatusConfirmed ->
  channel id ch (mrun m ops) = channel id ch m.
Proof.
  intros Hwf Hops. revert m Hwf. induction Hops as [|nop ops Hn _ IH]; intros m Hwf Hr Ht; simpl; [done|].
  destruct (mstep_advances nop m Hwf Hn) as [Hwf' Hev]. destruct (Hev id t Hr) as (t' & Hr' & He).
  rewrite (ev_confirmed _ _ _ He Ht) in Hr'. rewrite IH by done. by eapply mstep_confirmed.
Qed.

(** [Wait] reads the status and registers in two steps.  If the intent is confirmed in between, the channel it
    then waits on is never filled, whatever is called later, although the intent is and stays confirmed: the caller
    blocks until its own context ends. *)
Theorem late_waiter_never_woken (before after : list (Z * mop)) (now : Z) (id : string) :
  Forall (fun nop => nop.1 <> 0) (before ++ (now, OpMarkConfirmed id) :: after) ->
  let m := mrun (mkManager ∅ ∅) before in
  Wait_read id m = Ok None -> (MarkConfirmed now id m).1 = Ok tt ->
  let '(ch, m1) := Wait_register id (MarkConfirmed now id m).2 in
  let m2 := mrun m1 after in
  Wait_receive id ch m2 = None /\ (exists t, read id m2 = Some t /\ ti_Status t = StatusConfirmed).
Proof.
  intros [Hb Ha]%Forall_app m Hread Hok. inversion_clear Ha as [|? ? Hnow Hafter]. simpl in Hnow.
  assert (wf_manager m) as Hwf by (apply mrun_advances; [|done]; intros i u; unfold read; simpl; by rewrite lookup_empty).
  destruct (mstep_advances (now, OpMarkConfirmed id) m Hwf Hnow) as [Hwf' _]. unfold mstep in Hwf'. simpl in Hwf'.
  unfold Wait_read in Hread. destruct (read id m) as [t|] eqn:Hr; [|done].
  assert (exists t', read id (MarkConfirmed now id m).2 = Some t' /\ ti_Status t' = StatusConfirmed) as (t' & Hr' & Ht').
  { revert Hok. unfold MarkConfirmed. unfold transition at 1. rewrite Hr. destruct (_ && _) eqn:Hg; [done|]. intros _.
    rewrite (transition_read id _ m t id Hr (wf_id _ _ (Hwf _ _ Hr))).
    - rewrite bool_decide_true by done. rewrite Hg. by eexists.
    - intros u. rewrite Hg. intros [= <-]. apply (Hwf _ _ Hr). }
  set (m0 := (MarkConfirmed now id m).2) in *. simpl. set (ws := default [] (mg_waiters m0 !! id)).
  set (m1 := mkManager (mg_intents m0) (<[id := ws ++ [None]]> (mg_waiters m0))).
  unfold Wait_receive. fold (channel id (length ws) (mrun m1 after)).
  rewrite (mrun_confirmed after m1 id (length ws) t' Hwf' Hafter Hr' Ht'). split.
  - unfold channel, m1. simpl. rewrite lookup_insert_eq. simpl. by rewrite list_lookup_middle.
  - destruct (mrun_advances after m1 Hwf' Hafter) as [_ Hev]. destruct (Hev id t' Hr') as (t'' & Hr'' & He).
    exists t''. split; [done|]. by rewrite (ev_confirmed _ _ _ He Ht').
Qed.

End wait.

(** ** A concrete history *)
Definition demo_params : Params := mkParams "redeem" "ticket-1" (replicate_byte 20 zero_byte) "data" None 21000 ∅.
Definition demo_intent : string := ComputeID "redeem" "ticket-1".
Definition demo_submitted : list (Z * mop) :=
  [(1, OpSubmit demo_params);
   (2, OpAppendAttempt demo_intent 7 (Some 100) (Some 10) (sha256 "a") 2 StatusSubmitted);
   (3, OpAppendAttempt demo_intent 7 (Some 120) (Some 12) (sha256 "b") 3 StatusSubmitted)].
Abbreviation demo_manager := (mrun (M := gmap string) (mkManager ∅ ∅) demo_submitted).

Lemma demo_clock after : Forall (fun nop => nop.1 <> 0) after -> Forall (fun nop => nop.1 <> 0) (demo_submitted ++ after).
Proof. intros Ha. apply Forall_app. split; [repeat constructor; done|done]. Qed.

Lemma intents_well_formed_witness :
  let m2 := mrun demo_manager [(4, OpMarkConfirmed demo_intent)] in
  (option_map (fun t => (ti_Status t, trail (ti_Attempts t))) (read demo_intent m2) =
     Some (StatusConfirmed, [(7, sha256 "a"); (7, sha256 "b")])) /\
  exists t', read demo_intent m2 = Some t' /\ chained (ti_Attempts t').
Proof.
  cbv zeta. split; [vm_refl|].
  destruct (intents_well_formed (M := gmap string) demo_submitted [(4, OpMarkConfirmed demo_intent)]) as [Hwf _];
    [apply demo_clock; by repeat constructor|].
  destruct (read demo_intent (mrun demo_manager [(4, OpMarkConfirmed demo_intent)])) as [t'|] eqn:Hr; [|by vm_compute in Hr].
  exists t'. split; [reflexivity|apply (Hwf _ _ Hr)].
Defined.

(** An intent that failed with an error of the node: it wraps the node's own. *)
Definition demo_failed : TxIntent :=
  ti_with_outcome None (Some (Classify (GPlain "execution reverted: no reserve"))) (new_intent 5 demo_params StatusFailed []).

Lemma registered_waiter_woken_witness :
  let waiting := Wait_register demo_intent demo_manager in
  exists o, Wait_receive demo_intent waiting.1 (mrun waiting.2 [(4, OpMarkConfirmed demo_intent)]) = Some o.
Proof.
  destruct (read demo_intent demo_manager) as [t|] eqn:Hr; [|by vm_compute in Hr].
  destruct (registered_waiter_woken (M := gmap string) demo_submitted [(4, OpMarkConfirmed demo_intent)] demo_intent t)
    as [(t' & Hr' & Hw) _]; [apply demo_clock; by repeat constructor|exact Hr| |].
  - assert (option_map (fun t => IsTerminal (ti_Status t)) (read demo_intent demo_manager) = Some false) as Hs by by vm_compute.
    rewrite Hr in Hs. by injection Hs.
  - apply Hw. 
    assert (option_map (fun t => IsTerminal (ti_Status t))
      (read demo_intent (mrun (Wait_register demo_intent demo_manager).2 [(4, OpMarkConfirmed demo_intent)])) = Some true)
      as Hs by by vm_compute.
    apply (f_equal (option_map (fun t => IsTerminal (ti_Status t)))) in Hr'. pose proof (eq_trans (eq_sym Hr') Hs) as E.
    by injection E.
Defined.

Lemma late_waiter_never_woken_witness :
  let waiting := Wait_register demo_intent (MarkConfirmed 4 demo_intent demo_manager).2 in
  Wait_receive demo_intent waiting.1 (mrun waiting.2 [(5, OpSubmit demo_params)]) = None.
Proof.
  refine (proj1 (late_waiter_never_woken (M := gmap string) demo_submitted [(5, OpSubmit demo_params)] 4 demo_intent _ _ _));
    [apply demo_clock; by repeat constructor|vm_refl|vm_refl].
Defined.
