(* ===== verification/TxProcessorSpec.v ===== *)
(** * What driving an intent guarantees

    Whatever the node, the oracle and the receipts provider answer, one run of
    the processor commits an intent to at most one nonce, sends a bounded
    number of transactions, and sends nothing but what the intent describes.
    Where they cooperate the intent ends; where they do not, two runs show how
    it is left behind or misreported. *)
From S2P Require Import Prelude.
From S2P Require Import GoBytes.
From S2P Require Import GoCodecs.
From S2P Require Import Bolt.
From S2P Require Import ChainErrors.
From S2P Require Import Actions.
From S2P Require Import TxIntent.
From S2P Require Import TxProcessor.
From S2P Require Import TxIntentSpec.

(** ** The manager's calls on a stored intent *)
Section calls.
Context `{Bolt M}.
Implicit Types (m : Manager M) (t : TxIntent).

Definition kept t t' : Prop :=
  purpose t' = purpose t /\ ti_CallData t' = ti_CallData t /\ ti_Attempts t' = ti_Attempts t.

Lemma kept_refl t : kept t t.
Proof. done. Qed.
Lemma kept_stored t t' :
  stored t = t -> purpose t' = purpose t -> ti_CallData t' = ti_CallData t -> ti_Attempts t' = ti_Attempts t ->
  kept t (stored t').
Proof.
  intros Hs P D A. assert (ti_Value t' = ti_Value t) as HV by (unfold purpose in P; congruence). split_and!.
  - unfold purpose in *. simpl. rewrite HV, (stored_value t Hs). congruence.
  - done.
  - simpl. rewrite A, <- list_fmap_compose. by apply stored_attempts_id.
Qed.

Lemma transition_at id fn m t :
  wf_manager m -> read id m = Some t -> (forall t', fn t = Ok t' -> ti_ID t' = ti_ID t) ->
  (transition id fn m).1 = (match fn t with Ok _ => Ok tt | Err e => Err e end) /\
  read id (transition id fn m).2 = Some (match fn t with Ok t' => stored t' | Err _ => t end).
Proof.
  intros Hwf Hr Hid. pose proof (wf_id _ _ (Hwf _ _ Hr)) as Ht. split.
  - unfold transition. rewrite Hr. by destruct (fn t).
  - rewrite (transition_read id fn m t id Hr Ht) by (intros t' Hf; by rewrite (Hid t' Hf)). by rewrite bool_decide_true.
Qed.

(** The store after a call that is one guarded transition. *)
Ltac after_call op m t Hwf Hnow Hr :=
  let Hwf' := fresh "Hwf'" in let E1 := fresh in let E2 := fresh in let r := fresh "r" in let m' := fresh "m'" in
  pose proof (proj1 (mstep_advances op m Hwf Hnow)) as Hwf'; unfold mstep in Hwf'; simpl in Hwf';
  unfold SetStatus, MarkFailed, MarkConfirmed, AppendAttempt in *;
  match type of Hwf' with
  | wf_manager (transition ?id ?fn _).2 =>
      destruct (transition_at id fn m t Hwf Hr) as [E1 E2];
        [intros ?; match goal with |- (if ?c then _ else _) = _ -> _ => destruct c; intros [= <-]; done end|];
      destruct (transition id fn m) as [r m']
  end;
  simpl in E1, E2, Hwf'; subst r; split; [exact Hwf'|]; eexists; split; [exact E2|].

Lemma SetStatus_at now id s m t :
  wf_manager m -> now <> 0 -> read id m = Some t ->
  let '(r, m') := SetStatus now id s m in
  wf_manager m' /\ exists t', read id m' = Some t' /\ kept t t' /\
    if IsTerminal (ti_Status t) then t' = t /\ exists e, r = Err e else ti_Status t' = s /\ r = Ok tt.
Proof.
  intros Hwf Hnow Hr. after_call (now, OpSetStatus id s) m t Hwf Hnow Hr.
  pose proof (read_stored _ _ _ Hr). destruct (IsTerminal (ti_Status t)); [by eauto using kept_refl|].
  split; [by apply kept_stored|done].
Qed.
Lemma MarkFailed_at now id reason m t :
  wf_manager m -> now <> 0 -> read id m = Some t ->
  let '(r, m') := MarkFailed now id reason m in
  wf_manager m' /\ exists t', read id m' = Some t' /\ kept t t' /\
    if IsTerminal (ti_Status t) then t' = t /\ exists e, r = Err e
    else ti_Status t' = StatusFailed /\ ti_FailedReason t' = Some (uncaused reason) /\ r = Ok tt.
Proof.
  intros Hwf Hnow Hr. after_call (now, OpMarkFailed id reason) m t Hwf Hnow Hr.
  pose proof (read_stored _ _ _ Hr). destruct (IsTerminal (ti_Status t)); [by eauto using kept_refl|].
  split; [by apply kept_stored|done].
Qed.
Lemma MarkConfirmed_at now id m t :
  wf_manager m -> now <> 0 -> read id m = Some t ->
  let '(r, m') := MarkConfirmed now id m in
  wf_manager m' /\ exists t', read id m' = Some t' /\ kept t t' /\
    (t' = t \/ ti_Status t' = StatusConfirmed) /\
    (ti_Status t = StatusMined \/ ti_Status t = StatusSubmitted -> ti_Status t' = StatusConfirmed).
Proof.
  intros Hwf Hnow Hr. after_call (now, OpMarkConfirmed id) m t Hwf Hnow Hr.
  pose proof (read_stored _ _ _ Hr). destruct (_ && _) eqn:Hg.
  - split; [apply kept_refl|]. split; [by left|]. intros [E|E]; rewrite E in Hg; by vm_compute in Hg.
  - split; [by apply kept_stored|]. split; [by right|done].
Qed.

Lemma current_last l t : ti_Attempts t = l -> chained l -> CurrentAttempt t = last l.
Proof.
  intros Ht Hl. unfold CurrentAttempt. rewrite Ht. destruct l as [|b l _] using rev_ind; [done|].
  rewrite rev_app_distr, last_snoc. simpl. by rewrite (chained_last _ _ Hl), (bool_decide_true (None = None)).
Qed.

Lemma AppendAttempt_at now id n f tip h b s m t :
  wf_manager m -> now <> 0 -> read id m = Some t ->
  let a := mkAttempt n f tip h b None None None None in
  let '(r, m') := AppendAttempt now id a s m in
  wf_manager m' /\ exists t', read id m' = Some t' /\ purpose t' = purpose t /\ ti_CallData t' = ti_CallData t /\
    if IsTerminal (ti_Status t) then t' = t /\ exists e, r = Err e
    else ti_Status t' = s /\ CurrentAttempt t' = Some (decodeAttempt (encodeAttempt a)) /\ r = Ok tt.
Proof.
  intros Hwf Hnow Hr. cbv zeta. after_call (now, OpAppendAttempt id n f tip h b s) m t Hwf Hnow Hr.
  set (a := mkAttempt n f tip h b None None None None).
  pose proof (read_stored _ _ _ Hr) as Hs. destruct (IsTerminal (ti_Status t)); [by eauto|].
  destruct (append_attempt_spec now a (ti_Attempts t)) as (Hch & _ & Hl);
    [done|done|apply (Hwf _ _ Hr)|by apply stored_attempts|].
  split_and!; [|done|done| |done].
  - unfold purpose. simpl. by rewrite (stored_value t Hs).
  - erewrite current_last; [exact Hl| |exact Hch]. simpl. by rewrite <- list_fmap_compose.
Qed.

End calls.

(** ** One nonce per run *)
Lemma Forall_snoc_2 {A} (P : A -> Prop) l x : Forall P l -> P x -> Forall P (l ++ [x]).
Proof. intros Hl Hx. apply Forall_app. by repeat constructor. Qed.

(** A transaction that does what the intent describes. *)
Definition carries (cfg : ProcessorConfig) (t : TxIntent) (tx : Tx) : Prop :=
  tx_ChainID tx = cf_ChainID cfg /\ tx_To tx = ti_To t /\ tx_Value tx = copyBig (ti_Value t) /\
  tx_Data tx = ti_CallData t /\ tx_Gas tx = ti_GasLimit t.
(** Refused because its nonce is used up: it can never be mined. *)
Definition stale (x : Tx * option ErrorClass) : Prop := x.2 = Some ClassNoncePast.

Section run.
Context `{Bolt M} `{TxSigner} (cfg : ProcessorConfig) (w : World) (id : string) (t0 : TxIntent)
  (sent0 : list (Tx * option ErrorClass)).
Hypothesis Hclock : forall n, w_now w n <> 0.
Open Scope act_scope.

Abbreviation pact := (st (PState M) goerr).

(** The intent [t] as stored, and what was sent since the start. *)
Record running (t : TxIntent) (new : list (Tx * option ErrorClass)) (m : Manager M) (sent : list (Tx * option ErrorClass)) : Prop := {
  run_wf : wf_manager m;
  run_read : read id m = Some t;
  run_purpose : purpose t = purpose t0;
  run_data : ti_CallData t = ti_CallData t0;
  run_sent : sent = sent0 ++ new;
  run_carries : Forall (fun x => carries cfg t0 x.1) new;
}.

(** Nothing of this run is in flight. *)
Definition idle (s : PState M) : Prop :=
  exists t new, running t new (ps_mgr s) (ps_sent s) /\ Forall stale new.
(** The run is committed to the nonce of the current attempt. *)
Definition held (n : Z) (s : PState M) : Prop :=
  exists t new a, running t new (ps_mgr s) (ps_sent s) /\ Forall (fun x => tx_Nonce x.1 = n \/ stale x) new /\
    ti_Status t <> StatusPending /\ CurrentAttempt t = Some a /\ at_Nonce a = n.
(** Both: a first attempt was recorded, and nothing sent that could be mined. *)
Definition fresh_at (n : Z) (s : PState M) : Prop :=
  exists t new a, running t new (ps_mgr s) (ps_sent s) /\ Forall stale new /\
    ti_Status t <> StatusPending /\ CurrentAttempt t = Some a /\ at_Nonce a = n.
Definition live (s : PState M) : Prop := idle s \/ exists n, held n s.

Lemma fresh_idle n s : fresh_at n s -> idle s.
Proof. intros (t & new & a & Hr & Hs & _). by exists t, new. Qed.
Lemma fresh_held n s : fresh_at n s -> held n s.
Proof.
  intros (t & new & a & Hr & Hs & Hp & Ha). exists t, new, a. split; [done|]. split; [|done].
  apply (Forall_impl _ _ _ Hs). by right.
Qed.

(** The calls that change a status only. *)
Definition gentle {A} (op : Z -> Manager M -> result goerr A * Manager M) : Prop :=
  forall now m t, wf_manager m -> now <> 0 -> read id m = Some t ->
  let '(r, m') := op now m in
  wf_manager m' /\ exists t', read id m' = Some t' /\ kept t t' /\ (t' = t \/ ti_Status t' <> StatusPending).

Lemma gentle_SetStatus s : s <> StatusPending -> gentle (fun now => SetStatus now id s).
Proof.
  intros Hs now m t Hwf Hn Hr. pose proof (SetStatus_at now id s m t Hwf Hn Hr) as Hc.
  destruct (SetStatus now id s m) as [r m']. destruct Hc as (Hwf' & t' & Hr' & Hk & Hc). split; [done|].
  exists t'. split_and!; [done|done|]. destruct (IsTerminal _); destruct Hc as [-> _]; [by left|by right].
Qed.
Lemma gentle_MarkFailed reason : gentle (fun now => MarkFailed now id reason).
Proof.
  intros now m t Hwf Hn Hr. pose proof (MarkFailed_at now id reason m t Hwf Hn Hr) as Hc.
  destruct (MarkFailed now id reason m) as [r m']. destruct Hc as (Hwf' & t' & Hr' & Hk & Hc). split; [done|].
  exists t'. split_and!; [done|done|]. destruct (IsTerminal _); destruct Hc as [Hc _]; [by left|right; by rewrite Hc].
Qed.
Lemma gentle_MarkConfirmed : gentle (fun now => MarkConfirmed now id).
Proof.
  intros now m t Hwf Hn Hr. pose proof (MarkConfirmed_at now id m t Hwf Hn Hr) as Hc.
  destruct (MarkConfirmed now id m) as [r m']. destruct Hc as (Hwf' & t' & Hr' & Hk & Hc & _). split; [done|].
  exists t'. split_and!; [done|done|]. destruct Hc as [->|Hc]; [by left|right; by rewrite Hc].
Qed.

Lemma kept_running t t' new m m' sent :
  running t new m sent -> wf_manager m' -> read id m' = Some t' -> kept t t' -> running t' new m' sent.
Proof. intros [Hw Hr P D S C] Hw' Hr' (P' & D' & A'). split; try done; congruence. Qed.
Lemma kept_current t t' : kept t t' -> CurrentAttempt t' = CurrentAttempt t.
Proof. intros (_ & _ & A). unfold CurrentAttempt. by rewrite A. Qed.

(** A state predicate the status changes keep. *)
Definition stable (J : PState M -> Prop) : Prop :=
  forall A (op : Z -> Manager M -> result goerr A * Manager M), gentle op -> triple J (manage w op) (fun _ s => J s).

Lemma stable_idle : stable idle.
Proof.
  intros A op Hop s (t & new & Hr & Hs). specialize (Hop (w_now w (ps_calls s)) _ t (run_wf _ _ _ _ Hr) (Hclock _) (run_read _ _ _ _ Hr)).
  unfold manage. destruct (op _ _) as [r m']. destruct Hop as (Hwf' & t' & Hr' & Hk & _). simpl.
  exists t', new. split; [by eapply kept_running|done].
Qed.
Lemma stable_held n : stable (held n).
Proof.
  intros A op Hop s (t & new & a & Hr & Hs & Hp & Hc & Ha).
  specialize (Hop (w_now w (ps_calls s)) _ t (run_wf _ _ _ _ Hr) (Hclock _) (run_read _ _ _ _ Hr)).
  unfold manage. destruct (op _ _) as [r m']. destruct Hop as (Hwf' & t' & Hr' & Hk & Hst). simpl.
  exists t', new, a. split; [by eapply kept_running|]. split; [done|]. split; [|by rewrite (kept_current _ _ Hk)].
  by destruct Hst as [->|Hst].
Qed.
Lemma stable_live : stable live.
Proof.
  intros A op Hop. apply triple_or.
  - eapply triple_post; [by apply stable_idle|]. by left.
  - apply triple_exists. intros n. eapply triple_post; [by apply stable_held|]. intros r s Hs. right. by exists n.
Qed.

(** Handing a transaction to the node. *)
Lemma running_sent t new m sent x : running t new m sent -> carries cfg t0 x.1 -> running t (new ++ [x]) m (sent ++ [x]).
Proof.
  intros [Hw Hr P D S C] Hx. split; try done; [by rewrite S, <- app_assoc|]. by apply Forall_snoc_2.
Qed.
Lemma send_held n tx : carries cfg t0 tx -> tx_Nonce tx = n -> triple (held n) (send w tx) (fun _ s => held n s).
Proof.
  intros Hx Hn s (t & new & a & Hr & Hs & Ha). unfold send, bind, tick. simpl. destruct (w_SendTransaction _ _ _); simpl;
    (eexists t, _, a; split; [apply running_sent; [exact Hr|exact Hx]|]; split; [|exact Ha]; apply Forall_snoc_2; [exact Hs|by left]).
Qed.
Lemma send_fresh n tx : carries cfg t0 tx -> tx_Nonce tx = n ->
  triple (fresh_at n) (send w tx)
    (fun r s => match r with
                | Ok _ => held n s
                | Err e => if bool_decide (ce_Class (Classify e) = ClassNoncePast) then idle s else held n s
                end).
Proof.
  intros Hx Hn s Hf. pose proof (send_held n tx Hx Hn s (fresh_held n s Hf)) as Hh. revert Hh.
  destruct Hf as (t & new & a & Hr & Hs & Ha). unfold send, bind, tick. simpl. destruct (w_SendTransaction _ _ _) as [|e]; simpl; [done|].
  intros Hh. rewrite Classify_CError. case_bool_decide as Hc; [|done]. exists t. eexists.
  split; [apply running_sent; [exact Hr|exact Hx]|]. apply Forall_snoc_2; [done|]. unfold stale. by rewrite Hc.
Qed.

(** Signing for the intent. *)
Definition about (intent : TxIntent) : Prop := purpose intent = purpose t0 /\ ti_CallData intent = ti_CallData t0.
Hypothesis Hgas : ti_GasLimit t0 <> 0.
Hypothesis Hid : ti_ID t0 = id.

Lemma about_id intent : about intent -> ti_ID intent = id.
Proof. intros [P _]. unfold purpose in P. congruence. Qed.
Lemma running_about t new m sent : running t new m sent -> about t.
Proof. by intros [_ _ P D _ _]. Qed.
Lemma signTx_carries intent n f tip tx h :
  about intent -> signTx cfg intent n f tip = Ok (tx, h) -> carries cfg t0 tx /\ tx_Nonce tx = n.
Proof.
  intros [P D]. unfold signTx. destruct (SignTx _); [|done]. intros [= <- _]. unfold purpose in P. unfold carries. simpl.
  assert (ti_GasLimit intent = ti_GasLimit t0) as -> by congruence. rewrite (proj2 (Z.eqb_neq _ _) Hgas).
  split_and!; congruence.
Qed.

(** Recording an attempt. *)
Lemma append_held n f tip h s0 : s0 <> StatusPending ->
  triple (held n) (manage w (fun now => AppendAttempt now id (new_attempt n f tip h now) s0)) (fun _ s => held n s).
Proof.
  intros Hs0 s (t & new & a & Hr & Hs & Hp & Hc & Ha). unfold manage, new_attempt.
  pose proof (AppendAttempt_at (w_now w (ps_calls s)) id n (Some (copyBig f)) (Some (copyBig tip)) h (w_now w (ps_calls s)) s0
    _ t (run_wf _ _ _ _ Hr) (Hclock _) (run_read _ _ _ _ Hr)) as Hop. cbv zeta in Hop.
  destruct (AppendAttempt _ _ _ _ _) as [r m']. destruct Hop as (Hwf' & t' & Hr' & P' & D' & Hst). simpl.
  destruct Hr as [Hw Hr P D Sn C]. assert (running t' new m' (ps_sent s)) as Hrun by (split; try done; congruence).
  destruct (IsTerminal _); [destruct Hst as [-> _]; by exists t, new, a|]. destruct Hst as (Hst & Hcur & _).
  exists t', new. eexists. split; [exact Hrun|]. split; [exact Hs|]. split; [congruence|]. by split.
Qed.
Lemma append_idle n f tip h s0 : s0 <> StatusPending ->
  triple idle (manage w (fun now => AppendAttempt now id (new_attempt n f tip h now) s0))
    (fun r s => match r with Ok _ => fresh_at n s | Err _ => idle s end).
Proof.
  intros Hs0 s (t & new & Hr & Hs). unfold manage, new_attempt.
  pose proof (AppendAttempt_at (w_now w (ps_calls s)) id n (Some (copyBig f)) (Some (copyBig tip)) h (w_now w (ps_calls s)) s0
    _ t (run_wf _ _ _ _ Hr) (Hclock _) (run_read _ _ _ _ Hr)) as Hop. cbv zeta in Hop.
  destruct (AppendAttempt _ _ _ _ _) as [r m']. destruct Hop as (Hwf' & t' & Hr' & P' & D' & Hst). simpl.
  destruct Hr as [Hw Hr P D Sn C]. assert (running t' new m' (ps_sent s)) as Hrun by (split; try done; congruence).
  destruct (IsTerminal _); [destruct Hst as (-> & e & ->); by exists t, new|]. destruct Hst as (Hst & Hcur & ->).
  exists t', new. eexists. split; [exact Hrun|]. split; [exact Hs|]. split; [congruence|]. by split.
Qed.

(** ** First broadcast *)
Definition broadcast_post (r : result goerr (option goerr)) (s : PState M) : Prop :=
  match r with
  | Ok None => exists n, held n s
  | Ok (Some _) => idle s
  | Err _ => live s
  end.
Lemma idle_live s : idle s -> live s.
Proof. by left. Qed.
Lemma held_live n s : held n s -> live s.
Proof. right. by exists n. Qed.
Hint Resolve idle_live held_live : core.

(** An outside call, and the answer to it, move nothing. *)
Lemma tick_keeps (J : PState M -> Prop) (Q : result goerr nat -> PState M -> Prop) :
  (forall s, J s -> J (mkPState (ps_mgr s) (ps_nonceFloor s) (S (ps_calls s)) (ps_sent s))) ->
  (forall n s, J s -> Q (Ok n) s) -> triple J tick Q.
Proof. intros HJ HQ s Hs. apply HQ, HJ, Hs. Qed.

Lemma broadcast_once_idle intent : about intent -> triple idle (broadcast_once cfg w intent) broadcast_post.
Proof.
  intros Hi. unfold broadcast_once. apply (triple_bind _ _ _ (fun _ => idle)); [by apply tick_keeps|intros k].
  apply (triple_bind _ _ _ (fun _ => idle)); [apply triple_lift; simpl; by eauto|intros pending].
  apply triple_get. intros s0 Hs0. set (n := if pending <? ps_nonceFloor s0 then ps_nonceFloor s0 else pending).
  apply (triple_pre _ _ idle); [|by intros ? ->]. cbv zeta.
  apply (triple_bind _ _ _ (fun _ => idle)); [by apply tick_keeps|intros k'].
  apply (triple_bind _ _ _ (fun _ => idle)); [apply triple_lift; simpl; by eauto|intros est].
  apply (triple_bind _ _ _ (fun signed s => idle s /\ carries cfg t0 signed.1 /\ tx_Nonce signed.1 = n)).
  { apply triple_lift; simpl; [|by eauto]. intros s [tx h] Hs Hsig. split; [done|]. by eapply signTx_carries. }
  intros [tx h]. apply triple_pure. intros [Hx Hn]. rewrite (about_id _ Hi).
  apply (triple_bind _ _ _ (fun _ => fresh_at n)).
  { apply triple_map_err. eapply triple_post; [by apply append_idle|]. intros [?|?] s Hs; simpl; [done|by apply idle_live]. }
  intros _. apply (triple_bind _ _ _ (fun r s => match r with
      | Ok _ => held n s | Err e => if bool_decide (ce_Class (Classify e) = ClassNoncePast) then idle s else held n s end)).
  { apply triple_observe. by apply send_fresh. }
  intros [[]|e].
  - apply (triple_bind _ _ _ (fun _ => held n)); [by intros s Hs|]. intros _.
    apply (triple_bind _ _ _ (fun _ => held n)); [|intros _; apply triple_ret; by exists n].
    apply triple_map_err. eapply triple_post; [by apply stable_held, gentle_SetStatus|]. intros [?|?] s Hs; simpl; by eauto.
  - case_bool_decide; [by apply triple_ret|]. apply triple_fail. simpl. by eauto.
Qed.

Lemma signAndBroadcast_idle intent : about intent ->
  triple idle (signAndBroadcast cfg w intent) (fun r s => match r with Ok _ => exists n, held n s | Err _ => live s end).
Proof.
  intros Hi. unfold signAndBroadcast. generalize maxNonceRetries. intros k. induction k as [|k IH]; simpl;
    (apply (triple_bind _ _ _ (fun o s => broadcast_post (Ok o) s));
      [eapply triple_post; [by apply broadcast_once_idle|]; by intros [[e|]|e] s Hs|]);
    intros [e|]; try (by apply triple_ret).
  - apply triple_fail. by left.
  - exact IH.
Qed.

(** ** Later broadcasts *)
Lemma send_successor_held intent prev f tip : about intent ->
  triple (held (at_Nonce prev)) (send_successor cfg w intent prev f tip) (fun _ s => held (at_Nonce prev) s).
Proof.
  intros Hi. unfold send_successor. set (n := at_Nonce prev).
  apply (triple_bind _ _ _ (fun signed s => held n s /\ carries cfg t0 signed.1 /\ tx_Nonce signed.1 = n)).
  { apply triple_lift; simpl; [|done]. intros s [tx h] Hs Hsig. split; [done|]. by eapply signTx_carries. }
  intros [tx h]. apply triple_pure. intros [Hx Hn]. rewrite (about_id _ Hi).
  apply (triple_bind _ _ _ (fun _ => held n)); [|intros _; by apply send_held].
  eapply triple_post; [by apply append_held|]. by intros [?|?] s Hs.
Qed.

Lemma replace_held intent prev : about intent ->
  triple (held (at_Nonce prev)) (replace cfg w intent prev) (fun _ s => held (at_Nonce prev) s).
Proof.
  intros Hi. unfold replace. apply (triple_bind _ _ _ (fun _ => held (at_Nonce prev))); [|intros base; by apply send_successor_held].
  unfold base_caps. destruct (_ || _); [|by apply triple_ret].
  apply (triple_bind _ _ _ (fun _ => held (at_Nonce prev))); [by apply tick_keeps|intros k].
  apply (triple_bind _ _ _ (fun _ => held (at_Nonce prev))); [by apply triple_lift|intros est]. by apply triple_ret.
Qed.

Lemma rebroadcast_held intent cur : about intent -> CurrentAttempt intent = Some cur ->
  triple (held (at_Nonce cur)) (rebroadcast cfg w intent) (fun _ s => held (at_Nonce cur) s).
Proof.
  intros Hi Hc. unfold rebroadcast. rewrite Hc. set (n := at_Nonce cur).
  apply (triple_bind _ _ _ (fun signed s => held n s /\ carries cfg t0 signed.1 /\ tx_Nonce signed.1 = n)).
  { apply triple_lift; simpl; [|done]. intros s [tx h] Hs Hsig. split; [done|]. by eapply signTx_carries. }
  intros [tx h]. apply triple_pure. intros [Hx Hn]. rewrite (about_id _ Hi).
  apply (triple_bind _ _ _ (fun _ => held n)); [apply triple_observe; by apply send_held|].
  intros [[]|e]; [|case_bool_decide; [|by apply triple_fail]]; by apply stable_held, gentle_SetStatus.
Qed.

(** ** The loop *)
Lemma handleSubmitErr_stable J intent e : stable J -> about intent ->
  triple J (handleSubmitErr w intent e) (fun _ s => J s).
Proof.
  intros HJ Hi. unfold handleSubmitErr. cbv zeta. rewrite (about_id _ Hi). destruct (IsPermanent e); [|by apply triple_ret].
  apply (triple_bind _ _ _ (fun _ => J)); [|intros _; by apply triple_ret].
  apply triple_observe. by apply HJ, gentle_MarkFailed.
Qed.
Lemma submitted_or_triple P J K intent (m : pact unit) : stable J -> about intent ->
  triple P m (fun r s => match r with Ok _ => K s | Err _ => J s end) ->
  triple P (submitted_or w intent m) (fun r s => match r with Ok Onward => K s | _ => J s end).
Proof.
  intros HJ Hi Hm. unfold submitted_or.
  apply (triple_bind _ _ _ (fun r s => match r with Ok _ => K s | Err _ => J s end)); [by apply triple_observe|].
  intros [[]|e]; [by apply triple_ret|]. apply (triple_bind _ _ _ (fun _ => J)).
  - eapply triple_post; [by apply handleSubmitErr_stable|]. by intros [?|?] s Hs.
  - intros [|]; by apply triple_ret.
Qed.
Lemma retry_after_triple J intent (m : pact unit) : stable J -> about intent ->
  triple J m (fun _ s => J s) -> triple J (retry_after w intent m) (fun _ s => J s).
Proof.
  intros HJ Hi Hm. unfold retry_after.
  apply (triple_bind _ _ _ (fun _ => J)); [by apply triple_observe|].
  intros [[]|e]; [by apply triple_ret|]. apply (triple_bind _ _ _ (fun _ => J)).
  - eapply triple_post; [by apply handleSubmitErr_stable|]. by intros [?|?] s Hs.
  - intros [|]; by apply triple_ret.
Qed.

(** Whatever the wait tells, a committed run stays at its nonce. *)
Lemma await_held n last_ : triple (held n) (await cfg w last_ id) (fun _ s => held n s).
Proof.
  unfold await. apply triple_get. intros s0 Hs0. pose proof Hs0 as (t & new & a & Hr & Hs & Hp & Hc & Ha).
  unfold Status. rewrite (run_read _ _ _ _ Hr), Hc. apply (triple_pre _ _ (held n)); [|by intros ? ->].
  pose proof (running_about _ _ _ _ Hr) as Hi. subst n.
  apply (triple_bind _ _ _ (fun _ => held (at_Nonce a))).
  { unfold waitWithTimeout. apply (triple_bind _ _ _ (fun _ => held (at_Nonce a))); [by apply tick_keeps|]. intros k. by apply triple_ret. }
  intros [[]|]; [| | | |by apply triple_ret].
  - apply (triple_bind _ _ _ (fun _ => held (at_Nonce a))); [|intros _; by apply triple_ret].
    apply triple_observe. by apply stable_held, gentle_MarkConfirmed.
  - apply (triple_bind _ _ _ (fun _ => held (at_Nonce a))); [|intros _; by apply triple_ret].
    apply triple_observe. by apply stable_held, gentle_MarkFailed.
  - apply retry_after_triple; [apply stable_held|done|]. by apply send_successor_held.
  - destruct last_.
    + apply (triple_bind _ _ _ (fun _ => held (at_Nonce a))); [|intros _; by apply triple_ret].
      apply triple_observe. by apply stable_held, gentle_MarkFailed.
    + apply retry_after_triple; [apply stable_held|done|]. by apply replace_held.
Qed.

Lemma iteration_held n last_ : triple (held n) (iteration cfg w last_ id) (fun _ s => held n s).
Proof.
  unfold iteration. apply triple_get. intros s0 Hs0. pose proof Hs0 as (t & new & a & Hr & Hs & Hp & Hc & Ha).
  unfold Status. rewrite (run_read _ _ _ _ Hr). apply (triple_pre _ _ (held n)); [|by intros ? ->].
  pose proof (running_about _ _ _ _ Hr) as Hi. destruct (IsTerminal _); [by apply triple_ret|].
  apply (triple_bind _ _ _ (fun _ => held n)).
  - unfold enter. destruct (ti_Status t); try done; try (by apply triple_ret). subst n.
    eapply triple_post; [apply (submitted_or_triple _ (held (at_Nonce a)) (held (at_Nonce a))); [apply stable_held|done|]|].
    + eapply triple_post; [by apply rebroadcast_held|]. by intros [?|?] s ?.
    + by intros [[]|?] s ?.
  - intros []; try (by apply triple_ret). by apply await_held.
Qed.

(** A run that has nothing in flight: what the first half brings in flight,
    the second waits for. *)
Lemma first_broadcast_live t last_ : about t ->
  triple idle (do! entered <- submitted_or w t (signAndBroadcast cfg w t);
               match entered with Onward => await cfg w last_ id | other => ret other end) (fun _ => live).
Proof.
  intros Hi. apply (triple_bind _ _ _ (fun st s => match st with Onward => exists n, held n s | _ => live s end)).
  - eapply triple_post; [apply (submitted_or_triple _ live (fun s => exists n, held n s)); [apply stable_live|done|by apply signAndBroadcast_idle]|].
    by intros [[]|?] s ?.
  - intros []; try (by apply triple_ret). cbv beta iota. apply triple_exists. intros n.
    eapply triple_post; [apply await_held|]. intros r s Hs. right. by exists n.
Qed.

Lemma iteration_live last_ : triple live (iteration cfg w last_ id) (fun _ s => live s).
Proof.
  apply triple_or; [|apply triple_exists; intros n; eapply triple_post; [apply iteration_held|intros r s Hs; right; by exists n]].
  intros s (t & new & Hr & Hs). pose proof (running_about _ _ _ _ Hr) as Hi.
  destruct (decide (ti_Status t = StatusPending)) as [Hp|Hp]; [|destruct (CurrentAttempt t) as [a|] eqn:Hc].
  - unfold iteration, Status, get, bind at 1. rewrite (run_read _ _ _ _ Hr), Hp. simpl. unfold enter. rewrite Hp.
    apply (first_broadcast_live t last_ Hi). by exists t, new.
  - right. exists (at_Nonce a). apply iteration_held. apply fresh_held. by exists t, new, a.
  - unfold iteration, Status, get, bind at 1. rewrite (run_read _ _ _ _ Hr). destruct (IsTerminal _) eqn:Ht; [left; by exists t, new|].
    unfold enter. destruct (ti_Status t); try done.
    + unfold rebroadcast. rewrite Hc. apply (first_broadcast_live t last_ Hi). by exists t, new.
    + unfold await, get, bind, ret, Status. rewrite (run_read _ _ _ _ Hr), Hc. left. by exists t, new.
    + unfold await, get, bind, ret, Status. rewrite (run_read _ _ _ _ Hr), Hc. left. by exists t, new.
    + unfold await, get, bind, ret, Status. rewrite (run_read _ _ _ _ Hr), Hc. left. by exists t, new.
Qed.

Lemma process_loop_keeps (J : PState M -> Prop) k :
  (forall last_, triple J (iteration cfg w last_ id) (fun _ s => J s)) -> triple J (process_loop cfg w k id) (fun _ s => J s).
Proof.
  intros HJ. induction k as [|k IH]; simpl; [by apply triple_ret|].
  apply (triple_bind _ _ _ (fun _ => J)); [eapply triple_post; [apply HJ|]; by intros [?|?] s Hs|].
  intros []; [by apply triple_ret|exact IH|exact IH].
Qed.

End run.

(** ** Costs: what a computation may add to the trace and to the calls *)
Definition costs {M A} (sends calls : nat) (m : st (PState M) goerr A) : Prop :=
  forall s, (length (ps_sent (m s).2) <= length (ps_sent s) + sends)%nat /\ (ps_calls (m s).2 <= ps_calls s + calls)%nat.

Create HintDb costs.

(** A computation that reports no error. *)
Definition total {S E A} (m : st S E A) : Prop := forall s, exists a, (m s).1 = Ok a.

Section costs.
Context `{Bolt M} `{TxSigner} (cfg : ProcessorConfig) (w : World) (id : string).
Open Scope act_scope.
Implicit Types intent : TxIntent.

Lemma costs_bind {A B} a b a' b' (m : st (PState M) goerr A) (k : A -> st (PState M) goerr B) :
  costs a' b' m -> (forall x, costs (a - a') (b - b') (k x)) -> (a' <= a)%nat -> (b' <= b)%nat -> costs a b (bind m k).
Proof.
  intros Hm Hk Ha Hb s. specialize (Hm s). unfold bind. destruct (m s) as [[x|e] s']; simpl in *; [|lia].
  specialize (Hk x s'). lia.
Qed.
Lemma costs_le {A} a b a' b' (m : st (PState M) goerr A) : costs a b m -> (a <= a')%nat -> (b <= b')%nat -> costs a' b' m.
Proof. intros Hm Ha Hb s. specialize (Hm s). lia. Qed.
(** Free of charge: [pure], errors, and the manager. *)
Lemma costs_ret {A} (x : A) : costs 0 0 (ret (S := PState M) (E := goerr) x).
Proof. intros s. simpl. lia. Qed.
Lemma costs_fail {A} e : costs 0 0 (fail (S := PState M) (A := A) e).
Proof. intros s. simpl. lia. Qed.
Lemma costs_lift {A E'} f (r : result E' A) : costs 0 0 (lift (S := PState M) f r).
Proof. destruct r; [apply costs_ret|apply costs_fail]. Qed.
Lemma costs_get : costs 0 0 (get (S := PState M) (E := goerr)).
Proof. intros s. simpl. lia. Qed.
Lemma costs_manage {A} (op : Z -> Manager M -> result goerr A * Manager M) : costs 0 0 (manage w op).
Proof. intros s. unfold manage. destruct (op _ _). simpl. lia. Qed.
Lemma costs_tick : costs 0 1 (tick (M := M)).
Proof. intros s. simpl. lia. Qed.
Lemma costs_send tx : costs 1 1 (send (M := M) w tx).
Proof. intros s. unfold send, bind, tick. simpl. destruct (w_SendTransaction _ _ _); simpl; rewrite length_app; simpl; lia. Qed.
Lemma costs_map_err {A} a b f (m : st (PState M) goerr A) : costs a b m -> costs a b (map_err f m).
Proof. intros Hm s. specialize (Hm s). unfold map_err. by destruct (m s) as [[x|e] s']. Qed.
Lemma costs_observe {A} a b (m : st (PState M) goerr A) : costs a b m -> costs a b (observe m).
Proof. intros Hm s. specialize (Hm s). unfold observe. by destruct (m s). Qed.

Lemma costs_update_floor z : costs 0 0 (update (E := goerr) (fun s : PState M => mkPState (ps_mgr s) z (ps_calls s) (ps_sent s))).
Proof. intros s. simpl. lia. Qed.
Hint Resolve costs_ret costs_fail costs_lift costs_get costs_manage costs_tick costs_send costs_map_err costs_observe
  costs_update_floor : costs.

(** Follow the code, paying each step out of what is left. *)
Ltac costs_leaf := eapply costs_le; [solve [eauto with costs]|lia|lia].
Ltac costs_auto := repeat (cbv zeta;
  match goal with
  | |- costs _ _ (bind _ _) => eapply costs_bind; [solve [eauto with costs]|intros ?|lia|lia]
  | |- costs _ _ (match ?x with _ => _ end) => destruct x
  | |- costs _ _ _ => costs_leaf
  end).

Lemma costs_broadcast_once intent : costs 1 3 (broadcast_once cfg w intent).
Proof. unfold broadcast_once. costs_auto. Qed.
Hint Resolve costs_broadcast_once : costs.
Lemma costs_signAndBroadcast intent : costs 4 12 (signAndBroadcast cfg w intent).
Proof. unfold signAndBroadcast, maxNonceRetries. cbn [broadcast_loop]. costs_auto. Qed.
Hint Resolve costs_signAndBroadcast : costs.
Lemma costs_rebroadcast intent : costs 4 12 (rebroadcast cfg w intent).
Proof. unfold rebroadcast. costs_auto. Qed.
Lemma costs_send_successor intent prev f t : costs 1 1 (send_successor cfg w intent prev f t).
Proof. unfold send_successor. costs_auto. Qed.
Hint Resolve costs_rebroadcast costs_send_successor : costs.
Lemma costs_base_caps prev : costs 0 1 (base_caps (M := M) w prev).
Proof. unfold base_caps. costs_auto. Qed.
Hint Resolve costs_base_caps : costs.
Lemma costs_replace intent prev : costs 1 2 (replace cfg w intent prev).
Proof. unfold replace. costs_auto. Qed.
Lemma costs_rebroadcastFromAttempt intent prev : costs 1 2 (rebroadcastFromAttempt cfg w intent prev).
Proof. unfold rebroadcastFromAttempt. costs_auto. Qed.
Lemma costs_handleSubmitErr intent e : costs 0 0 (handleSubmitErr (M := M) w intent e).
Proof. unfold handleSubmitErr. costs_auto. Qed.
Lemma costs_wait h : costs 0 1 (waitWithTimeout (M := M) w h).
Proof. unfold waitWithTimeout. costs_auto. Qed.
Hint Resolve costs_replace costs_rebroadcastFromAttempt costs_handleSubmitErr costs_wait : costs.
Lemma costs_submitted_or a b intent m : costs a b m -> costs a b (submitted_or (M := M) w intent m).
Proof. intros Hm. unfold submitted_or. costs_auto. Qed.
Lemma costs_retry_after a b intent m : costs a b m -> costs a b (retry_after (M := M) w intent m).
Proof. intros Hm. unfold retry_after. costs_auto. Qed.
Hint Resolve costs_submitted_or costs_retry_after : costs.
Lemma costs_enter intent : costs 4 12 (enter cfg w intent).
Proof. unfold enter. costs_auto. Qed.
Lemma costs_await last_ : costs 1 3 (await (M := M) cfg w last_ id).
Proof. unfold await. costs_auto. Qed.
Hint Resolve costs_enter costs_await : costs.
Lemma costs_iteration last_ : costs 5 15 (iteration (M := M) cfg w last_ id).
Proof. unfold iteration. costs_auto. Qed.
(** The errors of the steps are all looked at. *)
Lemma total_bind {A B} (m : st (PState M) goerr A) (k : A -> st (PState M) goerr B) :
  total m -> (forall x, total (k x)) -> total (bind m k).
Proof. intros Hm Hk s. destruct (Hm s) as [x Hx]. unfold bind. destruct (m s) as [r s']. simpl in Hx. subst r. apply Hk. Qed.
Lemma total_observe {A} (m : st (PState M) goerr A) : total (observe m).
Proof. intros s. unfold observe. destruct (m s). by eexists. Qed.
Lemma total_ret {A} (x : A) : total (ret (S := PState M) (E := goerr) x).
Proof. intros s. by eexists. Qed.
Lemma total_get : total (get (S := PState M) (E := goerr)).
Proof. intros s. by eexists. Qed.
Lemma total_tick : total (tick (M := M)).
Proof. intros s. by eexists. Qed.
Hint Resolve total_observe total_ret total_get total_tick : costs.
Ltac total_auto := repeat (cbv zeta;
  match goal with
  | |- total (bind _ _) => apply total_bind; [|intros ?]
  | |- total (match ?x with _ => _ end) => destruct x
  | |- total _ => solve [eauto with costs]
  end).
Lemma total_handleSubmitErr intent e : total (handleSubmitErr (M := M) w intent e).
Proof. unfold handleSubmitErr. total_auto. Qed.
Hint Resolve total_handleSubmitErr : costs.
Lemma total_submitted_or intent m : total (submitted_or (M := M) w intent m).
Proof. unfold submitted_or. total_auto. Qed.
Lemma total_retry_after intent m : total (retry_after (M := M) w intent m).
Proof. unfold retry_after. total_auto. Qed.
Lemma total_wait h : total (waitWithTimeout (M := M) w h).
Proof. unfold waitWithTimeout. total_auto. Qed.
Hint Resolve total_submitted_or total_retry_after total_wait : costs.
Lemma total_await last_ : total (await (M := M) cfg w last_ id).
Proof. unfold await. total_auto. Qed.
Hint Resolve total_await : costs.
Lemma total_iteration last_ : total (iteration (M := M) cfg w last_ id).
Proof. unfold iteration, enter. total_auto. Qed.
Hint Resolve total_iteration : costs.
Lemma total_process_loop k : total (process_loop (M := M) cfg w k id).
Proof. induction k as [|k IH]; simpl; total_auto. Qed.

Lemma costs_process_loop k : costs (5 * k) (15 * k) (process_loop (M := M) cfg w k id).
Proof.
  induction k as [|k IH]; simpl; [apply costs_ret|]. eapply costs_bind; [apply costs_iteration| |lia|lia].
  intros []; (eapply costs_le; [first [exact IH|apply costs_ret]|lia|lia]).
Qed.
End costs.

(** C23: a run of the processor ends, after at most 5 transactions sent and 15 outside calls for each of the
    [MaxReplacements + 1] iterations, whatever the node, the oracle and the receipts provider answer. *)
Theorem process_bounded `{Bolt M} `{TxSigner} (cfg : ProcessorConfig) (w : World) (id : string) (s : PState M) :
  let s' := (Process cfg w id s).2 in
  (Process cfg w id s).1 = Ok tt /\
  (length (ps_sent s') <= length (ps_sent s) + 5 * (cf_MaxReplacements cfg + 1))%nat /\
  (ps_calls s' <= ps_calls s + 15 * (cf_MaxReplacements cfg + 1))%nat.
Proof.
  cbv zeta. rewrite Nat.add_1_r. split; [|apply costs_process_loop].
  destruct (total_process_loop cfg w id (S (cf_MaxReplacements cfg)) s) as [[] Hok]. exact Hok.
Qed.

(** In one run of the processor on a stored intent, whatever the outside answers, every transaction sent does what
    the intent describes, and all of them have one nonce, except those the node refused because their nonce was
    already used; and where the intent was in flight before, that is the nonce of its current attempt.  So at most one
    of them is ever mined. *)
Theorem one_nonce_per_run `{Bolt M} `{TxSigner} (cfg : ProcessorConfig) (w : World) (id : string) (s : PState M) (t : TxIntent) :
  (forall n, w_now w n <> 0) -> wf_manager (ps_mgr s) -> read id (ps_mgr s) = Some t ->
  exists n new, ps_sent (Process cfg w id s).2 = ps_sent s ++ new /\
    Forall (fun x => carries cfg t x.1 /\ (tx_Nonce x.1 = n \/ stale x)) new /\
    (forall a, ti_Status t <> StatusPending -> CurrentAttempt t = Some a -> n = at_Nonce a).
Proof.
  intros Hclock Hwf Hr. pose proof (Hwf _ _ Hr) as Ht.
  assert (running cfg id t (ps_sent s) t [] (ps_mgr s) (ps_sent s)) as Hrun by (split; try done; by rewrite app_nil_r).
  destruct (decide (ti_Status t <> StatusPending /\ is_Some (CurrentAttempt t))) as [[Hp [a Ha]]|Hn].
  - assert (held cfg id t (ps_sent s) (at_Nonce a) s) as Hh by by exists t, [], a.
    destruct (process_loop_keeps cfg w id (held cfg id t (ps_sent s) (at_Nonce a)) (S (cf_MaxReplacements cfg))) with (s := s)
      as (t' & new & a' & [_ _ _ _ Hs Hc] & Hf & _); [intros b; apply iteration_held; try done; apply Ht|done|].
    exists (at_Nonce a), new. split; [exact Hs|]. split; [by apply Forall_and|]. intros b _ Hb. congruence.
  - assert (live cfg id t (ps_sent s) s) as Hl by (left; by exists t, []).
    pose proof (process_loop_keeps cfg w id (live cfg id t (ps_sent s)) (S (cf_MaxReplacements cfg))
      (fun b => iteration_live cfg w id t (ps_sent s) Hclock (wf_gas _ _ Ht) (wf_id _ _ Ht) b) s Hl) as Hl'.
    destruct Hl' as [(t' & new & [_ _ _ _ Hs Hc] & Hf)|(n & t' & new & a' & [_ _ _ _ Hs Hc] & Hf & _)].
    + exists 0, new. split; [exact Hs|]. split; [|by intros b Hp Hb; destruct Hn; rewrite Hb].
      apply Forall_and. split; [done|]. apply (Forall_impl _ _ _ Hf). by right.
    + exists n, new. split; [exact Hs|]. split; [by apply Forall_and|]. intros b Hp Hb. by destruct Hn; rewrite Hb.
Qed.

(** ** A cooperative outside *)

(** What the end of an intent reports about the attempt that was current. *)
Definition verdict (cfg : ProcessorConfig) (w : World) (t : TxIntent) (a : IntentAttempt) : Prop :=
  let answered o := exists k, judge (w_WaitConfirmed w k (at_SignedTxHash a)) = Some o in
  (ti_Status t = StatusConfirmed /\ answered waitConfirmed) \/
  (ti_Status t = StatusFailed /\ ti_FailedReason t = Some (reverted_reason (at_SignedTxHash a)) /\ answered waitReverted) \/
  (ti_Status t = StatusFailed /\ ti_FailedReason t = Some (exhausted_reason cfg (ti_ID t)) /\ answered waitTimeout).

(** The node and the oracle answer, the keystore signs, no wait is cancelled
    and no block is reorganised. *)
Record cooperative `{TxSigner} (w : World) : Prop := {
  co_clock : forall n, w_now w n <> 0;
  co_nonce : forall n, exists p, w_PendingNonceAt w n = Ok p;
  co_gas : forall n, exists g, w_Suggest w n = Ok g;
  co_sign : forall tx, exists hash, SignTx tx = Ok hash;
  co_send : forall n tx, w_SendTransaction w n tx = Ok tt;
  co_wait : forall n h, judge (w_WaitConfirmed w n h) <> None /\ judge (w_WaitConfirmed w n h) <> Some waitReorged;
}.

Section cooperative.
Context `{Bolt M} `{TxSigner} (cfg : ProcessorConfig) (w : World) (id : string) (Hw : cooperative w).
Open Scope act_scope.
Abbreviation pact := (st (PState M) goerr).

Definition stored_as (Q : TxIntent -> Prop) (s : PState M) : Prop :=
  wf_manager (ps_mgr s) /\ exists t, read id (ps_mgr s) = Some t /\ Q t.
Definition unfinished : PState M -> Prop := stored_as (fun t => IsTerminal (ti_Status t) = false).
Definition carried : PState M -> Prop := stored_as (fun t => IsTerminal (ti_Status t) = false /\ is_Some (CurrentAttempt t)).
Definition flying : PState M -> Prop :=
  stored_as (fun t => (ti_Status t = StatusSubmitted \/ ti_Status t = StatusMined) /\ is_Some (CurrentAttempt t)).
Definition ended : PState M -> Prop := stored_as (fun t => exists a, CurrentAttempt t = Some a /\ verdict cfg w t a).

Abbreviation succeeds K := (fun r s => r = Ok tt /\ K s).

Lemma carried_unfinished s : carried s -> unfinished s.
Proof. intros (Hwf & t & Hr & Ht & _). split; [done|by exists t]. Qed.
Lemma flying_carried s : flying s -> carried s.
Proof. intros (Hwf & t & Hr & [Ht|Ht] & Ha); (split; [done|exists t; by rewrite Ht]). Qed.

(** A step that succeeds and the rest. *)
Lemma triple_seq {A B} P K (m : pact A) (k : A -> pact B) Q :
  triple P m (fun r s => exists a, r = Ok a /\ K a s) -> (forall a, triple (K a) (k a) Q) -> triple P (bind m k) Q.
Proof. intros Hm Hk. apply (triple_bind _ _ _ K); [|done]. eapply triple_post; [done|]. by intros r s (a & -> & Ha). Qed.
Lemma lift_succeeds {A E'} (P : PState M -> Prop) (f : E' -> goerr) (r : result E' A) : (exists a, r = Ok a) -> triple P (lift f r) (fun o s => exists a, o = Ok a /\ P s).
Proof. intros [a ->] s Hs. by exists a. Qed.
Lemma tick_succeeds (Q : TxIntent -> Prop) : triple (stored_as Q) tick (fun r s => exists n, r = Ok n /\ stored_as Q s).
Proof. intros s Hs. by eexists. Qed.
Lemma send_succeeds (Q : TxIntent -> Prop) tx : triple (stored_as Q) (send w tx) (succeeds (stored_as Q)).
Proof. intros s Hs. unfold send, bind, tick. simpl. by rewrite (co_send _ Hw). Qed.
Lemma sign_succeeds intent n f t : exists x, signTx cfg intent n f t = Ok x.
Proof. unfold signTx. edestruct (co_sign _ Hw) as [hash ->]. by eexists. Qed.
Lemma append_succeeds n f tip h s0 : IsTerminal s0 = false ->
  triple unfinished (manage w (fun now => AppendAttempt now id (new_attempt n f tip h now) s0))
    (succeeds (stored_as (fun t => ti_Status t = s0 /\ is_Some (CurrentAttempt t)))).
Proof.
  intros Hs0 s (Hwf & t & Hr & Ht). unfold manage, new_attempt.
  pose proof (AppendAttempt_at (w_now w (ps_calls s)) id n (Some (copyBig f)) (Some (copyBig tip)) h (w_now w (ps_calls s)) s0
    _ t Hwf (co_clock _ Hw _) Hr) as Hop. cbv zeta in Hop. rewrite Ht in Hop.
  destruct (AppendAttempt _ _ _ _ _) as [r m']. destruct Hop as (Hwf' & t' & Hr' & _ & _ & Hst & Hc & ->). split; [done|].
  split; [done|]. exists t'. by rewrite Hc.
Qed.
Lemma submitted_flies : triple carried (manage w (fun now => SetStatus now id StatusSubmitted)) (succeeds flying).
Proof.
  intros s (Hwf & t & Hr & Ht & Hc). unfold manage.
  pose proof (SetStatus_at (w_now w (ps_calls s)) id StatusSubmitted _ t Hwf (co_clock _ Hw _) Hr) as Hop. rewrite Ht in Hop.
  destruct (SetStatus _ _ _ _) as [r m']. destruct Hop as (Hwf' & t' & Hr' & Hk & Hst & ->). split; [done|].
  split; [done|]. exists t'. split; [done|]. rewrite (kept_current _ _ Hk). split; [by left|done].
Qed.

Lemma signAndBroadcast_flies intent : ti_ID intent = id -> triple unfinished (signAndBroadcast cfg w intent) (succeeds flying).
Proof.
  intros Hid. unfold signAndBroadcast, maxNonceRetries. cbn [broadcast_loop]. apply (triple_bind _ _ _ (fun o s => o = None /\ flying s)).
  2: { intros [e|]; [by intros s [? _]|]. intros s [_ Hs]. by split. }
  unfold broadcast_once. cbv zeta. rewrite Hid.
  apply (triple_seq _ (fun _ => unfinished)); [by apply tick_succeeds|intros k].
  apply (triple_seq _ (fun _ => unfinished)); [by apply lift_succeeds, Hw|intros p].
  apply triple_get. intros s0 Hs0. apply (triple_pre _ _ unfinished); [|by intros ? ->].
  apply (triple_seq _ (fun _ => unfinished)); [by apply tick_succeeds|intros k'].
  apply (triple_seq _ (fun _ => unfinished)); [by apply lift_succeeds, Hw|intros g].
  apply (triple_seq _ (fun _ => unfinished)); [by apply lift_succeeds, sign_succeeds|intros [tx h]].
  apply (triple_seq _ (fun _ => carried)).
  { apply triple_map_err. eapply triple_post; [by apply append_succeeds|]. intros r s (-> & Hwf & t & Hr & Ht & Hc).
    exists tt. split; [done|]. split; [done|]. exists t. by rewrite Ht. }
  intros _. apply (triple_seq _ (fun r s => carried s /\ r = Ok tt)).
  { apply triple_observe. eapply triple_post; [by apply send_succeeds|]. intros r s [-> Hs]. by eexists. }
  intros r. apply triple_pure. intros ->.
  apply (triple_seq _ (fun _ => carried)); [intros s Hs; by exists tt|intros _].
  apply (triple_seq _ (fun _ => flying)); [|intros _; by apply triple_ret].
  apply triple_map_err. eapply triple_post; [by apply submitted_flies|]. intros r s [-> Hs]. by exists tt.
Qed.

Lemma send_successor_flies intent prev f tip : ti_ID intent = id ->
  triple flying (send_successor cfg w intent prev f tip) (succeeds flying).
Proof.
  intros Hid. unfold send_successor. rewrite Hid.
  apply (triple_seq _ (fun _ => flying)); [by apply lift_succeeds, sign_succeeds|intros [tx h]].
  apply (triple_seq _ (fun _ => flying)); [|intros _; by apply send_succeeds].
  apply (triple_pre _ _ unfinished); [|by intros s Hs; apply carried_unfinished, flying_carried].
  eapply triple_post; [by apply append_succeeds|]. intros r s (-> & Hwf & t & Hr & Ht & Hc). exists tt. split; [done|].
  split; [done|]. exists t. split; [done|]. split; [by left|done].
Qed.
Lemma replace_flies intent prev : ti_ID intent = id -> triple flying (replace cfg w intent prev) (succeeds flying).
Proof.
  intros Hid. unfold replace. apply (triple_seq _ (fun _ => flying)); [|intros b; by apply send_successor_flies].
  unfold base_caps. destruct (_ || _); [|intros s Hs; by eexists].
  apply (triple_seq _ (fun _ => flying)); [by apply tick_succeeds|intros k].
  apply (triple_seq _ (fun _ => flying)); [by apply lift_succeeds, Hw|intros g]. intros s Hs. by eexists.
Qed.
Lemma rebroadcast_flies intent : ti_ID intent = id -> is_Some (CurrentAttempt intent) ->
  triple carried (rebroadcast cfg w intent) (succeeds flying).
Proof.
  intros Hid [cur Hc]. unfold rebroadcast. rewrite Hc, Hid.
  apply (triple_seq _ (fun _ => carried)); [by apply lift_succeeds, sign_succeeds|intros [tx h]].
  apply (triple_seq _ (fun r s => carried s /\ r = Ok tt)).
  { apply triple_observe. eapply triple_post; [by apply send_succeeds|]. intros r s [-> Hs]. by eexists. }
  intros r. apply triple_pure. intros ->. by apply submitted_flies.
Qed.

Lemma submitted_or_flies P intent m : triple P m (succeeds flying) ->
  triple P (submitted_or w intent m) (fun r s => exists o, r = Ok o /\ flying s /\ o = Onward).
Proof.
  intros Hm. unfold submitted_or. apply (triple_seq _ (fun r s => flying s /\ r = Ok tt)).
  { apply triple_observe. eapply triple_post; [done|]. intros r s [-> Hs]. by eexists. }
  intros r. apply triple_pure. intros ->. apply triple_ret. intros s Hs. by eexists.
Qed.
Lemma retry_after_flies intent m : triple flying m (succeeds flying) ->
  triple flying (retry_after w intent m) (fun r s => r = Ok Again /\ flying s).
Proof.
  intros Hm. unfold retry_after. apply (triple_seq _ (fun r s => flying s /\ r = Ok tt)).
  { apply triple_observe. eapply triple_post; [done|]. intros r s [-> Hs]. by eexists. }
  intros r. apply triple_pure. intros ->. by apply triple_ret.
Qed.

(** The statuses the processor drives. *)
Definition drivable (t : TxIntent) : Prop :=
  ti_Status t = StatusPending \/
  (ti_Status t = StatusSigned \/ ti_Status t = StatusSubmitted \/ ti_Status t = StatusMined) /\ is_Some (CurrentAttempt t).

Lemma enter_flies t : ti_ID t = id -> drivable t -> triple (stored_as (eq t)) (enter cfg w t)
  (fun r s => exists o, r = Ok o /\ flying s /\ o = Onward).
Proof.
  intros Hid Hd. unfold enter.
  assert (forall s, IsTerminal (ti_Status t) = false -> stored_as (eq t) s -> unfinished s) as Hu
    by (intros s Ht (Hwf & u & Hr & <-); split; [done|by exists t]).
  destruct Hd as [Hp|[[Hp|[Hp|Hp]] Hc]]; rewrite Hp in *.
  - apply submitted_or_flies. eapply triple_pre; [by apply signAndBroadcast_flies|]. intros s. by apply Hu.
  - apply submitted_or_flies. eapply triple_pre; [by apply rebroadcast_flies|]. intros s (Hwf & u & Hr & <-).
    split; [done|]. exists t. by rewrite Hp.
  - apply triple_ret. intros s (Hwf & u & Hr & <-). eexists. split; [done|]. split; [|done]. split; [done|]. exists t. rewrite Hp. auto.
  - apply triple_ret. intros s (Hwf & u & Hr & <-). eexists. split; [done|]. split; [|done]. split; [done|]. exists t. rewrite Hp. auto.
Qed.

(** The marks at the end. *)
Lemma confirmed_ends t a : CurrentAttempt t = Some a -> (ti_Status t = StatusSubmitted \/ ti_Status t = StatusMined) ->
  (exists k, judge (w_WaitConfirmed w k (at_SignedTxHash a)) = Some waitConfirmed) ->
  triple (stored_as (eq t)) (run! observe (manage w (fun now => MarkConfirmed now id)); ret Stop)
    (fun r s => r = Ok Stop /\ ended s).
Proof.
  intros Hc Hst Hk s (Hwf & u & Hr & <-). unfold bind, observe, manage.
  pose proof (MarkConfirmed_at (w_now w (ps_calls s)) id _ t Hwf (co_clock _ Hw _) Hr) as Hop.
  destruct (MarkConfirmed _ _ _) as [r m']. destruct Hop as (Hwf' & t' & Hr' & Hkt & _ & Hst').
  split; [done|]. split; [done|]. exists t'. split; [done|]. exists a. rewrite (kept_current _ _ Hkt). split; [done|].
  left. split; [|done]. apply Hst'. tauto.
Qed.
Lemma failed_ends t a reason : CurrentAttempt t = Some a -> IsTerminal (ti_Status t) = false ->
  (forall t', ti_ID t' = ti_ID t -> ti_Status t' = StatusFailed -> ti_FailedReason t' = Some (uncaused reason) -> verdict cfg w t' a) ->
  triple (stored_as (eq t)) (run! observe (manage w (fun now => MarkFailed now id reason)); ret Stop)
    (fun r s => r = Ok Stop /\ ended s).
Proof.
  intros Hc Hst Hk s (Hwf & u & Hr & <-). unfold bind, observe, manage.
  pose proof (MarkFailed_at (w_now w (ps_calls s)) id reason _ t Hwf (co_clock _ Hw _) Hr) as Hop. rewrite Hst in Hop.
  destruct (MarkFailed _ _ _ _) as [r m']. destruct Hop as (Hwf' & t' & Hr' & Hkt & Hs' & Hf' & _).
  split; [done|]. split; [done|]. exists t'. split; [done|]. exists a. rewrite (kept_current _ _ Hkt). split; [done|]. apply Hk; [|done|done].
  destruct Hkt as [P _]. unfold purpose in P. congruence.
Qed.

Definition progress (last_ : bool) (r : result goerr step) (s : PState M) : Prop :=
  (r = Ok Stop /\ ended s) \/ (last_ = false /\ r = Ok Again /\ flying s).

Lemma await_progress last_ : triple flying (await cfg w last_ id) (progress last_).
Proof.
  unfold await. apply triple_get. intros s0 (Hwf & t & Hr & Hst & [a Hc]). unfold Status. rewrite Hr, Hc.
  assert (IsTerminal (ti_Status t) = false) as Ht by by destruct Hst as [-> | ->].
  assert (ti_ID t = id) as Hid by apply (Hwf _ _ Hr).
  apply (triple_pre _ _ (stored_as (eq t))); [|intros s ->; split; [done|by exists t]].
  apply (triple_seq _ (fun o s => stored_as (eq t) s /\ exists k, o = judge (w_WaitConfirmed w k (at_SignedTxHash a)))).
  { unfold waitWithTimeout. apply (triple_seq _ (fun _ => stored_as (eq t))); [apply tick_succeeds|]. intros k.
    apply triple_ret. intros s Hs. eexists. split; [done|]. split; [done|]. by exists k. }
  intros o. apply triple_pure. intros [k Hk].
  assert (forall s, stored_as (eq t) s -> flying s) as Hfl
    by (intros s (Hwf' & u & Hu & <-); split; [done|]; exists t; by rewrite Hc).
  destruct (co_wait _ Hw k (at_SignedTxHash a)) as [Hn Hr']. rewrite <- Hk in Hn, Hr'. destruct o as [[]|]; try done.
  - eapply triple_post; [apply (confirmed_ends t a); by eauto|]. by left.
  - eapply triple_post; [apply (failed_ends t a); [done|done|]|by left]. intros t' _ Hs Hf. right. left. by eauto.
  - destruct last_.
    + eapply triple_post; [apply (failed_ends t a); [done|done|]|by left]. intros t' Hi Hs Hf. right. right. rewrite Hi, Hid. by eauto.
    + eapply triple_pre; [|exact Hfl]. eapply triple_post; [by apply retry_after_flies, replace_flies|]. by right.
Qed.

Lemma iteration_progress last_ : triple (stored_as drivable) (iteration cfg w last_ id) (progress last_).
Proof.
  unfold iteration. apply triple_get. intros s0 (Hwf & t & Hr & Hd). unfold Status. rewrite Hr.
  assert (IsTerminal (ti_Status t) = false) as -> by by destruct Hd as [-> | [[-> | [-> | ->]] _]].
  apply (triple_pre _ _ (stored_as (eq t))); [|intros s ->; split; [done|by exists t]].
  apply (triple_seq _ (fun o s => flying s /\ o = Onward)); [by apply enter_flies; [apply (Hwf _ _ Hr)|]|].
  intros o. apply triple_pure. intros ->. apply await_progress.
Qed.

Lemma process_loop_ends k : triple (stored_as drivable) (process_loop cfg w (S k) id) (fun _ => ended).
Proof.
  induction k as [|k IH]; cbn [process_loop].
  - rewrite (bool_decide_true (0%nat = 0%nat)) by done.
    apply (triple_bind _ _ _ (fun o s => o = Stop /\ ended s)); [|intros o s [-> Hs]; exact Hs].
    eapply triple_post; [apply iteration_progress|]. by intros r s [[-> Hs]|[? _]].
  - rewrite (bool_decide_false (S k = 0%nat)) by done.
    apply (triple_bind _ _ _ (fun o s => (o = Stop /\ ended s) \/ (o = Again /\ flying s))).
    + eapply triple_post; [apply iteration_progress|]. intros r s [[-> Hs]|(_ & -> & Hs)]; [by left|by right].
    + intros o s [[-> Hs]|[-> (Hwf & t & Hr & Ht & Hc)]]; [exact Hs|]. apply IH. split; [done|]. exists t.
      split; [done|]. right. split; [|done]. tauto.
Qed.
End cooperative.

(** C22: while the node, the oracle and the keystore answer, no wait is cancelled and no block is reorganised, one run of
    the processor brings a pending or in-flight intent to its end, and the end tells the truth about the current
    attempt: confirmed only if the receipts provider confirmed that very transaction, failed as reverted only if it
    reported it reverted, and failed as exhausted only if waiting for it timed out. *)
Theorem cooperative_run_ends `{Bolt M} `{TxSigner} (cfg : ProcessorConfig) (w : World) (id : string) (s : PState M) (t : TxIntent) :
  cooperative w -> wf_manager (ps_mgr s) -> read id (ps_mgr s) = Some t -> drivable t ->
  exists t' a, read id (ps_mgr (Process cfg w id s).2) = Some t' /\ IsTerminal (ti_Status t') = true /\
    CurrentAttempt t' = Some a /\ verdict cfg w t' a.
Proof.
  intros Hw Hwf Hr Hd. destruct (process_loop_ends cfg w id Hw (cf_MaxReplacements cfg) s) as (_ & t' & Hr' & a & Hc & Hv).
  - split; [done|]. by exists t.
  - exists t', a. split_and!; [done| |done|done]. by destruct Hv as [[-> _]|[[-> _]|[-> _]]].
Qed.

(** Although [Process] is to drive an intent to a terminal state, a run during which the node answers no nonce
    query leaves a pending intent pending: nothing is sent or recorded, and nothing of this process drives it again. *)
Theorem outage_abandons_intent `{Bolt M} `{TxSigner} (cfg : ProcessorConfig) (w : World) (id : string) (s : PState M) (t : TxIntent) :
  (forall n, exists e, w_PendingNonceAt w n = Err e) -> read id (ps_mgr s) = Some t -> ti_Status t = StatusPending ->
  let s' := (Process cfg w id s).2 in
  ps_mgr s' = ps_mgr s /\ ps_sent s' = ps_sent s /\ IsTerminal (ti_Status t) = false.
Proof.
  intros Hw Hr Ht. cbv zeta. rewrite Ht. unfold Process. generalize (S (cf_MaxReplacements cfg)). intros k.
  enough (forall s', ps_mgr s' = ps_mgr s -> ps_sent s' = ps_sent s ->
    ps_mgr (process_loop cfg w k id s').2 = ps_mgr s /\ ps_sent (process_loop cfg w k id s').2 = ps_sent s) as Hk
    by (destruct (Hk s eq_refl eq_refl); by split).
  induction k as [|k IH]; intros s' Hm Hs; [done|]. cbn [process_loop]. unfold bind.
  assert (iteration cfg w (bool_decide (k = 0%nat)) id s' =
          (Ok Again, mkPState (ps_mgr s') (ps_nonceFloor s') (S (ps_calls s')) (ps_sent s'))) as ->; [|by apply IH].
  unfold iteration, get, bind at 1, Status. rewrite Hm, Hr, Ht. unfold enter, submitted_or, signAndBroadcast, maxNonceRetries.
  rewrite Ht. cbn [broadcast_loop]. unfold broadcast_once, tick. destruct (Hw (ps_calls s')) as [e He].
  unfold bind, observe, lift, fail, ret. change (IsTerminal StatusPending) with false. cbn -[read Classify]. rewrite He. cbn. by rewrite <- Hm.
Qed.

(** ** Concrete runs *)
#[local] Instance demo_signer : TxSigner := {| SignTx tx := Ok (sha256 (big_bytes (tx_GasFeeCap tx))) |}.
Definition demo_cfg : ProcessorConfig := mkProcessorConfig 2 20 42161 500000.
Definition demo_start : PState (gmap string) := mkPState (mrun (mkManager ∅ ∅) [(1, OpSubmit demo_params)]) 0 0 [].

(** The node refuses a replacement of nonce 7 as used up, because the first
    transaction was mined meanwhile, which the receipts provider knows from
    the fifth outside call on. *)
Definition mined_meanwhile : World := mkWorld
  (fun n => 100 + Z.of_nat n)
  (fun n => Ok (if (n <=? 4)%nat then 7 else 8))
  (fun _ => Ok (100, 10))
  (fun _ tx => if (tx_Nonce tx =? 7) && negb (tx_GasFeeCap tx =? 100) then Err (GPlain "nonce too low") else Ok tt)
  (fun n hash => if (4 <=? n)%nat && bool_decide (hash = sha256 (big_bytes 100)) then AnswerReceipt (Some (mkReceipt false 1 true)) else AnswerError).

Definition after_race : PState (gmap string) := (Process demo_cfg mined_meanwhile demo_intent demo_start).2.
Definition after_resubmission : PState (gmap string) :=
  (Process demo_cfg mined_meanwhile demo_intent
     (mkPState (Resubmit 200 demo_intent "data" (ps_mgr after_race)).2 (ps_nonceFloor after_race) (ps_calls after_race)
        (ps_sent after_race))).2.

(** An intent whose first transaction is mined while a replacement for it is being sent is reported failed: the
    refusal of the replacement as using a used nonce, which the code takes to mean that the original was mined, is
    recorded as the intent's failure, and the recorded earlier attempt is not looked at again, although the receipts
    provider would confirm it.  Failed, the intent may be resubmitted, and the same call is then accepted a second
    time, at the next nonce. *)
Theorem replaced_winner_reported_failed :
  (forall n, (4 <= n)%nat -> w_WaitConfirmed mined_meanwhile n (sha256 (big_bytes 100)) = AnswerReceipt (Some (mkReceipt false 1 true))) /\
  option_map (fun t => (ti_Status t, ce_Class <$> ti_FailedReason t, trail (ti_Attempts t))) (read demo_intent (ps_mgr after_race)) =
    Some (StatusFailed, Some ClassNoncePast, [(7, sha256 (big_bytes 100)); (7, sha256 (big_bytes 120))]) /\
  (fun x => (tx_Nonce x.1, tx_Data x.1, x.2)) <$> ps_sent after_resubmission =
    [(7, "data", None); (7, "data", Some ClassNoncePast); (8, "data", None)] /\
  option_map ti_Status (read demo_intent (ps_mgr after_resubmission)) = Some StatusConfirmed.
Proof.
  split; [|split; [vm_refl|split; vm_refl]]. intros n Hn. cbn [w_WaitConfirmed mined_meanwhile].
  by rewrite (proj2 (Nat.leb_le 4 n) Hn), bool_decide_true.
Qed.

(** *** Inputs at which the theorems apply *)
Lemma demo_start_wf : wf_manager (ps_mgr demo_start).
Proof.
  apply (mrun_advances [(1, OpSubmit demo_params)] (mkManager ∅ ∅)); [|by repeat constructor].
  intros i t. unfold read. simpl. by rewrite lookup_empty.
Qed.
Lemma demo_start_pending : read demo_intent (ps_mgr demo_start) = Some (new_intent 1 demo_params StatusPending []).
Proof. vm_refl. Qed.

Lemma one_nonce_per_run_witness :
  exists n new, ps_sent after_race = new /\
    Forall (fun x => carries demo_cfg (new_intent 1 demo_params StatusPending []) x.1 /\ (tx_Nonce x.1 = n \/ stale x)) new.
Proof.
  destruct (one_nonce_per_run demo_cfg mined_meanwhile demo_intent demo_start _
    ltac:(intros n; cbn [w_now mined_meanwhile]; lia) demo_start_wf demo_start_pending) as (n & new & Hs & Hf & _).
  exists n, new. split; [exact Hs|exact Hf].
Defined.

(** A node that accepts and confirms the second attempt. *)
Definition helpful : World := mkWorld (fun n => 100 + Z.of_nat n) (fun _ => Ok 7) (fun _ => Ok (100, 10)) (fun _ _ => Ok tt)
  (fun _ hash => if bool_decide (hash = sha256 (big_bytes 120)) then AnswerReceipt (Some (mkReceipt false 1 true)) else AnswerError).
Lemma helpful_cooperative : cooperative helpful.
Proof.
  split; cbn [w_now w_PendingNonceAt w_Suggest w_SendTransaction w_WaitConfirmed helpful SignTx demo_signer]; try done.
  - intros n. lia.
  - intros n. by eexists.
  - intros n. by eexists.
  - intros tx. by eexists.
  - intros n h. by case_bool_decide.
Qed.

Lemma cooperative_run_ends_witness :
  option_map ti_Status (read demo_intent (ps_mgr (Process demo_cfg helpful demo_intent demo_start).2)) = Some StatusConfirmed /\
  exists t a, read demo_intent (ps_mgr (Process demo_cfg helpful demo_intent demo_start).2) = Some t /\
    CurrentAttempt t = Some a /\ verdict demo_cfg helpful t a.
Proof.
  split; [vm_refl|].
  destruct (cooperative_run_ends demo_cfg helpful demo_intent demo_start _ helpful_cooperative demo_start_wf demo_start_pending)
    as (t & a & Hr & _ & Hc & Hv); [by left|]. exists t, a. split; [exact Hr|split; [exact Hc|exact Hv]].
Defined.

(** A node that answers nothing. *)
Definition unreachable : World := mkWorld (fun n => 100 + Z.of_nat n) (fun _ => Err (GPlain "connection refused"))
  (fun _ => Ok (100, 10)) (fun _ _ => Ok tt) (fun _ _ => AnswerError).
Lemma outage_abandons_intent_witness :
  ps_mgr (Process demo_cfg unreachable demo_intent demo_start).2 = ps_mgr demo_start.
Proof.
  refine (proj1 (outage_abandons_intent demo_cfg unreachable demo_intent demo_start _ _ demo_start_pending _)); [|done].
  intros n. eexists. reflexivity.
Defined.
