(* ===== verification/Sender.v ===== *)
(** * The payer daemon's handlers

    payment-daemon/internal/service/sender (sender.go, admin.go): signing
    spend authorizations and minting payments on the durable mint records,
    nonce watermarks and stream id of the store, with the in-memory cache of
    ticket sessions.

    The state of the service is [SenderState]; a handler is a computation [act]
    on it that may fail and keeps what it did before failing.  What the world
    answers during one call (clock, chain, payee) is the record [Env]; the
    number of fetches made so far selects the payee's next answer.  The trace
    [sn_signed] lists what the keystore signed.  The store, the fetcher
    and the broker are configured.  Locks order the calls the model runs one
    after the other; logging and metrics are left out. *)
From S2P Require Import Prelude.
From S2P Require Import GoBytes.
From S2P Require Import GoCodecs.
From S2P Require Import GoStrings.
From S2P Require Import Actions.
From S2P Require Import Bolt.
From S2P Require Import Ledger.
From S2P Require Import Billing.
From S2P Require Import Nonces.
From S2P Require Import Mints.
From S2P Require Import Fences.
From S2P Require Import Limits.
From S2P Require Import Tickets.
From S2P Require Import Receiver.
From S2P Require Import Types.
From S2P Require Import Spendauth.
From Stdlib Require Import Ascii.

Definition maxTicketsPerPayment : Z := MaxSenderNonces.
Definition maxMintRequestIDBytes : Z := 128.
Definition validityPeriodTTL : Z := 30 * 10 ^ 9.

(** ** Messages *)
Record FundingIntent := mkFundingIntent {
  fi_EstimatedUnits : Z;
  fi_FundedValueWei : option string;
  fi_MaxTotalUnits : Z;
}.
Record AccountFundingIntent := mkAccountFundingIntent {
  af_WholesaleAccountId : string;
  af_TargetAvailableWei : option string;
  af_ObservedAvailableWei : option string;
  af_SettlementDomainId : string;
}.
Record CreatePaymentRequest := mkCreatePaymentRequest {
  cq_Recipient : string;
  cq_TicketParamsBaseUrl : string;
  cq_AcceptedPrice : option AcceptedPrice;
  cq_Funding : option FundingIntent;
  cq_MintRequestId : string;
  cq_ExpectedTicketStreamId : string;
  cq_AccountFunding : option AccountFundingIntent;
}.
Record CreatePaymentResponse := mkCreatePaymentResponse {
  cr_PaymentBytes : string;
  cr_TicketsCreated : Z;
  cr_ExpectedValue : option string;
  cr_FundedValueWei : option string;
  cr_AcceptedQuoteRef : option QuoteRef;
  cr_WorkId : string;
  cr_PredecessorWorkId : string;
  cr_CreationRound : Z;
  cr_ExpiresAfterRound : Z;
  cr_TicketValidityPeriod : Z;
  cr_TicketValidityPeriodObservedAt : string;
  cr_AccountShortfallWei : option string;
}.
Record CreateSpendAuthorizationRequest := mkCreateAuthRequest {
  sq_WholesaleAccountId : string;
  sq_Payee : string;
  sq_AuthorizationId : string;
  sq_RequestId : string;
  sq_SessionId : string;
  sq_Protocol : string;
  sq_AcceptedPrice : option AcceptedPrice;
  sq_MaxDebitWei : string;
  sq_MaxTotalUnits : Z;
  sq_NotBefore : string;
  sq_ExpiresAt : string;
  sq_RequestDigest : string;
  sq_CallerPublicKey : string;
  sq_Revision : Z;
  sq_PredecessorAuthorizationId : string;
  sq_BrokerUri : string;
  sq_ChainId : Z;
  sq_Denomination : string;
  sq_SettlementDomainId : string;
}.

(** The sender's view of its deposit; [None] is a [nil] amount. *)
Record SenderInfo := mkSenderInfo {
  si_Deposit : option Z;
  si_Reserve : option (option Z);
  si_WithdrawRound : Z;
}.

(** What the code calls of protobuf, the keystore, go-ethereum and net/url. *)
Class PayerWire := {
  marshal_payment : pb_Payment -> option string;
  marshal_price : option AcceptedPrice -> option string;
  marshal_funding : option FundingIntent -> option string;
  marshal_account_funding : option AccountFundingIntent -> option string;
  (** [protojson] of a quote reference. *)
  json_quote : QuoteRef -> option string;
  parse_quote : string -> option QuoteRef;
  (** The keystore. *)
  ks_Address : string;
  ks_Sign : string -> option string;
  (** [DecompressPubkey] for 33 bytes, [UnmarshalPubkey] for 65. *)
  valid_pubkey : string -> bool;
  (** [identity.BrokerURI]. *)
  BrokerURI : string -> option string;
}.

(** ** Parsing a request *)
Record acceptedPriceInput := mkAcceptedPriceInput {
  ai_PricePerUnitWei : Z;
  ai_UnitsPerPrice : Z;
  ai_WorkUnitName : string;
  ai_QuoteRef : QuoteRef;
  ai_CapabilityName : string;
  ai_Offering : string;
}.
Record fundingIntentInput := mkFundingIntentInput {
  fn_estimatedUnits : Z;
  fn_fundedValueWei : Z;
}.

Definition parseBigUInt (field : string) (v : option string) : result string Z :=
  match v with
  | None => Err (field +:+ " is required")
  | Some b => if 32 <? len b then Err (field +:+ " exceeds uint256 size") else Ok (be_Z b)
  end.

Definition parseAcceptedPrice (p : option AcceptedPrice) : result string acceptedPriceInput :=
  match p with
  | None => Err "accepted_price is required"
  | Some p =>
      if blank (ap_Capability p) then Err "capability is empty"
      else if blank (ap_Offering p) then Err "offering is empty"
      else if blank (ap_WorkUnitName p) then Err "work_unit_name is empty"
      else if ap_UnitsPerPrice p =? 0 then Err "units_per_price must be > 0"
      else
        let! wei := parseBigUInt "price_per_unit_wei" (ap_PricePerUnitWei p) in
        if 2 ^ 63 - 1 <? wei then Err "price_per_unit_wei exceeds wire PriceInfo int64 range"
        else match ap_QuoteRef p with
        | None => Err "quote_ref is required"
        | Some q =>
            if blank (qr_QuoteId q) then Err "quote_ref.quote_id is empty"
            else if len (qr_ConstraintFingerprint q) =? 0 then Err "quote_ref.constraint_fingerprint is empty"
            else if len (qr_RouteFingerprint q) =? 0 then Err "quote_ref.route_fingerprint is empty"
            else if 2 ^ 63 - 1 <? ap_UnitsPerPrice p then Err "units_per_price exceeds wire PriceInfo int64 range"
            else Ok (mkAcceptedPriceInput wei (ap_UnitsPerPrice p) (TrimSpace (ap_WorkUnitName p)) q
                       (TrimSpace (ap_Capability p)) (TrimSpace (ap_Offering p)))
        end
  end.

Definition parseFundingIntent (f : option FundingIntent) : result string fundingIntentInput :=
  match f with
  | None => Err "funding is required"
  | Some f =>
      let! wei := parseBigUInt "funded_value_wei" (fi_FundedValueWei f) in
      if wei <=? 0 then Err "funded_value_wei must be > 0"
      else if (0 <? fi_MaxTotalUnits f) && (fi_MaxTotalUnits f <? fi_EstimatedUnits f)
      then Err "estimated_units exceeds max_total_units"
      else Ok (mkFundingIntentInput (fi_EstimatedUnits f) wei)
  end.

Definition accountShortfall (a : option AccountFundingIntent) (maximum : Z) : result string Z :=
  match a with
  | None => Err "account_funding is required; funding alone cannot mint for a workload ceiling"
  | Some a =>
      let! target := parseBigUInt "target_available_wei" (af_TargetAvailableWei a) in
      let! available := parseBigUInt "observed_available_wei" (af_ObservedAvailableWei a) in
      if target <=? available then Ok 0
      else if maximum <? 0 then Err "funding.funded_value_wei must provide a non-negative mint ceiling"
      else if maximum <? target - available then Err "account shortfall exceeds funding ceiling"
      else Ok (target - available)
  end.

(** [fnv.New32a]. *)
Fixpoint fnv32a_go (s : string) (h : Z) : Z :=
  match s with "" => h | String c s' => fnv32a_go s' (u32 (Z.lxor h (byte_val c) * 16777619)) end.
Definition wireCapabilityID (capability : string) : Z := fnv32a_go capability 2166136261.

(** [url.QueryEscape]. *)
Definition unreserved (c : ascii) : bool :=
  between 97 122 c || between 65 90 c || between 48 57 c ||
  (byte_val c =? 45) || (byte_val c =? 95) || (byte_val c =? 46) || (byte_val c =? 126).
Definition upper_hex (d : Z) : ascii := if d <? 10 then byte_of (48 + d) else byte_of (55 + d).
Fixpoint QueryEscape (s : string) : string :=
  match s with
  | "" => ""
  | String c s' =>
      if unreserved c then String c (QueryEscape s')
      else if byte_val c =? 32 then String "+" (QueryEscape s')
      else String "%" (String (upper_hex (byte_val c / 16)) (String (upper_hex (byte_val c mod 16)) (QueryEscape s')))
  end.

Definition expectedPriceConstraint (a : acceptedPriceInput) (estimatedUnits : Z) : string :=
  let ref := ai_QuoteRef a in
  "cap=" +:+ QueryEscape (ai_CapabilityName a) +:+ ";off=" +:+ QueryEscape (ai_Offering a) +:+
  ";wu=" +:+ QueryEscape (ai_WorkUnitName a) +:+ ";est=" +:+ dec_string estimatedUnits +:+
  ";qid=" +:+ QueryEscape (qr_QuoteId ref) +:+ ";qv=" +:+ dec_string (qr_QuoteVersion ref) +:+
  ";cfp=" +:+ hex_encode (qr_ConstraintFingerprint ref) +:+ ";rfp=" +:+ hex_encode (qr_RouteFingerprint ref).

Definition toPriceInfo (a : acceptedPriceInput) (estimatedUnits : Z) : PriceInfo :=
  mkPriceInfo (ai_PricePerUnitWei a) (ai_UnitsPerPrice a) (wireCapabilityID (ai_CapabilityName a))
    (expectedPriceConstraint a estimatedUnits).

(** [domain] and [account] are the variadic scope. *)
Definition sessionKey (recipient capability offering baseURL domain account : string) : string :=
  hex_encode recipient +:+ "|" +:+ capability +:+ "|" +:+ offering +:+ "|" +:+ TrimSpace baseURL +:+ "|" +:+
  (domain +:+ "|" +:+ account).

Definition validateSenderInfo (info : option SenderInfo) (currentRound : Z) : result string unit :=
  match info with
  | None => Err "nil sender info"
  | Some i =>
      if default 0 (si_Deposit i) =? 0 then Err "no sender deposit"
      else if default 0 (default None (si_Reserve i)) =? 0 then Err "no sender reserve"
      else if negb (si_WithdrawRound i =? 0) && (si_WithdrawRound i <=? currentRound + 1)
      then Err "deposit and reserve set to unlock soon"
      else Ok tt
  end.

(** The tickets a funded value needs at a credit per ticket: the quotient
    rounded up, at least one. *)
Definition ticket_count (fundedValueWei perTicketEV : Z) : Z :=
  let n := Z.quot fundedValueWei perTicketEV + 1 in
  let n := if fundedValueWei mod perTicketEV =? 0 then n - 1 else n in
  if n <=? 0 then 1 else n.

(** ** State *)
Record senderSession := mkSenderSession {
  ss_workID : string;
  ss_cacheKey : string;
  ss_ticketParams : Types.TicketParams;
  ss_nonce : Z;
  ss_acceptedPrice : PriceInfo;
  ss_acceptedQuote : option QuoteRef;
  ss_capability : string;
  ss_offering : string;
}.
Definition ss_with_ticketParams (p : Types.TicketParams) (s : senderSession) : senderSession :=
  mkSenderSession (ss_workID s) (ss_cacheKey s) p (ss_nonce s) (ss_acceptedPrice s) (ss_acceptedQuote s)
    (ss_capability s) (ss_offering s).
Definition ss_with_quote (price : PriceInfo) (quote : option QuoteRef) (s : senderSession) : senderSession :=
  mkSenderSession (ss_workID s) (ss_cacheKey s) (ss_ticketParams s) (ss_nonce s) price quote (ss_capability s) (ss_offering s).
Definition ss_with_nonce (n : Z) (s : senderSession) : senderSession :=
  mkSenderSession (ss_workID s) (ss_cacheKey s) (ss_ticketParams s) n (ss_acceptedPrice s) (ss_acceptedQuote s)
    (ss_capability s) (ss_offering s).

(** What the keystore signed. *)
Inductive signed :=
  | SignedTicket (t : Ticket)
  | SignedAuthorization (p : SpendAuthorizationPayload).

Record SenderState (M : Type -> Type) := mkSenderState {
  sn_db : DB M;
  sn_sessions : gmap string senderSession;
  sn_workIDIndex : gmap string string;
  sn_validityPeriod : Z;
  sn_validityReadAt : Z;
  sn_fetches : nat;
  sn_signed : list signed;
}.
Arguments mkSenderState {M}.
Arguments sn_db {M}.
Arguments sn_sessions {M}.
Arguments sn_workIDIndex {M}.
Arguments sn_validityPeriod {M}.
Arguments sn_validityReadAt {M}.
Arguments sn_fetches {M}.
Arguments sn_signed {M}.

(** The world during one call. *)
Record Env := mkEnv {
  e_now : Z;
  e_rand : result error string;
  e_senderInfo : result string (option SenderInfo);
  e_round : Z;
  e_blockHash : string;
  e_validityPeriod : result string Z;
  e_fetch : nat -> TicketParamsRequest -> result string Types.TicketParams;
}.

(** Computations on the service state. *)
Abbreviation act M := (st (SenderState M) rpc_error).

Section actions.
Context {M : Type -> Type}.

Definition with_sn_db (db : DB M) (s : SenderState M) : SenderState M :=
  mkSenderState db (sn_sessions s) (sn_workIDIndex s) (sn_validityPeriod s) (sn_validityReadAt s) (sn_fetches s) (sn_signed s).
Definition with_sn_cache (sessions : gmap string senderSession) (index : gmap string string) (s : SenderState M) : SenderState M :=
  mkSenderState (sn_db s) sessions index (sn_validityPeriod s) (sn_validityReadAt s) (sn_fetches s) (sn_signed s).

(** Run a store operation. *)
Definition store_op {A} (wrap : error -> rpc_error) (op : DB M -> result error A * DB M) : act M A :=
  fun s => let '(r, db) := op (sn_db s) in
           (match r with Ok a => Ok a | Err e => Err (wrap e) end, with_sn_db db s).
Definition cache_update (f : gmap string senderSession -> gmap string senderSession)
    (g : gmap string string -> gmap string string) : act M unit :=
  fun s => (Ok tt, with_sn_cache (f (sn_sessions s)) (g (sn_workIDIndex s)) s).
End actions.

Definition plain (msg : string) : rpc_error := Status Unknown msg.
(** [fmt.Errorf("msg: %w", err)] keeps the status of what it wraps. *)
Definition wrap (msg : string) (err : rpc_error) : rpc_error := Status (status_code err) msg.

Section handlers.
Context `{Bolt M} `{EthCrypto} `{AuthWire} `{PayerWire}.

Open Scope act_scope.

(** ** The keystore and the chain *)
Definition Sign (what : signed) (digest : string) : act M string :=
  fun s => match ks_Sign digest with
  | None => (Err (plain "sign"), s)
  | Some sig => (Ok sig, mkSenderState (sn_db s) (sn_sessions s) (sn_workIDIndex s) (sn_validityPeriod s)
                           (sn_validityReadAt s) (sn_fetches s) (sn_signed s ++ [what]))
  end.

Definition fetch_quote (env : Env) (req : TicketParamsRequest) : act M Types.TicketParams :=
  fun s => (match e_fetch env (sn_fetches s) req with Ok p => Ok p | Err e => Err (plain e) end,
            mkSenderState (sn_db s) (sn_sessions s) (sn_workIDIndex s) (sn_validityPeriod s)
              (sn_validityReadAt s) (S (sn_fetches s)) (sn_signed s)).

(** The period and when it was read. *)
Definition readValidityPeriod (env : Env) (fresh : bool) : act M (Z * Z) :=
  fun s =>
    if negb fresh && (0 <? sn_validityPeriod s) && (e_now env - sn_validityReadAt s <? validityPeriodTTL)
    then (Ok (sn_validityPeriod s, sn_validityReadAt s), s)
    else match e_validityPeriod env with
    | Err _ => (Err (plain "read ticketValidityPeriod"), s)
    | Ok v => (Ok (v, e_now env), mkSenderState (sn_db s) (sn_sessions s) (sn_workIDIndex s) v (e_now env)
                                    (sn_fetches s) (sn_signed s))
    end.
Definition ticketValidityPeriod (env : Env) : act M (Z * Z) := readValidityPeriod env false.
Definition ticketValidityPeriodFresh (env : Env) : act M (Z * Z) := readValidityPeriod env true.

(** ** Nonces and signatures

    A session is the entry of the cache under its key: the code holds a pointer
    to it. *)
Definition set_nonce (session : senderSession) (f : Z -> Z) : act M unit :=
  cache_update (alter (fun live => ss_with_nonce (f (ss_nonce live)) live) (ss_cacheKey session)) (fun i => i).

Definition nextNonce (session : senderSession) : act M Z :=
  if bool_decide (ss_workID session = "") then
    do! s <- get;
    let live := default session (sn_sessions s !! ss_cacheKey session) in
    let n := u32 (ss_nonce live + 1) in
    run! set_nonce session (fun _ => n);
    ret n
  else
    do! n <- store_op (fun _ => plain "allocate ticket nonce") (NextSenderNonce (ss_workID session));
    run! set_nonce session (fun old => if old <? n then n else old);
    ret n.

Definition session_ticket (env : Env) (session : senderSession) (nonce : Z) : Ticket :=
  let params := ss_ticketParams session in
  mkTicket (p_Recipient params) ks_Address (Some (p_FaceValue params)) (Some (p_WinProb params)) nonce
    (p_RecipientRandHash params) (e_round env) (e_blockHash env).

Definition signOneTicket (env : Env) (session : senderSession) : act M TicketSenderParams :=
  do! nonce <- nextNonce session;
  let t := session_ticket env session nonce in
  do! sig <- Sign (SignedTicket t) (Hash t);
  ret (mkTicketSenderParams nonce sig).

(** The loop of [CreatePayment]. *)
Fixpoint signTickets (env : Env) (session : senderSession) (n : nat) : act M (list TicketSenderParams) :=
  match n with
  | O => ret []
  | S n' =>
      do! tsp <- map_err (wrap "sign ticket") (signOneTicket env session);
      do! tsps <- signTickets env session n';
      ret (tsp :: tsps)
  end.

(** ** Ticket sessions *)
Definition credit (p : Types.TicketParams) : Z := CreditedEV (Some (p_FaceValue p)) (Some (p_WinProb p)).

Definition quote_request (recipient : string) (want : Z) (capability offering baseURL account stream : string)
    : TicketParamsRequest :=
  mkTicketParamsRequest account stream baseURL ks_Address recipient want capability offering.

Definition rescaleTicketParams (env : Env) (recipient : string) (want : Z) (capability offering baseURL : string)
    (current : Types.TicketParams) : act M Types.TicketParams :=
  run! require (0 <? p_WinProb current)
    (Status FailedPrecondition "payee quoted win_prob, so no ticket on this session can credit anything");
  do! retry <- fetch_quote env (quote_request recipient want capability offering baseURL
                                  (p_WholesaleAccountID current) (p_TicketStreamID current));
  run! require (bool_decide (p_WholesaleAccountID retry = p_WholesaleAccountID current) &&
               bool_decide (p_TicketStreamID retry = p_TicketStreamID current))
    (plain "account or stream changed during ticket re-quote");
  run! require (bool_decide (p_SettlementDomainID retry = p_SettlementDomainID current))
    (plain "settlement domain changed during ticket re-quote");
  run! require (credit retry =? want) (Status FailedPrecondition "payee returned ticket EV off the requested funding");
  run! require ((len (p_RecipientRandHash current) <=? 0) ||
               bool_decide (p_RecipientRandHash current = p_RecipientRandHash retry))
    (Status FailedPrecondition "payee moved recipient rand while re-quoting face value");
  ret retry.

(** A cached session is re-priced in place, and re-quoted when its credit is
    not the value to fund. *)
Definition reuse_session (env : Env) (recipient : string) (faceValue : Z) (capability offering baseURL key : string)
    (price : PriceInfo) (quote : option QuoteRef) (sess : senderSession) : act M senderSession :=
  let sess := ss_with_quote price quote sess in
  run! cache_update (insert key sess) (fun i => i);
  if credit (ss_ticketParams sess) =? faceValue then ret sess
  else
    do! rescaled <- rescaleTicketParams env recipient faceValue capability offering baseURL (ss_ticketParams sess);
    do! s <- get;
    match sn_sessions s !! key with
    | None => ret sess
    | Some live =>
        let live := ss_with_ticketParams rescaled live in
        run! cache_update (insert key live) (fun i => i);
        ret live
    end.

Definition open_session (env : Env) (recipient : string) (faceValue : Z) (capability offering baseURL key account stream : string)
    (price : PriceInfo) (quote : option QuoteRef) : act M senderSession :=
  do! params <- fetch_quote env (quote_request recipient faceValue capability offering baseURL account stream);
  run! require (bool_decide (p_WholesaleAccountID params = account) && bool_decide (p_TicketStreamID params = stream))
    (Status FailedPrecondition "ticket account or stream mismatch");
  do! params <- (if credit params =? faceValue then ret params
                 else rescaleTicketParams env recipient faceValue capability offering baseURL params);
  let workID := hex_encode (p_RecipientRandHash params) in
  run! (if p_HasSeenNonces params then
         run! store_op (fun _ => plain "resync nonce watermark") (ResyncSenderNonces workID (p_HighestSeenNonce params));
         ret tt
       else ret tt);
  let sess := mkSenderSession workID key params 0 price quote capability offering in
  do! s <- get;
  match sn_sessions s !! key with
  | Some existing => run! cache_update (fun m => m) (insert (ss_workID existing) key); ret existing
  | None => run! cache_update (insert key sess) (insert workID key); ret sess
  end.

Definition findOrOpenSession (env : Env) (recipient : string) (faceValue : Z) (capability offering baseURL : string)
    (price : PriceInfo) (quote : option QuoteRef) (domain account : string) : act M senderSession :=
  let key := sessionKey recipient capability offering baseURL domain account in
  do! stream <- store_op (fun _ => plain "ticket stream") (TicketStreamID (e_rand env));
  do! s <- get;
  match sn_sessions s !! key with
  | Some sess => reuse_session env recipient faceValue capability offering baseURL key price quote sess
  | None => open_session env recipient faceValue capability offering baseURL key account stream price quote
  end.

Definition rotateExhaustedSession (env : Env) (old : senderSession) (recipient : string) (accepted : acceptedPriceInput)
    (baseURL : string) (quote : option QuoteRef) (funding : fundingIntentInput) : act M senderSession :=
  let key := ss_cacheKey old in
  do! s <- get;
  run! (match sn_sessions s !! key with
       | Some cur => if bool_decide (ss_workID cur = ss_workID old)
                     then cache_update (delete key) (delete (ss_workID cur)) else ret tt
       | None => ret tt
       end);
  do! next <- map_err (wrap "rotating exhausted ticket session")
    (findOrOpenSession env recipient (fn_fundedValueWei funding) (ss_capability old) (ss_offering old) baseURL
       (toPriceInfo accepted (fn_estimatedUnits funding)) quote
       (p_SettlementDomainID (ss_ticketParams old)) (p_WholesaleAccountID (ss_ticketParams old)));
  run! require (bool_decide (p_SettlementDomainID (ss_ticketParams next) = p_SettlementDomainID (ss_ticketParams old)))
    (plain "settlement domain changed during ticket rotation");
  ret next.

Definition evictSessionByWorkID (workID : string) : act M bool :=
  do! s <- get;
  match sn_workIDIndex s !! workID with
  | None => ret false
  | Some key => run! cache_update (delete key) (delete workID); ret true
  end.

End handlers.
