(* ===== verification/Payments.v ===== *)
(** * The payer's RPCs

    payment-daemon/internal/service/sender: [CreatePayment] in the stages of
    its body, [CreateSpendAuthorization], [ReportPaymentResult],
    [GetDepositInfo], [Health] and [AdvanceDevRound]. *)
From S2P Require Import Prelude.
From S2P Require Import GoBytes.
From S2P Require Import GoCodecs.
From S2P Require Import GoStrings.
From S2P Require Import Actions.
From S2P Require Import Bolt.
From S2P Require Import Ledger.
From S2P Require Import Billing.
From S2P Require Import Nonces.
From S2P Require Import Mints.
From S2P Require Import Fences.
From S2P Require Import Limits.
From S2P Require Import Tickets.
From S2P Require Import Receiver.
From S2P Require Import Types.
From S2P Require Import Spendauth.
From S2P Require Import Sender.
From Stdlib Require Import Ascii.

Record CreateSpendAuthorizationResponse := mkCreateAuthResponse {
  sr_AuthorizationBytes : string;
  sr_AuthorizationId : string;
  sr_Payer : string;
}.
Record GetDepositInfoResponse := mkDepositInfo {
  di_Deposit : string;
  di_Reserve : string;
  di_WithdrawRound : Z;
  di_CurrentRound : Z;
  di_TicketValidityPeriod : Z;
  di_TicketValidityPeriodObservedAt : string;
}.

(** The account fields of a request, read through nil-safe getters. *)
Definition rq_domain (req : CreatePaymentRequest) : string :=
  match cq_AccountFunding req with Some a => af_SettlementDomainId a | None => "" end.
Definition rq_account (req : CreatePaymentRequest) : string :=
  match cq_AccountFunding req with Some a => af_WholesaleAccountId a | None => "" end.
Definition rq_quote (req : CreatePaymentRequest) : option QuoteRef :=
  match cq_AcceptedPrice req with Some p => ap_QuoteRef p | None => None end.

Section payments.
Context `{Bolt M} `{EthCrypto} `{AuthWire} `{PayerWire}.

Open Scope act_scope.

(** ** Idempotency *)
Definition zero_sep : string := String zero_byte "".

Definition MintFingerprint (req : CreatePaymentRequest) : string :=
  sha256 (cq_Recipient req +:+ (zero_sep +:+ (TrimSpace (cq_TicketParamsBaseUrl req) +:+ (zero_sep +:+
    (default "" (marshal_price (cq_AcceptedPrice req)) +:+ (zero_sep +:+
    (default "" (marshal_funding (cq_Funding req)) +:+ (zero_sep +:+
    default "" (marshal_account_funding (cq_AccountFunding req)))))))))).

Definition non_empty (b : string) : option string := if 0 <? len b then Some b else None.

Definition mintResponseFrom (rec : MintRecord) : CreatePaymentResponse :=
  mkCreatePaymentResponse (mr_PaymentBytes rec) (mr_TicketsCreated rec) (non_empty (mr_ExpectedValue rec))
    (non_empty (mr_FundedValueWei rec))
    (if 0 <? len (mr_QuoteRefJSON rec) then parse_quote (mr_QuoteRefJSON rec) else None)
    (mr_WorkID rec) "" 0 0 0 "" (Some (mr_AccountShortfallWei rec)).

Definition marshalQuoteRef (qr : option QuoteRef) : result string string :=
  match qr with
  | None => Ok ""
  | Some qr => match json_quote qr with Some b => Ok b | None => Err "marshal quote ref" end
  end.

(** The checks before anything durable happens; the trimmed id. *)
Definition mint_guard (env : Env) (req : CreatePaymentRequest) : act M string :=
  run! require (negb (len (cq_Recipient req) =? 0)) (plain "recipient is empty");
  let mintID := TrimSpace (cq_MintRequestId req) in
  run! require (negb (bool_decide (mintID = ""))) (Status InvalidArgument "mint_request_id is required");
  run! require (len mintID <=? maxMintRequestIDBytes) (Status InvalidArgument "mint_request_id exceeds limit");
  let expected := cq_ExpectedTicketStreamId req in
  run! (if bool_decide (expected = "") then ret tt
        else
          do! stream <- store_op (fun _ => Status Internal "cannot read sender ticket stream") (TicketStreamID (e_rand env));
          require (bool_decide (expected = stream))
            (Status FailedPrecondition "mint belongs to another sender database"));
  ret mintID.

Definition reserve_failure (err : error) : rpc_error :=
  if errors_Is err ErrMintIncomplete
  then Status FailedPrecondition "mint_request_id was reserved but never completed"
  else if errors_Is err ErrMintFingerprintMismatch
  then Status InvalidArgument "mint_request_id was used for different request content"
  else if errors_Is err ErrMintExpired
  then Status FailedPrecondition "mint_request_id was already used and its replay record has expired"
  else Status Internal "mint recall".

(** ** The intent: price, shortfall to fund, account *)
Definition mint_intent (req : CreatePaymentRequest) : result rpc_error (acceptedPriceInput * fundingIntentInput) :=
  match parseAcceptedPrice (cq_AcceptedPrice req) with
  | Err _ => Err (plain "accepted_price")
  | Ok accepted =>
    match parseFundingIntent (cq_Funding req) with
    | Err _ => Err (plain "funding")
    | Ok funding =>
        if negb (ValidWholesaleAccountID (rq_account req)) then Err (Status InvalidArgument "wholesale_account_id is required")
        else match accountShortfall (cq_AccountFunding req) (fn_fundedValueWei funding) with
        | Err _ => Err (Status InvalidArgument "account_funding")
        | Ok shortfall =>
            if negb (ValidDomain (rq_domain req))
            then Err (Status InvalidArgument "account_funding.settlement_domain_id is required")
            else Ok (accepted, mkFundingIntentInput (fn_estimatedUnits funding) shortfall)
        end
    end
  end.

(** Nothing to fund: an empty response, recorded as the mint's outcome. *)
Definition record_zero_shortfall (env : Env) (mintID fingerprint : string) (req : CreatePaymentRequest)
    : act M CreatePaymentResponse :=
  let out := mkCreatePaymentResponse "" 0 (Some "") (Some "") (rq_quote req) "" "" 0 0 0 "" (Some "") in
  do! quoteJSON <- lift (fun _ => Status Internal "record zero-shortfall mint") (marshalQuoteRef (cr_AcceptedQuoteRef out));
  run! store_op (fun _ => Status Internal "record zero-shortfall mint")
    (recordMint (e_now env) ks_Address mintID (mkMintRecord fingerprint "" 0 "" "" "" quoteJSON "" 0));
  ret out.

(** ** Policy, deposit and expiry, before any signature *)
Definition mint_policy (env : Env) (limits : Limits) (accepted : acceptedPriceInput) (funding : fundingIntentInput)
    (req : CreatePaymentRequest) : act M (Z * Z) :=
  run! lift (fun _ => Status FailedPrecondition "spend limit")
    (CheckMint limits (ai_WorkUnitName accepted) (ai_PricePerUnitWei accepted) (ai_UnitsPerPrice accepted)
       (fn_fundedValueWei funding));
  run! require (negb (blank (cq_TicketParamsBaseUrl req))) (plain "ticket params base URL is empty");
  do! info <- lift (fun _ => plain "get sender info") (e_senderInfo env);
  run! lift (fun _ => plain "sender validation") (validateSenderInfo info (e_round env));
  map_err (fun _ => Status Unavailable "cannot read the chain's ticketValidityPeriod") (ticketValidityPeriod env).

(** ** The session to sign on, its predecessor when it was rotated, and
    whether its nonce budget was refreshed *)
Definition predecessor (old next : senderSession) : string :=
  if bool_decide (ss_workID next = ss_workID old) then "" else ss_workID old.

Definition choose_session (env : Env) (accepted : acceptedPriceInput) (funding : fundingIntentInput)
    (req : CreatePaymentRequest) : act M (senderSession * string * bool) :=
  let price := toPriceInfo accepted (fn_estimatedUnits funding) in
  let key := sessionKey (cq_Recipient req) (ai_CapabilityName accepted) (ai_Offering accepted)
               (cq_TicketParamsBaseUrl req) (rq_domain req) (rq_account req) in
  let open :=
    do! session <- map_err (wrap "ticket params")
      (findOrOpenSession env (cq_Recipient req) (fn_fundedValueWei funding) (ai_CapabilityName accepted)
         (ai_Offering accepted) (cq_TicketParamsBaseUrl req) price (rq_quote req) (rq_domain req) (rq_account req));
    ret (session, "", false) in
  do! s <- get;
  match sn_sessions s !! key with
  | None => open
  | Some cached =>
      do! used <- lift (fun _ => plain "read nonce budget") (SenderNoncesUsed (ss_workID cached) (sn_db s));
      if MaxSenderNonces <=? used then
        do! session <- rotateExhaustedSession env cached (cq_Recipient req) accepted (cq_TicketParamsBaseUrl req)
                         (rq_quote req) funding;
        ret (session, predecessor cached session, true)
      else open
  end.

(** ** Sizing: the number of tickets and what they credit together *)
Definition size_batch (limits : Limits) (funding : fundingIntentInput) (req : CreatePaymentRequest)
    (session : senderSession) : result rpc_error (Z * Z) :=
  let params := ss_ticketParams session in
  if negb (bool_decide (p_SettlementDomainID params = rq_domain req))
  then Err (Status FailedPrecondition "ticket parameters belong to a different settlement domain")
  else if len (p_Seed params) =? 0 then Err (plain "ticket params: seed is empty")
  else
    let perTicketEV := credit params in
    if perTicketEV <=? 0 then Err (Status FailedPrecondition "this ticket session credits 0 wei per ticket")
    else
      let ticketCount := ticket_count (fn_fundedValueWei funding) perTicketEV in
      if maxTicketsPerPayment <? ticketCount then Err (Status FailedPrecondition "needs too many tickets")
      else
        let totalEV := perTicketEV * ticketCount in
        match CheckSignedTicketBatch limits totalEV (p_FaceValue params) with
        | Err _ => Err (Status FailedPrecondition "spend limit")
        | Ok _ => Ok (ticketCount, totalEV)
        end.

(** Roll over a session the batch would run past the payee's nonce budget. *)
Definition rotate_for_batch (env : Env) (accepted : acceptedPriceInput) (funding : fundingIntentInput)
    (req : CreatePaymentRequest) (n : Z) (chosen : senderSession * string * bool) : act M (senderSession * string) :=
  let '(session, pred, refreshed) := chosen in
  if refreshed || bool_decide (ss_workID session = "") then ret (session, pred)
  else
    do! s <- get;
    do! used <- lift (fun _ => plain "read nonce budget") (SenderNoncesUsed (ss_workID session) (sn_db s));
    if MaxSenderNonces <? u64 (used + n) then
      do! rotated <- rotateExhaustedSession env session (cq_Recipient req) accepted (cq_TicketParamsBaseUrl req)
                       (rq_quote req) funding;
      ret (rotated, if bool_decide (ss_workID rotated = ss_workID session) then pred else ss_workID session)
    else ret (session, pred).

(** ** Signing and recording *)
Definition payment_batch (env : Env) (session : senderSession) (tsps : list Types.TicketSenderParams) : TicketBatch :=
  mkTicketBatch (Some (ss_ticketParams session)) ks_Address (Some (mkExpiration (e_round env) (e_blockHash env))) tsps
    (Some (ss_acceptedPrice session)).

Definition marshal_batch (batch : TicketBatch) : option string :=
  match ToWirePayment (Some batch) with Some w => marshal_payment w | None => Some "" end.

Definition sign_and_record (env : Env) (mintID fingerprint : string) (funding : fundingIntentInput) (validity : Z * Z)
    (n totalEV : Z) (session : senderSession) (pred : string) : act M CreatePaymentResponse :=
  do! tsps <- signTickets env session (Z.to_nat n);
  do! bytes <- lift (fun _ => plain "marshal payment")
                 (match marshal_batch (payment_batch env session tsps) with Some b => Ok b | None => Err tt end);
  let funded := big_bytes (fn_fundedValueWei funding) in
  let out := mkCreatePaymentResponse bytes (u32 n) (Some (big_bytes totalEV)) (Some funded) (ss_acceptedQuote session)
               (ss_workID session) pred (e_round env) (i64 (e_round env + validity.1 - 1)) validity.1
               (format_time validity.2) (Some funded) in
  do! quoteJSON <- lift (fun _ => plain "record mint") (marshalQuoteRef (cr_AcceptedQuoteRef out));
  run! store_op (fun _ => Status Internal "record mint")
    (recordMint (e_now env) ks_Address mintID
       (mkMintRecord fingerprint (cr_PaymentBytes out) (cr_TicketsCreated out) (big_bytes totalEV) funded funded
          quoteJSON (cr_WorkId out) 0));
  ret out.

(** From a reserved mint id to the response. *)
Definition mint (env : Env) (limits : Limits) (mintID fingerprint : string) (req : CreatePaymentRequest)
    : act M CreatePaymentResponse :=
  do! (accepted, funding) <- lift (fun e => e) (mint_intent req);
  if fn_fundedValueWei funding =? 0 then record_zero_shortfall env mintID fingerprint req
  else
    do! validity <- mint_policy env limits accepted funding req;
    do! chosen <- choose_session env accepted funding req;
    do! (n, totalEV) <- lift (fun e => e) (size_batch limits funding req chosen.1.1);
    do! (session, pred) <- rotate_for_batch env accepted funding req n chosen;
    sign_and_record env mintID fingerprint funding validity n totalEV session pred.

Definition CreatePayment (env : Env) (limits : Limits) (req : CreatePaymentRequest) : act M CreatePaymentResponse :=
  do! mintID <- mint_guard env req;
  let fingerprint := MintFingerprint req in
  do! prior <- store_op reserve_failure (MintReserve (e_now env) ks_Address mintID fingerprint);
  match prior with
  | Some rec => ret (mintResponseFrom rec)
  | None => mint env limits mintID fingerprint req
  end.

(** ** Spend authorizations *)
Definition bad_request (msg : string) : rpc_error := Status InvalidArgument msg.

Definition caller_key_ok (key : string) : bool :=
  (len key =? 0) || (((len key =? 33) || (len key =? 65)) && valid_pubkey key).

(** The request's fields; the canonical broker URI. *)
Definition auth_scope_checks (req : CreateSpendAuthorizationRequest) : result rpc_error string :=
  if negb (ValidWholesaleAccountID (sq_WholesaleAccountId req)) then Err (bad_request "wholesale_account_id is required")
  else if negb (len (sq_Payee req) =? 20) then Err (bad_request "payee must be 20 bytes")
  else if blank (sq_AuthorizationId req) || blank (sq_RequestId req)
  then Err (bad_request "authorization_id and request_id are required")
  else if negb (ValidDomain (sq_SettlementDomainId req)) then Err (bad_request "canonical settlement_domain_id is required")
  else match BrokerURI (sq_BrokerUri req) with
  | None => Err (bad_request "broker_uri is required")
  | Some uri =>
      if negb (bool_decide (sq_Protocol req = "paid-job/v1")) && negb (bool_decide (sq_Protocol req = "paid-session/v1"))
      then Err (bad_request "protocol must be paid-job/v1 or paid-session/v1")
      else if (sq_ChainId req =? 0) || negb (bool_decide (sq_Denomination req = "wei"))
      then Err (bad_request "chain_id and denomination=wei are required")
      else Ok uri
  end.

(** Price, cap, limit and digest; the parsed price and the cap. *)
Definition auth_value_checks (limits : Limits) (req : CreateSpendAuthorizationRequest)
    : result rpc_error (acceptedPriceInput * Z) :=
  match parseAcceptedPrice (sq_AcceptedPrice req) with
  | Err _ => Err (bad_request "accepted_price")
  | Ok accepted =>
      let maxDebit := be_Z (sq_MaxDebitWei req) in
      if (maxDebit <=? 0) || (sq_MaxTotalUnits req =? 0)
      then Err (bad_request "max_debit_wei and max_total_units must be positive")
      else match CheckAuthorization limits maxDebit with
      | Err _ => Err (Status FailedPrecondition "spend limit")
      | Ok _ =>
          if maxDebit <? BillFor (ai_PricePerUnitWei accepted) (ai_UnitsPerPrice accepted) (sq_MaxTotalUnits req)
          then Err (bad_request "max_debit_wei cannot cover max_total_units at accepted price")
          else if negb (len (sq_RequestDigest req) =? 32) then Err (bad_request "request_digest must be an exact SHA-256 digest")
          else if negb (caller_key_ok (sq_CallerPublicKey req))
          then Err (bad_request "caller_public_key must be a valid secp256k1 public key")
          else Ok (accepted, maxDebit)
      end
  end.

(** The window and the revision; the instants of the window. *)
Definition auth_window_checks (req : CreateSpendAuthorizationRequest) : result rpc_error (Z * Z) :=
  match parse_time (sq_NotBefore req) with
  | None => Err (bad_request "not_before must be RFC3339")
  | Some notBefore =>
    match parse_time (sq_ExpiresAt req) with
    | None => Err (bad_request "expires_at must be RFC3339 and after not_before")
    | Some expiresAt =>
        if expiresAt <=? notBefore then Err (bad_request "expires_at must be RFC3339 and after not_before")
        else if bool_decide (sq_Protocol req = "paid-session/v1") && blank (sq_SessionId req)
        then Err (bad_request "session_id is required for paid-session/v1")
        else if bool_decide (sq_Protocol req = "paid-job/v1") &&
                (negb (blank (sq_SessionId req)) || negb (sq_Revision req =? 0) ||
                 negb (blank (sq_PredecessorAuthorizationId req)))
        then Err (bad_request "paid-job/v1 cannot carry session revision fields")
        else if (sq_Revision req =? 0) && negb (blank (sq_PredecessorAuthorizationId req))
        then Err (bad_request "predecessor_authorization_id requires a positive revision")
        else if (0 <? sq_Revision req) && blank (sq_PredecessorAuthorizationId req)
        then Err (bad_request "a positive revision requires predecessor_authorization_id")
        else Ok (notBefore, expiresAt)
    end
  end.

Definition auth_payload (req : CreateSpendAuthorizationRequest) (brokerURI : string) (accepted : acceptedPriceInput)
    (maxDebit notBefore expiresAt : Z) : SpendAuthorizationPayload :=
  mkPayload Domain ks_Address (sq_Payee req) (sq_AuthorizationId req) (sq_RequestId req) (sq_SessionId req)
    (sq_Protocol req) (ai_CapabilityName accepted) (ai_Offering accepted) (sq_AcceptedPrice req) (big_bytes maxDebit)
    (sq_MaxTotalUnits req) (format_time notBefore) (format_time expiresAt) (sq_RequestDigest req)
    (sq_CallerPublicKey req) (sq_Revision req) (sq_PredecessorAuthorizationId req) brokerURI (sq_ChainId req)
    (sq_Denomination req) (sq_SettlementDomainId req) (sq_WholesaleAccountId req).

(** The payload a request asks to sign. *)
Definition auth_request_payload (limits : Limits) (req : CreateSpendAuthorizationRequest)
    : result rpc_error SpendAuthorizationPayload :=
  let! uri := auth_scope_checks req in
  let! value := auth_value_checks limits req in
  let! window := auth_window_checks req in
  Ok (auth_payload req uri value.1 value.2 window.1 window.2).

Definition auth_store_id (p : SpendAuthorizationPayload) : string :=
  "authorization/v3/" +:+ (dec_string (py_ChainId p) +:+ ("/" +:+ (hex_encode (py_Payee p) +:+ ("/" +:+
    (py_SettlementDomainId p +:+ ("/" +:+ (py_Denomination p +:+ ("/" +:+ (py_WholesaleAccountId p +:+ ("/" +:+
    py_AuthorizationId p)))))))))).

Definition CreateSpendAuthorization (env : Env) (limits : Limits) (req : CreateSpendAuthorizationRequest)
    : act M CreateSpendAuthorizationResponse :=
  do! payload <- lift (fun e => e) (auth_request_payload limits req);
  do! payloadWire <- lift (fun _ => Status Internal "authorization fingerprint")
                       (match marshal_payload payload with Some b => Ok b | None => Err tt end);
  let fingerprint := sha256 payloadWire in
  let storeID := auth_store_id payload in
  let respond := fun wire => mkCreateAuthResponse wire (py_AuthorizationId payload) (py_Payer payload) in
  do! prior <- store_op (fun _ => Status AlreadyExists "authorization idempotency")
                 (MintReserve (e_now env) ks_Address storeID fingerprint);
  match prior with
  | Some rec => ret (respond (mr_PaymentBytes rec))
  | None =>
      do! digest <- lift (fun _ => Status Internal "authorization digest") (Digest (Some payload));
      do! sig <- map_err (fun _ => Status Internal "authorization signature") (Sign (SignedAuthorization payload) digest);
      do! wire <- lift (fun _ => Status Internal "authorization marshal")
                    (match marshal_auth (mkSpendAuthorization (Some payload) sig) with Some b => Ok b | None => Err tt end);
      run! store_op (fun _ => Status Internal "record authorization")
        (recordMint (e_now env) ks_Address storeID (mkMintRecord fingerprint wire 0 "" "" "" "" "" 0));
      ret (respond wire)
  end.

(** ** The other RPCs *)
Definition ReportPaymentResult (workID capability offering : string) (reason : RejectionReason) : act M unit :=
  run! require (negb (blank workID)) (plain "work_id is empty");
  if bool_decide (reason = INVALID_RECIPIENT_RAND) then
    run! evictSessionByWorkID workID;
    fail (StatusInfo Aborted "INVALID_RECIPIENT_RAND"
            [("old_work_id", workID); ("capability", capability); ("offering", offering)])
  else ret tt.

(** The broker answers with a record here: the code dereferences it. *)
Definition GetDepositInfo (env : Env) (info : result string SenderInfo) : act M GetDepositInfoResponse :=
  do! info <- lift plain info;
  fun s =>
    let '(r, s) := ticketValidityPeriodFresh env s in
    let '(period, at_) := match r with Ok (v, t) => (v, format_time t) | Err _ => (0, "") end in
    (Ok (mkDepositInfo (big_bytes (default 0 (si_Deposit info))) (big_bytes (default 0 (default None (si_Reserve info))))
           (si_WithdrawRound info) (e_round env) period at_), s).

Definition payer_Health (env : Env) : act M (string * string) :=
  do! stream <- store_op (fun _ => Status Internal "cannot read sender ticket stream") (TicketStreamID (e_rand env));
  ret ("ok", stream).

(** [AdvanceDevRound]; [None] is a daemon on the chain's clock. *)
Definition AdvanceDevRound (clock : option Z) (rounds : Z) : result rpc_error (Z * option Z) :=
  match clock with
  | None => Err (Status FailedPrecondition "round advancement is dev-clock only")
  | Some round =>
      if rounds <? 1 then Err (Status InvalidArgument "rounds must be >= 1")
      else Ok (i64 (round + rounds), Some (i64 (round + rounds)))
  end.

End payments.
