(* ===== verification/PaymentsSpec.v ===== *)
(** * What the payer signs

    Invariants of the payer over histories of its RPCs. *)
From S2P Require Import Prelude.
From S2P Require Import GoBytes.
From S2P Require Import GoCodecs.
From S2P Require Import GoStrings.
From S2P Require Import Actions.
From S2P Require Import Bolt.
From S2P Require Import Ledger.
From S2P Require Import Nonces.
From S2P Require Import Mints.
From S2P Require Import Fences.
From S2P Require Import Limits.
From S2P Require Import Tickets.
From S2P Require Import TicketsSpec.
From S2P Require Import Receiver.
From S2P Require Import Types.
From S2P Require Import Spendauth.
From S2P Require Import Sender.
From S2P Require Import Payments.

Section rules.
Context {M : Type -> Type} (I : SenderState M -> Prop).

Lemma pres_store_op {A} f (op : DB M -> result error A * DB M) :
  (forall s, I s -> I (with_sn_db (op (sn_db s)).2 s)) -> pres I (store_op f op) (fun _ => True).
Proof. intros Ho s Hs. specialize (Ho s Hs). unfold store_op. by destruct (op (sn_db s)). Qed.
Lemma pres_cache_update f g :
  (forall s, I s -> I (with_sn_cache (f (sn_sessions s)) (g (sn_workIDIndex s)) s)) ->
  pres I (cache_update f g) (fun _ => True).
Proof. intros Ho s Hs. split; [by apply Ho|done]. Qed.
Lemma pres_at_update {B} f g (k : unit -> act M B) Q s :
  pres_at I (k tt) Q (with_sn_cache (f (sn_sessions s)) (g (sn_workIDIndex s)) s) ->
  pres_at I (bind (cache_update f g) k) Q s.
Proof. done. Qed.
End rules.

(** Quotes as the fetcher returns them: a 32-byte rand, a 32-bit nonce. *)
Definition sound_params (p : Types.TicketParams) : Prop :=
  len (p_RecipientRandHash p) = 32 /\ 0 <= p_HighestSeenNonce p < two32.
Definition sound_quotes (env : Env) : Prop :=
  forall n req p, e_fetch env n req = Ok p -> sound_params p.

Lemma parseHexAddress_len raw n out : parseHexAddress raw (Some n) = Ok out -> len out = n.
Proof.
  unfold parseHexAddress. intros E. repeat case_match; simplify_eq. by to_prop.
Qed.

(** What arrives through [Fetch] is sound, the nonce being decoded as 32 bits. *)
Lemma Fetch_sound post req p :
  (forall url body r, post url body = Ok r -> 0 <= hs_HighestSeenNonce r < two32) ->
  Fetch post req = Ok p -> sound_params p.
Proof.
  unfold Fetch. intros Hpost E. destruct (bool_decide _); [done|]. destruct (_ <=? _); [done|].
  destruct (post _ _) as [r|] eqn:Er; [|done]. apply Hpost in Er.
  destruct (toTypes _) as [out|] eqn:Et; [|done]. destruct (_ || _ || _ || _ || _); [done|]. injection E as <-.
  split; [|done]. simpl. unfold toTypes in Et.
  destruct (parseHexAddress (j_Recipient _) _); [|done]. destruct (SetString10 _); [|done]. destruct (SetString10 _); [|done].
  destruct (parseHexAddress (j_RecipientRandHash _) _) as [rh|] eqn:Erh; [|done]. apply parseHexAddress_len in Erh.
  repeat case_match; by simplify_eq.
Qed.

(** ** The invariant *)
Definition wf_session (sess : senderSession) : Prop :=
  ss_workID sess = hex_encode (p_RecipientRandHash (ss_ticketParams sess)) /\ sound_params (ss_ticketParams sess).

Definition tickets (l : list signed) : list Ticket :=
  omap (fun x => match x with SignedTicket t => Some t | SignedAuthorization _ => None end) l.

(** What identifies a ticket to the payee. *)
Definition ticket_slot (t : Ticket) : string * Z := (tk_RecipientRandHash t, tk_SenderNonce t).

Section invariant.
Context `{Bolt M}.

Definition issued (db : DB M) (t : Ticket) : Prop :=
  tk_SenderNonce t <= watermark_of (hex_encode (tk_RecipientRandHash t)) db.

Definition wf_cache (sessions : gmap string senderSession) (index : gmap string string) : Prop :=
  (forall k sess, sessions !! k = Some sess -> wf_session sess /\ ss_cacheKey sess = k) /\
  (forall w k, index !! w = Some k -> exists sess, sessions !! k = Some sess /\ ss_workID sess = w).

Record payer_inv (s : SenderState M) : Prop := {
  inv_cache : wf_cache (sn_sessions s) (sn_workIDIndex s);
  inv_issued : Forall (issued (sn_db s)) (tickets (sn_signed s));
  inv_slots : NoDup (ticket_slot <$> tickets (sn_signed s));
}.
End invariant.

(** ** One mint id, one signature *)
Section tombstones.
Context `{Bolt M} `{EthCrypto} `{AuthWire} `{PayerWire}.

Definition reserved (id : string) (s : SenderState M) : Prop := tombstoned ks_Address id (sn_db s).

Lemma reserved_store {A} id f (op : DB M -> result error A * DB M) :
  (forall db, tombstoned ks_Address id db -> tombstoned ks_Address id (op db).2) ->
  pres (reserved id) (store_op f op) (fun _ => True).
Proof. intros Ho. apply pres_store_op. intros s Hs. by apply Ho. Qed.

Lemma reserved_untouched {A} id f (op : DB M -> result error A * DB M) :
  (forall db, mint_tombstones (op db).2 = mint_tombstones db) -> pres (reserved id) (store_op f op) (fun _ => True).
Proof. intros Ho. apply reserved_store. intros db. unfold tombstoned. by rewrite Ho. Qed.

Lemma reserved_cache id f g : pres (reserved id) (cache_update f g) (fun _ => True).
Proof. by apply pres_cache_update. Qed.
Lemma reserved_stream id f rand : pres (reserved id) (store_op f (TicketStreamID rand)) (fun _ => True).
Proof. apply reserved_untouched. intros db. unfold TicketStreamID, Update. repeat case_match; by simplify_eq. Qed.
Lemma reserved_next id f w : pres (reserved id) (store_op f (NextSenderNonce w)) (fun _ => True).
Proof. apply reserved_untouched. intros db. unfold NextSenderNonce, Update. repeat case_match; by simplify_eq. Qed.
Lemma reserved_resync id f w n : pres (reserved id) (store_op f (ResyncSenderNonces w n)) (fun _ => True).
Proof. apply reserved_untouched. intros db. unfold ResyncSenderNonces, Update. repeat case_match; by simplify_eq. Qed.
Lemma reserved_reserve id f now id' fp : pres (reserved id) (store_op f (MintReserve now ks_Address id' fp)) (fun _ => True).
Proof.
  apply reserved_store. intros db Ht. pose proof (tombstoned_step ks_Address id (MReserve now ks_Address id' fp) db Ht) as Hs.
  simpl in Hs. by destruct (MintReserve now ks_Address id' fp db).
Qed.
Lemma reserved_record id f now id' rec : pres (reserved id) (store_op f (recordMint now ks_Address id' rec)) (fun _ => True).
Proof. apply reserved_store. intros db Ht. exact (tombstoned_step ks_Address id (MRecord now ks_Address id' rec) db Ht). Qed.
Lemma reserved_Sign id what d : pres (reserved id) (Sign what d) (fun _ => True).
Proof. intros s Hs. unfold Sign. by destruct (ks_Sign d). Qed.
Lemma reserved_fetch id env req : pres (reserved id) (fetch_quote env req) (fun _ => True).
Proof. done. Qed.
Lemma reserved_validity id env fresh : pres (reserved id) (readValidityPeriod env fresh) (fun _ => True).
Proof. intros s Hs. unfold readValidityPeriod. repeat case_match; by simplify_eq. Qed.

#[local] Hint Resolve reserved_cache reserved_stream reserved_next reserved_resync reserved_reserve reserved_record
  reserved_Sign reserved_fetch reserved_validity : act.

Lemma reserved_signTickets id env session n : pres (reserved id) (signTickets env session n) (fun _ => True).
Proof. induction n as [|n IH]; simpl; [by apply pres_ret|]. unfold signOneTicket, nextNonce, set_nonce. act_auto. Qed.
Lemma reserved_rescale id env r w c o b cur : pres (reserved id) (rescaleTicketParams env r w c o b cur) (fun _ => True).
Proof. unfold rescaleTicketParams. act_auto. Qed.
#[local] Hint Resolve reserved_signTickets reserved_rescale : act.
Lemma reserved_find id env r f c o b p q d a :
  pres (reserved id) (findOrOpenSession env r f c o b p q d a) (fun _ => True).
Proof. unfold findOrOpenSession, reuse_session, open_session. act_auto. Qed.
#[local] Hint Resolve reserved_find : act.
Lemma reserved_rotate id env old r acc b q fu : pres (reserved id) (rotateExhaustedSession env old r acc b q fu) (fun _ => True).
Proof. unfold rotateExhaustedSession. act_auto. Qed.
#[local] Hint Resolve reserved_rotate : act.
Lemma reserved_mint id env limits id' fp req : pres (reserved id) (mint env limits id' fp req) (fun _ => True).
Proof.
  unfold mint, record_zero_shortfall, mint_policy, ticketValidityPeriod, choose_session, rotate_for_batch, sign_and_record.
  act_auto.
Qed.


(** Histories of RPCs and of the daemon's eviction of old records. *)
Inductive payer_rpc :=
  | PayerCreatePayment (env : Env) (limits : Limits) (req : CreatePaymentRequest)
  | PayerCreateSpendAuthorization (env : Env) (limits : Limits) (req : CreateSpendAuthorizationRequest)
  | PayerReportPaymentResult (workID capability offering : string) (reason : RejectionReason)
  | PayerGetDepositInfo (env : Env) (info : result string SenderInfo)
  | PayerHealth (env : Env)
  | PayerEvictMints (cutoff : Z).

Definition payer_step (op : payer_rpc) (s : SenderState M) : SenderState M :=
  match op with
  | PayerCreatePayment env limits req => (CreatePayment env limits req s).2
  | PayerCreateSpendAuthorization env limits req => (CreateSpendAuthorization env limits req s).2
  | PayerReportPaymentResult w c o r => (ReportPaymentResult w c o r s).2
  | PayerGetDepositInfo env info => (GetDepositInfo env info s).2
  | PayerHealth env => (payer_Health env s).2
  | PayerEvictMints cutoff => with_sn_db (EvictMints cutoff (sn_db s)).2 s
  end.

Definition mints_for (id : string) (op : payer_rpc) : bool :=
  match op with PayerCreatePayment _ _ req => bool_decide (TrimSpace (cq_MintRequestId req) = id) | _ => false end.

(** How many calls with mint id [id] signed something. *)
Fixpoint signing_calls (id : string) (ops : list payer_rpc) (s : SenderState M) : nat :=
  match ops with
  | [] => 0
  | op :: ops' =>
      let s' := payer_step op s in
      ((if mints_for id op && negb (bool_decide (length (sn_signed s') = length (sn_signed s))) then 1 else 0) +
       signing_calls id ops' s')%nat
  end.

Lemma reserved_guard id env req : pres (reserved id) (mint_guard env req) (fun _ => True).
Proof. unfold mint_guard. act_auto. Qed.
#[local] Hint Resolve reserved_guard reserved_mint : act.

Lemma reserved_step id op s : reserved id s -> reserved id (payer_step op s).
Proof.
  intros Hs. destruct op as [env limits req|env limits req|w c o r|env info|env|cutoff]; simpl.
  - assert (pres (reserved id) (CreatePayment env limits req) (fun _ => True)) as Hp by (unfold CreatePayment; act_auto).
    by apply Hp.
  - assert (pres (reserved id) (CreateSpendAuthorization env limits req) (fun _ => True)) as Hp
      by (unfold CreateSpendAuthorization; act_auto). by apply Hp.
  - assert (pres (reserved id) (ReportPaymentResult w c o r) (fun _ => True)) as Hp
      by (unfold ReportPaymentResult, evictSessionByWorkID; act_auto). by apply Hp.
  - unfold GetDepositInfo, bind, lift. destruct info as [info|]; [|done]. simpl.
    pose proof (reserved_validity id env true s Hs) as [Hv _]. unfold ticketValidityPeriodFresh.
    destruct (readValidityPeriod env true s) as [[[v t]|] s']; done.
  - assert (pres (reserved id) (payer_Health env) (fun _ => True)) as Hp by (unfold payer_Health; act_auto). by apply Hp.
  - done.
Qed.

(** The checks before the reservation neither sign nor touch a mint record. *)
Lemma mint_guard_quiet env req s : sn_signed (mint_guard env req s).2 = sn_signed s /\
  (forall id, (mint_guard env req s).1 = Ok id -> id = TrimSpace (cq_MintRequestId req)).
Proof.
  unfold mint_guard, bind, require, store_op, ret, fail. repeat case_match; simplify_eq; simpl; (split; [done|]; by intros ? [=]).
Qed.

Lemma CreatePayment_signs env limits req s :
  let id := TrimSpace (cq_MintRequestId req) in
  let s' := (CreatePayment env limits req s).2 in
  sn_signed s' = sn_signed s \/ (~ reserved id s /\ reserved id s').
Proof.
  intros id s'. subst s'. unfold CreatePayment. pose proof (mint_guard_quiet env req s) as [Hq Hid].
  pose proof (reserved_guard id env req s) as Hkeep. unfold bind.
  destruct (mint_guard env req s) as [[id0|err] s1]; [|by left]. simpl in *. rewrite (Hid _ eq_refl) in *. clear Hid.
  fold id. unfold store_op, MintReserve, Update. simpl.
  destruct (mint_tombstones (sn_db s1) !! MintKey ks_Address id) as [tomb|] eqn:Et.
  - left. repeat case_match; simplify_eq; simpl; done.
  - right. split; [intros Hr; destruct (Hkeep Hr) as [Hr' _]; unfold reserved, tombstoned in Hr'; rewrite Et in Hr'; by destruct Hr'|].
    apply reserved_mint. unfold reserved, tombstoned. simpl. rewrite lookup_insert_eq. eauto.
Qed.

Lemma signing_calls_reserved id ops s : reserved id s -> signing_calls id ops s = 0%nat.
Proof.
  revert s. induction ops as [|op ops IH]; intros s Hs; simpl; [done|].
  rewrite (IH _ (reserved_step _ op _ Hs)). destruct (mints_for id op) eqn:Em; [|done]. simpl.
  destruct op; try done. simpl in *. to_prop. subst id.
  destruct (CreatePayment_signs env limits req s) as [->|[Hn _]]; [by rewrite bool_decide_true|done].
Qed.

(** C14: Over any history of payer RPCs and evictions, with whatever the chain and
    the payees answer, at most one call carrying a given mint id signs
    anything: a retry never signs a second batch, not after a failure in the
    middle of the first call, and not after its record was evicted. *)
Theorem mint_id_signs_once id ops s : (signing_calls id ops s <= 1)%nat.
Proof.
  revert s. induction ops as [|op ops IH]; intros s; simpl; [lia|].
  destruct (mints_for id op) eqn:Em; simpl; [|apply IH].
  case_bool_decide as Hl; simpl; [apply IH|]. destruct op; try done. simpl in *. to_prop. subst id.
  destruct (CreatePayment_signs env limits req s) as [E|[_ Hr]]; [by rewrite E in Hl|].
  by rewrite (signing_calls_reserved _ _ _ Hr).
Qed.

End tombstones.

(** ** No ticket slot is signed twice *)
Section slots.
Context `{Bolt M} `{EthCrypto} `{AuthWire} `{PayerWire}.

Abbreviation inv := (payer_inv (M := M)) (only parsing).

Definition wm_le (db db' : DB M) : Prop := forall w, watermark_of w db <= watermark_of w db'.

Lemma issued_mono (db db' : DB M) l : wm_le db db' -> Forall (issued db) l -> Forall (issued db') l.
Proof.
  intros Hle Hl. apply (Forall_impl _ _ _ Hl). intros t Ht. unfold issued in *. specialize (Hle (hex_encode (tk_RecipientRandHash t))). lia.
Qed.

Lemma inv_store {A} f (op : DB M -> result error A * DB M) :
  (forall db, wm_le db (op db).2) -> pres inv (store_op f op) (fun _ => True).
Proof.
  intros Ho. apply pres_store_op. intros s [Hc Hi Hs]. split; [done| |done]. simpl. by eapply issued_mono.
Qed.

Lemma inv_untouched {A} f (op : DB M -> result error A * DB M) :
  (forall db, sender_nonces (op db).2 = sender_nonces db) -> pres inv (store_op f op) (fun _ => True).
Proof. intros Ho. apply inv_store. intros db w. unfold watermark_of. by rewrite Ho. Qed.

Lemma inv_stream f rand : pres inv (store_op f (TicketStreamID rand)) (fun _ => True).
Proof. apply inv_untouched. intros db. unfold TicketStreamID, Update. repeat case_match; by simplify_eq. Qed.
Lemma inv_reserve f now s id fp : pres inv (store_op f (MintReserve now s id fp)) (fun _ => True).
Proof. apply inv_untouched. intros db. unfold MintReserve, Update. repeat case_match; by simplify_eq. Qed.
Lemma inv_record f now s id rec : pres inv (store_op f (recordMint now s id rec)) (fun _ => True).
Proof. by apply inv_untouched. Qed.

Lemma watermark_of_set w w' x (db : DB M) : 0 <= x < two32 ->
  watermark_of w' (with_sender_nonces (Some (<[w := be_bytes 4 x]> (opt_bucket (sender_nonces db)))) db) =
    if decide (w = w') then x else watermark_of w' db.
Proof.
  intros Hx. case_decide as Hw; [subst; by apply watermark_insert|]. by apply watermark_insert_ne.
Qed.

Lemma wm_resync w n db : 0 <= n < two32 -> wm_le db (ResyncSenderNonces w n db).2.
Proof.
  intros Hn w'. unfold ResyncSenderNonces, Update. case_bool_decide; [done|]. fold (watermark_of w db).
  destruct (Z.leb_spec n (watermark_of w db)); [done|]. cbn [snd]. rewrite watermark_of_set by done.
  case_decide; subst; lia.
Qed.
Lemma inv_resync f w n : 0 <= n < two32 -> pres inv (store_op f (ResyncSenderNonces w n)) (fun _ => True).
Proof. intros Hn. apply inv_store. intros db. by apply wm_resync. Qed.

Lemma wm_next w db : wm_le db (NextSenderNonce w db).2.
Proof.
  intros w'. unfold NextSenderNonce, Update. case_bool_decide; [done|]. fold (watermark_of w db).
  pose proof (watermark_range (opt_bucket (sender_nonces db)) w) as Hr. fold (watermark_of w db) in Hr.
  destruct (Z.eqb_spec (watermark_of w db) (two32 - 1)); [done|]. cbn [snd].
  assert (u32 (watermark_of w db + 1) = watermark_of w db + 1) as -> by (apply Z.mod_small; lia).
  rewrite watermark_of_set by lia. case_decide; subst; lia.
Qed.

(** *** The session cache *)
Lemma wf_cache_insert sessions index k old sess :
  wf_cache sessions index -> sessions !! k = Some old -> wf_session sess -> ss_cacheKey sess = k ->
  ss_workID sess = ss_workID old -> wf_cache (<[k := sess]> sessions) index.
Proof.
  intros [Hc Hi] Hk Hw Hkey Hid. split.
  - intros k' sess' [[<- <-]|[_ Hk']]%lookup_insert_Some; [done|by apply Hc].
  - intros w k' Hw'. destruct (Hi w k' Hw') as (sess' & Hs & Ew). destruct (decide (k' = k)) as [->|Hne].
    + exists sess. rewrite lookup_insert_eq. naive_solver.
    + exists sess'. by rewrite lookup_insert_ne.
Qed.

Lemma wf_cache_open sessions index k sess :
  wf_cache sessions index -> sessions !! k = None -> wf_session sess -> ss_cacheKey sess = k ->
  wf_cache (<[k := sess]> sessions) (<[ss_workID sess := k]> index).
Proof.
  intros [Hc Hi] Hk Hw Hkey. split.
  - intros k' sess' [[<- <-]|[_ Hk']]%lookup_insert_Some; [done|by apply Hc].
  - intros w k' [[<- <-]|[_ Hw']]%lookup_insert_Some; [exists sess; by rewrite lookup_insert_eq|].
    destruct (Hi w k' Hw') as (sess' & Hs & Ew). exists sess'. split; [|done].
    rewrite lookup_insert_ne; [done|]. intros <-. congruence.
Qed.

Lemma wf_cache_drop sessions index k sess :
  wf_cache sessions index -> sessions !! k = Some sess -> wf_cache (delete k sessions) (delete (ss_workID sess) index).
Proof.
  intros [Hc Hi] Hk. split.
  - intros k' sess' [_ Hk']%lookup_delete_Some. by apply Hc.
  - intros w k' [Hne Hw']%lookup_delete_Some. destruct (Hi w k' Hw') as (sess' & Hs & Ew).
    exists sess'. split; [|done]. rewrite lookup_delete_ne; [done|]. intros <-. simplify_eq.
Qed.

Lemma inv_cache_update f g : (forall m i, wf_cache m i -> wf_cache (f m) (g i)) -> pres inv (cache_update f g) (fun _ => True).
Proof. intros Hf. apply pres_cache_update. intros s [Hc Hi Hs]. split; [by apply Hf|done|done]. Qed.

Lemma inv_set_nonce session f : pres inv (set_nonce session f) (fun _ => True).
Proof.
  apply inv_cache_update. intros m i [Hc Hi]. split.
  - intros k sess [(<- & old & Hold & ->)|[_ Hk]]%lookup_alter_Some; [by apply (Hc _ old)|by apply Hc].
  - intros w k Hw. destruct (Hi w k Hw) as (sess & Hk & Ew). destruct (decide (k = ss_cacheKey session)) as [->|Hne].
    + eexists. split; [by rewrite lookup_alter_eq, Hk|done].
    + exists sess. by rewrite lookup_alter_ne.
Qed.

(** *** Signing *)
Lemma tickets_app l l' : tickets (l ++ l') = tickets l ++ tickets l'.
Proof. apply omap_app. Qed.

(** The slot of a fresh nonce is new. *)
Lemma inv_sign_ticket (s : SenderState M) (db' : DB M) t sessions index :
  inv s -> wm_le (sn_db s) db' ->
  watermark_of (hex_encode (tk_RecipientRandHash t)) (sn_db s) < tk_SenderNonce t ->
  tk_SenderNonce t <= watermark_of (hex_encode (tk_RecipientRandHash t)) db' ->
  wf_cache sessions index ->
  inv (mkSenderState db' sessions index (sn_validityPeriod s) (sn_validityReadAt s) (sn_fetches s)
         (sn_signed s ++ [SignedTicket t])).
Proof.
  intros [Hc Hi Hs] Hle Hlow Hhigh Hc'. split; simpl; [done| |]; rewrite tickets_app; simpl.
  - apply Forall_app. split; [by eapply issued_mono|]. by repeat constructor.
  - rewrite fmap_app. apply NoDup_app. split_and!; [done| |apply NoDup_singleton].
    intros slot (t' & -> & Hin)%list_elem_of_fmap Hslot%list_elem_of_singleton. injection Hslot as Hr Hn.
    rewrite Forall_forall in Hi. specialize (Hi t' Hin). unfold issued in Hi. rewrite Hr in Hi. lia.
Qed.

Lemma hex_encode_nonempty s : len s = 32 -> hex_encode s <> "".
Proof. destruct s; [done|]. by intros _. Qed.

Lemma inv_signOneTicket env session : wf_session session -> pres inv (signOneTicket env session) (fun _ => True).
Proof.
  intros [Hw [Hlen _]] s Hs. split; [|done]. unfold signOneTicket, nextNonce.
  assert (ss_workID session <> "") as Hne by (rewrite Hw; by apply hex_encode_nonempty).
  rewrite bool_decide_false by done. pose proof (wm_next (ss_workID session) (sn_db s)) as Hle.
  destruct (NextSenderNonce_spec (ss_workID session) (sn_db s) Hne) as [[_ [m E]]|(db' & E & Hw')];
    unfold bind, store_op; rewrite E in *; simpl in *; [by destruct s|].
  assert (inv (with_sn_db db' s)) as Hs1 by (destruct Hs; split; [done|by eapply issued_mono|done]).
  destruct (inv_set_nonce session (fun old => if old <? watermark_of (ss_workID session) (sn_db s) + 1
      then watermark_of (ss_workID session) (sn_db s) + 1 else old) _ Hs1) as [Hs2 _].
  unfold Sign. destruct (ks_Sign _); simpl; [|done].
  apply (inv_sign_ticket s); [done|done|simpl; rewrite <- Hw; lia|simpl; rewrite <- Hw; lia|by destruct Hs2].
Qed.

Lemma inv_signTickets env session n : wf_session session -> pres inv (signTickets env session n) (fun _ => True).
Proof.
  intros Hw. induction n as [|n IH]; simpl; [by apply pres_ret|].
  apply pres_seq; [by apply pres_map_err, inv_signOneTicket|]. intros tsp.
  apply pres_seq; [done|]. intros tsps. by apply pres_ret.
Qed.

(** *** Sessions *)
Lemma inv_fetch env req : sound_quotes env -> pres inv (fetch_quote env req) sound_params.
Proof.
  intros He s [Hc Hi Hs]. split; [by split|]. simpl. intros p E.
  destruct (e_fetch env (sn_fetches s) req) as [p'|] eqn:Ef; simplify_eq. by eapply He.
Qed.

Lemma rescale_pres (I : SenderState M -> Prop) env r w c o b cur :
  (forall req, pres I (fetch_quote env req) sound_params) -> sound_params cur ->
  pres I (rescaleTicketParams env r w c o b cur)
    (fun p => (sound_params p /\ credit p = w) /\ p_RecipientRandHash p = p_RecipientRandHash cur).
Proof.
  intros He Hcur. unfold rescaleTicketParams.
  eapply pres_bind; [apply pres_require|intros _ _]. eapply pres_bind; [apply He|intros p Hp].
  do 2 (eapply pres_bind; [apply pres_require|intros _ _]).
  eapply pres_bind; [apply pres_require|intros [] Hw; cbv beta in Hw]. eapply pres_bind; [apply pres_require|intros [] Hr; cbv beta in Hr].
  apply pres_ret. split; [split; [done|by apply Z.eqb_eq]|]. apply orb_true_iff in Hr as [Hr|Hr%bool_decide_eq_true]; [|done].
  apply Z.leb_le in Hr. destruct Hcur. lia.
Qed.

(** A session whose tickets credit [fv]. *)
Definition sized (fv : Z) (sess : senderSession) : Prop := wf_session sess /\ credit (ss_ticketParams sess) = fv.

(** The invariant with the session cached under a key. *)
Definition caching (key : string) (sess : senderSession) (s : SenderState M) : Prop :=
  inv s /\ sn_sessions s !! key = Some sess.

Lemma caching_fetch key sess env req : sound_quotes env -> pres (caching key sess) (fetch_quote env req) sound_params.
Proof. intros He s [Hs Hk]. destruct (inv_fetch env req He s Hs) as [Hs' Hq]. by split. Qed.

Lemma caching_update key old sess s : caching key old s -> wf_session sess -> ss_cacheKey sess = key ->
  ss_workID sess = ss_workID old -> caching key sess (with_sn_cache (<[key := sess]> (sn_sessions s)) (sn_workIDIndex s) s).
Proof.
  intros [[Hc Hi Hs] Hk] Hw Hkey Hid. split; [|apply lookup_insert_eq]. split; [by eapply wf_cache_insert|done|done].
Qed.

Lemma inv_reuse env r fv c o b key price quote old s : sound_quotes env -> caching key old s ->
  pres_at inv (reuse_session env r fv c o b key price quote old) (sized fv) s.
Proof.
  intros He Hold. destruct (proj1 (inv_cache _ (proj1 Hold)) _ _ (proj2 Hold)) as [[Hid Hp] Hkey].
  set (sess := ss_with_quote price quote old). unfold reuse_session. fold sess.
  assert (caching key sess (with_sn_cache (<[key := sess]> (sn_sessions s)) (sn_workIDIndex s) s)) as Hs1
    by by apply (caching_update key old).
  apply pres_at_update. destruct (Z.eqb_spec (credit (ss_ticketParams sess)) fv) as [Ec|_];
    [by apply pres_at_ret; [apply Hs1|]|].
  apply (pres_at_bind _ (caching key sess) _ _
    (fun p => (sound_params p /\ credit p = fv) /\ p_RecipientRandHash p = p_RecipientRandHash (ss_ticketParams sess)));
    [|by intros ? []|].
  { apply rescale_pres; [|done|done]. intros req. by apply caching_fetch. }
  intros p s2 [[Hsp Hcr] Hr] Hs2. apply pres_at_get. rewrite (proj2 Hs2).
  assert (wf_session (ss_with_ticketParams p sess)) as Hw' by (split; [simpl; by rewrite Hr|done]).
  apply pres_at_update, pres_at_ret; [|done]. by apply (caching_update key sess).
Qed.

(** The invariant with nothing cached under a key. *)
Definition uncached (key : string) (s : SenderState M) : Prop := inv s /\ sn_sessions s !! key = None.

Lemma uncached_fetch key env req : sound_quotes env -> pres (uncached key) (fetch_quote env req) sound_params.
Proof. intros He s [Hs Hk]. destruct (inv_fetch env req He s Hs) as [Hs' Hq]. by split. Qed.
Lemma uncached_resync key f w n : 0 <= n < two32 -> pres (uncached key) (store_op f (ResyncSenderNonces w n)) (fun _ => True).
Proof.
  intros Hn. apply pres_store_op. intros s [Hs Hk]. split; [|done].
  destruct Hs as [Hc Hi Hu]. split; [done| |done]. eapply issued_mono; [|done]. by apply wm_resync.
Qed.

Lemma inv_open env r fv c o b key account stream price quote s : sound_quotes env -> uncached key s ->
  pres_at inv (open_session env r fv c o b key account stream price quote) (sized fv) s.
Proof.
  intros He Hs. unfold open_session.
  eapply (pres_at_bind _ (uncached key)); [by apply uncached_fetch|by intros ? []|]. intros p s1 Hp Hs1.
  eapply (pres_at_bind _ (uncached key)); [by apply pres_require|by intros ? []|]. intros _ s2 _ Hs2.
  apply (pres_at_bind _ (uncached key) _ _ (fun p => sound_params p /\ credit p = fv)); [|by intros ? []|].
  { destruct (Z.eqb_spec (credit p) fv) as [Ec|_]; [by apply pres_at_ret|].
    eapply pres_weaken; [apply rescale_pres; [|done]| |done]; [|by intros ? []]. intros req. by apply uncached_fetch. }
  intros p' s3 [Hp' Hcr] Hs3. cbv zeta.
  apply (pres_at_bind _ (uncached key) _ _ (fun _ => True)); [|by intros ? []|].
  { destruct (p_HasSeenNonces p'); [|by apply pres_at_ret].
    apply (pres_seq _ _ _ (fun _ => True)); [apply uncached_resync, Hp'| |done]. intros _. by apply pres_ret. }
  intros _ s4 _ [Hs4 Hk]. apply pres_at_get. rewrite Hk. apply pres_at_update, pres_at_ret; [|by split].
  destruct Hs4 as [Hc Hu Hn]. split; [|done|done].
  by apply (wf_cache_open _ _ key (mkSenderSession (hex_encode (p_RecipientRandHash p')) key p' 0 price quote c o)).
Qed.

Lemma inv_find env r fv c o b price quote d a : sound_quotes env ->
  pres inv (findOrOpenSession env r fv c o b price quote d a) (sized fv).
Proof.
  intros He. unfold findOrOpenSession. apply pres_seq; [apply inv_stream|]. intros stream.
  apply pres_get_at. intros s Hs. destruct (sn_sessions s !! _) as [sess|] eqn:E; [by apply inv_reuse|by apply inv_open].
Qed.

Lemma inv_rotate env old r acc b q fu : sound_quotes env ->
  pres inv (rotateExhaustedSession env old r acc b q fu) (sized (fn_fundedValueWei fu)).
Proof.
  intros He. unfold rotateExhaustedSession.
  apply pres_get_at. intros s Hs. apply (pres_at_bind _ inv _ _ (fun _ => True)); [|done|].
  { destruct (sn_sessions s !! ss_cacheKey old) as [cur|] eqn:Ek; [|by apply pres_at_ret].
    destruct (bool_decide _); [|by apply pres_at_ret]. destruct Hs as [Hc Hi Hn]. split; [|done].
    split; [by apply wf_cache_drop|done|done]. }
  intros _ s1 _ Hs1. revert s1 Hs1. eapply pres_bind; [by apply pres_map_err, inv_find|intros next Hnext].
  eapply pres_bind; [apply pres_require|intros _ _]. by apply pres_ret.
Qed.

(** *** Every RPC *)
Lemma inv_Sign_auth p d : pres inv (Sign (SignedAuthorization p) d) (fun _ => True).
Proof.
  intros s [Hc Hi Hn]. split; [|done]. unfold Sign. destruct (ks_Sign d); simpl; [|by split].
  split; simpl; [done|rewrite tickets_app; simpl; by rewrite app_nil_r|rewrite tickets_app; simpl; by rewrite app_nil_r].
Qed.
Lemma inv_validity env fresh : pres inv (readValidityPeriod env fresh) (fun _ => True).
Proof. intros s [Hc Hi Hn]. unfold readValidityPeriod. split; [|done]. repeat case_match; by split. Qed.

#[local] Hint Resolve inv_stream inv_reserve inv_record inv_Sign_auth inv_validity : act.

Lemma inv_guard env req : pres inv (mint_guard env req) (fun _ => True).
Proof. unfold mint_guard. act_auto. Qed.
Lemma inv_policy env limits acc fu req : pres inv (mint_policy env limits acc fu req) (fun _ => True).
Proof. unfold mint_policy, ticketValidityPeriod. act_auto. Qed.
Lemma inv_zero env id fp req : pres inv (record_zero_shortfall env id fp req) (fun _ => True).
Proof. unfold record_zero_shortfall. act_auto. Qed.

Lemma inv_choose env acc fu req : sound_quotes env ->
  pres inv (choose_session env acc fu req) (fun c => sized (fn_fundedValueWei fu) c.1.1).
Proof.
  intros He. unfold choose_session. cbv zeta.
  assert (pres inv (do! session <- map_err (wrap "ticket params")
      (findOrOpenSession env (cq_Recipient req) (fn_fundedValueWei fu) (ai_CapabilityName acc) (ai_Offering acc)
         (cq_TicketParamsBaseUrl req) (toPriceInfo acc (fn_estimatedUnits fu)) (rq_quote req) (rq_domain req) (rq_account req));
    ret (session, "", false))%act (fun c => sized (fn_fundedValueWei fu) c.1.1)) as Hopen.
  { eapply pres_bind; [by apply pres_map_err, inv_find|intros session Hw]. by apply pres_ret. }
  apply pres_seq; [eapply pres_true, pres_get|intros s]. destruct (sn_sessions s !! _) as [cached|]; [|done].
  apply pres_seq; [by apply pres_lift|intros used]. destruct (_ <=? _); [|done].
  eapply pres_bind; [by apply inv_rotate|intros session Hw]. by apply pres_ret.
Qed.

Lemma inv_rotate_for_batch env acc fu req n chosen : sound_quotes env -> sized (fn_fundedValueWei fu) chosen.1.1 ->
  pres inv (rotate_for_batch env acc fu req n chosen) (fun c => sized (fn_fundedValueWei fu) c.1).
Proof.
  destruct chosen as [[session pred] refreshed]. intros He Hw. unfold rotate_for_batch. destruct (_ || _); [by apply pres_ret|].
  apply pres_seq; [eapply pres_true, pres_get|intros s]. apply pres_seq; [by apply pres_lift|intros used].
  destruct (_ <? _); [|by apply pres_ret]. eapply pres_bind; [by apply inv_rotate|intros rotated Hw']. by apply pres_ret.
Qed.

Lemma inv_sign_and_record env id fp fu v n ev session pred : wf_session session ->
  pres inv (sign_and_record env id fp fu v n ev session pred) (fun _ => True).
Proof. intros Hw. unfold sign_and_record. apply pres_seq; [by apply inv_signTickets|intros tsps]. act_auto. Qed.

Lemma inv_mint env limits id fp req : sound_quotes env -> pres inv (mint env limits id fp req) (fun _ => True).
Proof.
  intros He. unfold mint. apply pres_seq; [by apply pres_lift|intros [acc fu]]. destruct (_ =? _); [apply inv_zero|].
  apply pres_seq; [apply inv_policy|intros v]. eapply pres_bind; [by apply inv_choose|intros chosen Hw].
  apply pres_seq; [by apply pres_lift|intros [n ev]]. eapply pres_bind; [by apply inv_rotate_for_batch|intros [session pred] Hw'].
  by apply inv_sign_and_record, Hw'.
Qed.

#[local] Hint Resolve inv_guard inv_mint : act.

Definition sound_rpc (op : payer_rpc) : Prop :=
  match op with PayerCreatePayment env _ _ => sound_quotes env | _ => True end.

Lemma inv_step op s : sound_rpc op -> inv s -> inv (payer_step op s).
Proof.
  intros Hop Hs. destruct op as [env limits req|env limits req|w c o r|env info|env|cutoff]; simpl in *.
  - assert (pres inv (CreatePayment env limits req) (fun _ => True)) as Hp by (unfold CreatePayment; act_auto). by apply Hp.
  - assert (pres inv (CreateSpendAuthorization env limits req) (fun _ => True)) as Hp
      by (unfold CreateSpendAuthorization; act_auto). by apply Hp.
  - assert (pres inv (ReportPaymentResult w c o r) (fun _ => True)) as Hp; [|by apply Hp].
    unfold ReportPaymentResult. act_auto. unfold evictSessionByWorkID. apply pres_get_at. intros s1 Hs1.
    destruct (sn_workIDIndex s1 !! w) as [key|] eqn:Ei; [|by apply pres_at_ret].
    apply pres_at_update, pres_at_ret; [|done]. destruct Hs1 as [Hc Hi Hn]. split; [|done|done].
    destruct (proj2 Hc _ _ Ei) as (sess & Hk & <-). by apply wf_cache_drop.
  - unfold GetDepositInfo, bind, lift. destruct info as [info|]; [|done]. simpl.
    pose proof (inv_validity env true s Hs) as [Hv _]. unfold ticketValidityPeriodFresh.
    destruct (readValidityPeriod env true s) as [[[v t]|] s']; done.
  - assert (pres inv (payer_Health env) (fun _ => True)) as Hp by (unfold payer_Health; act_auto). by apply Hp.
  - by destruct Hs.
Qed.

Definition rpc_run (ops : list payer_rpc) (s : SenderState M) : SenderState M := foldl (fun s op => payer_step op s) s ops.

Lemma inv_run ops s : Forall sound_rpc ops -> inv s -> inv (rpc_run ops s).
Proof.
  revert s. induction ops as [|op ops IH]; intros s Hops Hs; [done|]. inversion_clear Hops. simpl.
  apply IH; [done|]. by apply inv_step.
Qed.

(** The daemon after a start on a database: nothing is cached or signed yet. *)
Definition payer_start (db : DB M) : SenderState M := mkSenderState db ∅ ∅ 0 0 0 [].

Lemma inv_start db : inv (payer_start db).
Proof. split; [|constructor|constructor]. by split. Qed.

(** C4: The payer's state stays well formed and no two tickets it signs share a
    slot: over any history of RPCs from a start on any database, with quotes
    that carry 32-byte rands, every cached session sits under its own key with
    the work id of its rand, every work id the index knows leads to the live
    session of that id, and the pairs of rand and nonce of all tickets signed
    are distinct and below the durable watermarks, so that no later start can
    reuse them. *)
Theorem payer_never_reuses_slots ops db :
  Forall sound_rpc ops ->
  let s := rpc_run ops (payer_start db) in
  wf_cache (sn_sessions s) (sn_workIDIndex s) /\
  NoDup (ticket_slot <$> tickets (sn_signed s)) /\
  Forall (issued (sn_db s)) (tickets (sn_signed s)).
Proof.
  intros Hops s. by destruct (inv_run ops (payer_start db) Hops (inv_start db)).
Qed.

End slots.

(** ** A concrete payer *)
Definition demo_times : AuthWire := {|
  unmarshal_auth _ := None;
  unmarshal_partial _ := mkSpendAuthorization None "";
  marshal_payload p := Some (py_AuthorizationId p);
  marshal_auth a := Some (sa_Signature a);
  parse_time := SetString10;
  format_time := dec_string;
|}.
Definition demo_payer : PayerWire := {|
  marshal_payment _ := Some "payment";
  marshal_price p := Some (match p with Some p => ap_Capability p | None => "" end);
  marshal_funding f := Some (match f with Some f => default "" (fi_FundedValueWei f) | None => "" end);
  marshal_account_funding a := Some (match a with Some a => default "" (af_ObservedAvailableWei a) | None => "" end);
  json_quote q := Some (qr_QuoteId q);
  parse_quote _ := None;
  ks_Address := demo_sender;
  ks_Sign _ := Some demo_sig;
  valid_pubkey _ := true;
  BrokerURI u := if bool_decide (u = "") then None else Some u;
|}.

Definition demo_domain_id : string := "0x" +:+ hex_encode (be_bytes 32 77).

(** A payee whose tickets always win: a ticket credits its face value. *)
Definition demo_quote (rand : Z) (req : TicketParamsRequest) : Types.TicketParams :=
  Types.mkTicketParams (tq_WholesaleAccountID req) (tq_TicketStreamID req) demo_domain_id (tq_Recipient req)
    (tq_FaceValue req) MaxWinProb (be_bytes 32 rand) "seed" 0 None 0 false.
Definition demo_env (now : Z) (fetch : nat -> TicketParamsRequest -> result string Types.TicketParams) : Env :=
  mkEnv now (Ok "stream-bytes") (Ok (Some (mkSenderInfo (Some 10) (Some (Some 10)) 0))) 5 (be_bytes 32 9) (Ok 2) fetch.
Definition steady_payee (rand : Z) (n : nat) (req : TicketParamsRequest) : result string Types.TicketParams :=
  Ok (demo_quote rand req).

Lemma steady_payee_sound now rand : sound_quotes (demo_env now (steady_payee rand)).
Proof. intros n req p [= <-]. split; [apply (len_be_bytes 32)|]. simpl. unfold two32. lia. Qed.

Definition demo_price : AcceptedPrice :=
  mkAcceptedPrice (Some (big_bytes 7)) 2 "token" "cap" "off" (Some (mkQuoteRef "quote-1" 1 "cfp" "rfp")).
(** Fund an account that holds [observed] up to 100 wei. *)
Definition demo_mint (id : string) (observed : Z) : CreatePaymentRequest :=
  mkCreatePaymentRequest "payee-address-20byte" "https://broker" (Some demo_price)
    (Some (mkFundingIntent 1 (Some (big_bytes 1000)) 0)) id ""
    (Some (mkAccountFundingIntent "acct" (Some (big_bytes 100)) (Some (big_bytes observed)) demo_domain_id)).
Definition no_limits : Limits := mkLimits None None None ∅.

(** Two payments on one session, the second re-quoted to another amount, a
    retry of the first and a rejection that evicts the session. *)
Definition demo_history : list payer_rpc :=
  let pay id observed := PayerCreatePayment (demo_env 1 (steady_payee 5)) no_limits (demo_mint id observed) in
  [pay "mint-1" 40; pay "mint-2" 90; pay "mint-1" 40;
   PayerReportPaymentResult (hex_encode (be_bytes 32 5)) "cap" "off" INVALID_RECIPIENT_RAND; pay "mint-3" 90].

Abbreviation demo_run ops :=
  (@rpc_run (gmap string) _ demo_eth demo_times demo_payer ops (payer_start (M := gmap string) Open)) (only parsing).

Lemma payer_never_reuses_slots_witness :
  NoDup (ticket_slot <$> tickets (sn_signed (demo_run demo_history))) /\
  (tk_SenderNonce <$> tickets (sn_signed (demo_run demo_history))) = [1; 2; 3] /\
  ((fun t => tk_FaceValue t) <$> tickets (sn_signed (demo_run demo_history))) = [Some 60; Some 10; Some 10].
Proof.
  assert (Forall sound_rpc demo_history) as Hs by (repeat apply Forall_cons_2; try apply Forall_nil_2; try apply steady_payee_sound; exact I).
  split; [exact (proj1 (proj2 (@payer_never_reuses_slots (gmap string) _ demo_eth demo_times demo_payer demo_history Open Hs)))|].
  split; vm_refl.
Defined.

(** The bound is met: the first payment of the history signs, its retry does not. *)
Example mint_id_signs_demo :
  @signing_calls (gmap string) _ demo_eth demo_times demo_payer "mint-1" demo_history (payer_start (M := gmap string) Open) = 1%nat.
Proof. vm_refl. Qed.
