(* ===== verification/PaymentsExact.v ===== *)
(** * What one payment contains

    A fresh [CreatePayment] that succeeds signs exactly one ticket, worth the
    account's shortfall, under a nonce above every earlier one. *)
From S2P Require Import Prelude.
From S2P Require Import GoBytes.
From S2P Require Import GoCodecs.
From S2P Require Import GoStrings.
From S2P Require Import Actions.
From S2P Require Import Bolt.
From S2P Require Import Ledger.
From S2P Require Import Nonces.
From S2P Require Import Mints.
From S2P Require Import Fences.
From S2P Require Import Limits.
From S2P Require Import Tickets.
From S2P Require Import TicketsSpec.
From S2P Require Import Receiver.
From S2P Require Import Types.
From S2P Require Import Spendauth.
From S2P Require Import Sender.
From S2P Require Import Payments.
From S2P Require Import PaymentsSpec.

Lemma store_op_ok {M A} f (op : DB M -> result error A * DB M) s a s' :
  store_op f op s = (Ok a, s') -> exists db, op (sn_db s) = (Ok a, db) /\ s' = with_sn_db db s.
Proof. unfold store_op. destruct (op (sn_db s)) as [[]]; intros [=]; simplify_eq; eauto. Qed.
(** Take a successful run apart, one action at a time. *)
Ltac act_inv :=
  repeat match goal with
  | H : bind _ _ _ = (Ok _, _) |- _ => apply bind_ok in H as (? & ? & ? & H)
  | H : ret _ _ = (Ok _, _) |- _ => apply ret_ok in H as [? ?]; simplify_eq
  | H : require _ _ _ = (Ok _, _) |- _ => apply require_ok in H as [? ?]; simplify_eq
  | H : lift _ _ _ = (Ok _, _) |- _ => apply lift_ok in H as [? ?]; simplify_eq
  | H : get _ = (Ok _, _) |- _ => apply get_ok in H as [? ?]; simplify_eq
  | H : map_err _ _ _ = (Ok _, _) |- _ => apply map_err_ok in H
  | H : store_op _ _ _ = (Ok _, _) |- _ => apply store_op_ok in H as (? & ? & ?); simplify_eq
  end.

Section exact.
Context `{Bolt M} `{EthCrypto} `{AuthWire} `{PayerWire}.

Abbreviation inv := (payer_inv (M := M)) (only parsing).

(** ** Before the signature nothing is signed and no watermark falls *)
Definition quiet (s0 s : SenderState M) : Prop := wm_le (sn_db s0) (sn_db s) /\ sn_signed s = sn_signed s0.

Lemma quiet_refl s : quiet s s.
Proof. split; [intros w; lia|done]. Qed.

Lemma quiet_store {A} s0 f (op : DB M -> result error A * DB M) :
  (forall db, wm_le db (op db).2) -> pres (quiet s0) (store_op f op) (fun _ => True).
Proof.
  intros Ho. apply pres_store_op. intros s [Hle Hs]. split; [intros w|done].
  specialize (Hle w). specialize (Ho (sn_db s) w). simpl. lia.
Qed.
Lemma quiet_untouched {A} s0 f (op : DB M -> result error A * DB M) :
  (forall db, sender_nonces (op db).2 = sender_nonces db) -> pres (quiet s0) (store_op f op) (fun _ => True).
Proof. intros Ho. apply quiet_store. intros db w. unfold watermark_of. by rewrite Ho. Qed.
Lemma quiet_stream s0 f rand : pres (quiet s0) (store_op f (TicketStreamID rand)) (fun _ => True).
Proof. apply quiet_untouched. intros db. unfold TicketStreamID, Update. repeat case_match; by simplify_eq. Qed.
Lemma quiet_reserve s0 f now s id fp : pres (quiet s0) (store_op f (MintReserve now s id fp)) (fun _ => True).
Proof. apply quiet_untouched. intros db. unfold MintReserve, Update. repeat case_match; by simplify_eq. Qed.
Lemma quiet_record s0 f now s id rec : pres (quiet s0) (store_op f (recordMint now s id rec)) (fun _ => True).
Proof. by apply quiet_untouched. Qed.
Lemma quiet_cache s0 f g : pres (quiet s0) (cache_update f g) (fun _ => True).
Proof. by apply pres_cache_update. Qed.
Lemma quiet_validity s0 env fresh : pres (quiet s0) (readValidityPeriod env fresh) (fun _ => True).
Proof. intros s Hs. unfold readValidityPeriod. split; [|done]. repeat case_match; done. Qed.
Lemma quiet_fetch s0 env req : sound_quotes env -> pres (quiet s0) (fetch_quote env req) sound_params.
Proof.
  intros He s Hs. split; [done|]. simpl. intros p E.
  destruct (e_fetch env (sn_fetches s) req) as [p'|] eqn:Ef; simplify_eq. by eapply He.
Qed.
#[local] Hint Resolve quiet_stream quiet_reserve quiet_record quiet_cache quiet_validity : act.

Lemma quiet_rescale s0 env r w c o b cur : sound_quotes env ->
  pres (quiet s0) (rescaleTicketParams env r w c o b cur) sound_params.
Proof.
  intros He. unfold rescaleTicketParams. act_step; [eapply pres_true, pres_require|].
  eapply pres_bind; [by apply quiet_fetch|intros p Hp]. act_auto.
Qed.
Lemma quiet_open s0 env r fv c o b key account stream price quote : sound_quotes env ->
  pres (quiet s0) (open_session env r fv c o b key account stream price quote) (fun _ => True).
Proof.
  intros He. unfold open_session. eapply pres_bind; [by apply quiet_fetch|intros p Hp].
  act_step; [eapply pres_true, pres_require|].
  apply (pres_bind _ _ _ sound_params); [destruct (_ =? _); [by apply pres_ret|by apply quiet_rescale]|].
  intros p' Hp'. act_auto. apply quiet_store. intros db. by apply wm_resync, Hp'.
Qed.
Lemma quiet_find s0 env r fv c o b price quote d a : sound_quotes env ->
  pres (quiet s0) (findOrOpenSession env r fv c o b price quote d a) (fun _ => True).
Proof.
  intros He. unfold findOrOpenSession, reuse_session. act_auto; [|by apply quiet_open].
  by eapply pres_true, quiet_rescale.
Qed.
Lemma quiet_rotate s0 env old r acc b q fu : sound_quotes env ->
  pres (quiet s0) (rotateExhaustedSession env old r acc b q fu) (fun _ => True).
Proof. intros He. unfold rotateExhaustedSession. act_auto. by apply quiet_find. Qed.
Lemma quiet_choose s0 env acc fu req : sound_quotes env -> pres (quiet s0) (choose_session env acc fu req) (fun _ => True).
Proof. intros He. unfold choose_session. act_auto; (by apply quiet_find || by apply quiet_rotate). Qed.
Lemma quiet_rotate_for_batch s0 env acc fu req n chosen : sound_quotes env ->
  pres (quiet s0) (rotate_for_batch env acc fu req n chosen) (fun _ => True).
Proof. intros He. unfold rotate_for_batch. act_auto. by apply quiet_rotate. Qed.
Lemma quiet_policy s0 env limits acc fu req : pres (quiet s0) (mint_policy env limits acc fu req) (fun _ => True).
Proof. unfold mint_policy, ticketValidityPeriod. act_auto. Qed.
Lemma quiet_guard s0 env req : pres (quiet s0) (mint_guard env req) (fun _ => True).
Proof. unfold mint_guard. act_auto. Qed.

(** ** The shortfall *)
Lemma parseBigUInt_ok field v n : parseBigUInt field v = Ok n -> exists b, v = Some b /\ n = be_Z b.
Proof. unfold parseBigUInt. destruct v as [b|]; [|done]. destruct (_ <? _); [done|]. intros [= <-]. eauto. Qed.

(** What is funded is what the account lacks of its target, within the
    request's ceiling. *)
Lemma mint_intent_ok req acc fu : mint_intent req = Ok (acc, fu) ->
  parseAcceptedPrice (cq_AcceptedPrice req) = Ok acc /\
  exists f a target observed ceiling, cq_Funding req = Some f /\ cq_AccountFunding req = Some a /\
    af_TargetAvailableWei a = Some target /\ af_ObservedAvailableWei a = Some observed /\
    fi_FundedValueWei f = Some ceiling /\
    fn_fundedValueWei fu = Z.max 0 (be_Z target - be_Z observed) /\ fn_fundedValueWei fu <= be_Z ceiling.
Proof.
  unfold mint_intent. destruct (parseAcceptedPrice _) as [acc'|]; [|done].
  destruct (parseFundingIntent _) as [fu'|] eqn:Ef; [|done]. destruct (negb _); [done|].
  destruct (accountShortfall _ _) as [sh|] eqn:Es; [|done]. destruct (negb _); [done|]. intros [= <- <-]. split; [done|].
  unfold parseFundingIntent in Ef. destruct (cq_Funding req) as [f|]; [|done].
  destruct (parseBigUInt _ (fi_FundedValueWei f)) as [ceil|] eqn:Ec; [|done].
  destruct (Z.leb_spec ceil 0); [done|]. destruct (_ && _); [done|]. injection Ef as <-.
  apply parseBigUInt_ok in Ec as (cb & Hcb & ->). unfold accountShortfall in Es. destruct (cq_AccountFunding req) as [a|]; [|done].
  destruct (parseBigUInt _ (af_TargetAvailableWei a)) as [t|] eqn:Et; [|done].
  destruct (parseBigUInt _ (af_ObservedAvailableWei a)) as [ob|] eqn:Eo; [|done].
  apply parseBigUInt_ok in Et as (tb & Htb & ->). apply parseBigUInt_ok in Eo as (obb & Hob & ->).
  exists f, a, tb, obb, cb. split_and!; try done; simpl in *; repeat case_match; to_prop; simplify_eq; lia.
Qed.

(** ** Sizing and signing *)
Lemma ticket_count_self f : 0 < f -> ticket_count f f = 1.
Proof. intros Hf. unfold ticket_count. rewrite Z.quot_same, Z.mod_same by lia. done. Qed.

Lemma size_batch_ok limits fu req session n ev :
  size_batch limits fu req session = Ok (n, ev) -> credit (ss_ticketParams session) = fn_fundedValueWei fu ->
  n = 1 /\ ev = fn_fundedValueWei fu /\ 0 < fn_fundedValueWei fu /\
  p_SettlementDomainID (ss_ticketParams session) = rq_domain req /\
  (forall max, l_MaxPaymentWei limits = Some max -> fn_fundedValueWei fu <= max).
Proof.
  unfold size_batch. intros E Hc. destruct (bool_decide _) eqn:Ed; [|done]. simpl in E. destruct (_ =? 0); [done|].
  rewrite Hc in E. destruct (Z.leb_spec (fn_fundedValueWei fu) 0); [done|].
  rewrite ticket_count_self in E by lia. destruct (_ <? _); [done|].
  destruct (CheckSignedTicketBatch _ _ _) as [[]|] eqn:Ek; [|done]. injection E as <- <-.
  apply CheckSignedTicketBatch_ok in Ek as [Hmax _]. rewrite Z.mul_1_r in *. to_prop. by split_and!.
Qed.

Lemma signOne_ok env session s tsp s' : wf_session session -> signOneTicket env session s = (Ok tsp, s') ->
  let n := watermark_of (ss_workID session) (sn_db s) + 1 in
  let t := session_ticket env session n in
  exists sig, tsp = mkTicketSenderParams n sig /\ ks_Sign (Hash t) = Some sig /\
    sn_signed s' = sn_signed s ++ [SignedTicket t] /\ watermark_of (ss_workID session) (sn_db s') = n.
Proof.
  intros [Hw [Hlen _]] E. unfold signOneTicket, nextNonce in E.
  assert (ss_workID session <> "") as Hne by (rewrite Hw; by apply hex_encode_nonempty).
  rewrite bool_decide_false in E by done.
  destruct (NextSenderNonce_spec (ss_workID session) (sn_db s) Hne) as [[_ [m En]]|(db' & En & Hw')];
    unfold bind, store_op in E; rewrite En in E; [done|]. simpl in E. unfold Sign in E.
  destruct (ks_Sign _) as [sig|] eqn:Es; [|done]. injection E as <- <-. by exists sig.
Qed.

Lemma signTickets_one env session s tsps s' : wf_session session -> signTickets env session 1 s = (Ok tsps, s') ->
  let n := watermark_of (ss_workID session) (sn_db s) + 1 in
  let t := session_ticket env session n in
  exists sig, tsps = [mkTicketSenderParams n sig] /\ ks_Sign (Hash t) = Some sig /\
    sn_signed s' = sn_signed s ++ [SignedTicket t] /\ watermark_of (ss_workID session) (sn_db s') = n.
Proof.
  intros Hw E n t. simpl in E. act_inv.
  match goal with Es : signOneTicket _ _ _ = _ |- _ => destruct (signOne_ok _ _ _ _ _ Hw Es) as (sig & -> & Hsig & Hl & Hn) end. by exists sig.
Qed.

(** The checks of a call leave the mint records alone. *)
Lemma mint_guard_tombstones env req s id s1 :
  mint_guard env req s = (Ok id, s1) -> mint_tombstones (sn_db s1) = mint_tombstones (sn_db s).
Proof.
  intros E. unfold mint_guard in E. act_inv. case_bool_decide; act_inv; [done|].
  match goal with Et : TicketStreamID _ _ = _ |- _ => revert Et end.
  unfold TicketStreamID, Update. repeat case_match; intros; by simplify_eq.
Qed.

Lemma record_zero_ok env id fp req s resp s' : record_zero_shortfall env id fp req s = (Ok resp, s') ->
  sn_signed s' = sn_signed s /\ cr_TicketsCreated resp = 0 /\ cr_PaymentBytes resp = "".
Proof. unfold record_zero_shortfall. cbv zeta. intros E. act_inv. done. Qed.

Lemma sign_and_record_ok env id fp fu v ev session pred s resp s' : wf_session session ->
  sign_and_record env id fp fu v 1 ev session pred s = (Ok resp, s') ->
  let t := session_ticket env session (watermark_of (ss_workID session) (sn_db s) + 1) in
  exists sig, ks_Sign (Hash t) = Some sig /\ sn_signed s' = sn_signed s ++ [SignedTicket t] /\
    watermark_of (ss_workID session) (sn_db s') = tk_SenderNonce t /\
    marshal_batch (payment_batch env session [mkTicketSenderParams (tk_SenderNonce t) sig]) = Some (cr_PaymentBytes resp) /\
    cr_TicketsCreated resp = 1 /\ cr_ExpectedValue resp = Some (big_bytes ev) /\
    cr_FundedValueWei resp = Some (big_bytes (fn_fundedValueWei fu)) /\ cr_WorkId resp = ss_workID session.
Proof.
  intros Hw E t. unfold sign_and_record in E. cbv zeta in E. apply bind_ok in E as (tsps & s1 & Es & E).
  destruct (signTickets_one _ _ _ _ _ Hw Es) as (sig & -> & Hsig & Hl & Hn).
  apply bind_ok in E as (bytes & s2 & [Eb ->]%lift_ok & E). act_inv.
  destruct (marshal_batch _) as [b|] eqn:Em; [|done]. injection Eb as ->.
  match goal with Er : recordMint _ _ _ _ _ = _ |- _ => unfold recordMint, Update in Er; simplify_eq end. by exists sig.
Qed.

(** The stages of [mint] after the intent, on a run that succeeds. *)
Lemma mint_ok env limits id fp req acc fu s resp s' :
  sound_quotes env -> inv s -> mint_intent req = Ok (acc, fu) -> fn_fundedValueWei fu <> 0 ->
  mint env limits id fp req s = (Ok resp, s') ->
  exists session v pred s1, wf_session session /\ credit (ss_ticketParams session) = fn_fundedValueWei fu /\
    0 < fn_fundedValueWei fu /\
    CheckMint limits (ai_WorkUnitName acc) (ai_PricePerUnitWei acc) (ai_UnitsPerPrice acc) (fn_fundedValueWei fu) = Ok tt /\
    (exists info, e_senderInfo env = Ok info /\ validateSenderInfo info (e_round env) = Ok tt) /\
    quiet s s1 /\ sign_and_record env id fp fu v 1 (fn_fundedValueWei fu) session pred s1 = (Ok resp, s').
Proof.
  intros He Hs Ei Hne E. unfold mint in E. apply bind_ok in E as ([acc' fu'] & s0 & [Ei' ->]%lift_ok & E).
  rewrite Ei in Ei'. injection Ei' as <- <-. rewrite (proj2 (Z.eqb_neq _ _) Hne) in E.
  apply bind_ok in E as (v & s1 & Ep & E). apply bind_ok in E as (chosen & s2 & Ech & E).
  apply bind_ok in E as ([n ev] & s3 & [Eb ->]%lift_ok & E). apply bind_ok in E as ([session pred] & s4 & Er & E).
  pose proof (quiet_refl s) as Hq.
  destruct (pres_ok _ _ _ _ _ _ (quiet_policy s env limits acc fu req) Hq Ep) as [Hq1 _].
  destruct (pres_ok _ _ _ _ _ _ (inv_policy env limits acc fu req) Hs Ep) as [Hs1 _].
  destruct (pres_ok _ _ _ _ _ _ (quiet_choose s env acc fu req He) Hq1 Ech) as [Hq2 _].
  destruct (pres_ok _ _ _ _ _ _ (inv_choose env acc fu req He) Hs1 Ech) as [Hs2 Hw].
  destruct (pres_ok _ _ _ _ _ _ (quiet_rotate_for_batch s env acc fu req n chosen He) Hq2 Er) as [Hq4 _].
  destruct (pres_ok _ _ _ _ _ _ (inv_rotate_for_batch env acc fu req n chosen He Hw) Hs2 Er) as [Hs4 [Hw' Hc']].
  destruct (size_batch_ok _ _ _ _ _ _ Eb (proj2 Hw)) as (-> & -> & Hpos & _ & _).
  unfold mint_policy in Ep. apply bind_ok in Ep as ([] & ? & [Ek ->]%lift_ok & Ep).
  apply bind_ok in Ep as (? & ? & [_ ->]%require_ok & Ep). apply bind_ok in Ep as (info & ? & [Einfo ->]%lift_ok & Ep).
  apply bind_ok in Ep as ([] & ? & [Ev ->]%lift_ok & _).
  exists session, v, pred, s4. split_and!; try done. eauto.
Qed.

(** C3: A payment funds the shortfall, exactly: when [CreatePayment] succeeds for a
    mint id not used before, what it funds is the account's target less its
    observed balance, or zero, within the request's ceiling.  For zero nothing
    is signed.  Otherwise the payer has a deposit and a reserve, price and
    amount are within its limits, exactly one ticket is signed, it credits
    precisely the funded value, its nonce is above the durable watermark of its
    rand, which it becomes, and the response carries that ticket and its
    signature, the funded value and the work id of the ticket's rand. *)
Theorem payment_funds_shortfall env limits req s resp s' :
  sound_quotes env -> inv s -> ~ reserved (TrimSpace (cq_MintRequestId req)) s ->
  CreatePayment env limits req s = (Ok resp, s') ->
  exists acc fu, mint_intent req = Ok (acc, fu) /\
    (exists f a target observed ceiling, cq_Funding req = Some f /\ cq_AccountFunding req = Some a /\
       af_TargetAvailableWei a = Some target /\ af_ObservedAvailableWei a = Some observed /\
       fi_FundedValueWei f = Some ceiling /\
       fn_fundedValueWei fu = Z.max 0 (be_Z target - be_Z observed) /\ fn_fundedValueWei fu <= be_Z ceiling) /\
    (fn_fundedValueWei fu = 0 -> sn_signed s' = sn_signed s /\ cr_TicketsCreated resp = 0 /\ cr_PaymentBytes resp = "") /\
    (fn_fundedValueWei fu <> 0 ->
       (exists info, e_senderInfo env = Ok info /\ validateSenderInfo info (e_round env) = Ok tt) /\
       CheckMint limits (ai_WorkUnitName acc) (ai_PricePerUnitWei acc) (ai_UnitsPerPrice acc) (fn_fundedValueWei fu) = Ok tt /\
       exists t sig batch, sn_signed s' = sn_signed s ++ [SignedTicket t] /\ tk_Sender t = ks_Address /\
         CreditedEV (tk_FaceValue t) (tk_WinProb t) = fn_fundedValueWei fu /\ ks_Sign (Hash t) = Some sig /\
         watermark_of (hex_encode (tk_RecipientRandHash t)) (sn_db s) < tk_SenderNonce t /\
         watermark_of (hex_encode (tk_RecipientRandHash t)) (sn_db s') = tk_SenderNonce t /\
         tb_TicketSenderParams batch = [mkTicketSenderParams (tk_SenderNonce t) sig] /\
         marshal_batch batch = Some (cr_PaymentBytes resp) /\ cr_TicketsCreated resp = 1 /\
         cr_ExpectedValue resp = Some (big_bytes (fn_fundedValueWei fu)) /\
         cr_FundedValueWei resp = Some (big_bytes (fn_fundedValueWei fu)) /\
         cr_WorkId resp = hex_encode (tk_RecipientRandHash t)).
Proof.
  intros He Hs Hnew E. unfold CreatePayment in E. apply bind_ok in E as (id & s1 & Eg & E). cbv zeta in E.
  pose proof (quiet_refl s) as Hq.
  pose proof (pres_ok _ _ _ _ _ _ (quiet_guard s env req) Hq Eg) as [Hq1 _].
  pose proof (pres_ok _ _ _ _ _ _ (inv_guard env req) Hs Eg) as [Hs1 _].
  pose proof (mint_guard_quiet env req s) as [_ Hid]. rewrite Eg in Hid. specialize (Hid _ eq_refl). simpl in Hid. subst id.
  apply bind_ok in E as (prior & s2 & Er & E).
  destruct (pres_ok _ _ _ _ _ _ (quiet_reserve s reserve_failure (e_now env) ks_Address _ (MintFingerprint req)) Hq1 Er) as [Hq2 _].
  destruct (pres_ok _ _ _ _ _ _ (inv_reserve reserve_failure (e_now env) ks_Address _ (MintFingerprint req)) Hs1 Er) as [Hs2 _].
  assert (prior = None) as ->.
  { apply store_op_ok in Er as (db & Er & ->). revert Er. unfold MintReserve, Update, reserved, tombstoned in *.
    rewrite <- (mint_guard_tombstones _ _ _ _ _ Eg) in Hnew. intros Er.
    destruct (mint_tombstones (sn_db s1) !! _) as [tomb|]; [by destruct Hnew|]. by simplify_eq. }
  destruct (mint_intent req) as [[acc fu]|err] eqn:Ei; [|unfold mint in E; rewrite Ei in E; done].
  exists acc, fu. split; [done|]. split; [exact (proj2 (mint_intent_ok _ _ _ Ei))|]. split.
  - intros Hz. unfold mint in E. rewrite Ei in E. apply bind_ok in E as ([acc' fu'] & s3 & [[= <- <-] ->]%lift_ok & E).
    rewrite Hz in E. destruct (record_zero_ok _ _ _ _ _ _ _ E) as (-> & Ht & Hb). split; [apply Hq2|done].
  - intros Hne. destruct (mint_ok _ _ _ _ _ _ _ _ _ _ He Hs2 Ei Hne E)
      as (session & v & pred & s3 & Hw & Hc & Hpos & Hk & Hinfo & Hq3 & Es).
    split_and!; [done|done|]. destruct (sign_and_record_ok _ _ _ _ _ _ _ _ _ _ _ Hw Es)
      as (sig & Hsig & Hl & Hn & Hm & Hcnt & Hev & Hfund & Hwid).
    destruct Hw as [Hid _]. destruct Hq2 as [Hle2 Hl2]. destruct Hq3 as [Hle3 Hl3]. rewrite Hid in *.
    set (w := hex_encode (p_RecipientRandHash (ss_ticketParams session))) in *.
    exists (session_ticket env session (watermark_of w (sn_db s3) + 1)), sig,
      (payment_batch env session [mkTicketSenderParams (watermark_of w (sn_db s3) + 1) sig]).
    rewrite Hl, Hl3, Hl2. specialize (Hle2 w). specialize (Hle3 w). split_and!; try done. simpl. fold w. lia.
Qed.
End exact.

Abbreviation demo_pay id observed s :=
  (@CreatePayment (gmap string) _ demo_eth demo_times demo_payer (demo_env 1 (steady_payee 5)) no_limits (demo_mint id observed) s)
  (only parsing).

Lemma payment_funds_shortfall_witness :
  let out := demo_pay "mint-1" 40 (payer_start Open) in
  is_ok out.1 = true /\
  forall resp s', out = (Ok resp, s') ->
    cr_TicketsCreated resp = 1 /\ exists t, sn_signed s' = [SignedTicket t] /\ CreditedEV (tk_FaceValue t) (tk_WinProb t) = 60.
Proof.
  intros out. split; [vm_refl|]. intros resp s' E.
  destruct (@payment_funds_shortfall (gmap string) _ demo_eth demo_times demo_payer (demo_env 1 (steady_payee 5)) no_limits
    (demo_mint "mint-1" 40) (payer_start Open) resp s') as (acc & fu & Hi & _ & _ & Hf).
  - apply steady_payee_sound.
  - apply inv_start.
  - intros [t Ht]. simpl in Ht. rewrite lookup_empty in Ht. discriminate Ht.
  - exact E.
  - injection Hi as <- <-. destruct (Hf ltac:(discriminate)) as (_ & _ & t & sig & batch & Hs & _ & Hev & _ & _ & _ & _ & _ & Hn & _).
    split; [exact Hn|]. exists t. split; [exact Hs|exact Hev].
Defined.
