(* ===== verification/PaymentsRetry.v ===== *)
(** * Retrying a payment, and where the face-value limit does not hold

    A repeated [CreatePayment] answers with what the first call recorded.  Two
    runs of [CreatePayment] under a limit of 100 wei per winning ticket sign a
    ticket worth 6000. *)
From S2P Require Import Prelude.
From S2P Require Import GoBytes.
From S2P Require Import GoCodecs.
From S2P Require Import GoStrings.
From S2P Require Import Actions.
From S2P Require Import Bolt.
From S2P Require Import Limits.
From S2P Require Import Ledger.
From S2P Require Import Nonces.
From S2P Require Import Mints.
From S2P Require Import Fences.
From S2P Require Import Tickets.
From S2P Require Import TicketsSpec.
From S2P Require Import Receiver.
From S2P Require Import Types.
From S2P Require Import Spendauth.
From S2P Require Import Sender.
From S2P Require Import Payments.
From S2P Require Import PaymentsSpec.
From S2P Require Import PaymentsExact.

(** The stored response of a payment. *)
Definition keeps_response (resp : CreatePaymentResponse) (rec : MintRecord) : Prop :=
  mr_PaymentBytes rec = cr_PaymentBytes resp /\ mr_TicketsCreated rec = cr_TicketsCreated resp /\
  mr_WorkID rec = cr_WorkId resp /\ mr_ExpectedValue rec = default "" (cr_ExpectedValue resp) /\
  mr_FundedValueWei rec = default "" (cr_FundedValueWei resp) /\
  mr_AccountShortfallWei rec = default "" (cr_AccountShortfallWei resp).

(** Two responses that carry the same payment, amounts and work id. *)
Definition same_payment (a b : CreatePaymentResponse) : Prop :=
  cr_PaymentBytes a = cr_PaymentBytes b /\ cr_TicketsCreated a = cr_TicketsCreated b /\ cr_WorkId a = cr_WorkId b /\
  default "" (cr_ExpectedValue a) = default "" (cr_ExpectedValue b) /\
  default "" (cr_FundedValueWei a) = default "" (cr_FundedValueWei b) /\
  default "" (cr_AccountShortfallWei a) = default "" (cr_AccountShortfallWei b).

Section retry.
Context `{Bolt M} `{EthCrypto} `{AuthWire} `{PayerWire}.

(** ** The ticket stream never changes *)
Definition streaming (id : string) (s : SenderState M) : Prop :=
  opt_bucket (sender_identity (sn_db s)) !! "ticket_stream_id" = Some id.

Lemma streaming_untouched {A} id f (op : DB M -> result error A * DB M) :
  (forall db, sender_identity (op db).2 = sender_identity db) -> pres (streaming id) (store_op f op) (fun _ => True).
Proof. intros Ho. apply pres_store_op. intros s Hs. unfold streaming in *. simpl. by rewrite Ho. Qed.
Lemma streaming_stream id f rand : pres (streaming id) (store_op f (TicketStreamID rand)) (fun _ => True).
Proof.
  apply pres_store_op. intros s Hs. unfold streaming, TicketStreamID, Update in *. by rewrite Hs.
Qed.
Lemma streaming_next id f w : pres (streaming id) (store_op f (NextSenderNonce w)) (fun _ => True).
Proof. apply streaming_untouched. intros db. unfold NextSenderNonce, Update. repeat case_match; by simplify_eq. Qed.
Lemma streaming_resync id f w n : pres (streaming id) (store_op f (ResyncSenderNonces w n)) (fun _ => True).
Proof. apply streaming_untouched. intros db. unfold ResyncSenderNonces, Update. repeat case_match; by simplify_eq. Qed.
Lemma streaming_reserve id f now s id' fp : pres (streaming id) (store_op f (MintReserve now s id' fp)) (fun _ => True).
Proof. apply streaming_untouched. intros db. unfold MintReserve, Update. repeat case_match; by simplify_eq. Qed.
Lemma streaming_record id f now s id' rec : pres (streaming id) (store_op f (recordMint now s id' rec)) (fun _ => True).
Proof. by apply streaming_untouched. Qed.
Lemma streaming_cache id f g : pres (streaming id) (cache_update f g) (fun _ => True).
Proof. by apply pres_cache_update. Qed.
Lemma streaming_Sign id what d : pres (streaming id) (Sign what d) (fun _ => True).
Proof. intros s Hs. unfold Sign. by destruct (ks_Sign d). Qed.
Lemma streaming_fetch id env req : pres (streaming id) (fetch_quote env req) (fun _ => True).
Proof. done. Qed.
Lemma streaming_validity id env fresh : pres (streaming id) (readValidityPeriod env fresh) (fun _ => True).
Proof. intros s Hs. unfold readValidityPeriod. repeat case_match; by simplify_eq. Qed.
#[local] Hint Resolve streaming_stream streaming_next streaming_resync streaming_reserve streaming_record streaming_cache
  streaming_Sign streaming_fetch streaming_validity : act.

Lemma streaming_signTickets id env session n : pres (streaming id) (signTickets env session n) (fun _ => True).
Proof. induction n as [|n IH]; simpl; [by apply pres_ret|]. unfold signOneTicket, nextNonce, set_nonce. act_auto. Qed.
#[local] Hint Resolve streaming_signTickets : act.

Lemma streaming_mint id env limits id' fp req : pres (streaming id) (mint env limits id' fp req) (fun _ => True).
Proof.
  unfold mint, record_zero_shortfall, mint_policy, ticketValidityPeriod, choose_session, rotate_for_batch, sign_and_record,
    rotateExhaustedSession, findOrOpenSession, reuse_session, open_session, rescaleTicketParams.
  act_auto.
Qed.

(** ** What a successful mint leaves behind *)
Definition recorded (id fp : string) (resp : CreatePaymentResponse) (s : SenderState M) : Prop :=
  exists rec tomb, mints (sn_db s) !! MintKey ks_Address id = Some rec /\
    mint_tombstones (sn_db s) !! MintKey ks_Address id = Some tomb /\ mt_Fingerprint tomb = fp /\ keeps_response resp rec.

Lemma recordMint_recorded f now id rec (s : SenderState M) u s' resp :
  store_op f (recordMint now ks_Address id rec) s = (Ok u, s') -> keeps_response resp rec ->
  recorded id (mr_Fingerprint rec) resp s'.
Proof.
  intros (db & Er & ->)%store_op_ok Hk. unfold recordMint, Update in Er. simplify_eq.
  eexists _, _. cbn. rewrite !lookup_insert_eq. split; [done|]. split; [done|]. split; [done|]. by destruct rec.
Qed.

Lemma mint_recorded env limits id fp req s resp s' :
  mint env limits id fp req s = (Ok resp, s') -> recorded id fp resp s'.
Proof.
  intros E. unfold mint in E. apply bind_ok in E as ([acc fu] & s1 & _ & E). destruct (_ =? _).
  - unfold record_zero_shortfall in E. apply bind_ok in E as (qj & s2 & _ & E). apply bind_ok in E as (u & s3 & Er & [<- ->]%ret_ok).
    by apply (recordMint_recorded _ _ _ _ _ _ _ _ Er).
  - apply bind_ok in E as (v & s2 & _ & E). apply bind_ok in E as (chosen & s3 & _ & E).
    apply bind_ok in E as ([n ev] & s4 & _ & E). apply bind_ok in E as ([session pred] & s5 & _ & E).
    unfold sign_and_record in E. apply bind_ok in E as (tsps & s6 & _ & E). apply bind_ok in E as (bytes & s7 & _ & E).
    apply bind_ok in E as (qj & s8 & _ & E). apply bind_ok in E as (u & s9 & Er & [<- ->]%ret_ok).
    by apply (recordMint_recorded _ _ _ _ _ _ _ _ Er).
Qed.

Lemma len_zero s : len s <= 0 -> s = "".
Proof. destruct s as [|c s]; [done|]. unfold len. simpl. lia. Qed.

Lemma non_empty_bytes b : default "" (non_empty b) = b.
Proof. unfold non_empty. destruct (Z.ltb_spec 0 (len b)) as [|Hz]; [done|]. by rewrite (len_zero _ Hz). Qed.

Lemma replay_same resp rec : keeps_response resp rec -> same_payment (mintResponseFrom rec) resp.
Proof.
  intros (Hb & Ht & Hw & He & Hf & Ha). unfold same_payment, mintResponseFrom. simpl.
  rewrite !non_empty_bytes. by split_and!.
Qed.

Lemma replay_recorded f now id fp (s : SenderState M) rec s' :
  store_op f (MintReserve now ks_Address id fp) s = (Ok (Some rec), s') -> recorded id fp (mintResponseFrom rec) s'.
Proof.
  intros (db & Er & ->)%store_op_ok. unfold MintReserve, Update in Er.
  destruct (mint_tombstones (sn_db s) !! _) as [tomb|] eqn:Et; [|done]. destruct (bool_decide _) eqn:Ef; [|done]. simpl in Er.
  destruct (mints (sn_db s) !! _) as [rec'|] eqn:Em; [|by destruct (mt_Completed tomb)]. simplify_eq.
  exists rec, tomb. split_and!; [done|done|by to_prop|].
  unfold keeps_response, mintResponseFrom. simpl. rewrite !non_empty_bytes. by split_and!.
Qed.

Lemma mint_guard_stream env req s id s1 : mint_guard env req s = (Ok id, s1) -> cq_ExpectedTicketStreamId req <> "" ->
  streaming (cq_ExpectedTicketStreamId req) s1.
Proof.
  intros E Hne. unfold mint_guard in E. cbv zeta in E. rewrite (bool_decide_false (cq_ExpectedTicketStreamId req = "")) in E by done. act_inv. to_prop.
  match goal with Et : TicketStreamID _ _ = _ |- _ => revert Et end. unfold TicketStreamID, Update, streaming.
  destruct (opt_bucket (sender_identity (sn_db s)) !! "ticket_stream_id") as [v|] eqn:El.
  - intros [= -> <-]. simpl. congruence.
  - destruct (e_rand env) as [raw|]; [|done]. intros [= -> <-]. simpl. rewrite lookup_insert_eq. congruence.
Qed.

(** The checks of a call are repeatable once they passed. *)
Lemma mint_guard_again env env' req s id s0 s1 : mint_guard env req s = (Ok id, s0) ->
  (cq_ExpectedTicketStreamId req <> "" -> streaming (cq_ExpectedTicketStreamId req) s1) ->
  exists db, mint_guard env' req s1 = (Ok id, with_sn_db db s1) /\
    mints db = mints (sn_db s1) /\ mint_tombstones db = mint_tombstones (sn_db s1).
Proof.
  intros E Hst. unfold mint_guard in E |- *. cbv zeta in E |- *.
  apply bind_ok in E as (? & ? & [Hr ->]%require_ok & E). apply bind_ok in E as (? & ? & [Hi ->]%require_ok & E).
  apply bind_ok in E as (? & ? & [Hl ->]%require_ok & E). apply bind_ok in E as (? & ? & _ & [<- _]%ret_ok).
  rewrite (bind_require _ _ _ _ Hr). cbv beta. rewrite (bind_require _ _ _ _ Hi). cbv beta.
  rewrite (bind_require _ _ _ _ Hl). cbv beta. clear Hi.
  case_bool_decide as Hx.
  - exists (sn_db s1). by destruct s1.
  - specialize (Hst Hx). unfold streaming in Hst. unfold bind, store_op, TicketStreamID, Update. rewrite Hst. simpl.
    rewrite bool_decide_true by done. simpl. eexists. by split_and!.
Qed.

(** A retry replays: after a successful [CreatePayment], the same request is
    answered again, whatever the chain and the payee say by then and under any
    limits, without a signature, with the same payment bytes, ticket count,
    amounts and work id.  The round, the expiry and the predecessor of the
    first response are not part of the record: the retry reports round 0,
    expiry 0 and no predecessor. *)
Theorem payment_retry_replays env env' limits limits' req s resp s' :
  CreatePayment env limits req s = (Ok resp, s') ->
  exists resp' s'', CreatePayment env' limits' req s' = (Ok resp', s'') /\
    sn_signed s'' = sn_signed s' /\ same_payment resp' resp /\
    cr_CreationRound resp' = 0 /\ cr_ExpiresAfterRound resp' = 0 /\ cr_PredecessorWorkId resp' = "".
Proof.
  intros E. unfold CreatePayment in E. apply bind_ok in E as (id & s1 & Eg & E). cbv zeta in E.
  apply bind_ok in E as (prior & s2 & Er & E).
  assert (cq_ExpectedTicketStreamId req <> "" -> streaming (cq_ExpectedTicketStreamId req) s') as Hst.
  { intros Hne. pose proof (mint_guard_stream _ _ _ _ _ Eg Hne) as Hs1.
    destruct (pres_ok _ _ _ _ _ _ (streaming_reserve _ _ _ _ _ _) Hs1 Er) as [Hs2 _].
    destruct prior as [rec|]; [by apply ret_ok in E as [_ ->]|]. by apply (pres_ok _ _ _ _ _ _ (streaming_mint _ _ _ _ _ _) Hs2 E). }
  assert (recorded id (MintFingerprint req) resp s') as (rec & tomb & Hmr & Htomb & Hfp & Hk).
  { destruct prior as [rec|]; [|by eapply mint_recorded]. apply ret_ok in E as [<- ->]. by eapply replay_recorded. }
  destruct (mint_guard_again env env' req s id s1 s' Eg Hst) as (db & Eg' & Hm & Ht).
  exists (mintResponseFrom rec), (with_sn_db db s'). split.
  - unfold CreatePayment, bind. rewrite Eg'. unfold store_op, MintReserve, Update. simpl. rewrite Ht, Htomb. simpl.
    rewrite bool_decide_true by done. simpl. rewrite Hm, Hmr. done.
  - split_and!; try done; by apply replay_same.
Qed.
End retry.

(** The first response says that its tickets live through round 6; the retry
    repeats the payment and no longer says so. *)
Lemma payment_retry_replays_witness :
  let out := demo_pay "mint-1" 40 (payer_start Open) in
  option_map cr_ExpiresAfterRound (match out.1 with Ok r => Some r | Err _ => None end) = Some 6 /\
  forall resp s', out = (Ok resp, s') ->
    exists resp' s'', demo_pay "mint-1" 40 s' = (Ok resp', s'') /\ same_payment resp' resp /\ cr_ExpiresAfterRound resp' = 0.
Proof.
  intros out. split; [vm_refl|]. intros resp s' E.
  destruct (@payment_retry_replays (gmap string) _ demo_eth demo_times demo_payer (demo_env 1 (steady_payee 5))
    (demo_env 1 (steady_payee 5)) no_limits no_limits (demo_mint "mint-1" 40) (payer_start Open) resp s' E)
    as (resp' & s'' & E' & _ & Hs & _ & He & _).
  exists resp', s''. split; [exact E'|]. split; [exact Hs|exact He].
Defined.

(** ** The face-value limit *)
Definition face_limited : Limits := mkLimits None (Some 100) None ∅.
(** One chance in a hundred, so that 6000 wei are worth 60. *)
Definition one_percent : Z := MaxWinProb / 100 + 1.

Abbreviation limited_pay fetch db :=
  (@CreatePayment (gmap string) _ demo_eth demo_times demo_payer (demo_env 1 fetch) face_limited (demo_mint "mint-1" 40)
     (payer_start db)) (only parsing).

Definition with_economics (face prob : Z) (p : Types.TicketParams) : Types.TicketParams :=
  Types.mkTicketParams (p_WholesaleAccountID p) (p_TicketStreamID p) (p_SettlementDomainID p) (p_Recipient p) face prob
    (p_RecipientRandHash p) (p_Seed p) (p_ExpirationBlock p) (p_ExpirationParams p) (p_HighestSeenNonce p) (p_HasSeenNonces p).

(** The payee that asks for 6000 wei tickets from the start. *)
Definition dear_payee (n : nat) (req : TicketParamsRequest) : result string Types.TicketParams :=
  Ok (with_economics 6000 one_percent (demo_quote 6 req)).

(** The payee that quotes an exhausted rand first and the dear one on rotation. *)
Definition rotating_payee (n : nat) (req : TicketParamsRequest) : result string Types.TicketParams :=
  match n with O => Ok (demo_quote 5 req) | S _ => dear_payee n req end.

(** A payer restarted on a database that has spent the nonces of rand 5. *)
Definition spent_db : DB (gmap string) := (ResyncSenderNonces (hex_encode (be_bytes 32 5)) 600 Open).2.

(** The limit refuses the dear ticket when it is quoted first, but a session
    rotated for its nonce budget is not checked again: quoted on rotation, the
    same ticket is signed, 6000 wei under a limit of 100. *)
Theorem rotation_skips_face_limit :
  (limited_pay dear_payee Open).1 = Err (Status FailedPrecondition "spend limit") /\
  is_ok (limited_pay rotating_payee spent_db).1 = true /\
  (tk_FaceValue <$> tickets (sn_signed (limited_pay rotating_payee spent_db).2)) = [Some 6000].
Proof. split_and!; vm_refl. Qed.

(** The JSON a payee answers with, negative amounts included. *)
Definition negative_post (url : string) (body : ticketParamsHTTPRequest) : result string ticketParamsHTTPResponse :=
  Ok (mkHTTPResponse (hr_WholesaleAccountID body) (hr_TicketStreamID body) 1 demo_domain_id
        (mkticketParamsJSON (hr_RecipientETHAddress body) (dec_string (-6000)) (dec_string (- one_percent))
           (hexAddress (be_bytes 32 6)) (hexAddress "seed") "0" 0 "") 0 false).
Definition negative_payee (n : nat) (req : TicketParamsRequest) : result string Types.TicketParams := Fetch negative_post req.

(** A payee that quotes face value and probability both negative passes the
    checks on credit and face value, and what the payer then signs is the
    ticket of 6000 wei: the encoding drops the signs. *)
Theorem negative_quote_evades_face_limit :
  is_ok (limited_pay negative_payee Open).1 = true /\
  exists t, tickets (sn_signed (limited_pay negative_payee Open).2) = [t] /\ tk_FaceValue t = Some (-6000) /\
    @flatten demo_eth t =
    @flatten demo_eth (mkTicket (tk_Recipient t) (tk_Sender t) (Some 6000) (Some one_percent) (tk_SenderNonce t)
                         (tk_RecipientRandHash t) (tk_CreationRound t) (tk_CreationRoundHash t)).
Proof.
  split; [vm_refl|]. exists (mkTicket "payee-address-20byte" demo_sender (Some (-6000)) (Some (- one_percent)) 1 (be_bytes 32 6) 5 (be_bytes 32 9)).
  split_and!; [vm_refl|done|vm_refl].
Qed.
