(* ===== verification/Admission.v ===== *)
(** * Admission, advance, settlement and fences over RPC

    payment-daemon/internal/service/receiver (receiver.go, funding.go,
    admission_recovery.go, source_fence.go): the handlers of the payee daemon
    that work on wholesale accounts.  [now] is the outcome of [time.Now]; the
    handlers that read the clock twice take the two readings.  Logging and
    metrics are left out. *)
From S2P Require Import Prelude.
From S2P Require Import GoBytes.
From S2P Require Import GoCodecs.
From S2P Require Import Bolt.
From S2P Require Import Ledger.
From S2P Require Import Billing.
From S2P Require Import Nonces.
From S2P Require Import Sessions.
From S2P Require Import Redemptions.
From S2P Require Import Wholesale.
From S2P Require Import Fences.
From S2P Require Import Funding.
From S2P Require Import Tickets.
From S2P Require Import Receiver.
From S2P Require Import Spendauth.

(** ** Views *)
Inductive SpendAuthorizationState :=
  | STATE_ADMITTED | STATE_SETTLED | STATE_EXPIRED_UNUSED | STATE_SUPERSEDED | STATE_CANCELED_UNUSED.

(** A stored state is one of the five, so the [default] branch is not taken. *)
Definition authorizationState (state : AuthorizationState) : SpendAuthorizationState :=
  match state with
  | AuthorizationAdmitted => STATE_ADMITTED
  | AuthorizationSettled => STATE_SETTLED
  | AuthorizationExpiredUnused => STATE_EXPIRED_UNUSED
  | AuthorizationSuperseded => STATE_SUPERSEDED
  | AuthorizationCanceledUnused => STATE_CANCELED_UNUSED
  end.

Definition decimalBytes (value : string) : string :=
  match SetString10 value with
  | None => ""
  | Some n => if n <=? 0 then "" else big_bytes n
  end.

Record WholesaleAccountView := mkAccountView {
  av_WholesaleAccountId : string;
  av_Payer : string;
  av_Payee : string;
  av_CreditedValueWei : string;
  av_ReservedValueWei : string;
  av_DebitedValueWei : string;
  av_AvailableValueWei : string;
  av_Version : Z;
  av_ObservedAt : string;
  av_ChainId : Z;
  av_Denomination : string;
  av_SettlementDomainId : string;
}.

Record SpendAuthorizationView := mkAuthView {
  sv_WholesaleAccountId : string;
  sv_Payee : string;
  sv_SettlementDomainId : string;
  sv_State : SpendAuthorizationState;
  sv_ReservedValueWei : string;
  sv_BilledValueWei : string;
  sv_ReleasedValueWei : string;
  sv_ActualUnits : Z;
  sv_SettlementSeq : Z;
  sv_ObservedAt : string;
}.

Record FundWholesaleAccountResponse := mkFundResponse {
  fw_FundingId : string;
  fw_Account : WholesaleAccountView;
  fw_CreditedValueWei : string;
  fw_Replayed : bool;
}.

(** Answer of [AdmitAuthorization]. *)
Record AdmitAuthorizationResponse := mkAdmitResponse {
  ar_State : SpendAuthorizationState;
  ar_Account : WholesaleAccountView;
  ar_ReservedValueWei : string;
  ar_CreditedValueWei : string;
  ar_Replayed : bool;
}.
Record AdvanceAuthorizationResponse := mkAdvanceResponse {
  vr_State : SpendAuthorizationState;
  vr_Account : WholesaleAccountView;
  vr_BilledDeltaWei : string;
  vr_CumulativeBilledValueWei : string;
  vr_ReservedValueWei : string;
  vr_CreditedValueWei : string;
  vr_Replayed : bool;
}.
Record SettleAuthorizationResponse := mkSettleResponse {
  tr_State : SpendAuthorizationState;
  tr_Account : WholesaleAccountView;
  tr_BilledValueWei : string;
  tr_ReleasedValueWei : string;
  tr_Replayed : bool;
}.

Record AdmitAuthorizationRequest := mkAdmitRequest {
  aq_AuthorizationBytes : string;
  aq_PaymentBytes : string;
  aq_ReservationValueWei : string;
}.
Record AdvanceAuthorizationRequest := mkAdvanceRequest {
  vq_WholesaleAccountId : string;
  vq_SettlementDomainId : string;
  vq_Payer : string;
  vq_AuthorizationId : string;
  vq_AdvanceSeq : Z;
  vq_CumulativeUnits : Z;
  vq_TargetReservedValueWei : string;
  vq_PaymentBytes : string;
}.
Record SettleAuthorizationRequest := mkSettleRequest {
  tq_WholesaleAccountId : string;
  tq_SettlementDomainId : string;
  tq_Payer : string;
  tq_AuthorizationId : string;
  tq_SettlementSeq : Z;
  tq_ActualUnits : Z;
}.

Definition bad := admissionStatus InvalidArgument.
Definition denied := admissionStatus PermissionDenied.

(** A guard of a handler: refuse with [err] when the test holds. *)
Definition guard {E} (test : bool) (err : E) : result E unit := if test then Err err else Ok tt.

Lemma guard_ok {E} test (err : E) u : guard test err = Ok u -> test = false.
Proof. unfold guard. by destruct test. Qed.

(** Pass the guards on the successful path of a chain. *)
Ltac pass_guards H :=
  repeat match type of H with
  | context [guard ?t ?e] =>
      let G := fresh "G" in destruct (guard t e) eqn:G; [apply guard_ok in G|discriminate H]
  end.

Definition diagnosticID (id : string) : string := if 256 <? len id then "invalid_length" else id.

Definition fundingRejectionReason (reason : RejectionReason) : string :=
  match reason with
  | INVALID_RECIPIENT_RAND => "FUNDING_INVALID_RECIPIENT_RAND"
  | NONCE_CAP_REACHED => "FUNDING_NONCE_CAP_REACHED"
  | INVALID_SIGNATURE => "FUNDING_INVALID_SIGNATURE"
  | _ => "FUNDING_TICKETS_REJECTED"
  end.

Section admission.
Context `{Bolt M} `{EthCrypto} `{AuthWire} (decode : string -> option Payment).

(** The id of a ledger whose identity could not be set up is empty. *)
Definition domainID (svc : Service) : string :=
  match sv_settlementDomain svc with Ok id => id | Err _ => "" end.

Definition wholesaleAccountView (svc : Service) (account : WholesaleAccount) : WholesaleAccountView :=
  mkAccountView (acc_WholesaleAccountID account) (acc_Payer account) (acc_Payee account)
    (decimalBytes (acc_CreditedWei account)) (decimalBytes (acc_ReservedWei account))
    (decimalBytes (acc_DebitedWei account)) (big_bytes (Available account)) (acc_Version account)
    (format_time (acc_UpdatedAt account)) (sv_chainID svc) "wei" (domainID svc).

Definition authorizationView (svc : Service) (auth : WholesaleAuthorization) : SpendAuthorizationView :=
  mkAuthView (au_WholesaleAccountID auth) (au_Payee auth) (domainID svc) (authorizationState (au_State auth))
    (decimalBytes (au_ReservedWei auth)) (decimalBytes (au_BilledWei auth)) (decimalBytes (au_ReleasedWei auth))
    (au_ActualUnits auth) (au_SettlementSeq auth) (format_time (au_UpdatedAt auth)).

Definition fund_response (svc : Service) (r : FundingReceipt) (replay : bool) : FundWholesaleAccountResponse :=
  mkFundResponse (fr_FundingID r) (wholesaleAccountView svc (fr_Account r)) (decimalBytes (fr_CreditedWei r)) replay.

(** ** Validating a signed authorization *)

(** The revision fields of each protocol. *)
Definition check_protocol (p : SpendAuthorizationPayload) : result rpc_error unit :=
  if bool_decide (py_Protocol p = "paid-job/v1") then
    guard (negb (bool_decide (py_SessionId p = "")) || negb (py_Revision p =? 0) ||
           negb (bool_decide (py_PredecessorAuthorizationId p = "")))
      (bad "REVISION_FIELDS_INVALID")
  else if bool_decide (py_Protocol p = "paid-session/v1") then
    guard (bool_decide (py_SessionId p = "") ||
           negb (Bool.eqb (py_Revision p =? 0) (bool_decide (py_PredecessorAuthorizationId p = ""))))
      (bad "REVISION_FIELDS_INVALID")
  else Err (bad "PROTOCOL_UNSUPPORTED").

(** The checks on the payload up to its price, which they return. *)
Definition check_payload (svc : Service) (p : SpendAuthorizationPayload) : result rpc_error AcceptedPrice :=
  let! _ := guard (negb (domain_matches svc (py_SettlementDomainId p))) (denied "SETTLEMENT_DOMAIN_MISMATCH") in
  let! _ := guard (negb (ValidWholesaleAccountID (py_WholesaleAccountId p)))
              (Status InvalidArgument "wholesale_account_id is required") in
  let! _ := guard (negb (bool_decide (py_Payee p = sv_recipient svc))) (denied "PAYEE_MISMATCH") in
  let! _ := guard ((py_ChainId p =? 0) ||
                   (negb (sv_chainID svc =? 0) && negb (py_ChainId p =? sv_chainID svc)) ||
                   negb (bool_decide (py_Denomination p = "wei")))
              (denied "CHAIN_OR_DENOMINATION_MISMATCH") in
  let! price :=
    match py_AcceptedPrice p with
    | Some price =>
        if bool_decide (py_AuthorizationId p = "") || bool_decide (py_RequestId p = "")
        then Err (bad "AUTHORIZATION_IDENTITY_INVALID") else Ok price
    | None => Err (bad "AUTHORIZATION_IDENTITY_INVALID")
    end in
  let! _ := guard (bool_decide (py_BrokerUri p = "") || negb (len (py_RequestDigest p) =? 32))
              (bad "AUTHORIZATION_REQUEST_BINDING_INVALID") in
  let keyLen := len (py_CallerPublicKey p) in
  let! _ := guard (negb (keyLen =? 0) && negb (keyLen =? 33) && negb (keyLen =? 65)) (bad "CALLER_KEY_INVALID") in
  let! _ := check_protocol p in
  let! _ := guard (negb (bool_decide (py_Capability p = ap_Capability price)) ||
                   negb (bool_decide (py_Offering p = ap_Offering price))) (bad "PRICE_SCOPE_MISMATCH") in
  let! _ := guard ((ap_UnitsPerPrice price =? 0) || bool_decide (ap_WorkUnitName price = "")) (bad "PRICE_INVALID") in
  Ok price.

(** The validity window: the expiry, when it opens before [now] and closes
    after it opens. *)
Definition check_window (now : Z) (p : SpendAuthorizationPayload) : result rpc_error Z :=
  match parse_time (py_NotBefore p) with
  | None => Err (bad "AUTHORIZATION_TIME_INVALID")
  | Some notBefore =>
    match parse_time (py_ExpiresAt p) with
    | None => Err (bad "AUTHORIZATION_TIME_INVALID")
    | Some expiresAt =>
        let! _ := guard (negb (notBefore <? expiresAt)) (bad "AUTHORIZATION_TIME_INVALID") in
        let! _ := guard (now <? notBefore) (admissionFailure "AUTHORIZATION_NOT_ACTIVE") in
        Ok expiresAt
    end
  end.

(** The signed limits must cover each other. *)
Definition check_limits (p : SpendAuthorizationPayload) (price : AcceptedPrice) : result rpc_error unit :=
  let maxDebit := be_Z (py_MaxDebitWei p) in
  let wei := price_wei price in
  let! _ := guard ((maxDebit <=? 0) || (wei <? 0) || (py_MaxTotalUnits p =? 0)) (bad "AUTHORIZATION_LIMITS_INVALID") in
  guard (maxDebit <? BillFor wei (ap_UnitsPerPrice price) (py_MaxTotalUnits p)) (bad "DEBIT_CAP_BELOW_PRICE").

(** Everything checked before the ledger is consulted. *)
Definition check_authorization (svc : Service) (now : Z) (authorizationBytes : string)
    : result rpc_error (SpendAuthorizationPayload * AcceptedPrice * Z) :=
  let! _ := guard (len authorizationBytes =? 0) (bad "AUTHORIZATION_MALFORMED") in
  match unmarshal_auth authorizationBytes with
  | None => Err (bad "AUTHORIZATION_MALFORMED")
  | Some auth =>
    match Verify (Some auth), sa_Payload auth with
    | Err _, _ | _, None => Err (denied "AUTHORIZATION_SIGNATURE_INVALID")
    | Ok _, Some p =>
        let! price := check_payload svc p in
        let! expiresAt := check_window now p in
        let! _ := check_limits p price in
        Ok (p, price, expiresAt)
    end
  end.

Definition seed_of (p : SpendAuthorizationPayload) (price : AcceptedPrice) (expiresAt : Z) (fingerprint : string)
    : WholesaleAuthorizationSeed :=
  mkWholesaleAuthorizationSeed (py_WholesaleAccountId p) (py_AuthorizationId p) fingerprint (py_Payer p) (py_Payee p)
    (py_RequestId p) (py_SessionId p) (py_Protocol p) (py_Capability p) (py_Offering p)
    (dec_string (price_wei price)) (ap_UnitsPerPrice price) (ap_WorkUnitName price)
    (dec_string (be_Z (py_MaxDebitWei p))) (py_MaxTotalUnits p) expiresAt (py_Revision p)
    (py_PredecessorAuthorizationId p).

(** ** Admission *)

(** An optional funding payment of the named payer, applied to the account;
    the wei it credited.  The handlers differ in how they report a malformed
    payment, a payment of someone else and a failed funding. *)
Definition inline_funding (svc : Service) (now : Z) (malformed foreign : rpc_error) (report : rpc_error -> rpc_error) (payer accountID paymentBytes : string)
    (db : DB M) : result rpc_error Z * DB M :=
  match decode paymentBytes with
  | None => (Err malformed, db)
  | Some payment =>
      match pay_TicketParams payment with
      | None => (Err malformed, db)
      | Some _ =>
          if negb (bool_decide (pay_Sender payment = payer)) then (Err foreign, db)
          else match fundWholesale decode svc now paymentBytes (domainID svc) accountID db with
               | (Err err, db) => (Err (report err), db)
               | (Ok (receipt, _), db) => (Ok (be_Z (decimalBytes (fr_CreditedWei receipt))), db)
               end
      end
  end.

(** How admission reports a failed funding. *)
Definition funding_failure (err : rpc_error) : rpc_error :=
  match status_code err with
  | InvalidArgument | PermissionDenied | FailedPrecondition =>
      admissionStatus (status_code err) "FUNDING_VALIDATION_FAILED"
  | _ => err
  end.

(** How a failed [AdmitWholesale] is reported. *)
Definition admit_failure (err : error) : rpc_error :=
  if errors_Is err ErrInsufficientWholesale then admissionFailure "INSUFFICIENT_WHOLESALE_CREDIT"
  else if errors_Is err ErrAuthorizationFingerprint then bad "AUTHORIZATION_ID_REUSED"
  else if errors_Is err ErrReservationExceedsRemaining then admissionFailure "RESERVATION_EXCEEDS_REMAINING_DEBIT"
  else if errors_Is err ErrRevisionPredecessor || errors_Is err ErrAuthorizationNotFound
  then admissionFailure "REVISION_PREDECESSOR_INVALID"
  else if errors_Is err ErrRevisionLimits then admissionFailure "REVISION_LIMITS_BELOW_USAGE"
  else if errors_Is err ErrAuthorizationCanceled then admissionFailure "AUTHORIZATION_ADMISSION_CANCELED"
  else if errors_Is err ErrAuthorizationState then admissionFailure "AUTHORIZATION_STATE_INVALID"
  else Status Internal "admit authorization".

(** An authorization already on record answers a retry without touching the
    payment. *)
Definition admit_existing (svc : Service) (p : SpendAuthorizationPayload) (fingerprint : string)
    (existing : WholesaleAuthorization) (db : DB M) : result rpc_error AdmitAuthorizationResponse :=
  let! _ := guard (negb (bool_decide (au_Fingerprint existing = fingerprint))) (bad "AUTHORIZATION_ID_REUSED") in
  let! _ := guard (bool_decide (au_State existing = AuthorizationCanceledUnused))
              (admissionFailure "AUTHORIZATION_ADMISSION_CANCELED") in
  let! _ := guard (negb (bool_decide (au_State existing = AuthorizationAdmitted)))
              (admissionFailure "AUTHORIZATION_NOT_ADMITTED") in
  Ok (mkAdmitResponse (authorizationState (au_State existing))
        (wholesaleAccountView svc (GetWholesaleAccount (py_Payer p) (py_Payee p) (py_WholesaleAccountId p) db))
        (decimalBytes (au_ReservedWei existing)) "" true).

(** Funding, then the reservation. *)
Definition admit_new (svc : Service) (now fundNow : Z) (req : AdmitAuthorizationRequest)
    (p : SpendAuthorizationPayload) (price : AcceptedPrice) (expiresAt : Z) (fingerprint : string) (db : DB M)
    : result rpc_error AdmitAuthorizationResponse * DB M :=
  let '(funded, db) :=
    if negb (len (aq_PaymentBytes req) =? 0) && (now <? expiresAt) then
      inline_funding svc fundNow (bad "FUNDING_MALFORMED") (denied "FUNDING_PAYER_MISMATCH") funding_failure
        (py_Payer p) (py_WholesaleAccountId p) (aq_PaymentBytes req) db
    else (Ok 0, db) in
  match funded with
  | Err err => (Err err, db)
  | Ok inlineCredit =>
      match AdmitWholesale (seed_of p price expiresAt fingerprint) "" (Some (be_Z (aq_ReservationValueWei req))) now db with
      | (Err err, db) => (Err (admit_failure err), db)
      | (Ok res, db) =>
          match adm_Authorization res with
          | None => (Err (Status Internal "admit authorization"), db)
          | Some auth =>
              if bool_decide (au_State auth = AuthorizationExpiredUnused)
              then (Err (admissionFailure "AUTHORIZATION_EXPIRED_UNUSED"), db)
              else (Ok (mkAdmitResponse (authorizationState (au_State auth)) (wholesaleAccountView svc (adm_Account res))
                          (decimalBytes (au_ReservedWei auth)) (big_bytes inlineCredit) (adm_Replayed res)), db)
          end
      end
  end.

Definition admitAuthorization (svc : Service) (now fundNow : Z) (req : AdmitAuthorizationRequest) (db : DB M)
    : result rpc_error AdmitAuthorizationResponse * DB M :=
  unfrozen (fun db =>
    match check_authorization svc now (aq_AuthorizationBytes req) with
    | Err err => (Err err, db)
    | Ok (p, price, expiresAt) =>
        let fingerprint := sha256 (aq_AuthorizationBytes req) in
        match GetWholesaleAuthorization (py_Payer p) (py_AuthorizationId p) (py_WholesaleAccountId p) db with
        | Ok existing => (admit_existing svc p fingerprint existing db, db)
        | Err err =>
            if negb (errors_Is err ErrAuthorizationNotFound)
            then (Err (Status Internal "lookup spend authorization"), db)
            else admit_new svc now fundNow req p price expiresAt fingerprint db
        end
    end) db.

(** The exported handler adds the ids to a refusal's [ErrorInfo]. *)
Definition diagnostics (authorizationBytes : string) : list (string * string) :=
  let payload := sa_Payload (unmarshal_partial authorizationBytes) in
  let field (get : SpendAuthorizationPayload -> string) := diagnosticID (default "" (get <$> payload)) in
  [("request_id", field py_RequestId); ("authorization_id", field py_AuthorizationId);
   ("predecessor_authorization_id", field py_PredecessorAuthorizationId); ("session_id", field py_SessionId);
   ("revision", dec_string (default 0 (py_Revision <$> payload)))].

Definition AdmitAuthorization (svc : Service) (now fundNow : Z) (req : AdmitAuthorizationRequest) (db : DB M)
    : result rpc_error AdmitAuthorizationResponse * DB M :=
  let '(out, db) := admitAuthorization svc now fundNow req db in
  (match out with
   | Err (StatusInfo c reason _) => Err (StatusInfo c reason (diagnostics (aq_AuthorizationBytes req)))
   | _ => out
   end, db).

(** ** Advance and settlement *)
Definition domain_guard (svc : Service) (domain : string) : result rpc_error unit :=
  guard (negb (domain_matches svc domain)) (Status PermissionDenied "settlement domain does not match receiver ledger").
Definition account_guard (accountID : string) : result rpc_error unit :=
  guard (negb (ValidWholesaleAccountID accountID)) (Status InvalidArgument "wholesale_account_id is required").

Definition advance_failure (err : error) : rpc_error :=
  if errors_Is err ErrInsufficientWholesale
  then Status FailedPrecondition "insufficient wholesale account balance for requested runway"
  else if errors_Is err ErrAuthorizationNotFound then Status NotFound "spend authorization not found"
  else if errors_Is err ErrAuthorizationState || errors_Is err ErrAuthorizationSettlement
  then Status FailedPrecondition "authorization state"
  else Status Internal "advance authorization".

(** Funding unless the sequence was already applied, then the advance. *)
Definition advance_found (svc : Service) (now fundNow : Z) (req : AdvanceAuthorizationRequest)
    (existing : WholesaleAuthorization) (db : DB M) : result rpc_error AdvanceAuthorizationResponse * DB M :=
  let isReplay := vq_AdvanceSeq req <=? au_SettlementSeq existing in
  let '(funded, db) :=
    if negb (len (vq_PaymentBytes req) =? 0) && negb isReplay then
      inline_funding svc fundNow (Status InvalidArgument "funding payment is malformed")
        (Status PermissionDenied "funding payment sender does not match authorization payer") id
        (vq_Payer req) (vq_WholesaleAccountId req) (vq_PaymentBytes req) db
    else (Ok 0, db) in
  match funded with
  | Err err => (Err err, db)
  | Ok inlineCredit =>
      match AdvanceWholesale (vq_Payer req) (sv_recipient svc) (vq_AuthorizationId req) (vq_CumulativeUnits req)
              (Some (be_Z (vq_TargetReservedValueWei req))) (vq_AdvanceSeq req) "" now (vq_WholesaleAccountId req) db with
      | (Err err, db) => (Err (advance_failure err), db)
      | (Ok res, db) =>
          let auth := adv_Authorization res in
          (Ok (mkAdvanceResponse (authorizationState (au_State auth)) (wholesaleAccountView svc (adv_Account res))
                 (big_bytes (adv_BilledDelta res)) (decimalBytes (au_BilledWei auth))
                 (decimalBytes (au_ReservedWei auth)) (big_bytes inlineCredit) (adv_Replayed res)), db)
      end
  end.

Definition AdvanceAuthorization (svc : Service) (now fundNow : Z) (req : AdvanceAuthorizationRequest) (db : DB M)
    : result rpc_error AdvanceAuthorizationResponse * DB M :=
  match account_guard (vq_WholesaleAccountId req) with
  | Err err => (Err err, db)
  | Ok _ => unfrozen (fun db =>
      match domain_guard svc (vq_SettlementDomainId req) with
      | Err err => (Err err, db)
      | Ok _ =>
          if negb (len (vq_Payer req) =? 20) || bool_decide (vq_AuthorizationId req = "") || (vq_AdvanceSeq req =? 0)
          then (Err (Status InvalidArgument "payer, authorization_id, and positive advance_seq are required"), db)
          else match GetWholesaleAuthorization (vq_Payer req) (vq_AuthorizationId req) (vq_WholesaleAccountId req) db with
          | Err err =>
              (Err (if errors_Is err ErrAuthorizationNotFound then Status NotFound "spend authorization not found"
                    else Status Internal "lookup spend authorization"), db)
          | Ok existing => advance_found svc now fundNow req existing db
          end
      end) db
  end.

Definition settle_failure (err : error) : rpc_error :=
  if errors_Is err ErrAuthorizationNotFound then Status NotFound "spend authorization not found"
  else if errors_Is err ErrAuthorizationSettlement
  then Status InvalidArgument "settlement replay differs from recorded content"
  else if errors_Is err ErrAuthorizationState then Status FailedPrecondition "authorization cannot settle these units"
  else Status Internal "settle authorization".

(** Not behind the source fence: a frozen source still settles. *)
Definition SettleAuthorization (svc : Service) (now : Z) (req : SettleAuthorizationRequest) (db : DB M)
    : result rpc_error SettleAuthorizationResponse * DB M :=
  match account_guard (tq_WholesaleAccountId req), domain_guard svc (tq_SettlementDomainId req) with
  | Err err, _ | _, Err err => (Err err, db)
  | Ok _, Ok _ =>
      if negb (len (tq_Payer req) =? 20) || bool_decide (tq_AuthorizationId req = "") || (tq_SettlementSeq req =? 0)
      then (Err (Status InvalidArgument "payer, authorization_id, and positive settlement_seq are required"), db)
      else match SettleWholesale (tq_Payer req) (sv_recipient svc) (tq_AuthorizationId req) (tq_ActualUnits req)
                   (tq_SettlementSeq req) now (tq_WholesaleAccountId req) db with
      | (Err err, db) => (Err (settle_failure err), db)
      | (Ok res, db) =>
          (Ok (mkSettleResponse (authorizationState (au_State (set_Authorization res)))
                 (wholesaleAccountView svc (set_Account res)) (big_bytes (set_Billed res)) (big_bytes (set_Released res))
                 (set_Replayed res)), db)
      end
  end.

(** ** Reads *)
Definition rpc_GetWholesaleAccount (svc : Service) (accountID domain payer : string) (db : DB M)
    : result rpc_error WholesaleAccountView :=
  let! _ := account_guard accountID in
  let! _ := domain_guard svc domain in
  let! _ := guard (negb (len payer =? 20)) (Status InvalidArgument "payer must be 20 bytes") in
  Ok (wholesaleAccountView svc (GetWholesaleAccount payer (sv_recipient svc) accountID db)).

Definition GetSpendAuthorization (svc : Service) (accountID domain payer id : string) (db : DB M)
    : result rpc_error SpendAuthorizationView :=
  let! _ := account_guard accountID in
  let! _ := domain_guard svc domain in
  match GetWholesaleAuthorization payer id accountID db with
  | Err err => Err (if errors_Is err ErrAuthorizationNotFound then Status NotFound "spend authorization not found"
                    else Status Internal "get spend authorization")
  | Ok auth => Ok (authorizationView svc auth)
  end.

(** [hex.DecodeString] succeeds on 64 digits and re-encodes to the same text
    exactly when the digits are lower case. *)
Definition funding_id_ok (id : string) : bool := (len id =? 64) && all_bytes is_lower_hex id.

Definition GetWholesaleFundingReceipt (svc : Service) (accountID payer domain fundingID : string) (db : DB M)
    : result rpc_error FundWholesaleAccountResponse :=
  let! _ := guard (negb (ValidWholesaleAccountID accountID) || negb (len payer =? 20))
              (Status InvalidArgument "payer and wholesale_account_id are required") in
  let! _ := domain_guard svc domain in
  let! _ := guard (negb (funding_id_ok fundingID)) (Status InvalidArgument "funding_id must be lowercase hex SHA-256") in
  match GetFundingReceipt payer (sv_recipient svc) accountID fundingID db with
  | Err err =>
      Err (if errors_Is err ErrNotFound then Status NotFound "funding receipt not found"
           else if errors_Is err ErrSenderMismatch then Status PermissionDenied "funding receipt identity mismatch"
           else Status Internal "funding receipt unavailable")
  | Ok receipt => Ok (fund_response svc receipt true)
  end.

(** ** Reconciliation *)
Definition rpc_CancelAuthorizationAdmission (svc : Service) (now : Z) (accountID domain payer id fingerprint : string)
    (db : DB M) : result rpc_error (bool * option SpendAuthorizationView * WholesaleAccountView) * DB M :=
  match domain_guard svc domain with
  | Err err => (Err err, db)
  | Ok _ =>
      if negb (ValidWholesaleAccountID accountID) || negb (len payer =? 20) || bool_decide (id = "") ||
         negb (len fingerprint =? 32)
      then (Err (Status InvalidArgument "payer, authorization id and SHA-256 fingerprint required"), db)
      else match CancelAuthorizationAdmission now payer (sv_recipient svc) id fingerprint accountID db with
      | (Err err, db) =>
          (Err (if errors_Is err ErrAuthorizationFingerprint
                then Status InvalidArgument "authorization_id reused with different content"
                else Status Internal "cancel authorization admission"), db)
      | (Ok res, db) =>
          (Ok (can_Canceled res, authorizationView svc <$> can_Authorization res,
               wholesaleAccountView svc (can_Account res)), db)
      end
  end.

Definition rpc_CloseUnexecutedAuthorization (svc : Service) (now now' : Z) (accountID domain payer id reason : string)
    (db : DB M) : result rpc_error unit * DB M :=
  match account_guard accountID with
  | Err err => (Err err, db)
  | Ok _ =>
      if negb (domain_matches svc domain) then (Err (Status PermissionDenied "receiver source identity mismatch"), db)
      else match CloseUnexecutedAuthorization now now' payer (sv_recipient svc) id reason accountID db with
           | (Err _, db) => (Err (Status FailedPrecondition "unexecuted recovery held"), db)
           | (Ok _, db) => (Ok tt, db)
           end
  end.

Definition ListPendingRedemptions (db : DB M) : list (string * string * string) :=
  (fun p => (st_Sender (pr_Ticket p), pr_Hash p, big_bytes (st_FaceValue (pr_Ticket p)))) <$> PendingRedemptions db.

Definition Health (svc : Service) : result rpc_error string :=
  match sv_settlementDomain svc with
  | Err _ => Err (Status FailedPrecondition "settlement domain")
  | Ok id => Ok id
  end.

(** ** What the checks establish *)
Lemma check_payload_ok svc p price :
  check_payload svc p = Ok price ->
  domain_matches svc (py_SettlementDomainId p) = true /\ ValidWholesaleAccountID (py_WholesaleAccountId p) = true /\
  py_Payee p = sv_recipient svc /\ py_AcceptedPrice p = Some price /\ py_AuthorizationId p <> "" /\
  check_protocol p = Ok tt /\ py_Capability p = ap_Capability price /\ py_Offering p = ap_Offering price /\
  ap_UnitsPerPrice price <> 0.
Proof.
  unfold check_payload. intros E. pass_guards E.
  destruct (py_AcceptedPrice p) as [price'|]; [|discriminate E].
  destruct (_ || _) eqn:Hid in E; [discriminate E|]. pass_guards E.
  destruct (check_protocol p) as [[]|] eqn:Hp; [|discriminate E]. pass_guards E. injection E as ->.
  to_prop. split_and!; done.
Qed.

Lemma check_window_ok now p exp :
  check_window now p = Ok exp ->
  exists notBefore, parse_time (py_NotBefore p) = Some notBefore /\ parse_time (py_ExpiresAt p) = Some exp /\
    notBefore <= now /\ notBefore < exp.
Proof.
  unfold check_window. intros E. destruct (parse_time (py_NotBefore p)) as [nb|]; [|discriminate E].
  destruct (parse_time (py_ExpiresAt p)) as [e|]; [|discriminate E]. pass_guards E. injection E as ->.
  to_prop. exists nb. split_and!; try done.
Qed.

Lemma check_limits_ok p price :
  check_limits p price = Ok tt ->
  0 < be_Z (py_MaxDebitWei p) /\ py_MaxTotalUnits p <> 0 /\
  BillFor (price_wei price) (ap_UnitsPerPrice price) (py_MaxTotalUnits p) <= be_Z (py_MaxDebitWei p).
Proof.
  unfold check_limits. intros E. destruct (guard (_ || _) _) eqn:G1 in E; [|discriminate E].
  apply guard_ok in G1, E. to_prop. split_and!; done.
Qed.

Lemma check_authorization_ok svc now bytes p price exp :
  check_authorization svc now bytes = Ok (p, price, exp) ->
  exists auth, unmarshal_auth bytes = Some auth /\ sa_Payload auth = Some p /\ Verify (Some auth) = Ok tt /\
    check_payload svc p = Ok price /\ check_window now p = Ok exp /\ check_limits p price = Ok tt.
Proof.
  unfold check_authorization. intros E. pass_guards E.
  destruct (unmarshal_auth bytes) as [auth|]; [|discriminate E].
  destruct (Verify (Some auth)) as [[]|] eqn:Hv; [|discriminate E].
  destruct (sa_Payload auth) as [p'|] eqn:Hp; [|discriminate E].
  destruct (check_payload svc p') as [pr|] eqn:Ec; [|discriminate E].
  destruct (check_window now p') as [e|] eqn:Ew; [|discriminate E].
  destruct (check_limits p' pr) as [[]|] eqn:El; [|discriminate E].
  injection E as -> -> ->. exists auth. split_and!; done.
Qed.

End admission.
