(* ===== verification/AdmissionSpec.v ===== *)
(** * What an admitted authorization stands for

    An accepted admission rests on a payer's signature over exactly the terms
    that are filed, and a lost response can be asked for again without moving
    value twice. *)
From S2P Require Import Prelude.
From S2P Require Import GoBytes.
From S2P Require Import GoCodecs.
From S2P Require Import Bolt.
From S2P Require Import Ledger.
From S2P Require Import Billing.
From S2P Require Import Nonces.
From S2P Require Import Sessions.
From S2P Require Import Redemptions.
From S2P Require Import Wholesale.
From S2P Require Import Fences.
From S2P Require Import Funding.
From S2P Require Import Tickets.
From S2P Require Import TicketsSpec.
From S2P Require Import Receiver.
From S2P Require Import ReceiverSpec.
From S2P Require Import Spendauth.
From S2P Require Import Admission.

Section spec.
Context `{Bolt M} `{EthCrypto} `{AuthWire} (decode : string -> option Payment).
Implicit Types (db : DB M).

(** Funding touches neither the source fence nor the authorizations. *)
Lemma apply_tickets_fence rand tickets credit db credit' db' :
  apply_tickets rand tickets credit db = Ok (credit', db') ->
  source_fence db' = source_fence db /\ spend_authorizations db' = spend_authorizations db.
Proof.
  revert credit db. induction tickets as [|t ts IH]; intros credit db E; simpl in E; [by injection E as _ <-|].
  destruct (ft_Credit t) as [c|]; [|discriminate E]. destruct (c <=? 0); [discriminate E|].
  unfold recordNonce in E. destruct (nonces db !! _); [discriminate E|]. destruct (count_below_cap _ _); [|discriminate E].
  destruct (ft_Winner t) as [win|]; [|by apply IH in E].
  unfold enqueueRedemption in E. destruct (bool_decide _) in E; [|destruct (bool_decide _) in E]; by apply IH in E.
Qed.

Definition fence_and_rows db db' : Prop :=
  source_fence db' = source_fence db /\ spend_authorizations db' = spend_authorizations db.

Lemma fundWholesale_keeps svc now pb dom a db : fence_and_rows db (fundWholesale decode svc now pb dom a db).2.
Proof.
  unfold fundWholesale, ApplyWholesaleFunding, Update, apply_funding, fence_and_rows.
  repeat (case_match; simplify_eq; try done).
  all: match goal with E : apply_tickets _ _ _ _ = Ok _ |- _ => by apply apply_tickets_fence in E as [? ?] end.
Qed.

Lemma inline_funding_keeps svc now e1 e2 rep p a pb db :
  fence_and_rows db (inline_funding decode svc now e1 e2 rep p a pb db).2.
Proof.
  unfold inline_funding. destruct (decode pb) as [pay|]; [|done]. destruct (pay_TicketParams pay); [|done].
  destruct (negb _); [done|]. pose proof (fundWholesale_keeps svc now pb (domainID svc) a db) as Hf.
  by destruct (fundWholesale _ _ _ _ _ _ _) as [[[]|] d].
Qed.

(** A first admission files its row, with the terms of the seed. *)
Lemma admit_files seed reservation now db res db' :
  let key := wholesaleAuthorizationKey (sd_Payer seed) (sd_ID seed) (sd_WholesaleAccountID seed) in
  AdmitWholesale seed "" reservation now db = (Ok res, db') -> spend_authorizations db !! key = None ->
  adm_Replayed res = false /\ source_fence db' = source_fence db /\
  exists auth, adm_Authorization res = Some auth /\ spend_authorizations db' !! key = Some auth /\
    au_Fingerprint auth = sd_Fingerprint seed /\ au_MaxDebitWei auth = sd_MaxDebitWei seed /\
    au_MaxTotalUnits auth = sd_MaxTotalUnits seed /\ au_PriceWei auth = sd_PriceWei seed /\
    au_PerUnits auth = sd_PerUnits seed /\ au_Payee auth = sd_Payee seed /\
    (au_State auth = AuthorizationExpiredUnused \/ au_State auth = AuthorizationAdmitted /\ now < sd_ExpiresAt seed).
Proof.
  intros key E Hnone. unfold AdmitWholesale in E. destruct (_ || _); [discriminate E|]. unfold Update in E.
  destruct (AdmitWholesale_tx _ _ _ _ _) as [[[r ins] d]|] eqn:Et; [|discriminate E].
  destruct ins; [discriminate E|]. injection E as <- <-. unfold AdmitWholesale_tx in Et. fold key in Et.
  destruct (admission_fenced _ _ _); [|discriminate Et]. rewrite Hnone in Et.
  destruct (Z.ltb_spec now (sd_ExpiresAt seed)); simpl in Et.
  2: { injection Et as <- <-. split_and!; [done..|]. eexists. split_and!; try done; [apply lookup_insert_eq|by left]. }
  unfold admit_reserve in Et. destruct (load_predecessor seed db) as [pred|]; [|discriminate Et]. cbv zeta in Et.
  destruct (_ || _); [discriminate Et|]. destruct (_ <? _); [discriminate Et|].
  destruct pred as [pred|]; injection Et as <- <-; split_and!; try done; eexists; split_and!;
    try done; try apply lookup_insert_eq; by right.
Qed.

(** What an accepted admission leaves behind. *)
Lemma AdmitAuthorization_ok svc now fundNow req db resp db' :
  AdmitAuthorization decode svc now fundNow req db = (Ok resp, db') ->
  exists p price exp row, check_authorization svc now (aq_AuthorizationBytes req) = Ok (p, price, exp) /\
    requireUnfrozenSource db = Ok tt /\ source_fence db' = source_fence db /\
    spend_authorizations db' !! wholesaleAuthorizationKey (py_Payer p) (py_AuthorizationId p) (py_WholesaleAccountId p) = Some row /\
    au_State row = AuthorizationAdmitted /\ au_Fingerprint row = sha256 (aq_AuthorizationBytes req) /\
    ar_ReservedValueWei resp = decimalBytes (au_ReservedWei row) /\
    (ar_Replayed resp = true -> db' = db) /\
    (ar_Replayed resp = false ->
       now < exp /\ au_MaxDebitWei row = dec_string (be_Z (py_MaxDebitWei p)) /\
       au_MaxTotalUnits row = py_MaxTotalUnits p /\ au_PriceWei row = dec_string (price_wei price) /\
       au_PerUnits row = ap_UnitsPerPrice price /\ au_Payee row = py_Payee p).
Proof.
  unfold AdmitAuthorization. destruct (admitAuthorization _ _ _ _ _ _) as [out d] eqn:E.
  destruct out as [resp'|[|]]; intros [= -> ->]. unfold admitAuthorization, unfrozen in E.
  destruct (requireUnfrozenSource db) as [[]|] eqn:Hf; [|discriminate E].
  destruct (check_authorization svc now (aq_AuthorizationBytes req)) as [[[p price] exp]|] eqn:Ec; [|discriminate E].
  exists p, price, exp. set (key := wholesaleAuthorizationKey _ _ _).
  destruct (GetWholesaleAuthorization _ _ _ db) as [row|err] eqn:Eg.
  - injection E as E <-. unfold admit_existing in E. pass_guards E. injection E as <-. to_prop.
    unfold GetWholesaleAuthorization in Eg. fold key in Eg. destruct (spend_authorizations db !! key) as [row'|] eqn:Hrow.
    + injection Eg as ->. exists row. split_and!; try done.
    + destruct (canceledAdmissionIn key db); [|discriminate Eg]. injection Eg as <-. done.
  - destruct (negb _); [discriminate E|].
    assert (spend_authorizations db !! key = None) as Hnone.
    { unfold GetWholesaleAuthorization in Eg. fold key in Eg. by destruct (spend_authorizations db !! key). }
    unfold admit_new in E. set (step := if _ && _ then _ else _) in E.
    assert (fence_and_rows db step.2) as [Hsf Hrows].
    { unfold step. destruct (_ && _); [apply inline_funding_keeps|done]. }
    destruct step as [[credit|] d]; [|discriminate E]. cbn [snd] in Hsf, Hrows.
    destruct (AdmitWholesale _ _ _ _ d) as [[res|] d2] eqn:Ea; [|discriminate E].
    destruct (admit_files _ _ _ _ _ _ Ea) as (Hr & Hsf2 & auth & Hauth & Hrow & Hfp & Hmax & Hunits & Hprice & Hper & Hpe & Hst).
    { simpl. fold key. by rewrite Hrows. }
    rewrite Hauth in E. destruct (bool_decide _) eqn:Hexp; [discriminate E|]. to_prop. injection E as <- <-.
    destruct Hst as [|[Hst Hnow]]; [done|]. exists auth. split_and!; try done; try congruence.
    simpl. by rewrite Hr.
Qed.

(** The checks only depend on the clock through the opening of the window. *)
Lemma check_authorization_later svc now now' bytes p price exp :
  now <= now' -> check_authorization svc now bytes = Ok (p, price, exp) ->
  check_authorization svc now' bytes = Ok (p, price, exp).
Proof.
  intros Hle. unfold check_authorization. destruct (guard _ _); [|done]. destruct (unmarshal_auth bytes) as [auth|]; [|done].
  destruct (Verify (Some auth)); [|done]. destruct (sa_Payload auth) as [p'|]; [|done].
  destruct (check_payload svc p'); [|done]. destruct (check_window now p') as [e|] eqn:Ew; [|done].
  assert (check_window now' p' = Ok e) as ->; [|done].
  unfold check_window in *. destruct (parse_time (py_NotBefore p')) as [nb|]; [|done].
  destruct (parse_time (py_ExpiresAt p')) as [e'|]; [|done]. destruct (guard (negb _) _); [|done].
  unfold guard in *. destruct (Z.ltb_spec now nb); [done|]. by rewrite (proj2 (Z.ltb_ge now' nb)) by lia.
Qed.

(** C17: An admission is what the payer signed: an accepted authorization carries a
    signature of its payer over the payload, is addressed to this payee and
    this ledger, opened before now, and is filed as admitted under its id with
    the signed caps and price, the worst-case bill within the signed maximum;
    unless it answers a replay, it has not expired. *)
Theorem admission_is_signed svc now fundNow req db resp db' :
  AdmitAuthorization decode svc now fundNow req db = (Ok resp, db') ->
  exists auth p price exp row, unmarshal_auth (aq_AuthorizationBytes req) = Some auth /\ sa_Payload auth = Some p /\
    Verify (Some auth) = Ok tt /\ py_Payee p = sv_recipient svc /\
    domain_matches svc (py_SettlementDomainId p) = true /\ py_AcceptedPrice p = Some price /\
    (exists notBefore, parse_time (py_NotBefore p) = Some notBefore /\ notBefore <= now) /\
    BillFor (price_wei price) (ap_UnitsPerPrice price) (py_MaxTotalUnits p) <= be_Z (py_MaxDebitWei p) /\
    GetWholesaleAuthorization (py_Payer p) (py_AuthorizationId p) (py_WholesaleAccountId p) db' = Ok row /\
    au_State row = AuthorizationAdmitted /\ au_Fingerprint row = sha256 (aq_AuthorizationBytes req) /\
    (ar_Replayed resp = true -> db' = db) /\
    (ar_Replayed resp = false ->
       now < exp /\ parse_time (py_ExpiresAt p) = Some exp /\
       parseDecimalBig (au_MaxDebitWei row) = be_Z (py_MaxDebitWei p) /\ au_MaxTotalUnits row = py_MaxTotalUnits p /\
       parseDecimalBig (au_PriceWei row) = price_wei price /\ au_PerUnits row = ap_UnitsPerPrice price).
Proof.
  intros E. destruct (AdmitAuthorization_ok _ _ _ _ _ _ _ E)
    as (p & price & exp & row & Ec & _ & _ & Hrow & Hst & Hfp & _ & Hrep & Hnew).
  destruct (check_authorization_ok _ _ _ _ _ _ Ec) as (auth & Hu & Hp & Hv & Hpl & Hw & Hl).
  destruct (check_payload_ok _ _ _ Hpl) as (Hdom & _ & Hpe & Hpr & _).
  destruct (check_window_ok _ _ _ Hw) as (nb & Hnb & Hexp & Hopen & _).
  destruct (check_limits_ok _ _ Hl) as (_ & _ & Hbill).
  exists auth, p, price, exp, row. split_and!; try done; [by exists nb|by unfold GetWholesaleAuthorization; rewrite Hrow|].
  intros Hr. destruct (Hnew Hr) as (Hnow & -> & -> & -> & -> & _). autorewrite with money. split_and!; done.
Qed.

(** A lost admission response can be asked for again: once an admission was
    accepted, repeating the request at any later time, with or without a
    payment, answers that it was replayed, with the same reservation and no
    credit, and leaves the database as it is. *)
Theorem admission_retry_converges svc now fundNow req db resp db' :
  AdmitAuthorization decode svc now fundNow req db = (Ok resp, db') ->
  forall now' fundNow' payment reservation, now <= now' ->
  exists resp', AdmitAuthorization decode svc now' fundNow'
      (mkAdmitRequest (aq_AuthorizationBytes req) payment reservation) db' = (Ok resp', db') /\
    ar_Replayed resp' = true /\ ar_State resp' = STATE_ADMITTED /\ ar_CreditedValueWei resp' = "" /\
    ar_ReservedValueWei resp' = ar_ReservedValueWei resp.
Proof.
  intros E now' fundNow' payment reservation Hle. destruct (AdmitAuthorization_ok _ _ _ _ _ _ _ E)
    as (p & price & exp & row & Ec & Hf & Hsf & Hrow & Hst & Hfp & Hres & _).
  unfold AdmitAuthorization, admitAuthorization, unfrozen, requireUnfrozenSource, SourceFence in *. rewrite Hsf. simpl.
  destruct (match source_fence db with Some b => fence_state b | None => _ end) as [fence|]; [|discriminate Hf].
  destruct (sf_Frozen fence); [discriminate Hf|]. rewrite (check_authorization_later _ _ _ _ _ _ _ Hle Ec).
  unfold GetWholesaleAuthorization. rewrite Hrow. unfold admit_existing, guard. rewrite Hfp, Hst.
  rewrite bool_decide_true by done. eexists. split; [reflexivity|]. split_and!; try done.
Qed.
End spec.

(** ** Concrete runs *)
Definition demo_payload : SpendAuthorizationPayload :=
  mkPayload Domain demo_sender demo_payee "auth-1" "request-1" "" "paid-job/v1" "cap" "off"
    (Some (mkAcceptedPrice (Some (big_bytes 7)) 2 "token" "cap" "off" None)) (big_bytes 1000) 200 "1" "50"
    (be_bytes 32 8) "" 0 "" "https://broker" 1 "wei" "dom" "acct".

(** Times are written as decimal nanoseconds, every message decodes to the
    payload above. *)
Definition demo_auth_wire : AuthWire := {|
  unmarshal_auth _ := Some (mkSpendAuthorization (Some demo_payload) demo_sig);
  unmarshal_partial _ := mkSpendAuthorization (Some demo_payload) demo_sig;
  marshal_payload p := Some (py_AuthorizationId p);
  marshal_auth a := Some (sa_Signature a);
  parse_time := SetString10;
  format_time := dec_string;
|}.

Abbreviation demo_admit req now db :=
  (@AdmitAuthorization (gmap string) _ demo_eth demo_auth_wire (demo_decode MaxWinProb) demo_svc now now req db) (only parsing).
Definition demo_admission : AdmitAuthorizationRequest := mkAdmitRequest "signed" "bytes" (big_bytes 600).

Lemma admission_is_signed_witness :
  let out := demo_admit demo_admission 20 fund_db in
  is_ok out.1 = true /\
  forall resp db', out = (Ok resp, db') ->
    exists row, GetWholesaleAuthorization demo_sender "auth-1" "acct" db' = Ok row /\ au_State row = AuthorizationAdmitted.
Proof.
  intros out. split; [vm_refl|]. intros resp db' E.
  destruct (@admission_is_signed (gmap string) _ demo_eth demo_auth_wire (demo_decode MaxWinProb) demo_svc 20 20
    demo_admission fund_db resp db' E) as (auth & p & price & exp & row & Hu & Hp & _ & _ & _ & _ & _ & _ & Hg & Hst & _).
  injection Hu as <-. injection Hp as <-. exists row. split; assumption.
Defined.

(** The response of an admission with an inline payment of 2000 wei is lost;
    the retry is answered without crediting the payment again. *)
Lemma admission_retry_converges_witness :
  let out := demo_admit demo_admission 20 fund_db in
  is_ok out.1 = true /\
  forall resp db', out = (Ok resp, db') ->
    exists resp', demo_admit demo_admission 60 db' = (Ok resp', db') /\ ar_Replayed resp' = true.
Proof.
  intros out. split; [vm_refl|]. intros resp db' E.
  destruct (@admission_retry_converges (gmap string) _ demo_eth demo_auth_wire (demo_decode MaxWinProb) demo_svc 20 20
    demo_admission fund_db resp db' E 60 60 "bytes" (big_bytes 600) ltac:(lia)) as (resp' & E' & Hr & _).
  exists resp'. split; [exact E'|exact Hr].
Defined.
