(* ===== verification/Handshake.v ===== *)
(** * Payer and payee together

    What the payer signs is what the payee's checks admit.  The laws of the
    keystore, the message codec and the time format are hypotheses. *)
From S2P Require Import Prelude.
From S2P Require Import GoBytes.
From S2P Require Import GoCodecs.
From S2P Require Import GoStrings.
From S2P Require Import Actions.
From S2P Require Import Bolt.
From S2P Require Import Ledger.
From S2P Require Import Billing.
From S2P Require Import Mints.
From S2P Require Import Fences.
From S2P Require Import Limits.
From S2P Require Import Tickets.
From S2P Require Import TicketsSpec.
From S2P Require Import Receiver.
From S2P Require Import ReceiverSpec.
From S2P Require Import Types.
From S2P Require Import Relay.
From S2P Require Import Spendauth.
From S2P Require Import Sender.
From S2P Require Import Payments.
From S2P Require Import PaymentsSpec.
From S2P Require Import PaymentsExact.
From S2P Require Import Admission.

(** Texts a request carries without padding: the payee compares them as they
    are where the payer trims. *)
Definition tidy_request (req : CreateSpendAuthorizationRequest) : Prop :=
  (forall price, sq_AcceptedPrice req = Some price ->
     TrimSpace (ap_Capability price) = ap_Capability price /\ TrimSpace (ap_Offering price) = ap_Offering price) /\
  (blank (sq_SessionId req) = true -> sq_SessionId req = "") /\
  (blank (sq_PredecessorAuthorizationId req) = true -> sq_PredecessorAuthorizationId req = "").

Lemma blank_false s : blank s = false -> s <> "".
Proof. intros Hb ->. by vm_compute in Hb. Qed.

Lemma len_pos s : s <> "" -> 0 < len s.
Proof. destruct s as [|c s]; [done|]. intros _. unfold len. simpl. lia. Qed.

Section handshake.
Context `{Bolt M} `{EthCrypto} `{AuthWire} `{PayerWire}.

(** The keystore signs with the key of its address, in the 65-byte form. *)
Definition keystore_law : Prop :=
  len ks_Address = 20 /\
  forall d sig, ks_Sign d = Some sig ->
    len sig = 65 /\ (sig_v sig = 27 \/ sig_v sig = 28) /\
    SigToAddress (TextHash d) (take_bytes 64 sig +:+ String (byte_of (sig_v sig - 27)) "") = Some ks_Address.

(** A signed authorization survives its encoding, which is not empty. *)
Definition auth_codec_law : Prop :=
  forall a w, sa_Signature a <> "" -> marshal_auth a = Some w -> w <> "" /\ unmarshal_auth w = Some a.

(** A canonical broker URI is not empty. *)
Definition broker_uri_law : Prop := forall raw uri, BrokerURI raw = Some uri -> uri <> "".

(** The instants of the window can be written and read back. *)
Definition times_law (req : CreateSpendAuthorizationRequest) : Prop :=
  forall t, parse_time (sq_NotBefore req) = Some t \/ parse_time (sq_ExpiresAt req) = Some t ->
    parse_time (format_time t) = Some t.

Lemma Verify_own p sig w : keystore_law -> py_Payer p = ks_Address -> py_Domain p = Domain ->
  marshal_payload p = Some w -> ks_Sign (Keccak256 w) = Some sig ->
  Verify (Some (mkSpendAuthorization (Some p) sig)) = Ok tt.
Proof.
  intros [Hlen Hks] Hp Hd Hm Hs. destruct (Hks _ _ Hs) as (Hl & Hv & Hr).
  unfold Verify, Digest. cbn [sa_Payload sa_Signature]. rewrite Hp, Hlen, Hl, Hd, Hm.
  rewrite (bool_decide_true (Domain = Domain)) by done. cbn [negb Z.eqb Pos.eqb orb].
  assert (negb (sig_v sig =? 27) && negb (sig_v sig =? 28) = false) as ->
    by (destruct Hv as [-> | ->]; reflexivity).
  rewrite Hr. by rewrite bool_decide_true.
Qed.

(** ** The payload the payer builds *)
Lemma parseAcceptedPrice_ok p acc : parseAcceptedPrice p = Ok acc ->
  exists price, p = Some price /\ blank (ap_Capability price) = false /\ blank (ap_Offering price) = false /\
    blank (ap_WorkUnitName price) = false /\ ap_UnitsPerPrice price <> 0 /\
    ai_PricePerUnitWei acc = price_wei price /\ ai_UnitsPerPrice acc = ap_UnitsPerPrice price /\
    ai_CapabilityName acc = TrimSpace (ap_Capability price) /\ ai_Offering acc = TrimSpace (ap_Offering price).
Proof.
  unfold parseAcceptedPrice. destruct p as [price|]; [|done]. intros E.
  destruct (blank (ap_Capability price)) eqn:E1; [done|]. destruct (blank (ap_Offering price)) eqn:E2; [done|].
  destruct (blank (ap_WorkUnitName price)) eqn:E3; [done|].
  destruct (Z.eqb_spec (ap_UnitsPerPrice price) 0) as [|Hu]; [done|].
  destruct (parseBigUInt _ _) as [wei|] eqn:Ew; [|done]. destruct (_ <? _); [done|].
  destruct (ap_QuoteRef price); [|done]. repeat case_match; simplify_eq. exists price. split_and!; try done.
  apply parseBigUInt_ok in Ew as (b & Hb & ->). unfold price_wei. by rewrite Hb.
Qed.

Lemma auth_scope_checks_ok req uri : auth_scope_checks req = Ok uri ->
  ValidWholesaleAccountID (sq_WholesaleAccountId req) = true /\ len (sq_Payee req) = 20 /\
  sq_AuthorizationId req <> "" /\ sq_RequestId req <> "" /\ ValidDomain (sq_SettlementDomainId req) = true /\
  BrokerURI (sq_BrokerUri req) = Some uri /\
  (sq_Protocol req = "paid-job/v1" \/ sq_Protocol req = "paid-session/v1") /\
  sq_ChainId req <> 0 /\ sq_Denomination req = "wei".
Proof.
  unfold auth_scope_checks. intros E. repeat case_match; simplify_eq. to_prop.
  match goal with Hp : negb _ = false \/ negb _ = false |- _ => destruct Hp; to_prop end;
    split_and!; auto using blank_false.
Qed.

Lemma auth_value_checks_ok limits req acc maxDebit : auth_value_checks limits req = Ok (acc, maxDebit) ->
  parseAcceptedPrice (sq_AcceptedPrice req) = Ok acc /\ maxDebit = be_Z (sq_MaxDebitWei req) /\ 0 < maxDebit /\
  sq_MaxTotalUnits req <> 0 /\ (forall max, l_MaxAuthorizationWei limits = Some max -> maxDebit <= max) /\
  BillFor (ai_PricePerUnitWei acc) (ai_UnitsPerPrice acc) (sq_MaxTotalUnits req) <= maxDebit /\
  len (sq_RequestDigest req) = 32 /\ caller_key_ok (sq_CallerPublicKey req) = true.
Proof.
  unfold auth_value_checks, CheckAuthorization. intros E. destruct (parseAcceptedPrice _) as [a|]; [|done].
  destruct (exceeds _ _) eqn:Ex; repeat case_match; simplify_eq; to_prop; [].
  rewrite exceeds_false in Ex. by split_and!.
Qed.

Lemma auth_window_checks_ok req nb ex : auth_window_checks req = Ok (nb, ex) ->
  parse_time (sq_NotBefore req) = Some nb /\ parse_time (sq_ExpiresAt req) = Some ex /\ nb < ex /\
  (sq_Protocol req = "paid-session/v1" -> blank (sq_SessionId req) = false) /\
  (sq_Protocol req = "paid-job/v1" -> blank (sq_SessionId req) = true /\ sq_Revision req = 0 /\
     blank (sq_PredecessorAuthorizationId req) = true) /\
  (sq_Revision req = 0 -> blank (sq_PredecessorAuthorizationId req) = true) /\
  (0 < sq_Revision req -> blank (sq_PredecessorAuthorizationId req) = false).
Proof.
  unfold auth_window_checks. intros E. destruct (parse_time (sq_NotBefore req)) as [n|]; [|done].
  destruct (parse_time (sq_ExpiresAt req)) as [e|]; [|done]. destruct (Z.leb_spec e n); [done|].
  destruct (bool_decide (sq_Protocol req = "paid-session/v1") && _) eqn:E1; [done|].
  destruct (bool_decide (sq_Protocol req = "paid-job/v1") && _) eqn:E2; [done|].
  destruct ((sq_Revision req =? 0) && _) eqn:E3; [done|]. destruct ((0 <? sq_Revision req) && _) eqn:E4; [done|].
  injection E as <- <-. split_and!; try done.
  - intros Hp. by rewrite bool_decide_true in E1 by done.
  - intros Hp. rewrite bool_decide_true in E2 by done. simpl in E2. by to_prop.
  - intros Hr. rewrite Hr in E3. simpl in E3. by to_prop.
  - intros Hr. by rewrite (proj2 (Z.ltb_lt _ _) Hr) in E4.
Qed.

Lemma guard_pass {E} t (err : E) : t = false -> guard t err = Ok tt.
Proof. by intros ->. Qed.

Lemma protocol_admissible p :
  py_Protocol p = "paid-job/v1" \/ py_Protocol p = "paid-session/v1" ->
  (py_Protocol p = "paid-session/v1" -> py_SessionId p <> "") ->
  (py_Protocol p = "paid-job/v1" -> py_SessionId p = "" /\ py_Revision p = 0 /\ py_PredecessorAuthorizationId p = "") ->
  (py_Revision p = 0 <-> py_PredecessorAuthorizationId p = "") ->
  check_protocol p = Ok tt.
Proof.
  intros Hpr Hs Hj Hr. unfold check_protocol. case_bool_decide as E1.
  - destruct (Hj E1) as (-> & -> & ->). done.
  - destruct Hpr as [?|E2]; [done|]. rewrite (bool_decide_true (py_Protocol p = _)) by done. apply guard_pass.
    rewrite (bool_decide_false (py_SessionId p = "")) by auto. simpl. apply negb_false_iff, eqb_true_iff.
    destruct (Z.eqb_spec (py_Revision p) 0) as [E|E]; symmetry; [by apply bool_decide_true, Hr|].
    apply bool_decide_false. by intros ?%Hr.
Qed.

Definition payee_addressed (svc : Service) (req : CreateSpendAuthorizationRequest) : Prop :=
  sv_recipient svc = sq_Payee req /\ domain_matches svc (sq_SettlementDomainId req) = true /\
  (sv_chainID svc = 0 \/ sv_chainID svc = sq_ChainId req).

(** The payload of an accepted request passes every check of the payee it is
    addressed to, from its opening on. *)
Lemma payload_admissible limits req p svc now :
  broker_uri_law -> times_law req -> tidy_request req -> 0 <= sq_Revision req ->
  auth_request_payload limits req = Ok p -> payee_addressed svc req ->
  (forall nb, parse_time (sq_NotBefore req) = Some nb -> nb <= now) ->
  exists price ex, sq_AcceptedPrice req = Some price /\ parse_time (sq_ExpiresAt req) = Some ex /\
    check_payload svc p = Ok price /\ check_window now p = Ok ex /\ check_limits p price = Ok tt.
Proof.
  intros Huri Htime (Htidy & Hts & Htp) Hrev E (Hre & Hdom & Hch) Hopen. unfold auth_request_payload in E.
  destruct (auth_scope_checks req) as [uri|] eqn:Es; [|done].
  destruct (auth_value_checks limits req) as [[acc maxDebit]|] eqn:Ev; [|done].
  destruct (auth_window_checks req) as [[nb ex]|] eqn:Ew; [|done]. injection E as <-.
  destruct (auth_scope_checks_ok _ _ Es) as (Hacc & _ & Haid & Hrid & _ & Hb%Huri & Hproto & Hcid & Hden).
  destruct (auth_value_checks_ok _ _ _ _ Ev) as (Hpr & -> & Hpos & Hun & _ & Hbill & Hdig & Hkey).
  destruct (auth_window_checks_ok _ _ _ Ew) as (Hnb & Hex & Hlt & Hsess & Hjob & Hr0 & Hr1).
  destruct (parseAcceptedPrice_ok _ _ Hpr) as (price & Hp & _ & _ & Hwu%blank_false & Hup & Hwei & Hupp & Hcap & Hoff).
  destruct (Htidy _ Hp) as [Htc Hto]. rewrite Htc in Hcap. rewrite Hto in Hoff.
  exists price, ex. split_and!; [done|done| | |].
  - assert (check_protocol (auth_payload req uri acc (be_Z (sq_MaxDebitWei req)) nb ex) = Ok tt) as Hproto'.
    { apply protocol_admissible; simpl; [done|by intros ?%Hsess%blank_false|intros ?%Hjob; naive_solver|].
      split; [by intros ?%Hr0%Htp|]. intros Hpe. destruct (decide (sq_Revision req = 0)) as [|Hn]; [done|].
      rewrite Hpe in Hr1. destruct (blank_false "" (Hr1 ltac:(lia))). done. }
    unfold check_payload. cbn [auth_payload py_SettlementDomainId py_WholesaleAccountId py_Payee py_ChainId py_Denomination
      py_AcceptedPrice py_AuthorizationId py_RequestId py_BrokerUri py_RequestDigest py_CallerPublicKey py_Capability py_Offering].
    rewrite Hdom, Hacc, Hre, Hp, Hden, Hdig, Hcap, Hoff, Hproto'. simpl.
    rewrite (bool_decide_true (sq_Payee req = _)) by done. simpl.
    rewrite (proj2 (Z.eqb_neq (sq_ChainId req) 0) Hcid). simpl.
    assert (negb (sv_chainID svc =? 0) && negb (sq_ChainId req =? sv_chainID svc) || false = false) as ->
      by (destruct Hch as [-> | ->]; [done|rewrite Z.eqb_refl; by destruct (_ =? 0)]).
    rewrite (bool_decide_false (sq_AuthorizationId req = "")), (bool_decide_false (sq_RequestId req = "")) by done.
    simpl. rewrite (bool_decide_false (uri = "")) by done. simpl.
    assert (negb (len (sq_CallerPublicKey req) =? 0) && negb (len (sq_CallerPublicKey req) =? 33) &&
            negb (len (sq_CallerPublicKey req) =? 65) = false) as ->
      by (unfold caller_key_ok in Hkey; destruct (_ =? 0); [done|]; destruct (_ =? 33); [done|]; by destruct (_ =? 65)).
    rewrite !bool_decide_true by done. rewrite (bool_decide_false (ap_WorkUnitName price = "")) by done.
    by rewrite (proj2 (Z.eqb_neq _ _) Hup).
  - unfold check_window. simpl. rewrite (Htime nb), (Htime ex) by auto. rewrite (proj2 (Z.ltb_lt _ _) Hlt). simpl.
    specialize (Hopen _ Hnb). unfold guard. by rewrite (proj2 (Z.ltb_ge _ _) Hopen).
  - unfold check_limits. simpl. rewrite be_Z_big_bytes, Z.abs_eq by lia. rewrite <- Hwei, <- Hupp.
    assert (0 <= ai_PricePerUnitWei acc) as Hnn by (rewrite Hwei; apply be_Z_nonneg).
    rewrite (proj2 (Z.leb_gt _ _) Hpos), (proj2 (Z.ltb_ge _ _) Hnn), (proj2 (Z.eqb_neq _ _) Hun). simpl.
    apply guard_pass. by apply Z.ltb_ge.
Qed.

(** A call that signs an authorization answers with its encoding. *)
Lemma CreateSpendAuthorization_signed env limits req s resp s' :
  CreateSpendAuthorization env limits req s = (Ok resp, s') -> sn_signed s' <> sn_signed s ->
  exists p w sig, auth_request_payload limits req = Ok p /\ marshal_payload p = Some w /\
    ks_Sign (Keccak256 w) = Some sig /\ marshal_auth (mkSpendAuthorization (Some p) sig) = Some (sr_AuthorizationBytes resp) /\
    sn_signed s' = sn_signed s ++ [SignedAuthorization p].
Proof.
  intros E Hne. unfold CreateSpendAuthorization in E. apply bind_ok in E as (p & s1 & [Ep ->]%lift_ok & E).
  apply bind_ok in E as (w & s1 & [Ew ->]%lift_ok & E). cbv zeta in E.
  destruct (marshal_payload p) as [w'|] eqn:Em; [|done]. injection Ew as <-.
  apply bind_ok in E as (prior & s1 & (db & Er & ->)%store_op_ok & E). destruct prior as [rec|]; [by act_inv|].
  apply bind_ok in E as (d & s1 & [Ed ->]%lift_ok & E). apply bind_ok in E as (sig & s1 & Es%map_err_ok & E).
  apply bind_ok in E as (wire & s2 & [Ewire ->]%lift_ok & E). act_inv.
  unfold Sign in Es. destruct (ks_Sign d) as [sig'|] eqn:Ek; [|done]. simplify_eq.
  destruct (marshal_auth _) as [wire'|] eqn:Ema; [|done]. simplify_eq.
  unfold Digest in Ed. rewrite Em in Ed. destruct (negb _); [done|]. injection Ed as <-. by exists p, w', sig.
Qed.

(** C16: What the payer signs, the payee admits: an authorization this payer signs
    for a request without padded texts passes every check the payee it is
    addressed to makes before it consults its ledger, from the opening of its
    window on; it binds the requested cap, which is within the payer's limit. *)
Theorem signed_authorization_admissible env limits req s resp s' svc now :
  keystore_law -> auth_codec_law -> broker_uri_law -> times_law req -> tidy_request req -> 0 <= sq_Revision req ->
  CreateSpendAuthorization env limits req s = (Ok resp, s') -> sn_signed s' <> sn_signed s ->
  payee_addressed svc req -> (forall nb, parse_time (sq_NotBefore req) = Some nb -> nb <= now) ->
  exists p price ex, sn_signed s' = sn_signed s ++ [SignedAuthorization p] /\
    check_authorization svc now (sr_AuthorizationBytes resp) = Ok (p, price, ex) /\
    be_Z (py_MaxDebitWei p) = be_Z (sq_MaxDebitWei req) /\
    (forall max, l_MaxAuthorizationWei limits = Some max -> be_Z (py_MaxDebitWei p) <= max).
Proof.
  intros Hks Hcodec Huri Htime Htidy Hrev E Hne Haddr Hopen.
  destruct (CreateSpendAuthorization_signed _ _ _ _ _ _ E Hne) as (p & w & sig & Ep & Em & Es & Ea & Hl).
  destruct (payload_admissible limits req p svc now Huri Htime Htidy Hrev Ep Haddr Hopen)
    as (price & ex & _ & _ & Hpl & Hw & Hlim).
  assert (py_Payer p = ks_Address /\ py_Domain p = Domain /\ be_Z (py_MaxDebitWei p) = be_Z (sq_MaxDebitWei req) /\
    (forall max, l_MaxAuthorizationWei limits = Some max -> be_Z (py_MaxDebitWei p) <= max)) as (Hpayer & Hd & Hcap & Hmax).
  { unfold auth_request_payload in Ep. destruct (auth_scope_checks req); [|done].
    destruct (auth_value_checks limits req) as [[acc maxDebit]|] eqn:Ev; [|done].
    destruct (auth_window_checks req) as [[nb e]|]; [|done]. injection Ep as <-.
    destruct (auth_value_checks_ok _ _ _ _ Ev) as (_ & -> & Hpos & _ & Hmax & _). simpl.
    rewrite be_Z_big_bytes, Z.abs_eq by lia. by split_and!. }
  exists p, price, ex. split_and!; try done.
  pose proof (Verify_own p sig w Hks Hpayer Hd Em Es) as Hv.
  assert (sig <> "") as Hsig by (intros ->; by destruct (proj2 Hks _ _ Es)).
  destruct (Hcodec (mkSpendAuthorization (Some p) sig) _ Hsig Ea) as [Hwne Hu]. unfold check_authorization. rewrite Hu.
  assert ((len (sr_AuthorizationBytes resp) =? 0) = false) as ->
    by (pose proof (len_pos _ Hwne); apply Z.eqb_neq; lia).
  cbn [guard]. rewrite Hv. cbn [sa_Payload]. by rewrite Hpl, Hw, Hlim.
Qed.

(** ** The shared record of mints and authorizations *)

Lemma auth_store_id_long limits req p : auth_request_payload limits req = Ok p -> 133 < len (auth_store_id p).
Proof.
  unfold auth_request_payload. intros E. destruct (auth_scope_checks req) as [uri|] eqn:Es; [|done].
  destruct (auth_value_checks limits req) as [[acc md]|]; [|done]. destruct (auth_window_checks req) as [[nb ex]|]; [|done].
  injection E as <-. destruct (auth_scope_checks_ok _ _ Es) as (Ha & Hp & Hid & _ & Hd & _ & _ & _ & Hden).
  unfold auth_store_id, auth_payload. cbn [py_ChainId py_Payee py_SettlementDomainId py_Denomination py_WholesaleAccountId py_AuthorizationId].
  rewrite Hden, !len_app, len_hex_encode, Hp.
  assert (len (sq_SettlementDomainId req) = 66) as ->
    by (unfold ValidDomain in Hd; destruct (Z.eqb_spec (len (sq_SettlementDomainId req)) 66); done).
  assert (sq_WholesaleAccountId req <> "") as Hne by (intros E; by rewrite E in Ha).
  pose proof (len_pos _ Hne). pose proof (len_pos _ Hid). pose proof (len_pos _ (dec_string_ne_nil (sq_ChainId req))).
  change (len "authorization/v3/") with 17. change (len "/") with 1. change (len "wei") with 3. lia.
Qed.

(** Mint ids and authorizations are recorded in one bucket, an authorization
    under an id derived from its scope.  No mint id a payment can use is such
    an id: payments refuse ids of more than 128 bytes, and the ids of
    authorizations are longer. *)
Theorem record_ids_disjoint env limits req s id s' areq p :
  mint_guard env req s = (Ok id, s') -> auth_request_payload limits areq = Ok p -> id <> auth_store_id p.
Proof.
  intros Eg Ep Hid. assert (len id <= maxMintRequestIDBytes) as Hlen; [|rewrite Hid in Hlen].
  { unfold mint_guard in Eg. cbv zeta in Eg. apply bind_ok in Eg as (? & ? & _ & Eg). apply bind_ok in Eg as (? & ? & _ & Eg).
    apply bind_ok in Eg as (? & ? & [Hl _]%require_ok & Eg). apply bind_ok in Eg as (? & ? & _ & Eg). act_inv. by to_prop. }
  pose proof (auth_store_id_long _ _ _ Ep). unfold maxMintRequestIDBytes in *. lia.
Qed.
End handshake.

(** ** A concrete handshake *)
Definition demo_auth_request (capability : string) : CreateSpendAuthorizationRequest :=
  mkCreateAuthRequest "acct" "payee-address-20byte" "auth-1" "request-1" "" "paid-job/v1"
    (Some (mkAcceptedPrice (Some (big_bytes 7)) 2 "token" capability "off" (Some (mkQuoteRef "quote-1" 1 "cfp" "rfp"))))
    (big_bytes 1000) 200 "10" "50" (be_bytes 32 8) "" 0 "" "https://broker" 1 "wei" demo_domain_id.

(** The payee of the request, on chain 1. *)
Definition hand_svc : Service := mkService "payee-address-20byte" 1 (Ok demo_domain_id) 1000 MaxWinProb.

#[export] Instance AcceptedPrice_eq_dec : EqDecision AcceptedPrice.
Proof. assert (EqDecision QuoteRef) by solve_decision. solve_decision. Defined.
#[export] Instance SpendAuthorization_eq_dec : EqDecision SpendAuthorization.
Proof. assert (EqDecision SpendAuthorizationPayload) by solve_decision. solve_decision. Defined.

(** The authorization the payer signs for the request. *)
Definition hand_payload (capability : string) : SpendAuthorizationPayload :=
  mkPayload Domain demo_sender "payee-address-20byte" "auth-1" "request-1" "" "paid-job/v1" (TrimSpace capability) "off"
    (sq_AcceptedPrice (demo_auth_request capability)) (big_bytes 1000) 200 "10" "50" (be_bytes 32 8) "" 0 ""
    "https://broker" 1 "wei" demo_domain_id "acct".
Definition hand_auth (capability : string) : SpendAuthorization :=
  mkSpendAuthorization (Some (hand_payload capability)) demo_sig.

(** A codec that knows this one message. *)
Definition hand_wire (capability : string) : AuthWire := {|
  unmarshal_auth w := if bool_decide (w = "wire") then Some (hand_auth capability) else None;
  unmarshal_partial _ := hand_auth capability;
  marshal_payload p := Some (py_AuthorizationId p);
  marshal_auth a := if bool_decide (a = hand_auth capability) then Some "wire" else None;
  parse_time := SetString10;
  format_time := dec_string;
|}.

Lemma hand_keystore : @keystore_law demo_eth demo_payer.
Proof. split; [vm_refl|]. intros d sig [= <-]. split_and!; [vm_refl|left; vm_refl|vm_refl]. Qed.
Lemma hand_codec capability : @auth_codec_law (hand_wire capability).
Proof.
  intros a w _. simpl. case_bool_decide as E; [|done]. intros [= <-]. subst a. split; [done|]. by rewrite bool_decide_true.
Qed.
Lemma hand_uri : @broker_uri_law demo_payer.
Proof. intros raw uri. simpl. case_bool_decide; [done|]. by intros [= <-]. Qed.
Lemma hand_times capability req : @times_law (hand_wire capability) req.
Proof. intros t _. apply SetString10_dec. Qed.

Abbreviation hand_sign capability :=
  (@CreateSpendAuthorization (gmap string) _ demo_eth (hand_wire capability) demo_payer (demo_env 1 (steady_payee 5)) no_limits
     (demo_auth_request capability) (payer_start Open)) (only parsing).

Lemma signed_authorization_admissible_witness :
  let out := hand_sign "cap" in
  is_ok out.1 = true /\
  forall resp s', out = (Ok resp, s') -> sn_signed s' <> [] ->
    is_ok (@check_authorization demo_eth (hand_wire "cap") hand_svc 20 (sr_AuthorizationBytes resp)) = true.
Proof.
  intros out. split; [vm_refl|]. intros resp s' E Hne.
  destruct (@signed_authorization_admissible (gmap string) _ demo_eth (hand_wire "cap") demo_payer (demo_env 1 (steady_payee 5))
    no_limits (demo_auth_request "cap") (payer_start Open) resp s' hand_svc 20 hand_keystore (hand_codec "cap") hand_uri
    (hand_times "cap" _)) as (p & price & ex & _ & Hc & _).
  - split_and!; [|done|done]. intros price [= <-]. split; vm_refl.
  - simpl. lia.
  - exact E.
  - exact Hne.
  - split_and!; [vm_refl|vm_refl|by right].
  - intros nb Hnb. vm_compute in Hnb. injection Hnb as <-. lia.
  - rewrite Hc. reflexivity.
Defined.

(** The payer trims a capability where the payee compares it with the price as
    signed: for a padded capability the payer signs an authorization that no
    check of its payee can accept. *)
Theorem padded_scope_refused :
  is_ok (hand_sign " cap").1 = true /\
  sn_signed (hand_sign " cap").2 = [SignedAuthorization (hand_payload " cap")] /\
  check_payload hand_svc (hand_payload " cap") = Err (bad "PRICE_SCOPE_MISMATCH").
Proof. split_and!; vm_refl. Qed.

(** A mint id cannot meet the id of the authorization signed above. *)
Lemma record_ids_disjoint_witness :
  TrimSpace (cq_MintRequestId (demo_mint "mint-1" 40)) <> auth_store_id (hand_payload "cap").
Proof.
  exact (@record_ids_disjoint (gmap string) _ (hand_wire "cap") demo_payer (demo_env 1 (steady_payee 5)) no_limits
    (demo_mint "mint-1" 40) (payer_start Open) _ _ (demo_auth_request "cap") _ eq_refl eq_refl).
Defined.
