(* ===== verification/RevenueReport.v ===== *)
(** * Complete revenue reports and source retirement

    payment-daemon/internal/service/revenuereport and the handlers
    [GetRoundRevenue], [FreezeRevenueSource] and [GetRevenueSourceStatus] of
    internal/service/receiver.  The chain the reporter observes is the record
    [Observer]: the outcome of each call during one report. *)
From S2P Require Import Prelude.
From S2P Require Import GoBytes.
From S2P Require Import GoCodecs.
From S2P Require Import Bolt.
From S2P Require Import Ledger.
From S2P Require Import Redemptions.
From S2P Require Import RedemptionsSpec.
From S2P Require Import Fences.
From S2P Require Import Tickets.
From S2P Require Import Receiver.
From S2P Require Import Spendauth.
From S2P Require Import Admission.

Record RevenueCoverage := mkRevenueCoverage {
  cv_Head : Z;
  cv_HeadHash : string;
  cv_FinalizedBlock : Z;
  cv_FinalizedBlockHash : string;
  cv_CompleteThroughRound : Z;
  cv_ObservedAt : Z;
}.

(** An error is its text; [InclusionForTransaction] is taken after the
    conversion of the stored bytes to a hash. *)
Record Observer := mkObserver {
  ob_RevenueCoverage : result string (option RevenueCoverage);
  ob_VerifyRevenueCoverage : RevenueCoverage -> result string unit;
  ob_InclusionForTransaction : string -> result string (option RedemptionInclusion);
  ob_ConfirmedInclusion : string -> result string (option RedemptionInclusion);
}.

Record entry := mkEntry {
  en_TicketHash : string;
  en_TxHash : string;
  en_BlockNumber : Z;
  en_BlockHash : string;
  en_Round : Z;
  en_Value : string;
}.

Record GetRoundRevenueResponse := mkRoundRevenue {
  rv_RoundId : Z;
  rv_ConfirmedRevenueWei : string;
  rv_ConfirmedTicketCount : Z;
  rv_InclusionDigest : string;
  rv_Complete : bool;
  rv_IncompleteReason : string;
  rv_ObservedHead : Z;
  rv_ObservedHeadHash : string;
  rv_FinalizedBlock : Z;
  rv_FinalizedBlockHash : string;
  rv_CompleteThroughRound : Z;
  rv_ObservedAt : string;
  rv_SettlementDomainId : string;
  rv_ChainId : Z;
  rv_Payee : string;
}.

(** A report before the coverage is known, and one bound to it. *)
Definition blank_report (round : Z) (reason : string) : GetRoundRevenueResponse :=
  mkRoundRevenue round "" 0 "" false reason 0 "" 0 "" 0 "" "" 0 "".

Definition covered_report `{AuthWire} (round : Z) (c : RevenueCoverage) (revenue : string) (count : Z) (digest : string)
    (complete : bool) (reason : string) : GetRoundRevenueResponse :=
  mkRoundRevenue round revenue count digest complete reason (cv_Head c) (cv_HeadHash c) (cv_FinalizedBlock c)
    (cv_FinalizedBlockHash c) (cv_CompleteThroughRound c) (format_time (cv_ObservedAt c)) "" 0 "".

Definition terminal_drain (reason : string) : bool :=
  bool_decide (reason = "expired") || bool_decide (reason = "face_value_too_low") || bool_decide (reason = "reverted").

(** The closure [add]: the entry of a record, when it is of this round. *)
Definition add_entry (coverage : RevenueCoverage) (round : Z) (hash value : string) (evidence : RedemptionInclusion)
    : result string (option entry) :=
  if negb (inc_Round evidence =? round) then Ok None
  else match SetString10 value with
  | None => Err "invalid inclusion or amount"
  | Some amount =>
      if (amount <? 0) || negb (len hash =? 32) || negb (len (inc_TxHash evidence) =? 32) ||
         negb (len (inc_BlockHash evidence) =? 32) || (cv_FinalizedBlock coverage <? inc_BlockNumber evidence)
      then Err "invalid inclusion or amount"
      else Ok (Some (mkEntry hash (inc_TxHash evidence) (inc_BlockNumber evidence) (inc_BlockHash evidence)
                       (inc_Round evidence) (dec_string amount)))
  end.

(** One redeemed record: nothing to add, an entry, or the reason to hold. *)
Definition redeemed_entry (chain : Observer) (coverage : RevenueCoverage) (round : Z) (record : RedeemedRedemption)
    : result string (option entry) :=
  if round <? rr_CreationRound record then Ok None
  else if negb (rr_ConfirmedOnChain record) then
    if terminal_drain (rr_DrainReason record) then Ok None
    else Err "unresolved drained or already-used ticket history"
  else
    match ob_InclusionForTransaction chain (rr_TxHash record) with
    | Err e => Err ("redemption inclusion: " +:+ e)
    | Ok evidence =>
        match rr_Inclusion record, evidence with
        | None, _ => Err "legacy confirmed redemption needs durable inclusion backfill"
        | Some _, None => Err "previously recorded inclusion changed; audited recovery required"
        | Some recorded, Some evidence =>
            if negb (inc_Round evidence =? inc_Round recorded) ||
               negb (bool_decide (inc_BlockHash evidence = inc_BlockHash recorded))
            then Err "previously recorded inclusion changed; audited recovery required"
            else add_entry coverage round (rr_TicketHash record) (rr_FaceValueWei record) evidence
        end
    end.

(** The entries of the redeemed records, in order. *)
Fixpoint redeemed_entries (chain : Observer) (coverage : RevenueCoverage) (round : Z) (records : list RedeemedRedemption)
    : result string (list entry) :=
  match records with
  | [] => Ok []
  | record :: records' =>
      let! e := redeemed_entry chain coverage round record in
      let! rest := redeemed_entries chain coverage round records' in
      Ok (match e with Some e => e :: rest | None => rest end)
  end.

(** A pending ticket of the round holds the report when it may have been
    redeemed already.  (A row of the queue always has its ticket.) *)
Fixpoint pending_clear (chain : Observer) (round : Z) (pending : list PendingRedemption) : result string unit :=
  match pending with
  | [] => Ok tt
  | record :: pending' =>
      if round <? st_CreationRound (pr_Ticket record) then pending_clear chain round pending'
      else match ob_ConfirmedInclusion chain (pr_Hash record) with
      | Err e => Err ("pending redemption confirmation: " +:+ e)
      | Ok None => pending_clear chain round pending'
      | Ok (Some _) => Err "confirmed redemption awaits durable settlement catch-up"
      end
  end.

(** [sort.Slice] by ticket hash. *)
Definition entry_le (x y : entry) : Prop := String.le (en_TicketHash x) (en_TicketHash y).
#[export] Instance entry_le_dec : RelDecision entry_le.
Proof. intros x y. apply String.le_dec. Defined.

Definition json_entry (e : entry) : string :=
  json_object [json_field "ticket_hash" (json_bytes (en_TicketHash e)); json_field "tx_hash" (json_bytes (en_TxHash e));
    json_field "block_number" (dec_string (en_BlockNumber e)); json_field "block_hash" (json_bytes (en_BlockHash e));
    json_field "round" (dec_string (en_Round e)); json_field "value_wei" (json_string (en_Value e))].
Definition json_entries (l : list entry) : string := "[" +:+ String.concat "," (json_entry <$> l) +:+ "]".

Definition total_of (l : list entry) : Z := foldl (fun total e => total + default 0 (SetString10 (en_Value e))) 0 l.

Section report.
Context `{Bolt M} `{AuthWire}.

(** [Reporter.Round]; a chain of [None] is a [nil] observer. *)
Definition Round (chain : option Observer) (round : Z) (db : DB M) : result error GetRoundRevenueResponse :=
  match chain with
  | None => Ok (blank_report round "chain observation unavailable")
  | Some chain =>
    match ob_RevenueCoverage chain with
    | Err e => Ok (blank_report round ("chain coverage: " +:+ e))
    | Ok None => Ok (blank_report round "round not yet covered by confirmed chain prefix")
    | Ok (Some coverage) =>
      if cv_CompleteThroughRound coverage <? round
      then Ok (blank_report round "round not yet covered by confirmed chain prefix")
      else
        let hold reason := Ok (covered_report round coverage "" 0 "" false reason) in
        let! (pending, redeemed, legacy) := RedemptionHistory db in
        if (legacy : bool)
        then hold "legacy redemption history lacks source evidence; restore or backfill before closing"
        else match redeemed_entries chain coverage round redeemed with
        | Err reason => hold reason
        | Ok entries =>
          match pending_clear chain round pending with
          | Err reason => hold reason
          | Ok _ =>
            match ob_VerifyRevenueCoverage chain coverage with
            | Err e => hold ("coverage changed: " +:+ e)
            | Ok _ =>
                let entries := merge_sort entry_le entries in
                Ok (covered_report round coverage (big_bytes (total_of entries)) (Z.of_nat (length entries))
                      (sha256 (json_entries entries)) true "")
            end
          end
        end
    end
  end.

(** ** The handlers *)

(** The JSON the final digest is taken over. *)
Definition json_source (svc : Service) (round : Z) (digest : string) : string :=
  json_object [json_field "Source" (json_string (domainID svc)); json_field "Chain" (dec_string (sv_chainID svc));
    json_field "Payee" (json_bytes (sv_recipient svc)); json_field "Round" (dec_string round);
    json_field "Entries" (json_bytes digest)].

(** The identity of the ledger, stamped on a report. *)
Definition stamp (svc : Service) (digest : string) (r : GetRoundRevenueResponse) : GetRoundRevenueResponse :=
  mkRoundRevenue (rv_RoundId r) (rv_ConfirmedRevenueWei r) (rv_ConfirmedTicketCount r) digest (rv_Complete r)
    (rv_IncompleteReason r) (rv_ObservedHead r) (rv_ObservedHeadHash r) (rv_FinalizedBlock r) (rv_FinalizedBlockHash r)
    (rv_CompleteThroughRound r) (rv_ObservedAt r) (domainID svc) (sv_chainID svc) (sv_recipient svc).

(** [reporter] is the installed [RevenueReporter]: [Round] at the chain
    observed by this call. *)
Definition GetRoundRevenue (svc : Service) (reporter : option (option Observer)) (round : Z) (db : DB M)
    : result rpc_error GetRoundRevenueResponse :=
  if round <? 0 then Err (Status InvalidArgument "round_id must be >= 0")
  else match reporter with
  | Some chain =>
      match Round chain round db with
      | Err _ => Err (Status Unavailable "revenue report")
      | Ok r =>
          Ok (stamp svc (if rv_Complete r then sha256 (json_source svc (rv_RoundId r) (rv_InclusionDigest r))
                         else rv_InclusionDigest r) r)
      end
  | None =>
      match RoundRevenue round db with
      | Err _ => Err (Status Internal "round revenue")
      | Ok (revenue, count) =>
          Ok (stamp svc "" (mkRoundRevenue round (big_bytes revenue) count "" false
                "chain-qualified revenue reporting unavailable" 0 "" 0 "" 0 "" "" 0 ""))
      end
  end.

Record RevenueSourceStatus := mkSourceStatus {
  rs_Frozen : bool;
  rs_FreezeReason : string;
  rs_FrozenAt : string;
  rs_ActiveAuthorizations : Z;
  rs_PendingRedemptions : Z;
  rs_LastRedemptionRound : Z;
  rs_CompleteThroughRound : Z;
  rs_ObservedAt : string;
  rs_Complete : bool;
  rs_IncompleteReason : string;
}.

(** The scan of the redeemed records: the last round, or why to hold, with
    the round reached so far. *)
Fixpoint last_round (records : list RedeemedRedemption) (last : Z) : Z * option string :=
  match records with
  | [] => (last, None)
  | record :: records' =>
      if rr_ConfirmedOnChain record then
        match rr_Inclusion record with
        | None => (last, Some "confirmed redemption lacks inclusion evidence")
        | Some inc => last_round records' (if last <? inc_Round inc then inc_Round inc else last)
        end
      else if terminal_drain (rr_DrainReason record) then last_round records' last
      else (last, Some "unresolved historical redemption")
  end.

(** [clock] and [proof] are the chain at the two reports it asks for. *)
Definition GetRevenueSourceStatus (svc : Service) (reporter : option (option Observer * option Observer))
    (domain : string) (db : DB M) : result rpc_error RevenueSourceStatus :=
  if negb (domain_matches svc domain) then Err (Status PermissionDenied "receiver source identity mismatch")
  else match SourceFence db with
  | Err _ => Err (Status Internal "source fence unavailable")
  | Ok fence =>
    let active := ActiveAuthorizations db in
    match RedemptionHistory db with
    | Err _ => Err (Status Internal "redemption inventory unavailable")
    | Ok (pending, redeemed, legacy) =>
      let queued := Z.of_nat (length pending) in
      let status := mkSourceStatus (sf_Frozen fence) (sf_Reason fence)
                      (if sf_Frozen fence then format_time (sf_FrozenAt fence) else "") active queued in
      if negb (sf_Frozen fence) || negb (active =? 0) || negb (queued =? 0)
      then Ok (status 0 0 "" false "source not frozen or settlement remains")
      else if (legacy : bool) then Ok (status 0 0 "" false "legacy redemption history lacks evidence")
      else match last_round redeemed 0 with
      | (last, Some reason) => Ok (status last 0 "" false reason)
      | (last, None) =>
        match reporter with
        | None => Ok (status last 0 "" false "confirmed chain reporting unavailable")
        | Some (clock_chain, proof_chain) =>
          let! clock := GetRoundRevenue svc (Some clock_chain) 0 db in
          if rv_CompleteThroughRound clock <? last
          then Ok (status last 0 "" false "latest redemption round not yet complete")
          else
            let! proof := GetRoundRevenue svc (Some proof_chain) (rv_CompleteThroughRound clock) db in
            if negb (rv_Complete proof)
            then Ok (status last (rv_CompleteThroughRound proof) (rv_ObservedAt proof) false (rv_IncompleteReason proof))
            else Ok (status last (rv_CompleteThroughRound proof) (rv_ObservedAt proof) true "")
        end
      end
    end
  end.

Definition FreezeRevenueSource (svc : Service) (reporter : option (option Observer * option Observer)) (now : Z)
    (domain reason : string) (db : DB M) : result rpc_error RevenueSourceStatus * DB M :=
  if negb (domain_matches svc domain) then (Err (Status PermissionDenied "receiver source identity mismatch"), db)
  else match FreezeSource now reason db with
  | (Err _, db) => (Err (Status FailedPrecondition "source cannot freeze"), db)
  | (Ok _, db) => (GetRevenueSourceStatus svc reporter (domainID svc) db, db)
  end.

End report.

(** ** What a complete report promises *)

(** The wei and the count an optional entry contributes. *)
Definition entry_wei (e : entry) : Z := default 0 (SetString10 (en_Value e)).

Fixpoint sum_with {A} (f : A -> Z) (l : list A) : Z :=
  match l with [] => 0 | x :: l' => f x + sum_with f l' end.

Lemma sum_with_perm {A} (f : A -> Z) l l' : l ≡ₚ l' -> sum_with f l = sum_with f l'.
Proof. induction 1; simpl; lia. Qed.

Lemma total_of_sum l : total_of l = sum_with entry_wei l.
Proof.
  assert (forall a, foldl (fun total e => total + entry_wei e) a l = a + sum_with entry_wei l) as E.
  { induction l as [|e l IH]; intros a; simpl; [lia|]. rewrite IH. lia. }
  exact (E 0).
Qed.

(** A record whose evidence is of the round it was booked in, and whose ticket
    is not younger than its redemption. *)
Definition coherent_record (rec : RedeemedRedemption) : Prop :=
  (forall ev, rr_Inclusion rec = Some ev -> rr_RedeemedRound rec = inc_Round ev) /\
  (rr_ConfirmedOnChain rec = true -> rr_CreationRound rec <= rr_RedeemedRound rec).

(** Why a record lets a report of [round] be complete. *)
Definition accounted_for (chain : Observer) (round : Z) (rec : RedeemedRedemption) : Prop :=
  round < rr_CreationRound rec \/
  (rr_ConfirmedOnChain rec = false /\ terminal_drain (rr_DrainReason rec) = true) \/
  exists recorded evidence, rr_ConfirmedOnChain rec = true /\ rr_Inclusion rec = Some recorded /\
    ob_InclusionForTransaction chain (rr_TxHash rec) = Ok (Some evidence) /\
    inc_Round evidence = inc_Round recorded /\ inc_BlockHash evidence = inc_BlockHash recorded.

Lemma redeemed_entry_ok chain cov round rec e :
  coherent_record rec -> redeemed_entry chain cov round rec = Ok e ->
  sum_with entry_wei (option_list e) = (if counts round (RedeemedRow rec) then face_of (RedeemedRow rec) else 0) /\
  Z.of_nat (length (option_list e)) = (if counts round (RedeemedRow rec) then 1 else 0) /\
  0 <= sum_with entry_wei (option_list e) /\ accounted_for chain round rec.
Proof.
  intros [Hinc Hage]. unfold redeemed_entry. simpl.
  destruct (Z.ltb_spec round (rr_CreationRound rec)).
  { intros [= <-]. destruct (rr_ConfirmedOnChain rec); [specialize (Hage eq_refl)|]; simpl;
      [rewrite (proj2 (Z.eqb_neq _ _)) by lia|]; split_and!; try done; by left. }
  destruct (rr_ConfirmedOnChain rec) eqn:Hc; simpl.
  2: { destruct (terminal_drain _) eqn:Ht; [|done]. intros [= <-]. split_and!; try done. right. left. done. }
  destruct (ob_InclusionForTransaction _ _) as [ev|] eqn:Ho; [|done].
  destruct (rr_Inclusion rec) as [recorded|] eqn:Hr; [|done]. destruct ev as [ev|]; [|done].
  destruct (_ || _) eqn:Hm; [done|]. to_prop. specialize (Hinc recorded eq_refl).
  assert (accounted_for chain round rec) as Hacc.
  { right. right. exists recorded, ev. split_and!; done. }
  unfold add_entry. rewrite Hinc, <- H0.
  destruct (Z.eqb_spec (inc_Round ev) round) as [E|E]; simpl.
  2: { intros [= <-]. split_and!; try done. }
  destruct (SetString10 (rr_FaceValueWei rec)) as [amount|]; [|done].
  destruct (_ || _) eqn:Hbad; [done|]. to_prop. intros [= <-]. simpl. unfold entry_wei. simpl.
  rewrite SetString10_dec. simpl. split_and!; try lia. exact Hacc.
Qed.

Lemma redeemed_entries_ok chain cov round recs es :
  Forall coherent_record recs -> redeemed_entries chain cov round recs = Ok es ->
  sum_with entry_wei es =
    sum_with (fun rec => if counts round (RedeemedRow rec) then face_of (RedeemedRow rec) else 0) recs /\
  Z.of_nat (length es) = sum_with (fun rec => if counts round (RedeemedRow rec) then 1 else 0) recs /\
  0 <= sum_with entry_wei es /\ Forall (accounted_for chain round) recs.
Proof.
  intros Hco. revert es. induction Hco as [|rec recs Hrec Hco IH]; intros es; simpl.
  { intros [= <-]. split_and!; try done. }
  destruct (redeemed_entry chain cov round rec) as [e|] eqn:E; [|done].
  destruct (redeemed_entries chain cov round recs) as [rest|]; [|done]. intros [= <-].
  destruct (redeemed_entry_ok _ _ _ _ _ Hrec E) as (W & C & P & A).
  destruct (IH _ eq_refl) as (Ws & Cs & Ps & As).
  assert (match e with Some e => e :: rest | None => rest end = option_list e ++ rest) as -> by by destruct e.
  assert (forall l l', sum_with entry_wei (l ++ l') = sum_with entry_wei l + sum_with entry_wei l') as Happ.
  { clear. intros l l'. induction l; simpl; lia. }
  rewrite Happ, length_app, Nat2Z.inj_add, W, C, Ws, Cs. split_and!; try done; [lia|by constructor].
Qed.

Lemma pending_clear_ok chain round pend :
  pending_clear chain round pend = Ok tt ->
  Forall (fun p => st_CreationRound (pr_Ticket p) <= round -> ob_ConfirmedInclusion chain (pr_Hash p) = Ok None) pend.
Proof.
  induction pend as [|p pend IH]; intros E; [constructor|]. simpl in E.
  destruct (Z.ltb_spec round (st_CreationRound (pr_Ticket p))).
  - constructor; [lia|by apply IH].
  - destruct (ob_ConfirmedInclusion chain (pr_Hash p)) as [[ev|]|] eqn:Eo; try discriminate E.
    constructor; [done|by apply IH].
Qed.

Section promises.
Context `{Bolt M} `{AuthWire}.
Implicit Types (db : DB M).

Definition coherent db : Prop :=
  forall h rec, redemptions_redeemed db !! h = Some (RedeemedRow rec) -> coherent_record rec.

(** Without legacy rows the history lists every record. *)
Lemma history_redeemed_rows (l : list (string * redeemedRow)) recs :
  history_redeemed l = (recs, false) -> l.*2 = RedeemedRow <$> recs.
Proof.
  revert recs. induction l as [|[h [t|rec]] l IH]; intros recs E; simpl in *.
  - by injection E as <-.
  - by destruct (history_redeemed l).
  - destruct (history_redeemed l) as [rs b]. injection E as <- ->. simpl. f_equal. by apply IH.
Qed.

Lemma msum_rows (g : redeemedRow -> Z) db recs :
  (ForEach (redemptions_redeemed db)).*2 = RedeemedRow <$> recs ->
  msum (fun _ row => g row) (redemptions_redeemed db) = sum_with (fun rec => g (RedeemedRow rec)) recs.
Proof.
  intros E. rewrite (msum_list _ _ _ (ForEach_perm _)). revert recs E.
  generalize (ForEach (redemptions_redeemed db)) as l.
  induction l as [|kv l IH]; intros [|r recs] E; try discriminate E; [done|].
  injection E as E1 E2. simpl. by rewrite (IH recs E2), E1.
Qed.

(** What the history of a complete snapshot consists of. *)
Lemma history_parts db pend recs :
  RedemptionHistory db = Ok (pend, recs, false) ->
  (ForEach (redemptions_redeemed db)).*2 = RedeemedRow <$> recs /\
  history_pending (redemptions_pending db) (ForEach (redemptions_by_hash db)) = Ok pend.
Proof.
  unfold RedemptionHistory. destruct (history_pending _ _) as [p|]; [|done].
  destruct (history_redeemed _) as [rs b] eqn:E. intros [= <- <- ->]. split; [by apply history_redeemed_rows|done].
Qed.

Lemma history_pending_elem (pending : M SignedTicket) l pend h seq t :
  history_pending pending l = Ok pend -> (h, seq) ∈ l -> pending !! seq = Some t ->
  mkPendingRedemption (readSeq seq) t h ∈ pend.
Proof.
  revert pend. induction l as [|[h' seq'] l IH]; intros pend E Hin Ht; [by apply not_elem_of_nil in Hin|]. simpl in E.
  destruct (pending !! seq') as [t'|] eqn:Et; [|done].
  destruct (history_pending pending l) as [rest|]; [|done]. injection E as <-.
  apply elem_of_cons in Hin as [[= <- <-]|Hin]; [rewrite Ht in Et; injection Et as <-; by left|].
  right. by apply IH.
Qed.

Lemma coherent_records db recs :
  coherent db -> (ForEach (redemptions_redeemed db)).*2 = RedeemedRow <$> recs -> Forall coherent_record recs.
Proof.
  intros Hco E. apply Forall_forall. intros rec Hin.
  assert (RedeemedRow rec ∈ (ForEach (redemptions_redeemed db)).*2) as Hr.
  { rewrite E. by apply list_elem_of_fmap_2. }
  apply list_elem_of_fmap in Hr as ([h row] & Eq & Hr). simpl in Eq. subst row. apply elem_of_ForEach in Hr. by eapply Hco.
Qed.

Lemma Round_complete_inv chain round db r :
  Round (Some chain) round db = Ok r -> rv_Complete r = true ->
  exists cov pend recs es, ob_RevenueCoverage chain = Ok (Some cov) /\ round <= cv_CompleteThroughRound cov /\
    RedemptionHistory db = Ok (pend, recs, false) /\ redeemed_entries chain cov round recs = Ok es /\
    pending_clear chain round pend = Ok tt /\ ob_VerifyRevenueCoverage chain cov = Ok tt /\
    r = covered_report round cov (big_bytes (total_of (merge_sort entry_le es)))
          (Z.of_nat (length (merge_sort entry_le es))) (sha256 (json_entries (merge_sort entry_le es))) true "".
Proof.
  unfold Round. destruct (ob_RevenueCoverage chain) as [[cov|]|]; try by intros [= <-].
  destruct (Z.ltb_spec (cv_CompleteThroughRound cov) round); [by intros [= <-]|].
  destruct (RedemptionHistory db) as [[[pend recs] legacy]|]; [|done].
  destruct legacy; [by intros [= <-]|].
  destruct (redeemed_entries chain cov round recs) as [es|] eqn:Ee; [|by intros [= <-]].
  destruct (pending_clear chain round pend) as [[]|] eqn:Ep; [|by intros [= <-]].
  destruct (ob_VerifyRevenueCoverage chain cov) as [[]|] eqn:Ev; [|by intros [= <-]].
  intros [= <-] _. exists cov, pend, recs, es. split_and!; try done.
Qed.

(** C20: The report of a round agrees with the ledger's own sum: a complete report
    states exactly the face values and the number of the redemptions booked in
    that round, every record that could matter to it was checked against the
    chain or ended without revenue, and no pending ticket of the round has been
    redeemed. *)
Theorem report_matches_ledger chain round db r :
  coherent db -> Round (Some chain) round db = Ok r -> rv_Complete r = true ->
  be_Z (rv_ConfirmedRevenueWei r) = revenue round db /\
  rv_ConfirmedTicketCount r = revenue_count round db /\
  (forall h rec, redemptions_redeemed db !! h = Some (RedeemedRow rec) -> accounted_for chain round rec) /\
  (forall h t, redemptions_redeemed db !! h <> Some (LegacyTxHash t)) /\
  (forall h seq t, redemptions_by_hash db !! h = Some seq -> redemptions_pending db !! seq = Some t ->
     st_CreationRound t <= round -> ob_ConfirmedInclusion chain h = Ok None).
Proof.
  intros Hco E Hc. destruct (Round_complete_inv _ _ _ _ E Hc) as (cov & pend & recs & es & _ & _ & Hh & He & Hp & _ & ->).
  destruct (history_parts _ _ _ Hh) as [Hrows Hpend].
  destruct (redeemed_entries_ok _ _ _ _ _ (coherent_records _ _ Hco Hrows) He) as (W & C & P & A).
  simpl. rewrite be_Z_big_bytes, total_of_sum, (sum_with_perm _ _ _ (merge_sort_Permutation entry_le es)).
  rewrite (Permutation_length (merge_sort_Permutation entry_le es)).
  unfold revenue, revenue_count. rewrite (msum_rows _ _ _ Hrows), (msum_rows _ _ _ Hrows).
  split_and!; [lia|lia| | |].
  - intros h rec Hrec. rewrite Forall_forall in A. apply A.
    apply elem_of_ForEach in Hrec. apply (list_elem_of_fmap_2 snd) in Hrec. rewrite Hrows in Hrec.
    apply list_elem_of_fmap in Hrec as (rec' & [= <-] & Hin). exact Hin.
  - intros h t Hrow. apply elem_of_ForEach in Hrow. apply (list_elem_of_fmap_2 snd) in Hrow. rewrite Hrows in Hrow.
    by apply list_elem_of_fmap in Hrow as (rec' & [=] & _).
  - intros h seq t Hseq Ht Hcr. apply elem_of_ForEach in Hseq. apply pending_clear_ok in Hp.
    rewrite Forall_forall in Hp. exact (Hp _ (history_pending_elem _ _ _ _ _ _ Hpend Hseq Ht) Hcr).
Qed.
(** ** Retiring a source *)
Lemma last_round_ok recs last0 last :
  last_round recs last0 = (last, None) ->
  last0 <= last /\ Forall (fun rec => rr_ConfirmedOnChain rec = true ->
    exists inc, rr_Inclusion rec = Some inc /\ inc_Round inc <= last) recs.
Proof.
  revert last0. induction recs as [|rec recs IH]; intros last0 E; simpl in E.
  { injection E as <-. split; [lia|constructor]. }
  destruct (rr_ConfirmedOnChain rec) eqn:Hc.
  - destruct (rr_Inclusion rec) as [inc|] eqn:Hi; [|done]. destruct (IH _ E) as [Hle Hall].
    destruct (Z.ltb_spec last0 (inc_Round inc)); (split; [lia|constructor; [|done]]; intros _; exists inc; split; [done|lia]).
  - destruct (terminal_drain _); [|done]. destruct (IH _ E) as [Hle Hall]. split; [done|].
    constructor; [by rewrite Hc|done].
Qed.

Lemma history_pending_length (pending : M SignedTicket) l pend :
  history_pending pending l = Ok pend -> length pend = length l.
Proof.
  revert pend. induction l as [|[h seq] l IH]; intros pend E; simpl in E; [by injection E as <-|].
  destruct (pending !! seq); [|done]. destruct (history_pending pending l) as [rest|]; [|done].
  injection E as <-. simpl. f_equal. by apply IH.
Qed.

Lemma revenue_after db recs last round :
  coherent db -> (ForEach (redemptions_redeemed db)).*2 = RedeemedRow <$> recs ->
  Forall (fun rec => rr_ConfirmedOnChain rec = true -> exists inc, rr_Inclusion rec = Some inc /\ inc_Round inc <= last) recs ->
  last < round -> revenue round db = 0 /\ revenue_count round db = 0.
Proof.
  intros Hco Hrows Hl Hr. unfold revenue, revenue_count. rewrite !(msum_rows _ _ _ Hrows).
  pose proof (coherent_records _ _ Hco Hrows) as Hcr. clear Hrows.
  induction Hl as [|rec recs Hrec Hl IH]; [done|]. apply Forall_cons in Hcr as [[Hi _] Hcr].
  destruct (IH Hcr) as [IH1 IH2]. cbn [sum_with]. rewrite IH1, IH2. simpl.
  destruct (rr_ConfirmedOnChain rec) eqn:Hc; simpl; [|done].
  destruct (Hrec eq_refl) as (inc & Hinc & Hle). rewrite (Hi _ Hinc).
  by rewrite (proj2 (Z.eqb_neq (inc_Round inc) round)) by lia.
Qed.

Lemma GetRoundRevenue_complete svc chain round db r :
  GetRoundRevenue svc (Some chain) round db = Ok r -> rv_Complete r = true -> round <= rv_CompleteThroughRound r.
Proof.
  unfold GetRoundRevenue. destruct (round <? 0); [done|].
  destruct (Round chain round db) as [r0|] eqn:E; [|done]. intros [= <-]. simpl. intros Hc.
  destruct chain as [chain|]; [|by injection E as <-].
  destruct (Round_complete_inv _ _ _ _ E Hc) as (cov & pend & recs & es & _ & Hle & _ & _ & _ & _ & ->). exact Hle.
Qed.

(** A source is reported complete only when it is closed for good: frozen,
    with no admitted authorization and an empty redemption queue, and with no
    revenue booked after the last round the report covers. *)
Theorem retired_source_is_closed svc reporter domain db st :
  coherent db -> GetRevenueSourceStatus svc reporter domain db = Ok st -> rs_Complete st = true ->
  (exists fence, SourceFence db = Ok fence /\ sf_Frozen fence = true) /\ ActiveAuthorizations db = 0 /\
  redemptions_by_hash db = ∅ /\ rs_LastRedemptionRound st <= rs_CompleteThroughRound st /\
  forall round, rs_CompleteThroughRound st < round -> revenue round db = 0 /\ revenue_count round db = 0.
Proof.
  intros Hco. unfold GetRevenueSourceStatus. destruct (negb (domain_matches svc domain)); [done|].
  destruct (SourceFence db) as [fence|] eqn:Ef; [|done].
  destruct (RedemptionHistory db) as [[[pend recs] legacy]|] eqn:Eh; [|done].
  destruct (_ || _) eqn:Hg; [by intros [= <-]|]. to_prop. destruct legacy; [by intros [= <-]|].
  destruct (last_round recs 0) as [last [reason|]] eqn:El; [by intros [= <-]|].
  destruct reporter as [[chain1 chain2]|]; [|by intros [= <-]].
  destruct (GetRoundRevenue svc (Some chain1) 0 db) as [clock|]; [|done].
  destruct (Z.ltb_spec (rv_CompleteThroughRound clock) last); [by intros [= <-]|].
  destruct (GetRoundRevenue svc (Some chain2) _ db) as [proof|] eqn:Ep; [|done].
  destruct (rv_Complete proof) eqn:Hp; [|by intros [= <-]]. intros [= <-] _. simpl.
  apply GetRoundRevenue_complete in Ep; [|done].
  destruct (last_round_ok _ _ _ El) as [_ Hl]. destruct (history_parts _ _ _ Eh) as [Hrows Hpend].
  split_and!; [by exists fence|done| |lia|].
  - apply history_pending_length in Hpend. apply map_to_list_empty_iff, Permutation_nil_r.
    rewrite <- ForEach_perm. rewrite (nil_length_inv (ForEach (redemptions_by_hash db))) by lia. done.
  - intros round Hr. eapply revenue_after; [done|done|done|lia].
Qed.

(** Recording evidence of a ticket that is not younger than its redemption
    keeps the history coherent, and so does a drain. *)
Lemma coherent_markRedeemed h tx t round ev reason db db' :
  coherent db -> (forall e, ev = Some e -> round = inc_Round e) ->
  (isAllZero (stamp32 tx) = false -> st_CreationRound t <= round) ->
  markRedeemed h tx (Some t) round ev reason db = (Ok tt, db') -> coherent db'.
Proof.
  intros Hco Hev Hage. unfold markRedeemed. destruct (negb (len h =? 32)); [done|]. rewrite Update_Ok.
  set (tx0 := if 0 <? _ then _ else _).
  assert (redemptions_redeemed tx0 = redemptions_redeemed db) as E by (subst tx0; by destruct (0 <? _)).
  intros [= <-] h' rec. simpl. rewrite E, lookup_insert_Some. intros [[_ [= <-]]|[_ Hr]]; [|by eapply Hco].
  split; simpl; [done|]. intros Hz. apply Hage. by destruct (isAllZero _).
Qed.

End promises.

(** ** Concrete runs *)
Definition demo_wire : AuthWire :=
  Build_AuthWire (fun _ => None) (fun _ => mkSpendAuthorization None "") (fun _ => None) (fun _ => None)
    (fun _ => None) dec_string.

Definition demo_inclusion : RedemptionInclusion :=
  mkRedemptionInclusion (be_bytes 32 77) 100 (be_bytes 32 78) 4 120 (be_bytes 32 79) 9.
Definition demo_chain : Observer :=
  mkObserver (Ok (Some (mkRevenueCoverage 130 "" 110 "" 5 10))) (fun _ => Ok tt)
    (fun tx => if bool_decide (tx = be_bytes 32 77) then Ok (Some demo_inclusion) else Ok None) (fun _ => Ok None).

(** One ticket redeemed with evidence, then the source frozen. *)
Abbreviation booked_db := (MarkRedeemedWithInclusion (demo_hash 7) (Some (demo_ticket 1)) (Some demo_inclusion)
  (Open (M := gmap string))).2 (only parsing).
Abbreviation retired_db := (FreezeSource 11 "retire" booked_db).2 (only parsing).

Lemma booked_coherent : coherent booked_db.
Proof.
  eapply (coherent_markRedeemed (demo_hash 7) _ (demo_ticket 1) 4 (Some demo_inclusion) "" Open).
  - intros h rec. simpl. by rewrite lookup_empty.
  - by intros e [= <-].
  - vm_compute. discriminate.
  - apply answer. vm_refl.
Qed.

Lemma retired_coherent : coherent retired_db.
Proof.
  assert (redemptions_redeemed retired_db = redemptions_redeemed booked_db) as E.
  { unfold FreezeSource, Update. by repeat case_match; simplify_eq. }
  intros h rec. rewrite E. apply booked_coherent.
Qed.

Lemma report_matches_ledger_witness :
  exists r, @Round (gmap string) _ demo_wire (Some demo_chain) 4 booked_db = Ok r /\
    be_Z (rv_ConfirmedRevenueWei r) = revenue 4 booked_db /\ be_Z (rv_ConfirmedRevenueWei r) = 40 /\
    rv_ConfirmedTicketCount r = revenue_count 4 booked_db.
Proof.
  pose (out := @Round (gmap string) _ demo_wire (Some demo_chain) 4 booked_db).
  assert (match out with Ok r => rv_Complete r && (be_Z (rv_ConfirmedRevenueWei r) =? 40) | Err _ => false end = true)
    as Hrun by vm_refl.
  destruct out as [r|] eqn:E; [|discriminate Hrun]. exists r. to_prop.
  destruct (@report_matches_ledger (gmap string) _ demo_wire demo_chain 4 booked_db r booked_coherent E H) as (R & C & _).
  split_and!; assumption.
Defined.

Lemma retired_source_is_closed_witness :
  exists st, @GetRevenueSourceStatus (gmap string) _ demo_wire (mkService "payee" 1 (Ok "dom") 1 1)
      (Some (Some demo_chain, Some demo_chain)) "dom" retired_db = Ok st /\
    rs_Complete st = true /\ rs_LastRedemptionRound st = 4 /\ rs_CompleteThroughRound st = 5 /\
    revenue 6 retired_db = 0.
Proof.
  pose (out := @GetRevenueSourceStatus (gmap string) _ demo_wire (mkService "payee" 1 (Ok "dom") 1 1)
      (Some (Some demo_chain, Some demo_chain)) "dom" retired_db).
  assert (match out with
          | Ok st => rs_Complete st && (rs_LastRedemptionRound st =? 4) && (rs_CompleteThroughRound st =? 5)
          | Err _ => false end = true) as Hrun by vm_refl.
  destruct out as [st|] eqn:E; [|discriminate Hrun]. exists st. to_prop.
  destruct (@retired_source_is_closed (gmap string) _ demo_wire (mkService "payee" 1 (Ok "dom") 1 1)
    (Some (Some demo_chain, Some demo_chain)) "dom" retired_db st retired_coherent E ltac:(assumption))
    as (_ & _ & _ & _ & Hlater).
  split_and!; try assumption. exact (proj1 (Hlater 6 ltac:(lia))).
Defined.
