(* ===== verification/ServiceSpec.v ===== *)
(** * The running payee daemon keeps the wholesale ledger's promises

    Every RPC of the payee daemon, whatever it answers and wherever it stops,
    moves the database along steps of the wholesale state machine of
    WholesaleSpec: what is proved of that machine's reachable states holds of
    the daemon. *)
From S2P Require Import Prelude.
From S2P Require Import GoBytes.
From S2P Require Import GoCodecs.
From S2P Require Import Bolt.
From S2P Require Import Ledger.
From S2P Require Import Billing.
From S2P Require Import Nonces.
From S2P Require Import Sessions.
From S2P Require Import Redemptions.
From S2P Require Import Wholesale.
From S2P Require Import Fences.
From S2P Require Import Funding.
From S2P Require Import WholesaleInv.
From S2P Require Import WholesaleSteps.
From S2P Require Import WholesaleSpec.
From S2P Require Import Tickets.
From S2P Require Import Receiver.
From S2P Require Import ReceiverSpec.
From S2P Require Import Spendauth.
From S2P Require Import Admission.
From S2P Require Import TicketsSpec.
From S2P Require Import AdmissionSpec.
From S2P Require Import RevenueReport.

(** ** Handlers that leave the wholesale buckets alone *)
Create HintDb frames discriminated.
#[export] Hint Resolve frame_DebitBalance frame_CreditBalance frame_GetOrCreate frame_CloseSession
  frame_RecordNonce frame_EnqueueRedemption : frames.

Section frames.
Context `{Bolt M}.
Implicit Types (db : DB M).

#[global] Instance same_wholesale_preorder : PreOrder (@same_wholesale M).
Proof.
  split; [by intros db|]. intros d1 d2 d3 (A & B & C & D & E) (A' & B' & C' & D' & E'). unfold same_wholesale.
  by rewrite A', B', C', D', E'.
Qed.

Lemma frame_OpenSession now seed db : same_wholesale db (OpenSession now seed db).2.
Proof. unfold OpenSession, Update, OpenSession_tx, openFresh. by repeat case_match; simplify_eq. Qed.
Lemma frame_SealSender w s db : same_wholesale db (SealSender w s db).2.
Proof. unfold SealSender, Update, SealSender_tx. by repeat case_match; simplify_eq. Qed.
Lemma frame_ResetTicketSession now key db : same_wholesale db (ResetTicketSession now key db).2.
Proof. unfold ResetTicketSession, Update. by repeat case_match; simplify_eq. Qed.
Lemma frame_ResetIfCurrent now key w db : same_wholesale db (ResetTicketSessionIfCurrent now key w db).2.
Proof. unfold ResetTicketSessionIfCurrent, Update, retireIndexedSession. by repeat case_match; simplify_eq. Qed.

(** An operation that answered [(r, d)] moved to [d]. *)
Lemma framed {A} (p : A * DB M) r d db : p = (r, d) -> same_wholesale db p.2 -> same_wholesale db d.
Proof. by intros ->. Qed.
End frames.
#[export] Hint Resolve frame_OpenSession frame_SealSender frame_ResetTicketSession frame_ResetIfCurrent : frames.

(** Follow a handler through its store calls. *)
Ltac follow_frames :=
  repeat match goal with
  | |- same_wholesale ?d ?d => reflexivity
  | |- same_wholesale _ (_, ?d).2 => cbn [snd]
  | E : _ = (_, ?d) |- same_wholesale _ ?d =>
      first [assumption | etransitivity; [|eapply (framed _ _ _ _ E); solve [eauto with frames]]]
  | |- same_wholesale _ (match ?x with _ => _ end).2 => destruct x eqn:?
  | |- same_wholesale _ (let '(_, _) := ?x in _).2 => destruct x eqn:?
  end.

Section handlers.
Context `{Bolt M} `{EthCrypto} `{AuthWire} (decode : string -> option Payment).
Implicit Types (db : DB M).

Lemma frame_credit_loop svc now pay tp sess rand tsps c w st db :
  same_wholesale db (credit_loop svc now pay tp sess rand tsps c w st db).2.
Proof.
  revert c w st db. induction tsps as [|tsp tsps IH]; intros c w st db; [reflexivity|]. cbn [credit_loop].
  destruct (Validate _ _ _ _); [|apply IH].
  destruct (RecordNonce _ _ db) as [[]d1] eqn:E1; pose proof (framed _ _ _ db E1 (frame_RecordNonce _ _ _)) as F1.
  - destruct (IsWinning _ _ _); [|etransitivity; [exact F1|apply IH]].
    destruct (EnqueueRedemption _ _ d1) as [[]d2] eqn:E2;
      (etransitivity; [exact F1|]; etransitivity; [exact (framed _ _ _ _ E2 (frame_EnqueueRedemption _ _ _))|]);
      [apply IH|reflexivity].
  - destruct (errors_Is _ _); [etransitivity; [exact F1|apply IH]|].
    destruct (errors_Is _ _); [|exact F1].
    destruct (ResetTicketSessionIfCurrent _ _ _ d1) as [[]d2] eqn:E2; (etransitivity; [exact F1|];
      exact (framed _ _ _ _ E2 (frame_ResetIfCurrent _ _ _ _))).
Qed.

Lemma frame_ProcessPayment svc now w pb db : same_wholesale db (ProcessPayment decode svc now w pb db).2.
Proof.
  unfold ProcessPayment, unfrozen. destruct (requireUnfrozenSource db); [|reflexivity]. unfold processPayment.
  destruct (bool_decide (w = "")); [reflexivity|]. destruct (len pb =? 0); [reflexivity|].
  destruct (decode pb) as [pay|]; [|reflexivity]. destruct (len (pay_Sender pay) =? 0); [reflexivity|].
  destruct (SealSender w (pay_Sender pay) db) as [[] d1] eqn:E1;
    pose proof (framed _ _ _ db E1 (frame_SealSender _ _ _)) as F1; [|exact F1].
  destruct (Get _ _ d1) as [sess|]; [|exact F1]. destruct (s_Closed sess); [exact F1|].
  destruct (negb _); [exact F1|]. destruct (session_rand sess) as [rr|]; [|exact F1].
  destruct (checkSignedPrice pay sess); [|exact F1].
  set (step := match rr with Some _ => _ | None => _ end).
  assert (same_wholesale d1 step.2) as F2.
  { unfold step. destruct rr; [|reflexivity]. destruct (pay_TicketParams pay); [|reflexivity]. apply frame_credit_loop. }
  destruct step as [out d2]. simpl in F2. destruct out as [[[c wn] st]|]; [|by etransitivity].
  destruct (summarizeTicketStatus st). destruct (CreditBalance _ _ c d2) as [[] d3] eqn:E3;
    (etransitivity; [exact F1|]; etransitivity; [exact F2|]; exact (framed _ _ _ _ E3 (frame_CreditBalance _ _ _ _))).
Qed.

Lemma frame_rpc_OpenSession svc rand now w cap off wu price per db :
  same_wholesale db (rpc_OpenSession svc rand now w cap off wu price per db).2.
Proof. unfold rpc_OpenSession, unfrozen. follow_frames. Qed.

Lemma frame_rpc_DebitBalance s w u q db : same_wholesale db (rpc_DebitBalance s w u q db).2.
Proof. unfold rpc_DebitBalance, unfrozen. follow_frames. Qed.

Lemma frame_rpc_CloseSession now s w db : same_wholesale db (rpc_CloseSession now s w db).2.
Proof. unfold rpc_CloseSession, unfrozen. follow_frames. Qed.

Lemma frame_rpc_ResetSession svc now a st s r cap off db :
  same_wholesale db (rpc_ResetSession svc now a st s r cap off db).2.
Proof. unfold rpc_ResetSession, unfrozen. follow_frames. Qed.

Lemma frame_rotate now key db : same_wholesale db (rotate_exhausted now key db).2.
Proof. unfold rotate_exhausted. follow_frames. Qed.

Lemma frame_GetTicketParams svc rand now req db : same_wholesale db (GetTicketParams svc rand now req db).2.
Proof.
  unfold GetTicketParams, unfrozen. pose proof frame_rotate as Hrot.
  follow_frames.
Qed.

(** ** Handlers that move value *)
Variable payee : string.
Abbreviation reaches := (rtc (ledger_step payee)).

Lemma reaches_frame db db' : same_wholesale db db' -> reaches db db'.
Proof. intros F. by apply rtc_once, step_frame. Qed.

(** The SHA-256 key of this authorization is not shared with a stored one. *)
Definition distinct_id (p id a : string) db : Prop :=
  collision_free (authorizationPreimage p id a) (stored_preimages (spend_authorizations db)).

Lemma account_id_no_nul a : ValidWholesaleAccountID a = true -> no_nul a = true.
Proof.
  unfold ValidWholesaleAccountID, no_nul. destruct (_ || _); [done|].
  intros Ha. eapply all_bytes_impl; [|exact Ha]. intros c Hc. apply negb_true_iff, bool_decide_eq_false. intros ->.
  vm_compute in Hc. discriminate.
Qed.

Lemma honest_id p id a db : len p = 20 -> ValidWholesaleAccountID a = true -> distinct_id p id a db -> honest p id a db.
Proof. intros Hp Ha Hd. split_and!; [done|by apply account_id_no_nul|done]. Qed.

(** Funding with a payment is one step and files no authorization. *)
Lemma apply_funding_rows p pe a w fid tickets now db :
  spend_authorizations (ApplyWholesaleFunding p pe a w fid tickets now db).2 = spend_authorizations db.
Proof.
  unfold ApplyWholesaleFunding, Update, apply_funding. repeat (case_match; simplify_eq; try done).
  match goal with E : apply_tickets _ _ _ _ = Ok _ |- _ => by apply apply_tickets_frame in E as (_ & _ & E & _) end.
Qed.

Lemma reaches_fundWholesale svc now pb dom a db :
  reaches db (fundWholesale decode svc now pb dom a db).2 /\
  spend_authorizations (fundWholesale decode svc now pb dom a db).2 = spend_authorizations db.
Proof.
  unfold fundWholesale. repeat (case_match; try by split; [reflexivity|]).
  all: match goal with E : ApplyWholesaleFunding ?p ?pe ?a ?w ?f ?t ?n ?d = (_, ?d') |- _ =>
    pose proof (step_apply_funding payee d p pe a w f t n) as Hs; pose proof (apply_funding_rows p pe a w f t n d) as Hr;
    rewrite E in Hs, Hr end; split; [by apply rtc_once|done].
Qed.

Lemma reaches_inline_funding svc now e1 e2 rep p a pb db :
  reaches db (inline_funding decode svc now e1 e2 rep p a pb db).2 /\
  spend_authorizations (inline_funding decode svc now e1 e2 rep p a pb db).2 = spend_authorizations db.
Proof.
  unfold inline_funding. destruct (decode pb) as [pay|]; [|by split].
  destruct (pay_TicketParams pay); [|by split]. destruct (negb _); [by split|].
  pose proof (reaches_fundWholesale svc now pb (domainID svc) a db) as Hf.
  by destruct (fundWholesale _ _ _ _ _ _ _) as [[[]|] d].
Qed.

(** The machine-integer fields of a signed payload are in range. *)
Definition wire_payload (p : SpendAuthorizationPayload) : Prop :=
  0 <= py_MaxTotalUnits p < two64 /\ forall price, py_AcceptedPrice p = Some price -> 0 <= ap_UnitsPerPrice price < two64.

(** What passing the checks establishes about the row to be admitted. *)
Lemma check_authorization_seed svc now bytes p price exp fp db :
  sv_recipient svc = payee -> check_authorization svc now bytes = Ok (p, price, exp) -> wire_payload p ->
  distinct_id (py_Payer p) (py_AuthorizationId p) (py_WholesaleAccountId p) db ->
  distinct_id (py_Payer p) (py_PredecessorAuthorizationId p) (py_WholesaleAccountId p) db ->
  wf_seed payee (seed_of p price exp fp) db.
Proof.
  intros Hrec E [Hmax Hper] Hd Hdp. destruct (check_authorization_ok _ _ _ _ _ _ E) as (auth & _ & Hp & Hv & Ec & _).
  destruct (Verify_signed _ Hv) as (p' & b & Hp' & _ & Hlen & _). rewrite Hp in Hp'. injection Hp' as <-.
  destruct (check_payload_ok _ _ _ Ec) as (_ & Ha & Hpe & Hpr & _). specialize (Hper _ Hpr).
  unfold wf_seed. simpl. autorewrite with money. unfold price_wei. pose proof (be_Z_nonneg (default "" (ap_PricePerUnitWei price))).
  split_and!; try by apply honest_id. all: (congruence || lia).
Qed.

Lemma reaches_AdmitAuthorization svc now fundNow req db :
  sv_recipient svc = payee ->
  (forall p price exp, check_authorization svc now (aq_AuthorizationBytes req) = Ok (p, price, exp) -> wire_payload p /\
     distinct_id (py_Payer p) (py_AuthorizationId p) (py_WholesaleAccountId p) db /\
     distinct_id (py_Payer p) (py_PredecessorAuthorizationId p) (py_WholesaleAccountId p) db) ->
  reaches db (AdmitAuthorization decode svc now fundNow req db).2.
Proof.
  intros Hrec Hok. unfold AdmitAuthorization. destruct (admitAuthorization _ _ _ _ _ _) as [out d] eqn:E. simpl.
  change d with (out, d).2. rewrite <- E. clear out d E. unfold admitAuthorization, unfrozen.
  destruct (requireUnfrozenSource db); [|reflexivity].
  destruct (check_authorization svc now (aq_AuthorizationBytes req)) as [[[p price] exp]|] eqn:Ec; [|reflexivity].
  destruct (Hok p price exp eq_refl) as (Hw & Hd & Hdp).
  destruct (GetWholesaleAuthorization _ _ _ db); [reflexivity|]. destruct (negb _); [reflexivity|]. unfold admit_new.
  set (step := if negb (len (aq_PaymentBytes req) =? 0) && (now <? exp) then _ else _).
  assert (reaches db step.2 /\ spend_authorizations step.2 = spend_authorizations db) as [Hr Hrows].
  { unfold step. destruct (_ && _); [apply reaches_inline_funding|by split]. }
  destruct step as [[credit|] d]; cbn [snd] in Hr, Hrows |- *; [|exact Hr]. etransitivity; [exact Hr|].
  set (seed := seed_of p price exp _).
  assert (wf_seed payee seed d) as Hwf.
  { eapply check_authorization_seed; [done|exact Ec|done|unfold distinct_id; by rewrite Hrows..]. }
  pose proof (step_admit payee d seed "" (Some (be_Z (aq_ReservationValueWei req))) now Hwf) as Hs.
  destruct (AdmitWholesale _ _ _ _ d) as [[res|] d2]; simpl in Hs; [|by apply rtc_once].
  destruct (adm_Authorization res); [destruct (bool_decide _)|]; by apply rtc_once.
Qed.

Lemma reaches_AdvanceAuthorization svc now fundNow req db :
  0 <= vq_CumulativeUnits req < two64 -> 0 <= vq_AdvanceSeq req < two64 ->
  distinct_id (vq_Payer req) (vq_AuthorizationId req) (vq_WholesaleAccountId req) db ->
  reaches db (AdvanceAuthorization decode svc now fundNow req db).2.
Proof.
  intros Hu Hq Hd. unfold AdvanceAuthorization.
  destruct (account_guard _) as [[]|] eqn:Ha; [|reflexivity]. apply guard_ok, negb_false_iff in Ha.
  unfold unfrozen. destruct (requireUnfrozenSource db); [|reflexivity]. destruct (domain_guard _ _); [|reflexivity].
  destruct (_ || _) eqn:Hg; [reflexivity|]. to_prop.
  destruct (GetWholesaleAuthorization _ _ _ db) as [existing|]; [|reflexivity]. unfold advance_found.
  set (step := if negb (len (vq_PaymentBytes req) =? 0) && _ then _ else _).
  assert (reaches db step.2 /\ spend_authorizations step.2 = spend_authorizations db) as [Hr Hrows].
  { unfold step. destruct (_ && _); [apply reaches_inline_funding|by split]. }
  destruct step as [[credit|] d]; cbn [snd] in Hr, Hrows |- *; [|exact Hr]. etransitivity; [exact Hr|].
  assert (honest (vq_Payer req) (vq_AuthorizationId req) (vq_WholesaleAccountId req) d) as Hh.
  { apply honest_id; [done|done|]. unfold distinct_id. by rewrite Hrows. }
  pose proof (step_advance payee d _ (sv_recipient svc) _ (vq_CumulativeUnits req)
    (Some (be_Z (vq_TargetReservedValueWei req))) (vq_AdvanceSeq req) "" now _ Hh (proj1 Hu) Hq) as Hs.
  destruct (AdvanceWholesale _ _ _ _ _ _ _ _ _ d) as [[res|] d2]; by apply rtc_once.
Qed.

Lemma reaches_SettleAuthorization svc now req db :
  0 <= tq_ActualUnits req < two64 -> 0 <= tq_SettlementSeq req < two64 ->
  distinct_id (tq_Payer req) (tq_AuthorizationId req) (tq_WholesaleAccountId req) db ->
  reaches db (SettleAuthorization svc now req db).2.
Proof.
  intros Hu Hq Hd. unfold SettleAuthorization.
  destruct (account_guard _) as [[]|] eqn:Ha; [|reflexivity]. apply guard_ok, negb_false_iff in Ha.
  destruct (domain_guard _ _) as [[]|]; [|reflexivity]. destruct (_ || _) eqn:Hg; [reflexivity|]. to_prop.
  assert (honest (tq_Payer req) (tq_AuthorizationId req) (tq_WholesaleAccountId req) db) as Hh by by apply honest_id.
  pose proof (step_settle payee db _ (sv_recipient svc) _ (tq_ActualUnits req) (tq_SettlementSeq req) now _ Hh (proj1 Hu) Hq) as Hs.
  destruct (SettleWholesale _ _ _ _ _ _ _ db) as [[res|] d2]; by apply rtc_once.
Qed.

Lemma reaches_Cancel svc now a dom p id fp db :
  reaches db (rpc_CancelAuthorizationAdmission svc now a dom p id fp db).2.
Proof.
  unfold rpc_CancelAuthorizationAdmission. destruct (domain_guard _ _); [|reflexivity].
  destruct (_ || _); [reflexivity|].
  pose proof (step_cancel payee db now p (sv_recipient svc) id fp a) as Hs.
  destruct (CancelAuthorizationAdmission _ _ _ _ _ _ db) as [[res|] d2]; by apply rtc_once.
Qed.

Lemma reaches_CloseUnexecuted svc now now' a dom p id reason db :
  distinct_id p id a db -> reaches db (rpc_CloseUnexecutedAuthorization svc now now' a dom p id reason db).2.
Proof.
  intros Hd. unfold rpc_CloseUnexecutedAuthorization.
  destruct (account_guard a) as [[]|] eqn:Ha; [|reflexivity]. apply guard_ok, negb_false_iff in Ha.
  destruct (negb _); [reflexivity|].
  destruct (Z.eqb_spec (len p) 20) as [Hp|Hp].
  - pose proof (step_close payee db now now' p (sv_recipient svc) id reason a (honest_id _ _ _ _ Hp Ha Hd)) as Hs.
    destruct (CloseUnexecutedAuthorization _ _ _ _ _ _ _ db) as [[res|] d2]; by apply rtc_once.
  - unfold CloseUnexecutedAuthorization. by rewrite (proj2 (Z.eqb_neq _ _) Hp).
Qed.

Lemma reaches_Freeze svc reporter now dom reason db : reaches db (FreezeRevenueSource svc reporter now dom reason db).2.
Proof.
  unfold FreezeRevenueSource. destruct (negb _); [reflexivity|].
  pose proof (step_freeze payee db now reason) as Hs. destruct (FreezeSource now reason db) as [[res|] d2]; by apply rtc_once.
Qed.

(** ** The service *)

(** One RPC, with any arguments of the types of the wire.  Two authorizations
    whose SHA-256 keys collide are left out. *)
Inductive service_step (svc : Service) : DB M -> DB M -> Prop :=
  | srv_open db rand now w cap off wu price per : service_step svc db (rpc_OpenSession svc rand now w cap off wu price per db).2
  | srv_process db now w pb : service_step svc db (ProcessPayment decode svc now w pb db).2
  | srv_debit db s w u q : service_step svc db (rpc_DebitBalance s w u q db).2
  | srv_close db now s w : service_step svc db (rpc_CloseSession now s w db).2
  | srv_reset db now a st s r cap off : service_step svc db (rpc_ResetSession svc now a st s r cap off db).2
  | srv_params db rand now req : service_step svc db (GetTicketParams svc rand now req db).2
  | srv_fund db now pb dom a : service_step svc db (FundWholesaleAccount decode svc now pb dom a db).2
  | srv_admit db now fundNow req :
      (forall p price exp, check_authorization svc now (aq_AuthorizationBytes req) = Ok (p, price, exp) -> wire_payload p /\
         distinct_id (py_Payer p) (py_AuthorizationId p) (py_WholesaleAccountId p) db /\
         distinct_id (py_Payer p) (py_PredecessorAuthorizationId p) (py_WholesaleAccountId p) db) ->
      service_step svc db (AdmitAuthorization decode svc now fundNow req db).2
  | srv_advance db now fundNow req :
      0 <= vq_CumulativeUnits req < two64 -> 0 <= vq_AdvanceSeq req < two64 ->
      distinct_id (vq_Payer req) (vq_AuthorizationId req) (vq_WholesaleAccountId req) db ->
      service_step svc db (AdvanceAuthorization decode svc now fundNow req db).2
  | srv_settle db now req :
      0 <= tq_ActualUnits req < two64 -> 0 <= tq_SettlementSeq req < two64 ->
      distinct_id (tq_Payer req) (tq_AuthorizationId req) (tq_WholesaleAccountId req) db ->
      service_step svc db (SettleAuthorization svc now req db).2
  | srv_cancel db now a dom p id fp : service_step svc db (rpc_CancelAuthorizationAdmission svc now a dom p id fp db).2
  | srv_close_unexecuted db now now' a dom p id reason :
      distinct_id p id a db ->
      service_step svc db (rpc_CloseUnexecutedAuthorization svc now now' a dom p id reason db).2
  | srv_freeze db reporter now dom reason : service_step svc db (FreezeRevenueSource svc reporter now dom reason db).2.

Lemma service_step_reaches svc db db' :
  sv_recipient svc = payee -> service_step svc db db' -> reaches db db'.
Proof.
  intros Hrec []; try (by apply reaches_frame;
    eauto using frame_rpc_OpenSession, frame_ProcessPayment, frame_rpc_DebitBalance, frame_rpc_CloseSession,
      frame_rpc_ResetSession, frame_GetTicketParams).
  - unfold FundWholesaleAccount, unfrozen. destruct (requireUnfrozenSource _); [|reflexivity].
    apply reaches_fundWholesale.
  - by apply reaches_AdmitAuthorization.
  - by apply reaches_AdvanceAuthorization.
  - by apply reaches_SettleAuthorization.
  - apply reaches_Cancel.
  - by apply reaches_CloseUnexecuted.
  - apply reaches_Freeze.
Qed.

(** C5: The daemon refines the wholesale ledger: a service started on a fresh
    database and driven by any sequence of RPCs only ever holds a database the
    ledger's own state machine reaches.  Its solvency, balanced books and
    signed caps therefore hold between any two calls. *)
Theorem service_refines_ledger rand chainID conf face prob db :
  let start := NewReceiver rand payee chainID conf face prob Open in
  rtc (service_step start.1) start.2 db -> reachable payee db.
Proof.
  intros start Hrun. unfold reachable. transitivity start.2.
  { unfold start, NewReceiver. pose proof (step_init_domain payee Open rand conf chainID payee) as Hs.
    destruct (InitSettlementDomain _ _ _ _ Open) as [dom d]. destruct (ticket_defaults _ _). by apply rtc_once. }
  assert (sv_recipient start.1 = payee) as Hrec.
  { unfold start, NewReceiver. destruct (InitSettlementDomain _ _ _ _ Open). by destruct (ticket_defaults _ _). }
  clear -Hrun Hrec. induction Hrun as [|d1 d2 d3 Hs _ IH]; [reflexivity|].
  etransitivity; [by eapply service_step_reaches|exact IH].
Qed.

End handlers.

(** ** A concrete run: a daemon starts, quotes ticket parameters and is frozen. *)
Abbreviation demo_start := (NewReceiver (M := gmap string) (Ok "") demo_payee 1
  ("0x" +:+ replicate_byte 64 (byte_of 49)) None None Open) (only parsing).
Abbreviation quoted_db := ((@GetTicketParams (gmap string) _ demo_eth demo_start.1 (Ok (be_bytes 32 5)) 3 demo_req demo_start.2).2)
  (only parsing).
Abbreviation frozen_db := ((@FreezeRevenueSource (gmap string) _ demo_auth_wire demo_start.1 None 4
  ("0x" +:+ replicate_byte 64 (byte_of 49)) "retire" quoted_db).2) (only parsing).

Lemma service_refines_ledger_witness : reachable demo_payee frozen_db.
Proof.
  refine (@service_refines_ledger (gmap string) _ demo_eth demo_auth_wire (demo_decode MaxWinProb) demo_payee (Ok "") 1
    ("0x" +:+ replicate_byte 64 (byte_of 49)) None None frozen_db _).
  eapply rtc_l; [eapply srv_params|]. eapply rtc_once. eapply srv_freeze.
Defined.
