(* ===== verification/WorkLedger.v ===== *)
(** * The broker's work ledger

    capability-broker/internal/workledger (store.go, baseline.go, terms.go,
    drain.go, device_drain.go): which member and backend did the work an
    authorization paid for.  Billing operations are recorded before the payee is
    asked to bill them, completed with the cumulative amount it answers, and
    finalized in a round into work receipts for the difference.

    Buckets hold decoded records; comparing two records compares their JSON.
    Of [meta], the round and the time of its observation, the drain, the terms
    policy and its versions are fields. *)
From S2P Require Import Prelude.
From S2P Require Import GoBytes.
From S2P Require Import GoCodecs.
From S2P Require Import GoStrings.
From S2P Require Import Bolt.
From S2P Require Import ChainErrors.
From S2P Require Import Tickets.
From S2P Require Import Spendauth.

(** ** Data *)
Record Attribution := mkAttribution {
  wa_DeviceOwnership : gmap string Z;
  wa_TermsVersion : string;
  wa_Member : string;
  wa_Backend : string;
  wa_Enrollment : string;
  wa_Capability : string;
  wa_Offering : string;
  wa_RequestID : string;
}.
#[export] Instance Attribution_eq_dec : EqDecision Attribution.
Proof. solve_decision. Defined.

Record Operation := mkOperation {
  op_WholesaleAccountID : string;
  op_ID : string;
  op_AuthorizationID : string;
  op_Kind : string;
  op_Sequence : Z;
  op_Payer : string;
  op_Units : Z;
  op_TargetReserved : string;
  op_PaymentBytes : string;
  op_MinimumRound : Z;
  op_Completed : bool;
  op_TotalBilled : string;
  op_Emitted : bool;
}.
#[export] Instance Operation_eq_dec : EqDecision Operation.
Proof. solve_decision. Defined.

(** The fields of a receipt that work accounting sets. *)
Record WorkReceipt := mkWorkReceipt {
  wr_TermsVersion : string;
  wr_PoolID : string;
  wr_SourceID : string;
  wr_ID : string;
  wr_CreatedAt : Z;
  wr_RoundID : string;
  wr_RequestID : string;
  wr_CapabilityID : string;
  wr_OfferingID : string;
  wr_MemberEthAddress : string;
  wr_BackendID : string;
  wr_HostEnrollmentID : string;
  wr_ActualUnits : Z;
  wr_AcceptedWorkUnits : Z;
  wr_GatewayRevenueWei : string;
  wr_AttributedRevenueWei : string;
  wr_Status : string;
}.

Record inheritedBaseline := mkinheritedBaseline {
  ib_Predecessor : string;
  ib_Billed : string;
  ib_Units : Z;
}.
#[export] Instance inheritedBaseline_eq_dec : EqDecision inheritedBaseline.
Proof. solve_decision. Defined.

(** [ownership.DeviceDrainProof]; a zero time is [None]. *)
Record DeviceDrain := mkDeviceDrain {
  dd_PoolID : string;
  dd_SourceID : string;
  dd_BrokerID : string;
  dd_EnrollmentID : string;
  dd_DeviceID : string;
  dd_Generation : Z;
  dd_Reason : string;
  dd_StartedAt : Z;
  dd_PendingOperations : Z;
  dd_ActiveAuthorizations : Z;
  dd_UndeliveredReceipts : Z;
  dd_UnqualifiedWork : Z;
  dd_ObservedAt : option Z;
}.

Record DrainState := mkDrainState {
  ds_Draining : bool;
  ds_Reason : string;
  ds_StartedAt : option Z;
  ds_PendingOperations : Z;
  ds_UndeliveredReceipts : Z;
  ds_LastReceiptRound : Z;
}.

(** [regionalterms.Policy]. *)
Record Policy := mkPolicy {
  po_PoolID : string;
  po_SourceID : string;
  po_BrokerID : string;
  po_Version : string;
  po_EffectiveRound : Z;
  po_Revision : Z;
  po_Paused : bool;
  po_Reason : string;
}.

(** [revenue.Contribution] and [revenue.WorkReport]. *)
Record Contribution := mkContribution {
  co_TermsVersion : string;
  co_ID : string;
  co_PoolID : string;
  co_SourceID : string;
  co_RoundID : string;
  co_Member : string;
  co_Offering : string;
  co_Backend : string;
  co_AmountWei : string;
}.
Record WorkReport := mkWorkReport {
  wp_PoolID : string;
  wp_SourceID : string;
  wp_BrokerID : string;
  wp_Round : Z;
  wp_Complete : bool;
  wp_IncompleteReason : string;
  wp_ClosedThroughRound : Z;
  wp_ReceiptCount : Z;
  wp_ReceiptDigest : string;
  wp_ObservedAt : option Z;
}.

(** ** The database *)
Record WorkMeta (M : Type -> Type) := mkWorkMeta {
  wm_identity : option (string * string * string);
  wm_unbound_indexed : bool;
  wm_round : option Z;
  wm_observed_at : option Z;
  wm_drain : option DrainState;
  wm_terms_policy : option Policy;
  wm_terms_versions : M Policy;
}.
Record WorkDB (M : Type -> Type) := mkWorkDB {
  wd_meta : WorkMeta M;
  wd_inherited_baselines : M inheritedBaseline;
  wd_unbound_admissions : M string;
  wd_unbound_rounds : M Z;
  wd_authorizations : M string;
  wd_bindings : M Attribution;
  wd_operations : M Operation;
  wd_billed : M string;
  wd_units : M Z;
  wd_receipts : M WorkReceipt;
  wd_delivered : M unit;
  wd_device_drains : option (M DeviceDrain);
}.
Arguments mkWorkMeta {M}.
Arguments wm_identity {M}.
Arguments wm_unbound_indexed {M}.
Arguments wm_round {M}.
Arguments wm_observed_at {M}.
Arguments wm_drain {M}.
Arguments wm_terms_policy {M}.
Arguments wm_terms_versions {M}.
Arguments mkWorkDB {M}.
Arguments wd_meta {M}.
Arguments wd_inherited_baselines {M}.
Arguments wd_unbound_admissions {M}.
Arguments wd_unbound_rounds {M}.
Arguments wd_authorizations {M}.
Arguments wd_bindings {M}.
Arguments wd_operations {M}.
Arguments wd_billed {M}.
Arguments wd_units {M}.
Arguments wd_receipts {M}.
Arguments wd_delivered {M}.
Arguments wd_device_drains {M}.

(** The identity of a store: pool, source and broker. *)
Record WorkStore := mkWorkStore {
  ws_PoolID : string;
  ws_SourceID : string;
  ws_BrokerID : string;
}.

Inductive work_error :=
  | WorkErr (msg : string)
  | ErrTermsPolicyMissing
  | ErrAdmissionStopped
  | ErrUnsupported
  | ReceiverErr (msg : string).

Section ledger.
Context `{Bolt M} `{AuthWire}.
Implicit Types (tx db : WorkDB M) (s : WorkStore).

Abbreviation wresult := (result work_error).

(** ** Field updates *)
Definition put_meta (m : WorkMeta M) tx : WorkDB M :=
  mkWorkDB m (wd_inherited_baselines tx) (wd_unbound_admissions tx) (wd_unbound_rounds tx) (wd_authorizations tx)
    (wd_bindings tx) (wd_operations tx) (wd_billed tx) (wd_units tx) (wd_receipts tx) (wd_delivered tx) (wd_device_drains tx).
Definition put_unbound (admissions : M string) (rounds : M Z) tx : WorkDB M :=
  mkWorkDB (wd_meta tx) (wd_inherited_baselines tx) admissions rounds (wd_authorizations tx)
    (wd_bindings tx) (wd_operations tx) (wd_billed tx) (wd_units tx) (wd_receipts tx) (wd_delivered tx) (wd_device_drains tx).
Definition put_authorization (id raw : string) tx : WorkDB M :=
  mkWorkDB (wd_meta tx) (wd_inherited_baselines tx) (wd_unbound_admissions tx) (wd_unbound_rounds tx)
    (<[id := raw]> (wd_authorizations tx)) (wd_bindings tx) (wd_operations tx) (wd_billed tx) (wd_units tx) (wd_receipts tx)
    (wd_delivered tx) (wd_device_drains tx).
Definition put_binding (id : string) (a : Attribution) tx : WorkDB M :=
  mkWorkDB (wd_meta tx) (wd_inherited_baselines tx) (wd_unbound_admissions tx) (wd_unbound_rounds tx)
    (wd_authorizations tx) (<[id := a]> (wd_bindings tx)) (wd_operations tx) (wd_billed tx) (wd_units tx) (wd_receipts tx)
    (wd_delivered tx) (wd_device_drains tx).
Definition put_operation (id : string) (op : Operation) tx : WorkDB M :=
  mkWorkDB (wd_meta tx) (wd_inherited_baselines tx) (wd_unbound_admissions tx) (wd_unbound_rounds tx)
    (wd_authorizations tx) (wd_bindings tx) (<[id := op]> (wd_operations tx)) (wd_billed tx) (wd_units tx)
    (wd_receipts tx) (wd_delivered tx) (wd_device_drains tx).
(** The cumulative amount and units of an authorization. *)
Definition put_billed (id billed : string) (units : Z) tx : WorkDB M :=
  mkWorkDB (wd_meta tx) (wd_inherited_baselines tx) (wd_unbound_admissions tx) (wd_unbound_rounds tx)
    (wd_authorizations tx) (wd_bindings tx) (wd_operations tx) (<[id := billed]> (wd_billed tx))
    (<[id := units]> (wd_units tx)) (wd_receipts tx) (wd_delivered tx) (wd_device_drains tx).
Definition put_receipt (r : WorkReceipt) tx : WorkDB M :=
  mkWorkDB (wd_meta tx) (wd_inherited_baselines tx) (wd_unbound_admissions tx) (wd_unbound_rounds tx)
    (wd_authorizations tx) (wd_bindings tx) (wd_operations tx) (wd_billed tx) (wd_units tx)
    (<[wr_ID r := r]> (wd_receipts tx)) (wd_delivered tx) (wd_device_drains tx).
Definition put_delivered (id : string) tx : WorkDB M :=
  mkWorkDB (wd_meta tx) (wd_inherited_baselines tx) (wd_unbound_admissions tx) (wd_unbound_rounds tx)
    (wd_authorizations tx) (wd_bindings tx) (wd_operations tx) (wd_billed tx) (wd_units tx) (wd_receipts tx)
    (<[id := tt]> (wd_delivered tx)) (wd_device_drains tx).
Definition put_baseline (id : string) (b : inheritedBaseline) tx : WorkDB M :=
  mkWorkDB (wd_meta tx) (<[id := b]> (wd_inherited_baselines tx)) (wd_unbound_admissions tx) (wd_unbound_rounds tx)
    (wd_authorizations tx) (wd_bindings tx) (wd_operations tx) (wd_billed tx) (wd_units tx) (wd_receipts tx)
    (wd_delivered tx) (wd_device_drains tx).
Definition put_device_drains (b : M DeviceDrain) tx : WorkDB M :=
  mkWorkDB (wd_meta tx) (wd_inherited_baselines tx) (wd_unbound_admissions tx) (wd_unbound_rounds tx)
    (wd_authorizations tx) (wd_bindings tx) (wd_operations tx) (wd_billed tx) (wd_units tx) (wd_receipts tx)
    (wd_delivered tx) (Some b).

(** The admission is bound or recovered. *)
Definition forget_unbound (auth : string) tx : WorkDB M :=
  put_unbound (delete auth (wd_unbound_admissions tx)) (delete auth (wd_unbound_rounds tx)) tx.

Definition readRound (m : WorkMeta M) : Z := default 0 (wm_round m).
Definition observed (round now : Z) (m : WorkMeta M) : WorkMeta M :=
  mkWorkMeta (wm_identity m) (wm_unbound_indexed m) (Some round) (Some now) (wm_drain m) (wm_terms_policy m) (wm_terms_versions m).
Definition meta_drain (d : DrainState) (m : WorkMeta M) : WorkMeta M :=
  mkWorkMeta (wm_identity m) (wm_unbound_indexed m) (wm_round m) (wm_observed_at m) (Some d) (wm_terms_policy m) (wm_terms_versions m).
Definition meta_terms (p : Policy) (versions : M Policy) (m : WorkMeta M) : WorkMeta M :=
  mkWorkMeta (wm_identity m) (wm_unbound_indexed m) (wm_round m) (wm_observed_at m) (wm_drain m) (Some p) versions.
Definition meta_identity (i : string * string * string) (m : WorkMeta M) : WorkMeta M :=
  mkWorkMeta (Some i) (wm_unbound_indexed m) (wm_round m) (wm_observed_at m) (wm_drain m) (wm_terms_policy m) (wm_terms_versions m).
Definition meta_indexed (m : WorkMeta M) : WorkMeta M :=
  mkWorkMeta (wm_identity m) true (wm_round m) (wm_observed_at m) (wm_drain m) (wm_terms_policy m) (wm_terms_versions m).

(** ** Opening *)
Definition new_work_db : WorkDB M :=
  mkWorkDB (mkWorkMeta None false None None None None ∅) ∅ ∅ ∅ ∅ ∅ ∅ ∅ ∅ ∅ ∅ None.

(** [None] is a database file without buckets. *)
Definition Open (pool source broker : string) (file : option (WorkDB M)) : wresult (WorkStore * WorkDB M) :=
  if bool_decide (pool = "") || bool_decide (source = "") || bool_decide (broker = "")
  then Err (WorkErr "work ledger identity/path required")
  else
    let tx := default new_work_db file in
    let tx := if wm_unbound_indexed (wd_meta tx) then tx
              else put_meta (meta_indexed (wd_meta tx))
                     (put_unbound (map_fold (fun id raw unbound =>
                                     match wd_bindings tx !! id with None => <[id := raw]> unbound | Some _ => unbound end)
                                     (wd_unbound_admissions tx) (wd_authorizations tx)) (wd_unbound_rounds tx) tx) in
    let store := mkWorkStore pool source broker in
    match wm_identity (wd_meta tx) with
    | Some prior => if bool_decide (prior = (pool, source, broker)) then Ok (store, tx)
                    else Err (WorkErr "work ledger pool/source identity cannot change")
    | None => match file with
              | Some _ => Err (WorkErr "existing work ledger identity is missing")
              | None => Ok (store, put_meta (meta_identity (pool, source, broker) (wd_meta tx)) tx)
              end
    end.

(** ** Authorizations and bindings *)
Definition SaveAuthorization (id raw : string) db : wresult unit * WorkDB M :=
  if bool_decide (id = "") || bool_decide (raw = "") then (Err (WorkErr "authorization evidence required"), db)
  else Update (fun tx =>
    if match wd_authorizations tx !! id with Some previous => negb (bool_decide (previous = raw)) | None => false end
    then Err (WorkErr "authorization evidence changed")
    else
      let tx := match wd_bindings tx !! id with
                | None => put_unbound (<[id := raw]> (wd_unbound_admissions tx))
                            (<[id := readRound (wd_meta tx)]> (wd_unbound_rounds tx)) tx
                | Some _ => tx
                end in
      Ok (tt, put_authorization id raw tx)) db.

Definition deviceDrainKey (host device : string) (generation : Z) : string :=
  "[" +:+ String.concat "," [json_string host; json_string (ToLower device); dec_string generation] +:+ "]".

Definition bindingDraining tx (a : Attribution) : bool :=
  match wd_device_drains tx with
  | None => false
  | Some b => existsb (fun dg => bool_decide (is_Some (b !! deviceDrainKey (wa_Enrollment a) dg.1 dg.2)))
                (map_to_list (wa_DeviceOwnership a))
  end.

Definition Bind (auth : string) (a : Attribution) db : wresult unit * WorkDB M :=
  if bool_decide (auth = "") || bool_decide (wa_Member a = "") || bool_decide (wa_Backend a = "") ||
     bool_decide (wa_Enrollment a = "") || bool_decide (wa_Capability a = "") || bool_decide (wa_Offering a = "")
  then (Err (WorkErr "member/backend work attribution required"), db)
  else Update (fun tx =>
    if match wd_bindings tx !! auth with Some old => negb (bool_decide (old = a)) | None => false end
    then Err (WorkErr "authorization work binding cannot change")
    else if negb (bool_decide (is_Some (wd_bindings tx !! auth))) && bindingDraining tx a
    then Err (WorkErr "device assignment is draining")
    else Ok (tt, put_binding auth a (forget_unbound auth tx))) db.

Definition Binding (auth : string) db : wresult Attribution :=
  match wd_bindings db !! auth with None => Err (WorkErr "work binding missing") | Some a => Ok a end.

Definition KnownBoundAuthorization (id raw : string) db : bool :=
  bool_decide (wd_authorizations db !! id = Some raw) && bool_decide (is_Some (wd_bindings db !! id)).

(** ** Billing operations *)
Definition operationID (auth : string) (seq : Z) : string := auth +:+ "/" +:+ dec20 seq.

Definition op_with_id (id : string) (op : Operation) : Operation :=
  mkOperation (op_WholesaleAccountID op) id (op_AuthorizationID op) (op_Kind op) (op_Sequence op) (op_Payer op) (op_Units op)
    (op_TargetReserved op) (op_PaymentBytes op) (op_MinimumRound op) (op_Completed op) (op_TotalBilled op) (op_Emitted op).
Definition op_with_progress (round : Z) (completed : bool) (total : string) (emitted : bool) (op : Operation) : Operation :=
  mkOperation (op_WholesaleAccountID op) (op_ID op) (op_AuthorizationID op) (op_Kind op) (op_Sequence op) (op_Payer op)
    (op_Units op) (op_TargetReserved op) (op_PaymentBytes op) round completed total emitted.

(** The checks of a saved authorization, when there is one. *)
Definition saved_authorization_check tx (op : Operation) : wresult unit :=
  match wd_authorizations tx !! op_AuthorizationID op with
  | None => Ok tt
  | Some raw =>
      match unmarshal_auth raw with
      | None => Err (WorkErr "proto: cannot parse")
      | Some auth =>
          let account := match sa_Payload auth with Some p => py_WholesaleAccountId p | None => "" end in
          let predecessor := match sa_Payload auth with Some p => py_PredecessorAuthorizationId p | None => "" end in
          if negb (bool_decide (account = op_WholesaleAccountID op))
          then Err (WorkErr "billing operation account differs from saved authorization")
          else if negb (bool_decide (predecessor = "")) &&
                  negb (bool_decide (is_Some (wd_inherited_baselines tx !! op_AuthorizationID op)))
          then Err (WorkErr "successor inherited billing baseline unavailable")
          else Ok tt
      end
  end.

Definition Prepare (op : Operation) db : wresult Operation * WorkDB M :=
  let op := op_with_id (operationID (op_AuthorizationID op) (op_Sequence op)) op in
  if bool_decide (op_AuthorizationID op = "") || (op_Sequence op =? 0) ||
     (negb (bool_decide (op_Kind op = "advance")) && negb (bool_decide (op_Kind op = "settle")))
  then (Err (WorkErr "invalid billing operation"), db)
  else Update (fun tx =>
    if (0 <? op_Units op) && negb (bool_decide (is_Some (wd_bindings tx !! op_AuthorizationID op)))
    then Err (WorkErr "billing lacks durable member attribution")
    else
      let! checked := saved_authorization_check tx op in
      match wd_operations tx !! op_ID op with
      | Some prior =>
          if negb (bool_decide (op_with_progress 0 false "" false prior = op))
          then Err (WorkErr "billing sequence reused with different operation")
          else Ok (prior, tx)
      | None =>
          let op := op_with_progress (readRound (wd_meta tx)) (op_Completed op) (op_TotalBilled op) (op_Emitted op) op in
          Ok (op, put_operation (op_ID op) op tx)
      end) db.

Definition Complete (id : string) (cumulative : option Z) db : wresult unit * WorkDB M :=
  match cumulative with
  | None => (Err (WorkErr "invalid finalized billed amount"), db)
  | Some cumulative =>
      if cumulative <? 0 then (Err (WorkErr "invalid finalized billed amount"), db)
      else Update (fun tx =>
        match wd_operations tx !! id with
        | None => Err (WorkErr "unexpected end of JSON input")
        | Some op =>
            if op_Completed op && negb (bool_decide (op_TotalBilled op = dec_string cumulative))
            then Err (WorkErr "billing replay amount changed")
            else
              let tx := if bool_decide (op_Kind op = "settle") && (op_Units op =? 0) && (cumulative =? 0)
                        then forget_unbound (op_AuthorizationID op) tx else tx in
              Ok (tt, put_operation id (op_with_progress (op_MinimumRound op) true (dec_string cumulative) (op_Emitted op) op) tx)
        end) db
  end.

Definition Pending db : list Operation := List.filter (fun op => negb (op_Completed op)) (ForEach (wd_operations db)).*2.

(** ** Finalization *)
Record finalizing := mkfinalizing {
  fz_tx : WorkDB M;
  fz_blocked : gset string;
  fz_updates : list Operation;
}.

(** The receipt of a difference billed to a bound authorization. *)
Definition delta_receipt s (round now : Z) (op : Operation) (a : Attribution) (units delta : Z) : WorkReceipt :=
  mkWorkReceipt (wa_TermsVersion a) (ws_PoolID s) (ws_SourceID s) (ws_SourceID s +:+ "/" +:+ op_ID op) now (dec_string round)
    (wa_RequestID a) (wa_Capability a) (wa_Offering a) (wa_Member a) (wa_Backend a) (wa_Enrollment a) units units
    (dec_string delta) (dec_string delta) "final".

Definition prior_billed (raw : option string) : option Z :=
  match raw with None => Some 0 | Some raw => SetString10 raw end.

(** The callback of the loop over the operations. *)
Definition finalize_op s (round now : Z) (f : finalizing) (op : Operation) : wresult finalizing :=
  let tx := fz_tx f in
  let auth := op_AuthorizationID op in
  if negb (op_Completed op) then Ok (mkfinalizing tx ({[auth]} ∪ fz_blocked f) (fz_updates f))
  else if op_Emitted op || bool_decide (auth ∈ fz_blocked f) then Ok f
  else
    match SetString10 (op_TotalBilled op) with
    | None => Err (WorkErr "invalid billed total")
    | Some total =>
        match prior_billed (wd_billed tx !! auth) with
        | None => Err (WorkErr "invalid prior billed total")
        | Some prior =>
            let priorUnits := default 0 (wd_units tx !! auth) in
            if op_Units op <? priorUnits then Err (WorkErr "cumulative billed units regressed")
            else if total - prior <? 0 then Err (WorkErr "cumulative billed amount regressed")
            else
              let! after :=
                (if 0 <? total - prior then
                   match wd_bindings tx !! auth with
                   | None => Err (WorkErr "accepted billing has no member binding")
                   | Some a => Ok (put_receipt (delta_receipt s round now op a (op_Units op - priorUnits) (total - prior)) tx)
                   end
                 else Ok tx) in
              Ok (mkfinalizing (put_billed auth (dec_string total) (op_Units op) after) (fz_blocked f)
                    (fz_updates f ++ [op_with_progress (op_MinimumRound op) (op_Completed op) (op_TotalBilled op) true op]))
        end
    end.

Fixpoint finalize_ops s (round now : Z) (f : finalizing) (ops : list Operation) : wresult finalizing :=
  match ops with
  | [] => Ok f
  | op :: ops => let! f := finalize_op s round now f op in finalize_ops s round now f ops
  end.

Definition Finalize s (round now : Z) db : wresult unit * WorkDB M :=
  if round <=? 0 then (Err (WorkErr "observed finalization round unavailable"), db)
  else Update (fun tx =>
    if round <? readRound (wd_meta tx) then Err (WorkErr "observed round regressed")
    else
      let! f := finalize_ops s round now (mkfinalizing tx ∅ []) (ForEach (wd_operations tx)).*2 in
      let tx := foldl (fun tx op => put_operation (op_ID op) op tx) (fz_tx f) (fz_updates f) in
      Ok (tt, put_meta (observed round now (wd_meta tx)) tx)) db.

(** ** Delivery *)
Definition Undelivered (limit : Z) db : list WorkReceipt :=
  foldl (fun out kr => if bool_decide (is_Some (wd_delivered db !! kr.1)) || ((0 <? limit) && (limit <=? Z.of_nat (length out)))
                       then out else out ++ [kr.2]) [] (ForEach (wd_receipts db)).
Definition Delivered (id : string) db : WorkDB M := put_delivered id db.

(** ** The work report of a round *)
Definition second : Z := 1000000000.
Definition minute : Z := 60 * second.

(** [json.Marshal] of a contribution; [terms_version] is left out when empty. *)
Definition json_contribution (c : Contribution) : string :=
  json_object ((if bool_decide (co_TermsVersion c = "") then [] else [json_field "terms_version" (json_string (co_TermsVersion c))]) ++
    [json_field "id" (json_string (co_ID c)); json_field "pool_id" (json_string (co_PoolID c));
     json_field "source_id" (json_string (co_SourceID c)); json_field "round_id" (json_string (co_RoundID c));
     json_field "member" (json_string (co_Member c)); json_field "offering" (json_string (co_Offering c));
     json_field "backend" (json_string (co_Backend c)); json_field "amount_wei" (json_string (co_AmountWei c))]).

Definition contribution_le (x y : Contribution) : Prop := String.le (co_ID x) (co_ID y).
#[export] Instance contribution_le_dec : RelDecision contribution_le.
Proof. intros x y. apply _. Defined.

(** An identity that is empty or equal to the one before it. *)
Fixpoint bad_identity (previous : option string) (items : list Contribution) : bool :=
  match items with
  | [] => false
  | item :: items' => bool_decide (co_ID item = "") || bool_decide (previous = Some (co_ID item)) || bad_identity (Some (co_ID item)) items'
  end.
Definition WorkDigest (entries : list Contribution) : wresult string :=
  let items := merge_sort contribution_le entries in
  if bad_identity None items then Err (WorkErr "duplicate or missing contribution identity")
  else Ok (hex_encode (sha256 ("[" +:+ String.concat "," (json_contribution <$> items) +:+ "]"))).

Definition contribution_of (r : WorkReceipt) : Contribution :=
  mkContribution (wr_TermsVersion r) (wr_ID r) (wr_PoolID r) (wr_SourceID r) (wr_RoundID r) (wr_MemberEthAddress r)
    (wr_OfferingID r) (wr_BackendID r) (wr_AttributedRevenueWei r).
Definition round_entries (round : Z) db : list Contribution :=
  contribution_of <$> List.filter (fun r => bool_decide (wr_RoundID r = dec_string round)) (ForEach (wd_receipts db)).*2.

(** What keeps the report of a round open, the last reason found. *)
Definition unbound_hold (round : Z) db : bool :=
  existsb (fun id => default 0 (wd_unbound_rounds db !! id) <=? round) (ForEach (wd_unbound_admissions db)).*1.
Definition operation_hold (round : Z) db : bool :=
  existsb (fun op => negb (op_Emitted op) && (op_MinimumRound op <=? round)) (ForEach (wd_operations db)).*2.

Definition Report s (round now : Z) db : wresult WorkReport :=
  let closed := readRound (wd_meta db) - 1 in
  let report complete reason count digest :=
    mkWorkReport (ws_PoolID s) (ws_SourceID s) (ws_BrokerID s) round complete reason closed count digest
      (wm_observed_at (wd_meta db)) in
  let held reason := Ok (report false reason 0 "") in
  if (closed <? round) ||
     match wm_observed_at (wd_meta db) with None => true | Some at_ => 2 * minute <? now - at_ end
  then held "fresh round observation unavailable"
  else if operation_hold round db then held "billing operations await recovery or finalization"
  else if unbound_hold round db then held "admission awaits runner binding or fenced recovery"
  else
    let entries := round_entries round db in
    let! hash := WorkDigest entries in
    Ok (report true "" (u64 (Z.of_nat (length entries))) hash).

(** ** Inherited baselines *)
Definition SetInheritedBaseline (id predecessor : string) (billed : option Z) (units : Z) db : wresult unit * WorkDB M :=
  match billed with
  | None => (Err (WorkErr "invalid inherited billing baseline"), db)
  | Some billed =>
      if bool_decide (id = "") || bool_decide (predecessor = "") || bool_decide (id = predecessor) || (billed <? 0)
      then (Err (WorkErr "invalid inherited billing baseline"), db)
      else
        let value := mkinheritedBaseline predecessor (dec_string billed) units in
        Update (fun tx =>
          match wd_inherited_baselines tx !! id with
          | Some previous => if bool_decide (previous = value) then Ok (tt, tx) else Err (WorkErr "inherited baseline changed")
          | None =>
              if bool_decide (is_Some (wd_billed tx !! id))
              then Err (WorkErr "successor already finalized without inherited evidence; audited correction required")
              else Ok (tt, put_baseline id value (put_billed id (dec_string billed) units tx))
          end) db
  end.

(** ** Draining *)
Definition BeginDrain (reason : string) (now : Z) db : wresult unit * WorkDB M :=
  if bool_decide (reason = "") then (Err (WorkErr "source drain requires reason"), db)
  else Update (fun tx =>
    match wm_drain (wd_meta tx) with
    | Some _ => Ok (tt, tx)
    | None => Ok (tt, put_meta (meta_drain (mkDrainState true reason (Some now) 0 0 0) (wd_meta tx)) tx)
    end) db.

Definition valid_drain (d : DrainState) : bool :=
  ds_Draining d && negb (bool_decide (ds_Reason d = "")) && bool_decide (is_Some (ds_StartedAt d)).
Definition Draining db : wresult bool :=
  match wm_drain (wd_meta db) with
  | None => Ok false
  | Some d => if valid_drain d then Ok true else Err (WorkErr "invalid source drain evidence")
  end.

(** A receipt's round is the number its text stands for. *)
Fixpoint drain_receipts (receipts : list (string * WorkReceipt)) (delivered : M unit) (d : DrainState) : wresult DrainState :=
  match receipts with
  | [] => Ok d
  | (key, receipt) :: receipts' =>
      match SetString10 (wr_RoundID receipt) with
      | None => Err (WorkErr "strconv.ParseInt")
      | Some round =>
          drain_receipts receipts' delivered
            (mkDrainState (ds_Draining d) (ds_Reason d) (ds_StartedAt d) (ds_PendingOperations d)
               (if bool_decide (is_Some (delivered !! key)) then ds_UndeliveredReceipts d else u64 (ds_UndeliveredReceipts d + 1))
               (if ds_LastReceiptRound d <? round then round else ds_LastReceiptRound d))
      end
  end.
Definition DrainStatus db : wresult DrainState :=
  let result := default (mkDrainState false "" None 0 0 0) (wm_drain (wd_meta db)) in
  if bool_decide (is_Some (wm_drain (wd_meta db))) && negb (valid_drain result)
  then Err (WorkErr "invalid source drain evidence")
  else
    let pending := Z.of_nat (size (wd_unbound_admissions db)) +
                   Z.of_nat (length (List.filter (fun op => negb (op_Emitted op)) (ForEach (wd_operations db)).*2)) in
    drain_receipts (ForEach (wd_receipts db)) (wd_delivered db)
      (mkDrainState (ds_Draining result) (ds_Reason result) (ds_StartedAt result) (u64 pending)
         (ds_UndeliveredReceipts result) (ds_LastReceiptRound result)).

Definition BeginDeviceDrain s (host device : string) (generation : Z) (reason : string) (now : Z) db : wresult unit * WorkDB M :=
  if bool_decide (host = "") || bool_decide (device = "") || (generation =? 0) || blank reason
  then (Err (WorkErr "device drain requires enrollment, device, generation and reason"), db)
  else Update (fun tx =>
    let b := opt_bucket (wd_device_drains tx) in
    let key := deviceDrainKey host device generation in
    match b !! key with
    | Some _ => Ok (tt, put_device_drains b tx)
    | None =>
        Ok (tt, put_device_drains (<[key := mkDeviceDrain (ws_PoolID s) (ws_SourceID s) (ws_BrokerID s) host (ToLower device)
                                          generation reason now 0 0 0 0 None]> b) tx)
    end) db.
Definition DeviceDraining (host device : string) (generation : Z) db : bool :=
  match wd_device_drains db with
  | None => false
  | Some b => bool_decide (is_Some (b !! deviceDrainKey host device generation))
  end.
Definition authorizationDeviceDraining (id : string) db : bool :=
  match wd_bindings db !! id with None => false | Some a => bindingDraining db a end.

(** ** The regional terms *)
Definition TermsPolicy s db : wresult Policy :=
  match wm_terms_policy (wd_meta db) with
  | None => Err ErrTermsPolicyMissing
  | Some p =>
      if negb (bool_decide (po_PoolID p = ws_PoolID s)) || negb (bool_decide (po_SourceID p = ws_SourceID s)) ||
         negb (bool_decide (po_BrokerID p = ws_BrokerID s)) || (po_Revision p =? 0) ||
         (negb (po_Paused p) && bool_decide (po_Version p = ""))
      then Err (WorkErr "invalid persisted terms policy")
      else Ok p
  end.
Definition CurrentObservedRound (now : Z) db : wresult Z :=
  match wm_observed_at (wd_meta db) with
  | None => Err (WorkErr "fresh receiver round observation required")
  | Some at_ =>
      if (2 * minute <? now - at_) || (now + minute <? at_) || (readRound (wd_meta db) <=? 0)
      then Err (WorkErr "fresh receiver round observation required")
      else Ok (u64 (readRound (wd_meta db)))
  end.
Definition TermsPermitAdmission s (now : Z) db : wresult unit :=
  let! policy := TermsPolicy s db in
  if po_Paused policy then Err (WorkErr "regional terms admission paused")
  else
    let! round := CurrentObservedRound now db in
    if round <? po_EffectiveRound policy then Err (WorkErr "regional terms are not effective yet") else Ok tt.

Definition PauseTerms s (expectedRevision : Z) (reason : string) db : wresult Policy * WorkDB M :=
  if bool_decide (reason = "") then (Err (WorkErr "terms pause reason required"), db)
  else Update (fun tx =>
    let result := default (mkPolicy (ws_PoolID s) (ws_SourceID s) (ws_BrokerID s) "" 0 0 false "") (wm_terms_policy (wd_meta tx)) in
    if po_Paused result && (po_Revision result =? u64 (expectedRevision + 1)) && bool_decide (po_Reason result = reason)
    then Ok (result, tx)
    else if negb (po_Revision result =? expectedRevision) then Err (WorkErr "terms revision changed")
    else
      let result := mkPolicy (po_PoolID result) (po_SourceID result) (po_BrokerID result) (po_Version result)
                      (po_EffectiveRound result) (u64 (po_Revision result + 1)) true reason in
      Ok (result, put_meta (meta_terms result (wm_terms_versions (wd_meta tx)) (wd_meta tx)) tx)) db.

(** [status]: the settlement domain and the active authorizations the receiver
    reports, when it can. *)
Definition ActivateTerms s (expectedRevision : Z) (version : string) (effectiveRound now : Z)
    (status : option (wresult (option (string * Z)))) db : wresult Policy * WorkDB M :=
  match TermsPolicy s db with
  | Err e => (Err e, db)
  | Ok policy =>
      if negb (po_Paused policy) && (po_Revision policy =? u64 (expectedRevision + 1)) &&
         bool_decide (po_Version policy = version) && (po_EffectiveRound policy =? effectiveRound)
      then (Ok policy, db)
      else if negb (po_Paused policy) || negb (po_Revision policy =? expectedRevision) || bool_decide (version = "")
      then (Err (WorkErr "matching paused terms revision required"), db)
      else
        match CurrentObservedRound now db, DrainStatus db with
        | Err e, _ | _, Err e => (Err e, db)
        | Ok round, Ok pending =>
            if (effectiveRound <=? round) &&
               (negb (bool_decide (po_Version policy = "")) || negb (ds_LastReceiptRound pending =? 0))
            then (Err (WorkErr "successor terms must start after observed round"), db)
            else if negb (ds_PendingOperations pending =? 0) || negb (ds_UndeliveredReceipts pending =? 0) ||
                    (effectiveRound <=? u64 (ds_LastReceiptRound pending))
            then (Err (WorkErr "terms transition waits for finalized delivered work"), db)
            else
              match status with
              | None => (Err (WorkErr "receiver source status unavailable"), db)
              | Some (Err e) => (Err e, db)
              | Some (Ok None) => (Err (WorkErr "terms transition waits for receiver authorization quiescence"), db)
              | Some (Ok (Some (domain, active))) =>
                  if negb (bool_decide (domain = ws_SourceID s)) || negb (active =? 0)
                  then (Err (WorkErr "terms transition waits for receiver authorization quiescence"), db)
                  else
                    let policy := mkPolicy (po_PoolID policy) (po_SourceID policy) (po_BrokerID policy) version effectiveRound
                                    (u64 (po_Revision policy + 1)) false "" in
                    Update (fun tx =>
                      match wm_terms_versions (wd_meta tx) !! version with
                      | Some prior =>
                          if negb (po_EffectiveRound prior =? effectiveRound)
                          then Err (WorkErr "broker terms version timing is immutable")
                          else Ok (policy, put_meta (meta_terms policy (wm_terms_versions (wd_meta tx)) (wd_meta tx)) tx)
                      | None =>
                          Ok (policy, put_meta (meta_terms policy (<[version := policy]> (wm_terms_versions (wd_meta tx))) (wd_meta tx)) tx)
                      end) db
              end
        end
  end.
End ledger.
