(* ===== verification/WorkClient.v ===== *)
(** * Billing through the work ledger

    capability-broker/internal/workledger (client.go, admission_recovery.go,
    recovery.go, device_drain.go): the client every billing call of the broker
    goes through.  It records what it is about to ask before it asks, and
    [Flush] repeats what was left without an answer.

    The payee's daemon, the revenue reader and the receipt sink behind it are
    the interface [AccountClient], on a state [R] of theirs.  The lock that
    keeps admissions and drains apart is not modelled: calls run one after the
    other. *)
From S2P Require Import Prelude.
From S2P Require Import GoBytes.
From S2P Require Import Bolt.
From S2P Require Import ChainErrors.
From S2P Require Import Actions.
From S2P Require Import Spendauth.
From S2P Require Import WorkLedger.

(** The states the payee reports of an authorization, as it numbers them. *)
Definition ADMITTED : Z := 2.
Definition SETTLED : Z := 3.
Definition EXPIRED_UNUSED : Z := 4.
Definition SUPERSEDED : Z := 6.
Definition CANCELED_UNUSED : Z := 7.

(** ** The payment client's requests and answers *)
Record AdmitRequest := mkAdmitRequest {
  ar_AuthorizationBytes : string;
  ar_PaymentBytes : string;
  ar_Reservation : option Z;
}.
Record AdvanceRequest := mkAdvanceRequest {
  vr_WholesaleAccountID : string;
  vr_Payer : string;
  vr_AuthorizationID : string;
  vr_CumulativeUnits : Z;
  vr_TargetReserved : option Z;
  vr_AdvanceSeq : Z;
  vr_PaymentBytes : string;
}.
Record SettleRequest := mkSettleRequest {
  sr_WholesaleAccountID : string;
  sr_Payer : string;
  sr_AuthorizationID : string;
  sr_ActualUnits : Z;
  sr_SettlementSeq : Z;
}.
(** The state and the amount billed, of an answer. *)
Record BilledAnswer := mkBilledAnswer {
  ba_State : Z;
  ba_Billed : option Z;
}.
Record SpendAuthorizationStatus := mkSpendAuthorizationStatus {
  ss_State : Z;
  ss_Billed : option Z;
  ss_ActualUnits : Z;
}.
Record CanceledAdmission := mkCanceledAdmission {
  ca_Canceled : bool;
  ca_Authorization : option SpendAuthorizationStatus;
}.
(** Of a round revenue, what [Flush] reads. *)
Record RoundClock := mkRoundClock {
  rk_SettlementDomainId : string;
  rk_CompleteThroughRound : Z;
  rk_ObservedAt : string;
}.

(** An answer of [None] is a [nil] result. *)
Class AccountClient (R : Type) := {
  ac_AdmitAuthorization : AdmitRequest -> st R work_error (option Z);
  ac_AdvanceAuthorization : AdvanceRequest -> st R work_error (option BilledAnswer);
  ac_SettleAuthorization : SettleRequest -> st R work_error (option BilledAnswer);
  ac_GetSpendAuthorization : string -> string -> string -> st R work_error (option SpendAuthorizationStatus);
  ac_CancelAuthorizationAdmission : string -> st R work_error (option CanceledAdmission);
  ac_CloseUnexecutedAuthorization : string -> string -> string -> string -> st R work_error unit;
  ac_RoundRevenue : Z -> st R work_error (option RoundClock);
  ac_UpsertWorkReceipt : WorkReceipt -> st R work_error unit;
}.

(** A client; [cl_HasSink]: a receipt sink is configured. *)
Record WorkClient := mkWorkClient {
  cl_RequireTerms : bool;
  cl_Store : WorkStore;
  cl_HasSink : bool;
}.

(** The ledger and what lies behind the client. *)
Record CState (M : Type -> Type) (R : Type) := mkCState {
  cs_db : WorkDB M;
  cs_receiver : R;
}.
Arguments mkCState {M R}.
Arguments cs_db {M R}.
Arguments cs_receiver {M R}.

Section client.
Context `{Bolt M} `{AuthWire} `{AccountClient R} (cl : WorkClient).

Open Scope act_scope.

Abbreviation cact := (st (CState M R) work_error).

(** ** Calls on the ledger and on the receiver *)
Definition ledger {A} (op : WorkDB M -> result work_error A * WorkDB M) : cact A :=
  fun s => let '(r, db) := op (cs_db s) in (r, mkCState db (cs_receiver s)).
Definition look {A} (f : WorkDB M -> result work_error A) : cact A := fun s => (f (cs_db s), s).
Definition remote {A} (op : st R work_error A) : cact A :=
  fun s => let '(r, v) := op (cs_receiver s) in (r, mkCState (cs_db s) v).

Definition unmarshal (raw : string) : cact SpendAuthorization :=
  match unmarshal_auth raw with None => fail (WorkErr "proto: cannot parse") | Some auth => ret auth end.

(** ** Admission *)
Definition inherit_baseline (p : SpendAuthorizationPayload) : cact unit :=
  do! predecessor <- remote (ac_GetSpendAuthorization (py_Payer p) (py_PredecessorAuthorizationId p) (py_WholesaleAccountId p));
  match predecessor with
  | Some status =>
      if ss_State status =? SUPERSEDED
      then ledger (SetInheritedBaseline (py_AuthorizationId p) (py_PredecessorAuthorizationId p) (ss_Billed status) (ss_ActualUnits status))
      else fail (WorkErr "receiver did not prove superseded billing baseline")
  | None => fail (WorkErr "receiver did not prove superseded billing baseline")
  end.

Definition draining_admission (req : AdmitRequest) (p : SpendAuthorizationPayload) : cact unit :=
  do! known <- look (fun db => Ok (KnownBoundAuthorization (py_AuthorizationId p) (ar_AuthorizationBytes req) db));
  if negb known then fail ErrAdmissionStopped
  else
    do! accepted <- remote (ac_GetSpendAuthorization (py_Payer p) (py_AuthorizationId p) (py_WholesaleAccountId p));
    match accepted with
    | Some status => require (ss_State status =? ADMITTED) (WorkErr "draining source permits only already-admitted bound replay")
    | None => fail (WorkErr "draining source permits only already-admitted bound replay")
    end.

Definition AdmitAuthorization (now : Z) (req : AdmitRequest) : cact (option Z) :=
  do! draining <- look Draining;
  do! auth <- unmarshal (ar_AuthorizationBytes req);
  match sa_Payload auth with
  | None => fail (WorkErr "admission source identity invalid")
  | Some p =>
      run! require (bool_decide (py_SettlementDomainId p = ws_SourceID (cl_Store cl)) && (len (py_Payer p) =? 20))
             (WorkErr "admission source identity invalid");
      let bindingID := if bool_decide (py_PredecessorAuthorizationId p = "") then py_AuthorizationId p else py_PredecessorAuthorizationId p in
      do! device <- look (fun db => Ok (authorizationDeviceDraining bindingID db));
      do! terms <- look (fun db => Ok (cl_RequireTerms cl && negb (is_ok (TermsPermitAdmission (cl_Store cl) now db))));
      run! (if draining || device || terms then draining_admission req p else ret tt);
      run! ledger (SaveAuthorization (py_AuthorizationId p) (ar_AuthorizationBytes req));
      run! (if bool_decide (py_PredecessorAuthorizationId p = "") then ret tt
            else
              do! binding <- look (Binding (py_PredecessorAuthorizationId p));
              ledger (Bind (py_AuthorizationId p) binding));
      do! result <- remote (ac_AdmitAuthorization req);
      run! (if negb (bool_decide (py_PredecessorAuthorizationId p = "")) && bool_decide (result = Some ADMITTED)
            then inherit_baseline p else ret tt);
      ret result
  end.

Definition CancelAuthorizationAdmission (recovers : bool) (wire : string) : cact (option CanceledAdmission) :=
  if negb recovers then fail ErrUnsupported
  else
    do! result <- remote (ac_CancelAuthorizationAdmission wire);
    match result with
    | Some (mkCanceledAdmission false (Some status)) =>
        if negb (ss_State status =? ADMITTED) && negb (ss_State status =? SETTLED) then ret result
        else
          do! auth <- unmarshal wire;
          match sa_Payload auth with
          | None => fail (WorkErr "admission recovery source identity invalid")
          | Some p =>
              run! require (bool_decide (py_SettlementDomainId p = ws_SourceID (cl_Store cl)))
                     (WorkErr "admission recovery source identity invalid");
              run! (if bool_decide (py_PredecessorAuthorizationId p = "") then ret tt else inherit_baseline p);
              ret result
          end
    | _ => ret result
    end.

(** ** Billing *)
Definition new_operation (account auth kind : string) (seq : Z) (payer : string) (units : Z) (target payment : string) : Operation :=
  mkOperation account "" auth kind seq payer units target payment 0 false "" false.

(** An answer that is missing or in another state proves nothing. *)
Definition billed_in (state : Z) (message : string) (answer : option BilledAnswer) : cact (option Z) :=
  match answer with
  | Some a => if ba_State a =? state then ret (ba_Billed a) else fail (WorkErr message)
  | None => fail (WorkErr message)
  end.

Definition AdvanceAuthorization (req : AdvanceRequest) : cact (option BilledAnswer) :=
  let target := match vr_TargetReserved req with None => "" | Some n => dec_string n end in
  do! op <- ledger (Prepare (new_operation (vr_WholesaleAccountID req) (vr_AuthorizationID req) "advance" (vr_AdvanceSeq req)
                               (vr_Payer req) (vr_CumulativeUnits req) target (vr_PaymentBytes req)));
  do! result <- remote (ac_AdvanceAuthorization req);
  do! billed <- billed_in ADMITTED "receiver returned no valid billing result" result;
  run! ledger (Complete (op_ID op) billed);
  ret result.

Definition SettleAuthorization (req : SettleRequest) : cact (option BilledAnswer) :=
  do! op <- ledger (Prepare (new_operation (sr_WholesaleAccountID req) (sr_AuthorizationID req) "settle" (sr_SettlementSeq req)
                               (sr_Payer req) (sr_ActualUnits req) "" ""));
  do! result <- remote (ac_SettleAuthorization req);
  do! billed <- billed_in SETTLED "receiver returned no valid settlement result" result;
  run! ledger (Complete (op_ID op) billed);
  ret result.

(** ** Flushing *)

(** Ask the receiver again about an operation left without an answer. *)
Definition replay_operation (op : Operation) : cact unit :=
  do! billed <-
    (if bool_decide (op_Kind op = "advance") then
       do! target <- (if bool_decide (op_TargetReserved op = "") then ret None
                      else match SetString10 (op_TargetReserved op) with
                           | None => fail (WorkErr "invalid persisted reservation")
                           | Some n => ret (Some n)
                           end);
       do! result <- remote (ac_AdvanceAuthorization (mkAdvanceRequest (op_WholesaleAccountID op) (op_Payer op)
                               (op_AuthorizationID op) (op_Units op) target (op_Sequence op) (op_PaymentBytes op)));
       billed_in ADMITTED "missing valid replay result" result
     else
       do! result <- remote (ac_SettleAuthorization (mkSettleRequest (op_WholesaleAccountID op) (op_Payer op)
                               (op_AuthorizationID op) (op_Units op) (op_Sequence op)));
       billed_in SETTLED "missing valid replay result" result);
  ledger (Complete (op_ID op) billed).

Fixpoint replay_all (ops : list Operation) : cact unit :=
  match ops with
  | [] => ret tt
  | op :: ops => run! replay_operation op; replay_all ops
  end.

Fixpoint deliver (batch : list WorkReceipt) : cact unit :=
  match batch with
  | [] => ret tt
  | receipt :: batch =>
      run! remote (ac_UpsertWorkReceipt receipt);
      run! ledger (fun db => (Ok tt, Delivered (wr_ID receipt) db));
      deliver batch
  end.

Definition Flush (now : Z) : cact unit :=
  do! pending <- look (fun db => Ok (Pending db));
  run! replay_all pending;
  do! clock <- remote (ac_RoundRevenue 0);
  match clock with
  | None => fail (WorkErr "receiver round observation unavailable")
  | Some clock =>
      run! require (bool_decide (rk_SettlementDomainId clock = ws_SourceID (cl_Store cl)) && (0 <=? rk_CompleteThroughRound clock))
             (WorkErr "receiver round observation unavailable");
      match parse_time (rk_ObservedAt clock) with
      | None => fail (WorkErr "receiver round observation stale")
      | Some observed =>
          run! require (negb ((2 * minute <? now - observed) || (now + minute <? observed)))
                 (WorkErr "receiver round observation stale");
          run! ledger (Finalize (cl_Store cl) (rk_CompleteThroughRound clock + 1) observed);
          run! require (cl_HasSink cl) (WorkErr "regional receipt sink unavailable");
          do! batch <- look (fun db => Ok (Undelivered 500 db));
          deliver batch
      end
  end.

(** ** Recovery and drains *)
Fixpoint recover_entries (entries : list string) : cact unit :=
  match entries with
  | [] => ret tt
  | raw :: entries =>
      do! auth <- unmarshal raw;
      match sa_Payload auth with
      | None => fail (WorkErr "unbound authorization source identity invalid")
      | Some p =>
          run! require (negb (bool_decide (py_AuthorizationId p = "")) && (len (py_Payer p) =? 20) &&
                        bool_decide (py_SettlementDomainId p = ws_SourceID (cl_Store cl)))
                 (WorkErr "unbound authorization source identity invalid");
          run! remote (ac_CloseUnexecutedAuthorization (py_Payer p) (py_AuthorizationId p)
                         "broker restart: durable admission has no runner binding" (py_WholesaleAccountId p));
          run! ledger (fun db => (Ok tt, forget_unbound (py_AuthorizationId p) db));
          recover_entries entries
      end
  end.
Definition RecoverUnbound (recovers : bool) : cact unit :=
  do! entries <- look (fun db => Ok (ForEach (wd_unbound_admissions db)).*2);
  match entries with
  | [] => ret tt
  | _ => if negb recovers then fail (WorkErr "receiver cannot fence unbound admissions") else recover_entries entries
  end.

(** The bindings of a device: the authorizations to ask about, and how many
    bindings cannot be qualified. *)
Definition device_binding (host device : string) (generation : Z) (db : WorkDB M) (acc : result work_error (gset string * list SpendAuthorization * Z))
    (ka : string * Attribution) : result work_error (gset string * list SpendAuthorization * Z) :=
  let! (matches, auths, unqualified) := acc in
  let a := ka.2 in
  if negb (bool_decide (wa_Enrollment a = host)) then Ok (matches, auths, unqualified)
  else if bool_decide (wa_DeviceOwnership a = ∅) then Ok (matches, auths, u64 (unqualified + 1))
  else if negb (default 0 (wa_DeviceOwnership a !! ToLower device) =? generation) then Ok (matches, auths, unqualified)
  else
    let matches := {[ka.1]} ∪ matches in
    match wd_authorizations db !! ka.1 with
    | None => Ok (matches, auths, u64 (unqualified + 1))
    | Some raw =>
        match unmarshal_auth raw with
        | None => Err (WorkErr "proto: cannot parse")
        | Some auth => Ok (matches, auths ++ [auth], unqualified)
        end
    end.

Definition device_work (host device : string) (generation : Z) (db : WorkDB M) : result work_error (DeviceDrain * list SpendAuthorization) :=
  match opt_bucket (wd_device_drains db) !! deviceDrainKey host device generation with
  | None => Err (WorkErr "device is not draining")
  | Some out =>
      let! (matches, auths, unqualified) :=
        foldl (device_binding host device generation db) (Ok (∅, [], Z.of_nat (size (wd_unbound_admissions db))))
          (ForEach (wd_bindings db)) in
      let ops := List.filter (fun op => bool_decide (op_AuthorizationID op ∈ matches)) (ForEach (wd_operations db)).*2 in
      let pending := List.filter (fun op => negb (op_Emitted op)) ops in
      let undelivered := List.filter (fun op =>
        let key := ws_SourceID (cl_Store cl) +:+ "/" +:+ op_ID op in
        op_Emitted op && bool_decide (is_Some (wd_receipts db !! key)) && negb (bool_decide (is_Some (wd_delivered db !! key)))) ops in
      Ok (mkDeviceDrain (dd_PoolID out) (dd_SourceID out) (dd_BrokerID out) (dd_EnrollmentID out) (dd_DeviceID out)
            (dd_Generation out) (dd_Reason out) (dd_StartedAt out) (u64 (dd_PendingOperations out + Z.of_nat (length pending)))
            (dd_ActiveAuthorizations out) (u64 (dd_UndeliveredReceipts out + Z.of_nat (length undelivered))) unqualified
            (dd_ObservedAt out), auths)
  end.

Definition terminal_state (state : Z) : bool :=
  (state =? EXPIRED_UNUSED) || (state =? CANCELED_UNUSED) || (state =? SETTLED) || (state =? SUPERSEDED).

Fixpoint count_active (auths : list SpendAuthorization) (active : Z) : cact Z :=
  match auths with
  | [] => ret active
  | auth :: auths =>
      match sa_Payload auth with
      | None => fail (WorkErr "receiver authorization proof unavailable")
      | Some p =>
          do! state <- remote (ac_GetSpendAuthorization (py_Payer p) (py_AuthorizationId p) (py_WholesaleAccountId p));
          match state with
          | None => fail (WorkErr "receiver authorization proof missing")
          | Some status => count_active auths (if terminal_state (ss_State status) then active else u64 (active + 1))
          end
      end
  end.

Definition DeviceDrainStatus (host device : string) (generation now : Z) : cact DeviceDrain :=
  do! work <- look (device_work host device generation);
  do! active <- count_active work.2 (dd_ActiveAuthorizations work.1);
  let out := work.1 in
  ret (mkDeviceDrain (dd_PoolID out) (dd_SourceID out) (dd_BrokerID out) (dd_EnrollmentID out) (dd_DeviceID out)
         (dd_Generation out) (dd_Reason out) (dd_StartedAt out) (dd_PendingOperations out) active
         (dd_UndeliveredReceipts out) (dd_UnqualifiedWork out) (Some now)).
End client.
