(* ===== verification/WorkLedgerSpec.v ===== *)
(** * What the work ledger guarantees

    Over any run of its operations: the receipts of an authorization add up to
    exactly what was billed to it beyond what it inherited; a receipt is written
    once; and the contributions of a round that was closed once never change. *)
From S2P Require Import Prelude.
From S2P Require Import GoBytes.
From S2P Require Import GoCodecs.
From S2P Require Import Bolt.
From S2P Require Import Spendauth.
From S2P Require Import WorkLedger.

Lemma str_app_inj_l p a b : p +:+ a = p +:+ b -> a = b.
Proof. induction p as [|c p IH]; simpl; [done|]. intros [= E]. by apply IH. Qed.

(** ** What a loop over a bucket picks *)
Section picking.
Context `{Bolt M} {A : Type} (f : A -> bool).

Lemma filter_values (l : list (string * A)) : List.filter f l.*2 = (filter (fun kv => f kv.2 = true) l).*2.
Proof.
  induction l as [|[k x] l IH]; [done|]. rewrite filter_cons, fmap_cons. cbn [snd List.filter]. rewrite IH.
  case_decide as Hf; [by rewrite Hf|]. by destruct (f x).
Qed.
(** Two buckets with the same picked rows give the same list. *)
Lemma ForEach_picks (b b' : M A) :
  (forall k x, f x = true -> b !! k = Some x <-> b' !! k = Some x) -> List.filter f (ForEach b).*2 = List.filter f (ForEach b').*2.
Proof.
  intros Hb. rewrite !filter_values. f_equal. apply (StronglySorted_unique_strong key_le).
  - intros [k x] [k' x'] [Hf Hx]%list_elem_of_filter [Hf' Hx']%list_elem_of_filter Hle Hle'. simpl in *.
    apply elem_of_ForEach in Hx, Hx'. assert (k = k') as <- by (by apply (anti_symm String.le)).
    apply Hb in Hx; [|done]. rewrite Hx in Hx'. by injection Hx' as <-.
  - apply StronglySorted_filter, ForEach_sorted.
  - apply StronglySorted_filter, ForEach_sorted.
  - apply NoDup_Permutation; try (apply NoDup_filter; rewrite ForEach_perm; apply NoDup_map_to_list).
    intros [k x]. rewrite !list_elem_of_filter, !elem_of_ForEach. simpl. split; intros [Hf Hx]; (split; [done|by apply Hb]).
Qed.
End picking.

(** ** The operations as steps *)
Inductive wop :=
  | WSave (id raw : string)
  | WBind (auth : string) (a : Attribution)
  | WPrepare (account auth kind : string) (seq : Z) (payer : string) (units : Z) (target payment : string)
  | WComplete (id : string) (cumulative : option Z)
  | WFinalize (round now : Z)
  | WDelivered (id : string)
  | WBaseline (id predecessor : string) (billed : option Z) (units : Z)
  | WForget (auth : string)
  | WDrain (reason : string) (now : Z)
  | WDeviceDrain (host device : string) (generation : Z) (reason : string) (now : Z)
  | WPause (revision : Z) (reason : string)
  | WActivate (revision : Z) (version : string) (round now : Z) (status : option (result work_error (option (string * Z)))).

Section steps.
Context `{Bolt M} `{AuthWire} (s : WorkStore).
Implicit Types (db tx : WorkDB M).

Definition wstep db (op : wop) : WorkDB M :=
  match op with
  | WSave id raw => (SaveAuthorization id raw db).2
  | WBind auth a => (Bind auth a db).2
  | WPrepare account auth kind seq payer units target payment =>
      (Prepare (mkOperation account "" auth kind seq payer units target payment 0 false "" false) db).2
  | WComplete id cumulative => (Complete id cumulative db).2
  | WFinalize round now => (Finalize s round now db).2
  | WDelivered id => Delivered id db
  | WBaseline id predecessor billed units => (SetInheritedBaseline id predecessor billed units db).2
  | WForget auth => forget_unbound auth db
  | WDrain reason now => (BeginDrain reason now db).2
  | WDeviceDrain host device generation reason now => (BeginDeviceDrain s host device generation reason now db).2
  | WPause revision reason => (PauseTerms s revision reason db).2
  | WActivate revision version round now status => (ActivateTerms s revision version round now status db).2
  end.
Definition wrun : WorkDB M -> list wop -> WorkDB M := foldl wstep.

(** ** What an authorization earned *)

(** The key of the receipt of an operation, and the amount on it. *)
Definition receipt_key (op : Operation) : string := ws_SourceID s +:+ "/" +:+ op_ID op.
Definition receipt_wei (r : WorkReceipt) : Z := default 0 (SetString10 (wr_AttributedRevenueWei r)).
Definition earned (receipts : M WorkReceipt) (op : Operation) : Z := default 0 (receipt_wei <$> receipts !! receipt_key op).
(** The receipts of an authorization added up. *)
Definition revenue_of (auth : string) (receipts : M WorkReceipt) (ops : M Operation) : Z :=
  msum (fun _ op => if bool_decide (op_AuthorizationID op = auth) then earned receipts op else 0) ops.
Definition amount (raw : option string) : Z := default 0 (prior_billed raw).
Definition inherited_wei (auth : string) db : Z := amount (ib_Billed <$> wd_inherited_baselines db !! auth).
Definition billed_wei (auth : string) db : Z := amount (wd_billed db !! auth).

Lemma receipt_key_inj op op' : receipt_key op = receipt_key op' -> op_ID op = op_ID op'.
Proof. unfold receipt_key. intros E. by apply str_app_inj_l, (str_app_inj_l "/") in E. Qed.

Definition decimal (raw : string) : Prop := exists n, 0 <= n /\ raw = dec_string n.
Definition emit (op : Operation) : Operation := op_with_progress (op_MinimumRound op) (op_Completed op) (op_TotalBilled op) true op.

(** A receipt of an emitted operation, in a round up to [round]. *)
Record issued (round : Z) (ops : M Operation) (k : string) (r : WorkReceipt) : Prop := {
  is_id : wr_ID r = k;
  is_op : exists op, ops !! op_ID op = Some op /\ op_Emitted op = true /\ k = receipt_key op;
  is_round : exists n, wr_RoundID r = dec_string n /\ 0 < n <= round;
  is_amount : exists d, wr_AttributedRevenueWei r = dec_string d /\ 0 < d;
}.

(** Up to where an authorization is receipted: what it inherited, or the total of
    an operation that was finalized. *)
Definition reached db (auth : string) (total : Z) : Prop :=
  total = inherited_wei auth db \/
  exists op, wd_operations db !! op_ID op = Some op /\ op_AuthorizationID op = auth /\ op_Emitted op = true /\
    op_TotalBilled op = dec_string total.

(** A receipt says what its operation billed beyond such a total, for the member
    and the work its authorization is bound to. *)
Definition itemized db (r : WorkReceipt) : Prop :=
  exists op a n now units prior delta,
    wd_operations db !! op_ID op = Some op /\ op_Emitted op = true /\
    wd_bindings db !! op_AuthorizationID op = Some a /\ r = delta_receipt s n now op a units delta /\
    reached db (op_AuthorizationID op) prior /\ op_TotalBilled op = dec_string (prior + delta).

Record exact_work db : Prop := {
  ex_items : forall k r, wd_receipts db !! k = Some r -> itemized db r;
  ex_reached : forall a, reached db a (billed_wei a db);
  ex_emitted : forall k op, wd_operations db !! k = Some op -> op_Emitted op = true ->
                 op_Completed op = true /\ is_Some (wd_billed db !! op_AuthorizationID op);
}.

Record wf_work db : Prop := {
  wk_id : forall k op, wd_operations db !! k = Some op -> op_ID op = k;
  wk_total : forall k op, wd_operations db !! k = Some op -> op_Completed op = true -> decimal (op_TotalBilled op);
  wk_billed : forall a raw, wd_billed db !! a = Some raw -> decimal raw;
  wk_baseline : forall a b, wd_inherited_baselines db !! a = Some b -> decimal (ib_Billed b) /\ is_Some (wd_billed db !! a);
  wk_receipt : forall k r, wd_receipts db !! k = Some r -> issued (readRound (wd_meta db)) (wd_operations db) k r;
  wk_books : forall a, revenue_of a (wd_receipts db) (wd_operations db) = billed_wei a db - inherited_wei a db;
  wk_exact : exact_work db;
}.
(** What a step keeps of operations, bindings and baselines. *)
Record carries db db' : Prop := {
  ca_ops : forall k op, wd_operations db !! k = Some op -> op_Emitted op = true ->
             exists op', wd_operations db' !! k = Some op' /\ op_ID op' = op_ID op /\ op_AuthorizationID op' = op_AuthorizationID op /\
               op_Emitted op' = true /\ op_TotalBilled op' = op_TotalBilled op;
  ca_bindings : forall a b, wd_bindings db !! a = Some b -> wd_bindings db' !! a = Some b;
  ca_inherited : forall a, is_Some (wd_billed db !! a) -> inherited_wei a db' = inherited_wei a db;
}.
Lemma reached_carried db db' a n : carries db db' -> inherited_wei a db' = inherited_wei a db -> reached db a n -> reached db' a n.
Proof.
  intros [O B I] Ha [->|(op & Hop & <- & He & Ht)]; [by left|]. right.
  destruct (O _ _ Hop He) as (op' & Hop' & Hid & Hau & He' & Ht'). exists op'. rewrite Hid, Ht', Hau. by split_and!.
Qed.
Lemma itemized_carried db db' r : exact_work db -> carries db db' -> itemized db r -> itemized db' r.
Proof.
  intros Hx Hc (op & a & n & now & units & prior & delta & Hop & He & Ha & -> & Hr & Ht).
  destruct (ca_ops _ _ Hc _ _ Hop He) as (op' & Hop' & Hid & Hau & He' & Ht'). exists op', a, n, now, units, prior, delta.
  rewrite Hid, Hau, Ht'. split_and!; try done; [by apply (ca_bindings _ _ Hc)|unfold delta_receipt; by rewrite Hid|].
  eapply reached_carried; [done| |done]. by eapply (ca_inherited _ _ Hc), (ex_emitted _ Hx).
Qed.
(** A step that writes neither receipts nor amounts, and finalizes nothing. *)
Lemma exact_carried db db' :
  exact_work db -> carries db db' -> wd_receipts db' = wd_receipts db -> wd_billed db' = wd_billed db ->
  wd_inherited_baselines db' = wd_inherited_baselines db ->
  (forall k op', wd_operations db' !! k = Some op' -> op_Emitted op' = true -> op_Completed op' = true /\
     exists op, wd_operations db !! k = Some op /\ op_Emitted op = true /\ op_AuthorizationID op' = op_AuthorizationID op) -> exact_work db'.
Proof.
  intros Hx Hc Hr Hb Hi Ho. split.
  - intros k r. rewrite Hr. intros Hk%(ex_items _ Hx). by eapply itemized_carried.
  - intros a. replace (billed_wei a db') with (billed_wei a db) by (unfold billed_wei; by rewrite Hb).
    apply (reached_carried db); [done|unfold inherited_wei; by rewrite Hi|apply (ex_reached _ Hx)].
  - intros k op' Hop He. destruct (Ho k op' Hop He) as (Hd & op & Hk & He0 & ->). rewrite Hb. split; [done|]. by eapply (ex_emitted _ Hx).
Qed.

Lemma amount_dec n : amount (Some (dec_string n)) = n.
Proof. unfold amount, prior_billed. by rewrite SetString10_dec. Qed.

(** An operation without a receipt earns nothing. *)
Lemma no_receipt round ops (receipts : M WorkReceipt) op :
  (forall k r, receipts !! k = Some r -> issued round ops k r) -> (forall k op, ops !! k = Some op -> op_ID op = k) ->
  (forall op', ops !! op_ID op = Some op' -> op_Emitted op' = false) -> receipts !! receipt_key op = None.
Proof.
  intros Hr Hid Hop. destruct (receipts !! receipt_key op) as [r|] eqn:E; [|done].
  destruct (is_op _ _ _ _ (Hr _ _ E)) as (op' & Hop' & He & Hk). apply receipt_key_inj in Hk.
  rewrite <- Hk in Hop'. specialize (Hop _ Hop'). congruence.
Qed.

(** Changing an operation's progress changes no earnings. *)
Lemma revenue_same a receipts (ops : M Operation) k op op' :
  ops !! k = Some op -> op_AuthorizationID op' = op_AuthorizationID op -> op_ID op' = op_ID op ->
  revenue_of a receipts (<[k := op']> ops) = revenue_of a receipts ops.
Proof.
  intros Hk Ha Hi. unfold revenue_of. rewrite msum_insert, Hk. simpl. unfold earned, receipt_key. rewrite Ha, Hi. lia.
Qed.
Lemma revenue_new a receipts (ops : M Operation) k op :
  ops !! k = None -> receipts !! receipt_key op = None -> revenue_of a receipts (<[k := op]> ops) = revenue_of a receipts ops.
Proof.
  intros Hk Hr. unfold revenue_of. rewrite msum_insert_new by done. unfold earned. rewrite Hr. simpl. destruct (bool_decide _); lia.
Qed.
(** A receipt for an operation that had none is earned by its authorization. *)
Lemma revenue_receipt a (receipts : M WorkReceipt) (ops : M Operation) op r :
  (forall k op, ops !! k = Some op -> op_ID op = k) -> ops !! op_ID op = Some op -> receipts !! receipt_key op = None ->
  revenue_of a (<[receipt_key op := r]> receipts) ops =
  revenue_of a receipts ops + if bool_decide (op_AuthorizationID op = a) then receipt_wei r else 0.
Proof.
  intros Hid Hop Hr. unfold revenue_of. rewrite !(msum_delete _ ops (op_ID op) op Hop).
  rewrite (msum_ext (fun _ op0 => if bool_decide (op_AuthorizationID op0 = a) then earned (<[receipt_key op:=r]> receipts) op0 else 0)
    (fun _ op0 => if bool_decide (op_AuthorizationID op0 = a) then earned receipts op0 else 0)).
  - unfold earned. rewrite lookup_insert_eq, Hr. simpl. destruct (bool_decide _); lia.
  - intros k op' [Hne Hk]%lookup_delete_Some. unfold earned. rewrite lookup_insert_ne; [done|].
    intros E%receipt_key_inj. apply Hne. rewrite E. by apply Hid.
Qed.

(** ** Finalization *)

(** While operations are emitted. *)
Definition reaching tx0 (us : list Operation) (auth : string) (total : Z) : Prop :=
  reached tx0 auth total \/ exists op, emit op ∈ us /\ op_AuthorizationID op = auth /\ op_TotalBilled op = dec_string total.
Definition billed_item tx0 (us : list Operation) (op : Operation) (r : WorkReceipt) : Prop :=
  exists a n now units prior delta, wd_bindings tx0 !! op_AuthorizationID op = Some a /\ r = delta_receipt s n now op a units delta /\
    reaching tx0 us (op_AuthorizationID op) prior /\ op_TotalBilled op = dec_string (prior + delta).
Lemma reaching_more tx0 us us' auth total : reaching tx0 us auth total -> reaching tx0 (us ++ us') auth total.
Proof. intros [Hr|(op & Hop & Ha)]; [by left|right]. exists op. split; [apply elem_of_app; by left|done]. Qed.
Lemma billed_item_more tx0 us us' op r : billed_item tx0 us op r -> billed_item tx0 (us ++ us') op r.
Proof.
  intros (a & n & now & units & prior & delta & Ha & Hr & Hp & Ht). exists a, n, now, units, prior, delta. split_and!; try done.
  by apply reaching_more.
Qed.
Lemma reaching_emitted tx0 us op : emit op ∈ us -> forall total, op_TotalBilled op = dec_string total -> reaching tx0 us (op_AuthorizationID op) total.
Proof. intros Hu total Ht. right. by exists op. Qed.

Record looping (round : Z) (tx0 : WorkDB M) (f : finalizing) (rest : list Operation) : Prop := {
  lp_ops : wd_operations (fz_tx f) = wd_operations tx0;
  lp_meta : wd_meta (fz_tx f) = wd_meta tx0;
  lp_baselines : wd_inherited_baselines (fz_tx f) = wd_inherited_baselines tx0;
  lp_old : forall k r, wd_receipts tx0 !! k = Some r -> wd_receipts (fz_tx f) !! k = Some r;
  lp_rest : forall op, op ∈ rest -> wd_operations tx0 !! op_ID op = Some op /\
              (op_Emitted op = false -> wd_receipts (fz_tx f) !! receipt_key op = None);
  lp_nodup : NoDup (op_ID <$> rest);
  lp_updates : forall u, u ∈ fz_updates f -> exists op, wd_operations tx0 !! op_ID op = Some op /\ u = emit op /\
                 op_Completed op = true /\ is_Some (wd_billed (fz_tx f) !! op_AuthorizationID op);
  lp_new : forall k r, wd_receipts (fz_tx f) !! k = Some r ->
             wd_receipts tx0 !! k = Some r \/
             wr_ID r = k /\ wr_RoundID r = dec_string round /\ (exists d, wr_AttributedRevenueWei r = dec_string d /\ 0 < d) /\
             exists op, emit op ∈ fz_updates f /\ k = receipt_key op /\ billed_item tx0 (fz_updates f) op r;
  lp_billed : forall a raw, wd_billed (fz_tx f) !! a = Some raw -> decimal raw;
  lp_kept : forall a, is_Some (wd_billed tx0 !! a) -> is_Some (wd_billed (fz_tx f) !! a);
  lp_books : forall a, revenue_of a (wd_receipts (fz_tx f)) (wd_operations tx0) = billed_wei a (fz_tx f) - inherited_wei a tx0;
  lp_bindings : wd_bindings (fz_tx f) = wd_bindings tx0;
  lp_reached : forall a, reaching tx0 (fz_updates f) a (billed_wei a (fz_tx f));
}.

(** An operation the loop passes over. *)
Lemma looping_skip round tx0 f b op rest :
  looping round tx0 f (op :: rest) -> looping round tx0 (mkfinalizing (fz_tx f) b (fz_updates f)) rest.
Proof.
  intros [A B C D R N U W E F G Bi Re]. split; try done; [|by inversion N]. intros op' Hop. apply R. by right.
Qed.

Lemma looping_same round tx0 f op rest : looping round tx0 f (op :: rest) -> looping round tx0 f rest.
Proof. destruct f as [tx b us]. exact (looping_skip round tx0 (mkfinalizing tx b us) b op rest). Qed.

(** What the loop notes of an operation it finalizes. *)
Section noting.
Variables (round total : Z) (tx0 : WorkDB M) (f : finalizing (M := M)) (op : Operation) (rest : list Operation).
Hypothesis Hl : looping round tx0 f (op :: rest).
Hypothesis Hdone : op_Completed op = true.
Hypothesis Htotal : op_TotalBilled op = dec_string total.
Abbreviation auth := (op_AuthorizationID op).

Lemma noted_updates u : u ∈ fz_updates f ++ [emit op] -> exists op', wd_operations tx0 !! op_ID op' = Some op' /\ u = emit op' /\
  op_Completed op' = true /\ is_Some (<[auth := dec_string total]> (wd_billed (fz_tx f)) !! op_AuthorizationID op').
Proof.
  intros [Hu|Hu%list_elem_of_singleton]%elem_of_app.
  - destruct (lp_updates _ _ _ _ Hl u Hu) as (op' & Hop & He & Hc & Hb). exists op'. split_and!; try done.
    rewrite lookup_insert. by case_decide.
  - exists op. split_and!; try done; [apply (lp_rest _ _ _ _ Hl); by left|]. by rewrite lookup_insert_eq.
Qed.
Lemma noted_reached tx' a : wd_billed tx' = <[auth := dec_string total]> (wd_billed (fz_tx f)) ->
  reaching tx0 (fz_updates f ++ [emit op]) a (billed_wei a tx').
Proof.
  intros Hb. unfold billed_wei. rewrite Hb, lookup_insert. case_decide as Ha; [subst a|by apply reaching_more, (lp_reached _ _ _ _ Hl)].
  rewrite amount_dec. apply reaching_emitted; [|done]. apply elem_of_app. right. by left.
Qed.
Lemma noted_old k r : wd_receipts (fz_tx f) !! k = Some r ->
  wd_receipts tx0 !! k = Some r \/
  wr_ID r = k /\ wr_RoundID r = dec_string round /\ (exists d, wr_AttributedRevenueWei r = dec_string d /\ 0 < d) /\
  exists op', emit op' ∈ fz_updates f ++ [emit op] /\ k = receipt_key op' /\ billed_item tx0 (fz_updates f ++ [emit op]) op' r.
Proof.
  intros Hk. destruct (lp_new _ _ _ _ Hl k r Hk) as [Hold|(Hi & Hrd & Hd & o & Ho & Hk' & Hb)]; [by left|right]. split_and!; try done.
  exists o. split_and!; [apply elem_of_app; by left|done|by apply billed_item_more].
Qed.
End noting.

(** An operation with nothing new to receipt, then one with a difference. *)
Lemma looping_bill round tx0 f op rest total :
  (forall k op, wd_operations tx0 !! k = Some op -> op_ID op = k) ->
  looping round tx0 f (op :: rest) -> op_Completed op = true -> op_TotalBilled op = dec_string total ->
  0 <= total -> total = billed_wei (op_AuthorizationID op) (fz_tx f) ->
  looping round tx0 (mkfinalizing (put_billed (op_AuthorizationID op) (dec_string total) (op_Units op) (fz_tx f))
                       (fz_blocked f) (fz_updates f ++ [emit op])) rest.
Proof.
  intros Hid Hl Hc Htot Hn Ht. pose proof Hl as [A B C D R N U W E F G Bi Re]. split; try done.
  - intros op' Hop. apply R. by right.
  - by inversion N.
  - intros u Hu. by eapply noted_updates.
  - intros k r Hk. by eapply noted_old.
  - intros a raw. simpl. intros [[<- <-]|[_ Hr]]%lookup_insert_Some; [by exists total|by eapply E].
  - intros a Ha. simpl. rewrite lookup_insert. case_decide; [done|by apply F].
  - intros a. simpl. rewrite G. unfold billed_wei at 2. simpl. rewrite lookup_insert. case_decide; [subst a|done].
    by rewrite amount_dec, Ht.
  - intros a. by eapply noted_reached.
Qed.
Lemma looping_receipt round now tx0 f op rest a total :
  (forall k op, wd_operations tx0 !! k = Some op -> op_ID op = k) ->
  looping round tx0 f (op :: rest) -> op_Completed op = true -> op_TotalBilled op = dec_string total -> op_Emitted op = false ->
  wd_bindings (fz_tx f) !! op_AuthorizationID op = Some a ->
  0 < total - billed_wei (op_AuthorizationID op) (fz_tx f) -> 0 <= total ->
  let r units := delta_receipt s round now op a units (total - billed_wei (op_AuthorizationID op) (fz_tx f)) in
  forall units, looping round tx0
    (mkfinalizing (put_billed (op_AuthorizationID op) (dec_string total) (op_Units op) (put_receipt (r units) (fz_tx f)))
       (fz_blocked f) (fz_updates f ++ [emit op])) rest.
Proof.
  intros Hid Hl Hc Htot He Ha Hd Hn r units. pose proof Hl as [A B C D R N U W E F G Bi Re].
  assert (wd_operations tx0 !! op_ID op = Some op) as Hop by (apply R; by left).
  assert (wd_receipts (fz_tx f) !! receipt_key op = None) as Hnone by (apply R; [by left|done]).
  assert (op_ID op ∉ op_ID <$> rest) as Hfresh by by inversion N. split; try done.
  - intros k r' Hk. cbn [fz_tx put_billed put_receipt wd_receipts]. rewrite lookup_insert_ne; [by apply D|]. change (wr_ID (r units)) with (receipt_key op).
    intros <-. apply D in Hk. congruence.
  - intros op' Hin. split; [apply R; by right|]. intros He'. cbn [fz_tx put_billed put_receipt wd_receipts].
    rewrite lookup_insert_ne; [apply R; [by right|done]|].
    change (wr_ID (r units)) with (receipt_key op). intros Ek%receipt_key_inj. apply Hfresh. rewrite Ek.
    apply list_elem_of_fmap. by exists op'.
  - by inversion N.
  - intros u Hu. by eapply noted_updates.
  - intros k r'. simpl. intros [[<- <-]|[_ Hk]]%lookup_insert_Some; [|by eapply noted_old].
    right. split; [done|]. split; [done|]. split; [by eexists|]. exists op. split_and!; [apply elem_of_app; right; by left|done|].
    exists a, round, now, units, (billed_wei (op_AuthorizationID op) (fz_tx f)), (total - billed_wei (op_AuthorizationID op) (fz_tx f)).
    split_and!; [by rewrite <- Bi|done|by apply reaching_more|rewrite Htot; f_equal; lia].
  - intros b raw. simpl. intros [[<- <-]|[_ Hr]]%lookup_insert_Some; [by exists total|by eapply E].
  - intros b Hb. simpl. rewrite lookup_insert. case_decide; [done|by apply F].
  - intros b. cbn [fz_tx put_billed wd_receipts put_receipt]. change (wr_ID (r units)) with (receipt_key op).
    rewrite revenue_receipt, G by done. unfold billed_wei at 2. simpl. rewrite lookup_insert. unfold receipt_wei. simpl.
    rewrite SetString10_dec. simpl. case_decide as Hb.
    + subst b. rewrite bool_decide_true by done. rewrite amount_dec. lia.
    + rewrite bool_decide_false by done. unfold billed_wei. lia.
  - intros b. by eapply noted_reached.
Qed.

Lemma finalize_op_loops round now tx0 f f' op rest :
  wf_work tx0 -> finalize_op s round now f op = Ok f' -> looping round tx0 f (op :: rest) -> looping round tx0 f' rest.
Proof.
  intros Hwf Hf Hl. pose proof (wk_id _ Hwf) as Hid. unfold finalize_op in Hf.
  destruct (op_Completed op) eqn:Hc; [|injection Hf as <-; by eapply looping_skip]. simpl in Hf.
  destruct (op_Emitted op) eqn:He; [injection Hf as <-; by eapply looping_same|]. simpl in Hf.
  case_bool_decide; [injection Hf as <-; by eapply looping_same|].
  destruct (wk_total _ Hwf _ _ (proj1 (lp_rest _ _ _ _ Hl op ltac:(left))) Hc) as (total & Hn & Ht). rewrite Ht, SetString10_dec in Hf.
  destruct (prior_billed _) as [prior|] eqn:Hp; [|done].
  assert (prior = billed_wei (op_AuthorizationID op) (fz_tx f)) as -> by (unfold billed_wei, amount; by rewrite Hp).
  destruct (_ <? _); [done|]. destruct (Z.ltb_spec (total - billed_wei (op_AuthorizationID op) (fz_tx f)) 0); [done|].
  assert (op_with_progress (op_MinimumRound op) true (dec_string total) true op = emit op) as Hem by (unfold emit; by rewrite Hc, Ht).
  rewrite Hem in Hf.
  destruct (Z.ltb_spec 0 (total - billed_wei (op_AuthorizationID op) (fz_tx f))) as [Hd|Hd].
  - destruct (wd_bindings _ !! _) as [a|] eqn:Ha; [|done]. injection Hf as <-. by apply looping_receipt.
  - injection Hf as <-. apply looping_bill; [done|done|done|done|done|lia].
Qed.
Lemma finalize_ops_loops round now tx0 f f' ops :
  wf_work tx0 -> finalize_ops s round now f ops = Ok f' -> looping round tx0 f ops -> looping round tx0 f' [].
Proof.
  intros Hwf. revert f. induction ops as [|op ops IH]; intros f; cbn [finalize_ops]; [by intros [= <-]|].
  destruct (finalize_op s round now f op) as [f1|e] eqn:Hf; [|done]. intros Hr Hl. eapply IH; [done|].
  by eapply finalize_op_loops.
Qed.

(** The operations are marked after the loop. *)
Lemma mark_fields us tx :
  let tx' := foldl (fun tx op => put_operation (op_ID op) op tx) tx us in
  wd_meta tx' = wd_meta tx /\ wd_receipts tx' = wd_receipts tx /\ wd_billed tx' = wd_billed tx /\
  wd_inherited_baselines tx' = wd_inherited_baselines tx /\ wd_bindings tx' = wd_bindings tx /\
  wd_operations tx' = foldl (fun ops u => <[op_ID u := u]> ops) (wd_operations tx) us.
Proof. revert tx. induction us as [|u us IH]; intros tx; simpl; [done|]. apply (IH (put_operation (op_ID u) u tx)). Qed.

(** The operations [ops'] are those of [ops], some emitted since. *)
Definition marked (ops ops' : M Operation) : Prop :=
  forall k, option_Forall2 (fun op op' => op' = op \/ op' = emit op) (ops !! k) (ops' !! k).
Lemma emit_emit op : emit (emit op) = emit op.
Proof. done. Qed.

Lemma marked_all us (ops0 ops : M Operation) :
  (forall k op, ops0 !! k = Some op -> op_ID op = k) ->
  marked ops0 ops -> (forall u, u ∈ us -> exists op, ops0 !! op_ID op = Some op /\ u = emit op) ->
  let ops' := foldl (fun ops u => <[op_ID u := u]> ops) ops us in
  marked ops0 ops' /\ (forall u, u ∈ us -> ops' !! op_ID u = Some u) /\
  (forall k op, ops !! k = Some (emit op) -> ops' !! k = Some (emit op)) /\
  (forall a receipts, revenue_of a receipts ops' = revenue_of a receipts ops).
Proof.
  intros Hid. revert ops. induction us as [|u us IH]; intros ops Hm Hu; cbn [foldl]; [by split_and!; try done; intros ? ?%not_elem_of_nil|].
  destruct (Hu u ltac:(left)) as (op & Hop & ->). change (op_ID (emit op)) with (op_ID op).
  pose proof (Hm (op_ID op)) as Hmop. rewrite Hop in Hmop. inversion Hmop as [x op1 Ho Hx Hop1|]; subst.
  destruct (IH (<[op_ID op := emit op]> ops)) as (Hm' & Hin & Hkeep & Hrev).
  - intros k. rewrite lookup_insert. case_decide; [subst k; rewrite Hop; constructor; by right|apply Hm].
  - intros u' Hu'. apply Hu. by right.
  - split_and!.
    + exact Hm'.
    + intros u' [-> |Hu']%elem_of_cons; [|by apply Hin]. apply Hkeep. apply lookup_insert_eq.
    + intros k op' Hk. apply Hkeep. rewrite lookup_insert. case_decide as Hk'; [|done]. subst k. rewrite <- Hop1 in Hk.
      injection Hk as Hk. f_equal. destruct Ho as [-> | ->]; [|by rewrite <- Hk]. rewrite Hk. by rewrite emit_emit.
    + intros a receipts. rewrite Hrev. symmetry in Hop1. eapply revenue_same; [exact Hop1|by destruct Ho as [-> | ->]..].
Qed.

Lemma marked_from us (ops : M Operation) k op' :
  foldl (fun ops u => <[op_ID u := u]> ops) ops us !! k = Some op' -> ops !! k = Some op' \/ op' ∈ us.
Proof.
  revert ops. induction us as [|u us IH]; intros ops Hk; [by left|]. destruct (IH _ Hk) as [[[_ <-]|[_ Ho]]%lookup_insert_Some|Hin].
  - right. by left.
  - by left.
  - right. by right.
Qed.
Lemma marked_back ops ops' k op' : marked ops ops' -> ops' !! k = Some op' ->
  exists op, ops !! k = Some op /\ (op' = op \/ op' = emit op).
Proof. intros Hm Hk. specialize (Hm k). rewrite Hk in Hm. inversion Hm; subst. by eexists. Qed.

(** ** Every step keeps the books, and only adds *)
Record grows db db' : Prop := {
  gr_round : readRound (wd_meta db) <= readRound (wd_meta db');
  gr_kept : forall k r, wd_receipts db !! k = Some r -> wd_receipts db' !! k = Some r;
  gr_new : forall k r, wd_receipts db' !! k = Some r ->
             wd_receipts db !! k = Some r \/ exists n, wr_RoundID r = dec_string n /\ readRound (wd_meta db) <= n;
}.
Lemma grows_refl db : grows db db.
Proof. split; [done|done|by left]. Qed.
Lemma grows_trans db db' db'' : grows db db' -> grows db' db'' -> grows db db''.
Proof.
  intros [A B C] [A' B' C']. split; [lia|by eauto|]. intros k r Hk. destruct (C' k r Hk) as [Hk'|(n & Hn & Hle)]; [by apply C|].
  right. exists n. split; [done|lia].
Qed.

(** A step that touches neither receipts, operations, amounts nor the round. *)
Definition same_books db db' : Prop :=
  wd_operations db' = wd_operations db /\ wd_receipts db' = wd_receipts db /\ wd_billed db' = wd_billed db /\
  wd_inherited_baselines db' = wd_inherited_baselines db /\ readRound (wd_meta db') = readRound (wd_meta db) /\
  (forall a b, wd_bindings db !! a = Some b -> wd_bindings db' !! a = Some b).
Lemma same_books_exact db db' : wf_work db -> same_books db db' -> exact_work db'.
Proof.
  intros Hwf (Ho & Hr & Hb & Hi & _ & Hbind). pose proof (wk_exact _ Hwf) as Hx. apply (exact_carried db); try done.
  - split; [rewrite Ho; intros k op Hk He; by exists op|done|unfold inherited_wei; by rewrite Hi].
  - rewrite Ho. intros k op Hk He. split; [by eapply (ex_emitted _ Hx)|by exists op].
Qed.
Lemma same_books_steps db db' : wf_work db -> same_books db db' -> wf_work db' /\ grows db db'.
Proof.
  intros Hwf Hs. pose proof (same_books_exact _ _ Hwf Hs) as Hx. destruct Hwf as [A B C D E F _], Hs as (Ho & Hr & Hb & Hi & Hm & _).
  split; [|split; [lia|by rewrite Hr|rewrite Hr; by left]].
  split; unfold billed_wei, inherited_wei in *; rewrite ?Ho, ?Hr, ?Hb, ?Hi, ?Hm; done.
Qed.

Lemma work_issued_mono round round' ops ops' k r :
  issued round ops k r -> round <= round' ->
  (forall k op, ops !! k = Some op -> exists op', ops' !! k = Some op' /\ op_ID op' = op_ID op /\ (op_Emitted op = true -> op_Emitted op' = true)) ->
  issued round' ops' k r.
Proof.
  intros [I (op & Hop & He & Hk) (n & Hn & Hle) A] Hround Hops. split; [done| |exists n; split; [done|lia]|done].
  destruct (Hops _ _ Hop) as (op' & Hop' & Hid & He'). exists op'. rewrite Hid. split; [done|]. split; [by apply He'|].
  rewrite Hk. unfold receipt_key. by rewrite Hid.
Qed.

Lemma looped_exact round db f db' :
  wf_work db -> looping round db f [] -> wd_receipts db' = wd_receipts (fz_tx f) -> wd_billed db' = wd_billed (fz_tx f) ->
  wd_inherited_baselines db' = wd_inherited_baselines db -> wd_bindings db' = wd_bindings db ->
  marked (wd_operations db) (wd_operations db') -> (forall u, u ∈ fz_updates f -> wd_operations db' !! op_ID u = Some u) ->
  (forall k op, wd_operations db' !! k = Some op -> wd_operations db !! k = Some op \/ op ∈ fz_updates f) -> exact_work db'.
Proof.
  intros Hwf [A _ _ _ _ _ U W _ F _ _ Re] Hr Hb Hi Hbind Hm Hin Hfrom. pose proof (wk_exact _ Hwf) as Hx.
  assert (Hinh : forall a, inherited_wei a db' = inherited_wei a db) by (intros a; unfold inherited_wei; by rewrite Hi).
  assert (Hc : carries db db').
  { split; [|by rewrite Hbind|done]. intros k op Hop He. specialize (Hm k). rewrite Hop in Hm. inversion Hm as [x op' Ho|]; subst.
    exists op'. split; [done|]. by destruct Ho as [-> | ->]. }
  assert (Hreach : forall a n, reaching db (fz_updates f) a n -> reached db' a n).
  { intros a n [Hn|(op & Hu & <- & Ht)]; [by apply (reached_carried db)|]. right. exists (emit op). split; [by apply (Hin (emit op))|done]. }
  split.
  - intros k r. rewrite Hr. intros Hk. destruct (W k r Hk) as [Hold|(_ & _ & _ & op & Hu & _ & a & n & now & units & prior & delta & Ha & -> & Hp & Ht)].
    + apply (itemized_carried db); [done|done|by eapply (ex_items _ Hx)].
    + exists (emit op), a, n, now, units, prior, delta. split_and!; try done; [by apply (Hin (emit op))|by rewrite Hbind|by apply Hreach].
  - intros a. replace (billed_wei a db') with (billed_wei a (fz_tx f)) by (unfold billed_wei; by rewrite Hb). apply Hreach, Re.
  - intros k op Hop He. rewrite Hb. destruct (Hfrom k op Hop) as [Hold|Hu].
    + destruct (ex_emitted _ Hx k op Hold He) as [Hd Hs]. split; [done|by apply F].
    + destruct (U op Hu) as (op0 & _ & -> & Hd & Hs). by split.
Qed.
Lemma Finalize_steps round now db : wf_work db -> wf_work (Finalize s round now db).2 /\ grows db (Finalize s round now db).2.
Proof.
  intros Hwf. unfold Finalize. destruct (Z.leb_spec round 0); [split; [done|apply grows_refl]|]. unfold Update.
  destruct (Z.ltb_spec round (readRound (wd_meta db))); [split; [done|apply grows_refl]|].
  destruct (finalize_ops _ _ _ _ _) as [f|e] eqn:Hf; [|split; [done|apply grows_refl]]. cbn [snd].
  assert (looping round db (mkfinalizing db ∅ []) (ForEach (wd_operations db)).*2) as Hl.
  { split; try done; try (by left); try apply (wk_books _ Hwf); try apply (wk_billed _ Hwf).
    - intros op Hop. apply list_elem_of_fmap in Hop as ([k op'] & -> & Hk). simpl. apply elem_of_ForEach in Hk. pose proof (wk_id _ Hwf _ _ Hk) as Hid.
      rewrite Hid. split; [done|]. intros He. rewrite <- Hid in Hk. apply (no_receipt (readRound (wd_meta db)) (wd_operations db)); try apply Hwf.
      intros op'' Hop. rewrite Hk in Hop. by injection Hop as <-.
    - replace (op_ID <$> (ForEach (wd_operations db)).*2) with ((ForEach (wd_operations db)).*1); [apply NoDup_ForEach_keys|].
      rewrite <- list_fmap_compose. apply list_fmap_ext. intros i [k op] Hi. simpl. symmetry. apply (wk_id _ Hwf).
      apply elem_of_ForEach. by eapply list_elem_of_lookup_2.
    - intros u Hu. by apply not_elem_of_nil in Hu.
    - intros a. left. apply (ex_reached _ (wk_exact _ Hwf)). }
  pose proof (finalize_ops_loops _ _ _ _ _ _ Hwf Hf Hl) as Hl'. clear Hl. pose proof Hl' as [A B C D _ _ U W E F G Bi Re].
  destruct (mark_fields (fz_updates f) (fz_tx f)) as (M1 & M2 & M3 & M4 & M6 & M5). set (tx' := foldl _ _ _) in *.
  rewrite A in M5. destruct (marked_all (fz_updates f) (wd_operations db) (wd_operations db)) as (Hm & Hin & _ & Hrev);
    [apply Hwf|intros k; destruct (wd_operations db !! k); constructor; by left
    |intros u Hu; destruct (U u Hu) as (op & Hop & Hue & _); by exists op|]. rewrite <- M5 in Hm, Hin, Hrev. split.
  - split; simpl; rewrite ?M2, ?M3, ?M4, ?C.
    + intros k op' Hk. destruct (marked_back _ _ _ _ Hm Hk) as (op & Hop & [-> | ->]); exact (wk_id _ Hwf k op Hop).
    + intros k op' Hk. destruct (marked_back _ _ _ _ Hm Hk) as (op & Hop & [-> | ->]); exact (wk_total _ Hwf k op Hop).
    + exact E.
    + intros a b Hb. destruct (wk_baseline _ Hwf a b Hb) as [Hd Hs]. split; [done|by apply F].
    + intros k r Hk. unfold readRound. simpl. destruct (W k r Hk) as [Hold|(Hi & Hrd & Hd & op & Hop & Hk' & _)].
      * apply (work_issued_mono (readRound (wd_meta db)) round (wd_operations db)); [by apply (wk_receipt _ Hwf)|lia|].
        intros k' op Hop. specialize (Hm k'). rewrite Hop in Hm. inversion Hm as [x op' Ho|]; subst. exists op'. split; [done|].
        by destruct Ho as [-> | ->].
      * split; [done| |exists round; split; [done|lia]|done]. exists (emit op). split; [by apply Hin|done].
    + intros a. rewrite Hrev, G. unfold billed_wei, inherited_wei. simpl. by rewrite M3, M4, C.
    + apply (looped_exact round db f); simpl; rewrite ?M4, ?M6; try done. intros k op. rewrite M5. apply marked_from.
  - split; simpl; rewrite ?M2; [unfold readRound at 2; simpl; lia|exact D|]. intros k r Hk.
    destruct (W k r Hk) as [Hold|(Hi & Hrd & _)]; [by left|]. right. exists round. split; [done|lia].
Qed.

Lemma Prepare_steps op db : op_Completed op = false -> op_Emitted op = false -> wf_work db ->
  wf_work (Prepare op db).2 /\ grows db (Prepare op db).2.
Proof.
  intros Hc He Hwf. unfold Prepare. set (op0 := op_with_id _ op). destruct (_ || _); [split; [done|apply grows_refl]|].
  unfold Update. destruct (_ && _); [split; [done|apply grows_refl]|].
  destruct (saved_authorization_check _ _) as [checked|e]; [|split; [done|apply grows_refl]]. cbn.
  destruct (wd_operations db !! _) as [prior|] eqn:Hk; [destruct (negb _); (split; [done|apply grows_refl])|].
  cbn [snd]. match goal with |- wf_work (put_operation _ ?o _) /\ _ => set (op1 := o) end.
  assert (wd_receipts db !! receipt_key op1 = None) as Hnone.
  { apply (no_receipt (readRound (wd_meta db)) (wd_operations db)); try apply Hwf.
    intros op' Hop. by pose proof (eq_trans (eq_sym Hk) Hop). }
  split; [|split; [done|done|by left]]. split; simpl; try apply Hwf.
  - intros k op' [[<- <-]|[_ Hop]]%lookup_insert_Some; [done|by apply (wk_id _ Hwf)].
  - intros k op' [[<- <-]|[_ Hop]]%lookup_insert_Some; [simpl; by rewrite Hc|by eapply (wk_total _ Hwf)].
  - intros k r Hr. apply (work_issued_mono (readRound (wd_meta db)) _ (wd_operations db)); [by apply (wk_receipt _ Hwf)|done|].
    intros k' op' Hop. exists op'. split; [|done]. rewrite lookup_insert_ne; [done|]. intros <-. by pose proof (eq_trans (eq_sym Hk) Hop).
  - intros a. rewrite revenue_new by done. apply (wk_books _ Hwf).
  - apply (exact_carried db); simpl; try done; [apply Hwf|split; [|done|done]|].
    + intros k op' Hop He'. exists op'. split; [|done]. simpl. rewrite lookup_insert_ne; [done|]. intros <-. by pose proof (eq_trans (eq_sym Hk) Hop).
    + intros k op' [[<- <-]|[_ Hop]]%lookup_insert_Some He'; [simpl in He'; congruence|].
      split; [by eapply (ex_emitted _ (wk_exact _ Hwf))|by exists op'].
Qed.

Lemma Complete_steps id cumulative db : wf_work db -> wf_work (Complete id cumulative db).2 /\ grows db (Complete id cumulative db).2.
Proof.
  intros Hwf. unfold Complete. destruct cumulative as [n|]; [|split; [done|apply grows_refl]].
  destruct (Z.ltb_spec n 0); [split; [done|apply grows_refl]|]. unfold Update.
  destruct (wd_operations db !! id) as [op|] eqn:Hop; [|split; [done|apply grows_refl]].
  destruct (_ && _) eqn:Hreplay; [split; [done|apply grows_refl]|]. cbn [snd].
  match goal with |- context [put_operation _ _ ?t] => set (tx := t) end.
  assert (same_books db tx) as Hsame by (unfold tx; by match goal with |- same_books _ (if ?c then _ else _) => destruct c end).
  destruct (same_books_steps _ _ Hwf Hsame) as [Hw Hg]. destruct Hsame as (Ho & Hr & Hb & Hi & Hm & _).
  assert (op_Emitted op = true -> op_TotalBilled op = dec_string n) as Hsealed.
  { intros [Hd _]%(ex_emitted _ (wk_exact _ Hwf) _ _ Hop). rewrite Hd in Hreplay. by apply negb_false_iff, bool_decide_eq_true in Hreplay. }
  clear Hreplay.
  match goal with |- wf_work (put_operation _ ?o _) /\ _ => set (op1 := o) end.
  split; [|destruct Hg as [G1 G2 G3]; by split]. split; simpl; try apply Hw.
  - intros k op' [[<- <-]|[_ Hk]]%lookup_insert_Some; [exact (wk_id _ Hwf _ _ Hop)|by apply (wk_id _ Hw)].
  - intros k op' [[<- <-]|[_ Hk]]%lookup_insert_Some; [by exists n|by eapply (wk_total _ Hw)].
  - intros k r Hk. apply (work_issued_mono (readRound (wd_meta tx)) _ (wd_operations tx)); [by apply (wk_receipt _ Hw)|done|].
    intros k' op' Hk'. rewrite lookup_insert. case_decide as E; [|by exists op']. subst k'. exists op1. split; [done|].
    rewrite Ho, Hop in Hk'. by injection Hk' as <-.
  - intros a. rewrite Ho, (revenue_same a _ _ _ op) by done. rewrite <- Ho. apply (wk_books _ Hw).
  - rewrite <- Ho in Hop. apply (exact_carried tx); simpl; try done; [apply Hw|split; [|done|done]|].
    + intros k op' Hk He. simpl. rewrite lookup_insert. case_decide as E; [subst k|by exists op']. rewrite Hop in Hk. injection Hk as <-.
      exists op1. split_and!; try done. symmetry. by apply Hsealed.
    + intros k op' [[<- <-]|[_ Hk]]%lookup_insert_Some He; [split; [done|by exists op]|].
      split; [by eapply (ex_emitted _ (wk_exact _ Hw))|by exists op'].
Qed.

Lemma SetInheritedBaseline_steps id predecessor billed units db : wf_work db ->
  wf_work (SetInheritedBaseline id predecessor billed units db).2 /\ grows db (SetInheritedBaseline id predecessor billed units db).2.
Proof.
  intros Hwf. unfold SetInheritedBaseline. destruct billed as [n|]; [|split; [done|apply grows_refl]].
  destruct (_ || _) eqn:Hguard; [split; [done|apply grows_refl]|]. assert (0 <= n) as Hn by (apply orb_false_iff in Hguard as [_ Hg]; lia). clear Hguard.
  unfold Update. destruct (wd_inherited_baselines db !! id) as [b|] eqn:Hb; [destruct (bool_decide _); (split; [done|apply grows_refl])|].
  case_bool_decide as Hbilled; [split; [done|apply grows_refl]|]. cbn [snd].
  assert (wd_billed db !! id = None) as Hnone by (destruct (wd_billed db !! id); [by destruct Hbilled|done]).
  split; [|by split; [done|done|left]]. split; simpl; try apply Hwf.
  - intros a raw [[<- <-]|[_ Hk]]%lookup_insert_Some; [by exists n|by eapply (wk_billed _ Hwf)].
  - intros a b [[<- <-]|[Hne Hk]]%lookup_insert_Some; [split; [by exists n|by rewrite lookup_insert_eq]|].
    rewrite lookup_insert_ne by done. by apply (wk_baseline _ Hwf).
  - intros a. rewrite (wk_books _ Hwf). unfold billed_wei, inherited_wei. simpl. rewrite !lookup_insert.
    case_decide; [subst a|done]. rewrite Hnone, Hb. simpl. rewrite !amount_dec. unfold amount. simpl. lia.
  - pose proof (wk_exact _ Hwf) as Hx. match goal with |- exact_work ?d => assert (carries db d) as Hc end.
    { split; [intros k op Hop He; by exists op|done|]. intros a Ha. unfold inherited_wei. simpl. rewrite lookup_insert_ne; [done|].
      intros <-. rewrite Hnone in Ha. by destruct Ha. }
    split.
    + intros k r Hk. apply (itemized_carried db); [done|done|by eapply (ex_items _ Hx)].
    + intros a. unfold billed_wei. simpl. rewrite lookup_insert. case_decide as E.
      * left. subst a. unfold inherited_wei. simpl. by rewrite lookup_insert_eq.
      * apply (reached_carried db); [done|unfold inherited_wei; simpl; by rewrite lookup_insert_ne|apply (ex_reached _ Hx)].
    + intros k op Hop He. destruct (ex_emitted _ Hx k op Hop He) as [Hd Hs]. split; [done|]. simpl. rewrite lookup_insert. by case_decide.
Qed.

Lemma wstep_steps db op : wf_work db -> wf_work (wstep db op) /\ grows db (wstep db op).
Proof.
  intros Hwf. destruct op; simpl; try (by apply Prepare_steps); try (by apply Complete_steps); try (by apply Finalize_steps);
    try (by apply SetInheritedBaseline_steps); apply same_books_steps; try done.
  - unfold SaveAuthorization. destruct (_ || _); [done|]. unfold Update. destruct (match _ with Some _ => _ | None => _ end); [done|].
    simpl. by destruct (wd_bindings db !! id).
  - unfold Bind. destruct (_ || _); [done|]. unfold Update. destruct (match _ with Some _ => _ | None => _ end) eqn:Hbound; [done|].
    destruct (_ && bindingDraining _ _); [done|]. split_and!; try done. cbn. intros x b Hx. rewrite lookup_insert.
    destruct (decide (auth = x)) as [->|]; [|done]. rewrite Hx in Hbound. by apply negb_false_iff, bool_decide_eq_true in Hbound as ->.
  - unfold BeginDrain. destruct (bool_decide _); [done|]. unfold Update. by destruct (wm_drain _).
  - unfold BeginDeviceDrain. destruct (_ || _); [done|]. unfold Update. by destruct (opt_bucket _ !! _).
  - unfold PauseTerms. destruct (bool_decide _); [done|]. unfold Update. destruct (_ && _); [done|]. by destruct (negb _).
  - unfold ActivateTerms. destruct (TermsPolicy _ _); [|done]. destruct (_ && _); [done|]. destruct (_ || _); [done|].
    destruct (CurrentObservedRound _ _); [|done]. destruct (DrainStatus _); [|done]. destruct (_ && _); [done|].
    destruct (_ || _); [done|]. destruct status as [[[[domain active]|]|e]|]; try done. destruct (_ || _); [done|].
    unfold Update. destruct (_ !! _); [by destruct (negb _)|done].
Qed.
Lemma wrun_steps ops db : wf_work db -> wf_work (wrun db ops) /\ grows db (wrun db ops).
Proof.
  revert db. induction ops as [|op ops IH]; intros db Hwf; simpl; [split; [done|apply grows_refl]|].
  destruct (wstep_steps db op Hwf) as [Hw Hg]. destruct (IH _ Hw) as [Hw' Hg']. split; [done|by eapply grows_trans].
Qed.

Lemma empty_wf db : wd_operations db = ∅ -> wd_receipts db = ∅ -> wd_billed db = ∅ -> wd_inherited_baselines db = ∅ -> wf_work db.
Proof.
  intros Ho Hr Hb Hi. split; rewrite ?Ho, ?Hr, ?Hb, ?Hi; intros; try (by match goal with E : _ !! _ = Some _ |- _ => rewrite lookup_empty in E end).
  - unfold revenue_of, billed_wei, inherited_wei. by rewrite Hb, Hi, msum_empty, !lookup_empty.
  - split; rewrite ?Ho, ?Hr; intros; try (by match goal with E : _ !! _ = Some _ |- _ => rewrite lookup_empty in E end).
    left. unfold billed_wei, inherited_wei. by rewrite Hb, Hi, !lookup_empty.
Qed.
Lemma Open_wf pool source broker db : Open pool source broker None = Ok (s, db) -> wf_work db.
Proof. unfold Open. destruct (_ || _); [done|]. intros [= _ <-]. by apply empty_wf. Qed.

(** ** Closed rounds *)
Lemma closed_entries round db db' :
  grows db db' -> round < readRound (wd_meta db) -> round_entries round db' = round_entries round db.
Proof.
  intros [G1 G2 G3] Hc. unfold round_entries. f_equal. apply ForEach_picks. intros k r Hr%bool_decide_eq_true. split; [|by apply G2].
  intros Hk. destruct (G3 k r Hk) as [?|(n & Hn & Hle)]; [done|]. rewrite Hn in Hr. apply (inj dec_string) in Hr. lia.
Qed.
Lemma Report_complete round now db rep : Report s round now db = Ok rep -> wp_Complete rep = true ->
  round < readRound (wd_meta db) /\ WorkDigest (round_entries round db) = Ok (wp_ReceiptDigest rep) /\
  wp_ReceiptCount rep = u64 (Z.of_nat (length (round_entries round db))).
Proof.
  unfold Report. destruct (_ || _) eqn:Hg; [by intros [= <-]|]. apply orb_false_iff in Hg as [Hc _].
  destruct (operation_hold _ _); [by intros [= <-]|]. destruct (unbound_hold _ _); [by intros [= <-]|].
  destruct (WorkDigest _) as [hash|e]; [|done]. intros [= <-] _. simpl. split; [lia|done].
Qed.

End steps.

Section ledger_theorems.
Context `{Bolt M} `{AuthWire}.

(** C24: over any run of operations on a new work ledger, the receipts of every authorization add up to exactly what was
    billed to it beyond the amount it inherited.  Every receipt is of an operation that was finalized, under that
    operation's key, in a round not later than the last observed: it names the member and the work the authorization is
    bound to, for the positive amount by which the operation's total exceeds the inherited amount or the total of another
    finalized operation of the authorization.  No receipt is ever changed or removed by what runs after. *)
Theorem receipts_match_billing (pool source broker : string) s (db0 : WorkDB M) (before after : list wop) :
  Open pool source broker None = Ok (s, db0) ->
  let db1 := wrun s db0 before in
  let db := wrun s db1 after in
  (forall auth, revenue_of s auth (wd_receipts db) (wd_operations db) = billed_wei auth db - inherited_wei auth db) /\
  (forall k r, wd_receipts db !! k = Some r -> issued s (readRound (wd_meta db)) (wd_operations db) k r /\ itemized s db r) /\
  (forall k r, wd_receipts db1 !! k = Some r -> wd_receipts db !! k = Some r).
Proof.
  intros Ho db1 db. assert (wf_work s db1) as Hwf1 by by eapply wrun_steps, Open_wf.
  destruct (wrun_steps s after db1 Hwf1) as [Hwf [_ Hkept _]]. split_and!; [apply Hwf| |exact Hkept].
  intros k r Hk. split; [by apply (wk_receipt _ _ Hwf)|by eapply (ex_items _ _ (wk_exact _ _ Hwf))].
Qed.

(** C25: a round that was reported complete is closed: whatever happens to the ledger afterwards, its contributions stay
    the same, and every later complete report of it has the same digest and count. *)
Theorem closed_round_immutable (pool source broker : string) s (db0 : WorkDB M) (before after : list wop)
    (round now now' : Z) (rep : WorkReport) :
  Open pool source broker None = Ok (s, db0) ->
  let db := wrun s db0 before in
  let db' := wrun s db after in
  Report s round now db = Ok rep -> wp_Complete rep = true ->
  round_entries round db' = round_entries round db /\
  (forall rep', Report s round now' db' = Ok rep' -> wp_Complete rep' = true ->
     wp_ReceiptDigest rep' = wp_ReceiptDigest rep /\ wp_ReceiptCount rep' = wp_ReceiptCount rep).
Proof.
  intros Ho db db' Hrep Hc. assert (wf_work s db) as Hwf by by eapply wrun_steps, Open_wf.
  destruct (Report_complete _ _ _ _ _ Hrep Hc) as (Hr & Hd & Hn).
  pose proof (closed_entries round db db' (proj2 (wrun_steps s after db Hwf)) Hr) as He. split; [exact He|].
  intros rep' Hrep' Hc'. destruct (Report_complete _ _ _ _ _ Hrep' Hc') as (_ & Hd' & Hn'). rewrite He in Hd', Hn'.
  rewrite Hd in Hd'. injection Hd' as <-. split; [done|congruence].
Qed.
End ledger_theorems.

(** ** A concrete ledger *)
#[export] Instance demo_wire : AuthWire := {|
  unmarshal_auth _ := None; unmarshal_partial _ := mkSpendAuthorization None ""; marshal_payload _ := None;
  marshal_auth _ := None; parse_time _ := None; format_time _ := "" |}.

Definition demo_store : WorkStore := mkWorkStore "pool" "source" "broker".
Definition demo_ledger : WorkDB (gmap string) :=
  match Open "pool" "source" "broker" None with Ok (_, db) => db | Err _ => new_work_db end.
Definition demo_attribution : Attribution := mkAttribution ∅ "v1" "member" "host|gpu" "host" "audio" "offer" "request".
(** 100 units for 7 wei, then 50 more for 2 wei and 5 more for nothing. *)
Definition demo_work : list wop :=
  [WBind "auth" demo_attribution;
   WPrepare "account" "auth" "advance" 1 "payer" 100 "" ""; WComplete (operationID "auth" 1) (Some 7);
   WPrepare "account" "auth" "advance" 2 "payer" 150 "" ""; WComplete (operationID "auth" 2) (Some 9);
   WPrepare "account" "auth" "settle" 3 "payer" 155 "" ""; WComplete (operationID "auth" 3) (Some 9);
   WFinalize 5 1000; WFinalize 6 2000].
Lemma demo_open : Open "pool" "source" "broker" None = Ok (demo_store, demo_ledger).
Proof. vm_refl. Qed.

Lemma receipts_match_billing_witness :
  let db := wrun demo_store demo_ledger demo_work in
  wd_billed db !! "auth" = Some "9" /\
  (fun kr => (wr_AttributedRevenueWei kr.2, wr_ActualUnits kr.2)) <$> ForEach (wd_receipts db) = [("7", 100); ("2", 50)] /\
  revenue_of demo_store "auth" (wd_receipts db) (wd_operations db) = 9 /\
  forall k r, wd_receipts db !! k = Some r -> wd_receipts (wrun demo_store db demo_work) !! k = Some r.
Proof.
  cbv zeta. split; [vm_refl|]. split; [vm_refl|].
  destruct (receipts_match_billing "pool" "source" "broker" demo_store demo_ledger demo_work demo_work demo_open) as (_ & _ & Hkept).
  destruct (receipts_match_billing "pool" "source" "broker" demo_store demo_ledger [] demo_work demo_open) as (Hsum & _ & _).
  split; [|exact Hkept]. change (wrun demo_store demo_ledger demo_work) with (wrun demo_store (wrun demo_store demo_ledger []) demo_work).
  rewrite Hsum. vm_refl.
Defined.

Lemma closed_round_immutable_witness :
  let db := wrun demo_store demo_ledger demo_work in
  let after := [WPrepare "account" "auth" "settle" 4 "payer" 200 "" ""; WComplete (operationID "auth" 4) (Some 20); WFinalize 7 3000] in
  length (round_entries 5 db) = 2%nat /\ round_entries 5 (wrun demo_store db after) = round_entries 5 db.
Proof.
  cbv zeta. split; [vm_refl|].
  destruct (Report demo_store 5 2500 (wrun demo_store demo_ledger demo_work)) as [rep|e] eqn:Hrep; [|by vm_compute in Hrep].
  refine (proj1 (closed_round_immutable "pool" "source" "broker" demo_store demo_ledger demo_work _ 5 2500 0 rep demo_open Hrep _)).
  assert (match Report demo_store 5 2500 (wrun demo_store demo_ledger demo_work) with Ok r => wp_Complete r | Err _ => false end = true)
    as Hc by vm_refl.
  by rewrite Hrep in Hc.
Defined.

(** The last 5 of the 155 units were finalized, but no receipt reports them:
    units that add nothing to the bill are counted as receipted all the same. *)
Lemma unpriced_units_unreported :
  let db := wrun demo_store demo_ledger demo_work in
  wd_units db !! "auth" = Some 155 /\
  foldr (fun kr n => wr_ActualUnits kr.2 + n) 0 (ForEach (wd_receipts db)) = 150.
Proof. cbv zeta. split; vm_refl. Qed.
