(* ===== verification/WorkClientSpec.v ===== *)
(** * What one refused operation does to the work ledger

    [Flush] repeats every operation left without an answer before it finalizes
    anything.  One that the receiver keeps refusing therefore holds back the
    receipts of everybody else, for ever; and its sequence number cannot be used
    for anything else. *)
From S2P Require Import Prelude.
From S2P Require Import GoBytes.
From S2P Require Import Bolt.
From S2P Require Import Actions.
From S2P Require Import Spendauth.
From S2P Require Import WorkLedger.
From S2P Require Import WorkClient.
From S2P Require Import WorkLedgerSpec.

Section refused.
Context `{Bolt M} `{AuthWire} `{AccountClient R} (cl : WorkClient).
Implicit Types (db : WorkDB M) (s : CState M R) (op : Operation).

(** An advance the receiver refuses whenever it is asked. *)
Definition refused op : Prop :=
  op_Kind op = "advance" /\
  forall target v, exists e, (ac_AdvanceAuthorization (mkAdvanceRequest (op_WholesaleAccountID op) (op_Payer op)
    (op_AuthorizationID op) (op_Units op) target (op_Sequence op) (op_PaymentBytes op)) v).1 = Err e.

(** Nothing was finalized, receipted or delivered between two ledgers. *)
Definition frozen db db' : Prop :=
  wd_receipts db' = wd_receipts db /\ wd_delivered db' = wd_delivered db /\ wd_billed db' = wd_billed db /\
  wd_units db' = wd_units db /\ wd_meta db' = wd_meta db.
Lemma frozen_trans db db' db'' : frozen db db' -> frozen db' db'' -> frozen db db''.
Proof. unfold frozen. intuition congruence. Qed.

(** [db'] is a ledger in which [op] still waits. *)
Definition waits op db db' : Prop :=
  frozen db db' /\ wf_work (cl_Store cl) db' /\ wd_operations db' !! op_ID op = Some op.

Lemma Complete_other op id cumulative db :
  wf_work (cl_Store cl) db -> wd_operations db !! op_ID op = Some op -> id <> op_ID op ->
  waits op db (Complete id cumulative db).2.
Proof.
  intros Hwf Hop Hne. split; [|split; [by apply Complete_steps|]].
  - unfold Complete. destruct cumulative as [n|]; [|done]. destruct (_ <? _); [done|]. unfold Update.
    destruct (wd_operations db !! id); [|done]. destruct (_ && _); [done|]. by destruct (_ && _).
  - unfold Complete. destruct cumulative as [n|]; [|done]. destruct (_ <? _); [done|]. unfold Update.
    destruct (wd_operations db !! id); [|done]. destruct (_ && _); [done|]. cbn [snd]. simpl.
    rewrite lookup_insert_ne by done. by destruct (_ && _).
Qed.

(** Replaying another operation leaves [op] waiting; replaying [op] fails. *)
Lemma replay_other op op' s :
  wf_work (cl_Store cl) (cs_db s) -> wd_operations (cs_db s) !! op_ID op = Some op -> op_ID op' <> op_ID op ->
  waits op (cs_db s) (cs_db (replay_operation op' s).2).
Proof.
  intros Hwf Hop Hne. unfold replay_operation, bind at 1.
  match goal with |- context [match ?m s with _ => _ end] => assert (cs_db (m s).2 = cs_db s) as Hdb; [|destruct (m s) as [[billed|e] s']] end.
  - case_bool_decide; unfold bind, billed_in, ret, fail, remote.
    + case_bool_decide; [|destruct (SetString10 _); [|done]]; (destruct (ac_AdvanceAuthorization _ _) as [[[a|]|e] v]; try done; simpl; by destruct (_ =? _)).
    + destruct (ac_SettleAuthorization _ _) as [[[a|]|e] v]; try done. simpl. by destruct (_ =? _).
  - simpl in Hdb. unfold ledger. pose proof (Complete_other op (op_ID op') billed (cs_db s') ltac:(by rewrite Hdb) ltac:(by rewrite Hdb) Hne) as Hw.
    destruct (Complete _ _ _) as [r db']. simpl in *. by rewrite Hdb in Hw.
  - simpl in *. rewrite Hdb. done.
Qed.
Lemma replay_refused op s : refused op ->
  (exists e, (replay_operation op s).1 = Err e) /\ cs_db (replay_operation op s).2 = cs_db s.
Proof.
  intros [Hk Hr]. unfold replay_operation. rewrite Hk, (bool_decide_true ("advance" = "advance")) by done.
  unfold bind, billed_in, ret, fail, remote. case_bool_decide as Ht.
  - destruct (Hr None (cs_receiver s)) as [e He]. destruct (ac_AdvanceAuthorization _ _) as [r v]. simpl in He. subst r. simpl. by eauto.
  - destruct (SetString10 _) as [n|]; [|by eauto].
    destruct (Hr (Some n) (cs_receiver s)) as [e He]. destruct (ac_AdvanceAuthorization _ _) as [r v]. simpl in He. subst r. simpl. by eauto.
Qed.

Lemma replay_all_refused op ops s :
  refused op -> wf_work (cl_Store cl) (cs_db s) -> wd_operations (cs_db s) !! op_ID op = Some op ->
  (forall op', op' ∈ ops -> op_ID op' = op_ID op -> op' = op) -> op ∈ ops ->
  (exists e, (replay_all ops s).1 = Err e) /\ waits op (cs_db s) (cs_db (replay_all ops s).2).
Proof.
  intros Hr. revert s. induction ops as [|op' ops IH]; intros s Hwf Hop Hid Hin; [by apply not_elem_of_nil in Hin|].
  cbn [replay_all]. unfold bind. destruct (decide (op_ID op' = op_ID op)) as [He|Hne].
  - assert (op' = op) as -> by (apply Hid; [by left|done]). destruct (replay_refused op s Hr) as [[e He1] He2].
    destruct (replay_operation op s) as [r s']. simpl in *. subst r. split; [by exists e|]. simpl. by rewrite He2.
  - pose proof (replay_other op op' s Hwf Hop Hne) as Hw. destruct (replay_operation op' s) as [[[]|e] s'].
    + simpl in Hw. destruct Hw as (Hf & Hwf' & Hop'). destruct (IH s') as [He Hw]; [done|done| | |].
      * intros o Ho. apply Hid. by right.
      * apply elem_of_cons in Hin as [->|]; [by destruct Hne|done].
      * split; [exact He|]. destruct Hw as (Hf' & ?). split; [by eapply frozen_trans|done].
    + split; [by exists e|done].
Qed.

(** An action that starts with a failing one fails with it. *)
Lemma bind_fails {S E A B} (m : st S E A) (f : A -> st S E B) (t : S) :
  (exists e, (m t).1 = Err e) -> (exists e, (bind m f t).1 = Err e) /\ (bind m f t).2 = (m t).2.
Proof. intros [e He]. unfold bind. destruct (m t) as [r t']. simpl in He. subst r. by eauto. Qed.

Lemma Flush_refused op now s :
  refused op -> op_Completed op = false -> wf_work (cl_Store cl) (cs_db s) -> wd_operations (cs_db s) !! op_ID op = Some op ->
  (exists e, (Flush cl now s).1 = Err e) /\ waits op (cs_db s) (cs_db (Flush cl now s).2).
Proof.
  intros Hr Hc Hwf Hop.
  destruct (replay_all_refused op (Pending (cs_db s)) s Hr Hwf Hop) as [[e He] Hw].
  - intros op' Hin He. unfold Pending in Hin. rewrite filter_values in Hin. apply list_elem_of_fmap in Hin as ([k o] & -> & Ho).
    apply list_elem_of_filter in Ho as [_ Ho%elem_of_ForEach]. simpl in *. rewrite <- (wk_id _ _ Hwf _ _ Ho), He in Ho. congruence.
  - unfold Pending. rewrite filter_values. apply list_elem_of_fmap. exists (op_ID op, op). split; [done|].
    apply list_elem_of_filter. simpl. rewrite Hc. split; [done|by apply elem_of_ForEach].
  - unfold Flush. change (bind (look ?f) ?k s) with (k (Pending (cs_db s)) s). cbv beta.
    match goal with |- context [bind (replay_all ?ops) ?k s] => destruct (bind_fails (replay_all ops) k s) as [Hf ->]; [by exists e|done] end.
Qed.

Lemma flushes_refused op nows s :
  refused op -> op_Completed op = false -> wf_work (cl_Store cl) (cs_db s) -> wd_operations (cs_db s) !! op_ID op = Some op ->
  waits op (cs_db s) (cs_db (foldl (fun s now => (Flush cl now s).2) s nows)).
Proof.
  revert s. induction nows as [|now nows IH]; intros s Hr Hc Hwf Hop; simpl; [done|].
  destruct (Flush_refused op now s Hr Hc Hwf Hop) as [_ (Hf & Hwf' & Hop')].
  destruct (IH (Flush cl now s).2 Hr Hc Hwf' Hop') as (Hf' & ?). split; [by eapply frozen_trans|done].
Qed.

(** Once an advance was prepared that the receiver refuses, every flush fails, however often it is repeated: no
    receipt of any authorization is written or delivered and no round is observed, and the refused operation still
    waits; and its sequence number is burnt, since preparing any other operation under it is refused too. *)
Theorem refused_operation_blocks_flush (pool source broker : string) (store : WorkStore) (db0 : WorkDB M) (before : list wop)
    (op : Operation) (nows : list Z) (now : Z) s :
  Open pool source broker None = Ok (store, db0) -> cl_Store cl = store ->
  cs_db s = wrun store db0 before -> op ∈ Pending (cs_db s) -> refused op ->
  let s' := foldl (fun s now => (Flush cl now s).2) s nows in
  (exists e, (Flush cl now s').1 = Err e) /\ frozen (cs_db s) (cs_db s') /\ op ∈ Pending (cs_db s') /\
  (forall op', operationID (op_AuthorizationID op') (op_Sequence op') = op_ID op ->
     op_with_id (op_ID op) op' <> op_with_progress 0 false "" false op -> exists e, (Prepare op' (cs_db s')).1 = Err e).
Proof.
  intros Ho Hcl Hs Hin Hr s'. assert (wf_work (cl_Store cl) (cs_db s)) as Hwf by (rewrite Hcl, Hs; by eapply wrun_steps, Open_wf).
  unfold Pending in Hin. rewrite filter_values in Hin. apply list_elem_of_fmap in Hin as ([k o] & -> & Ho').
  apply list_elem_of_filter in Ho' as [Hc Hk%elem_of_ForEach]. simpl in Hc, Hk, Hr. apply negb_true_iff in Hc.
  rewrite <- (wk_id _ _ Hwf _ _ Hk) in Hk. cbn [snd] in *. destruct (flushes_refused o nows s Hr Hc Hwf Hk) as (Hf & Hwf' & Hop').
  fold s' in Hf, Hwf', Hop'. split; [by apply (Flush_refused o now s')|]. split; [exact Hf|]. split.
  - unfold Pending. rewrite filter_values. apply list_elem_of_fmap. exists (op_ID o, o). split; [done|].
    apply list_elem_of_filter. simpl. rewrite Hc. split; [done|by apply elem_of_ForEach].
  - intros op' Hid Hne. unfold Prepare. rewrite Hid. destruct (_ || _); [by eexists|]. unfold Update.
    destruct (_ && _); [by eexists|]. destruct (saved_authorization_check _ _); [|by eexists]. cbn.
    rewrite Hop'. rewrite bool_decide_false; [by eexists|]. intros E. by destruct Hne.
Qed.
End refused.

(** ** A run: the second of three advances is refused *)
#[local] Instance refusing : AccountClient unit := {|
  ac_AdmitAuthorization _ v := (Err (WorkErr "refused"), v);
  ac_AdvanceAuthorization _ v := (Err (WorkErr "refused"), v);
  ac_SettleAuthorization _ v := (Err (WorkErr "refused"), v);
  ac_GetSpendAuthorization _ _ _ v := (Ok None, v);
  ac_CancelAuthorizationAdmission _ v := (Ok None, v);
  ac_CloseUnexecutedAuthorization _ _ _ _ v := (Ok tt, v);
  ac_RoundRevenue _ v := (Ok (Some (mkRoundClock "source" 7 "")), v);
  ac_UpsertWorkReceipt _ v := (Ok tt, v);
|}.
Definition stuck_work : list wop :=
  [WBind "auth" demo_attribution;
   WPrepare "account" "auth" "advance" 1 "payer" 100 "" ""; WComplete (operationID "auth" 1) (Some 7);
   WPrepare "account" "auth" "advance" 2 "payer" 150 "" ""].
Definition stuck_op : Operation :=
  mkOperation "account" (operationID "auth" 2) "auth" "advance" 2 "payer" 150 "" "" 0 false "" false.

Lemma refused_operation_blocks_flush_witness :
  let s := mkCState (wrun demo_store demo_ledger stuck_work) tt in
  let s' := (Flush (mkWorkClient false demo_store true) 4000 (Flush (mkWorkClient false demo_store true) 3000 s).2).2 in
  (exists e, (Flush (mkWorkClient false demo_store true) 5000 s').1 = Err e) /\ ForEach (wd_receipts (cs_db s')) = [].
Proof.
  cbv zeta. split; [|vm_refl].
  refine (proj1 (refused_operation_blocks_flush (mkWorkClient false demo_store true) "pool" "source" "broker" demo_store demo_ledger
    stuck_work stuck_op [3000; 4000] 5000 (mkCState (wrun demo_store demo_ledger stuck_work) tt) demo_open eq_refl eq_refl _ _)).
  - cbn [cs_db]. assert (Pending (wrun demo_store demo_ledger stuck_work) = [stuck_op]) as -> by vm_refl. by apply list_elem_of_singleton.
  - split; [done|]. intros target v. by eexists.
Defined.
