(* ===== verification/SessionStore.v ===== *)
(** * The broker's durable store of sessions and exchanges

    capability-broker/internal/sessionstore (sessionstore.go, revisions.go,
    revision_outcomes.go, topups.go, coverage.go, settlement_envelope.go,
    settlement_domain.go): one record per paid session, the reservations of
    opens in flight, the answers given to authorization revisions, and the
    evidence for saying that a request was never admitted.  [JobStore] has the
    records of single exchanges (jobs.go, job_recovery.go), in the same database.

    Buckets hold decoded records: the sealing of secrets at rest (AES-GCM) and
    decoding errors are left out.  A bucket the code creates on first use is
    empty before; nothing in the code tells the two apart. *)
From S2P Require Import Prelude.
From S2P Require Import GoBytes.
From S2P Require Import GoCodecs.
From S2P Require Import Bolt.
From S2P Require Import Fences.

Open Scope record_scope.

(** ** Data *)

(** What was decided about a revision, and why. *)
Record RevisionDecision := mkRevisionDecision {
  rd_RequestedReservationWei : string;
  rd_ReservationWei : string;
  rd_BilledWei : string;
  rd_ActualUnits : Z;
  rd_MaxUnits : Z;
  rd_MaxDebitWei : string;
  rd_Outcome : string;
  rd_Reason : string;
  rd_Stage : string;
  rd_ReceiverCode : string;
  rd_SessionID : string;
  rd_GatewaySessionID : string;
  rd_RequestID : string;
  rd_AuthorizationID : string;
  rd_PredecessorID : string;
  rd_Revision : Z;
  rd_ObservedAt : Z;
  rd_NextRetryAt : option Z;
}.
#[export] Instance RevisionDecision_eta : Eta RevisionDecision := fun r => mkRevisionDecision
  (rd_RequestedReservationWei r) (rd_ReservationWei r) (rd_BilledWei r) (rd_ActualUnits r) (rd_MaxUnits r)
  (rd_MaxDebitWei r) (rd_Outcome r) (rd_Reason r) (rd_Stage r) (rd_ReceiverCode r) (rd_SessionID r)
  (rd_GatewaySessionID r) (rd_RequestID r) (rd_AuthorizationID r) (rd_PredecessorID r) (rd_Revision r)
  (rd_ObservedAt r) (rd_NextRetryAt r).

(** A revision of the authorization whose outcome is not known yet. *)
Record RevisionIntent := mkRevisionIntent {
  ri_RequestID : string;
  ri_AuthorizationBytes : string;
  ri_PaymentBytes : string;
  ri_Fingerprint : string;
  ri_ReservationWei : string;
  ri_LeaseExpiresAt : Z;
  ri_Failures : Z;
  ri_NextRetryAt : option Z;
  ri_Decision : option RevisionDecision;
  ri_CancelRequested : bool;
  ri_Evidence : string;
}.
#[export] Instance RevisionIntent_eta : Eta RevisionIntent := fun r => mkRevisionIntent (ri_RequestID r)
  (ri_AuthorizationBytes r) (ri_PaymentBytes r) (ri_Fingerprint r) (ri_ReservationWei r) (ri_LeaseExpiresAt r)
  (ri_Failures r) (ri_NextRetryAt r) (ri_Decision r) (ri_CancelRequested r) (ri_Evidence r).

Record GrantAudit := mkGrantAudit {
  ga_ID : string;
  ga_Operations : list string;
  ga_SecretHash : string;
  ga_ExpiresAt : Z;
}.

(** [Record] of the code.  A zero time that the code tells apart is [None]. *)
Record SessionRecord := mkSessionRecord {
  se_WholesaleAccountID : string;
  se_LastRevision : option RevisionDecision;
  se_RevisionIntent : option RevisionIntent;
  se_SessionID : string;
  se_GatewaySessionID : string;
  se_RunnerSessionID : string;
  se_WorkID : string;
  se_Capability : string;
  se_Offering : string;
  se_BackendRef : string;
  se_QuoteID : string;
  se_QuoteVersion : Z;
  se_ConstraintFingerprint : string;
  se_RouteFingerprint : string;
  se_AcceptedPriceWei : string;
  se_AcceptedPricePerUnits : Z;
  se_Sender : string;
  se_PaymentClosed : bool;
  se_RunnerTerminated : bool;
  se_SettlementDomainID : string;
  se_AccountAuthorizationID : string;
  se_AuthorizationMaxUnits : Z;
  se_AuthorizationMaxDebitWei : string;
  se_AuthorizationReservedWei : string;
  se_AuthorizationReleasedWei : string;
  se_CredentialHash : string;
  se_CallbackTokenHash : string;
  se_OpenFingerprint : string;
  se_ReplayMaterial : string;
  se_DescriptorSchema : string;
  se_DescriptorPublic : string;
  se_DescriptorPrivate : string;
  se_Grants : list GrantAudit;
  se_RotationGeneration : Z;
  se_SettlementSeq : Z;
  se_TerminalSettlement : string;
  se_TerminalSettlementEnvelope : string;
  se_FundedWei : string;
  se_BilledWei : string;
  se_PaymentCumulativeUnits : Z;
  se_GenerationFundedWei : string;
  se_PredecessorWorkID : string;
  se_GenerationStartUnits : Z;
  se_LastEventID : string;
  se_LastSequence : Z;
  se_OutputState : string;
  se_OutputStateSince : option Z;
  se_OutputStalledAt : option Z;
  se_LastOutputAt : option Z;
  se_LastFailureCode : string;
  se_Unit : string;
  se_ClaimedTotal : Z;
  se_DebitedTotal : Z;
  se_DebitSeq : Z;
  se_PendingDebitSeq : Z;
  se_LeaseExpiresAt : option Z;
  se_LastEventAt : Z;
  se_State : string;
  se_CloseReason : string;
  se_CapacityRef : string;
  se_CreatedAt : option Z;
  se_UpdatedAt : Z;
  se_EndedAt : option Z;
}.
#[export] Instance SessionRecord_eta : Eta SessionRecord := fun r => mkSessionRecord (se_WholesaleAccountID r)
  (se_LastRevision r) (se_RevisionIntent r) (se_SessionID r) (se_GatewaySessionID r) (se_RunnerSessionID r)
  (se_WorkID r) (se_Capability r) (se_Offering r) (se_BackendRef r) (se_QuoteID r) (se_QuoteVersion r)
  (se_ConstraintFingerprint r) (se_RouteFingerprint r) (se_AcceptedPriceWei r) (se_AcceptedPricePerUnits r)
  (se_Sender r) (se_PaymentClosed r) (se_RunnerTerminated r) (se_SettlementDomainID r) (se_AccountAuthorizationID r)
  (se_AuthorizationMaxUnits r) (se_AuthorizationMaxDebitWei r) (se_AuthorizationReservedWei r)
  (se_AuthorizationReleasedWei r) (se_CredentialHash r) (se_CallbackTokenHash r) (se_OpenFingerprint r)
  (se_ReplayMaterial r) (se_DescriptorSchema r) (se_DescriptorPublic r) (se_DescriptorPrivate r) (se_Grants r)
  (se_RotationGeneration r) (se_SettlementSeq r) (se_TerminalSettlement r) (se_TerminalSettlementEnvelope r)
  (se_FundedWei r) (se_BilledWei r) (se_PaymentCumulativeUnits r) (se_GenerationFundedWei r) (se_PredecessorWorkID r)
  (se_GenerationStartUnits r) (se_LastEventID r) (se_LastSequence r) (se_OutputState r) (se_OutputStateSince r)
  (se_OutputStalledAt r) (se_LastOutputAt r) (se_LastFailureCode r) (se_Unit r) (se_ClaimedTotal r)
  (se_DebitedTotal r) (se_DebitSeq r) (se_PendingDebitSeq r) (se_LeaseExpiresAt r) (se_LastEventAt r) (se_State r)
  (se_CloseReason r) (se_CapacityRef r) (se_CreatedAt r) (se_UpdatedAt r) (se_EndedAt r).

Record OpenAdmissionIntent := mkOpenAdmissionIntent {
  oi_AuthorizationBytes : string;
  oi_Record : SessionRecord;
}.
#[export] Instance OpenAdmissionIntent_eta : Eta OpenAdmissionIntent := fun r => mkOpenAdmissionIntent
  (oi_AuthorizationBytes r) (oi_Record r).

(** An open in flight: what was done on its behalf so far. *)
Record OpenReservation := mkOpenReservation {
  or_WholesaleAccountID : string;
  or_AdmissionTracked : bool;
  or_AdmissionIntent : option OpenAdmissionIntent;
  or_AdmissionCanceled : bool;
  or_BrokerSessionID : string;
  or_CapacityTracked : bool;
  or_CreateStarted : bool;
  or_RunnerTerminated : bool;
  or_RequestID : string;
  or_Fingerprint : string;
  or_Stage : string;
  or_WorkID : string;
  or_Sender : string;
  or_AccountAuthorization : bool;
  or_BackendRef : string;
  or_RunnerSessionID : string;
  or_CapacityRef : string;
  or_CreatedAt : Z;
}.
#[export] Instance OpenReservation_eta : Eta OpenReservation := fun r => mkOpenReservation (or_WholesaleAccountID r)
  (or_AdmissionTracked r) (or_AdmissionIntent r) (or_AdmissionCanceled r) (or_BrokerSessionID r)
  (or_CapacityTracked r) (or_CreateStarted r) (or_RunnerTerminated r) (or_RequestID r) (or_Fingerprint r) (or_Stage r)
  (or_WorkID r) (or_Sender r) (or_AccountAuthorization r) (or_BackendRef r) (or_RunnerSessionID r) (or_CapacityRef r)
  (or_CreatedAt r).

(** The recorded outcome of one revision ([TopUpRecord] of the code). *)
Record TopUpAnswer := mkTopUpAnswer {
  tu_RequestID : string;
  tu_SessionID : string;
  tu_Fingerprint : string;
  tu_LeaseExpiresAt : Z;
  tu_BalanceWei : string;
  tu_CreatedAt : Z;
  tu_ErrorCode : string;
  tu_ErrorDetail : string;
  tu_Decision : option RevisionDecision;
  tu_RevisionEvidence : string;
  tu_RevisionEnvelope : string;
}.
#[export] Instance TopUpAnswer_eta : Eta TopUpAnswer := fun r => mkTopUpAnswer (tu_RequestID r) (tu_SessionID r)
  (tu_Fingerprint r) (tu_LeaseExpiresAt r) (tu_BalanceWei r) (tu_CreatedAt r) (tu_ErrorCode r) (tu_ErrorDetail r)
  (tu_Decision r) (tu_RevisionEvidence r) (tu_RevisionEnvelope r).

(** A debit of an exchange that has not landed yet. *)
Record PendingDebit := mkPendingDebit {
  pd_WholesaleAccountID : string;
  pd_AuthorizationBytes : string;
  pd_Sender : string;
  pd_WorkID : string;
  pd_DebitSeq : Z;
  pd_Attempts : Z;
  pd_FirstFailedAt : option Z;
  pd_NextAttemptAt : Z;
  pd_LastError : string;
  pd_ReservedValueWei : string;
  pd_AccountFundingWei : string;
  pd_AccountVersion : Z;
  pd_ActualUnits : Z;
  pd_MeasuredUnits : Z;
  pd_WorkUnitName : string;
  pd_JobID : string;
  pd_RequestID : string;
}.
#[export] Instance PendingDebit_eta : Eta PendingDebit := fun r => mkPendingDebit (pd_WholesaleAccountID r)
  (pd_AuthorizationBytes r) (pd_Sender r) (pd_WorkID r) (pd_DebitSeq r) (pd_Attempts r) (pd_FirstFailedAt r)
  (pd_NextAttemptAt r) (pd_LastError r) (pd_ReservedValueWei r) (pd_AccountFundingWei r) (pd_AccountVersion r)
  (pd_ActualUnits r) (pd_MeasuredUnits r) (pd_WorkUnitName r) (pd_JobID r) (pd_RequestID r).

Record JobRecovery := mkJobRecovery {
  jr_Admission : PendingDebit;
  jr_PaymentBytes : string;
  jr_AdmissionRecorded : bool;
  jr_ExecutionStarted : bool;
  jr_UsageRecorded : bool;
  jr_IssuedAt : string;
}.
#[export] Instance JobRecovery_eta : Eta JobRecovery := fun r => mkJobRecovery (jr_Admission r) (jr_PaymentBytes r)
  (jr_AdmissionRecorded r) (jr_ExecutionStarted r) (jr_UsageRecorded r) (jr_IssuedAt r).

(** One exchange. *)
Record JobRecord := mkJobRecord {
  jb_AdmissionFailureReason : string;
  jb_Recovery : option JobRecovery;
  jb_RejectedAuthorization : string;
  jb_RequestID : string;
  jb_JobID : string;
  jb_Fingerprint : string;
  jb_BodyDigest : string;
  jb_Settlement : string;
  jb_State : string;
  jb_Status : Z;
  jb_WorkUnits : Z;
  jb_Unit : string;
  jb_Deadline : Z;
  jb_CreatedAt : Z;
  jb_EndedAt : option Z;
  jb_Pending : option PendingDebit;
}.
#[export] Instance JobRecord_eta : Eta JobRecord := fun r => mkJobRecord (jb_AdmissionFailureReason r) (jb_Recovery r)
  (jb_RejectedAuthorization r) (jb_RequestID r) (jb_JobID r) (jb_Fingerprint r) (jb_BodyDigest r) (jb_Settlement r)
  (jb_State r) (jb_Status r) (jb_WorkUnits r) (jb_Unit r) (jb_Deadline r) (jb_CreatedAt r) (jb_EndedAt r)
  (jb_Pending r).

Record nonAdmissionEntry := mknonAdmissionEntry {
  na_Envelope : string;
  na_ObservedAt : Z;
}.

Record admissionTombstone := mkadmissionTombstone {
  ad_JobID : string;
  ad_AdmittedAt : Z;
}.

(** The keys of the coverage bucket. *)
Record Coverage := mkCoverage {
  cv_started_at : option Z;
  cv_revision_coverage_started_at : option Z;
  cv_evidence_horizon : option Z;
  cv_settlement_domain_id : option string;
}.
#[export] Instance Coverage_eta : Eta Coverage := fun r => mkCoverage (cv_started_at r)
  (cv_revision_coverage_started_at r) (cv_evidence_horizon r) (cv_settlement_domain_id r).

(** The buckets. *)
Record SessionDB (M : Type -> Type) := mkSessionDB {
  sd_sessions : M SessionRecord;
  sd_open_requests : M string;
  sd_gateway_sessions : M string;
  sd_open_reservations : M OpenReservation;
  sd_topups : M TopUpAnswer;
  sd_revision_requests : M string;
  sd_coverage : Coverage;
  sd_non_admissions : M nonAdmissionEntry;
  sd_admitted : M admissionTombstone;
  sd_jobs : M JobRecord;
  sd_job_id_index : M string;
}.
Arguments mkSessionDB {M}.
Arguments sd_sessions {M}.
Arguments sd_open_requests {M}.
Arguments sd_gateway_sessions {M}.
Arguments sd_open_reservations {M}.
Arguments sd_topups {M}.
Arguments sd_revision_requests {M}.
Arguments sd_coverage {M}.
Arguments sd_non_admissions {M}.
Arguments sd_admitted {M}.
Arguments sd_jobs {M}.
Arguments sd_job_id_index {M}.

Inductive store_error :=
  | SessionNotFound
  | SessionExists
  | ErrGatewaySessionExists
  | ErrAmbiguous
  | ErrNonAdmissionIssued
  | ErrOpenInFlight
  | ErrRequestIDReuse
  | StoreErr (msg : string).
#[export] Instance store_error_eq_dec : EqDecision store_error.
Proof. solve_decision. Defined.

(** The states of a session and the stages of an open. *)
Definition StateActive : string := "active".
Definition StateWindingDown : string := "winding_down".
Definition StateEnded : string := "ended".
Definition StateFailed : string := "failed".
Definition ReservationReserved : string := "reserved".
Definition ReservationPaid : string := "paid".
Definition ReservationRunnerCreated : string := "runner_created".

Definition Terminal (r : SessionRecord) : bool :=
  bool_decide (se_State r = StateEnded) || bool_decide (se_State r = StateFailed).
Definition Closing (r : SessionRecord) : bool := Terminal r || bool_decide (se_State r = StateWindingDown).

Definition HashSecret (secret : string) : string := sha256 secret.
Definition VerifySecret (hash secret : string) : bool := (len hash =? 32) && bool_decide (hash = HashSecret secret).

Section store.
Context `{Bolt M}.
Implicit Types (tx db : SessionDB M) (r rec : SessionRecord).

Abbreviation sresult := (result store_error).

#[export] Instance SessionDB_eta : Eta (SessionDB M) := fun tx => mkSessionDB (sd_sessions tx) (sd_open_requests tx)
  (sd_gateway_sessions tx) (sd_open_reservations tx) (sd_topups tx) (sd_revision_requests tx) (sd_coverage tx)
  (sd_non_admissions tx) (sd_admitted tx) (sd_jobs tx) (sd_job_id_index tx).

Definition has {A} (b : M A) (k : string) : bool := bool_decide (is_Some (b !! k)).

(** ** Opening *)
Definition new_session_db : SessionDB M := mkSessionDB ∅ ∅ ∅ ∅ ∅ ∅ (mkCoverage None None None None) ∅ ∅ ∅ ∅.

Definition index_topup (index : M string) (t : string * TopUpAnswer) : M string := <[tu_RequestID t.2 := tu_SessionID t.2]> index.
Definition index_intent (index : M string) (s : string * SessionRecord) : M string :=
  match se_RevisionIntent s.2 with None => index | Some i => <[ri_RequestID i := se_SessionID s.2]> index end.
Definition migrateRevisionCoverage (now : Z) db : SessionDB M :=
  let c := sd_coverage db in
  db <| sd_coverage := c <| cv_revision_coverage_started_at := Some (default now (cv_revision_coverage_started_at c)) |> |>
     <| sd_revision_requests := foldl index_intent (foldl index_topup (sd_revision_requests db) (ForEach (sd_topups db)))
                                  (ForEach (sd_sessions db)) |>.

Definition CoverageStartedAt (now : Z) db : Z * SessionDB M :=
  let c := sd_coverage db in
  match cv_started_at c with
  | Some t => (t, db)
  | None => (now, db <| sd_coverage := c <| cv_started_at := Some now |> |>)
  end.
Definition RevisionCoverageStartedAt db : sresult Z :=
  match cv_revision_coverage_started_at (sd_coverage db) with
  | None => Err (StoreErr "cannot parse time")
  | Some t => Ok t
  end.

(** [file]: what the file holds, if it exists. *)
Definition Open (now : Z) (key : string) (file : option (SessionDB M)) : sresult (SessionDB M) :=
  if negb (len key =? 32) then Err (StoreErr "sealing key must be 32 bytes")
  else Ok (CoverageStartedAt now (migrateRevisionCoverage now (default new_session_db file))).2.

(** ** Sessions *)
Definition created (now : Z) rec : SessionRecord :=
  rec <| se_CreatedAt := Some (default now (se_CreatedAt rec)) |> <| se_UpdatedAt := now |>.

Definition Create (now : Z) rec db : sresult unit * SessionDB M :=
  if bool_decide (se_SessionID rec = "") then (Err (StoreErr "empty session id"), db)
  else Update (fun tx =>
    if has (sd_sessions tx) (se_SessionID rec) then Err SessionExists
    else Ok (tt, tx <| sd_sessions := <[se_SessionID rec := created now rec]> (sd_sessions tx) |>)) db.

Definition CreateIndexed (now : Z) rec (requestID : string) db : sresult unit * SessionDB M :=
  let id := se_SessionID rec in
  let gateway := se_GatewaySessionID rec in
  if bool_decide (id = "") || bool_decide (requestID = "") then (Err (StoreErr "empty session id or request id"), db)
  else Update (fun tx =>
    if has (sd_non_admissions tx) requestID then Err ErrNonAdmissionIssued
    else if has (sd_sessions tx) id || has (sd_open_requests tx) requestID then Err SessionExists
    else if negb (bool_decide (gateway = "")) && (has (sd_gateway_sessions tx) gateway || has (sd_sessions tx) gateway)
    then Err ErrGatewaySessionExists
    else Ok (tt, tx
      <| sd_open_reservations := delete requestID (sd_open_reservations tx) |>
      <| sd_sessions := <[id := created now rec]> (sd_sessions tx) |>
      <| sd_gateway_sessions := (if bool_decide (gateway = "") then sd_gateway_sessions tx
                                 else <[gateway := id]> (sd_gateway_sessions tx)) |>
      <| sd_open_requests := <[requestID := id]> (sd_open_requests tx) |>
      <| sd_admitted := <[requestID := mkadmissionTombstone id now]> (sd_admitted tx) |>)) db.

Definition SessionIDForRequest (requestID : string) db : sresult string :=
  match sd_open_requests db !! requestID with None => Err SessionNotFound | Some id => Ok id end.
Definition Get (id : string) db : sresult SessionRecord :=
  match sd_sessions db !! id with None => Err SessionNotFound | Some rec => Ok rec end.
Definition GetByGatewaySessionID (gateway : string) db : sresult SessionRecord :=
  if bool_decide (gateway = "") then Err SessionNotFound
  else match sd_gateway_sessions db !! gateway with None => Err SessionNotFound | Some id => Get id db end.

(** The only session of an authorization, or of the one before it. *)
Definition match_work (workID : string) (acc : sresult (option SessionRecord)) (kr : string * SessionRecord) :
    sresult (option SessionRecord) :=
  let! out := acc in
  let rec := kr.2 in
  if negb (bool_decide (se_WorkID rec = workID)) && negb (bool_decide (se_PredecessorWorkID rec = workID)) then Ok out
  else match out with
       | Some prior => if bool_decide (se_SessionID prior = se_SessionID rec) then Ok (Some rec) else Err ErrAmbiguous
       | None => Ok (Some rec)
       end.
Definition GetByWorkID (workID : string) db : sresult SessionRecord :=
  if bool_decide (workID = "") then Err SessionNotFound
  else
    let! out := foldl (match_work workID) (Ok None) (ForEach (sd_sessions db)) in
    match out with None => Err SessionNotFound | Some rec => Ok rec end.

(** [Store.Update]: a read-modify-write of one session. *)
Definition UpdateSession (now : Z) (id : string) (fn : SessionRecord -> sresult SessionRecord) db : sresult unit * SessionDB M :=
  Update (fun tx =>
    match sd_sessions tx !! id with
    | None => Err SessionNotFound
    | Some rec =>
        let! changed := fn rec in
        Ok (tt, tx <| sd_sessions := <[id := changed <| se_UpdatedAt := now |>]> (sd_sessions tx) |>)
    end) db.

Definition evictable (cutoff : Z) rec : bool :=
  Terminal rec && match se_EndedAt rec with None => false | Some ended => ended <? cutoff end.
Definition EvictTerminal (cutoff : Z) db : Z * SessionDB M :=
  let evict := List.filter (fun kr => evictable cutoff kr.2) (ForEach (sd_sessions db)) in
  let gateways := List.filter (fun g => negb (bool_decide (g = ""))) (se_GatewaySessionID <$> evict.*2) in
  (Z.of_nat (length evict), db <| sd_sessions := delete_keys evict.*1 (sd_sessions db) |>
                               <| sd_gateway_sessions := delete_keys gateways (sd_gateway_sessions db) |>).

Definition RecordTerminalSettlementEnvelope (now : Z) (id payload envelope : string) db : sresult string * SessionDB M :=
  Update (fun tx =>
    match sd_sessions tx !! id with
    | None => Err SessionNotFound
    | Some r =>
        if negb (Terminal r) || bool_decide (payload = "") || negb (bool_decide (se_TerminalSettlement r = payload))
        then Err (StoreErr "terminal settlement changed or missing")
        else
          let result := if bool_decide (se_TerminalSettlementEnvelope r = "") then envelope else se_TerminalSettlementEnvelope r in
          Ok (result, tx <| sd_sessions := <[id := r <| se_TerminalSettlementEnvelope := result |> <| se_UpdatedAt := now |>]>
                                             (sd_sessions tx) |>)
    end) db.

Definition BindSettlementDomain (id : string) db : sresult unit * SessionDB M :=
  if negb (ValidDomain id) then (Err (StoreErr "valid settlement domain required"), db)
  else Update (fun tx =>
    let c := sd_coverage tx in
    match cv_settlement_domain_id c with
    | Some prior => if negb (bool_decide (prior = id))
                    then Err (StoreErr "payment ledger differs from stored settlement domain")
                    else Ok (tt, tx <| sd_coverage := c <| cv_settlement_domain_id := Some id |> |>)
    | None => Ok (tt, tx <| sd_coverage := c <| cv_settlement_domain_id := Some id |> |>)
    end) db.

(** ** Opens in flight *)
Definition ReserveOpen (now : Z) (requestID fingerprint : string) db : sresult unit * SessionDB M :=
  if bool_decide (requestID = "") then (Err (StoreErr "empty request id"), db)
  else Update (fun tx =>
    if has (sd_non_admissions tx) requestID then Err ErrNonAdmissionIssued
    else if has (sd_open_requests tx) requestID then Err SessionExists
    else if has (sd_open_reservations tx) requestID then Err ErrOpenInFlight
    else
      let r := mkOpenReservation "" true None false "" false false false requestID fingerprint ReservationReserved "" "" false
                 "" "" "" now in
      Ok (tt, tx <| sd_open_reservations := <[requestID := r]> (sd_open_reservations tx) |>)) db.

Definition UpdateReservation (requestID : string) (fn : OpenReservation -> OpenReservation) db : sresult unit * SessionDB M :=
  Update (fun tx =>
    match sd_open_reservations tx !! requestID with
    | None => Err SessionNotFound
    | Some r => Ok (tt, tx <| sd_open_reservations := <[requestID := fn r]> (sd_open_reservations tx) |>)
    end) db.
Definition ReleaseReservation (requestID : string) db : SessionDB M :=
  db <| sd_open_reservations := delete requestID (sd_open_reservations db) |>.
Definition Reservation (requestID : string) db : sresult OpenReservation :=
  match sd_open_reservations db !! requestID with None => Err SessionNotFound | Some r => Ok r end.

(** ** Revisions of the authorization *)
Definition topupKey (sessionID requestID : string) : string := sessionID +:+ String zero_byte requestID.

Definition TopUpRecall (sessionID requestID fingerprint : string) db : sresult (option TopUpAnswer) :=
  match sd_topups db !! topupKey sessionID requestID with
  | None => Ok None
  | Some t => if negb (bool_decide (tu_Fingerprint t = fingerprint)) then Err ErrRequestIDReuse else Ok (Some t)
  end.
Definition TopUpRecord (now : Z) (sessionID requestID fingerprint : string) (lease : Z) (balance : string) db : SessionDB M :=
  let t := mkTopUpAnswer requestID sessionID fingerprint lease balance now "" "" None "" "" in
  db <| sd_topups := <[topupKey sessionID requestID := t]> (sd_topups db) |>.
Definition EvictTopUps (cutoff : Z) db : Z * SessionDB M :=
  let evict := List.filter (fun kt => tu_CreatedAt kt.2 <? cutoff) (ForEach (sd_topups db)) in
  (Z.of_nat (length evict), db <| sd_topups := delete_keys evict.*1 (sd_topups db) |>).

Definition BeginRevision (now : Z) (id : string) (intent : RevisionIntent) db : sresult unit * SessionDB M :=
  Update (fun tx =>
    if has (sd_non_admissions tx) (ri_RequestID intent) then Err ErrNonAdmissionIssued
    else
      match sd_sessions tx !! id with
      | None => Err SessionNotFound
      | Some r =>
          match se_RevisionIntent r with
          | Some _ => Err SessionExists
          | None =>
              if has (sd_revision_requests tx) (ri_RequestID intent) then Err ErrRequestIDReuse
              else Ok (tt, tx
                <| sd_revision_requests := <[ri_RequestID intent := id]> (sd_revision_requests tx) |>
                <| sd_sessions := <[id := r <| se_RevisionIntent := Some intent |> <| se_LastRevision := ri_Decision intent |>
                                            <| se_UpdatedAt := now |>]> (sd_sessions tx) |>)
          end
      end) db.

Definition commitRevision (now : Z) (id requestID fingerprint : string) (lease : Z) (balance code detail : string)
    (mutate : SessionRecord -> sresult SessionRecord) db : sresult unit * SessionDB M :=
  Update (fun tx =>
    match sd_sessions tx !! id with
    | None => Err SessionNotFound
    | Some rec =>
        match se_RevisionIntent rec with
        | None => Err (StoreErr "revision intent changed or missing")
        | Some intent =>
            if negb (bool_decide (ri_RequestID intent = requestID)) || negb (bool_decide (ri_Fingerprint intent = fingerprint))
            then Err (StoreErr "revision intent changed or missing")
            else
              let! changed := mutate rec in
              match se_RevisionIntent changed with
              | None => Err (StoreErr "nil pointer")
              | Some intent =>
                  let key := topupKey id requestID in
                  if has (sd_topups tx) key then Err ErrRequestIDReuse
                  else Ok (tt, tx
                    <| sd_sessions := <[id := changed <| se_LastRevision := ri_Decision intent |> <| se_RevisionIntent := None |>
                                                  <| se_UpdatedAt := now |>]> (sd_sessions tx) |>
                    <| sd_revision_requests := <[requestID := id]> (sd_revision_requests tx) |>
                    <| sd_topups := <[key := mkTopUpAnswer requestID id fingerprint lease balance now code detail
                                               (ri_Decision intent) (ri_Evidence intent) ""]> (sd_topups tx) |>)
              end
        end
    end) db.
Definition CommitRevision (now : Z) (id requestID fingerprint : string) (lease : Z) (balance : string)
    (mutate : SessionRecord -> sresult SessionRecord) db : sresult unit * SessionDB M :=
  commitRevision now id requestID fingerprint lease balance "" "" mutate db.
Definition RefuseRevision (now : Z) (id : string) (intent : RevisionIntent) (code detail : string) db : sresult unit * SessionDB M :=
  commitRevision now id (ri_RequestID intent) (ri_Fingerprint intent) (ri_LeaseExpiresAt intent) "" code detail Ok db.

Definition RevisionRequestSession (requestID : string) db : string := default "" (sd_revision_requests db !! requestID).
Definition GetRevision (id requestID : string) db : sresult TopUpAnswer :=
  match sd_topups db !! topupKey id requestID with None => Err SessionNotFound | Some t => Ok t end.
Definition RecordRevisionEnvelope (id requestID evidence envelope : string) db : sresult string * SessionDB M :=
  Update (fun tx =>
    match sd_topups tx !! topupKey id requestID with
    | None => Err SessionNotFound
    | Some t =>
        if bool_decide (evidence = "") || negb (bool_decide (tu_RevisionEvidence t = evidence)) then Err ErrRequestIDReuse
        else
          let result := if bool_decide (tu_RevisionEnvelope t = "") then envelope else tu_RevisionEnvelope t in
          Ok (result, tx <| sd_topups := <[topupKey id requestID := t <| tu_RevisionEnvelope := result |>]> (sd_topups tx) |>)
    end) db.

(** ** Evidence of what was never admitted *)
Definition HasJobRecord (requestID : string) db : bool * string :=
  match sd_jobs db !! requestID with None => (false, "") | Some rec => (true, jb_State rec) end.

(** An open whose admission the receiver canceled for good. *)
Definition canceled_open (r : OpenReservation) : bool := or_AdmissionCanceled r && bool_decide (is_Some (or_AdmissionIntent r)).

(** The answer is the envelope issued before, if any. *)
Definition RecordNonAdmission (requestID envelope : string) (observedAt : Z) db : sresult string * SessionDB M :=
  Update (fun tx =>
    if has (sd_jobs tx) requestID then Err SessionExists
    else if match sd_open_reservations tx !! requestID with Some r => negb (canceled_open r) | None => false end
    then Err SessionExists
    else if has (sd_open_requests tx) requestID || has (sd_admitted tx) requestID || has (sd_revision_requests tx) requestID
    then Err SessionExists
    else
      match sd_non_admissions tx !! requestID with
      | Some prior => Ok (na_Envelope prior, tx)
      | None => Ok ("", tx <| sd_non_admissions := <[requestID := mknonAdmissionEntry envelope observedAt]> (sd_non_admissions tx) |>)
      end) db.

Definition NonAdmissionFor (requestID : string) db : option string := na_Envelope <$> (sd_non_admissions db !! requestID).
Definition HasNonAdmission (requestID : string) db : bool := bool_decide (is_Some (NonAdmissionFor requestID db)).

Definition EvidenceHorizon (now : Z) db : Z * SessionDB M :=
  let '(coverage, after) := CoverageStartedAt now db in
  match cv_evidence_horizon (sd_coverage after) with
  | Some pruned => (if coverage <? pruned then pruned else coverage, after)
  | None => (coverage, after)
  end.
Definition WasAdmitted (requestID : string) db : option string := ad_JobID <$> (sd_admitted db !! requestID).

Definition EvictAdmissionTombstones (cutoff : Z) db : Z * SessionDB M :=
  let drop := List.filter (fun kt => ad_AdmittedAt kt.2 <? cutoff) (ForEach (sd_admitted db)) in
  let db := db <| sd_admitted := delete_keys drop.*1 (sd_admitted db) |> in
  let c := sd_coverage db in
  (Z.of_nat (length drop),
   match drop with
   | [] => db
   | _ =>
       if match cv_evidence_horizon c with Some prev => cutoff <? prev | None => false end then db
       else db <| sd_coverage := c <| cv_evidence_horizon := Some cutoff |> |>
   end).
Definition EvictNonAdmissions (cutoff : Z) db : Z * SessionDB M :=
  let drop := List.filter (fun ke => na_ObservedAt ke.2 <? cutoff) (ForEach (sd_non_admissions db)) in
  (Z.of_nat (length drop), db <| sd_non_admissions := delete_keys drop.*1 (sd_non_admissions db) |>).
End store.
