(* ===== verification/JobStore.v ===== *)
(** * The broker's durable records of exchanges

    capability-broker/internal/sessionstore (jobs.go, job_recovery.go, and the
    refused exchanges of jobs.go that coverage.go's evidence is about): one
    record per request id, begun before the backend is touched, finished with
    the outcome, kept for the operator's idempotency window, then evicted. *)
From S2P Require Import Prelude.
From S2P Require Import GoBytes.
From S2P Require Import Bolt.
From S2P Require Import SessionStore.

Open Scope record_scope.

Definition JobInFlight : string := "in_flight".
Definition JobTerminal : string := "terminal".
Definition JobPaymentRejected : string := "payment_rejected".
Definition JobAccountingPending : string := "accounting_pending".
Definition JobAbandoned : string := "abandoned".

Section jobs.
Context `{Bolt M}.
Implicit Types (tx db : SessionDB M) (rec : JobRecord).

Abbreviation jresult := (result store_error).

Definition put_job (requestID : string) rec tx : SessionDB M :=
  tx <| sd_jobs := <[requestID := rec]> (sd_jobs tx) |>.

Definition putJobIDIndex (jobID requestID : string) tx : SessionDB M :=
  if bool_decide (jobID = "") then tx else tx <| sd_job_id_index := <[jobID := requestID]> (sd_job_id_index tx) |>.

(** The record of the request, and whether it was begun now. *)
Definition JobBegin (now : Z) (requestID fingerprint jobID : string) (deadline : Z) db : jresult (JobRecord * bool) * SessionDB M :=
  Update (fun tx =>
    match sd_jobs tx !! requestID with
    | Some existing =>
        if negb (bool_decide (jb_Fingerprint existing = fingerprint)) then Err ErrRequestIDReuse else Ok (existing, false, tx)
    | None =>
        if has (sd_non_admissions tx) requestID then Err ErrNonAdmissionIssued
        else
          let after := putJobIDIndex jobID requestID tx in
          let after := after <| sd_admitted := <[requestID := mkadmissionTombstone jobID now]> (sd_admitted after) |> in
          let fresh := mkJobRecord "" None "" requestID jobID fingerprint "" "" JobInFlight 0 0 "" deadline now None None in
          Ok (fresh, true, put_job requestID fresh after)
    end) db.

Definition JobByRequestID (requestID : string) db : jresult JobRecord :=
  match sd_jobs db !! requestID with None => Err SessionNotFound | Some rec => Ok rec end.
Definition JobByID (jobID : string) db : jresult JobRecord :=
  match sd_job_id_index db !! jobID with None => Err SessionNotFound | Some requestID => JobByRequestID requestID db end.

Definition mutateJob (requestID : string) (fn : JobRecord -> jresult JobRecord) db : jresult unit * SessionDB M :=
  Update (fun tx =>
    match sd_jobs tx !! requestID with
    | None => Err SessionNotFound
    | Some rec => let! changed := fn rec in Ok (tt, put_job requestID changed tx)
    end) db.
Definition UpdateJob (requestID : string) (fn : JobRecord -> jresult JobRecord) db : jresult unit * SessionDB M :=
  mutateJob requestID fn db.

Definition JobFinish (now : Z) (requestID : string) (status workUnits : Z) (unit_ bodyDigest settlement : string) db :
    jresult unit * SessionDB M :=
  mutateJob requestID (fun rec => Ok (rec <| jb_State := JobTerminal |> <| jb_Status := status |> <| jb_WorkUnits := workUnits |>
    <| jb_Unit := unit_ |> <| jb_BodyDigest := bodyDigest |> <| jb_Settlement := settlement |> <| jb_EndedAt := Some now |>)) db.

Definition JobFinishPendingAccounting (now : Z) (requestID : string) (status workUnits : Z) (unit_ bodyDigest : string)
    (pending : option PendingDebit) db : jresult unit * SessionDB M :=
  match pending with
  | None => (Err (StoreErr "nil pending debit"), db)
  | Some _ =>
      mutateJob requestID (fun rec => Ok (rec <| jb_State := JobAccountingPending |> <| jb_Status := status |>
        <| jb_WorkUnits := workUnits |> <| jb_Unit := unit_ |> <| jb_BodyDigest := bodyDigest |> <| jb_EndedAt := Some now |>
        <| jb_Pending := pending |>)) db
  end.

Definition RecordDebitRetryFailure (now : Z) (requestID : string) (nextAttempt : Z) (cause : string) db : jresult unit * SessionDB M :=
  mutateJob requestID (fun rec =>
    match jb_Pending rec with
    | None => Err SessionNotFound
    | Some p => Ok (rec <| jb_Pending := Some (p <| pd_Attempts := pd_Attempts p + 1 |> <| pd_NextAttemptAt := nextAttempt |>
                  <| pd_LastError := cause |> <| pd_FirstFailedAt := Some (default now (pd_FirstFailedAt p)) |>) |>)
    end) db.

Definition SettleJob (now : Z) (requestID settlement : string) db : jresult unit * SessionDB M :=
  mutateJob requestID (fun rec => Ok (rec <| jb_State := JobTerminal |> <| jb_Settlement := settlement |> <| jb_Pending := None |>
    <| jb_EndedAt := Some (default now (jb_EndedAt rec)) |>)) db.
Definition SettleJobWithUnits (now : Z) (requestID : string) (units : Z) (settlement : string) db : jresult unit * SessionDB M :=
  mutateJob requestID (fun rec => Ok (rec <| jb_State := JobTerminal |> <| jb_WorkUnits := units |> <| jb_Settlement := settlement |>
    <| jb_Pending := None |> <| jb_EndedAt := Some (default now (jb_EndedAt rec)) |>)) db.

(** The mutation that closes a recovered exchange. *)
Definition FinishRecoveredJob (now : Z) (encoded : string) rec : jresult JobRecord :=
  if bool_decide (encoded = "") then Err (StoreErr "settlement evidence missing")
  else if bool_decide (jb_State rec = JobTerminal)
  then (if bool_decide (jb_Settlement rec = encoded) then Ok rec else Err SessionExists)
  else Ok (rec <| jb_State := JobTerminal |> <| jb_Settlement := encoded |> <| jb_Pending := None |> <| jb_EndedAt := Some now |>).

(** The first [limit] due debits, all of them when [limit] is not positive. *)
Definition due (now : Z) rec : bool :=
  bool_decide (jb_State rec = JobAccountingPending) &&
  match jb_Pending rec with None => false | Some p => negb (now <? pd_NextAttemptAt p) end.
Definition DuePendingDebits (now limit : Z) db : list JobRecord :=
  let out := List.filter (due now) (ForEach (sd_jobs db)).*2 in
  if 0 <? limit then take (Z.to_nat limit) out else out.

Definition recoverable rec : bool :=
  bool_decide (is_Some (jb_Recovery rec)) && negb (bool_decide (jb_State rec = JobTerminal)) &&
  negb (bool_decide (jb_State rec = JobPaymentRejected)) && negb (bool_decide (is_Some (jb_Pending rec))).
Definition RecoverableJobs db : list JobRecord := List.filter recoverable (ForEach (sd_jobs db)).*2.

(** ** Eviction *)
Definition expired (cutoff : Z) rec : bool :=
  (bool_decide (jb_State rec = JobTerminal) || bool_decide (jb_State rec = JobPaymentRejected) ||
   bool_decide (jb_State rec = JobAbandoned)) &&
  match jb_EndedAt rec with None => false | Some ended => ended <? cutoff end.
Definition crash_leftover (now : Z) rec : bool :=
  bool_decide (jb_State rec = JobInFlight) && bool_decide (jb_Recovery rec = None) && (jb_Deadline rec <? now).

Definition abandon (now : Z) (k : string) tx : SessionDB M :=
  match sd_jobs tx !! k with
  | None => tx
  | Some rec => put_job k (rec <| jb_State := JobAbandoned |> <| jb_EndedAt := Some now |>) tx
  end.
Definition evict_job (k : string) tx : SessionDB M :=
  let index := match sd_jobs tx !! k with
               | Some rec => if bool_decide (jb_JobID rec = "") then sd_job_id_index tx else delete (jb_JobID rec) (sd_job_id_index tx)
               | None => sd_job_id_index tx
               end in
  tx <| sd_job_id_index := index |> <| sd_jobs := delete k (sd_jobs tx) |>.

Definition EvictJobs (now cutoff : Z) db : Z * SessionDB M :=
  let evict := (List.filter (fun kr => expired cutoff kr.2) (ForEach (sd_jobs db))).*1 in
  let leftover := (List.filter (fun kr => crash_leftover now kr.2) (ForEach (sd_jobs db))).*1 in
  let after := foldl (fun tx k => abandon now k tx) db leftover in
  (Z.of_nat (length evict), foldl (fun tx k => evict_job k tx) after evict).

(** ** Refused payments *)
Definition JobFinishPaymentRejected (now : Z) (id : string) (status : Z) (digest authorization : string) db : jresult unit * SessionDB M :=
  mutateJob id (fun rec =>
    if negb (bool_decide (jb_State rec = JobInFlight)) || bool_decide (authorization = "") then Err SessionExists
    else Ok (rec <| jb_State := JobPaymentRejected |> <| jb_Status := status |> <| jb_BodyDigest := digest |>
               <| jb_RejectedAuthorization := authorization |> <| jb_EndedAt := Some now |>)) db.

Definition RecordRejectedNonAdmission (id authorization envelope : string) (observedAt : Z) db : jresult string * SessionDB M :=
  Update (fun tx =>
    match sd_jobs tx !! id with
    | None => Err SessionNotFound
    | Some rec =>
        if negb (bool_decide (jb_State rec = JobPaymentRejected)) || negb (bool_decide (jb_RejectedAuthorization rec = authorization)) ||
           bool_decide (authorization = "") || negb (jb_WorkUnits rec =? 0) || negb (bool_decide (jb_Settlement rec = "")) ||
           bool_decide (is_Some (jb_Pending rec))
        then Err SessionExists
        else
          match sd_non_admissions tx !! id with
          | Some prior => Ok (na_Envelope prior, tx)
          | None => Ok ("", tx <| sd_non_admissions := <[id := mknonAdmissionEntry envelope observedAt]> (sd_non_admissions tx) |>)
          end
    end) db.
End jobs.
