(* ===== verification/NonAdmission.v ===== *)
(** * "Did you ever admit this request?"

    capability-broker/internal/server/nonadmission.go: the endpoint that answers
    with a signed statement that a request was never admitted, on the evidence
    kept by [SessionStore] and [JobStore].  Signing, the payee's settlement
    domain and its fence for unexecuted authorizations are the class
    [EvidenceWire]; HTTP status codes stand for the refusals. *)
From S2P Require Import Prelude.
From S2P Require Import GoBytes.
From S2P Require Import GoStrings.
From S2P Require Import Bolt.
From S2P Require Import Actions.
From S2P Require Import Fences.
From S2P Require Import Types.
From S2P Require Import Spendauth.
From S2P Require Import SessionStore.
From S2P Require Import JobStore.

(** The query, decoded from JSON. *)
Record nonAdmissionQuery := mknonAdmissionQuery {
  nq_WholesaleAccountID : string;
  nq_Protocol : string;
  nq_WorkID : string;
  nq_SenderHex : string;
  nq_RecipientHex : string;
  nq_QuoteID : string;
  nq_QuoteVersion : option Z;
  nq_ConstraintFingerprint : string;
  nq_RouteFingerprint : string;
  nq_JobIssuedAt : string;
}.

(** The statement that is signed. *)
Record NonAdmissionRecord := mkNonAdmissionRecord {
  nr_WholesaleAccountId : string;
  nr_SettlementDomainId : string;
  nr_Protocol : string;
  nr_RequestId : string;
  nr_WorkId : string;
  nr_Sender : string;
  nr_Recipient : string;
  nr_AcceptedQuoteRef : QuoteRef;
  nr_BrokerEthAddress : string;
  nr_ObservedAt : Z;
  nr_CoverageStartedAt : Z;
}.

Class EvidenceWire := {
  (** [settlement.EncodeNonAdmission]. *)
  EncodeNonAdmission : NonAdmissionRecord -> option string;
  (** The account in a stored envelope; [None] when it does not decode. *)
  envelope_account : string -> option string;
  (** [SettlementDomain] of the payee. *)
  settlement_domain : option string;
  (** [CloseUnexecutedAuthorization] of the payee: payer, authorization, account. *)
  close_unexecuted : string -> string -> string -> bool;
}.

Inductive na_answer :=
  (** 200: the envelope, and whether it was issued before. *)
  | NotAdmitted (envelope : string) (replayed : bool)
  (** The state of the exchange that was admitted instead. *)
  | ExchangeState (rec : JobRecord)
  | EvidenceExpired (jobID : string).

(** A refusal: HTTP status and error code. *)
Record na_refusal := Refused { rf_status : Z; rf_code : string }.

(** ** The query's validation *)
Definition TrimPrefix (s prefix : string) : string :=
  if hasPrefix s prefix then drop_bytes (String.length prefix) s else s.
Definition strictHex (s : string) : option string :=
  let trimmed := TrimPrefix (TrimPrefix (TrimSpace s) "0x") "0X" in
  if bool_decide (trimmed = "") then None else hex_decode trimmed.
Definition hex20 (s : string) : bool := match strictHex s with Some b => len b =? 20 | None => false end.

Section endpoint.
Context `{Bolt M} `{AuthWire} `{EvidenceWire}.
Implicit Types (db : SessionDB M) (q : nonAdmissionQuery).

Definition validate q : result string Z :=
  if negb (ValidWholesaleAccountID (nq_WholesaleAccountID q)) then Err "valid wholesale_account_id is required"
  else if negb (bool_decide (nq_Protocol q = "paid-job/v1")) && negb (bool_decide (nq_Protocol q = "paid-session/v1"))
  then Err "protocol must be paid-job/v1 or paid-session/v1"
  else if blank (nq_WorkID q) then Err "work_id is required"
  else if negb (hex20 (nq_SenderHex q)) then Err "sender"
  else if negb (hex20 (nq_RecipientHex q)) then Err "recipient"
  else if blank (nq_QuoteID q) then Err "quote_id is required"
  else if bool_decide (nq_QuoteVersion q = None) then Err "quote_version is required (zero is valid)"
  else if bool_decide (strictHex (nq_ConstraintFingerprint q) = None) then Err "constraint_fingerprint"
  else if bool_decide (strictHex (nq_RouteFingerprint q) = None) then Err "route_fingerprint"
  else if blank (nq_JobIssuedAt q) then Err "job_issued_at is required"
  else match parse_time (nq_JobIssuedAt q) with None => Err "job_issued_at must be RFC3339" | Some issued => Ok issued end.

Definition hex_or_empty (s : string) : string := default "" (strictHex s).

(** Every scope field matches the authorization on record. *)
Definition validateAuthorizationScope (wire requestID : string) q : bool :=
  match unmarshal_auth wire with
  | None => false
  | Some auth =>
      let p := default (mkPayload "" "" "" "" "" "" "" "" "" None "" 0 "" "" "" "" 0 "" "" 0 "" "" "") (sa_Payload auth) in
      let quote := default (mkQuoteRef "" 0 "" "") (match py_AcceptedPrice p with None => None | Some a => ap_QuoteRef a end) in
      bool_decide (py_WholesaleAccountId p = nq_WholesaleAccountID q) && bool_decide (nq_QuoteVersion q = Some (qr_QuoteVersion quote)) &&
      bool_decide (py_RequestId p = requestID) && bool_decide (py_Protocol p = nq_Protocol q) &&
      bool_decide (py_AuthorizationId p = nq_WorkID q) && bool_decide (py_Payer p = hex_or_empty (nq_SenderHex q)) &&
      bool_decide (py_Payee p = hex_or_empty (nq_RecipientHex q)) && bool_decide (qr_QuoteId quote = nq_QuoteID q) &&
      bool_decide (qr_ConstraintFingerprint quote = hex_or_empty (nq_ConstraintFingerprint q)) &&
      bool_decide (qr_RouteFingerprint quote = hex_or_empty (nq_RouteFingerprint q))
  end.
Definition validateRejectedScope (now : Z) (rec : JobRecord) q : bool :=
  validateAuthorizationScope (jb_RejectedAuthorization rec) (jb_RequestID rec) q &&
  match unmarshal_auth (jb_RejectedAuthorization rec) with
  | Some (mkSpendAuthorization (Some p) _) =>
      match parse_time (py_ExpiresAt p) with Some expires => negb (now <? expires) | None => false end
  | _ => false
  end.

(** ** The handler *)
Abbreviation answering := (st (SessionDB M) na_refusal).

Open Scope act_scope.

Definition look {A} (f : SessionDB M -> A) : answering A := fun db => (Ok (f db), db).
(** The open whose admission was canceled, when there is one. *)
Definition canceled_of (requestID : string) q : answering (option OpenReservation) :=
  do! opening <- look (Reservation requestID);
  match opening with
  | Err _ => ret None
  | Ok o =>
      run! require (canceled_open o) (Refused 503 "admission_pending");
      let wire := default "" (oi_AuthorizationBytes <$> or_AdmissionIntent o) in
      run! require (validateAuthorizationScope wire requestID q) (Refused 409 "admitted");
      ret (Some o)
  end.

(** The exchange whose payment was refused, when there is one. *)
Definition rejected_of (now : Z) (requestID : string) q : answering (option JobRecord) :=
  do! candidate <- look (JobByRequestID requestID);
  match candidate with
  | Ok rec =>
      if bool_decide (jb_State rec = JobPaymentRejected) then
        run! require (validateRejectedScope now rec q) (Refused 409 "admitted");
        ret (Some rec)
      else ret None
  | Err _ => ret None
  end.

Definition domain_of (wire : string) : option string :=
  match unmarshal_auth wire with
  | None => None
  | Some auth => Some (match sa_Payload auth with None => "" | Some p => py_SettlementDomainId p end)
  end.

(** A refused authorization is fenced at the payee before anything is signed. *)
Definition fence_rejected (domainID : string) q (rec : JobRecord) : answering unit :=
  match unmarshal_auth (jb_RejectedAuthorization rec) with
  | Some (mkSpendAuthorization (Some p) _) =>
      run! require (bool_decide (py_WholesaleAccountId p = nq_WholesaleAccountID q) && bool_decide (py_SettlementDomainId p = domainID))
             (Refused 409 "admitted");
      require (close_unexecuted (py_Payer p) (py_AuthorizationId p) (py_WholesaleAccountId p)) (Refused 503 "")
  | _ => fail (Refused 409 "admitted")
  end.

Definition statement (now coverage : Z) (orch requestID domainID : string) q : NonAdmissionRecord :=
  mkNonAdmissionRecord (nq_WholesaleAccountID q) domainID (nq_Protocol q) requestID (nq_WorkID q)
    (hex_or_empty (nq_SenderHex q)) (hex_or_empty (nq_RecipientHex q))
    (mkQuoteRef (nq_QuoteID q) (default 0 (nq_QuoteVersion q)) (hex_or_empty (nq_ConstraintFingerprint q))
       (hex_or_empty (nq_RouteFingerprint q))) orch now coverage.

(** The last step: what was encoded is stored unless the request is on record. *)
Definition persist (now : Z) (requestID encoded : string) (rejected : option JobRecord) : answering na_answer :=
  do! recorded <- look (fun db =>
    match rejected with
    | Some rec => RecordRejectedNonAdmission requestID (jb_RejectedAuthorization rec) encoded now db
    | None => RecordNonAdmission requestID encoded now db
    end);
  match recorded with
  | (Ok existing, after) =>
      run! (fun _ => (Ok tt, after));
      ret (NotAdmitted (if bool_decide (existing = "") then encoded else existing) false)
  | (Err e, _) =>
      run! require (bool_decide (e = SessionExists)) (Refused 500 "");
      do! candidate <- look (JobByRequestID requestID);
      match candidate with Ok rec => ret (ExchangeState rec) | Err _ => fail (Refused 409 "admitted") end
  end.

Definition sign_absence (now coverage : Z) (orch requestID : string) q (canceled : option OpenReservation) (rejected : option JobRecord) :
    answering na_answer :=
  match settlement_domain with
  | None => fail (Refused 503 "")
  | Some domainID =>
      run! require (negb (bool_decide (domainID = ""))) (Refused 503 "");
      run! match canceled with
           | None => ret tt
           | Some o => require (bool_decide (domain_of (default "" (oi_AuthorizationBytes <$> or_AdmissionIntent o)) = Some domainID))
                         (Refused 409 "admitted")
           end;
      run! match rejected with None => ret tt | Some rec => fence_rejected domainID q rec end;
      match EncodeNonAdmission (statement now coverage orch requestID domainID q) with
      | None => fail (Refused 500 "")
      | Some encoded => persist now requestID encoded rejected
      end
  end.

(** An exchange that was admitted, possibly so long ago that its record is gone. *)
Definition admitted_answer (requestID jobID : string) : answering na_answer :=
  do! candidate <- look (JobByRequestID requestID);
  ret (match candidate with Ok rec => ExchangeState rec | Err _ => EvidenceExpired jobID end).

Definition handleNonAdmission (now : Z) (orch requestID : string) (signs : bool) (body : option nonAdmissionQuery) : answering na_answer :=
  run! require (negb (blank requestID)) (Refused 400 "");
  run! require signs (Refused 501 "");
  match body with
  | None => fail (Refused 400 "")
  | Some q =>
      match validate q with
      | Err _ => fail (Refused 400 "")
      | Ok issuedAt =>
          do! revision <- look (RevisionRequestSession requestID);
          run! require (bool_decide (revision = "")) (Refused 409 "revision_evidence_required");
          run! (if bool_decide (nq_Protocol q = "paid-session/v1") then
                  do! started <- look RevisionCoverageStartedAt;
                  require (match started with Ok t => negb (issuedAt <? t) | Err _ => false end) (Refused 409 "coverage_gap")
                else ret tt);
          do! canceled <- canceled_of requestID q;
          do! prior <- look (NonAdmissionFor requestID);
          match prior with
          | Some envelope =>
              run! require (bool_decide (envelope_account envelope = Some (nq_WholesaleAccountID q))) (Refused 409 "admitted");
              ret (NotAdmitted envelope true)
          | None =>
              do! rejected <- rejected_of now requestID q;
              do! admitted <- look (WasAdmitted requestID);
              match admitted, rejected with
              | Some jobID, None => admitted_answer requestID jobID
              | _, _ =>
                  do! coverage <- (fun db => let '(t, after) := EvidenceHorizon now db in (Ok t, after));
                  run! require (negb (issuedAt <? coverage)) (Refused 409 "coverage_gap");
                  sign_absence now coverage orch requestID q canceled rejected
              end
          end
      end
  end.
End endpoint.
