(* ===== verification/EvidenceSpec.v ===== *)
(** * A signed non-admission is true

    The broker signs statements that it never admitted a request, and later
    forgets both its records and the statements.  For every run of the store's
    operations: a statement covers only a period the store still remembers, and
    no request is admitted while a statement about it stands. *)
From S2P Require Import Prelude.
From S2P Require Import GoBytes.
From S2P Require Import Bolt.
From S2P Require Import Actions.
From S2P Require Import Spendauth.
From S2P Require Import SessionStore.
From S2P Require Import JobStore.
From S2P Require Import NonAdmission.

Open Scope record_scope.

(** The calls that change the store, mutations by arbitrary functions included. *)
Inductive eop (M : Type -> Type) :=
  | EJobBegin (requestID fingerprint jobID : string) (deadline : Z)
  | EUpdateJob (requestID : string) (fn : JobRecord -> result store_error JobRecord)
  | EReserveOpen (requestID fingerprint : string)
  | EUpdateReservation (requestID : string) (fn : OpenReservation -> OpenReservation)
  | EReleaseReservation (requestID : string)
  | ECreateIndexed (rec : SessionRecord) (requestID : string)
  | EUpdateSession (id : string) (fn : SessionRecord -> result store_error SessionRecord)
  | EBeginRevision (id : string) (intent : RevisionIntent)
  | ECommitRevision (id requestID fingerprint : string) (lease : Z) (balance code detail : string)
      (mutate : SessionRecord -> result store_error SessionRecord)
  | ERecordRevisionEnvelope (id requestID evidence envelope : string)
  | EBindSettlementDomain (id : string)
  | EReopen (key : string)
  | EEvictJobs (cutoff : Z)
  | EEvictTerminal (cutoff : Z)
  | EEvictTopUps (cutoff : Z)
  | EEvictAdmissionTombstones (cutoff : Z)
  | EEvictNonAdmissions (cutoff : Z)
  | EAsk (orch requestID : string) (signs : bool) (body : option nonAdmissionQuery).
Arguments EJobBegin {M}.
Arguments EUpdateJob {M}.
Arguments EReserveOpen {M}.
Arguments EUpdateReservation {M}.
Arguments EReleaseReservation {M}.
Arguments ECreateIndexed {M}.
Arguments EUpdateSession {M}.
Arguments EBeginRevision {M}.
Arguments ECommitRevision {M}.
Arguments ERecordRevisionEnvelope {M}.
Arguments EBindSettlementDomain {M}.
Arguments EReopen {M}.
Arguments EEvictJobs {M}.
Arguments EEvictTerminal {M}.
Arguments EEvictTopUps {M}.
Arguments EEvictAdmissionTombstones {M}.
Arguments EEvictNonAdmissions {M}.
Arguments EAsk {M}.

Section evidence.
Context `{Bolt M} `{AuthWire} `{EvidenceWire}.
Implicit Types (db : SessionDB M) (op : eop M).

(** The admissions a call makes, and the store after it. *)
Definition begun {A} (requestID : string) (now : Z) (r : result store_error A) : list (string * Z) :=
  match r with Ok _ => [(requestID, now)] | Err _ => [] end.
Definition estep (now : Z) op db : list (string * Z) * SessionDB M :=
  match op with
  | EJobBegin id fp job deadline =>
      let '(r, db') := JobBegin now id fp job deadline db in
      (match r with Ok (_, true) => [(id, now)] | _ => [] end, db')
  | EUpdateJob id fn => ([], (UpdateJob id fn db).2)
  | EReserveOpen id fp => ([], (ReserveOpen now id fp db).2)
  | EUpdateReservation id fn => ([], (UpdateReservation id fn db).2)
  | EReleaseReservation id => ([], ReleaseReservation id db)
  | ECreateIndexed rec id => let '(r, db') := CreateIndexed now rec id db in (begun id now r, db')
  | EUpdateSession id fn => ([], (UpdateSession now id fn db).2)
  | EBeginRevision id intent => let '(r, db') := BeginRevision now id intent db in (begun (ri_RequestID intent) now r, db')
  | ECommitRevision id req fp lease balance code detail mutate =>
      ([], (commitRevision now id req fp lease balance code detail mutate db).2)
  | ERecordRevisionEnvelope id req evidence envelope => ([], (RecordRevisionEnvelope id req evidence envelope db).2)
  | EBindSettlementDomain id => ([], (BindSettlementDomain id db).2)
  | EReopen key => ([], match Open now key (Some db) with Ok db' => db' | Err _ => db end)
  | EEvictJobs cutoff => ([], (EvictJobs now cutoff db).2)
  | EEvictTerminal cutoff => ([], (EvictTerminal cutoff db).2)
  | EEvictTopUps cutoff => ([], (EvictTopUps cutoff db).2)
  | EEvictAdmissionTombstones cutoff => ([], (EvictAdmissionTombstones cutoff db).2)
  | EEvictNonAdmissions cutoff => ([], (EvictNonAdmissions cutoff db).2)
  | EAsk orch id signs body => ([], (handleNonAdmission now orch id signs body db).2)
  end.

(** A run of timed calls: all admissions it makes, and the store it ends in. *)
Fixpoint erun (ops : list (Z * eop M)) db : list (string * Z) * SessionDB M :=
  match ops with
  | [] => ([], db)
  | (now, op) :: ops =>
      let '(h, db') := estep now op db in
      let '(h', db'') := erun ops db' in (h ++ h', db'')
  end.

(** ** What is remembered *)

(** A time before the horizon of the tombstones. *)
Definition forgotten (t : Z) db : Prop := exists pruned, cv_evidence_horizon (sd_coverage db) = Some pruned /\ t < pruned.

(** An admission at [t] left a trace, or lies before the horizon. *)
Definition remembered (a : string * Z) db : Prop :=
  is_Some (sd_revision_requests db !! a.1) \/
  (exists s, sd_admitted db !! a.1 = Some s /\ a.2 <= ad_AdmittedAt s) \/ forgotten a.2 db.

Definition before (now : Z) db : Prop := forall id s, sd_admitted db !! id = Some s -> ad_AdmittedAt s <= now.

(** From [db] to [db'] nothing is lost but what the horizon gives up. *)
Record keeps (now : Z) db db' : Prop := {
  kp_revisions : forall id, is_Some (sd_revision_requests db !! id) -> is_Some (sd_revision_requests db' !! id);
  kp_admitted : forall id s, sd_admitted db !! id = Some s ->
    (exists s', sd_admitted db' !! id = Some s' /\ ad_AdmittedAt s <= ad_AdmittedAt s') \/ forgotten (ad_AdmittedAt s) db';
  kp_horizon : forall t, forgotten t db -> forgotten t db';
  kp_before : before now db -> before now db';
}.

Lemma keeps_same now db db' :
  sd_revision_requests db' = sd_revision_requests db -> sd_admitted db' = sd_admitted db ->
  cv_evidence_horizon (sd_coverage db') = cv_evidence_horizon (sd_coverage db) -> keeps now db db'.
Proof.
  intros Hr Ha Hh. split; unfold forgotten, before; rewrite ?Hr, ?Ha, ?Hh; try done.
  intros id s Hs. left. by exists s.
Qed.
Hint Resolve keeps_same : ledger.

Lemma remembered_keeps now a db db' : keeps now db db' -> remembered a db -> remembered a db'.
Proof.
  intros Hk [Hr|[(s & Hs & Ht)|Hf]].
  - left. by apply Hk.
  - destruct (kp_admitted _ _ _ Hk _ _ Hs) as [(s' & Hs' & Hle)|(hz & Hz & Hlt)].
    + right; left. exists s'. split; [done|lia].
    + right; right. exists hz. split; [done|lia].
  - right; right. by apply (kp_horizon _ _ _ Hk).
Qed.

(** ** Every call keeps the evidence *)
Lemma keeps_new_tombstone now id s db db' :
  before now db -> ad_AdmittedAt s = now -> sd_admitted db' = <[id := s]> (sd_admitted db) ->
  (forall id, is_Some (sd_revision_requests db !! id) -> is_Some (sd_revision_requests db' !! id)) ->
  cv_evidence_horizon (sd_coverage db') = cv_evidence_horizon (sd_coverage db) -> keeps now db db'.
Proof.
  intros Hb Hs Ha Hr Hh. split; unfold forgotten; rewrite ?Ha, ?Hh; try done.
  - intros id' s' Hs'. left. destruct (decide (id' = id)) as [->|Hne].
    + rewrite lookup_insert_eq. exists s. split; [done|]. rewrite Hs. by eapply Hb.
    + rewrite lookup_insert_ne by done. by exists s'.
  - intros _ id' s'. rewrite Ha. destruct (decide (id' = id)) as [->|Hne].
    + rewrite lookup_insert_eq. intros [= <-]. lia.
    + rewrite lookup_insert_ne by done. apply Hb.
Qed.

Lemma JobBegin_evidence now id fp job deadline db :
  before now db -> keeps now db (JobBegin now id fp job deadline db).2 /\
  forall rec, (JobBegin now id fp job deadline db).1 = Ok (rec, true) -> remembered (id, now) (JobBegin now id fp job deadline db).2.
Proof.
  intros Hb. unfold JobBegin, Update. destruct (sd_jobs db !! id) as [rec|].
  - destruct (negb _); cbn [fst snd]; split; auto with ledger; by intros ? [=].
  - destruct (has (sd_non_admissions db) id); cbn [fst snd]; [split; auto with ledger; by intros ? [=]|]. split.
    + eapply (keeps_new_tombstone now id (mkadmissionTombstone job now)); auto; unfold put_job, putJobIDIndex; case_bool_decide; done.
    + intros rec _. right; left. exists (mkadmissionTombstone job now). split; [|cbn; lia].
      unfold put_job, putJobIDIndex; case_bool_decide; cbn; by rewrite lookup_insert_eq.
Qed.

Lemma CreateIndexed_evidence now rec id db :
  before now db -> keeps now db (CreateIndexed now rec id db).2 /\
  ((CreateIndexed now rec id db).1 = Ok tt -> remembered (id, now) (CreateIndexed now rec id db).2).
Proof.
  intros Hb. unfold CreateIndexed. destruct (_ || _); [split; auto with ledger; by intros [=]|]. unfold Update.
  destruct (has _ _); [split; auto with ledger; by intros [=]|].
  destruct (_ || _); [split; auto with ledger; by intros [=]|].
  destruct (_ && _); [split; auto with ledger; by intros [=]|]. cbn [fst snd]. split.
  - by eapply (keeps_new_tombstone now id (mkadmissionTombstone (se_SessionID rec) now)).
  - intros _. right; left. exists (mkadmissionTombstone (se_SessionID rec) now). cbn. by rewrite lookup_insert_eq.
Qed.

Lemma keeps_revisions now db db' :
  (forall id, is_Some (sd_revision_requests db !! id) -> is_Some (sd_revision_requests db' !! id)) ->
  sd_admitted db' = sd_admitted db ->
  cv_evidence_horizon (sd_coverage db') = cv_evidence_horizon (sd_coverage db) -> keeps now db db'.
Proof.
  intros Hr Ha Hh. split; unfold forgotten, before; rewrite ?Ha, ?Hh; try done. intros id s Hs. left. by exists s.
Qed.
Lemma insert_some {A} (m : M A) k k' v : is_Some (m !! k) -> is_Some (<[k' := v]> m !! k).
Proof.
  intros Hk. destruct (decide (k = k')) as [->|Hne]; [by rewrite lookup_insert_eq|by rewrite lookup_insert_ne].
Qed.

Lemma BeginRevision_evidence now id intent db :
  keeps now db (BeginRevision now id intent db).2 /\
  ((BeginRevision now id intent db).1 = Ok tt -> remembered (ri_RequestID intent, now) (BeginRevision now id intent db).2).
Proof.
  unfold BeginRevision, Update. destruct (has _ _); [split; auto with ledger; by intros [=]|].
  destruct (sd_sessions db !! id) as [r|]; [|split; auto with ledger; by intros [=]].
  destruct (se_RevisionIntent r); [split; auto with ledger; by intros [=]|].
  destruct (has (sd_revision_requests db) _); [split; auto with ledger; by intros [=]|]. cbn [fst snd]. split.
  - apply keeps_revisions; [|done|done]. intros k Hk. cbn. by apply insert_some.
  - intros _. left. cbn. by rewrite lookup_insert_eq.
Qed.

Lemma commitRevision_keeps now id req fp lease balance code detail mutate db :
  keeps now db (commitRevision now id req fp lease balance code detail mutate db).2.
Proof.
  unfold commitRevision, Update. destruct (sd_sessions db !! id) as [r|]; [|auto with ledger].
  destruct (se_RevisionIntent r); [|auto with ledger]. destruct (_ || _); [auto with ledger|].
  destruct (mutate r) as [changed|]; [|auto with ledger]. destruct (se_RevisionIntent changed); [|auto with ledger].
  destruct (has _ _); [auto with ledger|]. apply keeps_revisions; [|done|done]. intros k Hk. cbn. by apply insert_some.
Qed.

Lemma foldl_some {A B} (f : M A -> B -> M A) (l : list B) m k :
  (forall m x, is_Some (m !! k) -> is_Some (f m x !! k)) -> is_Some (m !! k) -> is_Some (foldl f m l !! k).
Proof. intros Hf. revert m. induction l as [|x l IH]; intros m Hm; [done|]. apply IH, Hf, Hm. Qed.

Lemma Open_keeps now key db db' : Open now key (Some db) = Ok db' -> keeps now db db'.
Proof.
  unfold Open. destruct (negb _); [done|]. intros [= <-]. unfold CoverageStartedAt, migrateRevisionCoverage. cbn.
  destruct (cv_started_at _); (apply keeps_revisions; [|done|done]); intros k Hk; cbn;
    (apply foldl_some; [intros m [k' s] Hm; unfold index_intent; destruct (se_RevisionIntent _); [by apply insert_some|done]|]);
    (apply foldl_some; [intros m [k' t] Hm; by apply insert_some|done]).
Qed.

(** Calls that touch none of the evidence. *)
Definition quiet db db' : Prop :=
  sd_revision_requests db' = sd_revision_requests db /\ sd_admitted db' = sd_admitted db /\
  cv_evidence_horizon (sd_coverage db') = cv_evidence_horizon (sd_coverage db).
Lemma quiet_keeps now db db' : quiet db db' -> keeps now db db'.
Proof. intros (? & ? & ?). by apply keeps_same. Qed.
Lemma store_quiet_refl db : quiet db db.
Proof. done. Qed.
Lemma store_quiet_trans db db' db'' : quiet db db' -> quiet db' db'' -> quiet db db''.
Proof. unfold quiet. intuition congruence. Qed.

Lemma mutateJob_quiet id fn db : quiet db (mutateJob id fn db).2.
Proof. unfold mutateJob, Update. destruct (sd_jobs db !! id) as [r|]; [destruct (fn r)|]; done. Qed.
Lemma UpdateSession_quiet now id fn db : quiet db (UpdateSession now id fn db).2.
Proof. unfold UpdateSession, Update. destruct (sd_sessions db !! id) as [r|]; [destruct (fn r)|]; done. Qed.
Lemma ReserveOpen_quiet now id fp db : quiet db (ReserveOpen now id fp db).2.
Proof.
  unfold ReserveOpen, Update. case_bool_decide; [done|]. destruct (has _ _); [done|].
  destruct (has (sd_open_requests db) _); [done|]. by destruct (has (sd_open_reservations db) _).
Qed.
Lemma UpdateReservation_quiet id fn db : quiet db (UpdateReservation id fn db).2.
Proof. unfold UpdateReservation, Update. by destruct (sd_open_reservations db !! id). Qed.
Lemma RecordRevisionEnvelope_quiet id req evidence envelope db : quiet db (RecordRevisionEnvelope id req evidence envelope db).2.
Proof. unfold RecordRevisionEnvelope, Update. destruct (sd_topups db !! _); [|done]. by destruct (_ || _). Qed.
Lemma BindSettlementDomain_quiet id db : quiet db (BindSettlementDomain id db).2.
Proof.
  unfold BindSettlementDomain, Update. destruct (negb _); [done|].
  destruct (cv_settlement_domain_id _); [destruct (negb _)|]; done.
Qed.
Lemma foldl_quiet {B} (f : SessionDB M -> B -> SessionDB M) l db :
  (forall db x, quiet db (f db x)) -> quiet db (foldl f db l).
Proof.
  intros Hf. revert db. induction l as [|x l IH]; intros db; [done|]. eapply store_quiet_trans; [apply Hf|apply IH].
Qed.
Lemma EvictJobs_quiet now cutoff db : quiet db (EvictJobs now cutoff db).2.
Proof.
  unfold EvictJobs. cbn [snd]. eapply store_quiet_trans; apply (foldl_quiet (B := string)); intros db' k.
  - unfold abandon. by destruct (sd_jobs db' !! k).
  - done.
Qed.
Lemma RecordNonAdmission_quiet id envelope t db : quiet db (RecordNonAdmission id envelope t db).2.
Proof.
  unfold RecordNonAdmission, Update. destruct (has _ _); [done|]. destruct (match _ with Some _ => _ | None => _ end); [done|].
  destruct (_ || _); [done|]. by destruct (sd_non_admissions db !! id).
Qed.
Lemma RecordRejectedNonAdmission_quiet id wire envelope t db : quiet db (RecordRejectedNonAdmission id wire envelope t db).2.
Proof.
  unfold RecordRejectedNonAdmission, Update. destruct (sd_jobs db !! id); [|done]. destruct (_ || _); [done|].
  by destruct (sd_non_admissions db !! id).
Qed.

(** The handler writes the statement and, at most, when coverage began. *)
Definition asking db0 db : Prop :=
  quiet db0 db /\ forall id, is_Some (sd_non_admissions db0 !! id) -> is_Some (sd_non_admissions db !! id).
Lemma asking_record db0 db now id encoded rejected :
  asking db0 db -> asking db0 (match rejected with
    | Some rec => RecordRejectedNonAdmission id (jb_RejectedAuthorization rec) encoded now db
    | None => RecordNonAdmission id encoded now db end).2.
Proof.
  intros [Hq Hn]. split.
  - eapply store_quiet_trans; [exact Hq|]. destruct rejected; [apply RecordRejectedNonAdmission_quiet|apply RecordNonAdmission_quiet].
  - intros k Hk. specialize (Hn k Hk). destruct rejected as [rec|]; unfold RecordRejectedNonAdmission, RecordNonAdmission, Update.
    + destruct (sd_jobs db !! id); [|done]. destruct (_ || _); [done|].
      destruct (sd_non_admissions db !! id); [done|]. cbn. by apply insert_some.
    + destruct (has _ _); [done|]. destruct (match _ with Some _ => _ | None => _ end); [done|].
      destruct (_ || _); [done|]. destruct (sd_non_admissions db !! id); [done|]. cbn. by apply insert_some.
Qed.
Lemma asking_persist db0 now id encoded rejected : pres (asking db0) (persist now id encoded rejected) (fun _ => True).
Proof.
  intros db Hq. split; [|done]. unfold persist, bind, look. pose proof (asking_record db0 db now id encoded rejected Hq) as Hr.
  destruct (match rejected with Some _ => _ | None => _ end) as [[existing|e] after]; [exact Hr|].
  unfold require. case_bool_decide; [|exact Hq]. cbn [ret]. destruct (JobByRequestID id db); exact Hq.
Qed.
Lemma asking_look db0 {A} (f : SessionDB M -> A) : pres (asking db0) (look f) (fun _ => True).
Proof. by intros db Hq. Qed.
Lemma asking_require db0 b (e : na_refusal) : pres (asking db0) (require b e) (fun _ => True).
Proof. eapply pres_true, pres_require. Qed.
Lemma asking_horizon db0 now :
  pres (asking db0) (fun db => let '(t, after) := EvidenceHorizon now db in (Ok (E := na_refusal) t, after)) (fun _ => True).
Proof.
  intros db [Hq Hn]. split; [|done]. unfold EvidenceHorizon, CoverageStartedAt.
  destruct (cv_started_at (sd_coverage db)); cbn; destruct (cv_evidence_horizon _); cbn; done.
Qed.
Lemma asking_fence db0 domain q rec : pres (asking db0) (fence_rejected domain q rec) (fun _ => True).
Proof.
  unfold fence_rejected. destruct (unmarshal_auth _) as [[[p|] sig]|]; [|apply pres_fail..].
  apply pres_seq; [apply asking_require|intros _; apply asking_require].
Qed.
Lemma asking_sign db0 now coverage orch id q canceled rejected :
  pres (asking db0) (sign_absence now coverage orch id q canceled rejected) (fun _ => True).
Proof.
  unfold sign_absence. destruct settlement_domain as [domain|]; [|apply pres_fail].
  apply pres_seq; [apply asking_require|intros _]. apply pres_seq; [destruct canceled; [apply asking_require|by apply pres_ret]|intros _].
  apply pres_seq; [destruct rejected; [apply asking_fence|by apply pres_ret]|intros _].
  destruct (EncodeNonAdmission _); [apply asking_persist|apply pres_fail].
Qed.
Lemma asking_canceled db0 id q : pres (asking db0) (canceled_of id q) (fun _ => True).
Proof.
  unfold canceled_of. apply pres_seq; [apply asking_look|intros [o|]; [|by apply pres_ret]].
  apply pres_seq; [apply asking_require|intros _]. apply pres_seq; [apply asking_require|intros _; by apply pres_ret].
Qed.
Lemma asking_rejected db0 now id q : pres (asking db0) (rejected_of now id q) (fun _ => True).
Proof.
  unfold rejected_of. apply pres_seq; [apply asking_look|intros [rec|]; [|by apply pres_ret]].
  case_bool_decide; [|by apply pres_ret]. apply pres_seq; [apply asking_require|intros _; by apply pres_ret].
Qed.
Lemma handle_asks now orch id signs body db : asking db (handleNonAdmission now orch id signs body db).2.
Proof.
  enough (pres (asking db) (handleNonAdmission now orch id signs body) (fun _ => True)) as Hp by (by apply Hp; split).
  unfold handleNonAdmission. apply pres_seq; [apply asking_require|intros _]. apply pres_seq; [apply asking_require|intros _].
  destruct body as [q|]; [|apply pres_fail]. destruct (validate q) as [issued|]; [|apply pres_fail].
  apply pres_seq; [apply asking_look|intros revision]. apply pres_seq; [apply asking_require|intros _].
  apply pres_seq; [case_bool_decide; [|by apply pres_ret]; apply pres_seq; [apply asking_look|intros ?; apply asking_require]|intros _].
  apply pres_seq; [apply asking_canceled|intros canceled]. apply pres_seq; [apply asking_look|intros [envelope|]].
  { apply pres_seq; [apply asking_require|intros _; by apply pres_ret]. }
  apply pres_seq; [apply asking_rejected|intros rejected]. apply pres_seq; [apply asking_look|intros admitted].
  assert (forall coverage, pres (asking db) (bind (require (negb (issued <? coverage)) (Refused 409 "coverage_gap"))
    (fun _ => sign_absence now coverage orch id q canceled rejected)) (fun _ => True)) as Hsign.
  { intros coverage. apply pres_seq; [apply asking_require|intros _; apply asking_sign]. }
  destruct admitted as [job|]; [destruct rejected|]; try (apply pres_seq; [apply asking_horizon|exact Hsign]).
  unfold admitted_answer. apply pres_seq; [apply asking_look|intros ?; by apply pres_ret].
Qed.

(** ** Evictions *)
Lemma EvictAdmissionTombstones_keeps now cutoff db : keeps now db (EvictAdmissionTombstones cutoff db).2.
Proof.
  unfold EvictAdmissionTombstones. set (drop := List.filter _ _). cbn [snd].
  set (db1 := db <| sd_admitted := delete_keys drop.*1 (sd_admitted db) |>).
  set (db2 := match drop with [] => db1 | _ => _ end).
  assert (sd_revision_requests db2 = sd_revision_requests db /\ sd_admitted db2 = delete_keys drop.*1 (sd_admitted db)) as [Hr Ha].
  { unfold db2. destruct drop; [done|]. by destruct (match _ with Some _ => _ | None => _ end). }
  assert (forall t, forgotten t db -> forgotten t db2) as Hh.
  { intros t (hz & Hz & Ht). unfold db2. destruct drop as [|d drop']; [by exists hz|]. unfold db1. cbn. rewrite Hz.
    destruct (cutoff <? hz) eqn:Hc; [by exists hz|]. exists cutoff. cbn. split; [done|]. apply Z.ltb_ge in Hc. lia. }
  split; rewrite ?Hr; try done.
  - intros id s Hs. rewrite Ha, lookup_delete_keys. case_decide as Hin; [|left; by exists s]. right.
    apply list_elem_of_fmap in Hin as ([k s'] & -> & Hin). pose proof Hin as Hne. unfold drop in Hin.
    apply list_elem_of_In, filter_In in Hin as [Hin Hlt]. apply list_elem_of_In, elem_of_ForEach in Hin. cbn in Hin, Hlt.
    cbn [fst] in Hs. rewrite Hs in Hin. injection Hin as <-. apply Z.ltb_lt in Hlt. unfold db2. destruct drop as [|d drop']; [by apply not_elem_of_nil in Hne|].
    destruct (match cv_evidence_horizon _ with Some _ => _ | None => _ end) eqn:Hc.
    + unfold db1, forgotten in *. cbn in *. destruct (cv_evidence_horizon (sd_coverage db)) as [prev|]; [|done].
      apply Z.ltb_lt in Hc. exists prev. split; [done|lia].
    + exists cutoff. split; [done|lia].
  - intros Hb id s. rewrite Ha, lookup_delete_keys. case_decide; [done|]. apply Hb.
Qed.

Lemma estep_evidence now op db :
  before now db -> keeps now db (estep now op db).2 /\ forall a, a ∈ (estep now op db).1 -> a.2 = now /\ remembered a (estep now op db).2.
Proof.
  intros Hb. assert (forall db', quiet db db' -> keeps now db db' /\ forall a : string * Z, a ∈ [] -> a.2 = now /\ remembered a db') as Hquiet.
  { intros db' Hq. split; [by apply quiet_keeps|]. intros a Ha. by apply not_elem_of_nil in Ha. }
  assert (forall db', keeps now db db' -> keeps now db db' /\ forall a : string * Z, a ∈ [] -> a.2 = now /\ remembered a db') as Hkeeps.
  { intros db' Hk. split; [done|]. intros a Ha. by apply not_elem_of_nil in Ha. }
  destruct op; cbn [estep fst snd].
  - destruct (JobBegin_evidence now requestID fingerprint jobID deadline db Hb) as [Hk Hr].
    destruct (JobBegin _ _ _ _ _ _) as [[[rec []]|e] db']; cbn [fst snd] in *; try by apply Hkeeps.
    split; [done|]. intros a ->%list_elem_of_singleton. split; [done|]. by eapply Hr.
  - apply Hquiet, mutateJob_quiet.
  - apply Hquiet, ReserveOpen_quiet.
  - apply Hquiet, UpdateReservation_quiet.
  - by apply Hquiet.
  - destruct (CreateIndexed_evidence now rec requestID db Hb) as [Hk Hr].
    destruct (CreateIndexed _ _ _ _) as [[[]|e] db']; cbn [fst snd begun] in *; [|by apply Hkeeps].
    split; [done|]. intros a ->%list_elem_of_singleton. split; [done|]. by apply Hr.
  - apply Hquiet, UpdateSession_quiet.
  - destruct (BeginRevision_evidence now id intent db) as [Hk Hr].
    destruct (BeginRevision _ _ _ _) as [[[]|e] db']; cbn [fst snd begun] in *; [|by apply Hkeeps].
    split; [done|]. intros a ->%list_elem_of_singleton. split; [done|]. by apply Hr.
  - apply Hkeeps, commitRevision_keeps.
  - apply Hquiet, RecordRevisionEnvelope_quiet.
  - apply Hquiet, BindSettlementDomain_quiet.
  - apply Hkeeps. destruct (Open now key (Some db)) as [db'|] eqn:Ho; [by eapply Open_keeps|by apply keeps_same].
  - apply Hquiet, EvictJobs_quiet.
  - by apply Hquiet.
  - by apply Hquiet.
  - apply Hkeeps, EvictAdmissionTombstones_keeps.
  - by apply Hquiet.
  - apply Hquiet, handle_asks.
Qed.

(** Times do not go backwards. *)
Fixpoint timed (now : Z) (ops : list (Z * eop M)) : Prop :=
  match ops with [] => True | (t, _) :: ops => now <= t /\ timed t ops end.

Lemma before_later now now' db : now <= now' -> before now db -> before now' db.
Proof. intros Hle Hb id s Hs. specialize (Hb id s Hs). lia. Qed.

Lemma erun_evidence ops h now db :
  timed now ops -> before now db -> (forall a, a ∈ h -> remembered a db) ->
  forall a, a ∈ h ++ (erun ops db).1 -> remembered a (erun ops db).2.
Proof.
  revert h now db. induction ops as [|[t op] ops IH]; intros h now db Ht Hb Hh; cbn [erun].
  - rewrite app_nil_r. exact Hh.
  - destruct Ht as [Hle Ht]. destruct (estep_evidence t op db (before_later _ _ _ Hle Hb)) as [Hk Hr].
    destruct (estep t op db) as [h1 db1]. cbn [fst snd] in *.
    specialize (IH (h ++ h1) t db1 Ht (kp_before _ _ _ Hk (before_later _ _ _ Hle Hb))).
    destruct (erun ops db1) as [h2 db2]. cbn [fst snd] in *. rewrite app_assoc. apply IH.
    intros a [Ha|Ha]%elem_of_app; [by eapply remembered_keeps, Hh|by apply Hr].
Qed.

(** ** What a signed answer says *)
Section reading.
Context (db0 : SessionDB M).
Lemma reading_look {A} (f : SessionDB M -> A) : pres (eq db0) (look f) (fun _ => True).
Proof. by intros db <-. Qed.
Lemma reading_require b (e : na_refusal) : pres (eq db0) (require b e) (fun _ => True).
Proof. eapply pres_true, pres_require. Qed.
Lemma reading_canceled id q : pres (eq db0) (canceled_of id q) (fun _ => True).
Proof.
  unfold canceled_of. apply pres_seq; [apply reading_look|intros [o|]; [|by apply pres_ret]].
  apply pres_seq; [apply reading_require|intros _]. apply pres_seq; [apply reading_require|intros _; by apply pres_ret].
Qed.
Lemma reading_rejected now id q :
  (forall rec, sd_jobs db0 !! id = Some rec -> jb_State rec <> JobPaymentRejected) ->
  pres (eq db0) (rejected_of now id q) (fun r => r = None).
Proof.
  intros Hno db <-. unfold rejected_of, bind, look, JobByRequestID. destruct (sd_jobs db0 !! id) as [rec|] eqn:Hj.
  - rewrite bool_decide_false by (by apply Hno). split; [done|]. by intros ? [= <-].
  - split; [done|]. by intros ? [= <-].
Qed.
End reading.

(** The last step signs only what is in none of the records. *)
Lemma persist_signed now id encoded db env db' :
  persist now id encoded None db = (Ok (NotAdmitted env false), db') -> sd_non_admissions db !! id = None ->
  env = encoded /\ sd_revision_requests db !! id = None /\ sd_admitted db !! id = None /\ is_Some (sd_non_admissions db' !! id).
Proof.
  intros Hp Hn. unfold persist in Hp. apply bind_ok in Hp as (recorded & db1 & Hl & Hp). injection Hl as <- <-.
  unfold RecordNonAdmission, Update in Hp. unfold has in Hp.
  assert (forall e, e = SessionExists -> bind (require (bool_decide (e = SessionExists)) (Refused 500 ""))
    (fun _ => bind (look (JobByRequestID id)) (fun c => match c with Ok r => ret (ExchangeState r) | Err _ => fail (Refused 409 "admitted") end)) db
    <> (Ok (NotAdmitted env false), db')) as Hno.
  { intros e ->. unfold bind, look, require. rewrite bool_decide_true by done. cbn. destruct (JobByRequestID id db); by intros [=]. }
  destruct (bool_decide (is_Some (sd_jobs db !! id))); [by destruct (Hno SessionExists)|].
  destruct (match sd_open_reservations db !! id with Some _ => _ | None => _ end); [by destruct (Hno SessionExists)|].
  destruct (_ || _) eqn:Hb; [by destruct (Hno SessionExists)|]. to_prop. rewrite Hn in Hp. cbn in Hp. injection Hp as <- <-.
  split; [done|]. split; [by apply eq_None_not_Some|]. split; [by apply eq_None_not_Some|]. cbn. rewrite lookup_insert_eq. by eexists.
Qed.

Lemma sign_signed now coverage orch id q canceled db env db' :
  sign_absence now coverage orch id q canceled None db = (Ok (NotAdmitted env false), db') -> sd_non_admissions db !! id = None ->
  (exists rec, EncodeNonAdmission rec = Some env /\ nr_RequestId rec = id /\ nr_CoverageStartedAt rec = coverage) /\
  sd_revision_requests db !! id = None /\ sd_admitted db !! id = None /\ is_Some (sd_non_admissions db' !! id).
Proof.
  unfold sign_absence. destruct settlement_domain as [domain|]; [|done]. intros Hs Hn.
  apply bind_ok in Hs as ([] & db1 & [_ ->]%require_ok & Hs). apply bind_ok in Hs as ([] & db2 & Hc & Hs).
  assert (db2 = db) as -> by (destruct canceled; [by apply require_ok in Hc as [_ ->]|by apply ret_ok in Hc as [_ ->]]).
  apply bind_ok in Hs as ([] & db3 & [_ ->]%ret_ok & Hs).
  destruct (EncodeNonAdmission _) as [encoded|] eqn:He; [|done].
  destruct (persist_signed _ _ _ _ _ _ Hs Hn) as (-> & Hr & Ha & Hst). split; [|done]. eexists. split; [exact He|done].
Qed.

Lemma handle_signed now orch id signs body db env db' :
  (forall rec, sd_jobs db !! id = Some rec -> jb_State rec <> JobPaymentRejected) ->
  handleNonAdmission now orch id signs body db = (Ok (NotAdmitted env false), db') ->
  exists q issued rec, body = Some q /\ validate q = Ok issued /\ EncodeNonAdmission rec = Some env /\ nr_RequestId rec = id /\
    nr_CoverageStartedAt rec <= issued /\ (forall t, forgotten t db -> t < nr_CoverageStartedAt rec) /\
    sd_revision_requests db !! id = None /\ sd_admitted db !! id = None /\ is_Some (sd_non_admissions db' !! id).
Proof.
  intros Hno Hs. unfold handleNonAdmission in Hs.
  apply bind_ok in Hs as ([] & db1 & [_ ->]%require_ok & Hs). apply bind_ok in Hs as ([] & db2 & [_ ->]%require_ok & Hs).
  destruct body as [q|]; [|done]. destruct (validate q) as [issued|] eqn:Hv; [|done].
  apply bind_ok in Hs as (rev & db3 & [= _ <-] & Hs). apply bind_ok in Hs as ([] & db4 & [_ ->]%require_ok & Hs).
  apply bind_ok in Hs as ([] & db5 & Hp & Hs).
  assert (db5 = db) as ->.
  { case_bool_decide; [|by apply ret_ok in Hp as [_ ->]]. apply bind_ok in Hp as (started & db6 & [= _ <-] & [_ ->]%require_ok). done. }
  apply bind_ok in Hs as (canceled & db6 & Hc & Hs).
  destruct (pres_ok _ _ _ _ _ _ (reading_canceled db id q) eq_refl Hc) as [<- _].
  apply bind_ok in Hs as (prior & db7 & [= <- <-] & Hs). unfold NonAdmissionFor in Hs.
  destruct (sd_non_admissions db !! id) as [entry|] eqn:Hn; cbn [fmap option_fmap option_map] in Hs.
  { by apply bind_ok in Hs as ([] & db8 & [_ ->]%require_ok & [= ? ?]). }
  apply bind_ok in Hs as (rejected & db8 & Hr & Hs).
  destruct (pres_ok _ _ _ _ _ _ (reading_rejected db now id q Hno) eq_refl Hr) as [<- ->].
  apply bind_ok in Hs as (admitted & db9 & [= <- <-] & Hs). unfold WasAdmitted in Hs.
  destruct (sd_admitted db !! id) as [s|] eqn:Ha; cbn [fmap option_fmap option_map] in Hs.
  { unfold admitted_answer in Hs. apply bind_ok in Hs as (c & db10 & [= <- <-] & [Hret _]%ret_ok).
    by destruct (JobByRequestID id db). }
  apply bind_ok in Hs as (coverage & db10 & Hh & Hs). apply bind_ok in Hs as ([] & db11 & [Hle ->]%require_ok & Hs).
  to_prop.
  assert (asking db db10 /\ sd_non_admissions db10 !! id = None /\ forall t, forgotten t db -> t < coverage) as ([(Hqr & Hqa & _) _] & Hn' & Hf).
  { unfold EvidenceHorizon, CoverageStartedAt in Hh. unfold forgotten.
    destruct (cv_started_at (sd_coverage db)); cbn in Hh; destruct (cv_evidence_horizon (sd_coverage db)) as [hz|] eqn:Hz;
      injection Hh as <- <-; (split; [by split|]; split; [done|]); intros t (hz' & [= <-] & Ht); destruct (_ <? hz) eqn:Hcut; lia. }
  destruct (sign_signed _ _ _ _ _ _ _ _ _ Hs Hn') as ((rec & He & Hid & Hcov) & Hrev & Hadm & Hst).
  rewrite Hqr in Hrev. rewrite Hqa in Hadm. exists q, issued, rec. rewrite Hcov.
  do 4 (split; [done|]). split; [lia|done].
Qed.

(** ** While a statement stands *)
Definition keeps_statements op : bool := match op with EEvictNonAdmissions _ => false | _ => true end.

Lemma has_true {A} (m : M A) k : is_Some (m !! k) -> has m k = true.
Proof. intros Hk. unfold has. by rewrite bool_decide_true. Qed.

Lemma foldl_statements {B} (f : SessionDB M -> B -> SessionDB M) l db :
  (forall db x, sd_non_admissions (f db x) = sd_non_admissions db) -> sd_non_admissions (foldl f db l) = sd_non_admissions db.
Proof. intros Hf. revert db. induction l as [|x l IH]; intros db; [done|]. cbn [foldl]. by rewrite IH, Hf. Qed.
Lemma EvictJobs_statements now cutoff db : sd_non_admissions (EvictJobs now cutoff db).2 = sd_non_admissions db.
Proof.
  unfold EvictJobs. cbn [snd]. rewrite !(foldl_statements (B := string)); [done|..]; [|done].
  intros db' k. unfold abandon. by destruct (sd_jobs db' !! k).
Qed.

(** No call admits a request a statement stands about, unless it was refused
    and never ran. *)
Lemma estep_standing now op db id :
  keeps_statements op = true -> is_Some (sd_non_admissions db !! id) ->
  is_Some (sd_non_admissions (estep now op db).2 !! id) /\ forall a, a ∈ (estep now op db).1 -> a.1 <> id.
Proof.
  intros Hk Hn.
  assert (forall db' : SessionDB M, sd_non_admissions db' = sd_non_admissions db ->
    is_Some (sd_non_admissions db' !! id) /\ forall a : string * Z, a ∈ [] -> a.1 <> id) as Hsame.
  { intros db' ->. split; [done|]. intros a Ha. by apply not_elem_of_nil in Ha. }
  assert (forall (id' : string) (db' : SessionDB M), sd_non_admissions db' = sd_non_admissions db -> id' <> id ->
    is_Some (sd_non_admissions db' !! id) /\ forall a : string * Z, a ∈ [(id', now)] -> a.1 <> id) as Hother.
  { intros id' db' -> Hne. split; [done|]. by intros a ->%list_elem_of_singleton. }
  destruct op; cbn [estep fst snd]; try done.
  - unfold JobBegin, Update. destruct (sd_jobs db !! requestID) as [rec|]; [destruct (negb _); by apply Hsame|].
    destruct (decide (requestID = id)) as [->|Hne]; [rewrite (has_true _ _ Hn); by apply Hsame|].
    destruct (has _ _); [by apply Hsame|]. apply Hother; [|done]. unfold put_job, putJobIDIndex. by case_bool_decide.
  - unfold UpdateJob, mutateJob, Update. destruct (sd_jobs db !! requestID) as [r|]; [destruct (fn r)|]; by apply Hsame.
  - apply Hsame. unfold ReserveOpen, Update. case_bool_decide; [done|]. destruct (has _ _); [done|].
    destruct (has (sd_open_requests db) _); [done|]. by destruct (has (sd_open_reservations db) _).
  - apply Hsame. unfold UpdateReservation, Update. by destruct (sd_open_reservations db !! requestID).
  - by apply Hsame.
  - unfold CreateIndexed. destruct (_ || _); [by apply Hsame|]. unfold Update.
    destruct (decide (requestID = id)) as [->|Hne]; [rewrite (has_true _ _ Hn); by apply Hsame|].
    destruct (has _ _); [by apply Hsame|]. destruct (_ || _); [by apply Hsame|]. destruct (_ && _); [by apply Hsame|]. by apply Hother.
  - apply Hsame. unfold UpdateSession, Update. destruct (sd_sessions db !! id0) as [r|]; [destruct (fn r)|]; done.
  - unfold BeginRevision, Update. destruct (decide (ri_RequestID intent = id)) as [<-|Hne]; [rewrite (has_true _ _ Hn); by apply Hsame|].
    destruct (has _ _); [by apply Hsame|]. destruct (sd_sessions db !! id0) as [r|]; [|by apply Hsame].
    destruct (se_RevisionIntent r); [by apply Hsame|]. destruct (has (sd_revision_requests db) _); [by apply Hsame|]. by apply Hother.
  - apply Hsame. unfold commitRevision, Update. destruct (sd_sessions db !! id0) as [r|]; [|done].
    destruct (se_RevisionIntent r); [|done]. destruct (_ || _); [done|]. destruct (mutate r) as [changed|]; [|done].
    destruct (se_RevisionIntent changed); [|done]. by destruct (has _ _).
  - apply Hsame. unfold RecordRevisionEnvelope, Update. destruct (sd_topups db !! _); [|done]. by destruct (_ || _).
  - apply Hsame. unfold BindSettlementDomain, Update. destruct (negb _); [done|].
    destruct (cv_settlement_domain_id _); [destruct (negb _)|]; done.
  - apply Hsame. unfold Open. destruct (negb _); [done|]. unfold CoverageStartedAt. by destruct (cv_started_at _).
  - apply Hsame, EvictJobs_statements.
  - by apply Hsame.
  - by apply Hsame.
  - apply Hsame. unfold EvictAdmissionTombstones. cbn [snd]. destruct (List.filter _ _); [done|].
    by destruct (match cv_evidence_horizon _ with Some _ => _ | None => _ end).
  - split; [by apply handle_asks|]. intros a Ha. by apply not_elem_of_nil in Ha.
Qed.

Lemma erun_standing ops db id :
  forallb (fun o => keeps_statements o.2) ops = true -> is_Some (sd_non_admissions db !! id) ->
  forall a, a ∈ (erun ops db).1 -> a.1 <> id.
Proof.
  revert db. induction ops as [|[t op] ops IH]; intros db Hk Hn a; cbn [erun]; [by intros Ha%not_elem_of_nil|].
  cbn in Hk. apply andb_true_iff in Hk as [Ho Hk]. destruct (estep_standing t op db id Ho Hn) as [Hn' Hne].
  destruct (estep t op db) as [h1 db1]. cbn [fst snd] in *. specialize (IH db1 Hk Hn' a).
  destruct (erun ops db1) as [h2 db2]. cbn [fst snd] in *. intros [Ha|Ha]%elem_of_app; [by apply Hne|by apply IH].
Qed.

(** C29: after any calls on a fresh store, in the order of their times, when the endpoint signs a new statement that a request
    was never admitted, every admission of that request lies before the coverage the statement claims, which the request's
    own issuance is not before; and as long as no statement is evicted the request is never admitted afterwards.  (The
    exception is an exchange whose payment was refused, of which the statement says that nothing was run.) *)
Theorem signed_non_admission_is_true (start : Z) (key : string) db0 (ops later : list (Z * eop M)) (now : Z) (orch id : string)
    (signs : bool) (body : option nonAdmissionQuery) env db' :
  Open start key None = Ok db0 -> timed start ops ->
  let db := (erun ops db0).2 in
  (forall rec, sd_jobs db !! id = Some rec -> jb_State rec <> JobPaymentRejected) ->
  handleNonAdmission now orch id signs body db = (Ok (NotAdmitted env false), db') ->
  forallb (fun o => keeps_statements o.2) later = true ->
  exists q issued rec, body = Some q /\ validate q = Ok issued /\ EncodeNonAdmission rec = Some env /\ nr_RequestId rec = id /\
    nr_CoverageStartedAt rec <= issued /\
    (forall t, (id, t) ∈ (erun ops db0).1 -> t < nr_CoverageStartedAt rec) /\
    (forall t, (id, t) ∉ (erun later db').1).
Proof.
  intros Ho Ht db Hno Hs Hl. destruct (handle_signed _ _ _ _ _ _ _ _ Hno Hs) as (q & issued & rec & Hq & Hv & He & Hid & Hle & Hf & Hr & Ha & Hst).
  exists q, issued, rec. do 5 (split; [done|]). split.
  - intros t Hin. apply Hf. destruct (erun_evidence ops [] start db0 Ht) with (a := (id, t)) as [[x Hx]|[(s & Hs' & _)|Hfg]]; try done.
    + unfold Open in Ho. destruct (negb _); [done|]. injection Ho as <-. intros k s. cbn. by rewrite lookup_empty.
    + by intros a Hx%not_elem_of_nil.
    + cbn [fst] in Hx. unfold db in Hr. by rewrite Hr in Hx.
    + cbn [fst] in Hs'. unfold db in Ha. by rewrite Ha in Hs'.
  - intros t Hin. by apply (erun_standing later db' id Hl Hst (id, t) Hin).
Qed.
End evidence.

(** ** A broker that forgets *)
#[export] Instance plain_wire : EvidenceWire := {|
  EncodeNonAdmission rec := Some ("no:" +:+ nr_RequestId rec);
  envelope_account _ := None;
  settlement_domain := Some "domain";
  close_unexecuted _ _ _ := true;
|}.
#[export] Instance plain_auth : AuthWire := {|
  unmarshal_auth _ := None; unmarshal_partial _ := mkSpendAuthorization None ""; marshal_payload _ := None;
  marshal_auth _ := None; parse_time s := Some (len s); format_time _ := "" |}.

Definition broker_key : string := "0123456789abcdef0123456789abcdef".
Definition broker_store : SessionDB (gmap string) :=
  match Open 1 broker_key None with Ok db => db | Err _ => new_session_db end.
(** Job "a" is admitted at 10, over at 20, and forgotten by 200. *)
Definition broker_day : list (Z * eop (gmap string)) :=
  [(10, EJobBegin "a" "fp" "job-a" 100);
   (20, EUpdateJob "a" (FinishRecoveredJob 20 "settlement"));
   (30, EJobBegin "b" "fp" "job-b" 100);
   (200, EEvictJobs 100);
   (200, EEvictAdmissionTombstones 25)].
Definition query_issued (at_ : string) : nonAdmissionQuery :=
  mknonAdmissionQuery "wa_0123456789abcdef0123456789abcdef" "paid-job/v1" "work" "0x0101010101010101010101010101010101010101"
    "0x0202020202020202020202020202020202020202" "quote" (Some 0) "aa" "bb" at_.
(** A later attempt to admit the request the statement is about, and another one. *)
Definition broker_evening : list (Z * eop (gmap string)) :=
  [(310, EJobBegin "a" "fp" "job-a2" 400); (320, EJobBegin "d" "fp" "job-d" 400)].
Definition issued_40 : string := "1970-01-01T00:00:00.000000000000000000040".

(** The statement about "a", made after the broker forgot it, covers only
    what came after its admission; later only "d" gets in. *)
Lemma signed_non_admission_is_true_witness :
  Open 1 broker_key (M := gmap string) None = Ok broker_store /\
  (erun broker_day broker_store).1 = [("a", 10); ("b", 30)] /\
  exists db' q issued rec,
    handleNonAdmission 300 "0xorch" "a" true (Some (query_issued issued_40)) (erun broker_day broker_store).2
      = (Ok (NotAdmitted "no:a" false), db') /\
    Some (query_issued issued_40) = Some q /\ validate q = Ok issued /\ nr_CoverageStartedAt rec <= issued /\
    (forall t, ("a", t) ∈ (erun broker_day broker_store).1 -> t < nr_CoverageStartedAt rec) /\
    (forall t, ("a", t) ∉ (erun broker_evening db').1) /\ (erun broker_evening db').1 = [("d", 320)].
Proof.
  split; [by vm_compute|]. split; [by vm_compute|].
  destruct (handleNonAdmission 300 "0xorch" "a" true (Some (query_issued issued_40)) (erun broker_day broker_store).2)
    as [r db'] eqn:Hh.
  assert (r = Ok (NotAdmitted "no:a" false)) as ->.
  { replace r with (r, db').1 by done. rewrite <- Hh. by vm_compute. }
  destruct (signed_non_admission_is_true 1 broker_key broker_store broker_day broker_evening 300 "0xorch" "a" true
    (Some (query_issued issued_40)) "no:a" db') as (q & issued & rec & Hq & Hv & _ & _ & Hle & Hf & Hl).
  - by vm_compute.
  - repeat split; cbn; lia.
  - intros rec. vm_compute. by intros [=].
  - exact Hh.
  - done.
  - exists db', q, issued, rec. do 6 (split; [done|]).
    apply (f_equal snd) in Hh. cbn [snd] in Hh. rewrite <- Hh. by vm_compute.
Defined.
