(* ===== verification/EngineTypes.v ===== *)
(** * What the session engine is made of

    capability-broker/internal/sessionengine: the engine's errors, offerings and
    time limits (engine.go), its state, and what lies outside it: the payee's
    daemon (payment/client.go, payment/admission_recovery.go), the runners
    (runnerclient.go), the counters of runner slots, and the disk, as the
    operations of the class [Outside] on a state of theirs.  [Descriptor] has
    the validation of what a runner answers (descriptor.go).

    The payment client is one that supports accounts and admission recovery, as
    the broker's own clients do.  A handler reads the clock once. *)
From S2P Require Import Prelude.
From S2P Require Import GoBytes.
From S2P Require Import Bolt.
From S2P Require Import Actions.
From S2P Require Import Spendauth.
From S2P Require Import WorkLedger.
From S2P Require Import WorkClient.
From S2P Require Import SessionStore.

Open Scope record_scope.

(** ** Errors *)
Inductive engine_error :=
  | ProtocolError (code : string) (revision : option RevisionDecision)
  | RetryableError (revision : option RevisionDecision)
  | CapacityError (sessionID gatewaySessionID workID : string) (backoffSeconds : Z)
  | StoreError (e : store_error)
  | revisionFailure (reason stage code : string)
  | EngineErr (msg : string).

Definition protoErr (code : string) : engine_error := ProtocolError code None.
Definition retryable : engine_error := RetryableError None.

(** The reasons a session ends for. *)
Definition ReasonGatewayClose : string := "gateway_close".
Definition ReasonRunnerEnded : string := "runner_ended".
Definition ReasonRunnerFailed : string := "runner_failed".
Definition ReasonLeaseExpired : string := "lease_expired".
Definition ReasonHeartbeatLost : string := "heartbeat_lost".
Definition ReasonAuthorizationExhausted : string := "authorization_exhausted".
Definition ReasonRecoveryFailed : string := "recovery_failed".
Definition ReasonOpenFailed : string := "open_failed".
Definition ReasonCapacityExhausted : string := "capacity_exhausted".
Definition ReasonOutputFailed : string := "output_failed".

(** ** Offerings *)
Record OfferingSpec := mkOfferingSpec {
  os_Capability : string;
  os_Offering : string;
  os_BackendRef : string;
  os_WorkUnit : string;
  os_PricePerWorkUnitWei : option Z;
  os_PerUnits : Z;
  os_DescriptorSchema : string;
  os_DescriptorMaxBytes : Z;
  os_HeartbeatInterval : Z;
  os_MissedThreshold : Z;
  os_LeaseMax : Z;
  os_Refill : string;
  os_MinRunwayUnits : Z;
}.

Definition heartbeat (s : OfferingSpec) : Z := if os_HeartbeatInterval s <=? 0 then 10 * second else os_HeartbeatInterval s.
Definition missed (s : OfferingSpec) : Z := if os_MissedThreshold s <=? 0 then 3 else os_MissedThreshold s.
Definition leaseMax (s : OfferingSpec) : Z := if os_LeaseMax s <=? 0 then 3600 * second else os_LeaseMax s.

(** When a lease given now expires. *)
Definition lease_from (now : Z) (s : OfferingSpec) : Z :=
  let lease := now + i64 (heartbeat s * missed s) in
  if now + leaseMax s <? lease then now + leaseMax s else lease.

(** ** The payee's answers, and its refusals *)
Record AuthorizationStatus := mkAuthorizationStatus {
  as_State : Z;
  as_Reserved : option Z;
  as_Billed : option Z;
  as_ActualUnits : Z;
  as_SettlementSeq : Z;
}.
Record PayeeAccount := mkPayeeAccount {
  pa_WholesaleAccountID : string;
  pa_SettlementDomainID : string;
  pa_Payer : string;
  pa_Available : option Z;
}.
Record AdmitResult := mkAdmitResult {
  am_State : Z;
  am_Account : option PayeeAccount;
  am_Credited : option Z;
}.
Record AdvanceResult := mkAdvanceResult {
  av_State : Z;
  av_CumulativeBilled : option Z;
  av_Reserved : option Z;
}.
Record SettleResult := mkSettleResult {
  sl_State : Z;
  sl_Billed : option Z;
  sl_Released : option Z;
}.
Record CancelResult := mkCancelResult {
  cn_Canceled : bool;
  cn_Authorization : option AuthorizationStatus;
  cn_Account : option PayeeAccount;
}.

(** A failed call: its status code, the reason in its details, and whether the
    broker's own gate stopped it. *)
Record rpc_error := mkrpc_error {
  re_Code : string;
  re_Reason : string;
  re_Stopped : bool;
}.

(** The reasons that prove a refusal. *)
Definition refusal_reasons : list string :=
  ["RESERVATION_EXCEEDS_REMAINING_DEBIT"; "REVISION_PREDECESSOR_INVALID"; "REVISION_LIMITS_BELOW_USAGE";
   "AUTHORIZATION_EXPIRED_UNUSED"; "AUTHORIZATION_ADMISSION_CANCELED"; "AUTHORIZATION_NOT_ADMITTED";
   "AUTHORIZATION_STATE_INVALID"; "INSUFFICIENT_WHOLESALE_CREDIT"; "AUTHORIZATION_MALFORMED";
   "AUTHORIZATION_SIGNATURE_INVALID"; "SETTLEMENT_DOMAIN_MISMATCH"; "PAYEE_MISMATCH";
   "CHAIN_OR_DENOMINATION_MISMATCH"; "AUTHORIZATION_IDENTITY_INVALID"; "AUTHORIZATION_REQUEST_BINDING_INVALID";
   "CALLER_KEY_INVALID"; "REVISION_FIELDS_INVALID"; "PROTOCOL_UNSUPPORTED"; "PRICE_SCOPE_MISMATCH"; "PRICE_INVALID";
   "AUTHORIZATION_TIME_INVALID"; "AUTHORIZATION_LIMITS_INVALID"; "DEBIT_CAP_BELOW_PRICE"; "AUTHORIZATION_ID_REUSED";
   "FUNDING_MALFORMED"; "FUNDING_PAYER_MISMATCH"; "FUNDING_TICKETS_REJECTED"; "FUNDING_VALIDATION_FAILED";
   "FUNDING_INVALID_RECIPIENT_RAND"; "FUNDING_NONCE_CAP_REACHED"; "FUNDING_INVALID_SIGNATURE"; "RECEIVER_SOURCE_FROZEN"].
Definition knownAdmissionReason (reason : string) : bool * bool :=
  if bool_decide (reason = "AUTHORIZATION_NOT_ACTIVE") then (true, false)
  else if bool_decide (reason ∈ refusal_reasons) then (true, true)
  else (false, false).
Definition AdmissionRefused (e : rpc_error) : bool :=
  re_Stopped e ||
  ((knownAdmissionReason (re_Reason e)).2 && bool_decide (re_Code e ∈ ["FailedPrecondition"; "InvalidArgument"; "PermissionDenied"])).
Definition SafeAdmissionReason (e : rpc_error) : string :=
  if re_Stopped e then "ADMISSION_STOPPED"
  else if (knownAdmissionReason (re_Reason e)).1 then re_Reason e
  else if bool_decide (re_Code e ∈ ["Unavailable"; "DeadlineExceeded"; "Canceled"]) then "RECEIVER_UNAVAILABLE"
  else "ADMISSION_OUTCOME_UNKNOWN".
Definition receiverRevisionFailure (stage : string) (e : rpc_error) : engine_error :=
  revisionFailure (SafeAdmissionReason e) stage (re_Code e).

(** ** The runners *)
Inductive runner_error :=
  | ErrRunnerSessionGone
  | RunnerCapacityError (backoffSeconds : Z)
  | RunnerErr (msg : string).
#[export] Instance runner_error_eq_dec : EqDecision runner_error.
Proof. solve_decision. Defined.

Record RunnerCreateRequest := mkRunnerCreateRequest {
  rc_SessionID : string;
  rc_WorkID : string;
  rc_Capability : string;
  rc_Offering : string;
  rc_SessionParams : string;
  rc_CallbackURL : string;
  rc_CallbackToken : string;
}.
Record RunnerCreateResult := mkRunnerCreateResult {
  rr_RunnerSessionID : string;
  rr_Runtime : string;
}.
Record RunnerCreateResolution := mkRunnerCreateResolution {
  rx_SessionID : string;
  rx_Outcome : string;
  rx_RunnerSessionID : string;
}.

(** ** The outside *)
Class Outside (R : Type) := {
  (** The payee's daemon; an answer of [None] is a [nil] result. *)
  out_GetSpendAuthorization : string -> string -> string -> st R rpc_error (option AuthorizationStatus);
  out_AdmitAuthorization : AdmitRequest -> st R rpc_error (option AdmitResult);
  out_AdvanceAuthorization : AdvanceRequest -> st R rpc_error (option AdvanceResult);
  out_SettleAuthorization : SettleRequest -> st R rpc_error (option SettleResult);
  out_CancelAuthorizationAdmission : string -> st R rpc_error (option CancelResult);
  (** The runner behind a backend.  Not every runner can reconcile creations. *)
  out_CreateSession : string -> RunnerCreateRequest -> st R runner_error RunnerCreateResult;
  out_QuerySession : string -> string -> st R runner_error unit;
  out_TerminateSession : string -> string -> string -> st R runner_error unit;
  out_ReconcileSessionCreate : string -> option (string -> st R runner_error (option RunnerCreateResolution));
  (** Runner slots, when the broker counts them; attribution of the work. *)
  out_AcquireCapacity : option (string -> OfferingSpec -> st R string unit);
  out_ReleaseCapacity : string -> R -> R;
  out_BindWork : string -> string -> OfferingSpec -> st R string unit;
  (** Whether the next write to the store succeeds. *)
  out_Write : R -> bool * R;
}.

(** ** The engine *)

(** What the engine did that cannot be undone, for the theorems: runner
    sessions it saw ended, creations it saw excluded, slots it gave back. *)
Inductive effect :=
  | Terminated (backend runnerSessionID : string)
  | Fenced (backend sessionID : string)
  | Refused (backend sessionID : string)
  | Released (capacityRef : string).

Record EngineState (M : Type -> Type) (R : Type) := mkEngineState {
  en_Store : SessionDB M;
  en_Outside : R;
  en_Effects : list effect;
}.
Arguments mkEngineState {M R}.
Arguments en_Store {M R}.
Arguments en_Outside {M R}.
Arguments en_Effects {M R}.

(** What a call of the engine finds: the clock, the offerings by session id,
    how long ended sessions are kept, where runners report. *)
Record Config := mkConfig {
  cf_Now : Z;
  cf_Specs : string -> option OfferingSpec;
  cf_TerminalRetention : Z;
  cf_CallbackBaseURL : string;
}.

Section engine.
Context `{Bolt M} `{Outside R}.

Abbreviation eact := (st (EngineState M R) engine_error).

(** ** Calls on the store and on the outside *)
Definition load {A} (op : SessionDB M -> result store_error A) : eact A :=
  fun s => match op (en_Store s) with Ok a => (Ok a, s) | Err e => (Err (StoreError e), s) end.
Definition save {A} (op : SessionDB M -> result store_error A * SessionDB M) : eact A := fun s =>
  let '(written, out) := out_Write (en_Outside s) in
  if written then
    let '(r, db) := op (en_Store s) in
    (match r with Ok a => Ok a | Err e => Err (StoreError e) end, mkEngineState db out (en_Effects s))
  else (Err (StoreError (StoreErr "write failed")), mkEngineState (en_Store s) out (en_Effects s)).
(** A call on the outside, its failure as a value. *)
Definition ask {E A} (op : st R E A) : eact (result E A) := fun s =>
  let '(r, out) := op (en_Outside s) in (Ok r, mkEngineState (en_Store s) out (en_Effects s)).
Definition happened (e : effect) : eact unit := fun s =>
  (Ok tt, mkEngineState (en_Store s) (en_Outside s) (en_Effects s ++ [e])).
Definition release (ref : string) : eact unit := fun s =>
  if bool_decide (ref = "") then (Ok tt, s)
  else (Ok tt, mkEngineState (en_Store s) (out_ReleaseCapacity ref (en_Outside s)) (en_Effects s ++ [Released ref])).

(** [TerminateSession], a session that is gone counting as ended. *)
Definition terminate (backend runnerSessionID reason : string) : eact (result runner_error unit) := fun s =>
  let '(r, out) := out_TerminateSession backend runnerSessionID reason (en_Outside s) in
  let done := match r with Ok _ => true | Err e => bool_decide (e = ErrRunnerSessionGone) end in
  (Ok (if done then Ok tt else r),
   mkEngineState (en_Store s) out (en_Effects s ++ (if done then [Terminated backend runnerSessionID] else []))).

(** A read-modify-write of one session. *)
Definition modify (now : Z) (id : string) (fn : SessionRecord -> result store_error SessionRecord) : eact unit :=
  save (UpdateSession now id fn).
Definition session (id : string) : eact SessionRecord := load (Get id).
End engine.

(** ** Helpers of the code *)
Definition bigIntString (v : option Z) : string := match v with None => "0" | Some n => dec_string n end.
Definition balanceString (v : option Z) : string := bigIntString v.
Definition addDecimal (current : string) (delta : Z) : string := dec_string (default 0 (SetString10 current) + delta).
Definition decimalBytes (s : string) : string := match SetString10 s with None => "" | Some v => big_bytes v end.

Definition nil_payload : SpendAuthorizationPayload :=
  mkPayload "" "" "" "" "" "" "" "" "" None "" 0 "" "" "" "" 0 "" "" 0 "" "" "".
Definition nil_quote : QuoteRef := mkQuoteRef "" 0 "" "".
(** [GetMaxDebitWei().GetValue()] as a number. *)
Definition max_debit (p : SpendAuthorizationPayload) : Z := be_Z (py_MaxDebitWei p).
