(* ===== verification/SessionSettlement.v ===== *)
(** * The signed settlement of a session, and the payee's totals

    capability-broker/internal/sessionengine (settlement.go, reconciliation.go):
    what a session cost, as a statement the broker signs, frozen at the end of
    the session; and the reconciliation of a session with what the payee says
    it billed.  The protobuf encoding of the statement is the class
    [SettlementWire]. *)
From S2P Require Import Prelude.
From S2P Require Import GoBytes.
From S2P Require Import Billing.
From S2P Require Import Bolt.
From S2P Require Import Actions.
From S2P Require Import Spendauth.
From S2P Require Import WorkClient.
From S2P Require Import SessionStore.
From S2P Require Import EngineTypes.

Open Scope record_scope.

(** A [BigUInt] stands for its bytes; [st_Breakdown] lists the map's entries. *)
Record SettlementRecord := mkSettlementRecord {
  st_WholesaleAccountId : string;
  st_SettlementDomainId : string;
  st_AcceptedQuoteRef : QuoteRef;
  st_WorkUnitName : string;
  st_ActualUnits : Z;
  st_BilledUnits : Z;
  st_BilledValueWei : string;
  st_SessionId : string;
  st_GatewaySessionId : string;
  st_WorkId : string;
  st_ClaimedUnits : Z;
  st_DebitedUnits : Z;
  st_FundedValueWei : string;
  st_AmountWei : string;
  st_PerUnits : Z;
  st_SettlementSeq : Z;
  st_IssuedAt : string;
  st_State : string;
  st_AuthorizationId : string;
  st_AuthorizedValueWei : option string;
  st_ReservedValueWei : option string;
  st_ReleasedValueWei : option string;
  st_AccountFundingValueWei : option string;
  st_Breakdown : list (string * string);
}.

Class SettlementWire := {
  (** [proto.Marshal] and [proto.Unmarshal] of the statement. *)
  marshal_settlement : SettlementRecord -> option string;
  unmarshal_settlement : string -> option SettlementRecord;
}.

(** ** The payee's totals *)

(** A session brought up to what the payee reports of its authorization. *)
Definition reconcileReceiverUsage (r : SessionRecord) (usage : option AuthorizationStatus) : result store_error SessionRecord :=
  match usage with
  | Some (mkAuthorizationStatus _ (Some reserved) (Some paid) units seq) =>
      let billed := default 0 (SetString10 (se_BilledWei r)) in
      if (paid <? 0) || (reserved <? 0) then Err (StoreErr "receiver accounting state missing or invalid")
      else if (units <? se_DebitedTotal r) || (paid <? billed) || (seq <? se_DebitSeq r)
      then Err (StoreErr "receiver accounting state regressed")
      else if negb (se_PendingDebitSeq r =? 0) && (seq <? se_PendingDebitSeq r)
      then Err (StoreErr "usage advance remains unresolved")
      else
        match SetString10 (se_AuthorizationMaxDebitWei r) with
        | None => Err (StoreErr "receiver usage exceeds authorization")
        | Some maxDebit =>
            if (se_AuthorizationMaxUnits r <? units) || (maxDebit <? paid)
            then Err (StoreErr "receiver usage exceeds authorization")
            else Ok (r <| se_DebitedTotal := units |> <| se_BilledWei := dec_string paid |> <| se_DebitSeq := seq |>
                       <| se_ClaimedTotal := Z.max (se_ClaimedTotal r) units |>
                       <| se_AuthorizationReservedWei := dec_string reserved |> <| se_PendingDebitSeq := 0 |>)
        end
  | _ => Err (StoreErr "receiver accounting state missing or invalid")
  end.

(** ** The statement *)
Definition wireState (internal : string) : string :=
  if bool_decide (internal = StateActive) then "open"
  else if bool_decide (internal = StateWindingDown) then "winding_down"
  else "closed".

(** The price the statement is made at: the accepted one, when on record. *)
Definition acceptedSettlementSpec (rec : SessionRecord) (spec : option OfferingSpec) : option OfferingSpec :=
  if bool_decide (se_AcceptedPriceWei rec = "") then spec
  else
    match SetString10 (se_AcceptedPriceWei rec) with
    | None => None
    | Some price =>
        if (price <? 0) || (se_AcceptedPricePerUnits rec =? 0) then None
        else Some (mkOfferingSpec "" "" "" "" (Some price) (se_AcceptedPricePerUnits rec) "" 0 0 0 0 "" 0)
    end.

(** [gap]: the runner claimed something else than was debited. *)
Definition gap_reason (rec : SessionRecord) : string :=
  if (se_DebitedTotal rec <? se_ClaimedTotal rec) && (se_DebitedTotal rec =? se_AuthorizationMaxUnits rec) &&
     bool_decide (se_CloseReason rec = ReasonAuthorizationExhausted)
  then "authorization_cap" else "unreconciled_claim".
Definition when_set (key value : string) : list (string * string) := if bool_decide (value = "") then [] else [(key, value)].

Section settlement.
Context `{AuthWire} `{SettlementWire}.

Definition breakdown (rec : SessionRecord) : list (string * string) :=
  when_set "termination_reason" (se_CloseReason rec) ++ when_set "output_state" (se_OutputState rec) ++
  match se_OutputStateSince rec with None => [] | Some t => [("output_state_since", format_time t)] end ++
  when_set "last_failure_code" (se_LastFailureCode rec) ++
  (if se_ClaimedTotal rec =? se_DebitedTotal rec then []
   else [("claim_debit_gap", "true"); ("claim_debit_gap_reason", gap_reason rec)]).

(** What the session owes: the payee's figure, or the price of the debited units. *)
Definition billed_value (rec : SessionRecord) (amount perUnits : Z) : Z :=
  match SetString10 (se_BilledWei rec) with
  | Some v => if 0 <? v then v else BillFor amount perUnits (se_DebitedTotal rec)
  | None => BillFor amount perUnits (se_DebitedTotal rec)
  end.

Definition SettlementFor (now : Z) (rec : SessionRecord) (spec : option OfferingSpec) : option SettlementRecord :=
  if negb (bool_decide (se_TerminalSettlement rec = "")) then unmarshal_settlement (se_TerminalSettlement rec)
  else
    match acceptedSettlementSpec rec spec with
    | None => None
    | Some spec =>
        let amount := default 0 (os_PricePerWorkUnitWei spec) in
        let perUnits := if os_PerUnits spec =? 0 then 1 else os_PerUnits spec in
        let account := bool_decide (se_AccountAuthorizationID rec = "") in
        let value (s : string) := if account then None else Some (decimalBytes s) in
        Some {|
          st_WholesaleAccountId := se_WholesaleAccountID rec; st_SettlementDomainId := se_SettlementDomainID rec;
          st_AcceptedQuoteRef := mkQuoteRef (se_QuoteID rec) (se_QuoteVersion rec) (se_ConstraintFingerprint rec) (se_RouteFingerprint rec);
          st_WorkUnitName := se_Unit rec; st_ActualUnits := se_DebitedTotal rec; st_BilledUnits := se_DebitedTotal rec;
          st_BilledValueWei := big_bytes (billed_value rec amount perUnits);
          st_SessionId := se_SessionID rec; st_GatewaySessionId := se_GatewaySessionID rec; st_WorkId := se_AccountAuthorizationID rec;
          st_ClaimedUnits := se_ClaimedTotal rec; st_DebitedUnits := se_DebitedTotal rec;
          st_FundedValueWei := decimalBytes (se_FundedWei rec);
          st_AmountWei := big_bytes amount; st_PerUnits := perUnits;
          st_SettlementSeq := se_SettlementSeq rec; st_IssuedAt := format_time now; st_State := wireState (se_State rec);
          st_AuthorizationId := se_AccountAuthorizationID rec;
          st_AuthorizedValueWei := value (se_AuthorizationMaxDebitWei rec);
          st_ReservedValueWei := value (se_AuthorizationReservedWei rec);
          st_ReleasedValueWei := value (se_AuthorizationReleasedWei rec);
          st_AccountFundingValueWei := value (se_FundedWei rec);
          st_Breakdown := breakdown rec
        |}
    end.

(** The next number of the session's own sequence of statements. *)
Definition next_settlement (r : SessionRecord) : result store_error SessionRecord :=
  if se_SettlementSeq r =? two64 - 1 then Err (StoreErr "settlement sequence exhausted")
  else Ok (r <| se_SettlementSeq := se_SettlementSeq r + 1 |>).

Definition freezeTerminalSettlement (now : Z) (spec : option OfferingSpec) (r : SessionRecord) : result store_error SessionRecord :=
  if negb (bool_decide (se_TerminalSettlement r = "")) then Ok r
  else
    match acceptedSettlementSpec r spec with
    | None => Err (StoreErr "settlement offering unavailable")
    | Some spec =>
        let! r := next_settlement r in
        match SettlementFor now r (Some spec) with
        | None => Err (StoreErr "settlement unavailable")
        | Some statement =>
            match marshal_settlement statement with
            | None => Err (StoreErr "marshal")
            | Some raw => Ok (r <| se_TerminalSettlement := raw |>)
            end
        end
    end.

(** ** On the engine *)
Section engine.
Context `{Bolt M} `{Outside R}.
Open Scope act_scope.

Abbreviation eact := (st (EngineState M R) engine_error).

(** What [RecordSettlement] writes. *)
Definition record_settlement (now : Z) (spec : option OfferingSpec) (r : SessionRecord) : result store_error SessionRecord :=
  if Terminal r then freezeTerminalSettlement now spec r else next_settlement r.

Definition RecordSettlement (cfg : Config) (sessionID : string) : eact (option SettlementRecord) :=
  let now := cf_Now cfg in
  do! rec <- session sessionID;
  if Terminal rec && negb (bool_decide (se_TerminalSettlement rec = "")) then ret (SettlementFor now rec None)
  else
    match acceptedSettlementSpec rec (cf_Specs cfg sessionID) with
    | None => fail (EngineErr "settlement offering unavailable")
    | Some spec =>
        run! modify now sessionID (record_settlement now (Some spec));
        do! rec <- session sessionID;
        ret (SettlementFor now rec (if Terminal rec then None else Some spec))
    end.

(** Settle with the payee at what it says was used; the session first. *)
Definition settleSessionAuthorizationLocked (cfg : Config) (rec : SessionRecord) : eact SettleResult :=
  let now := cf_Now cfg in
  do! answer <- ask (out_GetSpendAuthorization (se_Sender rec) (se_AccountAuthorizationID rec) (se_WholesaleAccountID rec));
  match answer with
  | Err _ => fail (EngineErr "receiver unavailable")
  | Ok usage =>
      match usage with
      | None => fail (EngineErr "receiver settlement authority unresolved")
      | Some u =>
          run! require ((as_State u =? ADMITTED) || (as_State u =? SETTLED)) (EngineErr "receiver settlement authority unresolved");
          run! require (is_ok (reconcileReceiverUsage rec usage)) (EngineErr "receiver accounting state");
          run! modify now (se_SessionID rec) (fun r => reconcileReceiverUsage r usage);
          run! require (negb ((as_State u =? ADMITTED) && (as_SettlementSeq u =? two64 - 1)))
                 (EngineErr "receiver settlement sequence exhausted");
          let seq := if as_State u =? ADMITTED then as_SettlementSeq u + 1 else as_SettlementSeq u in
          do! settled <- ask (out_SettleAuthorization (mkSettleRequest (se_WholesaleAccountID rec) (se_Sender rec)
                                (se_AccountAuthorizationID rec) (as_ActualUnits u) seq));
          match settled with
          | Ok (Some s) =>
              run! require ((sl_State s =? SETTLED) && bool_decide (is_Some (sl_Billed s)) && bool_decide (sl_Billed s = as_Billed u))
                     (EngineErr "receiver returned inconsistent settlement");
              ret s
          | _ => fail (EngineErr "receiver returned inconsistent settlement")
          end
      end
  end.
End engine.
End settlement.
