(* ===== verification/SessionRevisions.v ===== *)
(** * Revisions of a session's authorization

    capability-broker/internal/sessionengine (ReviseAuthorization of engine.go,
    revisions.go, revision_decisions.go): a payer extends a running session with
    a successor authorization.  The intent is on disk before the payee is
    asked; until the payee's answer is known it is resumed, with a growing
    delay, and then committed or refused with evidence.  The logs and the
    observer of decisions are left out. *)
From S2P Require Import Prelude.
From S2P Require Import GoBytes.
From S2P Require Import GoCodecs.
From S2P Require Import Billing.
From S2P Require Import Bolt.
From S2P Require Import Actions.
From S2P Require Import Spendauth.
From S2P Require Import WorkLedger.
From S2P Require Import WorkClient.
From S2P Require Import SessionStore.
From S2P Require Import EngineTypes.
From S2P Require Import SessionSettlement.

Open Scope record_scope.

(** The evidence of a revision's outcome. *)
Record SessionRevisionRecord := mkSessionRevisionRecord {
  sv_WholesaleAccountId : string;
  sv_SettlementDomainId : string;
  sv_BrokerUri : string;
  sv_SessionId : string;
  sv_GatewaySessionId : string;
  sv_RequestId : string;
  sv_Payer : string;
  sv_Payee : string;
  sv_AuthorizationId : string;
  sv_PredecessorAuthorizationId : string;
  sv_Revision : Z;
  sv_AuthorizationFingerprint : string;
  sv_AcceptedQuoteRef : QuoteRef;
  sv_Admitted : bool;
  sv_NonAdmissionBasis : string;
  sv_Reason : string;
  sv_Stage : string;
  sv_ReceiverCode : string;
  sv_ObservedAt : string;
  sv_MaxTotalUnits : Z;
  sv_MaxDebitWei : string;
}.
Class RevisionWire := { marshal_revision : SessionRevisionRecord -> option string }.

Record TopUpResult := mkTopUpResult {
  tr_Lease : Z;
  tr_Balance : option Z;
  tr_Revision : option RevisionDecision;
}.

(** What is still to be reserved of a successor, or why nothing is. *)
Definition remainingRevisionReservation (p : SpendAuthorizationPayload) (requested : Z) (usage : AuthorizationStatus) : result string Z :=
  match as_Billed usage with
  | None => Err "REVISION_UNITS_EXHAUSTED"
  | Some paid =>
      if (paid <? 0) || (py_MaxTotalUnits p <=? as_ActualUnits usage) then Err "REVISION_UNITS_EXHAUSTED"
      else if max_debit p - paid <? 0 then Err "REVISION_DEBIT_BELOW_USAGE"
      else
        let price := default (mkAcceptedPrice None 0 "" "" "" None) (py_AcceptedPrice p) in
        let future := BillFor (price_wei price) (ap_UnitsPerPrice price) (py_MaxTotalUnits p) - paid in
        if future <? 0 then Err "REVISION_PRICE_BELOW_USAGE"
        else
          let remaining := if (0 <? future) && (future <? max_debit p - paid) then future else max_debit p - paid in
          Ok (if (0 <? requested) && (requested <? remaining) then requested else remaining)
  end.

(** The delay before the next attempt, after so many failures. *)
Definition retry_delay (failures : Z) : Z :=
  let delay := i64 (Z.shiftl second (failures - 1)) in if minute <? delay then minute else delay.

Section revisions.
Context `{Bolt M} `{AuthWire} `{RevisionWire} `{Outside R}.
Implicit Types (p : SpendAuthorizationPayload) (intent : RevisionIntent).

Open Scope act_scope.
Abbreviation eact := (st (EngineState M R) engine_error).

(** ** Decisions *)

(** The payload of a message whose decoding error is ignored. *)
Definition payload_ignoring_error (wire : string) : SpendAuthorizationPayload :=
  default nil_payload (sa_Payload (default (unmarshal_partial wire) (unmarshal_auth wire))).

Definition revisionDecision (now : Z) (rec : SessionRecord) intent (reason stage code : string) : RevisionDecision :=
  let p := payload_ignoring_error (ri_AuthorizationBytes intent) in
  let '(requested, reserved, paid, units) :=
    match ri_Decision intent with
    | Some prior => (rd_RequestedReservationWei prior, rd_ReservationWei prior, rd_BilledWei prior, rd_ActualUnits prior)
    | None => (ri_ReservationWei intent, ri_ReservationWei intent, "", 0)
    end in
  mkRevisionDecision requested reserved paid units (py_MaxTotalUnits p) (dec_string (max_debit p)) "pending" reason stage code
    (se_SessionID rec) (se_GatewaySessionID rec) (ri_RequestID intent) (py_AuthorizationId p) (py_PredecessorAuthorizationId p)
    (py_Revision p) now None.

(** A change of the stored intent, which must be there. *)
Definition on_intent (fn : RevisionIntent -> SessionRecord -> SessionRecord) (r : SessionRecord) : result store_error SessionRecord :=
  match se_RevisionIntent r with None => Err (StoreErr "revision intent missing") | Some i => Ok (fn i r) end.

Definition saveRevisionDecision (now : Z) (rec : SessionRecord) intent (d : RevisionDecision) (cancel : bool) : eact RevisionIntent :=
  run! modify now (se_SessionID rec) (on_intent (fun i r =>
    r <| se_RevisionIntent := Some (i <| ri_Decision := Some d |> <| ri_CancelRequested := cancel |>) |> <| se_LastRevision := Some d |>));
  ret (intent <| ri_Decision := Some d |> <| ri_CancelRequested := cancel |>).

Definition pendingRevisionError {A} (id : string) : eact A :=
  do! current <- observe (session id);
  match current with
  | Ok r => fail (RetryableError (match se_RevisionIntent r with None => None | Some i => ri_Decision i end))
  | Err _ => fail retryable
  end.

(** The decision that is final. *)
Definition final_decision (now : Z) (rec : SessionRecord) intent (admitted : bool) : RevisionDecision :=
  let d := default (revisionDecision now rec intent "PREVIOUS_REASON_UNAVAILABLE" "reconciliation" "") (ri_Decision intent) in
  let d := d <| rd_Outcome := if admitted then "admitted" else "refused" |> <| rd_NextRetryAt := None |> <| rd_ObservedAt := now |> in
  if admitted && bool_decide (rd_Reason d = "ADMISSION_PENDING")
  then d <| rd_Reason := "ADMITTED" |> <| rd_Stage := "admission" |> <| rd_ReceiverCode := "OK" |> else d.

Definition revision_record (rec : SessionRecord) intent p (admitted : bool) (basis : string) (d : RevisionDecision) : SessionRevisionRecord := {|
  sv_WholesaleAccountId := se_WholesaleAccountID rec; sv_SettlementDomainId := se_SettlementDomainID rec; sv_BrokerUri := py_BrokerUri p;
  sv_SessionId := se_SessionID rec; sv_GatewaySessionId := se_GatewaySessionID rec; sv_RequestId := ri_RequestID intent;
  sv_Payer := py_Payer p; sv_Payee := py_Payee p; sv_AuthorizationId := py_AuthorizationId p;
  sv_PredecessorAuthorizationId := py_PredecessorAuthorizationId p; sv_Revision := py_Revision p;
  sv_AuthorizationFingerprint := sha256 (ri_AuthorizationBytes intent);
  sv_AcceptedQuoteRef := mkQuoteRef (se_QuoteID rec) (se_QuoteVersion rec) (se_ConstraintFingerprint rec) (se_RouteFingerprint rec);
  sv_Admitted := admitted; sv_NonAdmissionBasis := basis; sv_Reason := rd_Reason d; sv_Stage := rd_Stage d;
  sv_ReceiverCode := rd_ReceiverCode d; sv_ObservedAt := format_time (rd_ObservedAt d); sv_MaxTotalUnits := py_MaxTotalUnits p;
  sv_MaxDebitWei := py_MaxDebitWei p
|}.

Definition prepareRevisionEvidence (now : Z) (rec : SessionRecord) intent (admitted : bool) (basis : string) : eact RevisionIntent :=
  match sa_Payload <$> unmarshal_auth (ri_AuthorizationBytes intent) with
  | Some (Some p) =>
      run! require (admitted || bool_decide (basis = "receiver_fenced") || bool_decide (basis = "expired_unused"))
             (EngineErr "revision non-admission proof missing");
      let d := final_decision now rec intent admitted in
      match marshal_revision (revision_record rec intent p admitted basis d) with
      | None => fail (EngineErr "marshal")
      | Some evidence =>
          run! modify now (se_SessionID rec) (on_intent (fun i r =>
            r <| se_RevisionIntent := Some (i <| ri_Decision := Some d |> <| ri_Evidence := evidence |>) |>));
          ret (intent <| ri_Decision := Some d |> <| ri_Evidence := evidence |>)
      end
  | _ => fail (EngineErr "revision payload missing")
  end.

(** ** Commit and cancellation *)

(** The session under its successor authorization. *)
Definition revised p intent (usage : AuthorizationStatus) (credited : option Z) (r : SessionRecord) : result store_error SessionRecord :=
  let r := r <| se_AccountAuthorizationID := py_AuthorizationId p |> <| se_WorkID := py_AuthorizationId p |>
             <| se_AuthorizationMaxUnits := py_MaxTotalUnits p |> <| se_AuthorizationMaxDebitWei := dec_string (max_debit p) |> in
  let! r := reconcileReceiverUsage r (Some usage) in
  let r := r <| se_LeaseExpiresAt := Some (ri_LeaseExpiresAt intent) |>
             <| se_FundedWei := (match credited with None => se_FundedWei r | Some c => addDecimal (se_FundedWei r) c end) |> in
  Ok (if (as_State usage =? SETTLED) && negb (Closing r)
      then r <| se_State := StateWindingDown |> <| se_CloseReason := ReasonRecoveryFailed |> else r).

Definition commitRevisionLocked (now : Z) (rec : SessionRecord) intent p (usage : option AuthorizationStatus)
    (account : option PayeeAccount) (credited : option Z) : eact TopUpResult :=
  match account, usage with
  | Some a, Some u =>
      run! require (bool_decide (pa_WholesaleAccountID a = se_WholesaleAccountID rec) &&
                    bool_decide (pa_SettlementDomainID a = se_SettlementDomainID rec) && bool_decide (pa_Payer a = se_Sender rec) &&
                    ((as_State u =? ADMITTED) || (as_State u =? SETTLED))) (EngineErr "receiver revision authority unresolved");
      do! intent <- prepareRevisionEvidence now rec intent true "";
      run! save (CommitRevision now (se_SessionID rec) (ri_RequestID intent) (ri_Fingerprint intent) (ri_LeaseExpiresAt intent)
                   (balanceString (pa_Available a)) (revised p intent u credited));
      ret (mkTopUpResult (ri_LeaseExpiresAt intent) (pa_Available a) (ri_Decision intent))
  | _, _ => fail (EngineErr "receiver revision authority unresolved")
  end.

Definition cancelRevisionLocked (now : Z) (rec : SessionRecord) intent p : eact TopUpResult :=
  do! answer <- ask (out_CancelAuthorizationAdmission (ri_AuthorizationBytes intent));
  match answer with
  | Ok (Some c) =>
      let unused := match cn_Authorization c with Some u => as_State u =? EXPIRED_UNUSED | None => false end in
      if cn_Canceled c || unused then
        do! intent <- prepareRevisionEvidence now rec intent false (if cn_Canceled c then "receiver_fenced" else "expired_unused");
        run! save (RefuseRevision now (se_SessionID rec) intent "refill_refused"
                     "authorization revision was not admitted; existing authority retained");
        fail (ProtocolError "refill_refused" (ri_Decision intent))
      else commitRevisionLocked now rec intent p (cn_Authorization c) (cn_Account c) None
  | _ => fail (EngineErr "receiver cancellation proof missing")
  end.

Definition requestRevisionCancellation (now : Z) (rec : SessionRecord) intent p (reason stage code : string) : eact TopUpResult :=
  do! intent <- saveRevisionDecision now rec intent (revisionDecision now rec intent reason stage code) true;
  cancelRevisionLocked now rec intent p.

(** ** Resolution *)
Definition admit_revision (now : Z) (rec : SessionRecord) intent p (reservation : Z) : eact TopUpResult :=
  do! answer <- ask (out_AdmitAuthorization (mkAdmitRequest (ri_AuthorizationBytes intent) (ri_PaymentBytes intent) (Some reservation)));
  match answer with
  | Err e =>
      if AdmissionRefused e
      then requestRevisionCancellation now rec intent p (SafeAdmissionReason e) "admission" (re_Code e)
      else fail (receiverRevisionFailure "admission" e)
  | Ok (Some (mkAdmitResult state (Some account) credited)) =>
      run! require (state =? ADMITTED) (EngineErr "receiver did not confirm revision admission");
      do! usage <- ask (out_GetSpendAuthorization (se_Sender rec) (py_AuthorizationId p) (se_WholesaleAccountID rec));
      match usage with
      | Err _ => fail (EngineErr "receiver unavailable")
      | Ok usage => commitRevisionLocked now rec intent p usage (Some account) credited
      end
  | _ => fail (EngineErr "receiver did not confirm revision admission")
  end.

(** What the predecessor used so far, on the session and on the decision; the
    reservation bounded by what it leaves. *)
Definition note_reservation (u : AuthorizationStatus) (reservation : Z) (d : RevisionDecision) (r : SessionRecord) :
    result store_error SessionRecord :=
  let! r := reconcileReceiverUsage r (Some u) in
  on_intent (fun i r => r <| se_RevisionIntent := Some (i <| ri_ReservationWei := dec_string reservation |> <| ri_Decision := Some d |>) |>
                          <| se_LastRevision := Some d |>) r.
Definition with_predecessor (now : Z) (rec : SessionRecord) intent p (reservation : Z) (u : AuthorizationStatus) : eact TopUpResult :=
  match reconcileReceiverUsage rec (Some u) with
  | Err e => fail (StoreError e)
  | Ok rec =>
      let d := default (revisionDecision now rec intent "ADMISSION_PENDING" "admission" "") (ri_Decision intent) in
      let d := d <| rd_BilledWei := bigIntString (as_Billed u) |> <| rd_ActualUnits := as_ActualUnits u |> in
      match remainingRevisionReservation p reservation u with
      | Err reason => requestRevisionCancellation now rec (intent <| ri_Decision := Some d |>) p reason "reservation" ""
      | Ok bounded =>
          let d := d <| rd_ReservationWei := dec_string bounded |> in
          run! modify now (se_SessionID rec) (note_reservation u bounded d);
          admit_revision now rec (intent <| ri_Decision := Some d |>) p bounded
      end
  end.

Definition continues (rec : SessionRecord) p : bool :=
  bool_decide (py_WholesaleAccountId p = se_WholesaleAccountID rec) && bool_decide (py_SettlementDomainId p = se_SettlementDomainID rec) &&
  bool_decide (py_PredecessorAuthorizationId p = se_AccountAuthorizationID rec).

Definition resolveRevisionLocked (now : Z) (rec : SessionRecord) intent : eact TopUpResult :=
  match unmarshal_auth (ri_AuthorizationBytes intent) with
  | Some (mkSpendAuthorization (Some p) _) =>
      run! require (continues rec p) (EngineErr "persisted revision authority mismatch");
      match SetString10 (ri_ReservationWei intent) with
      | None => fail (EngineErr "persisted revision reservation invalid")
      | Some reservation =>
          run! require (0 <=? reservation) (EngineErr "persisted revision reservation invalid");
          if ri_CancelRequested intent then cancelRevisionLocked now rec intent p
          else if Closing rec then requestRevisionCancellation now rec intent p "SESSION_CLOSING" "lifecycle" ""
          else
            do! predecessor <- ask (out_GetSpendAuthorization (se_Sender rec) (se_AccountAuthorizationID rec) (se_WholesaleAccountID rec));
            match predecessor with
            | Err e => fail (receiverRevisionFailure "predecessor_lookup" e)
            | Ok None => fail (EngineErr "receiver predecessor status missing")
            | Ok (Some u) =>
                if as_State u =? ADMITTED then with_predecessor now rec intent p reservation u
                else if as_State u =? SUPERSEDED then admit_revision now rec intent p reservation
                else requestRevisionCancellation now rec intent p "PREDECESSOR_NOT_ACTIVE" "predecessor_lookup" ""
            end
      end
  | _ => fail (EngineErr "persisted revision authority mismatch")
  end.

(** An attempt that failed is held until the next one. *)
Definition hold_revision (now : Z) (e : engine_error) (r : SessionRecord) : result store_error SessionRecord :=
  match se_RevisionIntent r with
  | None => Ok r
  | Some intent =>
      let '(reason, stage, code) := match e with
                                    | revisionFailure reason stage code => (reason, stage, code)
                                    | _ => ("RECONCILIATION_PENDING", "reconciliation", "")
                                    end in
      let noted := if ri_CancelRequested intent then ri_Decision intent else Some (revisionDecision now r intent reason stage code) in
      let d := default (revisionDecision now r intent "PREVIOUS_REASON_UNAVAILABLE" "reconciliation" "") noted in
      let failures := if ri_Failures intent <? 7 then ri_Failures intent + 1 else ri_Failures intent in
      let next := now + retry_delay failures in
      let d := d <| rd_Outcome := "pending" |> <| rd_NextRetryAt := Some next |> in
      Ok (r <| se_RevisionIntent := Some (intent <| ri_Decision := Some d |> <| ri_Failures := failures |> <| ri_NextRetryAt := Some next |>) |>
            <| se_LastRevision := Some d |>)
  end.

(** [force]: the caller asks, not the background. *)
Definition resumeRevisionLocked (now : Z) (id : string) (force : bool) : eact TopUpResult :=
  do! rec <- session id;
  match se_RevisionIntent rec with
  | None => fail (EngineErr "session revision intent missing")
  | Some intent =>
      if negb force && match ri_NextRetryAt intent with Some t => now <? t | None => false end then pendingRevisionError id
      else
        do! resolved <- observe (resolveRevisionLocked now rec intent);
        match resolved with
        | Ok result => ret result
        | Err (ProtocolError code revision) => fail (ProtocolError code revision)
        | Err e =>
            do! held <- observe (modify now id (hold_revision now e));
            match held with Ok _ => pendingRevisionError id | Err _ => fail retryable end
        end
  end.

(** ** The caller's request *)

(** Billing that has no answer yet is settled with the payee first. *)
Definition reconcile_pending_debit (now : Z) (rec : SessionRecord) : eact SessionRecord :=
  if se_PendingDebitSeq rec =? 0 then ret rec
  else
    do! answer <- ask (out_GetSpendAuthorization (se_Sender rec) (se_AccountAuthorizationID rec) (se_WholesaleAccountID rec));
    match answer with
    | Ok (Some u) =>
        run! require (as_State u =? ADMITTED) retryable;
        match reconcileReceiverUsage rec (Some u) with
        | Err _ => fail retryable
        | Ok changed =>
            run! map_err (fun _ => retryable) (modify now (se_SessionID rec) (fun r => reconcileReceiverUsage r (Some u)));
            ret changed
        end
    | _ => fail retryable
    end.

Definition recall_revision (sessionID requestID fp : string) : eact (option TopUpResult) :=
  do! recalled <- observe (load (TopUpRecall sessionID requestID fp));
  match recalled with
  | Err (StoreError ErrRequestIDReuse) => fail (protoErr "request_id_reuse")
  | Err e => fail e
  | Ok None => ret None
  | Ok (Some prior) =>
      if bool_decide (tu_ErrorCode prior = "")
      then ret (Some (mkTopUpResult (tu_LeaseExpiresAt prior) (SetString10 (tu_BalanceWei prior)) (tu_Decision prior)))
      else fail (ProtocolError (tu_ErrorCode prior) (tu_Decision prior))
  end.

Definition begin_revision (cfg : Config) (spec : OfferingSpec) (rec : SessionRecord) (requestID authorizationBytes paymentBytes fp : string)
    (reservation : Z) : eact unit :=
  let now := cf_Now cfg in
  let intent := mkRevisionIntent requestID authorizationBytes paymentBytes fp (dec_string reservation) (lease_from now spec) 0 None None
                  false "" in
  let intent := intent <| ri_Decision := Some (revisionDecision now rec intent "ADMISSION_PENDING" "admission" "") |> in
  do! begun <- observe (save (BeginRevision now (se_SessionID rec) intent));
  match begun with
  | Ok _ => ret tt
  | Err (StoreError ErrRequestIDReuse) | Err (StoreError ErrNonAdmissionIssued) => fail (protoErr "request_id_reuse")
  | Err _ => fail retryable
  end.

(** The session accepts this successor. *)
Definition accepts_revision (rec : SessionRecord) (spec : OfferingSpec) (authorizationBytes : string) : result engine_error unit :=
  if bool_decide (os_Refill spec = "bounded") then Err (protoErr "refill_refused")
  else
    match unmarshal_auth authorizationBytes with
    | Some (mkSpendAuthorization (Some p) _) =>
        if negb (continues rec p) || negb (bool_decide (py_SessionId p = se_GatewaySessionID rec)) ||
           negb (bool_decide (py_Payer p = se_Sender rec))
        then Err (protoErr "refill_refused")
        else if (py_MaxTotalUnits p <? se_AuthorizationMaxUnits rec) ||
                (max_debit p <? default 0 (SetString10 (se_AuthorizationMaxDebitWei rec)))
        then Err (protoErr "refill_refused")
        else Ok tt
    | _ => Err (protoErr "payment_invalid")
    end.

Definition ReviseAuthorization (cfg : Config) (sessionID requestID authorizationBytes paymentBytes : string) (reservation : option Z) :
    eact TopUpResult :=
  let now := cf_Now cfg in
  run! require (negb (bool_decide (requestID = ""))) (protoErr "request_id_required");
  do! rec <- session sessionID;
  let fp := sha256 (authorizationBytes +:+ String zero_byte paymentBytes) in
  do! recalled <- recall_revision sessionID requestID fp;
  match recalled with
  | Some answer => ret answer
  | None =>
      match se_RevisionIntent rec with
      | Some intent =>
          if negb (bool_decide (ri_RequestID intent = requestID)) then fail (RetryableError (ri_Decision intent))
          else if negb (bool_decide (ri_Fingerprint intent = fp)) then fail (protoErr "request_id_reuse")
          else resumeRevisionLocked now sessionID true
      | None =>
          match reservation with
          | None => fail (protoErr "payment_invalid")
          | Some reservation =>
              run! require (0 <=? reservation) (protoErr "payment_invalid");
              do! rec <- reconcile_pending_debit now rec;
              run! require (negb (Closing rec || bool_decide (se_AccountAuthorizationID rec = ""))) (protoErr "refill_refused");
              match cf_Specs cfg sessionID with
              | None => fail (EngineErr "offering spec unavailable")
              | Some spec =>
                  run! lift id (accepts_revision rec spec authorizationBytes);
                  run! begin_revision cfg spec rec requestID authorizationBytes paymentBytes fp reservation;
                  resumeRevisionLocked now sessionID true
              end
          end
      end
  end.

(** Every intent on disk is resumed, session by session. *)
Fixpoint resume_all (now : Z) (ids : list string) : eact unit :=
  match ids with
  | [] => ret tt
  | id :: ids => do! _ <- observe (resumeRevisionLocked now id false); resume_all now ids
  end.
Definition revising (db : SessionDB M) : list string :=
  List.map (fun kr => se_SessionID kr.2)
    (List.filter (fun kr => negb (Terminal kr.2) && bool_decide (is_Some (se_RevisionIntent kr.2))) (ForEach (sd_sessions db))).
Definition recoverRevisionIntents (now : Z) : eact unit := fun s => resume_all now (revising (en_Store s)) s.
End revisions.
