(* ===== verification/SessionEngine.v ===== *)
(** * The session engine: events and winddown

    capability-broker/internal/sessionengine (engine.go, capacity.go): a runner
    reports cumulative usage, which the engine has the payee debit before it
    commits the event; a session that ends is wound down, which takes the
    runner's shutdown and the payee's settlement, each retried until it is met.
    Observers (OnEvent, OnWinddown), logs and the mutexes are left out: calls on
    one session run one after the other. *)
From S2P Require Import Prelude.
From S2P Require Import GoBytes.
From S2P Require Import Billing.
From S2P Require Import Bolt.
From S2P Require Import Actions.
From S2P Require Import Spendauth.
From S2P Require Import WorkLedger.
From S2P Require Import WorkClient.
From S2P Require Import SessionStore.
From S2P Require Import EngineTypes.
From S2P Require Import SessionSettlement.
From S2P Require Import SessionRevisions.
From Stdlib Require Import Ascii.

Open Scope record_scope.

(** ** Events *)

(** The fields of the details that are read: absent, or a string, or not one. *)
Record DetailFields := mkDetailFields {
  df_OutputState : option (option string);
  df_OutputStateSince : option (option string);
  df_LastFailureCode : option (option string);
}.
(** The details: none, or of a size and, when they decode, an object. *)
Inductive EventDetails :=
  | NoDetails
  | Details (size : Z) (object : option DetailFields).

Record Event := mkEvent {
  ev_EventID : string;
  ev_Sequence : Z;
  ev_EventType : string;
  ev_UsageUnit : string;
  ev_UsageTot : option Z;
  ev_Reason : string;
  ev_Details : EventDetails;
}.
Record EventOutcome := mkEventOutcome {
  eo_Duplicate : bool;
  eo_DebitedUnits : Z;
  eo_Terminal : bool;
  eo_OutputState : string;
}.
Record outputHealth := mkoutputHealth {
  oh_State : string;
  oh_Since : option Z;
  oh_FailureCode : string;
}.

Definition OutputStallBackstop : Z := 60 * second.

(** [^[a-z][a-z0-9_]{0,63}$] *)
Definition in_range (lo hi c : ascii) : bool := (byte_val lo <=? byte_val c) && (byte_val c <=? byte_val hi).
Definition lower (c : ascii) : bool := in_range "a" "z" c.
Definition digit (c : ascii) : bool := in_range "0" "9" c.
Definition safeEventCode (s : string) : bool :=
  match s with
  | "" => false
  | String c rest => lower c && all_bytes (fun c => lower c || digit c || bool_decide (c = "_"%char)) rest && (len rest <=? 63)
  end.

(** [time.Time{}], which the code does not tell from no time. *)
Definition zero_time : Z := -62135596800 * second.
Definition time_set (t : Z) : option Z := if t =? zero_time then None else Some t.

Section health.
Context `{AuthWire}.

Definition output_since (field : option (option string)) : result engine_error (option Z) :=
  match field with
  | None => Ok None
  | Some None => Err (protoErr "output_state_since_invalid")
  | Some (Some raw) => match parse_time raw with None => Err (protoErr "output_state_since_invalid") | Some t => Ok (time_set t) end
  end.
Definition failure_code (field : option (option string)) : result engine_error string :=
  match field with
  | None => Ok ""
  | Some (Some code) => if safeEventCode code then Ok code else Err (protoErr "last_failure_code_invalid")
  | Some None => Err (protoErr "last_failure_code_invalid")
  end.
Definition parseOutputHealth (details : EventDetails) : result engine_error (option outputHealth) :=
  match details with
  | NoDetails => Ok None
  | Details size object =>
      if 2048 <? size then Err (protoErr "event_details_invalid")
      else
        match object with
        | None => Err (protoErr "event_details_invalid")
        | Some f =>
            match df_OutputState f with
            | None => Ok None
            | Some None => Err (protoErr "output_state_invalid")
            | Some (Some state) =>
                if negb (bool_decide (state ∈ ["waiting"; "producing"; "stalled"])) then Err (protoErr "output_state_invalid")
                else
                  let! since := output_since (df_OutputStateSince f) in
                  let! failure := failure_code (df_LastFailureCode f) in
                  Ok (Some (mkoutputHealth state since failure))
            end
        end
  end.
End health.

(** What an event claims: units to debit now, the cumulative allowance they
    amount to, whether the allowance is used up. *)
Record claim := mkclaim { cm_delta : Z; cm_cumulative : Z; cm_exhausted : bool }.
Definition usage_claim (rec : SessionRecord) (ev : Event) : result engine_error claim :=
  match ev_UsageTot ev with
  | None => Ok (mkclaim 0 0 false)
  | Some total =>
      let max := se_AuthorizationMaxUnits rec in
      if negb (bool_decide (ev_UsageUnit ev = se_Unit rec)) then Err (protoErr "usage_unit_mismatch")
      else if total <? se_ClaimedTotal rec then Err (protoErr "usage_regression")
      else if max <=? total then
        let cumulative := if max <? total then max else total in
        Ok (mkclaim (if se_DebitedTotal rec <? cumulative then cumulative - se_DebitedTotal rec else 0) cumulative true)
      else Ok (mkclaim (total - se_ClaimedTotal rec) total false)
  end.

(** What stays reserved behind a cumulative total. *)
Definition is_final (ev : Event) : bool :=
  bool_decide (ev_EventType ev = "session.ended") || bool_decide (ev_EventType ev = "session.failed").
Definition runway_target (spec : OfferingSpec) (rec : SessionRecord) (cumulative : Z) (ev : Event) : Z :=
  let remaining := if cumulative <? se_AuthorizationMaxUnits rec then se_AuthorizationMaxUnits rec - cumulative else 0 in
  let runway := if 0 <? os_MinRunwayUnits spec then os_MinRunwayUnits spec else 1 in
  let runway := if remaining <? runway then remaining else runway in
  let bill units := BillFor (default 0 (os_PricePerWorkUnitWei spec)) (os_PerUnits spec) units in
  if is_final ev then 0 else bill (u64 (cumulative + runway)) - bill cumulative.

Definition terminal_reason (ev : Event) (exhausted : bool) : string :=
  let given reason := if bool_decide (ev_Reason ev = "") then reason else ev_Reason ev in
  if bool_decide (ev_EventType ev = "session.ended") then given ReasonRunnerEnded
  else if bool_decide (ev_EventType ev = "session.failed") then given ReasonRunnerFailed
  else if exhausted then ReasonAuthorizationExhausted
  else "".

(** The health an event reports, on the record. *)
Definition note_health (now : Z) (health : option outputHealth) (r : SessionRecord) : SessionRecord :=
  match health with
  | None => r
  | Some h =>
      let since := if negb (bool_decide (oh_State h = se_OutputState r)) || bool_decide (se_OutputStateSince r = None)
                   then Some (default now (oh_Since h)) else se_OutputStateSince r in
      let r := r <| se_OutputStateSince := since |> <| se_OutputState := oh_State h |> <| se_LastFailureCode := oh_FailureCode h |> in
      if bool_decide (oh_State h = "producing") then r <| se_LastOutputAt := Some now |> <| se_OutputStalledAt := None |>
      else if bool_decide (oh_State h = "stalled") then r <| se_OutputStalledAt := Some (default now (se_OutputStalledAt r)) |>
      else r <| se_OutputStalledAt := None |>
  end.

(** The commit of an event: watermark, totals and debit progress together.
    [debit]: the sequence number and the bill of the debit, when there was one. *)
Definition commit_event (now : Z) (spec : OfferingSpec) (ev : Event) (health : option outputHealth) (delta : Z)
    (debit : option (Z * option Z)) (r : SessionRecord) : SessionRecord :=
  let r := r <| se_LastEventID := ev_EventID ev |> <| se_LastSequence := ev_Sequence ev |> <| se_LastEventAt := now |> in
  let r := note_health now health r in
  let r := match ev_UsageTot ev with None => r | Some total => r <| se_ClaimedTotal := total |> end in
  let r := match debit with
           | None => r
           | Some (seq, billed) =>
               r <| se_DebitedTotal := u64 (se_DebitedTotal r + delta) |> <| se_DebitSeq := seq |> <| se_PendingDebitSeq := 0 |>
                 <| se_BilledWei := match billed with None => se_BilledWei r | Some b => dec_string b end |>
           end in
  r <| se_LeaseExpiresAt := Some (lease_from now spec) |>.

Section engine.
Context `{Bolt M} `{AuthWire} `{SettlementWire} `{RevisionWire} `{Outside R}.

Open Scope act_scope.
Abbreviation eact := (st (EngineState M R) engine_error).

(** ** Winddown *)

(** Proof that the runner is gone is on disk before its slot is given back. *)
Definition stopped (reason : string) (rec : SessionRecord) : SessionRecord :=
  rec <| se_State := StateWindingDown |> <| se_CloseReason := reason |> <| se_RunnerTerminated := true |> <| se_CapacityRef := "" |>.
Definition releaseStoppedCapacity (now : Z) (rec : SessionRecord) (reason : string) : eact SessionRecord :=
  let ref := se_CapacityRef rec in
  if se_RunnerTerminated rec && bool_decide (ref = "") && bool_decide (se_State rec = StateWindingDown) then ret rec
  else
    run! modify now (se_SessionID rec) (fun r => Ok (stopped reason r <| se_ReplayMaterial := "" |>));
    run! release ref;
    ret (stopped reason rec).

Definition stop_runner (rec : SessionRecord) (reason : string) : eact bool :=
  if se_RunnerTerminated rec then ret true
  else do! answer <- terminate (se_BackendRef rec) (se_RunnerSessionID rec) reason; ret (is_ok answer).

(** A revision in flight is resolved first; until it is, nothing is settled. *)
Definition close_revision (now : Z) (id : string) (rec : SessionRecord) (reason : string) (runnerDone : bool) : eact SessionRecord :=
  match se_RevisionIntent rec with
  | None => ret rec
  | Some _ =>
      run! modify now id (fun r => Ok (r <| se_State := StateWindingDown |> <| se_CloseReason := reason |>
                                                         <| se_RunnerTerminated := runnerDone |>));
      run! observe (resumeRevisionLocked now id false);
      do! current <- session id;
      run! require (bool_decide (se_RevisionIntent current = None)) (EngineErr "winddown waiting for authorization revision");
      ret current
  end.

(** Whether payment is closed, and what closing it now released. *)
Definition close_payment (cfg : Config) (rec : SessionRecord) : eact (bool * string) :=
  if se_PaymentClosed rec then ret (true, "")
  else
    do! settled <- observe (settleSessionAuthorizationLocked cfg rec);
    ret (match settled with
         | Ok s => (true, match sl_Released s with None => "" | Some n => dec_string n end)
         | Err _ => (false, "")
         end).

Definition hold_winddown (reason : string) (runnerDone closed : bool) (released : string) (r : SessionRecord) : SessionRecord :=
  let r := r <| se_State := StateWindingDown |> <| se_CloseReason := reason |> <| se_ReplayMaterial := "" |>
             <| se_PaymentClosed := closed |> <| se_RunnerTerminated := runnerDone |> in
  if closed then r <| se_AuthorizationReservedWei := "0" |> <| se_AuthorizationReleasedWei := released |> else r.

Definition terminal_state (reason : string) : string :=
  if bool_decide (reason ∈ [ReasonRunnerFailed; ReasonRecoveryFailed; ReasonOutputFailed; ReasonCapacityExhausted])
  then StateFailed else StateEnded.
Definition closed_record (now : Z) (reason released : string) (r : SessionRecord) : SessionRecord :=
  r <| se_State := terminal_state reason |> <| se_CloseReason := reason |> <| se_ReplayMaterial := "" |>
    <| se_PaymentClosed := true |> <| se_AuthorizationReservedWei := "0" |>
    <| se_AuthorizationReleasedWei := if bool_decide (released = "") then se_AuthorizationReleasedWei r else released |>
    <| se_RunnerTerminated := true |> <| se_EndedAt := Some now |> <| se_CapacityRef := "" |>.
Definition end_session (cfg : Config) (id reason released : string) (r : SessionRecord) : result store_error SessionRecord :=
  freezeTerminalSettlement (cf_Now cfg) (cf_Specs cfg id) (closed_record (cf_Now cfg) reason released r).
Definition finish_winddown (cfg : Config) (id reason released : string) : eact unit :=
  do! written <- observe (modify (cf_Now cfg) id (end_session cfg id reason released));
  match written with
  | Ok _ => ret tt
  | Err _ =>
      modify (cf_Now cfg) id (fun r => Ok (r <| se_State := StateWindingDown |> <| se_CloseReason := reason |>
                                             <| se_PaymentClosed := true |> <| se_RunnerTerminated := true |>))
  end.

(** Failing here is returning early. *)
Definition winddown (cfg : Config) (id reason : string) : eact unit :=
  let now := cf_Now cfg in
  do! rec <- session id;
  if Terminal rec then ret tt
  else
    let reason := if bool_decide (se_State rec = StateWindingDown) && negb (bool_decide (se_CloseReason rec = ""))
                  then se_CloseReason rec else reason in
    do! runnerDone <- stop_runner rec reason;
    do! rec <- (if runnerDone then releaseStoppedCapacity now rec reason else ret rec);
    do! rec <- close_revision now id rec reason runnerDone;
    do! payment <- close_payment cfg rec;
    let '(closed, released) := payment in
    if negb (runnerDone && closed)
    then modify now id (fun r => Ok (hold_winddown reason runnerDone closed released r))
    else finish_winddown cfg id reason released.
Definition winddownLocked (cfg : Config) (id reason : string) : eact unit := do! _ <- observe (winddown cfg id reason); ret tt.

Definition End (cfg : Config) (id reason : string) : eact SessionRecord :=
  do! rec <- session id;
  run! (if Terminal rec then ret tt
        else winddownLocked cfg id (if bool_decide (reason = "") then ReasonGatewayClose else reason));
  session id.

(** ** An event *)

(** A revision in flight is resolved before the event counts. *)
Definition settle_revision (now : Z) (id : string) (rec : SessionRecord) : eact SessionRecord :=
  match se_RevisionIntent rec with
  | None => ret rec
  | Some _ =>
      do! resumed <- observe (resumeRevisionLocked now id false);
      do! rec <- session id;
      match se_RevisionIntent rec, resumed with
      | Some _, Err e => fail e
      | Some _, Ok _ => fail (EngineErr "no outcome")
      | None, _ => run! require (negb (Closing rec)) (protoErr "session_terminal"); ret rec
      end
  end.

(** The payee debits up to the cumulative total, under a sequence number that
    is on disk before it is asked. *)
Definition advance (now : Z) (id : string) (spec : OfferingSpec) (rec : SessionRecord) (cumulative : Z) (ev : Event) : eact (Z * option Z) :=
  let seq := if se_PendingDebitSeq rec =? 0 then u64 (se_DebitSeq rec + 1) else se_PendingDebitSeq rec in
  run! (if se_PendingDebitSeq rec =? 0
        then map_err (fun _ => retryable) (modify now id (fun r => Ok (r <| se_PendingDebitSeq := seq |>))) else ret tt);
  do! answer <- ask (out_AdvanceAuthorization (mkAdvanceRequest (se_WholesaleAccountID rec) (se_Sender rec) (se_AccountAuthorizationID rec)
                       cumulative (Some (runway_target spec rec cumulative ev)) seq ""));
  match answer with
  | Ok (Some advanced) =>
      run! require (av_State advanced =? ADMITTED) retryable;
      run! map_err (fun _ => retryable)
             (modify now id (fun r => Ok (r <| se_AuthorizationReservedWei := bigIntString (av_Reserved advanced) |>)));
      ret (seq, av_CumulativeBilled advanced)
  | _ => fail retryable
  end.

Definition check_event (ev : Event) : result engine_error (option outputHealth) :=
  if bool_decide (ev_EventID ev = "") then Err (protoErr "event_id_required")
  else if ev_Sequence ev =? 0 then Err (protoErr "sequence_required")
  else
    let! health := parseOutputHealth (ev_Details ev) in
    if negb (bool_decide (ev_Reason ev = "")) && negb (safeEventCode (ev_Reason ev)) then Err (protoErr "close_reason_invalid")
    else Ok health.

Definition ProcessEvent (cfg : Config) (id : string) (ev : Event) : eact EventOutcome :=
  let now := cf_Now cfg in
  do! health <- lift Datatypes.id (check_event ev);
  do! rec <- session id;
  run! require (negb (Closing rec)) (protoErr "session_terminal");
  do! rec <- settle_revision now id rec;
  match cf_Specs cfg id with
  | None => fail (EngineErr "no offering spec for session")
  | Some spec =>
      if ev_Sequence ev <=? se_LastSequence rec then ret (mkEventOutcome true 0 false "")
      else
        do! claimed <- lift Datatypes.id (usage_claim rec ev);
        let delta := cm_delta claimed in
        do! debit <- (if 0 <? delta then do! paid <- advance now id spec rec (cm_cumulative claimed) ev; ret (Some paid) else ret None);
        run! map_err (fun _ => retryable) (modify now id (fun r => Ok (commit_event now spec ev health delta debit r)));
        let reason := terminal_reason ev (cm_exhausted claimed) in
        let outcome ended := mkEventOutcome false delta ended (match health with None => "" | Some h => oh_State h end) in
        if bool_decide (reason = "") then ret (outcome false)
        else run! winddownLocked cfg id reason; ret (outcome true)
  end.
End engine.
