(* ===== verification/SessionOpen.v ===== *)
(** * Opening a session

    capability-broker/internal/sessionengine (Open of engine.go,
    open_recovery.go, cleanupOpenReservation of capacity.go, and descriptor.go):
    an open claims its request id, a runner slot, the payer's authorization and
    a runner session, in this order, each on disk before the next; one that
    fails is undone, or kept until it can be.  The session id and the secrets,
    which the code draws at random, are arguments.  What a runner answers is a
    [Descriptor], whose JSON is decoded by the class [RuntimeJSON]. *)
From S2P Require Import Prelude.
From S2P Require Import GoBytes.
From S2P Require Import GoCodecs.
From S2P Require Import Actions.
From S2P Require Import Bolt.
From S2P Require Import Spendauth.
From S2P Require Import WorkLedger.
From S2P Require Import WorkClient.
From S2P Require Import SessionStore.
From S2P Require Import EngineTypes.
From S2P Require Import SessionSettlement.
From S2P Require Import SessionRevisions.
From S2P Require Import SessionEngine.
From Stdlib Require Import Ascii.

(** ** The runtime descriptor *)
Record Grant := mkGrant {
  gr_ID : string;
  gr_Operations : list string;
  gr_Secret : string;
  gr_ExpiresAt : option Z;
  gr_MaxUses : Z;
}.
Record Descriptor := mkDescriptor {
  de_Schema : string;
  de_Public : string;
  de_Private : string;
  de_Grants : list Grant;
}.

Class RuntimeJSON := {
  (** The keys of a JSON object; [None] when the text is not one. *)
  json_keys : string -> option (list string);
  (** [json.Unmarshal] into a [Descriptor]. *)
  decode_descriptor : string -> option Descriptor;
  (** [json.Marshal] and [json.Unmarshal] of the credential and the grants. *)
  encode_replay : string -> list Grant -> option string;
  decode_replay : string -> option (string * list Grant);
}.

Definition DefaultDescriptorMaxBytes : Z := 16 * 1024.
Definition maxGrants : Z := 4.

(** [^[a-z][a-z0-9-]*/v[0-9]+$]: the part up to the slash, then the version. *)
Definition version_tag (s : string) : bool :=
  match s with
  | String "v" rest => negb (bool_decide (rest = "")) && all_bytes digit rest
  | _ => false
  end.
Fixpoint schema_rest (s : string) : bool :=
  match s with
  | "" => false
  | String c rest =>
      if bool_decide (c = "/"%char) then version_tag rest
      else (lower c || digit c || bool_decide (c = "-"%char)) && schema_rest rest
  end.
Definition schemaTag (s : string) : bool := match s with "" => false | String c rest => lower c && schema_rest rest end.

Definition grant_complete (g : Grant) : bool :=
  negb (bool_decide (gr_ID g = "") || bool_decide (gr_Secret g = "") || bool_decide (gr_Operations g = []) ||
        bool_decide (gr_ExpiresAt g = None)).
Fixpoint grants_valid (seen : list string) (grants : list Grant) : bool :=
  match grants with
  | [] => true
  | g :: grants =>
      grant_complete g && (0 <=? gr_MaxUses g) && negb (bool_decide (gr_ID g ∈ seen)) && grants_valid (gr_ID g :: seen) grants
  end.

Section descriptor.
Context `{RuntimeJSON}.

Definition isJSONObject (raw : string) : bool := negb (bool_decide (raw = "")) && bool_decide (is_Some (json_keys raw)).

Definition ParseDescriptor (raw declaredSchema : string) (maxBytes : Z) : result string Descriptor :=
  let maxBytes := if maxBytes <=? 0 then DefaultDescriptorMaxBytes else maxBytes in
  if bool_decide (raw = "") then Err "runtime object missing"
  else if maxBytes <? len raw then Err "runtime object too large"
  else
    match json_keys raw with
    | None => Err "runtime is not a JSON object"
    | Some keys =>
        if negb (forallb (fun k => bool_decide (k ∈ ["schema"; "public"; "private"; "grants"])) keys) then Err "unknown top-level key"
        else
          match decode_descriptor raw with
          | None => Err "runtime shape invalid"
          | Some d =>
              if negb (schemaTag (de_Schema d)) then Err "schema tag"
              else if negb (bool_decide (de_Schema d = declaredSchema)) then Err "schema does not match the offering"
              else if negb (isJSONObject (de_Public d)) then Err "public part must be a JSON object"
              else if negb (bool_decide (de_Private d = "")) && negb (isJSONObject (de_Private d))
              then Err "private part must be a JSON object"
              else if maxGrants <? Z.of_nat (length (de_Grants d)) then Err "too many grants"
              else if negb (grants_valid [] (de_Grants d)) then Err "grant invalid"
              else Ok d
          end
    end.

Definition auditGrants (grants : list Grant) : list GrantAudit :=
  List.map (fun g => mkGrantAudit (gr_ID g) (gr_Operations g) (HashSecret (gr_Secret g)) (default zero_time (gr_ExpiresAt g))) grants.
Definition sealedReplayMaterial (credential : string) (grants : list Grant) : string := default "" (encode_replay credential grants).
End descriptor.

(** ** The open *)
Open Scope record_scope.

Record OpenRequest := mkOpenRequest {
  oq_RequestID : string;
  oq_GatewaySessionID : string;
  oq_SessionParams : string;
  oq_PaymentBytes : string;
  oq_AuthorizationBytes : string;
  oq_InitialReservationWei : option Z;
  oq_AcceptedQuoteRef : option QuoteRef;
  oq_Spec : option OfferingSpec;
  oq_CapacityRef : string;
}.
Record OpenResult := mkOpenResult {
  ot_SessionID : string;
  ot_WorkID : string;
  ot_State : string;
  ot_Schema : string;
  ot_Public : string;
  ot_Grants : list Grant;
  ot_Credential : string;
  ot_Lease : option Z;
  ot_Replayed : bool;
}.

(** What the caller draws at random for an open. *)
Record Drawn := mkDrawn {
  dw_SessionID : string;
  dw_Credential : string;
  dw_CallbackToken : string;
}.

Definition joined (parts : list string) : string :=
  match parts with [] => "" | p :: parts => foldl (fun acc x => acc +:+ String zero_byte x) p parts end.
Definition openFingerprint (req : OpenRequest) : string :=
  let offer := match oq_Spec req with None => "" | Some s => joined [os_Capability s; os_Offering s] end in
  sha256 (joined [offer; oq_GatewaySessionID req; oq_SessionParams req; oq_PaymentBytes req; oq_AuthorizationBytes req]).

(** Without the slashes at its end. *)
Fixpoint trimSlash (s : string) : string :=
  match s with
  | "" => ""
  | String c rest => let t := trimSlash rest in if bool_decide (t = "") && bool_decide (c = "/"%char) then "" else String c t
  end.

(** ** Records *)
Definition zero_session : SessionRecord :=
  mkSessionRecord "" None None "" "" "" "" "" "" "" "" 0 "" "" "" 0 "" false false "" "" 0 "" "" "" "" "" "" "" "" "" "" [] 0 0 ""
    "" "" "" 0 "" "" 0 "" 0 "" None None None "" "" 0 0 0 0 None 0 "" "" "" None 0 None.

(** The fields every record of an open has. *)
Definition opened (req : OpenRequest) (spec : OfferingSpec) (quote : QuoteRef) (id fp : string) (reservation : Z) (p : SpendAuthorizationPayload) :
    SessionRecord :=
  zero_session
    <| se_SessionID := id |> <| se_GatewaySessionID := oq_GatewaySessionID req |> <| se_WorkID := py_AuthorizationId p |>
    <| se_Capability := os_Capability spec |> <| se_Offering := os_Offering spec |> <| se_BackendRef := os_BackendRef spec |>
    <| se_QuoteID := qr_QuoteId quote |> <| se_QuoteVersion := qr_QuoteVersion quote |>
    <| se_ConstraintFingerprint := qr_ConstraintFingerprint quote |> <| se_RouteFingerprint := qr_RouteFingerprint quote |>
    <| se_Sender := py_Payer p |> <| se_OpenFingerprint := fp |> <| se_WholesaleAccountID := py_WholesaleAccountId p |>
    <| se_SettlementDomainID := py_SettlementDomainId p |> <| se_AccountAuthorizationID := py_AuthorizationId p |>
    <| se_AuthorizationMaxUnits := py_MaxTotalUnits p |> <| se_AuthorizationMaxDebitWei := dec_string (max_debit p) |>
    <| se_AuthorizationReservedWei := dec_string reservation |> <| se_Unit := os_WorkUnit spec |>.

Definition openRecoveryRecord (now : Z) (req : OpenRequest) (spec : OfferingSpec) (id : string) (p : SpendAuthorizationPayload)
    (fp : string) (reservation : Z) : SessionRecord :=
  let price := default (mkAcceptedPrice None 0 "" "" "" None) (py_AcceptedPrice p) in
  let quote := match oq_AcceptedQuoteRef req with Some q => q | None => default nil_quote (ap_QuoteRef price) end in
  (opened req spec quote id fp reservation p)
    <| se_AcceptedPriceWei := dec_string (price_wei price) |> <| se_AcceptedPricePerUnits := ap_UnitsPerPrice price |>
    <| se_SettlementSeq := 1 |> <| se_State := StateWindingDown |> <| se_CloseReason := ReasonOpenFailed |>
    <| se_CreatedAt := Some now |> <| se_LastEventAt := now |>.

(** The runner had no room: a session that is over before it began. *)
Definition refused_record (now : Z) (req : OpenRequest) (spec : OfferingSpec) (id : string) (p : SpendAuthorizationPayload) (fp : string)
    (reservation : Z) (credited : option Z) (ref : string) : SessionRecord :=
  (opened req spec (default nil_quote (oq_AcceptedQuoteRef req)) id fp reservation p)
    <| se_FundedWei := bigIntString credited |> <| se_SettlementSeq := 1 |> <| se_State := StateWindingDown |>
    <| se_CloseReason := ReasonCapacityExhausted |> <| se_RunnerTerminated := true |> <| se_CapacityRef := ref |>
    <| se_LastEventAt := now |>.

Section open.
Context `{Bolt M} `{AuthWire} `{SettlementWire} `{RevisionWire} `{RuntimeJSON} `{Outside R}.
Implicit Types (req : OpenRequest) (r : OpenReservation).

Open Scope act_scope.
Abbreviation eact := (st (EngineState M R) engine_error).

Definition active_record (now : Z) req (spec : OfferingSpec) (drawn : Drawn) (p : SpendAuthorizationPayload) (fp : string) (reservation : Z)
    (credited : option Z) (runnerSessionID : string) (desc : Descriptor) (ref : string) : SessionRecord :=
  (opened req spec (default nil_quote (oq_AcceptedQuoteRef req)) (dw_SessionID drawn) fp reservation p)
    <| se_RunnerSessionID := runnerSessionID |> <| se_CredentialHash := HashSecret (dw_Credential drawn) |>
    <| se_CallbackTokenHash := HashSecret (dw_CallbackToken drawn) |>
    <| se_ReplayMaterial := sealedReplayMaterial (dw_Credential drawn) (de_Grants desc) |> <| se_FundedWei := bigIntString credited |>
    <| se_DescriptorSchema := de_Schema desc |> <| se_DescriptorPublic := de_Public desc |>
    <| se_DescriptorPrivate := de_Private desc |> <| se_Grants := auditGrants (de_Grants desc) |>
    <| se_LeaseExpiresAt := Some (lease_from now spec) |> <| se_LastEventAt := now |> <| se_State := StateActive |>
    <| se_CapacityRef := ref |>.

(** ** Replay *)
Definition replayOpen (id fp : string) : eact OpenResult :=
  do! rec <- session id;
  if negb (bool_decide (se_OpenFingerprint rec = "")) && negb (bool_decide (se_OpenFingerprint rec = fp))
  then fail (protoErr "request_id_reuse")
  else if bool_decide (se_CloseReason rec = ReasonCapacityExhausted)
  then fail (CapacityError (se_SessionID rec) (se_GatewaySessionID rec) (se_WorkID rec) 5)
  else if bool_decide (se_CloseReason rec = ReasonOpenFailed)
  then (if negb (Terminal rec) then fail retryable else fail (protoErr "session_terminal"))
  else
    let out credential grants := mkOpenResult (se_SessionID rec) (se_WorkID rec) (se_State rec) (se_DescriptorSchema rec)
                                   (se_DescriptorPublic rec) grants credential (se_LeaseExpiresAt rec) true in
    if bool_decide (se_ReplayMaterial rec = "") then ret (out "" [])
    else
      match decode_replay (se_ReplayMaterial rec) with
      | None => fail (EngineErr "replay material")
      | Some (credential, grants) => ret (out credential grants)
      end.

(** ** Undoing an open *)
Definition recordStage (requestID : string) (fn : OpenReservation -> OpenReservation) : eact unit := save (UpdateReservation requestID fn).
Definition releaseReservation (requestID : string) : eact unit := save (fun db => (Ok tt, ReleaseReservation requestID db)).

(** The payee's word on an admission whose outcome is unknown: fenced for good,
    or accepted, which makes a session to settle. *)
Definition resolveOpenAdmission (cfg : Config) r (intent : OpenAdmissionIntent) : eact unit :=
  do! answer <- ask (out_CancelAuthorizationAdmission (oi_AuthorizationBytes intent));
  match answer with
  | Ok (Some c) =>
      let unused := match cn_Authorization c with Some u => as_State u =? EXPIRED_UNUSED | None => false end in
      if cn_Canceled c || unused then recordStage (or_RequestID r) (fun o => o <| or_AdmissionCanceled := true |>)
      else
        match cn_Authorization c with
        | None => fail (EngineErr "receiver initial admission remains unresolved")
        | Some u =>
            run! require ((as_State u =? ADMITTED) || (as_State u =? SETTLED)) (EngineErr "receiver initial admission remains unresolved");
            let rec := (oi_Record intent) <| se_RunnerSessionID := or_RunnerSessionID r |> <| se_RunnerTerminated := true |>
                                         <| se_CapacityRef := "" |> in
            do! rec <- lift StoreError (reconcileReceiverUsage rec (Some u));
            run! save (CreateIndexed (cf_Now cfg) rec (or_RequestID r));
            winddownLocked cfg (se_SessionID rec) ReasonOpenFailed
        end
  | _ => fail (EngineErr "receiver admission outcome missing")
  end.

(** A creation without an answer: the runner finds it or excludes it. *)
Definition reconcile_create (id : string) r : eact OpenReservation :=
  match out_ReconcileSessionCreate (or_BackendRef r) with
  | None => fail (EngineErr "runner create outcome unknown")
  | Some reconcile =>
      run! require (negb (bool_decide (or_BrokerSessionID r = ""))) (EngineErr "runner create outcome unknown");
      do! answer <- ask (reconcile (or_BrokerSessionID r));
      match answer with
      | Ok (Some x) =>
          run! require (bool_decide (rx_SessionID x = or_BrokerSessionID r)) (EngineErr "runner create recovery identity mismatch");
          if bool_decide (rx_Outcome x = "created") then
            run! require (negb (bool_decide (rx_RunnerSessionID x = ""))) (EngineErr "runner recovery identity missing");
            run! recordStage id (fun o => o <| or_RunnerSessionID := rx_RunnerSessionID x |>);
            ret (r <| or_RunnerSessionID := rx_RunnerSessionID x |>)
          else if bool_decide (rx_Outcome x = "fenced") then
            run! require (bool_decide (rx_RunnerSessionID x = "")) (EngineErr "conflicting runner recovery proof");
            run! happened (Fenced (or_BackendRef r) (or_BrokerSessionID r));
            ret r
          else fail (EngineErr "runner create recovery pending")
      | _ => fail (EngineErr "runner create recovery identity mismatch")
      end
  end.

Definition may_be_created r : bool :=
  or_CreateStarted r || bool_decide (or_Stage r = ReservationRunnerCreated) ||
  (negb (or_CapacityTracked r) && bool_decide (or_Stage r = ReservationPaid)).
Definition stop_creation (id : string) r : eact OpenReservation :=
  do! r <-
    (if may_be_created r then
       do! r <- (if bool_decide (or_RunnerSessionID r = "") then reconcile_create id r else ret r);
       if bool_decide (or_RunnerSessionID r = "") then ret r
       else
         do! stopped <- terminate (or_BackendRef r) (or_RunnerSessionID r) ReasonOpenFailed;
         run! require (is_ok stopped) (EngineErr "runner terminate failed");
         ret r
     else ret r);
  run! recordStage id (fun o => o <| or_RunnerTerminated := true |> <| or_CapacityRef := "" |>);
  run! release (or_CapacityRef r);
  ret r.

Definition cleanupOpenReservation (cfg : Config) (id : string) : eact unit :=
  do! held <- observe (load (Reservation id));
  match held with
  | Err (StoreError SessionNotFound) => ret tt
  | Err e => fail e
  | Ok r =>
      if or_AdmissionCanceled r then ret tt
      else
        do! r <- (if or_RunnerTerminated r then ret r else stop_creation id r);
        match or_AdmissionIntent r with
        | Some intent => resolveOpenAdmission cfg r intent
        | None =>
            run! require (or_AdmissionTracked r && bool_decide (or_Stage r = ReservationReserved))
                   (EngineErr "legacy initial admission lacks recovery authority");
            releaseReservation id
        end
  end.

(** What an open whose admission failed is answered. *)
Definition reconcileFailedOpen (cfg : Config) (id : string) : eact OpenResult :=
  do! cleaned <- observe (cleanupOpenReservation cfg id);
  match cleaned with
  | Err _ => fail retryable
  | Ok _ =>
      do! held <- observe (load (Reservation id));
      if match held with Ok r => or_AdmissionCanceled r | Err _ => false end then fail (protoErr "payment_invalid")
      else
        do! known <- observe (do! sid <- load (SessionIDForRequest id); session sid);
        match known with
        | Ok rec => if Terminal rec then fail (protoErr "session_terminal") else fail retryable
        | Err _ => fail retryable
        end
  end.

Definition failClosed {A} (cfg : Config) (requestID runnerSessionID stage : string) : eact A :=
  run! (if bool_decide (runnerSessionID = "") then ret tt
        else map_err (fun _ => retryable)
               (recordStage requestID (fun o => o <| or_RunnerSessionID := runnerSessionID |> <| or_CreateStarted := true |>)));
  do! cleaned <- observe (cleanupOpenReservation cfg requestID);
  match cleaned with Err _ => fail retryable | Ok _ => fail (EngineErr stage) end.

(** ** The open *)

(** A request id that is taken. *)
Definition reservation_conflict (requestID fp : string) (e : engine_error) : eact OpenResult :=
  match e with
  | StoreError SessionExists =>
      do! known <- observe (load (SessionIDForRequest requestID));
      match known with Ok id => replayOpen id fp | Err _ => fail e end
  | StoreError ErrOpenInFlight =>
      do! held <- observe (load (Reservation requestID));
      match held with
      | Ok r =>
          if negb (bool_decide (or_Fingerprint r = fp)) then fail (protoErr "request_id_reuse")
          else if or_AdmissionCanceled r then fail (protoErr "payment_invalid")
          else fail (protoErr "open_in_flight")
      | Err _ => fail (protoErr "open_in_flight")
      end
  | StoreError ErrNonAdmissionIssued => fail (protoErr "request_id_reuse")
  | _ => fail e
  end.

(** A runner slot, when the broker counts them, under the session's id. *)
Definition acquire_slot req (spec : OfferingSpec) (sessionID : string) : eact string :=
  match out_AcquireCapacity with
  | None => ret (oq_CapacityRef req)
  | Some acquire =>
      do! got <- ask (acquire sessionID spec);
      match got with
      | Ok _ => ret sessionID
      | Err _ => run! observe (releaseReservation (oq_RequestID req)); fail (protoErr "capacity_exhausted")
      end
  end.

(** Nothing was asked of the payee yet: the slot and the id are given back. *)
Definition give_back {A} (requestID ref : string) (m : eact A) : eact A :=
  do! outcome <- observe m;
  match outcome with
  | Ok a => ret a
  | Err _ => run! release ref; run! observe (releaseReservation requestID); fail retryable
  end.

Definition admission_confirmed (p : SpendAuthorizationPayload) (answer : result rpc_error (option AdmitResult)) : option (option Z) :=
  match answer with
  | Ok (Some (mkAdmitResult state (Some account) credited)) =>
      if (state =? ADMITTED) && bool_decide (pa_WholesaleAccountID account = py_WholesaleAccountId p) &&
         bool_decide (pa_Payer account = py_Payer p) && bool_decide (pa_SettlementDomainID account = py_SettlementDomainId p)
      then Some credited else None
  | _ => None
  end.

(** A runner without room ends the session at once, with its settlement. *)
Definition refuse_capacity (cfg : Config) (rec : SessionRecord) (requestID : string) (backoff : Z) : eact OpenResult :=
  run! map_err (fun _ => retryable) (save (CreateIndexed (cf_Now cfg) rec requestID));
  run! winddownLocked cfg (se_SessionID rec) ReasonCapacityExhausted;
  fail (CapacityError (se_SessionID rec) (se_GatewaySessionID rec) (se_WorkID rec) backoff).

Definition persist_open (cfg : Config) req (fp : string) (rec : SessionRecord) (desc : Descriptor) (drawn : Drawn) : eact OpenResult :=
  let undo {A} : eact A := failClosed cfg (oq_RequestID req) (se_RunnerSessionID rec) "persist" in
  do! written <- observe (save (CreateIndexed (cf_Now cfg) rec (oq_RequestID req)));
  match written with
  | Ok _ => ret (mkOpenResult (se_SessionID rec) (se_WorkID rec) StateActive (de_Schema desc) (de_Public desc) (de_Grants desc)
                   (dw_Credential drawn) (se_LeaseExpiresAt rec) false)
  | Err (StoreError ErrGatewaySessionExists) => run! observe (undo (A := unit)); fail (protoErr "gateway_session_id_reuse")
  | Err (StoreError SessionExists) =>
      run! observe (undo (A := unit));
      do! known <- observe (load (SessionIDForRequest (oq_RequestID req)));
      match known with Ok id => replayOpen id fp | Err _ => undo end
  | Err _ => undo
  end.

Definition callbackURL (cfg : Config) (sessionID : string) : string :=
  if bool_decide (cf_CallbackBaseURL cfg = "") then ""
  else trimSlash (cf_CallbackBaseURL cfg) +:+ "/v1/session/" +:+ sessionID +:+ "/events".

(** With the authorization admitted: attribution, the runner, the record. *)
Definition start_session (cfg : Config) req (spec : OfferingSpec) (drawn : Drawn) (p : SpendAuthorizationPayload) (fp : string)
    (reservation : Z) (credited : option Z) (ref : string) : eact OpenResult :=
  let now := cf_Now cfg in
  let request := oq_RequestID req in
  let id := dw_SessionID drawn in
  do! bound <- ask (out_BindWork (py_AuthorizationId p) request spec);
  match bound with
  | Err _ => failClosed cfg request "" "work attribution"
  | Ok _ =>
      do! noted <- observe (recordStage request (fun o => o <| or_CreateStarted := true |>));
      match noted with
      | Err _ => failClosed cfg request "" "record create intent"
      | Ok _ =>
          do! answer <- ask (out_CreateSession (os_BackendRef spec)
            (mkRunnerCreateRequest id (py_AuthorizationId p) (os_Capability spec) (os_Offering spec) (oq_SessionParams req)
               (callbackURL cfg id) (dw_CallbackToken drawn)));
          match answer with
          | Err (RunnerCapacityError backoff) =>
              run! happened (Refused (os_BackendRef spec) id);
              refuse_capacity cfg (refused_record now req spec id p fp reservation credited ref) request backoff
          | Err _ => failClosed cfg request "" "runner create"
          | Ok made =>
              let runner := rr_RunnerSessionID made in
              do! noted <- observe (recordStage request (fun o => o <| or_Stage := ReservationRunnerCreated |> <| or_RunnerSessionID := runner |>));
              match noted, ParseDescriptor (rr_Runtime made) (os_DescriptorSchema spec) (os_DescriptorMaxBytes spec) with
              | Err _, _ => failClosed cfg request runner "record open stage"
              | Ok _, Err _ => failClosed cfg request runner "descriptor validation"
              | Ok _, Ok desc =>
                  persist_open cfg req fp (active_record now req spec drawn p fp reservation credited runner desc ref) desc drawn
              end
          end
      end
  end.

Definition open_reserved (cfg : Config) req (spec : OfferingSpec) (drawn : Drawn) (p : SpendAuthorizationPayload) (fp : string)
    (reservation : Z) : eact OpenResult :=
  let request := oq_RequestID req in
  let id := dw_SessionID drawn in
  do! ref <- acquire_slot req spec id;
  run! give_back request ref (recordStage request (fun o =>
    o <| or_CapacityRef := ref |> <| or_BackendRef := os_BackendRef spec |> <| or_BrokerSessionID := id |> <| or_CapacityTracked := true |>));
  run! give_back request ref (recordStage request (fun o =>
    o <| or_WorkID := py_AuthorizationId p |> <| or_Sender := py_Payer p |> <| or_AccountAuthorization := true |>
      <| or_WholesaleAccountID := py_WholesaleAccountId p |>
      <| or_AdmissionIntent := Some (mkOpenAdmissionIntent (oq_AuthorizationBytes req)
                                      (openRecoveryRecord (cf_Now cfg) req spec id p fp reservation)) |>));
  do! answer <- ask (out_AdmitAuthorization (mkAdmitRequest (oq_AuthorizationBytes req) (oq_PaymentBytes req) (Some reservation)));
  match admission_confirmed p answer with
  | None => reconcileFailedOpen cfg request
  | Some credited =>
      run! map_err (fun _ => retryable) (recordStage request (fun o =>
        o <| or_Stage := ReservationPaid |>
          <| or_AdmissionIntent := (fun i => i <| oi_Record := (oi_Record i) <| se_FundedWei := bigIntString credited |> |>) <$> or_AdmissionIntent o |>));
      start_session cfg req spec drawn p fp reservation credited ref
  end.

Definition check_open req : result engine_error (Z * OfferingSpec) :=
  if bool_decide (oq_RequestID req = "") then Err (protoErr "request_id_required")
  else if bool_decide (oq_AuthorizationBytes req = "") then Err (protoErr "authorization_required")
  else
    match oq_InitialReservationWei req with
    | None => Err (protoErr "payment_invalid")
    | Some reservation =>
        if reservation <? 0 then Err (protoErr "payment_invalid")
        else match oq_Spec req with None => Err (EngineErr "nil spec") | Some spec => Ok (reservation, spec) end
    end.

Definition Open (cfg : Config) req (drawn : Drawn) : eact OpenResult :=
  do! checked <- lift Datatypes.id (check_open req);
  let '(reservation, spec) := checked in
  let fp := openFingerprint req in
  do! known <- observe (load (SessionIDForRequest (oq_RequestID req)));
  match known with
  | Ok id => replayOpen id fp
  | Err _ =>
      match unmarshal_auth (oq_AuthorizationBytes req) with
      | Some (mkSpendAuthorization (Some p) _) =>
          do! reserved <- observe (save (ReserveOpen (cf_Now cfg) (oq_RequestID req) fp));
          match reserved with
          | Err e => reservation_conflict (oq_RequestID req) fp e
          | Ok _ => open_reserved cfg req spec drawn p fp reservation
          end
      | _ => fail (protoErr "payment_invalid")
      end
  end.
End open.
