(* ===== verification/SessionSweep.v ===== *)
(** * Sweeping and recovering sessions

    capability-broker/internal/sessionengine (New, Sweep, Recover and
    recoverReservations of engine.go): on a timer the engine ends sessions whose
    runner went silent or whose lease ran out, retries what is pending and
    forgets ended sessions; at start it finds out which sessions still run. *)
From S2P Require Import Prelude.
From S2P Require Import GoBytes.
From S2P Require Import Bolt.
From S2P Require Import Actions.
From S2P Require Import Spendauth.
From S2P Require Import WorkLedger.
From S2P Require Import WorkClient.
From S2P Require Import SessionStore.
From S2P Require Import EngineTypes.
From S2P Require Import SessionSettlement.
From S2P Require Import SessionRevisions.
From S2P Require Import SessionEngine.
From S2P Require Import SessionOpen.

Open Scope record_scope.

Section sweep.
Context `{Bolt M} `{AuthWire} `{SettlementWire} `{RevisionWire} `{RuntimeJSON} `{Outside R}.
Implicit Types (db : SessionDB M) (rec : SessionRecord).

Open Scope act_scope.
Abbreviation eact := (st (EngineState M R) engine_error).

(** An engine is refused while sessions from before account authorizations run. *)
Definition legacy_session rec : bool :=
  negb (Terminal rec) && (bool_decide (se_AccountAuthorizationID rec = "") || bool_decide (se_WholesaleAccountID rec = "")).
Definition legacy_reservation (r : OpenReservation) : bool :=
  (bool_decide (or_Stage r = ReservationPaid) || bool_decide (or_Stage r = ReservationRunnerCreated)) &&
  (negb (or_AccountAuthorization r) || bool_decide (or_WholesaleAccountID r = "")).
Definition New db (out : R) : result string (EngineState M R) :=
  if existsb (fun kr => legacy_session kr.2) (ForEach (sd_sessions db)) ||
     existsb (fun kr => legacy_reservation kr.2) (ForEach (sd_open_reservations db))
  then Err "authorization-only cutover refused"
  else Ok (mkEngineState db out []).

(** Each of the ids in turn, whatever comes of it. *)
Fixpoint each (act : string -> eact unit) (ids : list string) : eact unit :=
  match ids with
  | [] => ret tt
  | id :: ids => do! _ <- observe (act id); each act ids
  end.

Definition recoverReservations (cfg : Config) : eact unit := fun s =>
  each (cleanupOpenReservation cfg) (List.map (fun kr => or_RequestID kr.2) (ForEach (sd_open_reservations (en_Store s)))) s.

(** Why a session is due to end, if it is. *)
Definition due_reason (cfg : Config) rec : option string :=
  let now := cf_Now cfg in
  if Terminal rec then None
  else if bool_decide (se_State rec = StateWindingDown) then Some (se_CloseReason rec)
  else
    match cf_Specs cfg (se_SessionID rec) with
    | None => None
    | Some spec =>
        if i64 (heartbeat spec * missed spec) <? now - se_LastEventAt rec then Some ReasonHeartbeatLost
        else if bool_decide (se_OutputState rec = "stalled") &&
                match se_OutputStalledAt rec with None => false | Some t => OutputStallBackstop <=? now - t end
        then Some ReasonOutputFailed
        else match se_LeaseExpiresAt rec with
             | None => None
             | Some lease => if lease + heartbeat spec <? now then Some ReasonLeaseExpired else None
             end
    end.
Definition dues (cfg : Config) db : list (string * string) :=
  omap (fun kr => (fun reason => (se_SessionID kr.2, reason)) <$> due_reason cfg kr.2) (ForEach (sd_sessions db)).
Fixpoint wind_down_all (cfg : Config) (due : list (string * string)) : eact unit :=
  match due with
  | [] => ret tt
  | (id, reason) :: due => run! winddownLocked cfg id reason; wind_down_all cfg due
  end.

Definition Sweep (cfg : Config) : eact unit :=
  run! recoverReservations cfg;
  run! recoverRevisionIntents (cf_Now cfg);
  run! (fun s => wind_down_all cfg (dues cfg (en_Store s)) s);
  run! observe (save (fun db => let '(n, db) := EvictTerminal (cf_Now cfg - cf_TerminalRetention cfg) db in (Ok n, db)));
  ret tt.

(** ** At start *)
Definition pending_session rec : bool :=
  negb (bool_decide (is_Some (se_RevisionIntent rec))) && negb (Terminal rec) && bool_decide (se_State rec = StateWindingDown).
Definition running_session rec : bool :=
  negb (bool_decide (is_Some (se_RevisionIntent rec))) && negb (Terminal rec) && negb (bool_decide (se_State rec = StateWindingDown)).
Definition ids_of (which : SessionRecord -> bool) db : list string :=
  List.map (fun kr => se_SessionID kr.2) (List.filter (fun kr => which kr.2) (ForEach (sd_sessions db))).

Definition resume_winddown (cfg : Config) (id : string) : eact unit :=
  do! rec <- session id;
  winddownLocked cfg id (se_CloseReason rec).

(** A session whose runner still holds it, and whose authorization stands, goes
    on; one whose runner cannot be reached is left to the heartbeat. *)
Definition rebind (cfg : Config) (id : string) : eact unit :=
  do! rec <- session id;
  do! held <- ask (out_QuerySession (se_BackendRef rec) (se_RunnerSessionID rec));
  match held with
  | Ok _ =>
      do! answer <- ask (out_GetSpendAuthorization (se_Sender rec) (se_AccountAuthorizationID rec) (se_WholesaleAccountID rec));
      match answer with
      | Ok (Some u) => if as_State u =? ADMITTED then ret tt else winddownLocked cfg id ReasonRecoveryFailed
      | _ => winddownLocked cfg id ReasonRecoveryFailed
      end
  | Err e => if bool_decide (e = ErrRunnerSessionGone) then winddownLocked cfg id ReasonRecoveryFailed else ret tt
  end.

Definition Recover (cfg : Config) : eact unit :=
  run! recoverRevisionIntents (cf_Now cfg);
  run! recoverReservations cfg;
  fun s =>
    let pending := ids_of pending_session (en_Store s) in
    let running := ids_of running_session (en_Store s) in
    (run! each (resume_winddown cfg) pending; each (rebind cfg) running) s.
End sweep.
