(* ===== verification/EngineLogic.v ===== *)
(** * Reasoning about the engine

    [hoare P m Q X]: from a state in [P], the computation [m] ends in [Q] of its
    result, or fails in [X].  Then the rules for the engine's primitive calls,
    on assertions about the store alone. *)
From S2P Require Import Prelude.
From S2P Require Import Bolt.
From S2P Require Import Actions.
From S2P Require Import Spendauth.
From S2P Require Import WorkClient.
From S2P Require Import SessionStore.
From S2P Require Import EngineTypes.

Open Scope record_scope.

Definition hoare {S E A} (P : S -> Prop) (m : st S E A) (Q : A -> S -> Prop) (X : S -> Prop) : Prop :=
  forall s, P s -> match m s with (Ok a, s') => Q a s' | (Err _, s') => X s' end.

Section rules.
Context {S E : Type}.
Implicit Types (P X : S -> Prop).

Lemma hoare_ret {A} (a : A) P (Q : A -> S -> Prop) X : (forall s, P s -> Q a s) -> hoare P (ret (E := E) a) Q X.
Proof. intros HQ s Hs. by apply HQ. Qed.
Lemma hoare_fail {A} (e : E) P (Q : A -> S -> Prop) X : (forall s, P s -> X s) -> hoare P (fail e) Q X.
Proof. intros HX s Hs. by apply HX. Qed.
Lemma hoare_bind {A B} (m : st S E A) (k : A -> st S E B) P Q T X :
  hoare P m Q X -> (forall a, hoare (Q a) (k a) T X) -> hoare P (bind m k) T X.
Proof. intros Hm Hk s Hs. specialize (Hm s Hs). unfold bind. destruct (m s) as [[a|e] s']; [by apply Hk|done]. Qed.
Lemma hoare_require b (e : E) P X :
  (forall s, P s -> X s) -> hoare P (require b e) (fun _ s => P s /\ b = true) X.
Proof. intros HX s Hs. destruct b; [done|by apply HX]. Qed.
Lemma hoare_observe {A} (m : st S E A) P (Q : A -> S -> Prop) X Y :
  hoare P m Q Y -> hoare P (observe m) (fun r s => match r with Ok a => Q a s | Err _ => Y s end) X.
Proof. intros Hm s Hs. specialize (Hm s Hs). unfold observe. by destruct (m s) as [[a|e] s']. Qed.
Lemma hoare_map_err {A} f (m : st S E A) P Q X : hoare P m Q X -> hoare P (map_err f m) Q X.
Proof. intros Hm s Hs. specialize (Hm s Hs). unfold map_err. by destruct (m s) as [[a|e] s']. Qed.
Lemma hoare_lift {A E'} (f : E' -> E) (r : result E' A) P X :
  (forall s, P s -> X s) -> hoare P (lift f r) (fun a s => P s /\ r = Ok a) X.
Proof. intros HX s Hs. destruct r; [done|by apply HX]. Qed.
Lemma hoare_weaken {A} (m : st S E A) P P' (Q Q' : A -> S -> Prop) X X' :
  hoare P' m Q' X' -> (forall s, P s -> P' s) -> (forall a s, Q' a s -> Q a s) -> (forall s, X' s -> X s) -> hoare P m Q X.
Proof.
  intros Hm HP HQ HX s Hs. specialize (Hm s (HP s Hs)). destruct (m s) as [[a|e] s']; [by apply HQ|by apply HX].
Qed.
Lemma hoare_pre {A} (m : st S E A) P P' (Q : A -> S -> Prop) X : hoare P' m Q X -> (forall s, P s -> P' s) -> hoare P m Q X.
Proof. intros Hm HP. by eapply hoare_weaken. Qed.
Lemma hoare_pure {A} (m : st S E A) P (C : Prop) (Q : A -> S -> Prop) X : (C -> hoare P m Q X) -> hoare (fun s => P s /\ C) m Q X.
Proof. intros Hm s [Hs Hc]. by apply Hm. Qed.
End rules.

(** ** Assertions on the store *)
Definition on_store {M R} (P : SessionDB M -> Prop) (s : EngineState M R) : Prop := P (en_Store s).
Arguments on_store _ _ _ _ /.

Section store_rules.
Context `{Bolt M} `{Outside R}.
Implicit Types (P X : SessionDB M -> Prop).
Abbreviation state := (EngineState M R).

Lemma hoare_load {A} (op : SessionDB M -> result store_error A) P X :
  (forall db, P db -> X db) ->
  hoare (S := state) (on_store P) (load op) (fun a => on_store (fun db => P db /\ op db = Ok a)) (on_store X).
Proof. intros HX s Hs. unfold load. cbn. destruct (op (en_Store s)) eqn:Ho; [done|by apply HX]. Qed.
Lemma hoare_session id P X :
  (forall db, P db -> X db) ->
  hoare (S := state) (on_store P) (session id) (fun r => on_store (fun db => P db /\ sd_sessions db !! id = Some r)) (on_store X).
Proof.
  intros HX. eapply hoare_weaken; [by apply (hoare_load (Get id) P X)|done| |done].
  intros r s [Hs Hg]. split; [done|]. unfold Get in Hg. destruct (sd_sessions _ !! id); by simplify_eq.
Qed.
Lemma hoare_save {A} (op : SessionDB M -> result store_error A * SessionDB M) P (Q : A -> SessionDB M -> Prop) X :
  (forall db, P db -> X db) ->
  (forall db, P db -> match op db with (Ok a, db') => Q a db' | (Err _, db') => X db' end) ->
  hoare (S := state) (on_store P) (save op) (fun a => on_store (Q a)) (on_store X).
Proof.
  intros HX Hop [db out eff] Hs. unfold save. cbn in *. destruct (out_Write out) as [[] out']; [|by apply HX].
  specialize (Hop db Hs). by destruct (op db) as [[a|e] db'].
Qed.
Lemma hoare_ask {E A} (op : st R E A) P (Y : state -> Prop) : hoare (S := state) (on_store P) (ask op) (fun _ => on_store P) Y.
Proof. intros s Hs. unfold ask. by destruct (op (en_Outside s)). Qed.
Lemma hoare_happened e P (Y : state -> Prop) : hoare (S := state) (on_store P) (happened e) (fun _ => on_store P) Y.
Proof. by intros s Hs. Qed.
Lemma hoare_release ref P (Y : state -> Prop) : hoare (S := state) (on_store P) (release ref) (fun _ => on_store P) Y.
Proof. intros s Hs. unfold release. by case_bool_decide. Qed.
Lemma hoare_terminate backend rid reason P (Y : state -> Prop) :
  hoare (S := state) (on_store P) (terminate backend rid reason) (fun _ => on_store P) Y.
Proof. intros s Hs. unfold terminate. by destruct (out_TerminateSession _ _ _ _). Qed.

(** A record update, on the record stored. *)
Definition with_session (id : string) (r : SessionRecord) (db : SessionDB M) : SessionDB M :=
  db <| sd_sessions := <[id := r]> (sd_sessions db) |>.
Lemma hoare_modify now id fn P Q X :
  (forall db, P db -> X db) ->
  (forall db r r', P db -> sd_sessions db !! id = Some r -> fn r = Ok r' -> Q (with_session id (r' <| se_UpdatedAt := now |>) db)) ->
  hoare (S := state) (on_store P) (modify now id fn) (fun _ => on_store Q) (on_store X).
Proof.
  intros HX HQ. apply hoare_save; [done|]. intros db Hs. unfold UpdateSession, Update.
  destruct (sd_sessions db !! id) as [r|] eqn:Hr; [|by apply HX]. destruct (fn r) as [r'|] eqn:Hf; [|by apply HX].
  by eapply HQ.
Qed.

(** ** Where nothing is learned *)
Lemma pres_hoare {A} (I : state -> Prop) (m : st state engine_error A) :
  pres I m (fun _ => True) <-> hoare I m (fun _ => I) I.
Proof.
  split.
  - intros Hm s Hs. destruct (Hm s Hs) as [Hi _]. by destruct (m s) as [[a|e] s'].
  - intros Hm s Hs. specialize (Hm s Hs). by destruct (m s) as [[a|e] s'].
Qed.
Lemma pres_save {A} (op : SessionDB M -> result store_error A * SessionDB M) P :
  (forall db, P db -> P (op db).2) -> pres (S := state) (on_store P) (save op) (fun _ => True).
Proof.
  intros Hop. apply pres_hoare, hoare_save; [done|]. intros db Hs. specialize (Hop db Hs). by destruct (op db) as [[a|e] db'].
Qed.
Lemma pres_modify now id fn P :
  (forall db r r', P db -> sd_sessions db !! id = Some r -> fn r = Ok r' -> P (with_session id (r' <| se_UpdatedAt := now |>) db)) ->
  pres (S := state) (on_store P) (modify now id fn) (fun _ => True).
Proof. intros Hf. by apply pres_hoare, hoare_modify. Qed.
Lemma pres_load {A} (op : SessionDB M -> result store_error A) P : pres (S := state) (on_store P) (load op) (fun _ => True).
Proof. apply pres_hoare. eapply hoare_weaken; [by apply (hoare_load op P P)|done| |done]. by intros a s [Hs _]. Qed.
Lemma pres_session id P : pres (S := state) (on_store P) (session id) (fun _ => True).
Proof. apply pres_load. Qed.
Lemma pres_ask {E A} (op : st R E A) P : pres (S := state) (on_store P) (ask op) (fun _ => True).
Proof. apply pres_hoare, hoare_ask. Qed.
Lemma pres_happened e P : pres (S := state) (on_store P) (happened e) (fun _ => True).
Proof. apply pres_hoare, hoare_happened. Qed.
Lemma pres_release ref P : pres (S := state) (on_store P) (release ref) (fun _ => True).
Proof. apply pres_hoare, hoare_release. Qed.
Lemma pres_terminate backend rid reason P : pres (S := state) (on_store P) (terminate backend rid reason) (fun _ => True).
Proof. apply pres_hoare, hoare_terminate. Qed.
End store_rules.
#[export] Hint Resolve pres_load pres_session pres_ask pres_happened pres_release pres_terminate : act.
