(* ===== verification/SessionLife.v ===== *)
(** * Sessions only move forward

    What every call of the session engine keeps, whatever the payee, the runners
    and the disk do: the identity of a session, its counters, its way from
    active through winding down to its end, and its final settlement.  [later]
    is that order on records; the handlers are shown to follow it. *)
From S2P Require Import Prelude.
From S2P Require Import GoBytes.
From S2P Require Import Bolt.
From S2P Require Import Actions.
From S2P Require Import Spendauth.
From S2P Require Import WorkLedger.
From S2P Require Import WorkClient.
From S2P Require Import SessionStore.
From S2P Require Import EngineTypes.
From S2P Require Import SessionSettlement.
From S2P Require Import SessionRevisions.
From S2P Require Import SessionEngine.
From S2P Require Import EngineLogic.

Open Scope record_scope.

(** ** The order on records *)

(** What a session is, for all its life. *)
Definition identity (r : SessionRecord) :=
  ((se_SessionID r, se_GatewaySessionID r, se_RunnerSessionID r, se_BackendRef r, se_Sender r, se_WholesaleAccountID r),
   (se_SettlementDomainID r, se_Capability r, se_Offering r, se_Unit r, se_QuoteID r, se_QuoteVersion r),
   (se_ConstraintFingerprint r, se_RouteFingerprint r, se_AcceptedPriceWei r, se_AcceptedPricePerUnits r),
   (se_CredentialHash r, se_CallbackTokenHash r, se_OpenFingerprint r, se_CreatedAt r)).

(** All of a record but the signature on its statement and the time of its last write. *)
Definition final (r : SessionRecord) : SessionRecord := r <| se_TerminalSettlementEnvelope := "" |> <| se_UpdatedAt := 0 |>.

Record later (r r' : SessionRecord) : Prop := {
  lt_identity : identity r' = identity r;
  lt_sequence : se_LastSequence r <= se_LastSequence r';
  lt_claimed : se_ClaimedTotal r <= se_ClaimedTotal r';
  lt_debited : se_DebitedTotal r <= se_DebitedTotal r';
  lt_settlements : se_SettlementSeq r <= se_SettlementSeq r';
  lt_closing : Closing r = true -> Closing r' = true /\ (se_CloseReason r <> "" -> se_CloseReason r' = se_CloseReason r);
  lt_payment : se_PaymentClosed r = true -> se_PaymentClosed r' = true;
  lt_runner : se_RunnerTerminated r = true -> se_RunnerTerminated r' = true;
  lt_terminal : Terminal r = true -> Terminal r' = true;
  lt_final : Terminal r = true -> se_TerminalSettlement r <> "" -> final r' = final r;
}.

(** A record that is well formed under its key. *)
Record good (id : string) (r : SessionRecord) : Prop := {
  gd_id : se_SessionID r = id;
  gd_units : 0 <= se_DebitedTotal r <= se_ClaimedTotal r;
  gd_cap : se_DebitedTotal r <= se_AuthorizationMaxUnits r;
  gd_paid : se_PaymentClosed r = true -> Closing r = true /\ se_PendingDebitSeq r = 0;
  gd_over : Terminal r = true -> se_RevisionIntent r = None /\ se_PaymentClosed r = true /\ se_RunnerTerminated r = true;
}.

Lemma later_refl r : later r r.
Proof. split; try done; lia. Qed.
Lemma later_trans r1 r2 r3 : later r1 r2 -> later r2 r3 -> later r1 r3.
Proof.
  intros H1 H2. split; try (destruct H1, H2; lia).
  - by rewrite (lt_identity _ _ H2), (lt_identity _ _ H1).
  - intros Hc. destruct (lt_closing _ _ H1 Hc) as [Hc2 Hr2]. destruct (lt_closing _ _ H2 Hc2) as [Hc3 Hr3].
    split; [done|]. intros Hne. specialize (Hr2 Hne). rewrite <- Hr2. apply Hr3. by rewrite Hr2.
  - intros Hp. by apply H2, H1.
  - intros Hp. by apply H2, H1.
  - intros Hp. by apply H2, H1.
  - intros Ht Hs. pose proof (lt_final _ _ H1 Ht Hs) as Hf. rewrite <- Hf. apply H2; [by apply H1|].
    apply (f_equal se_TerminalSettlement) in Hf. cbn in Hf. by rewrite Hf.
Qed.

Lemma later_updated r r' now : later r r' -> later r (r' <| se_UpdatedAt := now |>).
Proof. intros Hl. eapply later_trans; [exact Hl|]. split; try done; cbn; lia. Qed.
Lemma good_updated id r now : good id r -> good id (r <| se_UpdatedAt := now |>).
Proof. intros []. by split. Qed.

Lemma open_not_terminal r : Closing r = false -> Terminal r = false.
Proof. unfold Closing. by intros [? _]%orb_false_iff. Qed.

(** A record is good when it comes from a good one by a change that leaves alone
    what goodness is about. *)
Lemma good_frame id r r' :
  good id r -> se_SessionID r' = se_SessionID r -> se_ClaimedTotal r' = se_ClaimedTotal r -> se_DebitedTotal r' = se_DebitedTotal r ->
  se_AuthorizationMaxUnits r' = se_AuthorizationMaxUnits r -> (se_PaymentClosed r' = true -> se_PaymentClosed r = true) ->
  (se_PendingDebitSeq r = 0 -> se_PendingDebitSeq r' = 0) -> (Closing r = true -> Closing r' = true) -> Terminal r' = false -> good id r'.
Proof.
  intros [H1 H2 H3 H4 H5] Hi Hc Hd Hm Hp Hq Hcl Ht. split; [congruence|lia|lia| |by rewrite Ht].
  intros Hpc. destruct (H4 (Hp Hpc)) as [? ?]. split; auto.
Qed.

(** A change of a session that is not over: what is left to show. *)
Lemma later_open r r' :
  Terminal r = false -> identity r' = identity r -> se_LastSequence r <= se_LastSequence r' ->
  se_ClaimedTotal r <= se_ClaimedTotal r' -> se_DebitedTotal r <= se_DebitedTotal r' -> se_SettlementSeq r <= se_SettlementSeq r' ->
  (Closing r = true -> Closing r' = true /\ (se_CloseReason r <> "" -> se_CloseReason r' = se_CloseReason r)) ->
  (se_PaymentClosed r = true -> se_PaymentClosed r' = true) -> (se_RunnerTerminated r = true -> se_RunnerTerminated r' = true) ->
  later r r'.
Proof. intros Ht. split; try done; by rewrite Ht. Qed.

(** ** Stores *)
Section stores.
Context `{Bolt M}.
Implicit Types (db : SessionDB M) (G : SessionRecord -> Prop).

Definition evolves db0 db : Prop :=
  forall id r, sd_sessions db0 !! id = Some r -> exists r', sd_sessions db !! id = Some r' /\ later r r'.
(** An open in flight keeps a record to be created when it cannot be undone. *)
Definition good_reservation (o : OpenReservation) : Prop :=
  forall i, or_AdmissionIntent o = Some i ->
  Terminal (oi_Record i) = false /\ se_PaymentClosed (oi_Record i) = false /\
  se_DebitedTotal (oi_Record i) = 0 /\ se_ClaimedTotal (oi_Record i) = 0.
Definition well_formed db : Prop :=
  (forall id r, sd_sessions db !! id = Some r -> good id r) /\
  (forall k o, sd_open_reservations db !! k = Some o -> good_reservation o).
(** The store since [db0], and what is known of one session. *)
Definition since db0 db : Prop := evolves db0 db /\ well_formed db.
Definition at_id (id : string) G db : Prop := forall r, sd_sessions db !! id = Some r -> G r.
Definition known db0 (id : string) G db : Prop := since db0 db /\ at_id id G db.

Lemma sessions_evolve_refl db : evolves db db.
Proof. intros id r Hr. exists r. split; [done|apply later_refl]. Qed.
Lemma sessions_evolve_trans db1 db2 db3 : evolves db1 db2 -> evolves db2 db3 -> evolves db1 db3.
Proof.
  intros H1 H2 id r Hr. destruct (H1 id r Hr) as (r' & Hr' & Hl). destruct (H2 id r' Hr') as (r'' & Hr'' & Hl').
  exists r''. split; [done|by eapply later_trans].
Qed.
Lemma since_refl db : well_formed db -> since db db.
Proof. intros Hw. split; [apply sessions_evolve_refl|done]. Qed.

Lemma since_with_session db0 db id r r' :
  since db0 db -> sd_sessions db !! id = Some r -> later r r' -> good id r' -> since db0 (with_session id r' db).
Proof.
  intros [He [Hw Ho]] Hr Hl Hg. split; [|split; [|done]].
  - intros k x Hx. destruct (He k x Hx) as (x' & Hx' & Hlx). cbn. destruct (decide (k = id)) as [->|Hne].
    + rewrite lookup_insert_eq. exists r'. split; [done|]. rewrite Hr in Hx'. injection Hx' as <-. by eapply later_trans.
    + rewrite lookup_insert_ne by done. by exists x'.
  - intros k x. cbn. destruct (decide (k = id)) as [->|Hne].
    + rewrite lookup_insert_eq. by intros [= <-].
    + rewrite lookup_insert_ne by done. apply Hw.
Qed.
Lemma at_with_session id r (G : SessionRecord -> Prop) db : G r -> at_id id G (with_session id r db).
Proof. intros Hg x. cbn. rewrite lookup_insert_eq. by intros [= <-]. Qed.

(** A new record of a session under its own key. *)
Lemma since_created db0 db id r db' :
  since db0 db -> sd_sessions db !! id = None -> good id r -> sd_sessions db' = <[id := r]> (sd_sessions db) ->
  (forall k o, sd_open_reservations db' !! k = Some o -> sd_open_reservations db !! k = Some o) -> since db0 db'.
Proof.
  intros [He [Hw Ho]] Hn Hg Hs Hr. split; [|split].
  - intros k x Hx. destruct (He k x Hx) as (x' & Hx' & Hlx). exists x'. rewrite Hs. split; [|done].
    rewrite lookup_insert_ne; [done|]. intros ->. by rewrite Hn in Hx'.
  - intros k x. rewrite Hs. destruct (decide (k = id)) as [->|Hne].
    + rewrite lookup_insert_eq. by intros [= <-].
    + rewrite lookup_insert_ne by done. apply Hw.
  - intros k o Hk. by apply (Ho k o), Hr.
Qed.
Lemma since_same db0 db db' :
  since db0 db -> sd_sessions db' = sd_sessions db ->
  (forall k o, sd_open_reservations db' !! k = Some o -> good_reservation o) -> since db0 db'.
Proof. intros [He [Hw Ho]] Hs Hr. split; [|split; [|done]]; unfold evolves; by rewrite Hs. Qed.
End stores.

(** ** Updates of a record *)
Lemma reconcile_later r u r' : Terminal r = false -> reconcileReceiverUsage r u = Ok r' -> later r r' /\ Terminal r' = false.
Proof.
  intros Ht. unfold reconcileReceiverUsage. destruct u as [[? [reserved|] [paid|] units seq]|]; try done.
  repeat (case_match; try done). intros [= <-]. to_prop. split; [|done].
  apply later_open; cbn; try done; lia.
Qed.
Lemma reconcile_units r u r' :
  reconcileReceiverUsage r u = Ok r' ->
  exists v, u = Some v /\ se_DebitedTotal r' = as_ActualUnits v /\ se_DebitedTotal r <= se_DebitedTotal r' <= se_ClaimedTotal r' /\
    se_DebitedTotal r' <= se_AuthorizationMaxUnits r' /\ se_State r' = se_State r /\ se_CloseReason r' = se_CloseReason r /\
    se_PaymentClosed r' = se_PaymentClosed r /\ se_RunnerTerminated r' = se_RunnerTerminated r /\
    se_RevisionIntent r' = se_RevisionIntent r /\ identity r' = identity r /\ se_SessionID r' = se_SessionID r /\ se_PendingDebitSeq r' = 0.
Proof.
  unfold reconcileReceiverUsage. destruct u as [[? [reserved|] [paid|] units seq]|]; try done.
  repeat (case_match; try done). intros [= <-]. to_prop. eexists. split; [done|]. cbn. repeat split; lia.
Qed.
Lemma reconcile_good id r u r' : good id r -> Terminal r = false -> reconcileReceiverUsage r u = Ok r' -> good id r'.
Proof.
  intros Hg Ht Hr. destruct (reconcile_units _ _ _ Hr) as (v & _ & Hd & Hc & Hm & Hs & _ & Hp & _ & _ & _ & Hid & Hq).
  destruct Hg as [H1 H2 H3 H4 H5]. split; [congruence|lia|done| |].
  - rewrite Hp. intros Hpc. destruct (H4 Hpc). split; [|done]. unfold Closing, Terminal in *. by rewrite Hs.
  - unfold Terminal in *. by rewrite Hs, Ht.
Qed.
