(* ===== verification/SessionForward.v ===== *)
(** * The engine moves sessions forward

    Every handler of the engine follows the order of [SessionLife], function by
    function: revisions, winddown, events, opens, sweeps and recovery. *)
From S2P Require Import Prelude.
From S2P Require Import GoBytes.
From S2P Require Import Bolt.
From S2P Require Import Actions.
From S2P Require Import Spendauth.
From S2P Require Import WorkLedger.
From S2P Require Import WorkClient.
From S2P Require Import SessionStore.
From S2P Require Import EngineTypes.
From S2P Require Import SessionSettlement.
From S2P Require Import SessionRevisions.
From S2P Require Import SessionEngine.
From S2P Require Import SessionOpen.
From S2P Require Import SessionSweep.
From S2P Require Import EngineLogic.
From S2P Require Import SessionLife.

Open Scope record_scope.

(** ** Revisions *)

Ltac later_open_tac := apply later_open; cbn; try done; try lia.

(** What a revision may do to a record. *)
Record revision_edit (r r' : SessionRecord) : Prop := {
  ed_later : later r r';
  ed_payment : se_PaymentClosed r' = se_PaymentClosed r;
  ed_runner : se_RunnerTerminated r' = se_RunnerTerminated r;
  ed_state : Closing r = true -> se_State r' = se_State r /\ se_CloseReason r' = se_CloseReason r;
}.
Definition revision_stable (G : SessionRecord -> Prop) : Prop := forall r r', G r -> revision_edit r r' -> G r'.

Lemma edit_refl r : revision_edit r r.
Proof. split; try done; apply later_refl. Qed.
Lemma edit_trans r1 r2 r3 : revision_edit r1 r2 -> revision_edit r2 r3 -> revision_edit r1 r3.
Proof.
  intros [L1 P1 N1 S1] [L2 P2 N2 S2]. split; [by eapply later_trans|congruence|congruence|].
  intros Hc. destruct (S1 Hc) as [E1 E1']. destruct S2 as [E2 E2']; [by apply L1|]. split; congruence.
Qed.
(** Only the intent, the last decision and the reservation. *)
Lemma edit_notes r i d :
  Terminal r = false -> revision_edit r (r <| se_RevisionIntent := i |> <| se_LastRevision := d |>).
Proof. intros Ht. split; try done; later_open_tac. Qed.
Lemma good_notes id r i d : good id r -> Terminal r = false -> good id (r <| se_RevisionIntent := i |> <| se_LastRevision := d |>).
Proof. intros Hg Ht. by eapply good_frame. Qed.
Lemma edit_intent r i : Terminal r = false -> revision_edit r (r <| se_RevisionIntent := i |>).
Proof. intros Ht. split; try done; later_open_tac. Qed.
Lemma good_intent id r i : good id r -> Terminal r = false -> good id (r <| se_RevisionIntent := i |>).
Proof. intros Hg Ht. by eapply good_frame. Qed.
Lemma edit_updated r now : revision_edit r (r <| se_UpdatedAt := now |>).
Proof. split; try done; apply later_updated, later_refl. Qed.
Lemma good_has_intent id r i : good id r -> se_RevisionIntent r = Some i -> Terminal r = false.
Proof. intros Hg Hi. destruct (Terminal r) eqn:Ht; [|done]. destruct (gd_over _ _ Hg Ht) as [Hn _]. by rewrite Hn in Hi. Qed.
Lemma reconcile_edit r u r' : Terminal r = false -> reconcileReceiverUsage r u = Ok r' -> revision_edit r r' /\ Terminal r' = false.
Proof.
  intros Ht Hr. destruct (reconcile_later _ _ _ Ht Hr) as [Hl Ht'].
  destruct (reconcile_units _ _ _ Hr) as (v & _ & _ & _ & _ & Hs & Hc & Hp & Hn & _).
  split; [|done]. by split.
Qed.
Lemma stable_trivial : revision_stable (fun _ => True).
Proof. done. Qed.

Section revisions.
Context `{Bolt M} `{AuthWire} `{RevisionWire} `{Outside R}.
Context (db0 : SessionDB M) (id : string) (G : SessionRecord -> Prop) (HG : revision_stable G).
Implicit Types (db : SessionDB M).

Abbreviation I := (on_store (R := R) (known db0 id G)).

Lemma known_edit db r r' :
  known db0 id G db -> sd_sessions db !! id = Some r -> revision_edit r r' -> good id r' -> known db0 id G (with_session id r' db).
Proof.
  intros [Hs Ha] Hr He Hg. split; [by eapply since_with_session, Hg; [|done|apply He]|].
  apply at_with_session. by eapply HG; [apply Ha|].
Qed.
Lemma known_good db r : known db0 id G db -> sd_sessions db !! id = Some r -> good id r.
Proof. intros [[_ [Hw _]] _]. apply Hw. Qed.

(** A read-modify-write by an edit. *)
Lemma modify_edit now fn :
  (forall r r', good id r -> fn r = Ok r' -> revision_edit r r' /\ good id r') ->
  pres I (modify now id fn) (fun _ => True).
Proof.
  intros Hf. apply pres_modify. intros db r r' Hk Hr Hfn. destruct (Hf r r' (known_good _ _ Hk Hr) Hfn) as [He Hg].
  eapply known_edit; [done|done| |by apply good_updated]. eapply edit_trans; [exact He|apply edit_updated].
Qed.
Lemma on_intent_edit fn r r' :
  good id r -> on_intent fn r = Ok r' -> (forall i, exists i' d, fn i r = r <| se_RevisionIntent := i' |> <| se_LastRevision := d |>) ->
  revision_edit r r' /\ good id r'.
Proof.
  intros Hg. unfold on_intent. destruct (se_RevisionIntent r) as [i|] eqn:Hi; [|done]. intros [= <-] Hf.
  destruct (Hf i) as (i' & d & ->). pose proof (good_has_intent _ _ _ Hg Hi). split; [by apply edit_notes|by apply good_notes].
Qed.

Lemma saveRevisionDecision_forward now rec intent d cancel :
  se_SessionID rec = id -> pres I (saveRevisionDecision now rec intent d cancel) (fun _ => True).
Proof.
  intros Hid. unfold saveRevisionDecision. apply pres_seq; [|intros _; by apply pres_ret]. rewrite Hid. apply modify_edit.
  intros r r' Hg Hf. eapply on_intent_edit; [done|exact Hf|]. intros i. by eexists _, _.
Qed.
Lemma prepareRevisionEvidence_forward now rec intent admitted basis :
  se_SessionID rec = id -> pres I (prepareRevisionEvidence now rec intent admitted basis) (fun _ => True).
Proof.
  intros Hid. unfold prepareRevisionEvidence. destruct (sa_Payload <$> _) as [[p|]|]; [|apply pres_fail..].
  apply pres_seq; [eapply pres_true, pres_require|intros _]. destruct (marshal_revision _); [|apply pres_fail].
  apply pres_seq; [|intros _; by apply pres_ret]. rewrite Hid. apply modify_edit.
  intros r r' Hg. unfold on_intent. destruct (se_RevisionIntent r) as [i|] eqn:Hi; [|done]. intros [= <-].
  pose proof (good_has_intent _ _ _ Hg Hi). split; [by apply edit_intent|by apply good_intent].
Qed.
Lemma hold_revision_forward now e : pres I (modify now id (hold_revision now e)) (fun _ => True).
Proof.
  apply modify_edit. intros r r' Hg. unfold hold_revision. destruct (se_RevisionIntent r) as [i|] eqn:Hi.
  - destruct (match e with revisionFailure _ _ _ => _ | _ => _ end) as [[reason stage] code]. intros [= <-].
    pose proof (good_has_intent _ _ _ Hg Hi). split; [by apply edit_notes|by apply good_notes].
  - intros [= <-]. split; [apply edit_refl|done].
Qed.

(** The successor's terms, on a session that is not over. *)
Lemma revised_edit p intent u credited r r' :
  good id r -> Terminal r = false -> revised p intent u credited r = Ok r' -> revision_edit r r' /\ good id r' /\ Terminal r' = false.
Proof.
  intros Hg Ht. unfold revised. set (r1 := r <| se_AccountAuthorizationID := _ |> <| se_WorkID := _ |> <| se_AuthorizationMaxUnits := _ |>
    <| se_AuthorizationMaxDebitWei := _ |>).
  destruct (reconcileReceiverUsage r1 (Some u)) as [r2|] eqn:Hr; [|done]. intros [= <-].
  assert (Ht1 : Terminal r1 = false) by done. destruct (reconcile_edit _ _ _ Ht1 Hr) as [He Ht2].
  destruct (reconcile_units _ _ _ Hr) as (v & _ & Hd & Hc & Hm & Hs & _ & Hpc & _ & _ & _ & Hid & Hq).
  assert (He1 : revision_edit r r1) by (split; try done; later_open_tac).
  set (r3 := r2 <| se_LeaseExpiresAt := _ |> <| se_FundedWei := _ |>).
  assert (He3 : revision_edit r2 r3) by (split; try done; later_open_tac).
  assert (He13 : revision_edit r r3) by (eapply edit_trans; [exact He1|]; by eapply edit_trans).
  assert (Hg3 : good id r3).
  { split; [cbn in *; rewrite Hid; apply Hg|cbn in *; destruct Hg; lia|done| |intros Ht3; change (Terminal r2 = true) in Ht3; congruence].
    change (se_PaymentClosed r2 = true -> Closing r2 = true /\ se_PendingDebitSeq r2 = 0). rewrite Hpc. intros Hp.
    destruct (gd_paid _ _ Hg Hp) as [Hcl _]. split; [|done]. unfold Closing, Terminal in *. by rewrite Hs. }
  destruct ((as_State u =? SETTLED) && negb (Closing r3)) eqn:Hw; [|by split].
  to_prop. assert (Hcl : Closing r = false).
  { destruct (Closing r) eqn:Hcl; [|done]. destruct (ed_state _ _ He13 Hcl) as [Hst _].
    unfold Closing, Terminal in *. rewrite Hst in *. congruence. }
  split; [|split; [|done]].
  - eapply edit_trans; [exact He13|]. split; try done; [|intros Hc3; congruence]. apply later_open; try done; try (cbn; lia). congruence.
  - by eapply good_frame.
Qed.

Lemma commitRevision_known now req fp lease balance code detail mutate db :
  (forall r r', good id r -> Terminal r = false -> mutate r = Ok r' -> revision_edit r r' /\ good id r' /\ Terminal r' = false) ->
  known db0 id G db -> known db0 id G (commitRevision now id req fp lease balance code detail mutate db).2.
Proof.
  intros Hm Hk. unfold commitRevision, Update. destruct (sd_sessions db !! id) as [r|] eqn:Hr; [|done].
  destruct (se_RevisionIntent r) as [i|] eqn:Hi; [|done]. destruct (_ || _); [done|].
  pose proof (known_good _ _ Hk Hr) as Hg. pose proof (good_has_intent _ _ _ Hg Hi) as Ht.
  destruct (mutate r) as [r'|] eqn:Hf; [|done]. destruct (Hm r r' Hg Ht Hf) as (He & Hg' & Ht').
  destruct (se_RevisionIntent r') as [i'|]; [|done]. destruct (has _ _); [done|]. cbn [snd].
  set (r3 := r' <| se_LastRevision := _ |> <| se_RevisionIntent := _ |> <| se_UpdatedAt := _ |>).
  assert (He3 : revision_edit r r3) by (eapply edit_trans; [exact He|]; split; try done; later_open_tac).
  assert (Hg3 : good id r3) by (by eapply good_frame).
  exact (known_edit db r r3 Hk Hr He3 Hg3).
Qed.

Lemma commitRevisionLocked_forward now rec intent p usage account credited :
  se_SessionID rec = id -> pres I (commitRevisionLocked now rec intent p usage account credited) (fun _ => True).
Proof.
  intros Hid. unfold commitRevisionLocked. destruct account as [a|]; [|apply pres_fail]. destruct usage as [u|]; [|apply pres_fail].
  apply pres_seq; [eapply pres_true, pres_require|intros _]. apply pres_seq; [by apply prepareRevisionEvidence_forward|intros i].
  apply pres_seq; [|intros _; by apply pres_ret]. rewrite Hid. apply pres_save. intros db Hk.
  apply commitRevision_known; [|done]. intros r r' Hg Ht Hf. by eapply revised_edit.
Qed.
Lemma cancelRevisionLocked_forward now rec intent p :
  se_SessionID rec = id -> pres I (cancelRevisionLocked now rec intent p) (fun _ => True).
Proof.
  intros Hid. unfold cancelRevisionLocked. apply pres_seq; [apply pres_ask|intros [[c|]|]]; [|apply pres_fail..].
  cbv zeta. destruct (_ || _); [|by apply commitRevisionLocked_forward].
  apply pres_seq; [by apply prepareRevisionEvidence_forward|intros i]. apply pres_seq; [|intros _; apply pres_fail].
  rewrite Hid. apply pres_save. intros db Hk. apply commitRevision_known; [|done].
  intros r r' Hg Ht [= <-]. split; [apply edit_refl|done].
Qed.
Lemma requestRevisionCancellation_forward now rec intent p reason stage code :
  se_SessionID rec = id -> pres I (requestRevisionCancellation now rec intent p reason stage code) (fun _ => True).
Proof.
  intros Hid. apply pres_seq; [by apply saveRevisionDecision_forward|intros i; by apply cancelRevisionLocked_forward].
Qed.
Lemma admit_revision_forward now rec intent p reservation :
  se_SessionID rec = id -> pres I (admit_revision now rec intent p reservation) (fun _ => True).
Proof.
  intros Hid. apply pres_seq; [apply pres_ask|intros [[[state [a|] credited]|]|e]]; try apply pres_fail.
  - apply pres_seq; [eapply pres_true, pres_require|intros _]. apply pres_seq; [apply pres_ask|intros [u|]; [|apply pres_fail]].
    by apply commitRevisionLocked_forward.
  - destruct (AdmissionRefused e); [by apply requestRevisionCancellation_forward|apply pres_fail].
Qed.
Lemma with_predecessor_forward now rec intent p reservation u :
  se_SessionID rec = id -> pres I (with_predecessor now rec intent p reservation u) (fun _ => True).
Proof.
  intros Hid. unfold with_predecessor. destruct (reconcileReceiverUsage rec (Some u)) as [rec'|] eqn:Hr; [|apply pres_fail].
  assert (Hid' : se_SessionID rec' = id).
  { destruct (reconcile_units _ _ _ Hr) as (_ & _ & _ & _ & _ & _ & _ & _ & _ & _ & _ & -> & _). done. }
  cbv zeta. destruct (remainingRevisionReservation _ _ _); [|by apply requestRevisionCancellation_forward].
  apply pres_seq; [|intros _; by apply admit_revision_forward]. rewrite Hid'. apply modify_edit. intros r r' Hg. unfold note_reservation.
  destruct (reconcileReceiverUsage r (Some u)) as [r1|] eqn:Hr1; [|done]. intros Ho.
  destruct (reconcile_units _ _ _ Hr1) as (_ & _ & _ & _ & _ & _ & _ & _ & _ & Hi1 & _).
  assert (Ht : Terminal r = false).
  { unfold on_intent in Ho. destruct (se_RevisionIntent r1) eqn:Hi; [|done]. eapply good_has_intent; [done|]. by rewrite <- Hi1. }
  destruct (reconcile_edit _ _ _ Ht Hr1) as [He1 _]. pose proof (reconcile_good _ _ _ _ Hg Ht Hr1) as Hg1.
  destruct (on_intent_edit _ _ _ Hg1 Ho) as [He Hg']; [intros i; by eexists _, _|]. split; [by eapply edit_trans|done].
Qed.
Lemma resolveRevisionLocked_forward now rec intent :
  se_SessionID rec = id -> pres I (resolveRevisionLocked now rec intent) (fun _ => True).
Proof.
  intros Hid. unfold resolveRevisionLocked. destruct (unmarshal_auth _) as [[[p|] sig]|]; [|apply pres_fail..].
  apply pres_seq; [eapply pres_true, pres_require|intros _]. destruct (SetString10 _) as [reservation|]; [|apply pres_fail].
  apply pres_seq; [eapply pres_true, pres_require|intros _]. destruct (ri_CancelRequested intent); [by apply cancelRevisionLocked_forward|].
  destruct (Closing rec); [by apply requestRevisionCancellation_forward|].
  apply pres_seq; [apply pres_ask|intros [[u|]|e]]; [|apply pres_fail..].
  destruct (as_State u =? ADMITTED); [by apply with_predecessor_forward|].
  destruct (as_State u =? SUPERSEDED); [by apply admit_revision_forward|by apply requestRevisionCancellation_forward].
Qed.
Lemma pendingRevisionError_forward {A} : pres I (pendingRevisionError (A := A) id) (fun _ => True).
Proof. apply pres_seq; [eapply pres_true, pres_observe, pres_session|intros [r|]; apply pres_fail]. Qed.

Lemma resumeRevisionLocked_forward now force : pres I (resumeRevisionLocked now id force) (fun _ => True).
Proof.
  unfold resumeRevisionLocked. apply (pres_bind _ _ _ (fun rec => se_SessionID rec = id)).
  - intros s Hs. split; [by apply (pres_session id (known db0 id G) s Hs)|]. intros rec Hrec. unfold session, load in Hrec. cbn in Hrec. unfold Get in Hrec.
    destruct (sd_sessions (en_Store s) !! id) eqn:Hr; [|done]. cbn in Hrec. injection Hrec as <-. by eapply gd_id, known_good.
  - intros rec Hid. destruct (se_RevisionIntent rec) as [intent|]; [|apply pres_fail].
    destruct (negb force && _); [apply pendingRevisionError_forward|].
    apply pres_seq; [by eapply pres_true, pres_observe, resolveRevisionLocked_forward|intros [result|e]; [by apply pres_ret|]].
    assert (Hh : pres I (bind (observe (modify now id (hold_revision now e)))
      (fun held => match held with Ok _ => pendingRevisionError id | Err _ => fail retryable end)) (fun _ : TopUpResult => True)).
    { apply pres_seq; [eapply pres_true, pres_observe, hold_revision_forward|intros [|]; [apply pendingRevisionError_forward|apply pres_fail]]. }
    destruct e; try exact Hh. apply pres_fail.
Qed.
End revisions.

(** ** Settlement and winddown *)
Definition reconcile_stable (G : SessionRecord -> Prop) : Prop :=
  forall r u r', G r -> reconcileReceiverUsage r u = Ok r' -> G (r' <| se_UpdatedAt := 0 |>).
(** Assertions that do not look at the time of the last write. *)
Definition timeless (G : SessionRecord -> Prop) : Prop := forall r now, G r -> G (r <| se_UpdatedAt := now |>).

Section winddown.
Context `{Bolt M} `{AuthWire} `{SettlementWire} `{RevisionWire} `{Outside R}.
Context (db0 : SessionDB M).
Implicit Types (db : SessionDB M) (G : SessionRecord -> Prop).

Abbreviation K := (on_store (R := R) (since db0)).

Lemma known_since id G db : known db0 id G db -> since db0 db.
Proof. by intros [? _]. Qed.
Lemma since_good id db r : since db0 db -> sd_sessions db !! id = Some r -> good id r.
Proof. intros [_ [Hw _]]. apply Hw. Qed.
Lemma since_known id db : since db0 db <-> known db0 id (fun _ => True) db.
Proof. split; [by intros Hs|by intros [? _]]. Qed.

(** A read-modify-write of a session of which something is known. *)
Lemma hoare_modify_known now id fn G (G' : SessionRecord -> Prop) :
  (forall r r', good id r -> G r -> fn r = Ok r' -> later r r' /\ good id r' /\ G' (r' <| se_UpdatedAt := now |>)) ->
  hoare (on_store (R := R) (known db0 id G)) (modify now id fn) (fun _ => on_store (known db0 id G')) (on_store (known db0 id G)).
Proof.
  intros Hf. apply hoare_modify; [done|]. intros db r r' [Hs Ha] Hr Hfn.
  destruct (Hf r r' (since_good _ _ _ Hs Hr) (Ha _ Hr) Hfn) as (Hl & Hg & HG').
  split; [|by apply at_with_session]. eapply since_with_session; [done|done| |by apply good_updated]. by apply later_updated.
Qed.

Lemma settle_forward cfg id rec G :
  se_SessionID rec = id -> timeless G -> (forall r u r', G r -> reconcileReceiverUsage r u = Ok r' -> G r') ->
  (forall r, G r -> Terminal r = false) ->
  hoare (on_store (R := R) (known db0 id G)) (settleSessionAuthorizationLocked cfg rec)
    (fun _ => on_store (known db0 id (fun r => G r /\ se_PendingDebitSeq r = 0))) (on_store (known db0 id G)).
Proof.
  intros Hid Ht Hstable Hopen. unfold settleSessionAuthorizationLocked.
  set (G' := fun r => G r /\ se_PendingDebitSeq r = 0).
  assert (Hweak : forall s : EngineState M R, on_store (known db0 id G') s -> on_store (known db0 id G) s).
  { intros s [Hs Ha]. split; [done|]. intros r Hr. by apply Ha. }
  eapply hoare_bind; [apply hoare_ask|]. intros [[u|]|]; try by apply hoare_fail.
  eapply hoare_bind; [by apply hoare_require|]. intros []. apply hoare_pure. intros _.
  eapply hoare_bind; [by apply hoare_require|]. intros []. apply hoare_pure. intros _.
  apply (hoare_bind _ _ _ (fun _ => on_store (known db0 id G'))).
  - rewrite Hid. apply hoare_modify_known. intros r r' Hg HG Hr. specialize (Hopen r HG).
    split; [by apply (reconcile_later _ _ _ Hopen Hr)|]. split; [by eapply reconcile_good|].
    destruct (reconcile_units _ _ _ Hr) as (_ & _ & _ & _ & _ & _ & _ & _ & _ & _ & _ & _ & Hq). split; [by eapply Ht, Hstable|done].
  - intros _. eapply hoare_bind; [by apply hoare_require|]. intros []. apply hoare_pure. intros _.
    eapply hoare_bind; [apply hoare_ask|]. intros [[a|]|]; try by apply hoare_fail.
    eapply hoare_bind; [by apply hoare_require|]. intros []. apply hoare_pure. intros _. by apply hoare_ret.
Qed.

(** What is known of a session while it is wound down: [rec] was read. *)
Definition winding (reason : string) (rd : bool) (rec r : SessionRecord) : Prop :=
  Terminal r = false /\ (Closing r = true -> se_CloseReason r <> "" -> se_CloseReason r = reason) /\
  se_PaymentClosed r = se_PaymentClosed rec /\ (se_RunnerTerminated r = true -> rd = true) /\
  se_RevisionIntent r = se_RevisionIntent rec.

Lemma releaseStoppedCapacity_forward now id rec reason :
  se_SessionID rec = id ->
  hoare (on_store (R := R) (known db0 id (winding reason true rec))) (releaseStoppedCapacity now rec reason)
    (fun rec' s => on_store (known db0 id (winding reason true rec')) s /\ se_SessionID rec' = id /\ se_RevisionIntent rec' = se_RevisionIntent rec) K.
Proof.
  intros Hid. unfold releaseStoppedCapacity. destruct (_ && _); [by apply hoare_ret|].
  apply (hoare_bind _ _ _ (fun _ => on_store (known db0 id (winding reason true (stopped reason rec))))).
  - rewrite Hid. eapply hoare_weaken; [apply (hoare_modify_known _ _ _ (winding reason true rec) (winding reason true (stopped reason rec)))
    |done|done|by intros s [? _]]. intros r r' Hg (Ht & Hr & Hp & Hn & Hi) [= <-]. split; [|split].
    + apply later_open; cbn; try done; try lia. intros Hc. split; [done|]. intros Hne. symmetry. by apply Hr.
    + by eapply good_frame.
    + split; [done|]. split; [done|]. done.
  - intros []. eapply hoare_bind; [apply hoare_release|intros []]. by apply hoare_ret.
Qed.

Lemma close_revision_forward now id rec reason rd :
  hoare (on_store (R := R) (known db0 id (winding reason rd rec))) (close_revision now id rec reason rd)
    (fun rec' s => on_store (known db0 id (winding reason rd rec')) s /\ (se_SessionID rec' = id \/ rec' = rec) /\ se_RevisionIntent rec' = None) K.
Proof.
  unfold close_revision. destruct (se_RevisionIntent rec) as [i|] eqn:Hi.
  2:{ apply hoare_ret. intros s Hs. split; [done|]. split; [by right|done]. }
  set (wound := fun r => Terminal r = false /\ Closing r = true /\ se_CloseReason r = reason /\ (se_RunnerTerminated r = true -> rd = true)).
  assert (Hst : revision_stable wound).
  { intros r r' (Ht & Hc & Hr & Hn) [Hl Hp Hrn Hs]. destruct (Hs Hc) as [Hs1 Hs2]. unfold wound, Closing, Terminal in *. rewrite Hs1, Hs2, Hrn. done. }
  apply (hoare_bind _ _ _ (fun _ => on_store (known db0 id wound))); [|intros _; apply (hoare_bind _ _ _ (fun _ => on_store (known db0 id wound)))].
  - eapply hoare_weaken; [apply (hoare_modify_known _ _ _ (winding reason rd rec) wound)|done|done|by intros s [? _]].
    intros r r' Hg (Ht & Hr & Hp & Hn & Hi') [= <-]. split; [|split].
    + apply later_open; cbn; try done; try lia. intros Hc. split; [done|]. intros Hne. symmetry. by apply Hr.
    + by eapply good_frame.
    + split; [done|]. split; [done|]. done.
  - eapply hoare_weaken; [apply pres_hoare; eapply pres_true, pres_observe, (resumeRevisionLocked_forward db0 id wound Hst)|done|done|by intros s [? _]].
  - intros _. eapply hoare_bind; [apply (hoare_session id (known db0 id wound)); by intros db [? _]|]. intros current.
    eapply hoare_bind; [apply hoare_require; by intros s [[? _] _]|]. intros []. apply hoare_ret. intros s [[[Hs Ha] Hr] Hn]. to_prop.
    split; [|split; [left; by eapply gd_id, since_good|done]]. split; [done|]. intros r' Hr'. cbn in Hr. rewrite Hr in Hr'. injection Hr' as <-.
    destruct (Ha _ Hr) as (Ht & Hc & Hreason & Hrd). split; [done|]. by split.
Qed.

(** Once payment is closed no debit is without an answer. *)
Definition paid_up (closed : bool) (r : SessionRecord) : Prop := closed = true -> se_PendingDebitSeq r = 0.
Lemma close_payment_forward cfg id rec reason rd :
  (se_SessionID rec = id) -> se_RevisionIntent rec = None ->
  hoare (on_store (R := R) (known db0 id (winding reason rd rec))) (close_payment cfg rec)
    (fun payment s => on_store (known db0 id (fun r => winding reason rd rec r /\ paid_up payment.1 r)) s /\
                      (se_PaymentClosed rec = true -> payment.1 = true)) K.
Proof.
  intros Hid Hi. unfold close_payment. destruct (se_PaymentClosed rec) eqn:Hp.
  { apply hoare_ret. intros s [Hs Ha]. split; [|done]. split; [done|]. intros r Hr. split; [by apply Ha|]. intros _.
    eapply (gd_paid id); [by eapply since_good|]. destruct (Ha r Hr) as (_ & _ & Hpr & _). by rewrite Hpr. }
  eapply hoare_bind; [eapply hoare_observe, (settle_forward cfg id rec (winding reason rd rec))|].
  - done.
  - by intros r now.
  - intros r u r' (Ht & Hr & Hpc & Hn & Hri) Hf. destruct (reconcile_units _ _ _ Hf) as (v & _ & _ & _ & _ & Hs & Hc & Hp' & Hn' & Hi' & _).
    unfold winding, Closing, Terminal in *. by rewrite Hs, Hc, Hp', Hn', Hi'.
  - by intros r [Ht _].
  - intros [settled|e]; apply hoare_ret; intros s [Hs Ha]; (split; [|done]); (split; [done|]); intros r Hr; specialize (Ha r Hr).
    + destruct Ha as [Hw Hq]. split; [done|by intros _].
    + split; [done|]. by intros [=].
Qed.

(** What goodness is about. *)
Definition core (r : SessionRecord) :=
  (se_SessionID r, se_ClaimedTotal r, se_DebitedTotal r, se_AuthorizationMaxUnits r, se_PaymentClosed r, se_PendingDebitSeq r,
   se_State r, se_RevisionIntent r, se_RunnerTerminated r).
Lemma good_core id r r' : core r' = core r -> good id r -> good id r'.
Proof.
  intros [= E1 E2 E3 E4 E5 E6 E7 E8 E9] [G1 G2 G3 G4 G5].
  split; unfold Closing, Terminal in *; rewrite ?E1, ?E2, ?E3, ?E4, ?E5, ?E6, ?E7, ?E8, ?E9; done.
Qed.
Lemma freeze_later now spec r r' : freezeTerminalSettlement now spec r = Ok r' -> later r r' /\ core r' = core r.
Proof.
  unfold freezeTerminalSettlement. destruct (negb _) eqn:He; [intros [= <-]; split; [apply later_refl|done]|].
  destruct (acceptedSettlementSpec _ _) as [spec'|]; [|done]. unfold next_settlement. destruct (_ =? two64 - 1); [done|].
  destruct (SettlementFor _ _ _); [|done]. destruct (marshal_settlement _); [|done]. intros [= <-]. to_prop.
  split; [|done]. split; cbn; try done; lia.
Qed.
Lemma terminal_state_over reason :
  bool_decide (terminal_state reason = StateEnded) || bool_decide (terminal_state reason = StateFailed) = true.
Proof. unfold terminal_state. by destruct (bool_decide (reason ∈ _)). Qed.
Lemma end_session_forward cfg id reason released rec r r' :
  good id r -> winding reason true rec r -> paid_up true r -> se_RevisionIntent rec = None -> end_session cfg id reason released r = Ok r' ->
  later r r' /\ good id r'.
Proof.
  intros Hg (Ht & Hr & Hp & Hn & Hri) Hq Hi. unfold end_session, closed_record. set (r1 := _ <| se_CapacityRef := _ |>).
  assert (Hl1 : later r r1).
  { apply later_open; cbn; try done; try lia. intros Hc. split; [|intros Hne; symmetry; by apply Hr].
    pose proof (terminal_state_over reason) as Ho. unfold Closing, Terminal, r1. cbn. by rewrite Ho. }
  assert (Hg1 : good id r1).
  { destruct Hg. split; try done.
    - intros _. split; [|by apply Hq]. pose proof (terminal_state_over reason) as Ho. unfold Closing, Terminal, r1. cbn. by rewrite Ho.
    - intros _. by rewrite <- Hi, <- Hri. }
  clearbody r1. intros Hf. destruct (freeze_later _ _ _ _ Hf) as [Hl2 Hc2].
  split; [by eapply later_trans|by eapply good_core].
Qed.

Lemma finish_winddown_forward cfg id reason released rec :
  se_RevisionIntent rec = None ->
  hoare (on_store (R := R) (known db0 id (fun r => winding reason true rec r /\ paid_up true r))) (finish_winddown cfg id reason released)
    (fun _ => K) K.
Proof.
  intros Hi. unfold finish_winddown. set (G := fun r => winding reason true rec r /\ paid_up true r).
  eapply hoare_bind; [eapply hoare_observe, (hoare_modify_known _ _ _ G (fun _ => True))|].
  - intros r r' Hg [Hw Hq] Hf. destruct (end_session_forward _ _ _ _ _ _ _ Hg Hw Hq Hi Hf) as [Hl Hg']. done.
  - intros [[]|e]; [apply hoare_ret; by intros s [? _]|].
    eapply hoare_weaken; [apply (hoare_modify_known _ _ _ G (fun _ => True))|done|by intros _ s [? _]|by intros s [? _]].
    intros r r' Hg ((Ht & Hr & Hp & Hn & Hri) & Hq) [= <-]. split; [|split; [|done]].
    + apply later_open; cbn; try done; try lia. intros Hc. split; [done|]. intros Hne. symmetry. by apply Hr.
    + destruct Hg. split; try done. intros _. split; [done|by apply Hq].
Qed.

Lemma winddown_forward cfg id reason : pres K (winddown cfg id reason) (fun _ => True).
Proof.
  apply pres_hoare. unfold winddown. eapply hoare_bind; [by apply (hoare_session id (since db0))|]. intros rec.
  destruct (Terminal rec) eqn:Ht; [apply hoare_ret; by intros s [? _]|].
  cbv zeta. set (why := if bool_decide (se_State rec = StateWindingDown) && negb (bool_decide (se_CloseReason rec = "")) then se_CloseReason rec else reason).
  assert (Hwhy : Closing rec = true -> se_CloseReason rec <> "" -> se_CloseReason rec = why).
  { intros Hc Hne. unfold why, Closing in *. rewrite Ht in Hc. cbn in Hc. rewrite Hc. by rewrite bool_decide_eq_false_2. }
  eapply (hoare_bind _ _ _ (fun rd (s : EngineState M R) => on_store (known db0 id (winding why rd rec)) s /\ se_SessionID rec = id)).
  { intros s [Hs Hr]. cbn in Hs, Hr. assert (Hid : se_SessionID rec = id) by (by eapply gd_id, since_good).
    assert (Hk : forall rd, (se_RunnerTerminated rec = true -> rd = true) -> at_id id (winding why rd rec) (en_Store s)).
    { intros rd Hrd r' Hr'. rewrite Hr in Hr'. injection Hr' as <-. by split. }
    unfold stop_runner. destruct (se_RunnerTerminated rec) eqn:Hn; [cbn; split; [split; [done|by apply Hk]|done]|].
    unfold terminate, bind. destruct (out_TerminateSession _ _ _ (en_Outside s)) as [r out]. cbn. split; [split; [done|by apply Hk]|done]. }
  intros rd. apply hoare_pure. intros Hid.
  eapply (hoare_bind _ _ _ (fun rec' (s : EngineState M R) => on_store (known db0 id (winding why rd rec')) s /\ se_SessionID rec' = id)).
  { destruct rd; [|by apply hoare_ret]. eapply hoare_weaken; [by apply releaseStoppedCapacity_forward|done| |done]. by intros a s (? & ? & _). }
  intros rec1. apply hoare_pure. intros Hid1.
  eapply (hoare_bind _ _ _ (fun rec' (s : EngineState M R) => on_store (known db0 id (winding why rd rec')) s /\ (se_SessionID rec' = id /\ se_RevisionIntent rec' = None))).
  { eapply hoare_weaken; [apply close_revision_forward|done| |done]. intros a s (? & [Ha| ->] & ?); done. }
  intros rec2. apply hoare_pure. intros [Hid2 Hi2].
  eapply hoare_bind; [by apply close_payment_forward|]. intros [closed released]. apply hoare_pure. cbn [fst]. intros Hpc.
  destruct (negb (rd && closed)) eqn:Hb.
  - eapply hoare_weaken; [apply (hoare_modify_known _ _ _ (fun r => winding why rd rec2 r /\ paid_up closed r) (fun _ => True))
      |done|by intros _ s [? _]|by intros s [? _]].
    intros r r' Hg ((Htr & Hr & Hp & Hn & Hri) & Hq) [= <-]. split; [|split; [|done]].
    + unfold hold_winddown. destruct closed; apply later_open; cbn; try done; try lia;
        (try by intros Hc; rewrite Hp in Hc; specialize (Hpc Hc));
        intros Hc; (split; [done|]); intros Hne; symmetry; by apply Hr.
    + destruct Hg. unfold hold_winddown. destruct closed; split; try done; intros _; (split; [done|by apply Hq]).
  - to_prop. subst rd closed. by apply (finish_winddown_forward _ _ _ _ rec2).
Qed.
Lemma winddownLocked_forward cfg id reason : pres K (winddownLocked cfg id reason) (fun _ => True).
Proof. apply pres_seq; [eapply pres_true, pres_observe, winddown_forward|intros _; by apply pres_ret]. Qed.

Lemma resume_forward now id force : pres K (resumeRevisionLocked now id force) (fun _ => True).
Proof.
  apply pres_hoare. eapply hoare_weaken; [apply pres_hoare, (resumeRevisionLocked_forward db0 id _ stable_trivial)|..];
    intros; by apply (since_known id).
Qed.
End winddown.

(** ** Events, the end, statements, requests for a revision *)
Definition event_ok (ev : Event) : Prop := match ev_UsageTot ev with Some total => 0 <= total < two64 | None => True end.

(** A claim never takes the debited units past the claimed ones or the cap. *)
Lemma usage_claim_bounds rec ev claimed id :
  good id rec -> event_ok ev -> usage_claim rec ev = Ok claimed ->
  0 <= cm_delta claimed /\ se_DebitedTotal rec + cm_delta claimed <= se_AuthorizationMaxUnits rec /\
  match ev_UsageTot ev with
  | None => cm_delta claimed = 0
  | Some total => se_ClaimedTotal rec <= total /\ se_DebitedTotal rec + cm_delta claimed <= total
  end.
Proof.
  intros [_ [Hd Hc] Hm _] Hev. unfold usage_claim, event_ok in *. destruct (ev_UsageTot ev) as [total|]; [|intros [= <-]; cbn; lia].
  destruct (negb _); [done|]. destruct (total <? _) eqn:Hr; [done|].
  destruct (_ <=? total) eqn:Hx; intros [= <-]; cbn [cm_delta]; to_prop; [|lia].
  destruct (_ <? total) eqn:Hy; destruct (se_DebitedTotal rec <? _) eqn:Hz; to_prop; lia.
Qed.
(** Health only touches its own fields. *)
Lemma note_health_frame now health r : exists state since stalled output code, note_health now health r =
  r <| se_OutputState := state |> <| se_OutputStateSince := since |> <| se_OutputStalledAt := stalled |> <| se_LastOutputAt := output |>
    <| se_LastFailureCode := code |>.
Proof.
  unfold note_health. destruct health as [h|]; [|by exists (se_OutputState r), (se_OutputStateSince r), (se_OutputStalledAt r), (se_LastOutputAt r), (se_LastFailureCode r); destruct r].
  cbv zeta. set (since := if negb _ || _ then _ else _).
  destruct (bool_decide (oh_State h = "producing")); [by exists (oh_State h), since, None, (Some now), (oh_FailureCode h)|].
  destruct (bool_decide (oh_State h = "stalled")); [by exists (oh_State h), since, (Some (default now (se_OutputStalledAt r))), (se_LastOutputAt r), (oh_FailureCode h)|].
  by exists (oh_State h), since, None, (se_LastOutputAt r), (oh_FailureCode h).
Qed.
Lemma commit_event_forward now spec ev health claimed debit id rec r :
  good id rec -> event_ok ev -> usage_claim rec ev = Ok claimed -> se_LastSequence rec < ev_Sequence ev ->
  (if 0 <? cm_delta claimed then is_Some debit else debit = None) -> good id r -> Terminal r = false ->
  se_LastSequence r = se_LastSequence rec -> se_ClaimedTotal r = se_ClaimedTotal rec -> se_DebitedTotal r = se_DebitedTotal rec ->
  se_AuthorizationMaxUnits r = se_AuthorizationMaxUnits rec ->
  later r (commit_event now spec ev health (cm_delta claimed) debit r) /\ good id (commit_event now spec ev health (cm_delta claimed) debit r).
Proof.
  intros Hgr Hev Hcl Hseq Hdeb Hg Ht Hs Hc Hd Hm. destruct (usage_claim_bounds _ _ _ _ Hgr Hev Hcl) as (H0 & Hmax & Htot).
  destruct Hgr as [_ Hu Hcap _].
  set (d := cm_delta claimed) in *. set (total := default (se_ClaimedTotal rec) (ev_UsageTot ev)).
  assert (Hfields : exists r', commit_event now spec ev health d debit r = r' /\ identity r' = identity r /\ Terminal r' = Terminal r /\
    se_LastSequence r' = ev_Sequence ev /\ se_ClaimedTotal r' = total /\
    se_DebitedTotal r' = (if 0 <? d then u64 (se_DebitedTotal rec + d) else se_DebitedTotal rec) /\
    se_SettlementSeq r' = se_SettlementSeq r /\ se_State r' = se_State r /\ se_CloseReason r' = se_CloseReason r /\
    se_PaymentClosed r' = se_PaymentClosed r /\ se_RunnerTerminated r' = se_RunnerTerminated r /\ se_SessionID r' = se_SessionID r /\
    se_AuthorizationMaxUnits r' = se_AuthorizationMaxUnits r /\ (se_PendingDebitSeq r = 0 -> se_PendingDebitSeq r' = 0)).
  { eexists. split; [done|]. unfold commit_event.
    destruct (note_health_frame now health (r <| se_LastEventID := ev_EventID ev |> <| se_LastSequence := ev_Sequence ev |> <| se_LastEventAt := now |>))
      as (o1 & o2 & o3 & o4 & o5 & Hn). rewrite Hn. unfold total.
    destruct (0 <? d); [destruct Hdeb as [[seq billed] ->]|subst debit]; destruct (ev_UsageTot ev); cbn; rewrite <- ?Hc, <- ?Hd; by repeat split. }
  destruct Hfields as (r' & -> & Hi & Ht' & Hs' & Hc' & Hd' & Hq & Hst & Hcr & Hp & Hn & Hid & Hm' & Hri).
  assert (Hub : se_DebitedTotal rec <= se_DebitedTotal r' <= total /\ se_DebitedTotal r' <= se_AuthorizationMaxUnits rec /\ se_ClaimedTotal rec <= total).
  { rewrite Hd'. unfold total, event_ok in *. destruct (ev_UsageTot ev) as [t|]; cbn in *; destruct (0 <? d) eqn:Hpos; to_prop; try lia.
    rewrite u64_small; lia. }
  split.
  - apply later_open; try done; try lia; rewrite ?Hp, ?Hn; try done.
    intros Hcl'. unfold Closing in *. rewrite Ht', Hst, Hcr. done.
  - destruct Hg as [Hg1 Hg2 Hg3 Hg4 Hg5]. split; [congruence|lia|rewrite Hm'; lia| |by rewrite Ht', Ht].
    rewrite Hp. intros Hpc. destruct (Hg4 Hpc) as [Hcg Hq0]. split; [|by apply Hri]. unfold Closing in *. by rewrite Ht', Hst.
Qed.

Lemma updated_sequence r now : se_LastSequence (r <| se_UpdatedAt := now |>) = se_LastSequence r.
Proof. done. Qed.
Lemma commit_event_sequence now spec ev health delta debit r :
  se_LastSequence (commit_event now spec ev health delta debit r) = ev_Sequence ev.
Proof.
  unfold commit_event. destruct (note_health_frame now health
    (r <| se_LastEventID := ev_EventID ev |> <| se_LastSequence := ev_Sequence ev |> <| se_LastEventAt := now |>)) as (? & ? & ? & ? & ? & ->).
  by destruct debit as [[]|], (ev_UsageTot ev).
Qed.

Section handlers.
Context `{Bolt M} `{AuthWire} `{SettlementWire} `{RevisionWire} `{Outside R}.
Context (db0 : SessionDB M).
Implicit Types (db : SessionDB M).

Abbreviation K := (on_store (R := R) (since db0)).

Lemma End_forward cfg id reason : pres K (End cfg id reason) (fun _ => True).
Proof.
  apply pres_seq; [apply pres_session|intros rec]. apply pres_seq; [|intros _; apply pres_session].
  destruct (Terminal rec); [by apply pres_ret|apply winddownLocked_forward].
Qed.

Lemma RecordSettlement_forward cfg id : pres K (RecordSettlement cfg id) (fun _ => True).
Proof.
  apply pres_seq; [apply pres_session|intros rec]. destruct (_ && _); [by apply pres_ret|].
  destruct (acceptedSettlementSpec _ _) as [spec|]; [|apply pres_fail].
  apply pres_seq; [|intros _; apply pres_seq; [apply pres_session|intros r; by apply pres_ret]].
  apply pres_modify. intros db r r' Hs Hr Hf. assert (Hl : later r r' /\ good id r').
  { pose proof (since_good db0 id db r Hs Hr) as Hg. unfold record_settlement in Hf. destruct (Terminal r) eqn:Ht.
    - destruct (freeze_later _ _ _ _ Hf) as [Hl Hc]. split; [done|by eapply good_core].
    - unfold next_settlement in Hf. destruct (_ =? _); [done|]. injection Hf as <-. split; [apply later_open; cbn; try done; lia|].
      by eapply good_core, Hg. }
  destruct Hl as [Hl Hg]. eapply since_with_session; [done|done|by apply later_updated|by apply good_updated].
Qed.

(** The record that was read is still the one stored, but for notes. *)
Definition untouched (rec r : SessionRecord) : Prop :=
  Closing r = false /\ se_LastSequence r = se_LastSequence rec /\ se_ClaimedTotal r = se_ClaimedTotal rec /\
  se_DebitedTotal r = se_DebitedTotal rec /\ se_AuthorizationMaxUnits r = se_AuthorizationMaxUnits rec.

Lemma settle_revision_forward now id rec :
  Closing rec = false ->
  hoare (on_store (R := R) (fun db => since db0 db /\ sd_sessions db !! id = Some rec)) (settle_revision now id rec)
    (fun rec' => on_store (fun db => (since db0 db /\ sd_sessions db !! id = Some rec') /\ Closing rec' = false)) K.
Proof.
  intros Hc. unfold settle_revision. destruct (se_RevisionIntent rec); [|by apply hoare_ret].
  apply (hoare_bind _ _ _ (fun _ => K)).
  - eapply hoare_pre; [apply pres_hoare; eapply pres_true, pres_observe, resume_forward|]. by intros s [? _].
  - intros resumed. eapply hoare_bind; [by apply (hoare_session id (since db0))|]. intros rec'.
    destruct (se_RevisionIntent rec'); [destruct resumed; apply hoare_fail; by intros s [? _]|].
    eapply hoare_bind; [apply hoare_require; by intros s [? _]|]. intros []. apply hoare_ret. intros s [Hs Hn]. by to_prop.
Qed.

Lemma advance_forward now id spec rec cumulative ev :
  hoare (on_store (R := R) (known db0 id (untouched rec))) (advance now id spec rec cumulative ev)
    (fun _ => on_store (known db0 id (untouched rec))) K.
Proof.
  apply (hoare_weaken _ _ (on_store (known db0 id (untouched rec))) _ (fun _ => on_store (known db0 id (untouched rec))) _
    (on_store (known db0 id (untouched rec)))); try done; [|by intros s [? _]].
  assert (Hnote : forall fn : SessionRecord -> SessionRecord,
    (forall r, untouched rec r -> later r (fn r) /\ untouched rec (fn r) /\ (good id r -> good id (fn r))) ->
    pres (on_store (R := R) (known db0 id (untouched rec))) (modify now id (fun r => Ok (fn r))) (fun _ => True)).
  { intros fn Hl. apply pres_hoare, hoare_modify_known. intros r r' Hgr Hu [= <-]. destruct (Hl r Hu) as (? & ? & ?). auto. }
  apply pres_hoare. apply pres_seq; [|intros _; apply pres_seq; [apply pres_ask|intros [[a|]|]; [|apply pres_fail..]]].
  - destruct (se_PendingDebitSeq rec =? 0); [|by apply pres_ret]. apply pres_map_err, Hnote.
    intros r Hu. pose proof Hu as [Hc _]. pose proof (open_not_terminal _ Hc) as Ht. split; [apply later_open; cbn; try done; lia|]. split; [done|].
    intros [G1 G2 G3 G4 G5]. split; try done. intros Hp. destruct (G4 Hp) as [Hcl _]. congruence.
  - apply pres_seq; [eapply pres_true, pres_require|intros _]. apply pres_seq; [|intros _; by apply pres_ret].
    apply pres_map_err, Hnote. intros r Hu. pose proof Hu as [Hc _]. pose proof (open_not_terminal _ Hc) as Ht.
    split; [apply later_open; cbn; try done; lia|]. split; [done|]. intros Hg. by eapply good_core, Hg.
Qed.

(** A session that was seen at a sequence number stays there or goes on. *)
Definition seen (id : string) (n : Z) db : Prop := since db0 db /\ exists r, sd_sessions db !! id = Some r /\ n <= se_LastSequence r.
Lemma seen_stable {A} (m : st (EngineState M R) engine_error A) id n :
  (forall db1, pres (on_store (since db1)) m (fun _ => True)) ->
  hoare (on_store (R := R) (seen id n)) m (fun _ => on_store (seen id n)) K.
Proof.
  intros Hm s [[He Hw] (r & Hr & Hn)]. destruct (Hm (en_Store s) s (since_refl _ Hw)) as [[He' Hw'] _].
  assert (Hs : seen id n (en_Store (m s).2)).
  { split; [split; [by eapply sessions_evolve_trans|done]|]. destruct (He' id r Hr) as (r' & Hr' & Hl).
    exists r'. split; [done|]. pose proof (lt_sequence _ _ Hl). lia. }
  destruct (m s) as [[a|e] s']; [done|by destruct Hs].
Qed.

(** An event that is accepted has been seen. *)
Lemma ProcessEvent_accepts cfg id ev :
  event_ok ev -> hoare K (ProcessEvent cfg id ev) (fun _ => on_store (seen id (ev_Sequence ev))) K.
Proof.
  intros Hev. unfold ProcessEvent. eapply hoare_bind; [by apply (hoare_lift _ _ K)|]. intros health. apply hoare_pure. intros _.
  eapply hoare_bind; [by apply (hoare_session id (since db0))|]. intros rec.
  eapply hoare_bind; [apply hoare_require; by intros s [? _]|]. intros [].
  apply hoare_pure. intros Hcl. apply negb_true_iff in Hcl.
  eapply hoare_bind; [by apply settle_revision_forward|]. clear rec Hcl. intros rec. apply hoare_pure. intros Hcl.
  destruct (cf_Specs cfg id) as [spec|]; [|apply hoare_fail; by intros s [? _]].
  destruct (_ <=? se_LastSequence rec) eqn:Hseq; to_prop.
  { apply hoare_ret. intros s [Hs Hr]. split; [done|by exists rec]. }
  eapply hoare_bind; [apply (hoare_lift _ _ (on_store (fun db => since db0 db /\ sd_sessions db !! id = Some rec))); by intros s [? _]|].
  intros claimed. apply hoare_pure. intros Hclaim.
  apply (hoare_pre _ _ (fun s => on_store (known db0 id (untouched rec)) s /\ good id rec)).
  2:{ intros s [Hs Hr]. cbn in Hs, Hr. split; [|by eapply since_good]. split; [done|]. intros r Hr'. rewrite Hr in Hr'. by injection Hr' as <-. }
  apply hoare_pure. intros Hg.
  apply (hoare_bind _ _ _ (fun debit s => on_store (known db0 id (untouched rec)) s /\ (if 0 <? cm_delta claimed then is_Some debit else debit = None))).
  { destruct (0 <? cm_delta claimed); [|by apply hoare_ret]. eapply hoare_bind; [apply advance_forward|]. intros paid. by apply hoare_ret. }
  intros debit. apply hoare_pure. intros Hdebit.
  apply (hoare_bind _ _ _ (fun _ => on_store (seen id (ev_Sequence ev)))).
  - apply hoare_map_err, (hoare_modify _ _ _ (known db0 id (untouched rec)) (seen id (ev_Sequence ev)) (since db0)); [by intros db [? _]|].
    intros db r r' [Hs Ha] Hr [= <-]. pose proof (since_good _ _ _ _ Hs Hr) as Hgr. destruct (Ha r Hr) as (Hc & E1 & E2 & E3 & E4).
    destruct (commit_event_forward (cf_Now cfg) spec ev health claimed debit id rec r) as [Hl Hg']; try done; [by apply open_not_terminal|].
    split; [eapply since_with_session; [done|done|by apply later_updated|by apply good_updated]|].
    eexists. split; [apply lookup_insert_eq|]. by rewrite updated_sequence, commit_event_sequence.
  - intros []. destruct (bool_decide _); [by apply hoare_ret|].
    eapply hoare_bind; [apply seen_stable; intros db1; apply winddownLocked_forward|]. intros []. by apply hoare_ret.
Qed.
Lemma ProcessEvent_forward cfg id ev : event_ok ev -> pres K (ProcessEvent cfg id ev) (fun _ => True).
Proof. intros Hev. apply pres_hoare. eapply hoare_weaken; [by apply ProcessEvent_accepts|done|by intros o s [? _]|done]. Qed.

(** A revision begins on a session that is not over. *)
Lemma BeginRevision_since now id intent db :
  since db0 db -> at_id id (fun r => Terminal r = false) db -> since db0 (BeginRevision now id intent db).2.
Proof.
  intros Hs Ha. unfold BeginRevision, Update. destruct (has _ _); [done|].
  destruct (sd_sessions db !! id) as [r|] eqn:Hr; [|done]. destruct (se_RevisionIntent r); [done|].
  destruct (has (sd_revision_requests db) _); [done|]. cbn [snd]. specialize (Ha r Hr). cbn in Ha.
  pose proof (since_good db0 id db r Hs Hr) as Hg.
  apply (since_with_session db0 db id r (r <| se_RevisionIntent := Some intent |> <| se_LastRevision := ri_Decision intent |> <| se_UpdatedAt := now |>) Hs Hr).
  - by apply later_updated, edit_notes.
  - by apply good_updated, good_notes.
Qed.
Lemma begin_revision_forward cfg spec rec requestID auth payment fp reservation id :
  se_SessionID rec = id ->
  hoare (on_store (R := R) (known db0 id (fun r => Terminal r = false))) (begin_revision cfg spec rec requestID auth payment fp reservation)
    (fun _ => K) K.
Proof.
  intros Hid. unfold begin_revision. apply (hoare_bind _ _ _ (fun _ => K)).
  - eapply hoare_weaken; [apply (hoare_observe _ (on_store (known db0 id (fun r => Terminal r = false))) (fun _ => K) K K)|done|by intros []|done].
    rewrite Hid. apply hoare_save; [by intros db [? _]|]. intros db [Hs Ha].
    match goal with |- match BeginRevision ?n ?i ?x db with _ => _ end => pose proof (BeginRevision_since n i x db Hs Ha) as Hb end.
    by destruct (BeginRevision _ _ _ _) as [[[]|] ?].
  - intros [[]|e]; [by apply hoare_ret|]. destruct e as [| | |[]| |]; by apply hoare_fail.
Qed.
Lemma reconcile_pending_debit_forward now rec id :
  se_SessionID rec = id ->
  hoare (on_store (R := R) (fun db => since db0 db /\ sd_sessions db !! id = Some rec)) (reconcile_pending_debit now rec)
    (fun rec' s => on_store (known db0 id (fun r => Terminal r = Terminal rec')) s /\ se_SessionID rec' = id) K.
Proof.
  intros Hid. unfold reconcile_pending_debit. destruct (se_PendingDebitSeq rec =? 0) eqn:Hq.
  { apply hoare_ret. intros s [Hs Hr]. split; [|done]. split; [done|]. intros r Hr'. rewrite Hr in Hr'. by injection Hr' as <-. }
  to_prop. eapply hoare_bind; [apply hoare_ask|]. intros [[u|]|]; try (apply hoare_fail; by intros s [? _]).
  eapply hoare_bind; [apply hoare_require; by intros s [? _]|]. intros []. apply hoare_pure. intros _.
  destruct (reconcileReceiverUsage rec (Some u)) as [changed|] eqn:Hf; [|apply hoare_fail; by intros s [? _]].
  destruct (reconcile_units _ _ _ Hf) as (_ & _ & _ & _ & _ & Hst & _ & _ & _ & _ & _ & Hid' & _).
  apply (hoare_bind _ _ _ (fun _ => on_store (known db0 id (fun r => Terminal r = Terminal changed))));
    [apply hoare_map_err|intros []; apply hoare_ret; intros s Hs; split; [exact Hs|congruence]].
  apply hoare_modify; [by intros db [? _]|]. intros db r r' [Hs Hr] Hr2 Hf2. rewrite Hid in *. rewrite Hr in Hr2. injection Hr2 as <-.
  rewrite Hf in Hf2. injection Hf2 as <-. pose proof (since_good db0 id db rec Hs Hr) as Hg.
  assert (Ht : Terminal rec = false).
  { destruct (Terminal rec) eqn:Ht; [|done]. destruct (gd_over _ _ Hg Ht) as (_ & Hp & _). by destruct (gd_paid _ _ Hg Hp). }
  split; [|by apply at_with_session]. eapply since_with_session; [done|done| |].
  - by apply later_updated, (reconcile_later _ _ _ Ht Hf).
  - by eapply good_updated, reconcile_good.
Qed.

Lemma ReviseAuthorization_forward cfg id requestID auth payment reservation :
  pres K (ReviseAuthorization cfg id requestID auth payment reservation) (fun _ => True).
Proof.
  apply pres_hoare. unfold ReviseAuthorization. eapply hoare_bind; [by apply hoare_require|]. intros []. apply hoare_pure. intros _.
  eapply hoare_bind; [by apply (hoare_session id (since db0))|]. intros rec. cbv zeta.
  set (Pr := on_store (R := R) (fun db => since db0 db /\ sd_sessions db !! id = Some rec)).
  apply (hoare_bind _ _ _ (fun _ => Pr)).
  { intros s Hs. unfold recall_revision, observe, bind, load. destruct (TopUpRecall _ _ _ _) as [[prior|]|e]; [| exact Hs |].
    - case_bool_decide; [exact Hs|by destruct Hs].
    - destruct e; by destruct Hs. }
  intros [answer|]; [apply hoare_ret; by intros s [? _]|].
  assert (HK : forall s, Pr s -> K s) by (by intros s [? _]).
  destruct (se_RevisionIntent rec) as [i|].
  { destruct (negb _); [by apply hoare_fail|]. destruct (negb _); [by apply hoare_fail|].
    eapply hoare_pre; [apply pres_hoare, resume_forward|done]. }
  destruct reservation as [reservation|]; [|by apply hoare_fail].
  eapply hoare_bind; [by apply hoare_require|]. intros []. apply hoare_pure. intros _.
  apply (hoare_pre _ _ (fun s => Pr s /\ se_SessionID rec = id)).
  2:{ intros s Hs. split; [done|]. destruct Hs as [Hs Hr]. by eapply gd_id, since_good. }
  apply hoare_pure. intros Hid. eapply hoare_bind; [by apply reconcile_pending_debit_forward|]. clear rec Hid Pr HK. intros rec.
  apply hoare_pure. intros Hid.
  assert (HK : forall s : EngineState M R, on_store (known db0 id (fun r => Terminal r = Terminal rec)) s -> K s) by (by intros s [? _]).
  eapply hoare_bind; [by apply hoare_require|]. intros []. apply hoare_pure. intros Hc.
  destruct (cf_Specs cfg id) as [spec|]; [|by apply hoare_fail].
  eapply hoare_bind; [by apply hoare_lift|]. intros []. apply hoare_pure. intros _.
  apply (hoare_bind _ _ _ (fun _ => K)); [|intros []; apply pres_hoare, resume_forward].
  eapply hoare_pre; [by apply begin_revision_forward|]. intros s [Hs Ha]. split; [done|]. intros r Hr. rewrite (Ha r Hr).
  to_prop. by apply open_not_terminal.
Qed.

Lemma resume_all_forward now ids : pres K (resume_all now ids) (fun _ => True).
Proof.
  induction ids as [|id ids IH]; [by apply pres_ret|]. apply pres_seq; [eapply pres_true, pres_observe, resume_forward|intros _; exact IH].
Qed.
Lemma recoverRevisionIntents_forward now : pres K (recoverRevisionIntents now) (fun _ => True).
Proof. intros s Hs. by apply resume_all_forward. Qed.
End handlers.
