(* ===== verification/SessionLifeSpec.v ===== *)
(** * The life of a session

    The handlers that create sessions and the sweeps, then all calls of the
    engine together: whatever the payee, the runners and the disk do, a session
    keeps its identity, its counters grow within the signed allowance, it never
    reopens, and what it cost is final once it has ended. *)
From S2P Require Import Prelude.
From S2P Require Import GoBytes.
From S2P Require Import Bolt.
From S2P Require Import Actions.
From S2P Require Import Spendauth.
From S2P Require Import WorkLedger.
From S2P Require Import WorkClient.
From S2P Require Import SessionStore.
From S2P Require Import EngineTypes.
From S2P Require Import SessionSettlement.
From S2P Require Import SessionRevisions.
From S2P Require Import SessionEngine.
From S2P Require Import SessionOpen.
From S2P Require Import SessionSweep.
From S2P Require Import EngineLogic.
From S2P Require Import SessionLife.
From S2P Require Import SessionForward.

Open Scope record_scope.

Section opens.
Context `{Bolt M} `{AuthWire} `{SettlementWire} `{RevisionWire} `{RuntimeJSON} `{Outside R}.
(** The unit caps of decoded authorizations are unsigned. *)
Context (caps_unsigned : forall wire p sig, unmarshal_auth wire = Some (mkSpendAuthorization (Some p) sig) -> 0 <= py_MaxTotalUnits p).
Context (db0 : SessionDB M).
Implicit Types (db : SessionDB M).

Abbreviation K := (on_store (R := R) (since db0)).

(** ** Reservations *)
Lemma recordStage_forward id fn :
  (forall o, good_reservation o -> good_reservation (fn o)) -> pres K (recordStage id fn) (fun _ => True).
Proof.
  intros Hf. apply pres_save. intros db Hs. unfold UpdateReservation, Update.
  destruct (sd_open_reservations db !! id) as [o|] eqn:Ho; [|done]. pose proof Hs as [_ [_ Hr]].
  apply (since_same db0 db _ Hs); [done|]. intros k o'. cbn. destruct (decide (k = id)) as [->|Hne].
  - rewrite lookup_insert_eq. intros [= <-]. by apply Hf, (Hr id).
  - rewrite lookup_insert_ne by done. apply Hr.
Qed.
Lemma releaseReservation_forward id : pres K (releaseReservation id) (fun _ => True).
Proof.
  apply pres_save. intros db Hs. pose proof Hs as [_ [_ Hr]]. apply (since_same db0 db _ Hs); [done|].
  intros k o. cbn. intros [_ Hk]%lookup_delete_Some. by apply (Hr k).
Qed.
Lemma ReserveOpen_since now id fp db : since db0 db -> since db0 (ReserveOpen now id fp db).2.
Proof.
  intros Hs. unfold ReserveOpen, Update. case_bool_decide; [done|]. destruct (has _ _); [done|]. destruct (has (sd_open_requests db) _); [done|].
  destruct (has (sd_open_reservations db) _); [done|]. pose proof Hs as [_ [_ Hr]]. apply (since_same db0 db _ Hs); [done|].
  intros k o. cbn. destruct (decide (k = id)) as [->|Hne].
  - rewrite lookup_insert_eq. by intros [= <-] i.
  - rewrite lookup_insert_ne by done. apply Hr.
Qed.
Lemma CreateIndexed_forward now rec id :
  (Terminal rec = false -> good (se_SessionID rec) rec) -> Terminal rec = false -> pres K (save (CreateIndexed now rec id)) (fun _ => True).
Proof.
  intros Hg Ht. specialize (Hg Ht). apply pres_save. intros db Hs. unfold CreateIndexed. destruct (_ || _); [done|]. unfold Update.
  destruct (has (sd_non_admissions db) _); [done|]. destruct (has _ _ || has _ _) eqn:Hx; [done|]. destruct (_ && _); [done|]. cbn [snd].
  apply orb_false_iff in Hx as [Hx _]. unfold has in Hx. apply bool_decide_eq_false in Hx. apply eq_None_not_Some in Hx.
  eapply (since_created db0 db (se_SessionID rec) (created now rec)); [done|done| |done|].
  - unfold created. apply good_updated. by eapply good_core, Hg.
  - intros k o. cbn. by intros [_ Hk]%lookup_delete_Some.
Qed.

(** ** New records *)
Lemma opened_good req spec quote id fp reservation p : 0 <= py_MaxTotalUnits p -> good id (opened req spec quote id fp reservation p).
Proof. intros Hm. split; cbn; try done; lia. Qed.

(** ** Undoing an open *)
Lemma resolveOpenAdmission_forward cfg r intent :
  Terminal (oi_Record intent) = false -> se_PaymentClosed (oi_Record intent) = false ->
  se_DebitedTotal (oi_Record intent) = 0 -> se_ClaimedTotal (oi_Record intent) = 0 ->
  pres K (resolveOpenAdmission cfg r intent) (fun _ => True).
Proof.
  intros Ht Hp Hd Hc. unfold resolveOpenAdmission. apply pres_seq; [apply pres_ask|intros [[c|]|]]; [|apply pres_fail..]. cbv zeta.
  destruct (_ || _); [apply recordStage_forward; by intros o Ho|]. destruct (cn_Authorization c) as [u|]; [|apply pres_fail].
  apply pres_seq; [eapply pres_true, pres_require|intros _].
  set (rec := (oi_Record intent) <| se_RunnerSessionID := _ |> <| se_RunnerTerminated := _ |> <| se_CapacityRef := _ |>).
  apply (pres_bind _ _ _ (fun rec' => reconcileReceiverUsage rec (Some u) = Ok rec')); [by apply pres_lift|]. intros rec' Hf.
  destruct (reconcile_units _ _ _ Hf) as (_ & _ & _ & Hu & Hm & Hst & _ & Hpc & _ & _ & _ & _ & Hq).
  assert (Ht' : Terminal rec' = false) by (unfold Terminal in *; by rewrite Hst).
  apply pres_seq; [|intros _; apply winddownLocked_forward]. apply CreateIndexed_forward; [intros _|done].
  split; [done|subst rec; cbn in Hu; lia|done| |by rewrite Ht']. rewrite Hpc. cbn. by rewrite Hp.
Qed.
Lemma reconcile_create_forward id r : pres K (reconcile_create id r) (fun r' => or_AdmissionIntent r' = or_AdmissionIntent r).
Proof.
  unfold reconcile_create. destruct (out_ReconcileSessionCreate _) as [reconcile|]; [|apply pres_fail].
  apply pres_seq; [eapply pres_true, pres_require|intros _]. apply pres_seq; [apply pres_ask|intros [[x|]|]]; [|apply pres_fail..].
  apply pres_seq; [eapply pres_true, pres_require|intros _]. destruct (bool_decide _).
  - apply pres_seq; [eapply pres_true, pres_require|intros _]. apply pres_seq; [by apply recordStage_forward|intros _; by apply pres_ret].
  - destruct (bool_decide _); [|apply pres_fail]. apply pres_seq; [eapply pres_true, pres_require|intros _].
    apply pres_seq; [apply pres_happened|intros _; by apply pres_ret].
Qed.
Lemma stop_creation_forward id r : pres K (stop_creation id r) (fun r' => or_AdmissionIntent r' = or_AdmissionIntent r).
Proof.
  unfold stop_creation. apply (pres_bind _ _ _ (fun r' => or_AdmissionIntent r' = or_AdmissionIntent r)).
  - destruct (may_be_created r); [|by apply pres_ret]. apply (pres_bind _ _ _ (fun r' => or_AdmissionIntent r' = or_AdmissionIntent r)).
    + destruct (bool_decide _); [apply reconcile_create_forward|by apply pres_ret].
    + intros r' Hr. destruct (bool_decide _); [by apply pres_ret|]. apply pres_seq; [apply pres_terminate|intros t].
      apply pres_seq; [eapply pres_true, pres_require|intros _; by apply pres_ret].
  - intros r' Hr. apply pres_seq; [by apply recordStage_forward|intros _]. apply pres_seq; [apply pres_release|intros _; by apply pres_ret].
Qed.
Lemma cleanup_forward cfg id : pres K (cleanupOpenReservation cfg id) (fun _ => True).
Proof.
  unfold cleanupOpenReservation. apply (pres_bind _ _ _ (fun held => forall r, held = Ok r -> good_reservation r)).
  - intros s Hs. unfold observe, load, Reservation. destruct Hs as [? [? Hres]].
    destruct (sd_open_reservations (en_Store s) !! id) as [o|] eqn:Ho; (split; [done|]); [|by intros ? [= <-]].
    intros ? [= <-] r [= <-]. by apply (Hres id).
  - intros [r|e] Hgood.
    + specialize (Hgood r eq_refl). destruct (or_AdmissionCanceled r); [by apply pres_ret|].
      apply (pres_bind _ _ _ (fun r' => or_AdmissionIntent r' = or_AdmissionIntent r)).
      * destruct (or_RunnerTerminated r); [by apply pres_ret|apply stop_creation_forward].
      * intros r' Hr. destruct (or_AdmissionIntent r') as [intent|] eqn:Hi.
        -- destruct (Hgood intent) as (? & ? & ? & ?); [congruence|]. by apply resolveOpenAdmission_forward.
        -- apply pres_seq; [eapply pres_true, pres_require|intros _; apply releaseReservation_forward].
    + destruct e as [| | |[]| |]; try apply pres_fail. by apply pres_ret.
Qed.
Lemma replayOpen_forward id fp : pres K (replayOpen id fp) (fun _ => True).
Proof.
  apply pres_seq; [apply pres_session|intros rec]. destruct (_ && _); [apply pres_fail|]. destruct (bool_decide _); [apply pres_fail|].
  destruct (bool_decide _); [destruct (negb _); apply pres_fail|]. cbv zeta. destruct (bool_decide _); [by apply pres_ret|].
  destruct (decode_replay _) as [[c g]|]; [by apply pres_ret|apply pres_fail].
Qed.
Lemma reconcileFailedOpen_forward cfg id : pres K (reconcileFailedOpen cfg id) (fun _ => True).
Proof.
  apply pres_seq; [eapply pres_true, pres_observe, cleanup_forward|intros [[]|]; [|apply pres_fail]].
  apply pres_seq; [eapply pres_true, pres_observe, pres_load|intros held]. destruct (match held with Ok r => _ | Err _ => _ end); [apply pres_fail|].
  apply pres_seq; [eapply pres_true, pres_observe, pres_seq; [apply pres_load|intros sid; apply pres_session]|intros [rec|]; [|apply pres_fail]].
  destruct (Terminal rec); apply pres_fail.
Qed.
Lemma failClosed_forward {A} cfg id runner stage : pres K (failClosed (A := A) cfg id runner stage) (fun _ => True).
Proof.
  apply pres_seq; [destruct (bool_decide _); [by apply pres_ret|apply pres_map_err; by apply recordStage_forward]|intros _].
  apply pres_seq; [eapply pres_true, pres_observe, cleanup_forward|intros [[]|]; apply pres_fail].
Qed.

(** ** The open *)
Lemma start_session_forward cfg req spec drawn p fp reservation credited ref :
  0 <= py_MaxTotalUnits p -> pres K (start_session cfg req spec drawn p fp reservation credited ref) (fun _ => True).
Proof.
  intros Hm. unfold start_session. apply pres_seq; [apply pres_ask|intros [[]|]; [|apply failClosed_forward]].
  apply pres_seq; [eapply pres_true, pres_observe; by apply recordStage_forward|intros [[]|]; [|apply failClosed_forward]].
  apply pres_seq; [apply pres_ask|intros [made|e]].
  - apply pres_seq; [eapply pres_true, pres_observe; by apply recordStage_forward|intros [[]|]; [|apply failClosed_forward]].
    destruct (ParseDescriptor _ _ _) as [desc|]; [|apply failClosed_forward]. unfold persist_open. cbv zeta.
    apply pres_seq; [eapply pres_true, pres_observe, CreateIndexed_forward; [|done]|intros [[]|e]].
    + intros _. split; cbn; try done; lia.
    + by apply pres_ret.
    + destruct e as [| | |[]| |]; try apply failClosed_forward.
      * apply pres_seq; [eapply pres_true, pres_observe, failClosed_forward|intros _].
        apply pres_seq; [eapply pres_true, pres_observe, pres_load|intros [id|]; [apply replayOpen_forward|apply failClosed_forward]].
      * apply pres_seq; [eapply pres_true, pres_observe, failClosed_forward|intros _; apply pres_fail].
  - destruct e as [|backoff|]; try apply failClosed_forward. apply pres_seq; [apply pres_happened|intros _]. unfold refuse_capacity.
    apply pres_seq; [apply pres_map_err, CreateIndexed_forward; [|done]|intros _; apply pres_seq; [apply winddownLocked_forward|intros _; apply pres_fail]].
    intros _. split; cbn; try done; lia.
Qed.
Lemma give_back_forward {A} id ref (m : st (EngineState M R) engine_error A) : pres K m (fun _ => True) -> pres K (give_back id ref m) (fun _ => True).
Proof.
  intros Hm. apply pres_seq; [eapply pres_true, pres_observe, Hm|intros [a|]; [by apply pres_ret|]].
  apply pres_seq; [apply pres_release|intros _]. apply pres_seq; [eapply pres_true, pres_observe, releaseReservation_forward|intros _; apply pres_fail].
Qed.
Lemma Open_forward cfg req drawn : pres K (SessionOpen.Open cfg req drawn) (fun _ => True).
Proof.
  apply pres_seq; [by apply pres_lift|intros [reservation spec]]. cbv zeta.
  apply pres_seq; [eapply pres_true, pres_observe, pres_load|intros [id|]; [apply replayOpen_forward|]].
  destruct (unmarshal_auth _) as [[[p|] sig]|] eqn:Hu; [|apply pres_fail..]. pose proof (caps_unsigned _ _ _ Hu) as Hm.
  apply pres_seq; [eapply pres_true, pres_observe, pres_save; intros db; apply ReserveOpen_since|intros [[]|err]].
  - unfold open_reserved. cbv zeta. apply pres_seq; [|intros ref].
    + unfold acquire_slot. destruct out_AcquireCapacity as [acquire|]; [|by apply pres_ret].
      apply pres_seq; [apply pres_ask|intros [[]|]; [by apply pres_ret|]].
      apply pres_seq; [eapply pres_true, pres_observe, releaseReservation_forward|intros _; apply pres_fail].
    + apply pres_seq; [by apply give_back_forward, recordStage_forward|intros _].
      apply pres_seq; [apply give_back_forward, recordStage_forward; by intros o _ i [= <-]|intros _].
      apply pres_seq; [apply pres_ask|intros answer]. destruct (admission_confirmed p answer) as [credited|]; [|apply reconcileFailedOpen_forward].
      apply pres_seq; [|intros _; by apply start_session_forward]. apply pres_map_err, recordStage_forward. intros o Ho i.
      cbn. destruct (or_AdmissionIntent o) as [i'|] eqn:Hi; [|done]. intros [= <-]. by apply (Ho i').
  - destruct err as [| | |[]| |]; try apply pres_fail.
    + apply pres_seq; [eapply pres_true, pres_observe, pres_load|intros [id|]; [apply replayOpen_forward|apply pres_fail]].
    + apply pres_seq; [eapply pres_true, pres_observe, pres_load|intros [r|]; [|apply pres_fail]].
      destruct (negb _); [apply pres_fail|]. destruct (or_AdmissionCanceled r); apply pres_fail.
Qed.

(** ** Sweeps *)
Lemma each_forward act ids : (forall id, pres K (act id) (fun _ => True)) -> pres K (each act ids) (fun _ => True).
Proof.
  intros Ha. induction ids as [|id ids IH]; [by apply pres_ret|]. apply pres_seq; [eapply pres_true, pres_observe, Ha|intros _; exact IH].
Qed.
Lemma recoverReservations_forward cfg : pres K (recoverReservations cfg) (fun _ => True).
Proof. intros s Hs. by apply each_forward; [intros id; apply cleanup_forward|]. Qed.
Lemma wind_down_all_forward cfg due : pres K (wind_down_all cfg due) (fun _ => True).
Proof.
  induction due as [|[id reason] due IH]; [by apply pres_ret|]. apply pres_seq; [apply winddownLocked_forward|intros _; exact IH].
Qed.
Lemma rebind_forward cfg id : pres K (rebind cfg id) (fun _ => True).
Proof.
  apply pres_seq; [apply pres_session|intros rec]. apply pres_seq; [apply pres_ask|intros [[]|e]].
  - apply pres_seq; [apply pres_ask|intros [[u|]|]]; [|apply winddownLocked_forward..].
    destruct (as_State u =? ADMITTED); [by apply pres_ret|apply winddownLocked_forward].
  - destruct (bool_decide _); [apply winddownLocked_forward|by apply pres_ret].
Qed.
Lemma Recover_forward cfg : pres K (Recover cfg) (fun _ => True).
Proof.
  apply pres_seq; [apply recoverRevisionIntents_forward|intros _]. apply pres_seq; [apply recoverReservations_forward|intros _].
  intros s Hs. cbv zeta. eapply pres_seq; [apply each_forward|intros _; apply each_forward, rebind_forward|exact Hs].
  intros id. apply pres_seq; [apply pres_session|intros rec; apply winddownLocked_forward].
Qed.

(** ** Eviction *)

(** What became of the sessions of [db]: each goes on, or has ended and been forgotten. *)
Definition moved db db' : Prop :=
  forall id r, sd_sessions db !! id = Some r ->
  match sd_sessions db' !! id with
  | Some r' => later r r'
  | None => exists r', later r r' /\ Terminal r' = true
  end.

Lemma evolves_moved db db' : evolves db db' -> moved db db'.
Proof. intros He id r Hr. destruct (He id r Hr) as (r' & -> & Hl). done. Qed.
Definition accounted db db' : Prop := moved db db' /\ well_formed db'.
Lemma since_accounted db db' : since db db' -> accounted db db'.
Proof. intros [He Hw]. split; [by apply evolves_moved|done]. Qed.
Lemma EvictTerminal_accounted db cutoff :
  since db0 db -> accounted db0 (EvictTerminal cutoff db).2.
Proof.
  intros [He [Hw Ho]]. unfold EvictTerminal. set (evict := List.filter _ _). cbn.
  assert (Hev : forall k r, k ∈ evict.*1 -> sd_sessions db !! k = Some r -> Terminal r = true).
  { intros k r Hk Hr. apply list_elem_of_fmap in Hk as ([k' x] & -> & Hin). cbn in *.
    apply list_elem_of_In, List.filter_In in Hin as [Hin Hx]. apply list_elem_of_In, elem_of_ForEach in Hin.
    rewrite Hr in Hin. injection Hin as <-. by apply andb_true_iff in Hx as [? _]. }
  split; [|split; [|exact Ho]].
  - intros id r Hr. cbn. rewrite lookup_delete_keys. destruct (He id r Hr) as (r' & Hr' & Hl).
    case_decide as Hin; [|by rewrite Hr']. exists r'. split; [done|by eapply Hev].
  - intros id r. cbn. rewrite lookup_delete_keys. case_decide; [done|apply Hw].
Qed.
End opens.

(** ** All calls *)

(** What reaches the engine: opens, events, revisions, ends, statements asked
    for and sealed, the timer, a start. *)
Inductive call :=
  | CallOpen (req : OpenRequest) (drawn : Drawn)
  | CallEvent (id : string) (ev : Event)
  | CallRevise (id requestID authorization payment : string) (reservation : option Z)
  | CallEnd (id reason : string)
  | CallSettlement (id : string)
  | CallSealed (id payload envelope : string)
  | CallSweep
  | CallRecover.
Definition call_ok (c : call) : Prop := match c with CallEvent _ ev => event_ok ev | _ => True end.

Section calls.
Context `{Bolt M} `{AuthWire} `{SettlementWire} `{RevisionWire} `{RuntimeJSON} `{Outside R}.
Context (caps_unsigned : forall wire p sig, unmarshal_auth wire = Some (mkSpendAuthorization (Some p) sig) -> 0 <= py_MaxTotalUnits p).
Abbreviation state := (EngineState M R).
Implicit Types (s : state).

Definition run_call (cfg : Config) (c : call) s : state :=
  match c with
  | CallOpen req drawn => (SessionOpen.Open cfg req drawn s).2
  | CallEvent id ev => (ProcessEvent cfg id ev s).2
  | CallRevise id requestID authorization payment reservation =>
      (ReviseAuthorization cfg id requestID authorization payment reservation s).2
  | CallEnd id reason => (End cfg id reason s).2
  | CallSettlement id => (RecordSettlement cfg id s).2
  | CallSealed id payload envelope => (save (RecordTerminalSettlementEnvelope (cf_Now cfg) id payload envelope) s).2
  | CallSweep => (Sweep cfg s).2
  | CallRecover => (Recover cfg s).2
  end.

(** A call, under any configuration, or the outside moving by itself. *)
Inductive engine_step : state -> state -> Prop :=
  | step_call cfg c s : call_ok c -> engine_step s (run_call cfg c s)
  | step_outside s out : engine_step s (mkEngineState (en_Store s) out (en_Effects s)).

(** Runs through which a session stays on record. *)
Inductive life (id : string) : state -> state -> Prop :=
  | life_here s : life id s s
  | life_step s1 s2 s3 : life id s1 s2 -> engine_step s2 s3 -> is_Some (sd_sessions (en_Store s3) !! id) -> life id s1 s3.

Lemma run_pres {A} (m : st state engine_error A) s :
  (forall db0, pres (on_store (since db0)) m (fun _ => True)) -> well_formed (en_Store s) -> since (en_Store s) (en_Store (m s).2).
Proof. intros Hm Hw. by apply (Hm (en_Store s) s), since_refl. Qed.

Lemma Sealed_since now id payload envelope db0 db : since db0 db -> since db0 (RecordTerminalSettlementEnvelope now id payload envelope db).2.
Proof.
  intros Hs. unfold RecordTerminalSettlementEnvelope, Update. destruct (sd_sessions db !! id) as [r|] eqn:Hr; [|done].
  destruct (_ || _); [done|]. cbn. pose proof (since_good db0 id db r Hs Hr) as [? ? ? ? ?].
  eapply since_with_session; [done|exact Hr| |]; [apply later_updated; split; try done; cbn; lia|apply good_updated; by split].
Qed.

Lemma Sweep_accounted cfg db0 :
  hoare (on_store (since db0)) (Sweep (M := M) (R := R) cfg) (fun _ => on_store (accounted db0)) (on_store (accounted db0)).
Proof.
  assert (Hm : forall m : st state engine_error unit, pres (on_store (since db0)) m (fun _ => True) ->
    hoare (on_store (since db0)) m (fun _ => on_store (since db0)) (on_store (accounted db0))).
  { intros m Hp. eapply hoare_weaken; [by apply pres_hoare|done|done|]. intros s. apply since_accounted. }
  unfold Sweep. eapply hoare_bind; [by apply Hm, recoverReservations_forward|intros []].
  eapply hoare_bind; [apply Hm, recoverRevisionIntents_forward|intros []].
  eapply hoare_bind; [apply Hm; intros s Hs; by apply wind_down_all_forward|intros []].
  apply (hoare_bind _ _ _ (fun _ => on_store (accounted db0))); [|intros r; by apply hoare_ret].
  eapply hoare_weaken; [apply hoare_observe, (hoare_save _ (since db0) (fun _ => accounted db0) (accounted db0))|done|by intros [] s|done];
    [apply since_accounted|].
  intros db Hs. pose proof (EvictTerminal_accounted db0 db (cf_Now cfg - cf_TerminalRetention cfg) Hs) as He.
  by destruct (EvictTerminal _ db).
Qed.

Lemma Sweep_step cfg s : well_formed (en_Store s) -> accounted (en_Store s) (en_Store (Sweep cfg s).2).
Proof.
  intros Hw. pose proof (Sweep_accounted cfg (en_Store s) s (since_refl _ Hw)) as Hs. by destruct (Sweep cfg s) as [[[]|] ?].
Qed.
Lemma step_accounted s s' : engine_step s s' -> well_formed (en_Store s) -> accounted (en_Store s) (en_Store s').
Proof.
  intros [cfg c s0 Hok|s0 out] Hw; [|by apply since_accounted, since_refl]. destruct c; cbn in *;
    first [by apply Sweep_step | apply since_accounted, run_pres; [intros db0|done]].
  - by apply Open_forward.
  - by apply ProcessEvent_forward.
  - apply ReviseAuthorization_forward.
  - apply End_forward.
  - apply RecordSettlement_forward.
  - apply pres_save. intros db. apply Sealed_since.
  - by apply Recover_forward.
Qed.

(** From then on the record of a session only moves forward, and stays good. *)
Lemma life_forward id s s' :
  life id s s' -> well_formed (en_Store s) ->
  well_formed (en_Store s') /\
  forall r, sd_sessions (en_Store s) !! id = Some r -> exists r', sd_sessions (en_Store s') !! id = Some r' /\ later r r'.
Proof.
  induction 1 as [s|s1 s2 s3 Hl IH Hs [r3 Hr3]]; intros Hw; [split; [done|]; intros r Hr; exists r; split; [done|apply later_refl]|].
  destruct (IH Hw) as [Hw2 Hf]. destruct (step_accounted _ _ Hs Hw2) as [Hm Hw3]. split; [done|].
  intros r Hr. destruct (Hf r Hr) as (r2 & Hr2 & Hl2). specialize (Hm id r2 Hr2). rewrite Hr3 in Hm.
  exists r3. split; [done|by eapply later_trans].
Qed.
End calls.
