(* ===== verification/SessionSpec.v ===== *)
(** * What the session engine promises

    Theorems about whole sessions: their life, the counting of events, the end
    of a session with the payee's figures, and one figure that gets lost. *)
From S2P Require Import Prelude.
From S2P Require Import GoBytes.
From S2P Require Import Actions.
From S2P Require Import Bolt.
From S2P Require Import Spendauth.
From S2P Require Import WorkLedger.
From S2P Require Import WorkClient.
From S2P Require Import SessionStore.
From S2P Require Import EngineTypes.
From S2P Require Import SessionSettlement.
From S2P Require Import SessionRevisions.
From S2P Require Import SessionEngine.
From S2P Require Import SessionOpen.
From S2P Require Import SessionSweep.
From S2P Require Import EngineLogic.
From S2P Require Import SessionLife.
From S2P Require Import SessionForward.
From S2P Require Import SessionLifeSpec.


Open Scope record_scope.

Section events.
Context `{Bolt M} `{AuthWire} `{SettlementWire} `{RevisionWire} `{RuntimeJSON} `{Outside R}.
Abbreviation state := (EngineState M R).
Implicit Types (s : state) (r : SessionRecord).

(** The answer to an event that was counted before. *)
Definition duplicate : EventOutcome := mkEventOutcome true 0 false "".

Lemma ProcessEvent_duplicate cfg id ev s r o s' :
  well_formed (en_Store s) -> sd_sessions (en_Store s) !! id = Some r -> ev_Sequence ev <= se_LastSequence r ->
  ProcessEvent cfg id ev s = (Ok o, s') -> o = duplicate.
Proof.
  intros Hw Hr Hn Hp. set (db0 := en_Store s).
  assert (Hh : hoare (on_store (since db0)) (ProcessEvent (R := R) cfg id ev) (fun o _ => o = duplicate) (fun _ => True)).
  { unfold ProcessEvent. eapply hoare_bind; [by apply hoare_lift|]. intros health. apply hoare_pure. intros _.
    eapply hoare_bind; [eapply hoare_weaken; [by apply (hoare_session id (since db0) (since db0))|done| |done]; intros a x Hx; exact Hx|]. intros rec.
    eapply hoare_bind; [by apply hoare_require|]. intros []. apply hoare_pure. intros Hc%negb_true_iff.
    eapply hoare_bind; [eapply hoare_weaken; [by apply (settle_revision_forward db0)|done| |done]; intros a x Hx; exact Hx|].
    clear rec Hc. intros rec. apply hoare_pure. intros _. destruct (cf_Specs cfg id) as [spec|]; [|by apply hoare_fail].
    intros x [[He _] Hrec]. destruct (He id r Hr) as (r' & Hr' & Hl). cbn in Hrec. rewrite Hrec in Hr'. injection Hr' as ->.
    pose proof (lt_sequence _ _ Hl). by rewrite (proj2 (Z.leb_le _ _)) by lia. }
  specialize (Hh s (since_refl _ Hw)). by rewrite Hp in Hh.
Qed.
Lemma session_ok id s r s' : session id s = (Ok r, s') -> sd_sessions (en_Store s) !! id = Some r /\ s' = s.
Proof. unfold session, load, Get. destruct (sd_sessions _ !! id); [|done]. by intros [= <- <-]. Qed.
Lemma ProcessEvent_quiet cfg id ev s r o s' :
  sd_sessions (en_Store s) !! id = Some r -> se_RevisionIntent r = None -> ev_Sequence ev <= se_LastSequence r ->
  ProcessEvent cfg id ev s = (Ok o, s') -> s' = s.
Proof.
  intros Hr Hi Hn Hp. apply bind_ok in Hp as (health & s1 & Hl & Hp). apply lift_ok in Hl as [_ ->].
  apply bind_ok in Hp as (rec & s1 & Hl & Hp). apply session_ok in Hl as [Hr' ->]. rewrite Hr in Hr'. injection Hr' as <-.
  apply bind_ok in Hp as ([] & s1 & Hl & Hp). apply require_ok in Hl as [_ ->].
  apply bind_ok in Hp as (rec & s1 & Hl & Hp). unfold settle_revision in Hl. rewrite Hi in Hl. apply ret_ok in Hl as [<- ->].
  destruct (cf_Specs cfg id) as [spec|]; [|done]. rewrite (proj2 (Z.leb_le _ _)) in Hp by done. by injection Hp as _ <-.
Qed.
End events.

(** ** The end of a session *)

(** The outside does its part for a session: writes succeed, the runner ends
    its session or does not know it, the payee reports usage [u] and settles at
    it.  [up settled]: the states in which it does, before and after. *)
Record cooperates `{Outside R} (up : bool -> R -> Prop) (r : SessionRecord) (u : AuthorizationStatus) (released : Z) : Prop := {
  co_write b o : up b o -> exists o', out_Write o = (true, o') /\ up b o';
  co_release b ref o : up b o -> up b (out_ReleaseCapacity ref o);
  co_terminate b reason o : up b o -> exists a o',
    out_TerminateSession (se_BackendRef r) (se_RunnerSessionID r) reason o = (a, o') /\ (a = Ok tt \/ a = Err ErrRunnerSessionGone) /\ up b o';
  co_status o : up false o -> exists o',
    out_GetSpendAuthorization (se_Sender r) (se_AccountAuthorizationID r) (se_WholesaleAccountID r) o = (Ok (Some u), o') /\ up false o';
  co_settle o : up false o -> exists o',
    out_SettleAuthorization (mkSettleRequest (se_WholesaleAccountID r) (se_Sender r) (se_AccountAuthorizationID r) (as_ActualUnits u)
      (if as_State u =? ADMITTED then as_SettlementSeq u + 1 else as_SettlementSeq u)) o
    = (Ok (Some (mkSettleResult SETTLED (as_Billed u) (Some released))), o') /\ up true o';
}.

(** What settling looks at, and leaves alone until it is done. *)
Definition account_of (r : SessionRecord) :=
  ((se_SessionID r, se_Sender r, se_AccountAuthorizationID r, se_WholesaleAccountID r, se_BackendRef r, se_RunnerSessionID r),
   (se_BilledWei r, se_DebitedTotal r, se_DebitSeq r, se_PendingDebitSeq r, se_AuthorizationMaxDebitWei r, se_AuthorizationMaxUnits r),
   (se_AcceptedPriceWei r, se_AcceptedPricePerUnits r, se_SettlementSeq r, se_TerminalSettlement r),
   (se_PaymentClosed r, se_RevisionIntent r, Terminal r)).

(** What the payee says of a session, on its record. *)
Definition at_usage (u : AuthorizationStatus) (r : SessionRecord) : Prop :=
  exists paid, as_Billed u = Some paid /\ se_DebitedTotal r = as_ActualUnits u /\ se_BilledWei r = dec_string paid.

Lemma reconcile_usage r u r1 r2 :
  reconcileReceiverUsage r (Some u) = Ok r1 -> account_of r2 = account_of r ->
  exists r3, reconcileReceiverUsage r2 (Some u) = Ok r3 /\ at_usage u r3 /\ Terminal r3 = Terminal r /\
    se_SettlementSeq r3 = se_SettlementSeq r /\ se_TerminalSettlement r3 = se_TerminalSettlement r /\
    se_AccountAuthorizationID r3 = se_AccountAuthorizationID r /\
    se_AcceptedPriceWei r3 = se_AcceptedPriceWei r /\ se_AcceptedPricePerUnits r3 = se_AcceptedPricePerUnits r.
Proof.
  intros Hr E. unfold account_of in E.
  injection E as E1 E2 E3 E4 E5 E6 E7 E8 E9 E10 E11 E12 E13 E14 E15 E16 E17 E18 E19.
  unfold reconcileReceiverUsage in *. destruct u as [st [reserved|] [paid|] units seq]; try done.
  rewrite E7, E8, E9, E10, E11, E12. repeat (case_match; try done). eexists. split; [done|]. split; [by exists paid|]. done.
Qed.

(** A session that can be settled: what is left is up to the outside. *)
Record settleable (cfg : Config) (id : string) (r : SessionRecord) (u : AuthorizationStatus) : Prop := {
  sb_id : se_SessionID r = id;
  sb_open : Terminal r = false;
  sb_unpaid : se_PaymentClosed r = false;
  sb_intent : se_RevisionIntent r = None;
  sb_authorization : se_AccountAuthorizationID r <> "";
  sb_usage : is_ok (reconcileReceiverUsage r (Some u)) = true;
  sb_state : as_State u = ADMITTED /\ as_SettlementSeq u <> two64 - 1 \/ as_State u = SETTLED;
  sb_price : is_Some (acceptedSettlementSpec r (cf_Specs cfg id));
  sb_statement : se_TerminalSettlement r = "";
  sb_count : se_SettlementSeq r <> two64 - 1;
}.

(** On the way to the end: the payee's figures are on record. *)
Definition settling (u : AuthorizationStatus) (r x : SessionRecord) : Prop :=
  at_usage u x /\ Terminal x = false /\ se_SettlementSeq x = se_SettlementSeq r /\ se_TerminalSettlement x = "" /\
  se_AccountAuthorizationID x = se_AccountAuthorizationID r /\
  se_AcceptedPriceWei x = se_AcceptedPriceWei r /\ se_AcceptedPricePerUnits x = se_AcceptedPricePerUnits r.
Definition settled `{SettlementWire} (u : AuthorizationStatus) (released : Z) (r x : SessionRecord) : Prop :=
  at_usage u x /\ Terminal x = true /\ se_PaymentClosed x = true /\ se_RunnerTerminated x = true /\ se_CapacityRef x = "" /\
  se_AuthorizationReleasedWei x = dec_string released /\
  exists st, marshal_settlement st = Some (se_TerminalSettlement x) /\ st_SessionId st = se_SessionID x /\ st_State st = "closed" /\
    st_SettlementSeq st = se_SettlementSeq r + 1 /\ st_DebitedUnits st = as_ActualUnits u /\
    st_ReleasedValueWei st = Some (big_bytes released) /\
    (forall paid, as_Billed u = Some paid -> 0 < paid -> st_BilledValueWei st = big_bytes paid).
(** The end, but for the statement. *)
Definition over (u : AuthorizationStatus) (released : Z) (r x : SessionRecord) : Prop :=
  at_usage u x /\ Terminal x = true /\ se_PaymentClosed x = true /\ se_RunnerTerminated x = true /\ se_CapacityRef x = "" /\
  se_AuthorizationReleasedWei x = dec_string released /\ wireState (se_State x) = "closed" /\
  se_SettlementSeq x = se_SettlementSeq r /\ se_TerminalSettlement x = "" /\
  se_AccountAuthorizationID x = se_AccountAuthorizationID r /\
  se_AcceptedPriceWei x = se_AcceptedPriceWei r /\ se_AcceptedPricePerUnits x = se_AcceptedPricePerUnits r.
Lemma account_stopped reason x : Terminal x = false -> account_of (stopped reason x) = account_of x.
Proof. intros Ht. unfold account_of. rewrite Ht. done. Qed.

Lemma settled_updated `{SettlementWire} u released r x now : settled u released r x -> settled u released r (x <| se_UpdatedAt := now |>).
Proof. done. Qed.
Lemma closed_wire reason : wireState (terminal_state reason) = "closed".
Proof. unfold terminal_state. by destruct (bool_decide (reason ∈ _)). Qed.

(** What a statement says, made at a record that holds none yet. *)
Lemma statement_of `{AuthWire} `{SettlementWire} now x spec st :
  SettlementFor now x (Some spec) = Some st -> se_TerminalSettlement x = "" ->
  st_SessionId st = se_SessionID x /\ st_State st = wireState (se_State x) /\ st_SettlementSeq st = se_SettlementSeq x /\
  st_DebitedUnits st = se_DebitedTotal x /\
  st_ReleasedValueWei st = (if bool_decide (se_AccountAuthorizationID x = "") then None else Some (decimalBytes (se_AuthorizationReleasedWei x))) /\
  (forall paid, SetString10 (se_BilledWei x) = Some paid -> 0 < paid -> st_BilledValueWei st = big_bytes paid).
Proof.
  intros Hst Hn. unfold SettlementFor in Hst. rewrite (bool_decide_eq_true_2 _ Hn) in Hst. cbn [negb] in Hst.
  destruct (acceptedSettlementSpec _ _) as [sp|]; [|done]. injection Hst as <-. cbn. do 5 (split; [done|]).
  intros paid Hp Hpos. unfold billed_value. rewrite Hp. by rewrite (proj2 (Z.ltb_lt _ _) Hpos).
Qed.
Lemma accepted_frame x y spec :
  se_AcceptedPriceWei x = se_AcceptedPriceWei y -> se_AcceptedPricePerUnits x = se_AcceptedPricePerUnits y ->
  acceptedSettlementSpec x spec = acceptedSettlementSpec y spec.
Proof. unfold acceptedSettlementSpec. by intros -> ->. Qed.
Lemma accepted_again x spec sp : acceptedSettlementSpec x spec = Some sp -> is_Some (acceptedSettlementSpec x (Some sp)).
Proof. unfold acceptedSettlementSpec. destruct (bool_decide _); [done|]. destruct (SetString10 _); [|done]. by destruct (_ || _). Qed.
Lemma freeze_statement `{AuthWire} `{SettlementWire} now spec sp x :
  se_TerminalSettlement x = "" -> acceptedSettlementSpec x spec = Some sp -> se_SettlementSeq x <> two64 - 1 ->
  (forall st, is_Some (marshal_settlement st)) ->
  exists st raw, SettlementFor now (x <| se_SettlementSeq := se_SettlementSeq x + 1 |>) (Some sp) = Some st /\
    marshal_settlement st = Some raw /\
    freezeTerminalSettlement now spec x = Ok (x <| se_SettlementSeq := se_SettlementSeq x + 1 |> <| se_TerminalSettlement := raw |>).
Proof.
  intros Hn Hs Hc He. unfold freezeTerminalSettlement. rewrite Hn, Hs. cbn. unfold next_settlement.
  rewrite (proj2 (Z.eqb_neq _ _) Hc). cbn. set (x1 := x <| se_SettlementSeq := _ |>).
  assert (Hx : is_Some (SettlementFor now x1 (Some sp))).
  { unfold SettlementFor. replace (se_TerminalSettlement x1) with "" by done. cbn.
    destruct (accepted_again x spec sp Hs) as [sp' Hsp]. change (acceptedSettlementSpec x1) with (acceptedSettlementSpec x). by rewrite Hsp. }
  destruct Hx as [st Hst]. destruct (He st) as [raw Hraw]. exists st, raw. rewrite Hst. cbn. by rewrite Hraw.
Qed.

Lemma closed_over now reason u released r x : settling u r x -> over u released r (closed_record now reason (dec_string released) x).
Proof.
  intros (Hu & Ht & Hn & Hf & Ha & Hp & Hq). split; [exact Hu|]. split; [apply terminal_state_over|]. do 3 (split; [done|]).
  split; [|split; [apply closed_wire|done]]. unfold closed_record. cbn. by rewrite bool_decide_eq_false_2 by apply dec_string_ne_nil.
Qed.

Section ending.
Context `{Bolt M} `{AuthWire} `{SettlementWire} `{RevisionWire} `{Outside R}.
Context (encodes : forall st, is_Some (marshal_settlement st)).
Context (up : bool -> R -> Prop) (r : SessionRecord) (u : AuthorizationStatus) (released : Z) (Hco : cooperates up r u released).
Context (cfg : Config) (id : string) (Hready : settleable cfg id r u).
Abbreviation state := (EngineState M R).
Implicit Types (s : state) (G : SessionRecord -> Prop).

Definition have (b : bool) G s : Prop := (exists x, sd_sessions (en_Store s) !! id = Some x /\ G x) /\ up b (en_Outside s).
Abbreviation never := (fun _ : state => False).

Lemma account_open x : account_of x = account_of r -> Terminal x = false.
Proof. intros E. injection E as _ _ _ _ _ _ _ _ _ _ _ _ _ _ _ _ _ _ ->. by apply Hready. Qed.
Lemma have_weaken b G G' s : (forall x, G x -> G' x) -> have b G s -> have b G' s.
Proof. intros Hg [(x & Hx & Hgx) Ho]. split; [exists x; split; [done|by apply Hg]|done]. Qed.
Lemma have_session b G : hoare (have b G) (session id) (fun rec s => have b (eq rec) s /\ G rec) never.
Proof.
  intros s [(x & Hx & Hg) Ho]. unfold session, load, Get. rewrite Hx. split; [|done]. split; [by exists x|done].
Qed.
Lemma have_modify b G G' now fn :
  (forall x, G x -> exists x', fn x = Ok x' /\ G' (x' <| se_UpdatedAt := now |>)) ->
  hoare (have b G) (modify now id fn) (fun _ => have b G') never.
Proof.
  intros Hf s [(x & Hx & Hg) Ho]. destruct (co_write _ _ _ _ Hco b _ Ho) as (o' & Hw & Ho').
  unfold modify, save, UpdateSession, Update. rewrite Hw, Hx. destruct (Hf x Hg) as (x' & -> & Hg'). cbn.
  split; [|done]. eexists. split; [apply lookup_insert_eq|done].
Qed.
Lemma have_release b G ref : hoare (have b G) (release ref) (fun _ => have b G) never.
Proof.
  intros s [Hx Ho]. unfold release. case_bool_decide; [done|]. split; [done|]. by eapply co_release.
Qed.
Lemma have_stop b G rec reason : account_of rec = account_of r -> hoare (have b G) (stop_runner rec reason) (fun a s => have b G s /\ a = true) never.
Proof.
  intros Ha s [Hx Ho]. unfold stop_runner. destruct (se_RunnerTerminated rec); [done|]. unfold terminate, bind.
  injection Ha as _ _ _ _ -> ->. destruct (co_terminate _ _ _ _ Hco b reason _ Ho) as (a & o' & -> & [-> | ->] & Ho'); done.
Qed.

Lemma have_release_stopped b rec reason :
  account_of rec = account_of r ->
  hoare (have b (fun x => account_of x = account_of r)) (releaseStoppedCapacity (cf_Now cfg) rec reason)
    (fun rec' s => have b (fun x => account_of x = account_of r) s /\ account_of rec' = account_of r) never.
Proof.
  intros Ha. unfold releaseStoppedCapacity. destruct (_ && _); [by apply hoare_ret|].
  assert (Hid : se_SessionID rec = id) by (injection Ha as -> _; by apply Hready). rewrite Hid.
  eapply hoare_bind; [apply (have_modify b _ (fun x => account_of x = account_of r))|intros []].
  - intros x Hx. eexists. split; [reflexivity|]. etransitivity; [|exact Hx]. etransitivity; [|by apply (account_stopped reason), account_open]. reflexivity.
  - eapply hoare_bind; [apply have_release|intros []]. apply hoare_ret. intros s Hs. split; [exact Hs|].
    etransitivity; [|exact Ha]. by apply account_stopped, account_open.
Qed.

Lemma usage_ok : exists r1, reconcileReceiverUsage r (Some u) = Ok r1.
Proof. pose proof (sb_usage _ _ _ _ Hready) as Hu. destruct (reconcileReceiverUsage r (Some u)) as [r1|]; [by exists r1|done]. Qed.
Lemma reconcile_settling x :
  account_of x = account_of r -> exists x', reconcileReceiverUsage x (Some u) = Ok x' /\ settling u r x'.
Proof.
  intros Hx. destruct usage_ok as [r1 Hr1]. destruct (reconcile_usage r u r1 x Hr1 Hx) as (x' & Hx' & Hu & Ht & Hn & Hf & Ha & Hp & Hq).
  exists x'. split; [done|]. split; [done|]. rewrite Ht, Hn, Hf, Ha, Hp, Hq. destruct Hready. done.
Qed.
Lemma settling_updated x now : settling u r x -> settling u r (x <| se_UpdatedAt := now |>).
Proof. by intros (? & ? & ? & ? & ? & ? & ?). Qed.

Lemma have_settle rec :
  account_of rec = account_of r ->
  hoare (have false (fun x => account_of x = account_of r)) (settleSessionAuthorizationLocked cfg rec)
    (fun a s => have true (settling u r) s /\ sl_Released a = Some released) never.
Proof.
  intros Ha. unfold settleSessionAuthorizationLocked. pose proof Ha as E.
  injection E as E1 E2 E3 E4 _ _ _ _ _ _ _ _ _ _ _ _ _ _ _. rewrite E1, E2, E3, E4, (sb_id _ _ _ _ Hready). clear E1 E2 E3 E4.
  apply (hoare_bind _ _ _ (fun a s => have false (fun x => account_of x = account_of r) s /\ a = Ok (Some u))).
  { intros s [Hx Ho]. unfold ask. destruct (co_status _ _ _ _ Hco _ Ho) as (o' & -> & Ho'). done. }
  intros a. apply hoare_pure. intros ->. destruct (reconcile_settling rec Ha) as (r3 & -> & _).
  set (P := have false (fun x => account_of x = account_of r)). set (Q := have false (settling u r)).
  apply (hoare_bind _ _ _ (fun _ => P)); [|intros []].
  { destruct (sb_state _ _ _ _ Hready) as [[-> _]| ->]; by apply hoare_ret. }
  apply (hoare_bind _ _ _ (fun _ => P)); [by apply hoare_ret|intros []].
  apply (hoare_bind _ _ _ (fun _ => Q)); [|intros []].
  { apply have_modify. intros x Hx. destruct (reconcile_settling x Hx) as (x' & Hx' & Hs). exists x'. split; [done|by apply settling_updated]. }
  apply (hoare_bind _ _ _ (fun _ => Q)); [|intros []].
  { destruct (sb_state _ _ _ _ Hready) as [[-> Hn]| ->]; [|by apply hoare_ret]. rewrite (proj2 (Z.eqb_neq _ _) Hn). by apply hoare_ret. }
  intros s [Hx Ho]. unfold ask, bind at 1. destruct (co_settle _ _ _ _ Hco _ Ho) as (o' & -> & Ho'). cbn.
  assert (Hb : bool_decide (is_Some (as_Billed u)) = true).
  { destruct Hx as (x & _ & ((paid & -> & _) & _)). by apply bool_decide_eq_true_2. }
  rewrite Hb, bool_decide_eq_true_2 by done. done.
Qed.

Lemma have_end x reason :
  settling u r x -> exists x', end_session cfg id reason (dec_string released) x = Ok x' /\ settled u released r x'.
Proof.
  intros Hx. pose proof (closed_over (cf_Now cfg) reason u released r x Hx) as Ho. clear Hx. unfold end_session. revert Ho. generalize (closed_record (cf_Now cfg) reason (dec_string released) x).
  clear x. intros x (Hu & Ht & Hpc & Hr & Hc & Hrel & Hw & Hn & Hf & Ha & Hp & Hq).
  destruct (sb_price _ _ _ _ Hready) as [spec Hspec].
  destruct (freeze_statement (cf_Now cfg) (cf_Specs cfg id) spec x) as (st & raw & Hst & Hraw & ->);
    [done|by rewrite <- Hspec; apply accepted_frame|by rewrite Hn; apply Hready|done|].
  eexists. split; [reflexivity|]. destruct (statement_of _ _ _ _ Hst) as (E1 & E2 & E3 & E4 & E5 & E6); [done|].
  split; [exact Hu|]. do 5 (split; [done|]). exists st.
  split; [exact Hraw|]. split; [exact E1|]. split; [by rewrite E2|]. split; [by rewrite E3, <- Hn|].
  destruct Hu as (paid & Hpaid & Hunits & Hbilled). split; [by rewrite E4|]. split.
  - rewrite E5. cbn. rewrite Ha, Hrel, bool_decide_eq_false_2 by apply Hready. unfold decimalBytes. by rewrite SetString10_dec.
  - intros p Hp' Hpos. apply E6; [|done]. rewrite Hpaid in Hp'. injection Hp' as <-. cbn. by rewrite Hbilled, SetString10_dec.
Qed.

Lemma have_winddown reason :
  hoare (have false (eq r)) (winddown cfg id reason) (fun _ => have true (settled u released r)) never.
Proof.
  set (P := have false (fun x => account_of x = account_of r)). unfold winddown.
  apply (hoare_bind _ _ _ (fun rec s => P s /\ rec = r)).
  { eapply hoare_weaken; [apply have_session|done| |done]. intros rec s [Hs <-]. split; [|done]. eapply have_weaken, Hs. by intros x <-. }
  intros rec. apply hoare_pure. intros ->. rewrite (sb_open _ _ _ _ Hready). cbv zeta. set (why := if _ : bool then _ else _).
  eapply hoare_bind; [by apply have_stop|]. intros rd. apply hoare_pure. intros ->.
  eapply hoare_bind; [by apply have_release_stopped|]. intros rec. apply hoare_pure. intros Ha.
  assert (Hi : se_RevisionIntent rec = None).
  { injection Ha as _ _ _ _ _ _ _ _ _ _ _ _ _ _ _ _ _ -> _. by apply Hready. }
  assert (Hp : se_PaymentClosed rec = false).
  { injection Ha as _ _ _ _ _ _ _ _ _ _ _ _ _ _ _ _ -> _ _. by apply Hready. }
  apply (hoare_bind _ _ _ (fun rec' s => P s /\ rec' = rec)).
  { unfold close_revision. rewrite Hi. by apply hoare_ret. }
  intros rec'. apply hoare_pure. intros ->.
  apply (hoare_bind _ _ _ (fun a s => have true (settling u r) s /\ a = (true, dec_string released))).
  { unfold close_payment. rewrite Hp. eapply hoare_bind; [eapply hoare_observe, have_settle, Ha|].
    intros [a|e]; [|by intros s []]. apply hoare_pure. intros Ha'. apply hoare_ret. by rewrite Ha'. }
  intros a. apply hoare_pure. intros ->. cbn [andb negb]. unfold finish_winddown.
  eapply hoare_bind; [apply hoare_observe, (have_modify _ _ (settled u released r))|].
  - intros x Hx. destruct (have_end x why Hx) as (x' & -> & Hs). exists x'. split; [done|]. by apply settled_updated.
  - intros [[]|e]; [by apply hoare_ret|by intros s []].
Qed.
End ending.

(** ** A release that was forgotten

    The payment is closed and the record says that it released nothing. *)
Section forgotten.
Context `{Bolt M} `{AuthWire} `{SettlementWire} `{RevisionWire} `{Outside R}.
Abbreviation state := (EngineState M R).
Variable id : string.

Definition nothing_released (x : SessionRecord) : Prop :=
  exists st, marshal_settlement st = Some (se_TerminalSettlement x) /\ default "" (st_ReleasedValueWei st) = "".
Record forgotten (x : SessionRecord) : Prop := {
  fg_id : se_SessionID x = id;
  fg_paid : se_PaymentClosed x = true;
  fg_intent : se_RevisionIntent x = None;
  fg_released : se_AuthorizationReleasedWei x = "";
  fg_statement : if Terminal x then nothing_released x else se_TerminalSettlement x = "";
}.
Definition pending (x : SessionRecord) : Prop := forgotten x /\ Terminal x = false.
Definition on_record (P : SessionRecord -> Prop) (db : SessionDB M) : Prop := exists x, sd_sessions db !! id = Some x /\ P x.

Lemma modify_pending now fn (P : SessionRecord -> Prop) :
  (forall x x', pending x -> fn x = Ok x' -> P (x' <| se_UpdatedAt := now |>)) ->
  hoare (S := state) (on_store (on_record pending)) (modify now id fn) (fun _ => on_store (on_record P)) (on_store (on_record pending)).
Proof.
  intros Hf. apply hoare_modify; [done|]. intros db x x' (y & Hy & Hp) Hx Hfn. rewrite Hx in Hy. injection Hy as <-.
  eexists. split; [apply lookup_insert_eq|]. by eapply Hf.
Qed.
Lemma pending_again f now : (forall x, se_SessionID (f x) = se_SessionID x /\ (se_PaymentClosed x = true -> se_PaymentClosed (f x) = true) /\
    se_RevisionIntent (f x) = se_RevisionIntent x /\ se_AuthorizationReleasedWei (f x) = se_AuthorizationReleasedWei x /\
    se_TerminalSettlement (f x) = se_TerminalSettlement x /\ Terminal (f x) = false) ->
  hoare (S := state) (on_store (on_record pending)) (modify now id (fun x => Ok (f x))) (fun _ => on_store (on_record pending))
    (on_store (on_record forgotten)).
Proof.
  intros Hf. eapply hoare_weaken; [apply (modify_pending now _ pending)|done|done|by intros s (x & Hx & [Hfg _]); exists x].
  intros x ? [[A B C D E] Ht] [= <-]. destruct (Hf x) as (F1 & F2 & F3 & F4 & F5 & F6).
  rewrite Ht in E. assert (Terminal ((f x) <| se_UpdatedAt := now |>) = false) as T by exact F6.
  split; [|done]. split; cbn; [congruence|by apply F2|congruence..|]. rewrite T. cbn. congruence.
Qed.
Lemma freeze_nothing now spec x x' :
  se_TerminalSettlement x = "" -> se_AuthorizationReleasedWei x = "" -> freezeTerminalSettlement now spec x = Ok x' ->
  nothing_released x' /\ exists n raw, x' = x <| se_SettlementSeq := n |> <| se_TerminalSettlement := raw |>.
Proof.
  intros Hn Hr. unfold freezeTerminalSettlement. rewrite Hn. cbn [negb]. destruct (acceptedSettlementSpec x spec) as [sp|]; [|done].
  unfold next_settlement. destruct (_ =? _); [done|].
  assert (exists x1, x1 = x <| se_SettlementSeq := se_SettlementSeq x + 1 |> /\ se_TerminalSettlement x1 = "" /\ se_AuthorizationReleasedWei x1 = "")
    as (x1 & Ex & Hn1 & Hr1) by by eexists.
  cbn -[SettlementFor]. rewrite <- Ex. destruct (SettlementFor now x1 (Some sp)) as [st|] eqn:Hst; [|done].
  destruct (marshal_settlement st) as [raw|] eqn:Hraw; [|done].
  intros [= <-]. split; [|rewrite Ex; by eexists _, raw]. clear Ex. exists st. split; [exact Hraw|].
  destruct (statement_of now x1 sp st Hst Hn1) as (_ & _ & _ & _ & Hrel & _). rewrite Hrel, Hr1. by destruct (bool_decide _).
Qed.
Lemma closed_forgets now reason x : forgotten x -> se_TerminalSettlement x = "" ->
  let x1 := closed_record now reason "" x in
  se_SessionID x1 = id /\ se_PaymentClosed x1 = true /\ se_RevisionIntent x1 = None /\ se_AuthorizationReleasedWei x1 = "" /\
  se_TerminalSettlement x1 = "" /\ se_State x1 = terminal_state reason.
Proof. intros [A B C D _] E. unfold closed_record. cbn. rewrite A, C, D, E. by split_and!. Qed.
Lemma end_forgets cfg reason x x' now : pending x -> end_session cfg id reason "" x = Ok x' -> forgotten (x' <| se_UpdatedAt := now |>).
Proof.
  intros [Hf Ht]. pose proof (fg_statement _ Hf) as E. rewrite Ht in E. unfold end_session.
  pose proof (closed_forgets (cf_Now cfg) reason x Hf E) as Hc. revert Hc. generalize (closed_record (cf_Now cfg) reason "" x).
  intros x1. cbv zeta. intros (A1 & B1 & C1 & D1 & E1 & S1) He. apply freeze_nothing in He as [(st & Hst & Hz) (n & raw & ->)]; [|exact E1|exact D1].
  cbn in Hst. split; unfold Terminal, nothing_released; cbn; [exact A1|exact B1|exact C1|exact D1|].
  rewrite S1, terminal_state_over. by exists st.
Qed.

Lemma winddown_forgets cfg reason :
  pres (S := state) (on_store (on_record forgotten)) (winddown cfg id reason) (fun _ => True).
Proof.
  assert (Hback : forall db, on_record pending db -> on_record forgotten db) by (intros db (x & Hx & [Hf _]); by exists x).
  apply pres_hoare. unfold winddown. eapply hoare_bind; [by apply hoare_session|]. intros rec s Hs.
  destruct (Terminal rec) eqn:Ht; [by destruct Hs|]. revert s Hs. cbv zeta. set (why := if _ : bool then _ else _). clearbody why.
  intros s [(x & Hx & Hfg) Hr]. rewrite Hx in Hr. injection Hr as ->.
  assert (on_store (on_record pending) s) as Hp by by exists rec. clear Hx. revert s Hp. destruct Hfg as [Hid Hpaid Hintent _ _].
  set (P := on_store (on_record pending)).
  apply (hoare_bind _ _ _ (fun _ => P)).
  { unfold stop_runner. destruct (se_RunnerTerminated rec); [by apply hoare_ret|].
    eapply hoare_bind; [apply hoare_terminate|intros a; by apply hoare_ret]. }
  intros rd. apply (hoare_bind _ _ _ (fun rec' s => P s /\ se_PaymentClosed rec' = true /\ se_RevisionIntent rec' = None)).
  { destruct rd; [|by apply hoare_ret]. unfold releaseStoppedCapacity. destruct (_ && _); [by apply hoare_ret|]. rewrite Hid.
    eapply (hoare_bind _ _ P (fun _ => P)); [by apply (pending_again (fun r => stopped why r <| se_ReplayMaterial := "" |>))|intros []].
    eapply hoare_bind; [apply hoare_release|intros []]. by apply hoare_ret. }
  intros rec'. apply hoare_pure. intros [Hpaid' Hintent']. unfold close_revision. rewrite Hintent'.
  apply (hoare_bind _ _ _ (fun a s => P s /\ a = rec')); [by apply hoare_ret|]. intros a. apply hoare_pure. intros ->.
  unfold close_payment. rewrite Hpaid'. apply (hoare_bind _ _ _ (fun a s => P s /\ a = (true, ""))); [by apply hoare_ret|].
  intros a. apply hoare_pure. intros ->. rewrite andb_true_r. destruct rd; cbn [negb].
  - unfold finish_winddown. eapply hoare_bind.
    { eapply hoare_observe, (modify_pending (cf_Now cfg) _ forgotten). intros x x' Hx He. by eapply end_forgets. }
    intros [[]|e]; [by apply hoare_ret|]. eapply hoare_weaken; [|done|by intros _ s ?%Hback|done].
    by apply (pending_again (fun r => r <| se_State := StateWindingDown |> <| se_CloseReason := why |> <| se_PaymentClosed := true |>
                                        <| se_RunnerTerminated := true |>)).
  - eapply hoare_weaken; [|done|intros a s Hs; exact Hs|by intros s ?%Hback]. apply modify_pending. intros x ? [[A B C D E] Htx] [= <-].
    rewrite Htx in E. unfold hold_winddown. cbn. by split.
Qed.
End forgotten.

(** ** The theorems *)
Section theorems.
Context `{Bolt M} `{AuthWire} `{SettlementWire} `{RevisionWire} `{RuntimeJSON} `{Outside R}.
Abbreviation state := (EngineState M R).
Implicit Types (s : state) (r : SessionRecord).

(** C30: Whatever the payee, the runners and the disk do, through all calls in
    any order, a session on record keeps its identity, its sequence number and
    totals only grow, it never reopens and keeps why it closed; what it debited
    stays within the units claimed and the cap of its authorization; once it has
    ended its payment is closed, its runner gone, no revision is in flight, and
    its statement is final. *)
Theorem session_life id s s' r :
  (forall wire p sig, unmarshal_auth wire = Some (mkSpendAuthorization (Some p) sig) -> 0 <= py_MaxTotalUnits p) ->
  well_formed (en_Store s) -> life id s s' -> sd_sessions (en_Store s) !! id = Some r ->
  exists r', sd_sessions (en_Store s') !! id = Some r' /\ later r r' /\ good id r'.
Proof.
  intros Hcaps Hw Hl Hr. destruct (life_forward Hcaps _ _ _ Hl Hw) as [[Hg _] Hf].
  destruct (Hf r Hr) as (r' & Hr' & Hlater). exists r'. split; [done|]. split; [done|by apply Hg].
Qed.

(** C31: An event that was accepted is never debited again: whatever happens to
    the session in between, an event at its sequence number or an earlier one is
    answered as a duplicate that debits nothing, or fails; with no revision in
    flight it changes nothing. *)
Theorem event_counted_once cfg cfg' id ev ev' s s1 s2 s3 o o' :
  (forall wire p sig, unmarshal_auth wire = Some (mkSpendAuthorization (Some p) sig) -> 0 <= py_MaxTotalUnits p) ->
  well_formed (en_Store s) -> event_ok ev -> ProcessEvent cfg id ev s = (Ok o, s1) -> life id s1 s2 ->
  ev_Sequence ev' <= ev_Sequence ev -> ProcessEvent cfg' id ev' s2 = (Ok o', s3) ->
  o' = duplicate /\ forall r, sd_sessions (en_Store s2) !! id = Some r -> se_RevisionIntent r = None -> s3 = s2.
Proof.
  intros Hcaps Hw Hev Hp Hl Hle Hp'.
  pose proof (ProcessEvent_accepts (en_Store s) cfg id ev Hev s (since_refl _ Hw)) as Ha. rewrite Hp in Ha.
  destruct Ha as [[_ Hw1] (r1 & Hr1 & Hn1)]. destruct (life_forward Hcaps _ _ _ Hl Hw1) as [Hw2 Hf].
  destruct (Hf r1 Hr1) as (r2 & Hr2 & Hlater). pose proof (lt_sequence _ _ Hlater) as Hn2.
  split; [eapply ProcessEvent_duplicate; try done; lia|].
  intros r Hr Hi. rewrite Hr2 in Hr. injection Hr as <-. eapply ProcessEvent_quiet; try done. lia.
Qed.

(** C32: When the runner can be stopped, the payee settles at what it reports and
    the disk takes writes, one winddown ends the session, whatever stage it was
    at: with the payee's units and bill on its record, its slot given back, and
    a closed statement of exactly those figures, numbered after the last one. *)
Theorem winddown_settles cfg id reason s r u released (up : bool -> R -> Prop) :
  (forall st, is_Some (marshal_settlement st)) -> settleable cfg id r u -> cooperates up r u released ->
  sd_sessions (en_Store s) !! id = Some r -> up false (en_Outside s) ->
  exists x, sd_sessions (en_Store (winddownLocked cfg id reason s).2) !! id = Some x /\ settled u released r x.
Proof.
  intros He Hs Hco Hr Ho. assert (Hh : have up id false (eq r) s) by (split; [by exists r|done]).
  pose proof (have_winddown He up r u released Hco cfg id Hs reason s Hh) as Hd.
  unfold winddownLocked, bind, observe. by destruct (winddown cfg id reason s) as [[[]|] s'], Hd.
Qed.

(** C38: A session whose payment is settled and whose runner still does not
    answer loses the amount its settlement released: the retry writes an empty
    one over it, and however often the winddown is repeated, whatever the
    outside does, the statement the session ends with says that nothing was
    released. *)
Theorem released_value_lost cfg id reason s r e out :
  sd_sessions (en_Store s) !! id = Some r -> se_SessionID r = id -> Terminal r = false -> se_PaymentClosed r = true ->
  se_RunnerTerminated r = false -> se_RevisionIntent r = None -> se_TerminalSettlement r = "" ->
  (forall why, out_TerminateSession (se_BackendRef r) (se_RunnerSessionID r) why (en_Outside s) = (Err e, out)) ->
  e <> ErrRunnerSessionGone -> (out_Write out).1 = true ->
  let retried := (winddownLocked cfg id reason s).2 in
  (exists r', sd_sessions (en_Store retried) !! id = Some r' /\
    Terminal r' = false /\ se_PaymentClosed r' = true /\ se_AuthorizationReleasedWei r' = "") /\
  forall (retries : list (Config * string)) x,
    sd_sessions (en_Store (foldl (fun s again => (winddownLocked again.1 id again.2 s).2) retried retries)) !! id = Some x ->
    Terminal x = true ->
    exists st, marshal_settlement st = Some (se_TerminalSettlement x) /\ default "" (st_ReleasedValueWei st) = "".
Proof.
  intros Hr Hid Ht Hp Hrun Hi Hn Hout He Hwrite retried.
  assert (exists r', sd_sessions (en_Store retried) !! id = Some r' /\ Terminal r' = false /\ forgotten id r') as (r' & Hr' & Ht' & Hf).
  { subst retried. unfold winddownLocked, winddown, bind, observe, session, load, Get.
    rewrite Hr, Ht. cbv zeta. set (why := if _ : bool then _ else _). unfold stop_runner, terminate, bind.
    rewrite Hrun, Hout, bool_decide_eq_false_2 by congruence. cbn [is_ok].
    unfold ret at 1 2, close_revision. rewrite Hi. unfold ret at 1, close_payment. rewrite Hp. cbn [ret negb andb].
    unfold modify, save, UpdateSession, Update. cbn [en_Outside en_Store]. destruct (out_Write out) as [w out']. cbn in Hwrite. subst w.
    rewrite Hr. cbn. eexists. split; [apply lookup_insert_eq|]. split; [done|]. by split. }
  split; [exists r'; destruct Hf; by split_and!|]. intros retries x.
  assert (on_store (on_record id (forgotten id)) retried) as Hs by by exists r'. clearbody retried. revert retried Hs Hr'.
  assert (forall (s1 : state), on_store (on_record id (forgotten id)) s1 ->
    on_store (on_record id (forgotten id)) (foldl (fun s again => (winddownLocked again.1 id again.2 s).2) s1 retries)) as Hall.
  { induction retries as [|again retries IH]; [done|]. intros s1 Hs. cbn [foldl]. apply IH. unfold winddownLocked, bind, observe.
    destruct (winddown_forgets id again.1 again.2 s1 Hs) as [Hs' _]. by destruct (winddown _ _ _ s1) as [[a|err] s2]. }
  intros retried Hs _ Hx Htx. destruct (Hall retried Hs) as (y & Hy & Hfy). rewrite Hx in Hy. injection Hy as <-.
  pose proof (fg_statement _ _ Hfy) as E. by rewrite Htx in E.
Qed.
End theorems.

(** ** A payee and a runner

    A concrete outside: a payee that keeps one authorization at two wei a unit,
    a runner that may ignore the first attempts to end its session, a disk whose
    next writes may fail. *)
Record demo := mkdemo {
  dm_State : Z;
  dm_Reserved : Z;
  dm_Units : Z;
  dm_Seq : Z;
  dm_Alive : bool;
  dm_Deaf : nat;
  dm_Writes : list bool;
}.

Definition demo_price : Z := 2.
Definition demo_account : PayeeAccount := mkPayeeAccount "account" "domain" "payer" (Some 1000).
Definition demo_status (d : demo) : AuthorizationStatus :=
  mkAuthorizationStatus (dm_State d) (Some (dm_Reserved d)) (Some (demo_price * dm_Units d)) (dm_Units d) (dm_Seq d).

#[export] Instance demo_outside : Outside demo := {|
  out_GetSpendAuthorization sender auth account := fun d => (Ok (Some (demo_status d)), d);
  out_AdmitAuthorization q := fun d =>
    (Ok (Some (mkAdmitResult ADMITTED (Some demo_account) None)),
     mkdemo ADMITTED 200 (dm_Units d) (dm_Seq d) (dm_Alive d) (dm_Deaf d) (dm_Writes d));
  out_AdvanceAuthorization q := fun d =>
    let d := mkdemo (dm_State d) (200 - demo_price * vr_CumulativeUnits q) (vr_CumulativeUnits q) (vr_AdvanceSeq q)
               (dm_Alive d) (dm_Deaf d) (dm_Writes d) in
    (Ok (Some (mkAdvanceResult (dm_State d) (Some (demo_price * dm_Units d)) (Some (dm_Reserved d)))), d);
  out_SettleAuthorization q := fun d =>
    (Ok (Some (mkSettleResult SETTLED (Some (demo_price * dm_Units d)) (Some (dm_Reserved d)))),
     mkdemo SETTLED 0 (dm_Units d) (dm_Seq d + 1) (dm_Alive d) (dm_Deaf d) (dm_Writes d));
  out_CancelAuthorizationAdmission bytes := fun d => (Ok (Some (mkCancelResult true None None)), d);
  out_CreateSession backend q := fun d =>
    (Ok (mkRunnerCreateResult "runner-1" "{}"),
     mkdemo (dm_State d) (dm_Reserved d) (dm_Units d) (dm_Seq d) true (dm_Deaf d) (dm_Writes d));
  out_QuerySession backend id := fun d => (if dm_Alive d then Ok tt else Err ErrRunnerSessionGone, d);
  out_TerminateSession backend id reason := fun d =>
    match dm_Deaf d with
    | O => (Ok tt, mkdemo (dm_State d) (dm_Reserved d) (dm_Units d) (dm_Seq d) false O (dm_Writes d))
    | S n => (Err (RunnerErr "timeout"), mkdemo (dm_State d) (dm_Reserved d) (dm_Units d) (dm_Seq d) (dm_Alive d) n (dm_Writes d))
    end;
  out_ReconcileSessionCreate backend := None;
  out_AcquireCapacity := None;
  out_ReleaseCapacity ref d := d;
  out_BindWork auth request spec := fun d => (Ok tt, d);
  out_Write d :=
    match dm_Writes d with
    | [] => (true, d)
    | w :: ws => (w, mkdemo (dm_State d) (dm_Reserved d) (dm_Units d) (dm_Seq d) (dm_Alive d) (dm_Deaf d) ws)
    end;
|}.

(** ** The wire *)
Definition demo_payload : SpendAuthorizationPayload :=
  mkPayload "domain" "payer" "payee" "auth-1" "request" "gateway" "" "cap" "offer"
    (Some (mkAcceptedPrice (Some (decimalBytes "2")) 1 "unit" "cap" "offer" None)) (decimalBytes "200") 100 "" "" "" "" 0 "" "" 0 "" "domain"
    "account".
#[export] Instance demo_auth : AuthWire := {|
  unmarshal_auth wire := if bool_decide (wire = "auth") then Some (mkSpendAuthorization (Some demo_payload) "sig") else None;
  unmarshal_partial _ := mkSpendAuthorization None "";
  marshal_payload _ := None; marshal_auth _ := None; parse_time s := None; format_time t := GoBytes.dec_string t
|}.
(** Of a statement: the units, the value, what was released. *)
#[export] Instance demo_settlements : SettlementWire := {|
  marshal_settlement st := Some (st_State st +:+ ":" +:+ GoBytes.dec_string (st_DebitedUnits st) +:+ ":" +:+
    GoBytes.dec_string (GoBytes.be_Z (st_BilledValueWei st)) +:+ ":" +:+ GoBytes.dec_string (GoBytes.be_Z (default "" (st_ReleasedValueWei st))));
  unmarshal_settlement _ := None
|}.
#[export] Instance demo_revisions : RevisionWire := {| marshal_revision _ := Some "revision" |}.
#[export] Instance demo_json : RuntimeJSON := {|
  json_keys _ := Some [];
  decode_descriptor _ := Some (mkDescriptor "demo/v1" "{}" "" []);
  encode_replay credential grants := Some credential;
  decode_replay raw := Some (raw, [])
|}.

(** ** A broker with one offering *)
Definition demo_spec : OfferingSpec := mkOfferingSpec "cap" "offer" "backend" "unit" (Some 2) 1 "demo/v1" 0 0 0 0 "" 10.
Definition demo_config : Config := mkConfig 1000 (fun _ => Some demo_spec) 0 "".
Definition demo_request : OpenRequest := mkOpenRequest "request" "gateway" "" "payment" "auth" (Some 200) None (Some demo_spec) "".
Definition demo_drawn : Drawn := mkDrawn "session-1" "credential" "token".
Definition demo_event (n units : Z) : Event := mkEvent "event" n "usage" "unit" (Some units) "" NoDetails.

Definition demo_start (deaf : nat) : EngineState (gmap string) demo :=
  mkEngineState new_session_db (mkdemo 0 0 0 0 false deaf []) [].
Definition demo_opened (deaf : nat) : EngineState (gmap string) demo := (SessionOpen.Open demo_config demo_request demo_drawn (demo_start deaf)).2.

(** ** A session of the demo *)
Lemma demo_caps wire p sig : unmarshal_auth wire = Some (mkSpendAuthorization (Some p) sig) -> 0 <= py_MaxTotalUnits p.
Proof. cbn. case_bool_decide; [|done]. by intros [= <- _]. Qed.
Lemma demo_well_formed deaf : well_formed (en_Store (demo_opened deaf)).
Proof.
  assert (Hw : well_formed (en_Store (demo_start deaf))) by (split; intros k x; discriminate).
  change (demo_opened deaf) with (run_call demo_config (CallOpen demo_request demo_drawn) (demo_start deaf)).
  by apply (step_accounted demo_caps (demo_start deaf)); [apply step_call|].
Qed.

Definition demo_call (c : call) (s : EngineState (gmap string) demo) : EngineState (gmap string) demo := run_call demo_config c s.
Lemma demo_life c id s s' :
  call_ok c -> life id s s' -> is_Some (sd_sessions (en_Store (demo_call c s')) !! id) -> life id s (demo_call c s').
Proof. intros Hc Hl Hs. apply (life_step id s s' _ Hl); [by apply (step_call demo_config c)|done]. Qed.
Lemma demo_event_ok n units : bool_decide (0 <= units < two64) = true -> call_ok (CallEvent "session-1" (demo_event n units)).
Proof. intros Hu%bool_decide_eq_true. exact Hu. Qed.
(** 30 units, then 150 of the 100 that are authorized. *)
Definition demo_used : EngineState (gmap string) demo := demo_call (CallEvent "session-1" (demo_event 1 30)) (demo_opened 0).
Definition demo_over : EngineState (gmap string) demo := demo_call (CallEvent "session-1" (demo_event 2 150)) demo_used.
Definition demo_record (s : EngineState (gmap string) demo) : SessionRecord :=
  default zero_session (sd_sessions (en_Store s) !! "session-1").

Lemma session_life_witness :
  sd_sessions (en_Store (demo_opened 0)) !! "session-1" = Some (demo_record (demo_opened 0)) /\
  (exists r', sd_sessions (en_Store demo_over) !! "session-1" = Some r' /\ later (demo_record (demo_opened 0)) r' /\ good "session-1" r') /\
  se_State (demo_record (demo_opened 0)) = "active" /\ se_State (demo_record demo_over) = "ended" /\
  (se_ClaimedTotal (demo_record demo_over), se_DebitedTotal (demo_record demo_over)) = (150, 100).
Proof.
  assert (Hr : sd_sessions (en_Store (demo_opened 0)) !! "session-1" = Some (demo_record (demo_opened 0))) by by vm_compute.
  split; [exact Hr|]. split; [|split_and!; vm_compute; reflexivity].
  apply (session_life "session-1" (demo_opened 0) demo_over (demo_record (demo_opened 0)) demo_caps (demo_well_formed 0)); [|exact Hr].
  change demo_over with (demo_call (CallEvent "session-1" (demo_event 2 150)) demo_used).
  apply demo_life; [by apply demo_event_ok| |vm_compute; eexists; reflexivity].
  change demo_used with (demo_call (CallEvent "session-1" (demo_event 1 30)) (demo_opened 0)).
  apply demo_life; [by apply demo_event_ok|apply life_here|vm_compute; eexists; reflexivity].
Defined.

(** The first event comes again, with another total, after the gateway asked for a statement. *)
Definition demo_asked : EngineState (gmap string) demo := demo_call (CallSettlement "session-1") demo_used.
Definition demo_again := ProcessEvent demo_config "session-1" (demo_event 1 40) demo_asked.
Lemma outcome_of {S E A} (m : result E A * S) a : m.1 = Ok a -> m = (Ok a, m.2).
Proof. destruct m as [? s]. cbn. by intros ->. Qed.

Lemma event_counted_once_witness :
  (ProcessEvent demo_config "session-1" (demo_event 1 30) (demo_opened 0)).1 = Ok (mkEventOutcome false 30 false "") /\
  demo_again.1 = Ok duplicate /\ demo_again.2 = demo_asked.
Proof.
  assert (E1 : (ProcessEvent demo_config "session-1" (demo_event 1 30) (demo_opened 0)).1 = Ok (mkEventOutcome false 30 false "")).
  { vm_compute. reflexivity. }
  assert (E3 : demo_again.1 = Ok duplicate) by (vm_compute; reflexivity).
  split; [exact E1|]. split; [exact E3|].
  refine (proj2 (event_counted_once demo_config demo_config "session-1" (demo_event 1 30) (demo_event 1 40) (demo_opened 0)
    (ProcessEvent demo_config "session-1" (demo_event 1 30) (demo_opened 0)).2 demo_asked demo_again.2 (mkEventOutcome false 30 false "") duplicate
    demo_caps (demo_well_formed 0) (demo_event_ok 1 30 eq_refl) (outcome_of _ _ E1) _ _ (outcome_of _ _ E3)) (demo_record demo_asked) _ _).
  - change demo_asked with (demo_call (CallSettlement "session-1") demo_used).
    apply demo_life; [exact I|apply life_here|vm_compute; eexists; reflexivity].
  - reflexivity.
  - vm_compute. reflexivity.
  - vm_compute. reflexivity.
Defined.

(** The demo does its part when its runner is not deaf and its disk sound. *)
Definition demo_up (settled : bool) (d : demo) : Prop :=
  dm_Deaf d = O /\ dm_Writes d = [] /\ if settled then True else demo_status d = mkAuthorizationStatus ADMITTED (Some 140) (Some 60) 30 1.
Lemma demo_cooperates r : cooperates demo_up r (mkAuthorizationStatus ADMITTED (Some 140) (Some 60) 30 1) 140.
Proof.
  split.
  - intros b o (Hd & Hw & Hu). exists o. split; [cbn; by rewrite Hw|done].
  - done.
  - intros b reason o (Hd & Hw & Hu). cbn. rewrite Hd. eexists _, _. split; [done|]. split; [by left|by destruct b].
  - intros o (Hd & Hw & Hu). exists o. cbn. by rewrite Hu.
  - intros o (Hd & Hw & Hu). cbn. unfold demo_status in Hu. injection Hu as Hs Hr Hb Hn Hq. rewrite Hb, Hr. eexists. split; [done|].
    by split.
Qed.

Lemma winddown_settles_witness :
  exists x, sd_sessions (en_Store (winddownLocked demo_config "session-1" ReasonGatewayClose demo_used).2) !! "session-1" = Some x /\
    settled (mkAuthorizationStatus ADMITTED (Some 140) (Some 60) 30 1) 140 (demo_record demo_used) x /\
    se_TerminalSettlement x = "closed:30:60:140".
Proof.
  destruct (winddown_settles demo_config "session-1" ReasonGatewayClose demo_used (demo_record demo_used)
    (mkAuthorizationStatus ADMITTED (Some 140) (Some 60) 30 1) 140 demo_up) as (x & Hx & Hs).
  - intros st. by eexists.
  - split; [reflexivity|vm_compute; reflexivity|vm_compute; reflexivity|vm_compute; reflexivity|vm_compute; discriminate|
      vm_compute; reflexivity|left; vm_compute; split; [reflexivity|discriminate]|vm_compute; eexists; reflexivity|
      vm_compute; reflexivity|vm_compute; discriminate].
  - apply demo_cooperates.
  - vm_compute. reflexivity.
  - split; [|split]; vm_compute; reflexivity.
  - exists x. split; [exact Hx|]. split; [exact Hs|].
    assert (Hv : se_TerminalSettlement <$> Some x = Some "closed:30:60:140") by (rewrite <- Hx; vm_compute; reflexivity).
    by injection Hv.
Defined.

(** The runner ignores the end twice: 140 are released, then forgotten, and the
    statement that is signed says so. *)
Definition demo_deaf : EngineState (gmap string) demo := demo_call (CallEvent "session-1" (demo_event 1 30)) (demo_opened 2).
Definition demo_first : EngineState (gmap string) demo := (winddownLocked demo_config "session-1" ReasonGatewayClose demo_deaf).2.
Definition demo_second : EngineState (gmap string) demo := (winddownLocked demo_config "session-1" ReasonGatewayClose demo_first).2.
Definition demo_third : EngineState (gmap string) demo := (winddownLocked demo_config "session-1" ReasonGatewayClose demo_second).2.
Lemma released_value_lost_witness :
  se_AuthorizationReleasedWei (demo_record demo_first) = "140" /\
  (exists r', sd_sessions (en_Store demo_second) !! "session-1" = Some r' /\
    Terminal r' = false /\ se_PaymentClosed r' = true /\ se_AuthorizationReleasedWei r' = "") /\
  se_TerminalSettlement (demo_record demo_third) = "closed:30:60:0" /\
  exists st, marshal_settlement st = Some "closed:30:60:0" /\ default "" (st_ReleasedValueWei st) = "".
Proof.
  split; [vm_compute; reflexivity|].
  destruct (released_value_lost demo_config "session-1" ReasonGatewayClose demo_first (demo_record demo_first) (RunnerErr "timeout")
    (out_TerminateSession "" "" "" (en_Outside demo_first)).2) as [(r' & Hr & Hrest) Hend].
  1-7: vm_compute; reflexivity.
  - intros why. vm_compute. reflexivity.
  - discriminate.
  - vm_compute. reflexivity.
  - split; [exists r'; split; [exact Hr|exact Hrest]|]. split; [vm_compute; reflexivity|].
    destruct (Hend [(demo_config, ReasonGatewayClose)] (demo_record demo_third)) as (st & Hst & Hz); [vm_compute; reflexivity..|].
    exists st. split; [|exact Hz]. etransitivity; [exact Hst|]. vm_compute. reflexivity.
Defined.
