(* ===== verification/PoolTypes.v ===== *)
(** * The data of the pool controller

    pool-controller/internal/types (receipts.go, regional.go, connected_pool.go,
    members.go, audit.go), the records of internal/repo that are stored, and the
    reports of pool-commons/revenue.  [PoolDB] has one field per bucket of the
    controller's database (repo/state.go, control_plane.go, receipts.go,
    regional.go, revenue_sources.go, regional_rounds.go,
    regional_window_accounting.go, regional_corrections.go) that accounting
    touches; a bucket created on first use is an [option].

    A zero time is [None]; a nil and an empty slice are the same empty list. *)
From S2P Require Import Prelude.
From S2P Require Import Bolt.
From S2P Require Import WorkLedger.

(** [ErrNotFound] and [ErrTermsNotAccepted] are the sentinels of internal/repo. *)
Inductive pool_error :=
  | PoolErr (msg : string)
  | ErrPoolNotFound
  | ErrTermsNotAccepted.
Abbreviation presult := (result pool_error).

(** go-ethereum's [common.IsHexAddress], and the checks of [net/url] on the URL
    of a source. *)
Class PoolWire := {
  IsHexAddress : string -> bool;
  https_origin : string -> bool;
}.

(** ** Receipts *)
Record WorkReceipt := mkWorkReceipt {
  pw_TermsVersion : string;
  pw_PoolID : string;
  pw_SourceID : string;
  pw_ID : string;
  pw_CreatedAt : option Z;
  pw_RoundID : string;
  pw_RequestID : string;
  pw_CapabilityID : string;
  pw_OfferingID : string;
  pw_MemberEthAddress : string;
  pw_BackendID : string;
  pw_HostEnrollmentID : string;
  pw_HardwareUnitID : string;
  pw_GPUUUID : string;
  pw_TemplateID : string;
  pw_ExpectedMaxUnits : Z;
  pw_ActualUnits : Z;
  pw_AcceptedWorkUnits : Z;
  pw_GatewayRevenueWei : string;
  pw_AttributedRevenueWei : string;
  pw_Status : string;
}.
#[export] Instance WorkReceipt_eq_dec : EqDecision WorkReceipt.
Proof. solve_decision. Defined.
#[export] Instance WorkReceipt_eta : Eta WorkReceipt := fun r =>
  mkWorkReceipt (pw_TermsVersion r) (pw_PoolID r) (pw_SourceID r) (pw_ID r) (pw_CreatedAt r) (pw_RoundID r) (pw_RequestID r)
    (pw_CapabilityID r) (pw_OfferingID r) (pw_MemberEthAddress r) (pw_BackendID r) (pw_HostEnrollmentID r) (pw_HardwareUnitID r)
    (pw_GPUUUID r) (pw_TemplateID r) (pw_ExpectedMaxUnits r) (pw_ActualUnits r) (pw_AcceptedWorkUnits r)
    (pw_GatewayRevenueWei r) (pw_AttributedRevenueWei r) (pw_Status r).

Record MemberRoundPayout := mkMemberRoundPayout {
  mp_MemberEthAddress : string;
  mp_ContributionWei : string;
  mp_SharePPM : Z;
  mp_PayoutWei : string;
}.
#[export] Instance MemberRoundPayout_eq_dec : EqDecision MemberRoundPayout.
Proof. solve_decision. Defined.

(** ** Receiver sources and their reports *)

(** [revenue.Source]; the two file names are never stored. *)
Record Source := mkSource {
  sr_PoolID : string;
  sr_SourceID : string;
  sr_BrokerID : string;
  sr_ChainID : Z;
  sr_Payee : string;
  sr_URL : string;
}.
#[export] Instance Source_eq_dec : EqDecision Source.
Proof. solve_decision. Defined.

(** [revenue.Report]. *)
Record Report := mkReport {
  rp_PoolID : string;
  rp_SourceID : string;
  rp_BrokerID : string;
  rp_ChainID : Z;
  rp_Payee : string;
  rp_Round : Z;
  rp_RevenueWei : string;
  rp_TicketCount : Z;
  rp_Complete : bool;
  rp_IncompleteReason : string;
  rp_ObservedHead : Z;
  rp_ObservedHeadHash : string;
  rp_FinalizedBlock : Z;
  rp_FinalizedBlockHash : string;
  rp_CompleteThroughRound : Z;
  rp_ObservedAt : option Z;
  rp_InclusionDigest : string;
}.
#[export] Instance Report_eq_dec : EqDecision Report.
Proof. solve_decision. Defined.
#[export] Instance Report_eta : Eta Report := fun r =>
  mkReport (rp_PoolID r) (rp_SourceID r) (rp_BrokerID r) (rp_ChainID r) (rp_Payee r) (rp_Round r) (rp_RevenueWei r)
    (rp_TicketCount r) (rp_Complete r) (rp_IncompleteReason r) (rp_ObservedHead r) (rp_ObservedHeadHash r) (rp_FinalizedBlock r)
    (rp_FinalizedBlockHash r) (rp_CompleteThroughRound r) (rp_ObservedAt r) (rp_InclusionDigest r).

#[export] Instance WorkReport_eq_dec : EqDecision WorkReport.
Proof. solve_decision. Defined.
#[export] Instance WorkReport_eta : Eta WorkReport := fun r =>
  mkWorkReport (wp_PoolID r) (wp_SourceID r) (wp_BrokerID r) (wp_Round r) (wp_Complete r) (wp_IncompleteReason r)
    (wp_ClosedThroughRound r) (wp_ReceiptCount r) (wp_ReceiptDigest r) (wp_ObservedAt r).
#[export] Instance Policy_eq_dec : EqDecision Policy.
Proof. solve_decision. Defined.

(** [revenue.DrainReport]. *)
Record DrainReport := mkDrainReport {
  dr_PoolID : string;
  dr_SourceID : string;
  dr_BrokerID : string;
  dr_ChainID : Z;
  dr_Payee : string;
  dr_Draining : bool;
  dr_Frozen : bool;
  dr_FrozenAt : option Z;
  dr_Complete : bool;
  dr_IncompleteReason : string;
  dr_ActiveAuthorizations : Z;
  dr_PendingRedemptions : Z;
  dr_PendingOperations : Z;
  dr_UndeliveredReceipts : Z;
  dr_LastReceiptRound : Z;
  dr_LastRedemptionRound : Z;
  dr_CompleteThroughRound : Z;
  dr_ObservedAt : option Z;
}.

Record SourceTransition := mkSourceTransition {
  tr_Action : string;
  tr_Actor : string;
  tr_Reason : string;
  tr_Round : Z;
  tr_At : Z;
}.

Record RevenueSource := mkRevenueSource {
  rs_RetirementProof : option DrainReport;
  rs_History : list SourceTransition;
  rs_Source : Source;
  rs_StartRound : Z;
  rs_StopAcceptingRound : option Z;
  rs_RetiredAfterRound : option Z;
  rs_State : string;
  rs_CreatedAt : Z;
  rs_UpdatedAt : Z;
  rs_AuditReason : string;
}.
#[export] Instance RevenueSource_eta : Eta RevenueSource := fun r =>
  mkRevenueSource (rs_RetirementProof r) (rs_History r) (rs_Source r) (rs_StartRound r) (rs_StopAcceptingRound r)
    (rs_RetiredAfterRound r) (rs_State r) (rs_CreatedAt r) (rs_UpdatedAt r) (rs_AuditReason r).

(** ** Rounds *)
Record RoundReceipt := mkRoundReceipt {
  rr_PoolID : string;
  rr_RevenueReports : list Report;
  rr_WorkReports : list WorkReport;
  rr_ReceiptSnapshot : string;
  rr_ID : string;
  rr_CreatedAt : option Z;
  rr_RoundID : string;
  rr_PoolRevenueWei : string;
  rr_PoolCutWei : string;
  rr_DistributableWei : string;
  rr_IncludedWorkReceiptIDs : list string;
  rr_MemberPayouts : list MemberRoundPayout;
}.
#[export] Instance RoundReceipt_eq_dec : EqDecision RoundReceipt.
Proof. solve_decision. Defined.
#[export] Instance RoundReceipt_eta : Eta RoundReceipt := fun r =>
  mkRoundReceipt (rr_PoolID r) (rr_RevenueReports r) (rr_WorkReports r) (rr_ReceiptSnapshot r) (rr_ID r) (rr_CreatedAt r)
    (rr_RoundID r) (rr_PoolRevenueWei r) (rr_PoolCutWei r) (rr_DistributableWei r) (rr_IncludedWorkReceiptIDs r)
    (rr_MemberPayouts r).

Record RegionalCorrectionHold := mkRegionalCorrectionHold {
  ch_ID : string;
  ch_PoolID : string;
  ch_RoundID : string;
  ch_Reason : string;
  ch_DetectedAt : Z;
  ch_Accepted : RoundReceipt;
  ch_Conflicting : RoundReceipt;
}.

(** ** Regional terms *)
Record RegionalTerms := mkRegionalTerms {
  rt_PoolID : string;
  rt_Version : string;
  rt_EffectiveRound : Z;
  rt_WindowRounds : Z;
  rt_CommissionBPS : Z;
  rt_ParticipationRules : string;
  rt_ZeroWorkToOperator : bool;
  rt_RoundingToOperator : bool;
  rt_CreatedAt : option Z;
}.
#[export] Instance RegionalTerms_eq_dec : EqDecision RegionalTerms.
Proof. solve_decision. Defined.
#[export] Instance RegionalTerms_eta : Eta RegionalTerms := fun r =>
  mkRegionalTerms (rt_PoolID r) (rt_Version r) (rt_EffectiveRound r) (rt_WindowRounds r) (rt_CommissionBPS r)
    (rt_ParticipationRules r) (rt_ZeroWorkToOperator r) (rt_RoundingToOperator r) (rt_CreatedAt r).

Record TermsAcceptance := mkTermsAcceptance {
  ta_PoolID : string;
  ta_MemberEthAddress : string;
  ta_TermsVersion : string;
  ta_AcceptedAt : option Z;
}.

Record TermsPublicationTarget := mkTermsPublicationTarget {
  tt_Source : Source;
  tt_Phase : string;
  tt_ExpectedRevision : Z;
  tt_Policy : Policy;
}.
#[export] Instance TermsPublicationTarget_eq_dec : EqDecision TermsPublicationTarget.
Proof. solve_decision. Defined.

Record TermsPublication := mkTermsPublication {
  tp_SupersedesVersion : string;
  tp_SupersededBy : string;
  tp_Terms : RegionalTerms;
  tp_Actor : string;
  tp_Reason : string;
  tp_State : string;
  tp_Targets : list TermsPublicationTarget;
  tp_LastError : string;
  tp_CreatedAt : option Z;
  tp_UpdatedAt : option Z;
}.
#[export] Instance TermsPublication_eq_dec : EqDecision TermsPublication.
Proof. solve_decision. Defined.
#[export] Instance TermsPublication_eta : Eta TermsPublication := fun r =>
  mkTermsPublication (tp_SupersedesVersion r) (tp_SupersededBy r) (tp_Terms r) (tp_Actor r) (tp_Reason r) (tp_State r)
    (tp_Targets r) (tp_LastError r) (tp_CreatedAt r) (tp_UpdatedAt r).

(** ** Windows, batches and intents *)
Record PayoutLineItem := mkPayoutLineItem {
  li_MemberEthAddress : string;
  li_DestinationAddress : string;
  li_CapabilityID : string;
  li_OfferingID : string;
  li_AttributedRevenueWei : string;
  li_AmountWei : string;
  li_AdjustmentReason : string;
}.
#[export] Instance PayoutLineItem_eq_dec : EqDecision PayoutLineItem.
Proof. solve_decision. Defined.

Record RegionalAllocation := mkRegionalAllocation {
  al_RevenueWei : string;
  al_BilledWeightWei : string;
  al_CommissionWei : string;
  al_MemberPotWei : string;
  al_MemberPayoutWei : string;
  al_RoundingResidualWei : string;
  al_ZeroWorkOperatorWei : string;
  al_Members : list PayoutLineItem;
}.
#[export] Instance RegionalAllocation_eq_dec : EqDecision RegionalAllocation.
Proof. solve_decision. Defined.
#[export] Instance RegionalAllocation_eta : Eta RegionalAllocation := fun r =>
  mkRegionalAllocation (al_RevenueWei r) (al_BilledWeightWei r) (al_CommissionWei r) (al_MemberPotWei r) (al_MemberPayoutWei r)
    (al_RoundingResidualWei r) (al_ZeroWorkOperatorWei r) (al_Members r).

Record OfferingSettlement := mkOfferingSettlement {
  os_CapabilityID : string;
  os_OfferingID : string;
  os_AttributedRevenueWei : string;
  os_SettlementRevenueWei : string;
  os_CommissionWei : string;
  os_DistributableRevenueWei : string;
}.
#[export] Instance OfferingSettlement_eq_dec : EqDecision OfferingSettlement.
Proof. solve_decision. Defined.

Record SettlementWindow := mkSettlementWindow {
  sw_ChainID : Z;
  sw_PoolID : string;
  sw_TermsVersion : string;
  sw_CommissionBPS : Z;
  sw_RegionalAllocation : option RegionalAllocation;
  sw_ID : string;
  sw_StartRoundID : string;
  sw_EndRoundID : string;
  sw_LengthRounds : Z;
  sw_Status : string;
  sw_AttributedRevenueWei : string;
  sw_ConfirmedRevenueWei : string;
  sw_SettlementScalePPM : Z;
  sw_Anomaly : string;
  sw_IncludedRoundReceiptIDs : list string;
  sw_OfferingSettlementLineItem : list OfferingSettlement;
  sw_CreatedAt : option Z;
  sw_UpdatedAt : option Z;
  sw_ClosedAt : option Z;
  sw_ApprovedAt : option Z;
}.
#[export] Instance SettlementWindow_eq_dec : EqDecision SettlementWindow.
Proof. solve_decision. Defined.
#[export] Instance SettlementWindow_eta : Eta SettlementWindow := fun r =>
  mkSettlementWindow (sw_ChainID r) (sw_PoolID r) (sw_TermsVersion r) (sw_CommissionBPS r) (sw_RegionalAllocation r) (sw_ID r)
    (sw_StartRoundID r) (sw_EndRoundID r) (sw_LengthRounds r) (sw_Status r) (sw_AttributedRevenueWei r) (sw_ConfirmedRevenueWei r)
    (sw_SettlementScalePPM r) (sw_Anomaly r) (sw_IncludedRoundReceiptIDs r) (sw_OfferingSettlementLineItem r) (sw_CreatedAt r)
    (sw_UpdatedAt r) (sw_ClosedAt r) (sw_ApprovedAt r).

Record PayoutBatch := mkPayoutBatch {
  pb_PoolID : string;
  pb_ID : string;
  pb_SettlementWindowID : string;
  pb_Status : string;
  pb_TotalAmountWei : string;
  pb_LineItems : list PayoutLineItem;
  pb_ApprovedBy : string;
  pb_ApprovedAt : option Z;
  pb_SubmittedAt : option Z;
  pb_PaidAt : option Z;
  pb_FailureReason : string;
  pb_CreatedAt : option Z;
  pb_UpdatedAt : option Z;
}.
#[export] Instance PayoutBatch_eq_dec : EqDecision PayoutBatch.
Proof. solve_decision. Defined.
#[export] Instance PayoutBatch_eta : Eta PayoutBatch := fun r =>
  mkPayoutBatch (pb_PoolID r) (pb_ID r) (pb_SettlementWindowID r) (pb_Status r) (pb_TotalAmountWei r) (pb_LineItems r)
    (pb_ApprovedBy r) (pb_ApprovedAt r) (pb_SubmittedAt r) (pb_PaidAt r) (pb_FailureReason r) (pb_CreatedAt r) (pb_UpdatedAt r).

Record PayoutIntent := mkPayoutIntent {
  pi_Revision : Z;
  pi_PoolID : string;
  pi_PayoutBatchID : string;
  pi_ID : string;
  pi_CreatedAt : option Z;
  pi_RoundReceiptID : string;
  pi_RoundID : string;
  pi_MemberEthAddress : string;
  pi_DestinationAddress : string;
  pi_ChainID : Z;
  pi_Asset : string;
  pi_AmountWei : string;
  pi_Status : string;
  pi_ExportedAt : option Z;
  pi_LeasedAt : option Z;
  pi_LeaseID : string;
  pi_LeaseOwner : string;
  pi_LeaseExpiresAt : option Z;
  pi_SubmittedAt : option Z;
  pi_PaidAt : option Z;
  pi_FailedAt : option Z;
  pi_RetryCount : Z;
  pi_LastRequeuedAt : option Z;
  pi_ExternalRef : string;
  pi_TxHash : string;
  pi_FailureReason : string;
}.
#[export] Instance PayoutIntent_eq_dec : EqDecision PayoutIntent.
Proof. solve_decision. Defined.
#[export] Instance PayoutIntent_eta : Eta PayoutIntent := fun r =>
  mkPayoutIntent (pi_Revision r) (pi_PoolID r) (pi_PayoutBatchID r) (pi_ID r) (pi_CreatedAt r) (pi_RoundReceiptID r) (pi_RoundID r)
    (pi_MemberEthAddress r) (pi_DestinationAddress r) (pi_ChainID r) (pi_Asset r) (pi_AmountWei r) (pi_Status r) (pi_ExportedAt r)
    (pi_LeasedAt r) (pi_LeaseID r) (pi_LeaseOwner r) (pi_LeaseExpiresAt r) (pi_SubmittedAt r) (pi_PaidAt r) (pi_FailedAt r)
    (pi_RetryCount r) (pi_LastRequeuedAt r) (pi_ExternalRef r) (pi_TxHash r) (pi_FailureReason r).

Record RegionalWindowHold := mkRegionalWindowHold {
  wh_StartRound : Z;
  wh_Reason : string;
  wh_ObservedAt : Z;
}.

Record RegionalAccountingSummary := mkRegionalAccountingSummary {
  as_PoolID : string;
  as_CompletedWindows : Z;
  as_ZeroWorkRevenueWindows : Z;
  as_ConfirmedRevenueWei : string;
  as_ZeroWorkOperatorWei : string;
  as_CommissionWei : string;
  as_RoundingResidualWei : string;
  as_MemberPayoutWei : string;
}.

(** ** Members, enrollments and audit *)
Record PoolMember := mkPoolMember {
  pm_PoolID : string;
  pm_ID : string;
  pm_EthAddress : string;
  pm_DisplayName : string;
  pm_Contact : string;
  pm_PayoutMode : string;
  pm_Status : string;
  pm_CreatedAt : option Z;
  pm_UpdatedAt : option Z;
}.

Record HostEnrollment := mkHostEnrollment {
  he_GPUUUIDs : list string;
  he_CredentialGeneration : Z;
  he_TermsVersion : string;
  he_PoolID : string;
  he_DeviceOwnership : gmap string Z;
  he_ID : string;
  he_MemberEthAddress : string;
  he_HostLabel : string;
  he_EnrollmentTokenHash : string;
  he_BrokerSessionCredential : string;
  he_Status : string;
  he_LastSeenAt : option Z;
  he_RevokedAt : option Z;
  he_RevocationReason : string;
  he_CreatedAt : option Z;
  he_UpdatedAt : option Z;
}.
#[export] Instance HostEnrollment_eta : Eta HostEnrollment := fun r =>
  mkHostEnrollment (he_GPUUUIDs r) (he_CredentialGeneration r) (he_TermsVersion r) (he_PoolID r) (he_DeviceOwnership r) (he_ID r)
    (he_MemberEthAddress r) (he_HostLabel r) (he_EnrollmentTokenHash r) (he_BrokerSessionCredential r) (he_Status r)
    (he_LastSeenAt r) (he_RevokedAt r) (he_RevocationReason r) (he_CreatedAt r) (he_UpdatedAt r).

(** The values an audit event's details hold. *)
Inductive detail :=
  | DString (s : string)
  | DInt (n : Z)
  | DBool (b : bool).
Record AuditEvent := mkAuditEvent {
  ae_ID : string;
  ae_Kind : string;
  ae_OccurredAt : option Z;
  ae_Actor : string;
  ae_ResourceID : string;
  ae_ResourceType : string;
  ae_Details : list (string * detail);
}.
#[export] Instance AuditEvent_eta : Eta AuditEvent := fun r =>
  mkAuditEvent (ae_ID r) (ae_Kind r) (ae_OccurredAt r) (ae_Actor r) (ae_ResourceID r) (ae_ResourceType r) (ae_Details r).

(** ** The database *)
Record PoolDB (M : Type -> Type) := mkPoolDB {
  pd_pool_id : option string;
  pd_terms : M RegionalTerms;
  pd_acceptance : M TermsAcceptance;
  pd_publications : M TermsPublication;
  pd_window_holds : M RegionalWindowHold;
  pd_sources : option (M RevenueSource);
  pd_round_numbers : option (M string);
  pd_window_numbers : option (M string);
  pd_corrections : option (M RegionalCorrectionHold);
  pd_work_receipts : M WorkReceipt;
  pd_round_receipts : M RoundReceipt;
  pd_intents : M PayoutIntent;
  pd_windows : M SettlementWindow;
  pd_batches : M PayoutBatch;
  pd_members : M PoolMember;
  pd_enrollments : M HostEnrollment;
  pd_audit : M AuditEvent;
}.
Arguments mkPoolDB {M}.
Arguments pd_pool_id {M}.
Arguments pd_terms {M}.
Arguments pd_acceptance {M}.
Arguments pd_publications {M}.
Arguments pd_window_holds {M}.
Arguments pd_sources {M}.
Arguments pd_round_numbers {M}.
Arguments pd_window_numbers {M}.
Arguments pd_corrections {M}.
Arguments pd_work_receipts {M}.
Arguments pd_round_receipts {M}.
Arguments pd_intents {M}.
Arguments pd_windows {M}.
Arguments pd_batches {M}.
Arguments pd_members {M}.
Arguments pd_enrollments {M}.
Arguments pd_audit {M}.

#[export] Instance PoolDB_eta {M} : Eta (PoolDB M) := fun d =>
  mkPoolDB (pd_pool_id d) (pd_terms d) (pd_acceptance d) (pd_publications d) (pd_window_holds d) (pd_sources d)
    (pd_round_numbers d) (pd_window_numbers d) (pd_corrections d) (pd_work_receipts d) (pd_round_receipts d) (pd_intents d)
    (pd_windows d) (pd_batches d) (pd_members d) (pd_enrollments d) (pd_audit d).
