(* ===== verification/PoolAccounting.v ===== *)
(** * What each member of a window is paid

    pool-controller/internal/accounting/modelb.go: the revenue of a window less
    the commission is divided among the members in proportion to what their work
    billed.  [allocated] says what every amount is: nothing is lost or made, and
    fewer wei than there are members stay behind as rounding. *)
From S2P Require Import Prelude.
From S2P Require Import GoBytes.
From S2P Require Import Bolt.
From S2P Require Import ChainErrors.
From S2P Require Import PoolTypes.

#[local] Open Scope record_scope.

Definition Wei (raw : string) : presult Z :=
  match SetString10 raw with
  | Some n => if (n <? 0) || negb (bool_decide (dec_string n = raw)) then Err (PoolErr "noncanonical nonnegative wei amount") else Ok n
  | None => Err (PoolErr "noncanonical nonnegative wei amount")
  end.

Section allocation.
Context `{PoolWire}.
Implicit Types (r : WorkReceipt).

(** A receipt that may be paid for. *)
Definition attributed (pool : string) r : bool :=
  bool_decide (pw_PoolID r = pool) && negb (bool_decide (pw_SourceID r = "")) && negb (bool_decide (pw_ID r = "")) &&
  hasPrefix (pw_ID r) (pw_SourceID r +:+ "/") && bool_decide (pw_Status r = "final") && IsHexAddress (pw_MemberEthAddress r) &&
  negb (bool_decide (pw_OfferingID r = "")) && negb (bool_decide (pw_BackendID r = "")).

(** The loop over the receipts. *)
Record weighing := mkweighing {
  wg_total : Z;
  wg_weights : gmap string Z;
  wg_seen : gset string;
}.
Fixpoint weigh (pool : string) (receipts : list WorkReceipt) (g : weighing) : presult weighing :=
  match receipts with
  | [] => Ok g
  | r :: receipts =>
      if negb (attributed pool r) then Err (PoolErr "receipt lacks final regional attribution")
      else if bool_decide (pw_ID r ∈ wg_seen g) then Err (PoolErr "duplicate receipt")
      else
        let seen := {[pw_ID r]} ∪ wg_seen g in
        let! amount := Wei (pw_AttributedRevenueWei r) in
        if amount =? 0 then weigh pool receipts (mkweighing (wg_total g) (wg_weights g) seen)
        else
          let member := ToLower (pw_MemberEthAddress r) in
          let weight := default 0 (wg_weights g !! member) + amount in
          weigh pool receipts (mkweighing (wg_total g + amount) (<[member := weight]> (wg_weights g)) seen)
  end.

Definition share (pot total weight : Z) : Z := (pot * weight) `quot` total.
Definition member_line (pot total : Z) (mw : string * Z) : PayoutLineItem :=
  mkPayoutLineItem mw.1 mw.1 "" "" (dec_string mw.2) (dec_string (share pot total mw.2)) "".

Definition ModelB (poolID revenueWei : string) (commissionBPS : Z) (receipts : list WorkReceipt) : presult RegionalAllocation :=
  if bool_decide (poolID = "") || (10000 <? commissionBPS) then Err (PoolErr "invalid pool or commission")
  else
    let! revenue := Wei revenueWei in
    let! g := weigh poolID receipts (mkweighing 0 ∅ ∅) in
    let total := wg_total g in
    let out := mkRegionalAllocation (dec_string revenue) (dec_string total) "0" "0" "0" "0" "0" [] in
    if total =? 0 then Ok (out <| al_ZeroWorkOperatorWei := dec_string revenue |>)
    else
      let commission := (revenue * commissionBPS) `quot` 10000 in
      let pot := revenue - commission in
      let keys := ForEach (wg_weights g) in
      let paid := foldl (fun paid mw => paid + share pot total mw.2) 0 keys in
      Ok (mkRegionalAllocation (dec_string revenue) (dec_string total) (dec_string commission) (dec_string pot) (dec_string paid)
            (dec_string (pot - paid)) "0" (member_line pot total <$> keys)).

(** ** What the loop adds up *)
Definition billed_of r : Z := default 0 (SetString10 (pw_AttributedRevenueWei r)).
Definition sum_by {A} (f : A -> Z) (l : list A) : Z := foldr (fun x acc => f x + acc) 0 l.
(** What the work of one member, and of all, billed. *)
Definition billed_by (member : string) (receipts : list WorkReceipt) : Z :=
  sum_by (fun r => if bool_decide (ToLower (pw_MemberEthAddress r) = member) then billed_of r else 0) receipts.
Definition billed (receipts : list WorkReceipt) : Z := sum_by billed_of receipts.

Record payable (pool : string) r : Prop := {
  pa_attributed : attributed pool r = true;
  pa_wei : exists n, 0 <= n /\ pw_AttributedRevenueWei r = dec_string n;
}.
Definition payables (pool : string) (receipts : list WorkReceipt) : Prop :=
  Forall (payable pool) receipts /\ NoDup (pw_ID <$> receipts).

Lemma Wei_ok raw n : Wei raw = Ok n <-> 0 <= n /\ raw = dec_string n.
Proof.
  unfold Wei. split.
  - destruct (SetString10 raw) as [m|] eqn:E; [|done]. destruct (_ || _) eqn:Eb; [done|]. intros [= ->]. to_prop. split; [lia|done].
  - intros [Hn ->]. rewrite SetString10_dec. destruct (Z.ltb_spec n 0); [lia|]. by rewrite bool_decide_true.
Qed.
Lemma Wei_dec n : 0 <= n -> Wei (dec_string n) = Ok n.
Proof. intros Hn. by apply Wei_ok. Qed.

Lemma sum_by_perm {A} (f : A -> Z) l l' : l ≡ₚ l' -> sum_by f l = sum_by f l'.
Proof. induction 1; simpl; lia. Qed.
#[export] Instance sum_by_proper {A} (f : A -> Z) : Proper ((≡ₚ) ==> (=)) (sum_by f).
Proof. intros l l'. apply sum_by_perm. Qed.
Lemma sum_by_app {A} (f : A -> Z) l l' : sum_by f (l ++ l') = sum_by f l + sum_by f l'.
Proof. induction l as [|x l IH]; simpl; [done|]. unfold sum_by in *. simpl. lia. Qed.
Lemma sum_by_ext_in {A} (f g : A -> Z) l : (forall x, x ∈ l -> f x = g x) -> sum_by f l = sum_by g l.
Proof.
  induction l as [|x l IH]; intros Hfg; simpl; [done|]. rewrite (Hfg x) by left.
  rewrite (IH (fun y Hy => Hfg y (list_elem_of_further _ _ _ Hy))). done.
Qed.
Lemma sum_by_nonneg {A} (f : A -> Z) l : Forall (fun x => 0 <= f x) l -> 0 <= sum_by f l.
Proof. induction 1; simpl; lia. Qed.
Lemma sum_by_foldl {A} (f : A -> Z) l n : foldl (fun acc x => acc + f x) n l = n + sum_by f l.
Proof. revert n. induction l as [|x l IH]; intros n; simpl; [lia|]. rewrite IH. lia. Qed.
Lemma sum_by_msum (f : string -> Z -> Z) (m : gmap string Z) : sum_by (fun kx => f kx.1 kx.2) (ForEach m) = msum f m.
Proof. symmetry. apply (msum_list f m (ForEach m)). exact (ForEach_perm m). Qed.

Lemma payable_billed pool r : payable pool r -> 0 <= billed_of r /\ Wei (pw_AttributedRevenueWei r) = Ok (billed_of r).
Proof. intros [_ (n & Hn & E)]. unfold billed_of. rewrite E, SetString10_dec. split; [done|by apply Wei_dec]. Qed.

Record weighed (g : weighing) (receipts : list WorkReceipt) (g' : weighing) : Prop := {
  wd_total : wg_total g' = wg_total g + billed receipts;
  wd_weight : forall m, default 0 (wg_weights g' !! m) = default 0 (wg_weights g !! m) + billed_by m receipts;
  wd_positive : forall m x, wg_weights g' !! m = Some x -> 0 < x;
  wd_sum : msum (fun _ x => x) (wg_weights g') = wg_total g';
}.

Definition weights_good (g : weighing) : Prop :=
  (forall m x, wg_weights g !! m = Some x -> 0 < x) /\ msum (fun _ x => x) (wg_weights g) = wg_total g.

(** The loop succeeds exactly on payable receipts, each new, and adds them up. *)
Lemma weigh_payable pool receipts g g' :
  weigh pool receipts g = Ok g' -> Forall (payable pool) receipts /\ NoDup (pw_ID <$> receipts) /\
  Forall (fun r => pw_ID r ∉ wg_seen g) receipts.
Proof.
  revert g. induction receipts as [|r receipts IH]; intros g Hw; simpl in Hw; [by split_and!; constructor|].
  destruct (attributed pool r) eqn:Ha; [|done]. simpl in Hw. case_bool_decide as Hs; [done|].
  destruct (Wei _) as [n|] eqn:En; [|done]. apply Wei_ok in En as [Hn En].
  assert (Hr : payable pool r) by (split; [done|by exists n]).
  assert (exists t w, weigh pool receipts (mkweighing t w ({[pw_ID r]} ∪ wg_seen g)) = Ok g') as (t & w & Hw').
  { destruct (n =? 0); eauto. }
  apply IH in Hw' as (Hp & Hd & Hs'). simpl in Hs'. rewrite Forall_forall in Hs'. split_and!.
  - by constructor.
  - apply NoDup_cons. split; [|done]. intros (r' & E & Hr')%list_elem_of_fmap. apply (Hs' r' Hr'). rewrite <- E. set_solver.
  - constructor; [done|]. apply Forall_forall. intros r' Hr'. specialize (Hs' r' Hr'). set_solver.
Qed.
Lemma weigh_ok pool receipts g :
  Forall (payable pool) receipts -> NoDup (pw_ID <$> receipts) -> Forall (fun r => pw_ID r ∉ wg_seen g) receipts ->
  weights_good g -> exists g', weigh pool receipts g = Ok g' /\ weighed g receipts g'.
Proof.
  revert g. induction receipts as [|r receipts IH]; intros g Hp Hd Hs [Hpos Hsum].
  - exists g. split; [done|]. split; [simpl; lia|simpl; lia|done|done].
  - inversion_clear Hp as [|? ? Hr Hp']. rewrite fmap_cons in Hd. apply NoDup_cons in Hd as [Hnew Hd'].
    inversion_clear Hs as [|? ? Hsr Hs']. destruct (payable_billed pool r Hr) as [Hn En]. simpl.
    rewrite (pa_attributed _ _ Hr), En. rewrite bool_decide_false by done. simpl.
    assert (Hs'' : Forall (fun r' => pw_ID r' ∉ ({[pw_ID r]} ∪ wg_seen g : gset string)) receipts).
    { rewrite Forall_forall in *. intros r' Hr'. specialize (Hs' r' Hr').
      assert (pw_ID r' <> pw_ID r); [|set_solver]. intros E. apply Hnew. rewrite <- E. by apply list_elem_of_fmap_2. }
    destruct (Z.eqb_spec (billed_of r) 0) as [Ez|Ez].
    + destruct (IH (mkweighing (wg_total g) (wg_weights g) ({[pw_ID r]} ∪ wg_seen g))) as (g' & Eg & [A B C D]); try done.
      exists g'. split; [done|]. split; [|intros m|done|done].
      * rewrite A. cbn [wg_total]. unfold billed. simpl. lia.
      * rewrite B. unfold billed_by. simpl. case_bool_decide; lia.
    + set (m0 := ToLower (pw_MemberEthAddress r)).
      destruct (IH (mkweighing (wg_total g + billed_of r) (<[m0 := default 0 (wg_weights g !! m0) + billed_of r]> (wg_weights g))
        ({[pw_ID r]} ∪ wg_seen g))) as (g' & Eg & [A B C D]); try done.
      { split; cbn [wg_weights wg_total].
        - intros m x. rewrite lookup_insert. case_decide; [|by apply Hpos]. intros [= <-].
          destruct (wg_weights g !! m0) as [y|] eqn:Ey; simpl; [apply Hpos in Ey|]; lia.
        - rewrite msum_insert, Hsum. destruct (wg_weights g !! m0); simpl; lia. }
      exists g'. split; [done|]. split; [|intros m|done|done].
      * rewrite A. cbn [wg_total]. unfold billed. simpl. lia.
      * rewrite B. cbn [wg_weights]. rewrite lookup_insert. unfold billed_by. simpl. fold m0.
        case_decide as Em; [subst m; rewrite bool_decide_true by done|rewrite bool_decide_false by done]; simpl; lia.
Qed.

Lemma weights_empty : weights_good (mkweighing 0 ∅ ∅).
Proof. split; [intros m x; simpl; by rewrite lookup_empty|exact (msum_empty _)]. Qed.
Lemma weigh_receipts pool receipts g :
  weigh pool receipts (mkweighing 0 ∅ ∅) = Ok g -> payables pool receipts /\ weighed (mkweighing 0 ∅ ∅) receipts g.
Proof.
  intros Hw. destruct (weigh_payable _ _ _ _ Hw) as (Hp & Hd & Hs).
  destruct (weigh_ok pool receipts (mkweighing 0 ∅ ∅) Hp Hd Hs weights_empty) as (g' & Eg & Hg). split; [done|congruence].
Qed.

(** ** Shares *)
Lemma share_bounds pot total weight :
  0 <= pot -> 0 < total -> 0 <= weight -> 0 <= pot * weight - total * share pot total weight < total.
Proof.
  intros Hp Ht Hw. unfold share. rewrite Z.quot_div_nonneg by nia.
  replace (_ - _) with ((pot * weight) mod total); [by apply Z.mod_pos_bound|]. rewrite Z.mod_eq; lia.
Qed.
Lemma share_nonneg pot total weight : 0 <= pot -> 0 < total -> 0 <= weight -> 0 <= share pot total weight.
Proof. intros. unfold share. apply Z.quot_pos; nia. Qed.

(** The remainders of the divisions: between zero and one per member. *)
Lemma shares_sum pot total (l : list (string * Z)) :
  0 <= pot -> 0 < total -> Forall (fun mw => 0 < mw.2) l -> let paid := sum_by (fun mw => share pot total mw.2) l in
  0 <= pot * sum_by snd l - total * paid /\ pot * sum_by snd l - total * paid <= (total - 1) * Z.of_nat (length l).
Proof.
  intros Hp Ht. induction 1 as [|[m w] l Hw _ IH]; cbn [sum_by foldr length fst snd] in *; [lia|]. simpl in Hw.
  pose proof (share_bounds pot total w Hp Ht ltac:(lia)). unfold sum_by in *. simpl in *. nia.
Qed.

(** Who is paid: the members whose work billed something, in the order of their
    addresses, each the floor of its part of the pot. *)
Record lines_of (pot total : Z) (receipts : list WorkReceipt) (lines : list PayoutLineItem) : Prop := {
  ln_members : forall l, l ∈ lines <->
    exists m, 0 < billed_by m receipts /\
      l = mkPayoutLineItem m m "" "" (dec_string (billed_by m receipts)) (dec_string (pot * billed_by m receipts / total)) "";
  ln_once : NoDup (li_MemberEthAddress <$> lines);
  ln_sorted : StronglySorted String.le (li_MemberEthAddress <$> lines);
}.

Lemma fst_lines pot total (l : list (string * Z)) : li_MemberEthAddress <$> (member_line pot total <$> l) = l.*1.
Proof. rewrite <- list_fmap_compose. by apply list_fmap_ext. Qed.

Lemma weighed_lines pot total receipts g :
  0 <= pot -> 0 < total -> weighed (mkweighing 0 ∅ ∅) receipts g ->
  lines_of pot total receipts (member_line pot total <$> ForEach (wg_weights g)).
Proof.
  intros Hp Ht [_ B C _].
  assert (HB : forall m w, wg_weights g !! m = Some w <-> w = billed_by m receipts /\ 0 < w).
  { intros m w. specialize (B m). cbn [wg_weights] in B. rewrite lookup_empty in B. cbn [default] in B. split.
    - intros E. rewrite E in B. simpl in B. split; [lia|by eapply C].
    - intros [-> Hw]. destruct (wg_weights g !! m) as [x|] eqn:E; simpl in B; [f_equal; lia|lia]. }
  split.
  - intros l. rewrite list_elem_of_fmap. split.
    + intros ([m w] & -> & Hm%elem_of_ForEach). apply HB in Hm as [-> Hw]. exists m. split; [done|].
      unfold member_line, share. simpl. by rewrite Z.quot_div_nonneg by nia.
    + intros (m & Hm & ->). exists (m, billed_by m receipts). split; [|by apply elem_of_ForEach, HB].
      unfold member_line, share. simpl. by rewrite Z.quot_div_nonneg by nia.
  - rewrite fst_lines. apply NoDup_ForEach_keys.
  - rewrite fst_lines. pose proof (ForEach_sorted (wg_weights g)) as Hs.
    induction Hs as [|kv l Hs IH Hl]; [constructor|]. rewrite fmap_cons. constructor; [done|].
    rewrite Forall_fmap. exact Hl.
Qed.

(** ** The allocation of a window *)
Definition line_wei (l : PayoutLineItem) : Z := default 0 (SetString10 (li_AmountWei l)).

(** With work to pay for, the operator keeps the commission and the wei that
    cannot be divided; without, everything. *)
Inductive divided (revenue bps : Z) (receipts : list WorkReceipt) (lines : list PayoutLineItem) (commission paid left zero : Z) : Prop :=
  | no_work : billed receipts = 0 -> lines = [] -> commission = 0 -> paid = 0 -> left = 0 -> zero = revenue ->
      divided revenue bps receipts lines commission paid left zero
  | some_work : 0 < billed receipts -> commission = revenue * bps / 10000 ->
      lines_of (revenue - commission) (billed receipts) receipts lines -> paid = sum_by line_wei lines ->
      0 <= left < Z.of_nat (length lines) -> zero = 0 ->
      divided revenue bps receipts lines commission paid left zero.

Definition allocated (revenue bps : Z) (receipts : list WorkReceipt) (a : RegionalAllocation) : Prop :=
  exists commission paid left zero,
    al_RevenueWei a = dec_string revenue /\ al_BilledWeightWei a = dec_string (billed receipts) /\
    al_CommissionWei a = dec_string commission /\ al_MemberPayoutWei a = dec_string paid /\
    al_RoundingResidualWei a = dec_string left /\ al_ZeroWorkOperatorWei a = dec_string zero /\
    0 <= commission /\ 0 <= paid /\ commission + paid + left + zero = revenue /\
    divided revenue bps receipts (al_Members a) commission paid left zero.

Lemma line_wei_line pot total mw : line_wei (member_line pot total mw) = share pot total mw.2.
Proof. unfold line_wei, member_line. simpl. by rewrite SetString10_dec. Qed.
Lemma sum_by_fmap {A B} (f : B -> Z) (g : A -> B) l : sum_by f (g <$> l) = sum_by (fun x => f (g x)) l.
Proof. induction l as [|x l IH]; simpl; [done|]. by rewrite <- IH. Qed.
Lemma sum_by_ext {A} (f g : A -> Z) l : (forall x, f x = g x) -> sum_by f l = sum_by g l.
Proof. intros Hfg. induction l as [|x l IH]; simpl; [done|]. by rewrite Hfg, IH. Qed.

Lemma weights_of receipts g :
  weighed (mkweighing 0 ∅ ∅) receipts g -> wg_total g = billed receipts /\ Forall (fun mw => 0 < mw.2) (ForEach (wg_weights g)) /\
  sum_by snd (ForEach (wg_weights g)) = billed receipts.
Proof.
  intros [A _ C D]. change (wg_total g = billed receipts) in A. split_and!; [done| |].
  - apply Forall_forall. intros [m w] Hm%elem_of_ForEach. by eapply C.
  - rewrite <- A, <- D. exact (sum_by_msum (fun _ x => x) (wg_weights g)).
Qed.

(** Dividing the pot: what is paid and what stays, with at least one member. *)
Lemma pot_divided pot total (l : list (string * Z)) :
  0 <= pot -> 0 < total -> Forall (fun mw => 0 < mw.2) l -> sum_by snd l = total ->
  let paid := sum_by (fun mw => share pot total mw.2) l in 0 <= paid /\ 0 <= pot - paid < Z.of_nat (length l).
Proof.
  intros Hp Ht Hl Hs paid. destruct (shares_sum pot total l Hp Ht Hl) as [A B]. fold paid in A, B. rewrite Hs in A, B.
  assert (0 <= paid).
  { apply sum_by_nonneg. eapply Forall_impl; [exact Hl|]. intros [m w] Hw. simpl in *. apply share_nonneg; lia. }
  destruct l as [|mw l]; [simpl in Hs; lia|]. split; [done|]. split; [nia|]. cbn [length] in *. nia.
Qed.

Lemma ModelB_ok pool raw bps receipts a :
  0 <= bps -> ModelB pool raw bps receipts = Ok a ->
  exists revenue, 0 <= revenue /\ raw = dec_string revenue /\ pool <> "" /\ bps <= 10000 /\ payables pool receipts /\
    allocated revenue bps receipts a.
Proof.
  intros Hb Hm. unfold ModelB in Hm. destruct (_ || _) eqn:Eg; [done|]. to_prop.
  destruct (Wei raw) as [revenue|] eqn:Er; [|done]. apply Wei_ok in Er as [Hr ->].
  destruct (weigh _ _ _) as [g|] eqn:Ew; [|done]. apply weigh_receipts in Ew as [Hp Hg].
  destruct (weights_of _ _ Hg) as (Ht & Hpos & Hsum). rewrite Ht in Hm. exists revenue. split_and!; try done.
  assert (0 <= billed receipts).
  { apply sum_by_nonneg. eapply Forall_impl; [exact (proj1 Hp)|]. intros r Hr'. by destruct (payable_billed pool r Hr'). }
  destruct (Z.eqb_spec (billed receipts) 0) as [Ez|Ez]; injection Hm as <-.
  - exists 0, 0, 0, revenue. rewrite Ez. split_and!; try done. by constructor.
  - rewrite sum_by_foldl, Z.add_0_l. set (commission := (revenue * bps) `quot` 10000).
    assert (Ec : commission = revenue * bps / 10000) by (unfold commission; rewrite Z.quot_div_nonneg by nia; done).
    assert (Hc : 0 <= commission <= revenue).
    { rewrite Ec. split; [apply Z.div_pos; nia|]. apply Z.div_le_upper_bound; nia. }
    pose proof (pot_divided (revenue - commission) (billed receipts) (ForEach (wg_weights g)) ltac:(lia) ltac:(lia) Hpos Hsum) as Hpot.
    set (paid := sum_by (fun mw => share (revenue - commission) (billed receipts) mw.2) (ForEach (wg_weights g))) in *.
    destruct Hpot as [Hpaid Hleft]. exists commission, paid, (revenue - commission - paid), 0.
    split_and!; try reflexivity; try lia. cbn [al_Members]. apply some_work; [lia|done| | |by rewrite length_fmap|done].
    + apply weighed_lines; [lia..|done].
    + rewrite sum_by_fmap. apply sum_by_ext. intros mw. by rewrite line_wei_line.
Qed.

(** The receipts may come in any order. *)
Lemma weighed_unique receipts receipts' g g' :
  receipts ≡ₚ receipts' -> weighed (mkweighing 0 ∅ ∅) receipts g -> weighed (mkweighing 0 ∅ ∅) receipts' g' ->
  wg_total g = wg_total g' /\ wg_weights g = wg_weights g'.
Proof.
  intros Hp [A B C _] [A' B' C' _]. split; [rewrite A, A'; f_equal; by apply sum_by_perm|].
  apply map_eq. intros m. specialize (B m). specialize (B' m). unfold billed_by in B'.
  rewrite <- (sum_by_perm _ _ _ Hp) in B'. fold (billed_by m receipts) in B'. rewrite <- B in B'.
  destruct (wg_weights g !! m) as [x|] eqn:E, (wg_weights g' !! m) as [y|] eqn:E'; simpl in B'; try done.
  - by rewrite B'.
  - apply C in E. lia.
  - apply C' in E'. lia.
Qed.
Lemma weigh_perm pool receipts receipts' g :
  receipts ≡ₚ receipts' -> weigh pool receipts (mkweighing 0 ∅ ∅) = Ok g ->
  exists g', weigh pool receipts' (mkweighing 0 ∅ ∅) = Ok g' /\ wg_total g' = wg_total g /\ wg_weights g' = wg_weights g.
Proof.
  intros Hp Hw. destruct (weigh_payable _ _ _ _ Hw) as (Hf & Hd & Hs). apply weigh_receipts in Hw as [_ Hg].
  destruct (weigh_ok pool receipts' (mkweighing 0 ∅ ∅)) as (g' & Eg & Hg').
  - by rewrite <- Hp.
  - by rewrite <- Hp.
  - by rewrite <- Hp.
  - exact weights_empty.
  - exists g'. split; [done|]. destruct (weighed_unique _ _ _ _ Hp Hg Hg') as [-> ->]. done.
Qed.
End allocation.
