(* ===== verification/PoolRevenue.v ===== *)
(** * Reports of the receiver sources, and the stored forms

    pool-commons/revenue (report.go, work.go, drain.go): when a report may be
    used.  The JSON of work receipts and rounds, which digests are taken of. *)
From S2P Require Import Prelude.
From S2P Require Import GoBytes.
From S2P Require Import GoCodecs.
From S2P Require Import GoStrings.
From S2P Require Import ChainErrors.
From S2P Require Import Types.
From S2P Require Import WorkLedger.
From S2P Require Import PoolTypes.

(** [hexSize]: so many bytes in hex, not all of them zero. *)
Definition hexSize (value : string) (n : Z) (prefix : bool) : bool :=
  if prefix && negb (hasPrefix value "0x") then false
  else
    match hex_decode (if prefix then drop_bytes 2 value else value) with
    | Some raw => (len raw =? n) && negb (is_zero_bytes raw)
    | None => false
    end.

(** [strings.EqualFold], for ASCII. *)
Definition EqualFold (a b : string) : bool := bool_decide (ToLower a = ToLower b).

(** Observed within the last two minutes, and not in the future. *)
Definition fresh (now : Z) (observed : option Z) : bool :=
  match observed with
  | None => false
  | Some t => negb (2 * minute <? now - t) && negb (now + minute <? t)
  end.

Definition bad_source (s : Source) : bool :=
  bool_decide (sr_PoolID s = "") || bool_decide (sr_BrokerID s = "") || (sr_ChainID s =? 0) ||
  negb (hexSize (sr_SourceID s) 32 true) || negb (hexSize (sr_Payee s) 20 true).

Definition Source_Validate `{PoolWire} (s : Source) : presult unit :=
  if bad_source s then Err (PoolErr "invalid revenue source identity")
  else if negb (https_origin (sr_URL s)) then Err (PoolErr "revenue source requires an HTTPS origin")
  else Ok tt.

Definition Report_Validate (r : Report) (s : Source) (round now : Z) : presult unit :=
  if bad_source s then Err (PoolErr "invalid configured source identity")
  else if negb (bool_decide (rp_PoolID r = sr_PoolID s)) || negb (bool_decide (rp_SourceID r = sr_SourceID s)) ||
          negb (bool_decide (rp_BrokerID r = sr_BrokerID s)) || negb (rp_ChainID r =? sr_ChainID s) ||
          negb (EqualFold (rp_Payee r) (sr_Payee s)) || negb (rp_Round r =? round)
  then Err (PoolErr "source report identity mismatch")
  else if negb (rp_Complete r) || (rp_CompleteThroughRound r <? round) then Err (PoolErr "source incomplete")
  else if negb (fresh now (rp_ObservedAt r)) then Err (PoolErr "source report stale")
  else
    match SetString10 (rp_RevenueWei r) with
    | None => Err (PoolErr "source report evidence invalid")
    | Some amount =>
        if (amount <? 0) || (rp_ObservedHead r <? rp_FinalizedBlock r) || negb (hexSize (rp_InclusionDigest r) 32 false) ||
           negb (hexSize (rp_FinalizedBlockHash r) 32 true) || negb (hexSize (rp_ObservedHeadHash r) 32 true)
        then Err (PoolErr "source report evidence invalid")
        else Ok tt
    end.

Definition WorkReport_Validate (r : WorkReport) (s : Source) (round now : Z) : presult unit :=
  if bool_decide (sr_PoolID s = "") || bool_decide (sr_SourceID s = "") || negb (bool_decide (wp_PoolID r = sr_PoolID s)) ||
     negb (bool_decide (wp_SourceID r = sr_SourceID s)) || negb (bool_decide (wp_BrokerID r = sr_BrokerID s)) ||
     negb (wp_Round r =? round)
  then Err (PoolErr "work report source identity mismatch")
  else if negb (wp_Complete r) || (wp_ClosedThroughRound r <? round) then Err (PoolErr "work source incomplete")
  else if negb (fresh now (wp_ObservedAt r)) || negb (hexSize (wp_ReceiptDigest r) 32 false)
  then Err (PoolErr "work report stale or invalid")
  else Ok tt.

Definition DrainReport_Validate `{PoolWire} (r : DrainReport) (s : Source) (after now : Z) : presult unit :=
  let! valid := Source_Validate s in
  if negb (bool_decide (dr_PoolID r = sr_PoolID s)) || negb (bool_decide (dr_SourceID r = sr_SourceID s)) ||
     negb (bool_decide (dr_BrokerID r = sr_BrokerID s)) || negb (dr_ChainID r =? sr_ChainID s) ||
     negb (EqualFold (dr_Payee r) (sr_Payee s))
  then Err (PoolErr "retirement source identity mismatch")
  else if negb (dr_Draining r) || negb (dr_Frozen r) || negb (dr_Complete r) || negb (dr_ActiveAuthorizations r =? 0) ||
          negb (dr_PendingRedemptions r =? 0) || negb (dr_PendingOperations r =? 0) || negb (dr_UndeliveredReceipts r =? 0)
  then Err (PoolErr "source has not finished draining")
  else if (after <? 0) || (after <? dr_LastReceiptRound r) || (after <? dr_LastRedemptionRound r) ||
          (dr_CompleteThroughRound r <? after)
  then Err (PoolErr "source accounting prefix not ready for retirement")
  else if match dr_FrozenAt r with None => true | Some t => now + minute <? t end || negb (fresh now (dr_ObservedAt r))
  then Err (PoolErr "source retirement evidence stale")
  else Ok tt.

(** ** Stored forms *)
Definition json_WorkReceipt (r : WorkReceipt) : string :=
  json_object (nonempty_string "terms_version" (pw_TermsVersion r) ++ nonempty_string "pool_id" (pw_PoolID r) ++
    nonempty_string "source_id" (pw_SourceID r) ++ field_string "id" (pw_ID r) ++ field_time "created_at" (pw_CreatedAt r) ++
    nonempty_string "round_id" (pw_RoundID r) ++ field_string "request_id" (pw_RequestID r) ++
    field_string "capability_id" (pw_CapabilityID r) ++ field_string "offering_id" (pw_OfferingID r) ++
    field_string "member_eth_address" (pw_MemberEthAddress r) ++ field_string "backend_id" (pw_BackendID r) ++
    nonempty_string "host_enrollment_id" (pw_HostEnrollmentID r) ++ nonempty_string "hardware_unit_id" (pw_HardwareUnitID r) ++
    nonempty_string "gpu_uuid" (pw_GPUUUID r) ++ nonempty_string "template_id" (pw_TemplateID r) ++
    nonzero_number "expected_max_units" (pw_ExpectedMaxUnits r) ++ nonzero_number "actual_units" (pw_ActualUnits r) ++
    nonzero_number "accepted_work_units" (pw_AcceptedWorkUnits r) ++ nonempty_string "gateway_revenue_wei" (pw_GatewayRevenueWei r) ++
    nonempty_string "attributed_revenue_wei" (pw_AttributedRevenueWei r) ++ field_string "status" (pw_Status r)).

Definition json_Report (r : Report) : string :=
  json_object (field_string "pool_id" (rp_PoolID r) ++ field_string "source_id" (rp_SourceID r) ++
    field_string "broker_id" (rp_BrokerID r) ++ field_number "chain_id" (rp_ChainID r) ++ field_string "payee" (rp_Payee r) ++
    field_number "round" (rp_Round r) ++ field_string "revenue_wei" (rp_RevenueWei r) ++
    field_number "ticket_count" (rp_TicketCount r) ++ field_bool "complete" (rp_Complete r) ++
    nonempty_string "incomplete_reason" (rp_IncompleteReason r) ++ field_number "observed_head" (rp_ObservedHead r) ++
    field_string "observed_head_hash" (rp_ObservedHeadHash r) ++ field_number "finalized_block" (rp_FinalizedBlock r) ++
    field_string "finalized_block_hash" (rp_FinalizedBlockHash r) ++
    field_number "complete_through_round" (rp_CompleteThroughRound r) ++ field_time "observed_at" (rp_ObservedAt r) ++
    field_string "inclusion_digest" (rp_InclusionDigest r)).

Definition json_WorkReport (r : WorkReport) : string :=
  json_object (field_string "pool_id" (wp_PoolID r) ++ field_string "source_id" (wp_SourceID r) ++
    field_string "broker_id" (wp_BrokerID r) ++ field_number "round" (wp_Round r) ++ field_bool "complete" (wp_Complete r) ++
    nonempty_string "incomplete_reason" (wp_IncompleteReason r) ++ field_number "closed_through_round" (wp_ClosedThroughRound r) ++
    field_number "receipt_count" (wp_ReceiptCount r) ++ field_string "receipt_digest" (wp_ReceiptDigest r) ++
    field_time "observed_at" (wp_ObservedAt r)).

Definition json_MemberRoundPayout (p : MemberRoundPayout) : string :=
  json_object (field_string "member_eth_address" (mp_MemberEthAddress p) ++ field_string "contribution_wei" (mp_ContributionWei p) ++
    field_number "share_ppm" (mp_SharePPM p) ++ field_string "payout_wei" (mp_PayoutWei p)).

Definition json_RoundReceipt (r : RoundReceipt) : string :=
  json_object (nonempty_string "pool_id" (rr_PoolID r) ++ nonempty_list "revenue_reports" json_Report (rr_RevenueReports r) ++
    nonempty_list "work_reports" json_WorkReport (rr_WorkReports r) ++ nonempty_string "receipt_snapshot" (rr_ReceiptSnapshot r) ++
    field_string "id" (rr_ID r) ++ field_time "created_at" (rr_CreatedAt r) ++ field_string "round_id" (rr_RoundID r) ++
    field_string "pool_revenue_wei" (rr_PoolRevenueWei r) ++ field_string "pool_cut_wei" (rr_PoolCutWei r) ++
    field_string "distributable_wei" (rr_DistributableWei r) ++
    nonempty_list "included_work_receipt_ids" json_string (rr_IncludedWorkReceiptIDs r) ++
    nonempty_list "member_payouts" json_MemberRoundPayout (rr_MemberPayouts r)).

(** The digest of stored receipts: each row followed by a zero byte. *)
Definition snapshot_of (receipts : list WorkReceipt) : string :=
  hex_encode (sha256 (String.concat "" ((fun r => json_WorkReceipt r +:+ String zero_byte "") <$> receipts))).

Definition contribution_of (r : WorkReceipt) (amount : Z) : Contribution :=
  mkContribution (pw_TermsVersion r) (pw_ID r) (pw_PoolID r) (pw_SourceID r) (pw_RoundID r) (pw_MemberEthAddress r)
    (pw_OfferingID r) (pw_BackendID r) (dec_string amount).
