(* ===== verification/PoolStore.v ===== *)
(** * The pool controller's books: what is written into them

    pool-controller/internal/repo: opening the database and its identity
    (state.go, regional.go), the regional terms and their acceptance
    (regional.go), their publication (terms_publication.go), the receiver sources
    (revenue_sources.go), work and round receipts (receipts.go, receipt_pages.go),
    and the generic writes with their guards (control_plane.go,
    regional_immutability.go, connected_pool.go).

    [pool] is the identity of the opened database and [now] the clock; a write
    runs as one transaction on the database. *)
From Stdlib Require Import Ascii.
From S2P Require Import Prelude.
From S2P Require Import GoBytes.
From S2P Require Import GoCodecs.
From S2P Require Import GoStrings.
From S2P Require Import Bolt.
From S2P Require Import ChainErrors.
From S2P Require Import Types.
From S2P Require Import WorkLedger.
From S2P Require Import PoolTypes.
From S2P Require Import PoolRevenue.

Open Scope record_scope.

(** The zero time, January 1 of year 1, comes before every other. *)
Definition zero_instant : Z := - 62135596800 * second.
Definition instant (t : option Z) : Z := default zero_instant t.

(** Newest first. *)
Definition newer {A} (created : A -> option Z) (a b : A) : Prop := instant (created b) <= instant (created a).
#[export] Instance newer_dec {A} (created : A -> option Z) : RelDecision (newer created).
Proof. intros a b. unfold newer. apply _. Defined.

Section store.
Context `{Bolt M} `{PoolWire}.
Implicit Types (tx db : PoolDB M).

(** ** Opening *)
Definition empty_db : PoolDB M := mkPoolDB None ∅ ∅ ∅ ∅ None None None None ∅ ∅ ∅ ∅ ∅ ∅ ∅ ∅.

(** [rand] is the answer of crypto/rand. *)
Definition initRegional (rand : option string) tx : presult (string * PoolDB M) :=
  let! opened := match pd_pool_id tx, rand with
                 | Some _, _ => Ok tx
                 | None, None => Err (PoolErr "rand.Read")
                 | None, Some id => Ok (tx <| pd_pool_id := Some ("pool_" +:+ hex_encode id) |>)
                 end in
  let id := default "" (pd_pool_id opened) in
  if negb (hasPrefix id "pool_") || negb (len id =? 37)
  then Err (PoolErr "corrupt regional pool identity; restore the original database")
  else match hex_decode (drop_bytes 5 id) with
       | None => Err (PoolErr "corrupt regional pool identity encoding")
       | Some _ => Ok (id, opened)
       end.
Definition Open (rand : option string) (file : option (PoolDB M)) : presult (string * PoolDB M) :=
  initRegional rand (default empty_db file).

(** ** Reading *)
Definition getJSON {A} (bucket : M A) (key : string) : presult A :=
  if bool_decide (key = "") then Err (PoolErr "key is required")
  else match bucket !! key with None => Err ErrPoolNotFound | Some a => Ok a end.

(** Rows ordered by a comparison of their contents. *)
Definition listJSON {A} (le : relation A) `{!RelDecision le} (bucket : M A) : list A := merge_sort le (ForEach bucket).*2.

(** The last keys first, at most [limit] when it is positive, newest first. *)
Definition newest {A} (created : A -> option Z) (limit : Z) (bucket : M A) : list A :=
  let rows := rev (ForEach bucket).*2 in
  merge_sort (newer created) (if 0 <? limit then take (Z.to_nat limit) rows else rows).

(** ** Rounds that are closed *)

(** The numbers of the closed rounds. *)
Definition closed_keys tx : list string := (ForEach (opt_bucket (pd_round_numbers tx))).*1.
Definition round_closed tx (round : string) : bool := bool_decide (is_Some (opt_bucket (pd_round_numbers tx) !! round)).

(** A number in the form [FormatInt] prints. *)
Definition canonical_round (raw : string) : option Z :=
  match ParseInt raw with
  | Some round => if (0 <=? round) && bool_decide (raw = dec_string round) then Some round else None
  | None => None
  end.

(** Every closed round, as a number, is below [start]. *)
Fixpoint rounds_below (parse : string -> option Z) (start : Z) (refusal : pool_error) (keys : list string) : presult unit :=
  match keys with
  | [] => Ok tt
  | key :: keys =>
      match parse key with
      | None => Err (PoolErr "strconv: invalid syntax")
      | Some number => if start <=? number then Err refusal else rounds_below parse start refusal keys
      end
  end.

(** ** Regional terms *)
Definition bad_version (version : string) : bool :=
  bool_decide (version = "") || (128 <? len version) ||
  negb (all_bytes (fun c => negb (bool_decide (c = zero_byte)) && negb (bool_decide (c = "/"%char)) &&
                            negb (bool_decide (c = byte_of 10))) version).
Definition bad_terms (term : RegionalTerms) : bool :=
  (10000 <? rt_CommissionBPS term) || bool_decide (rt_ParticipationRules term = "") || negb (rt_ZeroWorkToOperator term) ||
  negb (rt_RoundingToOperator term).

(** A window of 14 rounds unless the terms say otherwise. *)
Definition with_window (term : RegionalTerms) : RegionalTerms :=
  if rt_WindowRounds term =? 0 then term <| rt_WindowRounds := 14 |> else term.

(** The terms that took effect last. *)
Definition later_terms (latest : option RegionalTerms) (item : RegionalTerms) : option RegionalTerms :=
  match latest with
  | None => Some item
  | Some l => if rt_EffectiveRound l <? rt_EffectiveRound item then Some item else latest
  end.
Definition latest_terms tx : option RegionalTerms := foldl later_terms None (ForEach (pd_terms tx)).*2.

Definition on_boundary (latest : option RegionalTerms) (effective : Z) : bool :=
  match latest with
  | None => true
  | Some l => (rt_EffectiveRound l <? effective) && (((effective - rt_EffectiveRound l) mod rt_WindowRounds l) =? 0)
  end.

Definition PutRegionalTerms (pool : string) (term : RegionalTerms) (now : Z) db : presult unit * PoolDB M :=
  if negb (bool_decide (rt_PoolID term = pool)) then (Err (PoolErr "terms pool_id does not match this controller"), db)
  else if bad_version (rt_Version term) then (Err (PoolErr "invalid terms version"), db)
  else
    let term := with_window term in
    if bad_terms term then (Err (PoolErr "terms require valid commission, participation rules and Model B disclosures"), db)
    else Update (fun tx =>
      match pd_terms tx !! rt_Version term with
      | Some old =>
          if bool_decide (old = term <| rt_CreatedAt := rt_CreatedAt old |>) then Ok (tt, tx)
          else Err (PoolErr "terms version is immutable")
      | None =>
          let! below := rounds_below ParseUint (rt_EffectiveRound term) (PoolErr "terms cannot rewrite reconciled rounds")
                          (closed_keys tx) in
          if negb (on_boundary (latest_terms tx) (rt_EffectiveRound term))
          then Err (PoolErr "terms must append at an existing accounting-window boundary")
          else Ok (tt, tx <| pd_terms := <[rt_Version term := term <| rt_CreatedAt := Some now |>]> (pd_terms tx) |>)
      end) db.

Definition by_effective (a b : RegionalTerms) : Prop := rt_EffectiveRound a <= rt_EffectiveRound b.
#[global] Instance by_effective_dec : RelDecision by_effective.
Proof. intros a b. unfold by_effective. apply _. Defined.
Definition ListRegionalTerms db : list RegionalTerms := listJSON by_effective (pd_terms db).

Definition RegionalTermsForRound (round : Z) db : presult RegionalTerms :=
  match foldl (fun found term => if rt_EffectiveRound term <=? round then Some term else found) None (ListRegionalTerms db) with
  | None => Err (PoolErr "no regional terms for round")
  | Some term => Ok term
  end.

(** ** Acceptance *)
Definition acceptanceKey (wallet version : string) : string := ToLower wallet +:+ String zero_byte version.

(** The wallet's enrollments get the latest version, never an older one. *)
Definition takes_terms (wallet version : string) (e : HostEnrollment) : bool :=
  EqualFold (he_MemberEthAddress e) wallet && negb (bool_decide (he_Status e = "revoked")) &&
  negb (bool_decide (he_Status e = "retired")).
Definition grantAcceptedTerms (wallet version : string) tx : PoolDB M :=
  if negb (bool_decide (default "" (rt_Version <$> latest_terms tx) = version)) then tx
  else
    let updates := (fun e => e <| he_TermsVersion := version |>) <$>
                   List.filter (takes_terms wallet version) (ForEach (pd_enrollments tx)).*2 in
    tx <| pd_enrollments := foldl (fun b e => <[he_ID e := e]> b) (pd_enrollments tx) updates |>.

Definition joined (pool wallet : string) (now : Z) : PoolMember :=
  mkPoolMember pool wallet wallet "" "" "eth" "active" (Some now) (Some now).

Definition acceptRegionalTerms (pool poolID wallet version : string) (join : bool) (now : Z) db : presult TermsAcceptance * PoolDB M :=
  if negb (bool_decide (poolID = pool)) || negb (IsHexAddress wallet) then (Err (PoolErr "invalid pool or member wallet"), db)
  else
    let wallet := ToLower wallet in
    Update (fun tx =>
      if negb (bool_decide (is_Some (pd_terms tx !! version))) then Err (PoolErr "unknown regional terms version")
      else if join && negb (bool_decide (default "" (rt_Version <$> latest_terms tx) = version))
      then Err (PoolErr "join requires latest published regional terms")
      else
        let! found :=
          (match pd_members tx !! wallet, join with
           | Some member, _ => Ok (member, tx)
           | None, true => let member := joined pool wallet now in
                           Ok (member, tx <| pd_members := <[wallet := member]> (pd_members tx) |>)
           | None, false => Err (PoolErr "wallet authentication required before joining")
           end) in
        let '(member, tx) := found in
        if negb (bool_decide (pm_Status member = "active")) then Err (PoolErr "member is not active")
        else
          let key := acceptanceKey wallet version in
          match pd_acceptance tx !! key with
          | Some old => Ok (old, grantAcceptedTerms wallet version tx)
          | None =>
              let result := mkTermsAcceptance pool wallet version (Some now) in
              Ok (result, grantAcceptedTerms wallet version (tx <| pd_acceptance := <[key := result]> (pd_acceptance tx) |>))
          end) db.
Definition AcceptRegionalTerms (pool poolID wallet version : string) (now : Z) db := acceptRegionalTerms pool poolID wallet version false now db.
Definition JoinRegionalTerms (pool poolID wallet version : string) (now : Z) db := acceptRegionalTerms pool poolID wallet version true now db.

Definition RequireTermsAcceptance (wallet version : string) db : presult TermsAcceptance :=
  match getJSON (pd_acceptance db) (acceptanceKey wallet version) with
  | Err ErrPoolNotFound => Err ErrTermsNotAccepted
  | r => r
  end.

(** ** Publication of terms *)
Definition resolved (p : TermsPublication) : bool :=
  bool_decide (tp_State p = "published") || bool_decide (tp_State p = "superseded").

(** The callback over the publications: the one that is superseded. *)
Definition supersede (item : TermsPublication) (now : Z) tx (superseded : option TermsPublication) (prior : TermsPublication) :
    presult (option TermsPublication) :=
  if resolved prior then Ok superseded
  else if negb (bool_decide (tp_SupersedesVersion item = rt_Version (tp_Terms prior)))
  then Err (PoolErr "another terms publication remains unresolved; name it explicitly to supersede")
  else if bool_decide (is_Some (pd_terms tx !! rt_Version (tp_Terms prior)))
  then Err (PoolErr "published terms cannot be superseded")
  else if rt_EffectiveRound (tp_Terms item) <=? rt_EffectiveRound (tp_Terms prior)
  then Err (PoolErr "superseding terms require a later activation boundary")
  else Ok (Some (((prior <| tp_State := "superseded" |>) <| tp_SupersededBy := rt_Version (tp_Terms item) |>)
                 <| tp_UpdatedAt := Some now |>)).
Fixpoint supersede_all (item : TermsPublication) (now : Z) tx (superseded : option TermsPublication) (priors : list TermsPublication) :
    presult (option TermsPublication) :=
  match priors with
  | [] => Ok superseded
  | prior :: priors => let! superseded := supersede item now tx superseded prior in supersede_all item now tx superseded priors
  end.

Definition put_publication (p : TermsPublication) tx : PoolDB M :=
  tx <| pd_publications := <[rt_Version (tp_Terms p) := p]> (pd_publications tx) |>.

Definition BeginTermsPublication (pool : string) (item : TermsPublication) (now : Z) db : presult TermsPublication * PoolDB M :=
  if negb (bool_decide (rt_PoolID (tp_Terms item) = pool)) || bad_version (rt_Version (tp_Terms item)) ||
     bool_decide (tp_Actor item = "") || bool_decide (tp_Reason item = "") || bool_decide (tp_Targets item = [])
  then (Err (PoolErr "terms publication requires pool, version, actor, reason and source targets"), db)
  else
    let item := item <| tp_Terms := with_window (tp_Terms item) |> in
    if bad_terms (tp_Terms item) then (Err (PoolErr "invalid regional terms"), db)
    else Update (fun tx =>
      match pd_publications tx !! rt_Version (tp_Terms item) with
      | Some result =>
          if negb (bool_decide (tp_Terms result = tp_Terms item)) ||
             negb (bool_decide (tp_SupersedesVersion result = tp_SupersedesVersion item))
          then Err (PoolErr "terms publication version is immutable")
          else Ok (result, tx)
      | None =>
          if bool_decide (is_Some (pd_terms tx !! rt_Version (tp_Terms item))) then Err (PoolErr "terms version already published")
          else
            let! superseded := supersede_all item now tx None (ForEach (pd_publications tx)).*2 in
            if negb (bool_decide (tp_SupersedesVersion item = "")) && bool_decide (superseded = None)
            then Err (PoolErr "unresolved unpublished terms proposal not found")
            else
              let tx := match superseded with Some prior => put_publication prior tx | None => tx end in
              let item := ((item <| tp_State := "pending" |>) <| tp_CreatedAt := Some now |>) <| tp_UpdatedAt := Some now |> in
              Ok (item, put_publication item tx)
      end) db.

Definition SaveTermsPublication (item : TermsPublication) (now : Z) db : presult unit * PoolDB M :=
  Update (fun tx =>
    match pd_publications tx !! rt_Version (tp_Terms item) with
    | None => Err (PoolErr "unexpected end of JSON input")
    | Some prior =>
        if negb (bool_decide (tp_Terms prior = tp_Terms item)) || negb (bool_decide (tp_Actor prior = tp_Actor item)) ||
           negb (bool_decide (tp_SupersedesVersion prior = tp_SupersedesVersion item)) ||
           negb (bool_decide (tp_SupersededBy prior = tp_SupersededBy item)) || negb (bool_decide (tp_Reason prior = tp_Reason item)) ||
           negb (bool_decide (length (tp_Targets prior) = length (tp_Targets item)))
        then Err (PoolErr "terms publication identity changed")
        else if negb (bool_decide (tt_Source <$> tp_Targets prior = tt_Source <$> tp_Targets item))
        then Err (PoolErr "terms publication source changed")
        else if resolved prior && negb (bool_decide (prior = item))
        then Err (PoolErr "published terms transaction is immutable")
        else Ok (tt, put_publication (item <| tp_UpdatedAt := Some now |>) tx)
    end) db.

Definition by_activation (a b : TermsPublication) : Prop := rt_EffectiveRound (tp_Terms a) <= rt_EffectiveRound (tp_Terms b).
#[global] Instance by_activation_dec : RelDecision by_activation.
Proof. intros a b. unfold by_activation. apply _. Defined.
Definition TermsPublications db : list TermsPublication := listJSON by_activation (pd_publications db).

(** ** Receiver sources *)
Definition put_source (s : RevenueSource) (b : M RevenueSource) tx : PoolDB M :=
  tx <| pd_sources := Some (<[sr_SourceID (rs_Source s) := s]> b) |>.

Definition RegisterRevenueSource (pool : string) (source : Source) (start : Z) (reason actor : string) (now : Z) db :
    presult unit * PoolDB M :=
  match Source_Validate source with
  | Err e => (Err e, db)
  | Ok _ =>
      if negb (bool_decide (sr_PoolID source = pool)) || bool_decide (sr_SourceID source = "") || bool_decide (sr_BrokerID source = "") ||
         (sr_ChainID source =? 0) || bool_decide (sr_Payee source = "") || bool_decide (sr_URL source = "") || (start <? 0) ||
         bool_decide (reason = "")
      then (Err (PoolErr "invalid regional revenue source"), db)
      else Update (fun tx =>
        let bucket := opt_bucket (pd_sources tx) in
        match bucket !! sr_SourceID source with
        | Some previous =>
            if negb (bool_decide (rs_Source previous = source)) || negb (rs_StartRound previous =? start)
            then Err (PoolErr "registered source identity/participation cannot change")
            else Ok (tt, tx <| pd_sources := Some bucket |>)
        | None =>
            let! below := rounds_below ParseInt start (PoolErr "new source cannot rewrite a closed round") (closed_keys tx) in
            if existsb (fun previous => bool_decide (sr_BrokerID (rs_Source previous) = sr_BrokerID source)) (ForEach bucket).*2
            then Err (PoolErr "broker resource already has a registered receiver source")
            else
              let actor := if bool_decide (actor = "") then "local-operator" else actor in
              Ok (tt, put_source (mkRevenueSource None [mkSourceTransition "register" actor reason start now] source start None None
                                    "active" now now reason) bucket tx)
        end) db
  end.

Definition transition (action actor reason : string) (round now : Z) (s : RevenueSource) : RevenueSource :=
  let actor := if bool_decide (actor = "") then "local-operator" else actor in
  (s <| rs_UpdatedAt := now |>) <| rs_History := rs_History s ++ [mkSourceTransition action actor reason round now] |>.

Definition DrainRevenueSource (id : string) (round : Z) (reason actor : string) (now : Z) db : presult unit * PoolDB M :=
  Update (fun tx =>
    match pd_sources tx with
    | None => Err (PoolErr "source not found")
    | Some bucket =>
        match bucket !! id with
        | None => Err (PoolErr "source not found")
        | Some record =>
            if bool_decide (reason = "") || (round <? rs_StartRound record) || bool_decide (rs_State record = "retired")
            then Err (PoolErr "invalid drain transition")
            else
              match rs_StopAcceptingRound record with
              | Some stop => if stop =? round then Ok (tt, tx) else Err (PoolErr "source stop round is immutable")
              | None =>
                  let record := (record <| rs_StopAcceptingRound := Some round |>) <| rs_State := "draining" |> in
                  Ok (tt, tx <| pd_sources := Some (<[id := transition "drain" actor reason round now record]> bucket) |>)
              end
        end
    end) db.

(** The sources that take part in a round, [None] for all. *)
Definition participates (round : Z) (s : RevenueSource) : bool :=
  (rs_StartRound s <=? round) && match rs_RetiredAfterRound s with None => true | Some last => round <=? last end.
Fixpoint sources_in (pool : string) (round : option Z) (records : list RevenueSource) : presult (list RevenueSource) :=
  match records with
  | [] => Ok []
  | record :: records =>
      if negb (bool_decide (sr_PoolID (rs_Source record) = pool)) then Err (PoolErr "source belongs to another pool")
      else
        let! rest := sources_in pool round records in
        Ok (if match round with Some round => participates round record | None => true end then record :: rest else rest)
  end.
Definition RevenueSources (pool : string) (round : option Z) db : presult (list RevenueSource) :=
  match pd_sources db with
  | None => Ok []
  | Some bucket => sources_in pool round (ForEach bucket).*2
  end.

(** How many of the source's rounds are closed; each must have counted it. *)
Fixpoint covered_rounds tx (record : RevenueSource) (after : Z) (index : list (string * string)) (covered : Z) : presult Z :=
  match index with
  | [] => Ok covered
  | (key, id) :: index =>
      match ParseInt key with
      | None => Err (PoolErr "strconv: invalid syntax")
      | Some round =>
          if (round <? rs_StartRound record) || (after <? round) then covered_rounds tx record after index covered
          else
            match pd_round_receipts tx !! id with
            | None => Err (PoolErr "unexpected end of JSON input")
            | Some closed =>
                if existsb (fun report => bool_decide (rp_SourceID report = sr_SourceID (rs_Source record))) (rr_RevenueReports closed)
                then covered_rounds tx record after index (u64 (covered + 1))
                else Err (PoolErr "closed round lacks retiring source")
            end
      end
  end.

Definition RetireRevenueSource (id : string) (after : Z) (reason : string) (proof : DrainReport) (actor : string) (now : Z) db :
    presult unit * PoolDB M :=
  Update (fun tx =>
    match pd_sources tx with
    | None => Err (PoolErr "source not found")
    | Some bucket =>
        match bucket !! id with
        | None => Err (PoolErr "source not found")
        | Some record =>
            match rs_RetiredAfterRound record with
            | Some last => if last =? after then Ok (tt, tx) else Err (PoolErr "retirement round is immutable")
            | None =>
                if bool_decide (reason = "") || bool_decide (actor = "") || negb (bool_decide (rs_State record = "draining")) ||
                   match rs_StopAcceptingRound record with None => true | Some stop => after <? stop end
                then Err (PoolErr "source must drain before retirement")
                else
                  let! valid := DrainReport_Validate proof (rs_Source record) after now in
                  match pd_round_numbers tx with
                  | None => Err (PoolErr "source accounting rounds not closed")
                  | Some index =>
                      let! covered := covered_rounds tx record after (ForEach index) 0 in
                      if negb (covered =? u64 (after - rs_StartRound record + 1))
                      then Err (PoolErr "every source participation round must close before retirement")
                      else
                        let record := ((record <| rs_State := "retired" |>) <| rs_RetiredAfterRound := Some after |>)
                                      <| rs_RetirementProof := Some proof |> in
                        Ok (tt, tx <| pd_sources := Some (<[id := transition "retire" actor reason after now record]> bucket) |>)
                  end
            end
        end
    end) db.

(** ** Work receipts *)

(** A regional receipt: its value and its round are in canonical form. *)
Definition canonical_value (r : WorkReceipt) : bool :=
  match SetString10 (pw_AttributedRevenueWei r) with
  | Some n => (0 <=? n) && bool_decide (dec_string n = pw_AttributedRevenueWei r)
  | None => false
  end.
Definition check_regional (pool : string) (r : WorkReceipt) tx : presult unit :=
  if negb (bool_decide (is_Some (canonical_round (pw_RoundID r)))) || negb (canonical_value r)
  then Err (PoolErr "invalid regional receipt round or billed value")
  else if negb (bool_decide (pw_PoolID r = pool)) || bool_decide (pw_SourceID r = "") ||
          negb (hasPrefix (pw_ID r) (pw_SourceID r +:+ "/")) || negb (bool_decide (pw_Status r = "final"))
  then Err (PoolErr "invalid regional receipt identity or finalization")
  else if round_closed tx (pw_RoundID r) then Err (PoolErr "regional round already closed")
  else Ok tt.

Definition created_or (now : Z) (t : option Z) : option Z := Some (default now t).

Definition SaveWorkReceipt (pool : string) (receipt : WorkReceipt) (now : Z) db : presult unit * PoolDB M :=
  if bool_decide (pw_ID receipt = "") then (Err (PoolErr "work receipt id is required"), db)
  else
    let receipt := receipt <| pw_CreatedAt := created_or now (pw_CreatedAt receipt) |> in
    let save tx := Ok (tt, tx <| pd_work_receipts := <[pw_ID receipt := receipt]> (pd_work_receipts tx) |>) in
    let check tx :=
      if negb (bool_decide (pw_PoolID receipt = ""))
      then let! checked := check_regional pool receipt tx in save tx
      else save tx in
    Update (fun tx =>
      match pd_work_receipts tx !! pw_ID receipt with
      | Some prior =>
          if negb (bool_decide (pw_PoolID prior = "")) || negb (bool_decide (pw_PoolID receipt = ""))
          then if bool_decide (prior = receipt) then Ok (tt, tx) else Err (PoolErr "regional work receipt is immutable")
          else check tx
      | None => check tx
      end) db.

Definition ListWorkReceipts (limit : Z) db : list WorkReceipt := newest pw_CreatedAt limit (pd_work_receipts db).

Fixpoint GetWorkReceipts (ids : list string) db : presult (list WorkReceipt) :=
  match ids with
  | [] => Ok []
  | id :: ids =>
      match pd_work_receipts db !! id with
      | None => Err (PoolErr "work receipt not found")
      | Some receipt => let! rest := GetWorkReceipts ids db in Ok (receipt :: rest)
      end
  end.

Record WorkReceiptPage := mkWorkReceiptPage {
  pg_Receipts : list WorkReceipt;
  pg_Snapshot : string;
  pg_NextCursor : string;
  pg_Total : Z;
}.
Definition selected (round status : string) (r : WorkReceipt) : bool :=
  (bool_decide (round = "") || bool_decide (pw_RoundID r = round)) && (bool_decide (status = "") || bool_decide (pw_Status r = status)).
(** The page takes the rows behind the cursor while there is room. *)
Definition page_row (limit : Z) (cursor : string) (page : list WorkReceipt * string) (row : string * WorkReceipt) : list WorkReceipt * string :=
  let '(receipts, next) := page in
  if String.leb row.1 cursor then page
  else if Z.of_nat (length receipts) <? limit then (receipts ++ [row.2], next)
  else if bool_decide (next = "") then (receipts, default "" (pw_ID <$> last receipts))
  else page.
Definition PageWorkReceipts (round status cursor snapshot : string) (limit : Z) db : presult WorkReceiptPage :=
  if (limit <=? 0) || (1000 <? limit) then Err (PoolErr "page limit must be 1..1000")
  else
    let rows := List.filter (fun row => selected round status row.2) (ForEach (pd_work_receipts db)) in
    let digest := snapshot_of rows.*2 in
    if negb (bool_decide (snapshot = "")) && negb (bool_decide (digest = snapshot))
    then Err (PoolErr "receipt snapshot changed; restart collection")
    else
      let '(receipts, next) := foldl (page_row limit cursor) ([], "") rows in
      Ok (mkWorkReceiptPage receipts digest next (Z.of_nat (length rows))).

(** ** Round receipts outside the regional books *)
Definition SaveRoundReceipt (receipt : RoundReceipt) (now : Z) db : presult unit * PoolDB M :=
  if bool_decide (rr_ID receipt = "") then (Err (PoolErr "round receipt id is required"), db)
  else
    let receipt := receipt <| rr_CreatedAt := created_or now (rr_CreatedAt receipt) |> in
    Update (fun tx =>
      if match pd_sources tx with Some sources => negb (bool_decide (size sources = 0%nat)) | None => false end
      then Err (PoolErr "regional source registry requires atomic source-qualified round closure")
      else Ok (tt, tx <| pd_round_receipts := <[rr_ID receipt := receipt]> (pd_round_receipts tx) |>)) db.

Definition ListRoundReceipts (limit : Z) db : list RoundReceipt := newest rr_CreatedAt limit (pd_round_receipts db).
Definition GetRoundReceipt (id : string) db : presult RoundReceipt :=
  if bool_decide (id = "") then Err (PoolErr "round receipt id is required")
  else match pd_round_receipts db !! id with None => Err (PoolErr "round receipt not found") | Some r => Ok r end.
Definition FindLatestRoundReceiptByRoundID (roundID : string) db : presult RoundReceipt :=
  if bool_decide (roundID = "") then Err (PoolErr "round receipt round_id is required")
  else match List.find (fun item => bool_decide (rr_RoundID item = roundID)) (ListRoundReceipts 0 db) with
       | Some item => Ok item
       | None => Err (PoolErr "round receipt for round_id not found")
       end.

(** ** Writes of windows and batches outside the regional close *)

(** What [guardRegionalAccounting] lets change of a regional row. *)
Definition window_economics (w : SettlementWindow) : SettlementWindow :=
  ((w <| sw_Status := "" |>) <| sw_ApprovedAt := None |>) <| sw_UpdatedAt := None |>.
Definition batch_economics (b : PayoutBatch) : PayoutBatch :=
  ((((((b <| pb_Status := "" |>) <| pb_ApprovedBy := "" |>) <| pb_FailureReason := "" |>) <| pb_ApprovedAt := None |>)
    <| pb_SubmittedAt := None |>) <| pb_PaidAt := None |>) <| pb_UpdatedAt := None |>.

Definition guard_window (old : option SettlementWindow) (b : SettlementWindow) : presult unit :=
  match old with
  | None => if bool_decide (sw_PoolID b = "") then Ok tt else Err (PoolErr "regional window requires atomic close")
  | Some a =>
      if bool_decide (sw_PoolID a = "") && bool_decide (sw_PoolID b = "") then Ok tt
      else if bool_decide (sw_PoolID a = "") then Err (PoolErr "regional window requires atomic close")
      else if bool_decide (window_economics a = window_economics b) then Ok tt
      else Err (PoolErr "regional window economics are immutable")
  end.
Definition guard_batch (old : option PayoutBatch) (b : PayoutBatch) : presult unit :=
  match old with
  | None => if bool_decide (pb_PoolID b = "") then Ok tt else Err (PoolErr "regional batch requires atomic close")
  | Some a =>
      if bool_decide (pb_PoolID a = "") && bool_decide (pb_PoolID b = "") then Ok tt
      else if bool_decide (pb_PoolID a = "") then Err (PoolErr "regional batch requires atomic close")
      else if bool_decide (pb_Status a = "pending_approval") && negb (bool_decide (pb_Status b = pb_Status a))
      then Err (PoolErr "regional approval requires atomic intent creation")
      else if negb (bool_decide (pb_Status a = "pending_approval")) &&
              (bool_decide (pb_Status b = "pending_approval") || negb (bool_decide (pb_ApprovedBy a = pb_ApprovedBy b)) ||
               negb (bool_decide (pb_ApprovedAt a = pb_ApprovedAt b)))
      then Err (PoolErr "regional approval is immutable")
      else if bool_decide (batch_economics a = batch_economics b) then Ok tt
      else Err (PoolErr "regional payout economics are immutable")
  end.

Definition status_or (fallback status : string) : string := if bool_decide (status = "") then fallback else status.

Definition PutSettlementWindow (window : SettlementWindow) (now : Z) db : presult unit * PoolDB M :=
  let window := ((window <| sw_CreatedAt := created_or now (sw_CreatedAt window) |>) <| sw_UpdatedAt := Some now |>)
                <| sw_Status := status_or "open" (sw_Status window) |> in
  if bool_decide (sw_ID window = "") then (Err (PoolErr "key is required"), db)
  else Update (fun tx =>
    let! guarded := guard_window (pd_windows tx !! sw_ID window) window in
    Ok (tt, tx <| pd_windows := <[sw_ID window := window]> (pd_windows tx) |>)) db.
Definition PutPayoutBatch (batch : PayoutBatch) (now : Z) db : presult unit * PoolDB M :=
  let batch := ((batch <| pb_CreatedAt := created_or now (pb_CreatedAt batch) |>) <| pb_UpdatedAt := Some now |>)
               <| pb_Status := status_or "pending_approval" (pb_Status batch) |> in
  if bool_decide (pb_ID batch = "") then (Err (PoolErr "key is required"), db)
  else Update (fun tx =>
    let! guarded := guard_batch (pd_batches tx !! pb_ID batch) batch in
    Ok (tt, tx <| pd_batches := <[pb_ID batch := batch]> (pd_batches tx) |>)) db.

Definition GetSettlementWindow (id : string) db : presult SettlementWindow := getJSON (pd_windows db) id.
Definition GetPayoutBatch (id : string) db : presult PayoutBatch := getJSON (pd_batches db) id.

Definition AppendAuditEvent (event : AuditEvent) (now : Z) db : presult unit * PoolDB M :=
  let event := (event <| ae_ID := if bool_decide (ae_ID event = "") then rfc3339 (Some now) else ae_ID event |>)
               <| ae_OccurredAt := created_or now (ae_OccurredAt event) |> in
  Update (fun tx => Ok (tt, tx <| pd_audit := <[ae_ID event := event]> (pd_audit tx) |>)) db.
End store.

(** Lists ordered by the contents of the rows. *)
Definition window_order (a b : SettlementWindow) : Prop :=
  String.ltb (sw_StartRoundID a) (sw_StartRoundID b) = true \/
  sw_StartRoundID a = sw_StartRoundID b /\ String.leb (sw_ID a) (sw_ID b) = true.
#[export] Instance window_order_dec : RelDecision window_order.
Proof. intros a b. unfold window_order. apply _. Defined.
Definition batch_order (a b : PayoutBatch) : Prop :=
  instant (pb_CreatedAt b) < instant (pb_CreatedAt a) \/
  instant (pb_CreatedAt a) = instant (pb_CreatedAt b) /\ String.leb (pb_ID a) (pb_ID b) = true.
#[export] Instance batch_order_dec : RelDecision batch_order.
Proof. intros a b. unfold batch_order. apply _. Defined.

Definition ListSettlementWindows `{Bolt M} (db : PoolDB M) : list SettlementWindow := listJSON window_order (pd_windows db).
Definition ListPayoutBatches `{Bolt M} (db : PoolDB M) : list PayoutBatch := listJSON batch_order (pd_batches db).
