(* ===== verification/PoolRegional.v ===== *)
(** * Rounds, windows and payouts of a region

    pool-controller/internal/payoutpolicy: what the policy approves unattended;
    pool-controller/internal/repo: closing a round on complete evidence
    (regional_rounds.go, regional_corrections.go), closing a window of rounds
    (regional_window_accounting.go, regional_window_schedule.go), approving its
    batch (regional_approval.go), the life of a payout intent in the store
    (receipts.go) and the summary (regional_accounting_summary.go). *)
From Stdlib Require Import SpecFloat.
From S2P Require Import Prelude.
From S2P Require Import GoBytes.
From S2P Require Import GoCodecs.
From S2P Require Import GoStrings.
From S2P Require Import Bolt.
From S2P Require Import ChainErrors.
From S2P Require Import WorkLedger.
From S2P Require Import PoolTypes.
From S2P Require Import PoolRevenue.
From S2P Require Import PoolAccounting.
From S2P Require Import PoolStore.

(** ** The policy: when a batch may be approved without a person

    pool-controller/internal/payoutpolicy/policy.go.  The only floating-point
    number of the policy is a float64 of the Standard Library's [SpecFloat];
    [stat] says whether a file exists. *)
(** *** Floats *)
Definition prec : Z := 53.
Definition emax : Z := 1024.
(** [float64(n)] and the division of float64. *)
Definition float_of (n : Z) : spec_float := binary_normalize prec emax n 0 false.
Definition float_div (x y : spec_float) : spec_float := SFdiv prec emax x y.
Definition float_sub (x y : spec_float) : spec_float := SFsub prec emax x y.
(** [float64(ppm) / 1_000_000]. *)
Definition scale_of (ppm : Z) : spec_float := float_div (float_of ppm) (float_of 1000000).

Record AutoApprove := mkAutoApprove {
  aa_Enabled : bool;
  aa_MaxBatchWei : string;
  aa_MaxPerMemberWei : string;
  aa_RequireScaleGTE : spec_float;
  aa_MaxBatchesPerDay : Z;
}.
Record PayoutPolicy := mkPayoutPolicy {
  py_Shadow : bool;
  py_AutoApprove : AutoApprove;
}.
Definition no_policy : PayoutPolicy := mkPayoutPolicy false (mkAutoApprove false "" "" (S754_zero false) 0).

Record PolicyDecision := mkPolicyDecision {
  dc_Approved : bool;
  dc_Shadow : bool;
  dc_Reason : string;
  dc_PolicyHash : string;
}.
(** What a decision is made about. *)
Record Batch := mkBatch {
  ba_ModelB : bool;
  ba_TotalWei : string;
  ba_MaxPerMemberWei : string;
  ba_ScalePPM : Z;
  ba_Anomaly : string;
  ba_BatchesToday : Z;
}.

Definition decimal_string (s : string) : bool := bool_decide (is_Some (SetString10 s)).

Definition Policy_Validate (p : PayoutPolicy) : result string unit :=
  let a := py_AutoApprove p in
  if negb (aa_Enabled a) then Ok tt
  else if blank (aa_MaxBatchWei a) then Err "auto_approve.max_batch_wei is required when auto_approve is enabled"
  else if negb (decimal_string (aa_MaxBatchWei a)) then Err "auto_approve.max_batch_wei must be a decimal string"
  else if negb (blank (aa_MaxPerMemberWei a)) && negb (decimal_string (TrimSpace (aa_MaxPerMemberWei a)))
  then Err "auto_approve.max_per_member_wei must be a decimal string"
  else if SFltb (aa_RequireScaleGTE a) (float_of 0) || SFltb (float_of 1) (aa_RequireScaleGTE a)
  then Err "auto_approve.require_scale_gte must be between 0 and 1"
  else if aa_MaxBatchesPerDay a <? 0 then Err "auto_approve.max_batches_per_day must be >= 0"
  else Ok tt.

(** The policy's file: missing, unreadable, or its bytes. *)
Inductive file := Missing | Unreadable | Bytes (raw : string).

(** [decode] is the strict JSON decoder. *)
Definition Load (decode : string -> option PayoutPolicy) (path : string) (f : file) : result string (PayoutPolicy * string) :=
  if blank path then Ok (no_policy, "")
  else
    match f with
    | Missing => Ok (no_policy, "")
    | Unreadable => Err "read payout policy"
    | Bytes raw =>
        match decode raw with
        | None => Err "parse payout policy"
        | Some policy => let! valid := Policy_Validate policy in Ok (policy, hex_encode (sha256 raw))
        end
    end.

Definition Paused (stat : string -> bool) (pausePath : string) : bool := if blank pausePath then false else stat pausePath.

(** [None] when one of the two is not a number. *)
Definition exceeds (amount limit : string) : option bool :=
  match SetString10 (TrimSpace amount), SetString10 (TrimSpace limit) with
  | Some value, Some bound => Some (bound <? value)
  | _, _ => None
  end.

Definition Evaluate (stat : string -> bool) (policy : PayoutPolicy) (hash : string) (batch : Batch) (pausePath : string) : PolicyDecision :=
  let refuse reason := mkPolicyDecision false (py_Shadow policy) reason hash in
  let a := py_AutoApprove policy in
  if Paused stat pausePath then refuse ("paused: " +:+ pausePath +:+ " exists")
  else if negb (aa_Enabled a) then refuse "auto_approve is not enabled"
  else if negb (blank (ba_Anomaly batch)) then refuse ("window has an attribution anomaly: " +:+ ba_Anomaly batch)
  else if (0 <? aa_MaxBatchesPerDay a) && (aa_MaxBatchesPerDay a <=? ba_BatchesToday batch) then refuse "daily limit reached"
  else if negb (ba_ModelB batch) && SFltb (float_of 0) (aa_RequireScaleGTE a) &&
          SFltb (scale_of (ba_ScalePPM batch)) (aa_RequireScaleGTE a)
  then refuse "settlement scale below required"
  else
    match exceeds (ba_TotalWei batch) (aa_MaxBatchWei a) with
    | None => refuse "batch total is not a decimal amount"
    | Some true => refuse "batch total exceeds max_batch_wei"
    | Some false =>
        let member := if blank (aa_MaxPerMemberWei a) then Some false
                      else exceeds (ba_MaxPerMemberWei batch) (TrimSpace (aa_MaxPerMemberWei a)) in
        match member with
        | None => refuse "per-member amount is not a decimal amount"
        | Some true => refuse "a member's amount exceeds max_per_member_wei"
        | Some false =>
            if py_Shadow policy then mkPolicyDecision false true "shadow mode: would have approved" hash
            else mkPolicyDecision true false "within policy" hash
        end
    end.

Example scale_short : SFltb (scale_of 989999) (float_sub (float_of 1) (float_div (float_of 1) (float_of 100))) = true.
Proof. vm_compute. reflexivity. Qed.
Example scale_boundary : SFltb (scale_of 990000) (float_sub (float_of 1) (float_div (float_of 1) (float_of 100))) = false.
Proof. vm_compute. reflexivity. Qed.

(** An approval is for an amount within the policy's bounds. *)
Lemma exceeds_within amount limit :
  exceeds amount limit = Some false ->
  exists value bound, SetString10 (TrimSpace amount) = Some value /\ SetString10 (TrimSpace limit) = Some bound /\ value <= bound.
Proof.
  unfold exceeds. destruct (SetString10 (TrimSpace amount)) as [value|]; [|done].
  destruct (SetString10 (TrimSpace limit)) as [bound|]; [|done]. intros [= E%Z.ltb_ge]. by exists value, bound.
Qed.

(** ** Reports in the order of their sources *)
Definition by_source (a b : Report) : Prop := String.le (rp_SourceID a) (rp_SourceID b).
#[export] Instance by_source_dec : RelDecision by_source.
Proof. intros a b. unfold by_source. apply _. Defined.
Definition by_work_source (a b : WorkReport) : Prop := String.le (wp_SourceID a) (wp_SourceID b).
#[export] Instance by_work_source_dec : RelDecision by_work_source.
Proof. intros a b. unfold by_work_source. apply _. Defined.

(** A round without what a later observation of it may change. *)
Definition unstamped (r : Report) : Report :=
  (((((r <| rp_ObservedAt := None |>) <| rp_ObservedHead := 0 |>) <| rp_ObservedHeadHash := "" |>) <| rp_FinalizedBlock := 0 |>)
   <| rp_FinalizedBlockHash := "" |>) <| rp_CompleteThroughRound := 0 |>.
Definition unstamped_work (r : WorkReport) : WorkReport := (r <| wp_ObservedAt := None |>) <| wp_ClosedThroughRound := 0 |>.
Definition normalize (r : RoundReceipt) : RoundReceipt :=
  ((r <| rr_CreatedAt := None |>) <| rr_RevenueReports := merge_sort by_source (unstamped <$> rr_RevenueReports r) |>)
  <| rr_WorkReports := merge_sort by_work_source (unstamped_work <$> rr_WorkReports r) |>.
Definition sameRegionalRound (a b : RoundReceipt) : bool := bool_decide (normalize a = normalize b).

Section regional.
Context `{Bolt M} `{PoolWire}.
Variable pool : string.
Implicit Types (tx db : PoolDB M).

(** ** Corrections: evidence against a closed round *)
Definition recordRegionalCorrection (prior next : RoundReceipt) (now : Z) tx : PoolDB M :=
  let id := rr_RoundID prior +:+ "-" +:+ hex_encode (sha256 (json_RoundReceipt next)) in
  let bucket := opt_bucket (pd_corrections tx) in
  match bucket !! id with
  | Some _ => tx <| pd_corrections := Some bucket |>
  | None =>
      let hold := mkRegionalCorrectionHold id (rr_PoolID prior) (rr_RoundID prior)
                    "conflicting post-close accounting evidence; manual review required" now prior next in
      tx <| pd_corrections := Some (<[id := hold]> bucket) |>
  end.
Definition RegionalCorrectionHolds db : list RegionalCorrectionHold := (ForEach (opt_bucket (pd_corrections db))).*2.

(** A round number that cannot be read refuses as well. *)
Definition corrects (start length : Z) (h : RegionalCorrectionHold) : bool :=
  match ParseUint (ch_RoundID h) with
  | None => true
  | Some round => (start <=? round) && (round - start <? length)
  end.
Definition rejectCorrectedWindow (window : SettlementWindow) tx : presult unit :=
  match ParseUint (sw_StartRoundID window) with
  | None => Err (PoolErr "strconv.ParseUint: invalid syntax")
  | Some start =>
      if existsb (corrects start (u64 (sw_LengthRounds window))) (RegionalCorrectionHolds tx)
      then Err (PoolErr "regional correction hold requires manual review")
      else Ok tt
  end.

(** ** Closing a round *)

(** Terms that must be published before their rounds close. *)
Definition blocks_round (round : Z) (p : TermsPublication) : bool :=
  negb (resolved p) && (rt_EffectiveRound (tp_Terms p) <=? round).

(** The sources that take part in the round, by their id. *)
Definition round_sources (round : Z) tx : M RevenueSource :=
  foldl (fun sources s => <[sr_SourceID (rs_Source s) := s]> sources) ∅
    (List.filter (participates round) (ForEach (opt_bucket (pd_sources tx))).*2).

(** One valid report for each source; their sum. *)
Fixpoint check_reports (sources : M RevenueSource) (round now : Z) (reports : list Report) (seen : gset string) (total : Z) :
    presult Z :=
  match reports with
  | [] => Ok total
  | report :: reports =>
      match sources !! rp_SourceID report with
      | None => Err (PoolErr "unexpected revenue source")
      | Some source =>
          if bool_decide (rp_SourceID report ∈ seen) then Err (PoolErr "duplicate revenue source")
          else
            let! valid := Report_Validate report (rs_Source source) round now in
            let amount := default 0 (SetString10 (rp_RevenueWei report)) in
            check_reports sources round now reports ({[rp_SourceID report]} ∪ seen) (total + amount)
      end
  end.
Fixpoint check_work_reports (sources : M RevenueSource) (round now : Z) (reports : list WorkReport) (seen : gset string) :
    presult unit :=
  match reports with
  | [] => Ok tt
  | report :: reports =>
      match sources !! wp_SourceID report with
      | None => Err (PoolErr "unexpected work source")
      | Some source =>
          if bool_decide (wp_SourceID report ∈ seen) then Err (PoolErr "duplicate work source")
          else
            let! valid := WorkReport_Validate report (rs_Source source) round now in
            check_work_reports sources round now reports ({[wp_SourceID report]} ∪ seen)
      end
  end.

(** The final receipts of the round, as they are stored. *)
Definition round_work (roundID : string) tx : list WorkReceipt :=
  List.filter (fun w => bool_decide (pw_RoundID w = roundID) && bool_decide (pw_Status w = "final")) (ForEach (pd_work_receipts tx)).*2.

(** Each must be included and say who did the work; what it contributes. *)
Definition contributes (sources : M RevenueSource) (included : list string) (w : WorkReceipt) : presult Contribution :=
  if negb (bool_decide (pw_ID w ∈ included)) || negb (bool_decide (pw_PoolID w = pool))
  then Err (PoolErr "receipt set incomplete or wrong pool")
  else if negb (bool_decide (is_Some (sources !! pw_SourceID w))) then Err (PoolErr "receipt source not registered for round")
  else
    match SetString10 (pw_AttributedRevenueWei w) with
    | None => Err (PoolErr "receipt lacks accepted billed-work attribution")
    | Some amount =>
        if (amount <? 0) || bool_decide (pw_MemberEthAddress w = "") || bool_decide (pw_OfferingID w = "") ||
           bool_decide (pw_BackendID w = "")
        then Err (PoolErr "receipt lacks accepted billed-work attribution")
        else Ok (contribution_of w amount)
    end.
Fixpoint contributions (sources : M RevenueSource) (included : list string) (work : list WorkReceipt) : presult (list Contribution) :=
  match work with
  | [] => Ok []
  | w :: work =>
      let! c := contributes sources included w in
      let! rest := contributions sources included work in
      Ok (c :: rest)
  end.

(** The digest and the number of receipts of each source. *)
Definition covers (all : list Contribution) (proof : WorkReport) : bool :=
  let mine := List.filter (fun c => bool_decide (co_SourceID c = wp_SourceID proof)) all in
  match WorkDigest mine with
  | Ok hash => (wp_ReceiptCount proof =? u64 (Z.of_nat (length mine))) && bool_decide (wp_ReceiptDigest proof = hash)
  | Err _ => false
  end.

Definition put_round (receipt : RoundReceipt) tx : PoolDB M :=
  (tx <| pd_round_receipts := <[rr_ID receipt := receipt]> (pd_round_receipts tx) |>)
  <| pd_round_numbers := Some (<[rr_RoundID receipt := rr_ID receipt]> (opt_bucket (pd_round_numbers tx))) |>.

(** Everything that must hold before a round is closed. *)
Definition check_round (receipt : RoundReceipt) (round now : Z) tx : presult unit :=
  if existsb (blocks_round round) (ForEach (pd_publications tx)).*2
  then Err (PoolErr "terms publication must finish before closing its rounds")
  else if bool_decide (pd_sources tx = None) then Err (PoolErr "no source registry")
  else
    let sources := round_sources round tx in
    if bool_decide (size sources = 0%nat) || negb (bool_decide (length (rr_RevenueReports receipt) = size sources)) ||
       negb (bool_decide (length (rr_WorkReports receipt) = size sources))
    then Err (PoolErr "required source evidence missing")
    else
      let! total := check_reports sources round now (rr_RevenueReports receipt) ∅ 0 in
      if negb (bool_decide (dec_string total = rr_PoolRevenueWei receipt))
      then Err (PoolErr "regional revenue differs from complete source sum")
      else
        let! reported := check_work_reports sources round now (rr_WorkReports receipt) ∅ in
        if negb (bool_decide (NoDup (rr_IncludedWorkReceiptIDs receipt))) then Err (PoolErr "duplicate included receipt")
        else
          let work := round_work (rr_RoundID receipt) tx in
          let! all := contributions sources (rr_IncludedWorkReceiptIDs receipt) work in
          if negb (bool_decide (length work = length (rr_IncludedWorkReceiptIDs receipt))) ||
             negb (bool_decide (snapshot_of work = rr_ReceiptSnapshot receipt))
          then Err (PoolErr "receipt snapshot changed or incomplete")
          else if negb (forallb (covers all) (rr_WorkReports receipt))
          then Err (PoolErr "source receipt coverage incomplete")
          else Ok tt.

(** The transaction: [true] when the round is closed and the evidence differs. *)
Definition close_round (receipt : RoundReceipt) (round now : Z) tx : presult (bool * PoolDB M) :=
  match opt_bucket (pd_round_numbers tx) !! rr_RoundID receipt with
  | Some priorID =>
      match pd_round_receipts tx !! priorID with
      | None => Err (PoolErr "unexpected end of JSON input")
      | Some prior =>
          if sameRegionalRound prior receipt then Ok (false, tx)
          else Ok (true, recordRegionalCorrection prior receipt now tx)
      end
  | None =>
      let! checked := check_round receipt round now tx in
      Ok (false, put_round (receipt <| rr_CreatedAt := created_or now (rr_CreatedAt receipt) |>) tx)
  end.

Definition SaveRegionalRound (receipt : RoundReceipt) (now : Z) db : presult unit * PoolDB M :=
  match canonical_round (rr_RoundID receipt) with
  | None => (Err (PoolErr "invalid regional round identity"), db)
  | Some round =>
      if negb (bool_decide (rr_PoolID receipt = pool)) || bool_decide (rr_ID receipt = "")
      then (Err (PoolErr "invalid regional round identity"), db)
      else if negb (bool_decide (rr_PoolCutWei receipt = "0")) ||
              negb (bool_decide (rr_DistributableWei receipt = rr_PoolRevenueWei receipt)) ||
              negb (bool_decide (rr_MemberPayouts receipt = []))
      then (Err (PoolErr "regional rounds cannot allocate payouts before window close"), db)
      else
        match Update (close_round receipt round now) db with
        | (Err e, db) => (Err e, db)
        | (Ok true, db) => (Err (PoolErr "closed regional round is immutable; correction evidence held for manual review"), db)
        | (Ok false, db) => (Ok tt, db)
        end
  end.

(** ** Closing a window *)
Definition max_int64 : Z := 2 ^ 63 - 1.
Definition max_uint64 : Z := two64 - 1.

(** The terms in force at a round, and the round the next ones start. *)
Definition window_terms (start : Z) (found : option RegionalTerms * Z) (candidate : RegionalTerms) : option RegionalTerms * Z :=
  let '(term, next) := found in
  (if (rt_EffectiveRound candidate <=? start) &&
      match term with None => true | Some t => rt_EffectiveRound t <? rt_EffectiveRound candidate end
   then Some candidate else term,
   if (start <? rt_EffectiveRound candidate) && (rt_EffectiveRound candidate <? next) then rt_EffectiveRound candidate else next).

Record gathering := mkgathering {
  ga_chain : Z;
  ga_revenue : Z;
  ga_rounds : list string;
  ga_work : list WorkReceipt;
  ga_seen : gset string;
}.
Definition ga_empty : gathering := mkgathering 0 0 [] [] ∅.

(** All sources pay out on one chain. *)
Fixpoint agree_chain (chain : Z) (reports : list Report) : presult Z :=
  match reports with
  | [] => Ok chain
  | report :: reports =>
      if (rp_ChainID report =? 0) || (negb (chain =? 0) && negb (chain =? rp_ChainID report))
      then Err (PoolErr "regional sources disagree on payout chain")
      else agree_chain (rp_ChainID report) reports
  end.

(** The acceptance under which a receipt's work was done. *)
Definition accepted_terms (receipt : WorkReceipt) tx : bool :=
  match pd_acceptance tx !! acceptanceKey (pw_MemberEthAddress receipt) (pw_TermsVersion receipt) with
  | None => false
  | Some accepted =>
      bool_decide (ta_PoolID accepted = pool) && bool_decide (ta_TermsVersion accepted = pw_TermsVersion receipt) &&
      EqualFold (ta_MemberEthAddress accepted) (pw_MemberEthAddress receipt) && bool_decide (is_Some (ta_AcceptedAt accepted))
  end.
Fixpoint gather_work (version roundKey : string) tx (ids : list string) (g : gathering) : presult gathering :=
  match ids with
  | [] => Ok g
  | id :: ids =>
      if bool_decide (id ∈ ga_seen g) then Err (PoolErr "duplicate window receipt")
      else
        match pd_work_receipts tx !! id with
        | None => Err (PoolErr "unexpected end of JSON input")
        | Some receipt =>
            if negb (bool_decide (pw_RoundID receipt = roundKey)) then Err (PoolErr "work receipt round changed")
            else if negb (bool_decide (pw_TermsVersion receipt = version))
            then Err (PoolErr "receipt terms do not match the window policy")
            else if negb (accepted_terms receipt tx) then Err (PoolErr "receipt lacks matching accepted regional terms")
            else gather_work version roundKey tx ids
                   (mkgathering (ga_chain g) (ga_revenue g) (ga_rounds g) (ga_work g ++ [receipt]) ({[id]} ∪ ga_seen g))
        end
  end.
Definition gather_round (version : string) tx (number : Z) (g : gathering) : presult gathering :=
  let roundKey := dec_string number in
  match opt_bucket (pd_round_numbers tx) !! roundKey with
  | None => Err (PoolErr "round is incomplete")
  | Some id =>
      match pd_round_receipts tx !! id with
      | None => Err (PoolErr "unexpected end of JSON input")
      | Some round =>
          if negb (bool_decide (rr_PoolID round = pool)) || negb (bool_decide (rr_RoundID round = roundKey)) ||
             bool_decide (rr_RevenueReports round = []) || bool_decide (rr_WorkReports round = [])
          then Err (PoolErr "round lacks regional evidence")
          else
            let! chain := agree_chain (ga_chain g) (rr_RevenueReports round) in
            let! amount := Wei (rr_PoolRevenueWei round) in
            gather_work version roundKey tx (rr_IncludedWorkReceiptIDs round)
              (mkgathering chain (ga_revenue g + amount) (ga_rounds g ++ [rr_ID round]) (ga_work g) (ga_seen g))
      end
  end.
(** The loop over the numbers of the window's rounds. *)
Fixpoint gather (version : string) tx (numbers : list Z) (g : gathering) : presult gathering :=
  match numbers with
  | [] => Ok g
  | number :: numbers => let! g := gather_round version tx number g in gather version tx numbers g
  end.

Definition window_of (id : string) (term : RegionalTerms) (start finish : Z) (g : gathering) (a : RegionalAllocation) (now : Z) :
    SettlementWindow :=
  mkSettlementWindow (ga_chain g) pool (rt_Version term) (rt_CommissionBPS term) (Some a) id (dec_string start) (dec_string finish)
    (rt_WindowRounds term) "pending_approval" (al_BilledWeightWei a) (al_RevenueWei a) 0 "" (ga_rounds g) []
    (Some now) (Some now) (Some now) None.
Definition batch_of (id : string) (a : RegionalAllocation) (now : Z) : PayoutBatch :=
  mkPayoutBatch pool ("batch-" +:+ id) id "pending_approval" (al_MemberPayoutWei a) (al_Members a) "" None None None ""
    (Some now) (Some now).
Definition put_window (start : Z) (window : SettlementWindow) (batch : PayoutBatch) tx : PoolDB M :=
  ((tx <| pd_windows := <[sw_ID window := window]> (pd_windows tx) |>)
   <| pd_batches := <[pb_ID batch := batch]> (pd_batches tx) |>)
  <| pd_window_numbers := Some (<[dec_string start := sw_ID window]> (opt_bucket (pd_window_numbers tx))) |>.

Definition close_window (start now : Z) tx : presult ((SettlementWindow * PayoutBatch) * PoolDB M) :=
  match opt_bucket (pd_window_numbers tx) !! dec_string start with
  | Some id =>
      match pd_windows tx !! id, pd_batches tx !! ("batch-" +:+ id) with
      | Some window, Some batch => Ok ((window, batch), tx <| pd_window_numbers := Some (opt_bucket (pd_window_numbers tx)) |>)
      | _, _ => Err (PoolErr "unexpected end of JSON input")
      end
  | None =>
      let '(found, next) := foldl (window_terms start) (None, max_uint64) (ForEach (pd_terms tx)).*2 in
      match found with
      | None => Err (PoolErr "window start is not aligned to regional terms")
      | Some term =>
          if (rt_WindowRounds term =? 0) || (max_int64 <? start) || (max_int64 - start <? rt_WindowRounds term) ||
             negb ((start - rt_EffectiveRound term) mod rt_WindowRounds term =? 0)
          then Err (PoolErr "window start is not aligned to regional terms")
          else
            let finish := start + rt_WindowRounds term - 1 in
            if next <=? finish then Err (PoolErr "window crosses a terms boundary")
            else if bool_decide (pd_round_numbers tx = None) then Err (PoolErr "regional rounds have not reconciled")
            else
              let! g := gather (rt_Version term) tx (seqZ start (rt_WindowRounds term)) ga_empty in
              let! a := ModelB pool (dec_string (ga_revenue g)) (rt_CommissionBPS term) (ga_work g) in
              let id := pool +:+ "-window-" +:+ dec_string start +:+ "-" +:+ dec_string finish in
              let window := window_of id term start finish g a now in
              let batch := batch_of id a now in
              if bool_decide (is_Some (pd_windows tx !! id)) || bool_decide (is_Some (pd_batches tx !! pb_ID batch))
              then Err (PoolErr "window identity already exists outside regional index")
              else Ok ((window, batch), put_window start window batch tx)
      end
  end.
Definition CloseRegionalWindow (start now : Z) db : presult (SettlementWindow * PayoutBatch) * PoolDB M :=
  Update (close_window start now) db.

(** ** Closing all windows that ended *)
Definition error_text (e : pool_error) : string :=
  match e with PoolErr msg => msg | ErrPoolNotFound => "not found" | ErrTermsNotAccepted => "regional terms acceptance required" end.

Fixpoint highest_round (keys : list string) (highest : Z) : presult Z :=
  match keys with
  | [] => Ok highest
  | key :: keys =>
      match ParseUint key with
      | None => Err (PoolErr "strconv.ParseUint: invalid syntax")
      | Some n => highest_round keys (if highest <? n then n else highest)
      end
  end.

(** A window that cannot be closed is held, one that was closed is not. *)
Definition attempt_window (start now : Z) db : PoolDB M :=
  match CloseRegionalWindow start now db with
  | (Err e, db) =>
      db <| pd_window_holds := <[dec_string start := mkRegionalWindowHold start (error_text e) now]> (pd_window_holds db) |>
  | (Ok _, db) => db <| pd_window_holds := delete (dec_string start) (pd_window_holds db) |>
  end.

(** The loop over the windows of one term that end by [limit]; one step per
    window is enough fuel. *)
Fixpoint close_until (fuel : nat) (rounds limit now start : Z) db : PoolDB M :=
  match fuel with
  | O => db
  | S fuel =>
      if (start <=? limit) && (rounds - 1 <=? limit - start) then
        let db := attempt_window start now db in
        if max_uint64 - rounds <? start then db else close_until fuel rounds limit now (start + rounds) db
      else db
  end.
Definition windows_fuel (rounds limit start : Z) : nat := Z.to_nat ((limit - start + 1) / rounds).

(** The terms one after the other, up to where the next ones start. *)
Fixpoint close_terms (highest now : Z) (terms : list RegionalTerms) db : presult unit * PoolDB M :=
  match terms with
  | [] => (Ok tt, db)
  | term :: terms' =>
      if rt_WindowRounds term =? 0 then (Err (PoolErr "invalid persisted regional window length"), db)
      else
        let limit := match terms' with
                     | next :: _ => if rt_EffectiveRound next <=? highest then rt_EffectiveRound next - 1 else highest
                     | [] => highest
                     end in
        close_terms highest now terms'
          (close_until (windows_fuel (rt_WindowRounds term) limit (rt_EffectiveRound term)) (rt_WindowRounds term) limit now
             (rt_EffectiveRound term) db)
  end.
Definition CloseReadyRegionalWindows (now : Z) db : presult unit * PoolDB M :=
  match ListRegionalTerms db with
  | [] => (Ok tt, db)
  | terms =>
      match highest_round (closed_keys db) 0 with
      | Err e => (Err e, db)
      | Ok highest => close_terms highest now terms db
      end
  end.

(** ** Approval *)
Record RegionalApprovalPolicy := mkRegionalApprovalPolicy {
  ap_Policy : PayoutPolicy;
  ap_Hash : string;
  ap_PausePath : string;
}.

Definition day : Z := 24 * 3600 * second.
Definition policy_actor : string := "payout-policy:".
(** Approved by a policy within the last day. *)
Definition approved_today (now : Z) (b : PayoutBatch) : bool :=
  hasPrefix (pb_ApprovedBy b) policy_actor && (now - day <=? instant (pb_ApprovedAt b)).

Fixpoint largest_line (largest : Z) (lines : list PayoutLineItem) : presult Z :=
  match lines with
  | [] => Ok largest
  | line :: lines =>
      let! n := Wei (li_AmountWei line) in
      largest_line (if largest <? n then n else largest) lines
  end.
Definition policy_decision (stat : string -> bool) (policy : RegionalApprovalPolicy) (window : SettlementWindow) (batch : PayoutBatch)
    (now : Z) tx : presult PolicyDecision :=
  let! largest := largest_line 0 (pb_LineItems batch) in
  let today := Z.of_nat (length (List.filter (approved_today now) (ForEach (pd_batches tx)).*2)) in
  Ok (Evaluate stat (ap_Policy policy) (ap_Hash policy)
        (mkBatch true (pb_TotalAmountWei batch) (dec_string largest) 0 (sw_Anomaly window) today) (ap_PausePath policy)).

(** "%04d". *)
Definition dec4 (n : Z) : string := digits 4 n.
Definition intent_of (window : SettlementWindow) (batch : PayoutBatch) (i : nat) (line : PayoutLineItem) (now : Z) : PayoutIntent :=
  mkPayoutIntent 1 pool (pb_ID batch) ("payout-" +:+ pb_ID batch +:+ "-" +:+ dec4 (Z.of_nat i)) (Some now) (sw_ID window) (sw_ID window)
    (li_MemberEthAddress line) (li_DestinationAddress line) (sw_ChainID window) "native_eth" (li_AmountWei line) "exported"
    (Some now) None "" "" None None None None 0 None "" "" "".
(** One intent for each line that is not zero; their sum. *)
Fixpoint put_intents (window : SettlementWindow) (batch : PayoutBatch) (now : Z) (i : nat) (lines : list PayoutLineItem) (total : Z) tx :
    presult (Z * PoolDB M) :=
  match lines with
  | [] => Ok (total, tx)
  | line :: lines =>
      let! amount := Wei (li_AmountWei line) in
      if amount =? 0 then put_intents window batch now (S i) lines (total + amount) tx
      else
        let intent := intent_of window batch i line now in
        if bool_decide (is_Some (pd_intents tx !! pi_ID intent)) then Err (PoolErr "regional intent exists without atomic approval")
        else put_intents window batch now (S i) lines (total + amount)
               (tx <| pd_intents := <[pi_ID intent := intent]> (pd_intents tx) |>)
  end.

Definition integrity (window : SettlementWindow) (batch : PayoutBatch) : bool :=
  match sw_RegionalAllocation window with
  | None => false
  | Some a =>
      bool_decide (sw_PoolID window = pool) && bool_decide (sw_Anomaly window = "") && negb (sw_ChainID window =? 0) &&
      bool_decide (al_MemberPayoutWei a = pb_TotalAmountWei batch) &&
      (bool_decide (al_Members a = []) && bool_decide (pb_LineItems batch = []) || bool_decide (al_Members a = pb_LineItems batch))
  end.
Definition approved_batch (actor : string) (now : Z) (b : PayoutBatch) : PayoutBatch :=
  (((b <| pb_Status := "approved" |>) <| pb_ApprovedBy := actor |>) <| pb_ApprovedAt := Some now |>) <| pb_UpdatedAt := Some now |>.
Definition approved_window (now : Z) (w : SettlementWindow) : SettlementWindow :=
  ((w <| sw_Status := "approved" |>) <| sw_ApprovedAt := Some now |>) <| sw_UpdatedAt := Some now |>.
Definition approval_audit (actor : string) (window : SettlementWindow) (batch : PayoutBatch) (now : Z) : AuditEvent :=
  mkAuditEvent ("approval-" +:+ pb_ID batch) "payout_batch_approved" (Some now) actor (pb_ID batch) "payout_batch"
    [("pool_id", DString pool); ("settlement_window_id", DString (sw_ID window)); ("terms_version", DString (sw_TermsVersion window));
     ("total_amount_wei", DString (pb_TotalAmountWei batch))].
Definition put_approval (window : SettlementWindow) (batch : PayoutBatch) (audit : AuditEvent) tx : PoolDB M :=
  ((tx <| pd_batches := <[pb_ID batch := batch]> (pd_batches tx) |>)
   <| pd_windows := <[sw_ID window := window]> (pd_windows tx) |>)
  <| pd_audit := <[ae_ID audit := audit]> (pd_audit tx) |>.

Definition approve (stat : string -> bool) (id actor : string) (policy : option RegionalApprovalPolicy) (now : Z) tx :
    presult (PayoutBatch * PoolDB M) :=
  match pd_batches tx !! id with
  | None => Err (PoolErr "batch not found")
  | Some batch =>
      if negb (bool_decide (pb_PoolID batch = pool)) then Err (PoolErr "batch is not regional")
      else if negb (bool_decide (pb_Status batch = "pending_approval")) then
        if negb (bool_decide (pb_ApprovedBy batch = "")) && bool_decide (is_Some (pb_ApprovedAt batch)) then Ok (batch, tx)
        else Err (PoolErr "batch is not pending approval")
      else
        match pd_windows tx !! pb_SettlementWindowID batch with
        | None => Err (PoolErr "unexpected end of JSON input")
        | Some window =>
            if negb (integrity window batch) then Err (PoolErr "regional allocation integrity failure")
            else
              let! uncorrected := rejectCorrectedWindow window tx in
              let! permitted := match policy with
                                | None => Ok true
                                | Some policy => let! d := policy_decision stat policy window batch now tx in Ok (dc_Approved d)
                                end in
              if negb permitted then Err (PoolErr "atomic policy approval refused")
              else
                let! put := put_intents window batch now 0 (pb_LineItems batch) 0 tx in
                let '(total, after) := put in
                if negb (bool_decide (dec_string total = pb_TotalAmountWei batch)) then Err (PoolErr "regional batch total mismatch")
                else
                  let batch := approved_batch actor now batch in
                  let window := approved_window now window in
                  Ok (batch, put_approval window batch (approval_audit actor window batch now) after)
        end
  end.
Definition approveRegionalBatch (stat : string -> bool) (id actor : string) (policy : option RegionalApprovalPolicy) (now : Z) db :
    presult PayoutBatch * PoolDB M :=
  if blank actor then (Err (PoolErr "approval actor required"), db) else Update (approve stat id actor policy now) db.
Definition ApproveRegionalBatch (stat : string -> bool) (id actor : string) (now : Z) db :=
  approveRegionalBatch stat id actor None now db.
Definition ApproveRegionalBatchWithPolicy (stat : string -> bool) (id : string) (policy : RegionalApprovalPolicy) (now : Z) db :=
  approveRegionalBatch stat id (policy_actor +:+ ap_Hash policy) (Some policy) now db.

(** ** Payout intents *)
Definition same_economics (a b : PayoutIntent) : bool :=
  bool_decide (pi_PoolID a = pi_PoolID b) && bool_decide (pi_PayoutBatchID a = pi_PayoutBatchID b) &&
  bool_decide (pi_RoundReceiptID a = pi_RoundReceiptID b) && bool_decide (pi_RoundID a = pi_RoundID b) &&
  bool_decide (pi_MemberEthAddress a = pi_MemberEthAddress b) && bool_decide (pi_DestinationAddress a = pi_DestinationAddress b) &&
  (pi_ChainID a =? pi_ChainID b) && bool_decide (pi_Asset a = pi_Asset b) && bool_decide (pi_AmountWei a = pi_AmountWei b) &&
  bool_decide (pi_CreatedAt a = pi_CreatedAt b).
Definition put_intent (i : PayoutIntent) tx : PoolDB M := tx <| pd_intents := <[pi_ID i := i]> (pd_intents tx) |>.

(** An intent that no regional approval made. *)
Definition save_unapproved (intent : PayoutIntent) tx : presult (unit * PoolDB M) :=
  if negb (bool_decide (pi_PoolID intent = "")) || negb (bool_decide (pi_PayoutBatchID intent = ""))
  then Err (PoolErr "regional intent requires atomic batch approval")
  else if match pd_windows tx !! pi_RoundReceiptID intent with
          | Some window => negb (bool_decide (sw_PoolID window = ""))
          | None => false
          end
  then Err (PoolErr "regional window requires atomic approval")
  else Ok (tt, put_intent intent tx).
Definition save_intent (intent : PayoutIntent) tx : presult (unit * PoolDB M) :=
  match pd_intents tx !! pi_ID intent with
  | Some prior =>
      if negb (bool_decide (pi_PoolID prior = "")) then
        if bool_decide (prior = intent) then Ok (tt, tx)
        else if negb (pi_Revision prior =? pi_Revision intent)
        then Err (PoolErr "regional payout intent changed; reload before retry")
        else if negb (same_economics prior intent) then Err (PoolErr "regional payout intent economics are immutable")
        else if bool_decide (pi_Status prior = "paid") then Err (PoolErr "paid regional payout intent is immutable")
        else Ok (tt, put_intent (intent <| pi_Revision := u64 (pi_Revision intent + 1) |>) tx)
      else save_unapproved intent tx
  | None => save_unapproved intent tx
  end.
Definition SavePayoutIntent (intent : PayoutIntent) (now : Z) db : presult unit * PoolDB M :=
  if bool_decide (pi_ID intent = "") then (Err (PoolErr "payout intent id is required"), db)
  else Update (save_intent (intent <| pi_CreatedAt := created_or now (pi_CreatedAt intent) |>)) db.

Definition ListPayoutIntents (limit : Z) db : list PayoutIntent := newest pi_CreatedAt limit (pd_intents db).
Definition GetPayoutIntent (id : string) db : presult PayoutIntent :=
  if bool_decide (id = "") then Err (PoolErr "payout intent id is required")
  else match pd_intents db !! id with None => Err (PoolErr "payout intent not found") | Some i => Ok i end.

(** ** The summary of all windows *)
Record summing := mksumming {
  su_windows : Z;
  su_zero_work : Z;
  su_revenue : Z;
  su_operator : Z;
  su_commission : Z;
  su_residual : Z;
  su_payout : Z;
}.
Definition sum_window (s : summing) (w : SettlementWindow) : presult summing :=
  match sw_RegionalAllocation w with
  | None => Ok s
  | Some a =>
      if negb (bool_decide (sw_PoolID w = pool)) then Ok s
      else
        let! revenue := Wei (al_RevenueWei a) in
        let! operator := Wei (al_ZeroWorkOperatorWei a) in
        let! commission := Wei (al_CommissionWei a) in
        let! residual := Wei (al_RoundingResidualWei a) in
        let! payout := Wei (al_MemberPayoutWei a) in
        Ok (mksumming (u64 (su_windows s + 1)) (if 0 <? operator then u64 (su_zero_work s + 1) else su_zero_work s)
              (su_revenue s + revenue) (su_operator s + operator) (su_commission s + commission) (su_residual s + residual)
              (su_payout s + payout))
  end.
Fixpoint sum_windows (s : summing) (windows : list SettlementWindow) : presult summing :=
  match windows with
  | [] => Ok s
  | w :: windows => let! s := sum_window s w in sum_windows s windows
  end.
Definition RegionalAccountingSummary db : presult PoolTypes.RegionalAccountingSummary :=
  let! s := sum_windows (mksumming 0 0 0 0 0 0 0) (ForEach (pd_windows db)).*2 in
  Ok (mkRegionalAccountingSummary pool (su_windows s) (su_zero_work s) (dec_string (su_revenue s)) (dec_string (su_operator s))
        (dec_string (su_commission s)) (dec_string (su_residual s)) (dec_string (su_payout s))).
End regional.
