(* ===== verification/PoolIntents.v ===== *)
(** * Payouts in the hands of the executors

    The endpoints of pool-controller/cmd/livepeer-pool-controller/main.go that
    move payout intents (derive, export, claim, renew, release, requeue, status)
    and close rounds, and those of internal/server/admin (routes.go,
    payout_policy_routes.go) that approve batches.  A request is decoded JSON, an
    error is any answer that is not 200; what an endpoint stored before it failed
    stays stored. *)
From S2P Require Import Prelude.
From S2P Require Import GoBytes.
From S2P Require Import GoStrings.
From S2P Require Import Bolt.
From S2P Require Import WorkLedger.
From S2P Require Import PoolTypes.
From S2P Require Import PoolRevenue.
From S2P Require Import PoolStore.
From S2P Require Import PoolRegional.

(** ** One intent *)
Definition unleased (i : PayoutIntent) : PayoutIntent :=
  (((i <| pi_LeasedAt := None |>) <| pi_LeaseID := "" |>) <| pi_LeaseOwner := "" |>) <| pi_LeaseExpiresAt := None |>.
(** A reference or hash replaces the old one unless it is empty. *)
Definition override (value old : string) : string := if bool_decide (value = "") then old else value.
Definition with_refs (externalRef txHash failureReason : string) (i : PayoutIntent) : PayoutIntent :=
  ((i <| pi_ExternalRef := override externalRef (pi_ExternalRef i) |>) <| pi_TxHash := override txHash (pi_TxHash i) |>)
  <| pi_FailureReason := failureReason |>.

(** The lease a report must name, or a status it may come from. *)
Definition may_report (i : PayoutIntent) (leaseID : string) (others : list string) : bool :=
  if bool_decide (pi_Status i = "leased") then negb (blank leaseID) && bool_decide (pi_LeaseID i = TrimSpace leaseID)
  else bool_decide (pi_Status i ∈ others).

Definition applyPayoutIntentStatus (i : PayoutIntent) (status leaseID externalRef txHash failureReason : string) (now : Z) :
    presult PayoutIntent :=
  if bool_decide (status = "submitted") then
    if may_report i leaseID ["exported"; "failed"] then
      Ok (with_refs externalRef txHash ""
            (unleased (((i <| pi_Status := "submitted" |>) <| pi_SubmittedAt := Some now |>) <| pi_FailedAt := None |>)))
    else Err (PoolErr "payout intent cannot move to submitted")
  else if bool_decide (status = "paid") then
    if bool_decide (pi_Status i = "submitted") then
      Ok (with_refs externalRef txHash ""
            (((i <| pi_Status := "paid" |>) <| pi_PaidAt := Some now |>) <| pi_FailedAt := None |>))
    else Err (PoolErr "payout intent cannot move to paid")
  else if bool_decide (status = "failed") then
    if may_report i leaseID ["submitted"; "exported"] then
      Ok (with_refs externalRef txHash failureReason
            (unleased ((i <| pi_Status := "failed" |>) <| pi_FailedAt := Some now |>)))
    else Err (PoolErr "payout intent cannot move to failed")
  else Err (PoolErr "unsupported payout intent status").

Definition requeuePayoutIntent (i : PayoutIntent) (now : Z) : presult PayoutIntent :=
  if negb (bool_decide (pi_Status i = "failed")) then Err (PoolErr "payout intent cannot be requeued")
  else
    let i := unleased ((i <| pi_Status := "exported" |>) <| pi_ExportedAt := Some now |>) in
    let i := ((i <| pi_SubmittedAt := None |>) <| pi_PaidAt := None |>) <| pi_FailedAt := None |> in
    let i := (i <| pi_RetryCount := u64 (pi_RetryCount i + 1) |>) <| pi_LastRequeuedAt := Some now |> in
    Ok (((i <| pi_ExternalRef := "" |>) <| pi_TxHash := "" |>) <| pi_FailureReason := "" |>).

(** The lease ran out: the intent and whether it changed. *)
Definition expired (i : PayoutIntent) (now : Z) : bool :=
  bool_decide (pi_Status i = "leased") && match pi_LeaseExpiresAt i with None => false | Some t => t <=? now end.
Definition releaseExpiredLease (i : PayoutIntent) (now : Z) : PayoutIntent * bool :=
  if expired i now then (unleased (i <| pi_Status := "exported" |>), true) else (i, false).

Definition filterPayoutIntents (items : list PayoutIntent) (roundID member status : string) : list PayoutIntent :=
  let roundID := TrimSpace roundID in
  let member := TrimSpace member in
  let status := TrimSpace status in
  List.filter (fun item =>
    (bool_decide (roundID = "") || bool_decide (pi_RoundID item = roundID)) &&
    (bool_decide (member = "") || bool_decide (pi_MemberEthAddress item = member)) &&
    (bool_decide (status = "") || bool_decide (pi_Status item = status))) items.

(** What an answer shows of an intent: its pool, batch and revision are not
    among the fields of a [payoutIntentView]. *)
Definition buildPayoutIntentViews (items : list PayoutIntent) : list PayoutIntent :=
  (fun i => ((i <| pi_PoolID := "" |>) <| pi_PayoutBatchID := "" |>) <| pi_Revision := 0 |>) <$> items.

(** ** From rounds and batches to intents *)
Definition buildPayoutIntents (r : RoundReceipt) (now : Z) : list PayoutIntent :=
  (fun p => mkPayoutIntent 0 "" "" ("payout-" +:+ rr_RoundID r +:+ "-" +:+ mp_MemberEthAddress p) (Some now) (rr_ID r) (rr_RoundID r)
              (mp_MemberEthAddress p) (mp_MemberEthAddress p) 42161 "native_eth" (mp_PayoutWei p) "pending"
              None None "" "" None None None None 0 None "" "" "") <$> rr_MemberPayouts r.

Definition materialize (batch : PayoutBatch) (now : Z) (i : nat) (line : PayoutLineItem) : option PayoutIntent :=
  if blank (li_AmountWei line) || bool_decide (TrimSpace (li_AmountWei line) = "0") then None
  else
    let destination := if blank (li_DestinationAddress line) then li_MemberEthAddress line else TrimSpace (li_DestinationAddress line) in
    Some (mkPayoutIntent 0 "" "" ("payout-" +:+ pb_ID batch +:+ "-" +:+ dec4 (Z.of_nat i)) (Some now) (pb_SettlementWindowID batch)
            (pb_SettlementWindowID batch) (li_MemberEthAddress line) destination 42161 "native_eth" (li_AmountWei line) "exported"
            (Some now) None "" "" None None None None 0 None "" "" "").
Definition materializePayoutIntents (batch : PayoutBatch) (now : Z) : list PayoutIntent :=
  omap id (imap (materialize batch now) (pb_LineItems batch)).

Section endpoints.
Context `{Bolt M} `{PoolWire}.
Variable pool : string.
Implicit Types (db : PoolDB M).

(** Each saved in a transaction of its own; the first failure stops. *)
Fixpoint save_all (now : Z) (intents : list PayoutIntent) db : presult unit * PoolDB M :=
  match intents with
  | [] => (Ok tt, db)
  | i :: intents =>
      match SavePayoutIntent i now db with
      | (Ok _, db) => save_all now intents db
      | (Err e, db) => (Err e, db)
      end
  end.

(** Leases that ran out are given back; the items as they were sent to the store. *)
Fixpoint normalizeExpiredPayoutIntentLeases (now : Z) (items : list PayoutIntent) db : presult (list PayoutIntent) * PoolDB M :=
  match items with
  | [] => (Ok [], db)
  | item :: items =>
      let '(next, changed) := releaseExpiredLease item now in
      match (if changed : bool then SavePayoutIntent next now db else (Ok tt, db)) with
      | (Err e, db) => (Err e, db)
      | (Ok _, db) =>
          match normalizeExpiredPayoutIntentLeases now items db with
          | (Ok out, db) => (Ok (next :: out), db)
          | r => r
          end
      end
  end.

(** ** The endpoints *)

(** The listing; [limit] is 0 when the request names none. *)
Definition list_intents (roundID member status : string) (limit now : Z) db : presult (list PayoutIntent) * PoolDB M :=
  if limit <? 0 then (Err (PoolErr "limit must be a positive integer"), db)
  else
    match normalizeExpiredPayoutIntentLeases now (ListPayoutIntents (if limit =? 0 then 100 else limit) db) db with
    | (Err e, db) => (Err e, db)
    | (Ok items, db) => (Ok (filterPayoutIntents items roundID member status), db)
    end.

Definition loadRoundReceiptForPayouts (receiptID roundID : string) db : presult RoundReceipt :=
  if negb (blank receiptID) then GetRoundReceipt (TrimSpace receiptID) db
  else FindLatestRoundReceiptByRoundID (TrimSpace roundID) db.
Definition derive (receiptID roundID : string) (now : Z) db : presult (list PayoutIntent) * PoolDB M :=
  if blank receiptID && blank roundID then (Err (PoolErr "payout intent derive requires round_receipt_id or round_id"), db)
  else
    match loadRoundReceiptForPayouts receiptID roundID db with
    | Err e => (Err e, db)
    | Ok r =>
        let intents := buildPayoutIntents r now in
        match save_all now intents db with
        | (Ok _, db) => (Ok intents, db)
        | (Err e, db) => (Err e, db)
        end
    end.

Definition exported (now : Z) (i : PayoutIntent) : PayoutIntent :=
  unleased ((i <| pi_Status := "exported" |>) <| pi_ExportedAt := Some now |>).
Definition is_pending (i : PayoutIntent) : bool := bool_decide (pi_Status i = "pending").
Definition export (roundID member status format : string) (now : Z) db : presult (list PayoutIntent) * PoolDB M :=
  if negb (bool_decide (format ∈ [""; "json"; "csv"])) then (Err (PoolErr "format must be json or csv"), db)
  else
    match normalizeExpiredPayoutIntentLeases now (ListPayoutIntents 0 db) db with
    | (Err e, db) => (Err e, db)
    | (Ok items, db) =>
        match filterPayoutIntents items roundID member status with
        | [] => (Err (PoolErr "no payout intents matched export filter"), db)
        | items =>
            match save_all now (exported now <$> List.filter is_pending items) db with
            | (Err e, db) => (Err e, db)
            | (Ok _, db) => (Ok ((fun i => if is_pending i then exported now i else i) <$> items), db)
            end
        end
    end.

Definition leased (executor leaseID : string) (ttl now : Z) (i : PayoutIntent) : PayoutIntent :=
  ((((i <| pi_Status := "leased" |>) <| pi_LeasedAt := Some now |>) <| pi_LeaseID := leaseID |>)
   <| pi_LeaseOwner := TrimSpace executor |>) <| pi_LeaseExpiresAt := Some (now + ttl) |>.
Definition lease_id (executor : string) (now : Z) : string := TrimSpace executor +:+ "-" +:+ dec_string now.
Definition claim (executor : string) (ttlSeconds : Z) (roundID member : string) (limit now : Z) db :
    presult (string * list PayoutIntent) * PoolDB M :=
  if blank executor || (ttlSeconds <=? 0) || (limit <? 0) then (Err (PoolErr "invalid payout intent claim"), db)
  else
    match normalizeExpiredPayoutIntentLeases now (ListPayoutIntents 0 db) db with
    | (Err e, db) => (Err e, db)
    | (Ok items, db) =>
        let items := filterPayoutIntents items roundID member "exported" in
        let limit := if limit <=? 0 then 25 else limit in
        let claimed := leased executor (lease_id executor now) (ttlSeconds * second) now <$> take (Z.to_nat limit) items in
        match save_all now claimed db with
        | (Err e, db) => (Err e, db)
        | (Ok _, db) => (Ok (lease_id executor now, claimed), db)
        end
    end.

Definition holds_lease (executor leaseID : string) (i : PayoutIntent) : bool :=
  bool_decide (pi_Status i = "leased") && bool_decide (pi_LeaseID i = TrimSpace leaseID) &&
  bool_decide (pi_LeaseOwner i = TrimSpace executor).

(** Renewing and giving back: the leased items the request matches. *)
Definition on_lease (matches : PayoutIntent -> bool) (change : PayoutIntent -> PayoutIntent) (now : Z) db :
    presult (list PayoutIntent) * PoolDB M :=
  match normalizeExpiredPayoutIntentLeases now (ListPayoutIntents 0 db) db with
  | (Err e, db) => (Err e, db)
  | (Ok items, db) =>
      let changed := change <$> List.filter matches items in
      match save_all now changed db with
      | (Err e, db) => (Err e, db)
      | (Ok _, db) =>
          match changed with
          | [] => (Err (PoolErr "no leased payout intents matched request"), db)
          | _ => (Ok changed, db)
          end
      end
  end.
Definition renew (executor leaseID : string) (ttlSeconds now : Z) db : presult (list PayoutIntent) * PoolDB M :=
  if blank executor || blank leaseID || (ttlSeconds <=? 0) then (Err (PoolErr "invalid payout intent renew"), db)
  else on_lease (holds_lease executor leaseID) (fun i => i <| pi_LeaseExpiresAt := Some (now + ttlSeconds * second) |>) now db.
Definition release (executor leaseID : string) (ids : list string) (now : Z) db : presult (list PayoutIntent) * PoolDB M :=
  if blank executor || blank leaseID then (Err (PoolErr "invalid payout intent release"), db)
  else
    let wanted := List.filter (fun id => negb (bool_decide (id = ""))) (TrimSpace <$> ids) in
    on_lease (fun i => holds_lease executor leaseID i && (bool_decide (wanted = []) || bool_decide (pi_ID i ∈ wanted)))
      (fun i => unleased (i <| pi_Status := "exported" |>)) now db.

(** Requeueing and reporting: one intent after the other. *)
Definition move_one (move : PayoutIntent -> presult PayoutIntent) (id : string) (now : Z) db : presult PayoutIntent * PoolDB M :=
  match GetPayoutIntent id db with
  | Err e => (Err e, db)
  | Ok intent =>
      let '(intent, changed) := releaseExpiredLease intent now in
      match (if changed : bool then SavePayoutIntent intent now db else (Ok tt, db)) with
      | (Err e, db) => (Err e, db)
      | (Ok _, db) =>
          match move intent with
          | Err e => (Err e, db)
          | Ok next =>
              match SavePayoutIntent next now db with
              | (Err e, db) => (Err e, db)
              | (Ok _, db) => (Ok next, db)
              end
          end
      end
  end.
Fixpoint move_all (move : PayoutIntent -> presult PayoutIntent) (now : Z) (ids : list string) db :
    presult (list PayoutIntent) * PoolDB M :=
  match ids with
  | [] => (Ok [], db)
  | id :: ids =>
      match move_one move id now db with
      | (Err e, db) => (Err e, db)
      | (Ok next, db) =>
          match move_all move now ids db with
          | (Ok rest, db) => (Ok (next :: rest), db)
          | r => r
          end
      end
  end.
Definition requeue (ids : list string) (now : Z) db : presult (list PayoutIntent) * PoolDB M :=
  match ids with
  | [] => (Err (PoolErr "payout intent requeue requires ids"), db)
  | _ => move_all (fun i => requeuePayoutIntent i now) now ids db
  end.
Definition valid_status (status failureReason : string) : bool :=
  bool_decide (TrimSpace status ∈ ["submitted"; "paid"; "failed"]) &&
  negb (bool_decide (TrimSpace status = "failed") && blank failureReason).
Definition report_status (ids : list string) (status leaseID externalRef txHash failureReason : string) (now : Z) db :
    presult (list PayoutIntent) * PoolDB M :=
  if bool_decide (ids = []) || negb (valid_status status failureReason) then (Err (PoolErr "invalid payout intent status update"), db)
  else move_all (fun i => applyPayoutIntentStatus i status (TrimSpace leaseID) (TrimSpace externalRef) (TrimSpace txHash)
                            (TrimSpace failureReason) now) now ids db.

(** ** Closing a round *)
Record roundCloseRequest := mkroundCloseRequest {
  rq_PoolID : string;
  rq_RevenueReports : list Report;
  rq_WorkReports : list WorkReport;
  rq_ReceiptSnapshot : string;
  rq_ID : string;
  rq_RoundID : string;
  rq_PoolRevenueWei : string;
  rq_PoolCutWei : string;
  rq_IncludedWorkReceiptIDs : list string;
}.
Definition validateRoundCloseRequest (q : roundCloseRequest) : bool :=
  negb (bool_decide (rq_ID q = "")) && negb (bool_decide (rq_RoundID q = "")) && negb (bool_decide (rq_PoolRevenueWei q = "")) &&
  negb (bool_decide (rq_PoolCutWei q = "")) &&
  negb (bool_decide (rq_IncludedWorkReceiptIDs q = []) && bool_decide (rq_PoolID q = "")).

(** What each member contributed; an entry of a map per member. *)
Fixpoint member_contributions (receipts : list WorkReceipt) (contribs : gmap string Z) (total : Z) : presult (gmap string Z * Z) :=
  match receipts with
  | [] => Ok (contribs, total)
  | r :: receipts =>
      if negb (bool_decide (pw_Status r = "final")) then Err (PoolErr "work receipt is not final")
      else if bool_decide (pw_MemberEthAddress r = "") then Err (PoolErr "work receipt missing member_eth_address")
      else
        match SetString10 (pw_GatewayRevenueWei r) with
        | None => Err (PoolErr "work receipt has invalid gateway_revenue_wei")
        | Some rev =>
            member_contributions receipts
              (<[pw_MemberEthAddress r := default 0 (contribs !! pw_MemberEthAddress r) + rev]> contribs) (total + rev)
        end
  end.
(** [big.Int.Uint64] of the share: the low 64 bits of its absolute value. *)
Definition round_payout (distributable total : Z) (mc : string * Z) : MemberRoundPayout :=
  mkMemberRoundPayout mc.1 (dec_string mc.2) (u64 (Z.abs ((mc.2 * 1000000) `quot` total)))
    (dec_string ((distributable * mc.2) `quot` total)).

Definition buildRoundReceiptFromCloseRequest (q : roundCloseRequest) (receipts : list WorkReceipt) (now : Z) : presult RoundReceipt :=
  match SetString10 (rq_PoolRevenueWei q), SetString10 (rq_PoolCutWei q) with
  | Some revenue, Some cut =>
      if (cut <? 0) || (revenue <? 0) then Err (PoolErr "round close monetary values must be non-negative")
      else if revenue <? cut then Err (PoolErr "round close pool_cut_wei must be <= pool_revenue_wei")
      else if negb (bool_decide (rq_PoolID q = "")) then
        if negb (cut =? 0) then Err (PoolErr "regional commission is applied at window close")
        else Ok (mkRoundReceipt "" [] [] "" (rq_ID q) (Some now) (rq_RoundID q) (dec_string revenue) "0" (dec_string revenue)
                   (rq_IncludedWorkReceiptIDs q) [])
      else
        let distributable := revenue - cut in
        let! sums := member_contributions receipts ∅ 0 in
        let '(contribs, total) := sums in
        if total <=? 0 then Err (PoolErr "round close total contribution must be > 0")
        else Ok (mkRoundReceipt "" [] [] "" (rq_ID q) (Some now) (rq_RoundID q) (rq_PoolRevenueWei q) (rq_PoolCutWei q)
                   (dec_string distributable) (rq_IncludedWorkReceiptIDs q)
                   (round_payout distributable total <$> map_to_list contribs))
  | _, _ => Err (PoolErr "round close amounts must be decimal strings")
  end.

(** [authenticated]: the controller runs with service credentials. *)
Definition round_close (authenticated : bool) (q : roundCloseRequest) (now : Z) db : presult RoundReceipt * PoolDB M :=
  if negb (validateRoundCloseRequest q) then (Err (PoolErr "invalid round close"), db)
  else
    match GetWorkReceipts (rq_IncludedWorkReceiptIDs q) db with
    | Err e => (Err e, db)
    | Ok receipts =>
        match buildRoundReceiptFromCloseRequest q receipts now with
        | Err e => (Err e, db)
        | Ok r =>
            let saved r rdb : presult RoundReceipt * PoolDB M := match rdb with (Ok _, db) => (Ok r, db) | (Err e, db) => (Err e, db) end in
            if authenticated then
              if negb (bool_decide (rq_PoolID q = pool)) || bool_decide (rq_RevenueReports q = []) ||
                 bool_decide (rq_WorkReports q = []) || bool_decide (rq_ReceiptSnapshot q = "")
              then (Err (PoolErr "regional source revenue and work completeness proofs required"), db)
              else
                let r := (((r <| rr_PoolID := rq_PoolID q |>) <| rr_RevenueReports := rq_RevenueReports q |>)
                          <| rr_WorkReports := rq_WorkReports q |>) <| rr_ReceiptSnapshot := rq_ReceiptSnapshot q |> in
                saved r (SaveRegionalRound pool r now db)
            else saved r (SaveRoundReceipt r now db)
        end
    end.

(** The endpoint the brokers deliver receipts to; [credential] is the source of
    the caller's credential when the controller runs with service credentials. *)
Definition validateWorkReceipt (r : WorkReceipt) : bool :=
  negb (bool_decide (pw_ID r = "")) && negb (bool_decide (pw_RequestID r = "")) && negb (bool_decide (pw_CapabilityID r = "")) &&
  negb (bool_decide (pw_OfferingID r = "")) && negb (bool_decide (pw_MemberEthAddress r = "")) &&
  negb (bool_decide (pw_BackendID r = "")) &&
  (bool_decide (pw_Status r = "stub") && (pw_ActualUnits r =? 0) || bool_decide (pw_Status r = "final") && negb (pw_ActualUnits r =? 0)).
Definition deliver_receipt (credential : option string) (r : WorkReceipt) (now : Z) db : presult unit * PoolDB M :=
  if match credential with
     | None => false
     | Some source => bool_decide (source = "") || negb (bool_decide (pw_PoolID r = pool)) || negb (bool_decide (pw_SourceID r = source)) ||
                      negb (hasPrefix (pw_ID r) (pw_SourceID r +:+ "/"))
     end
  then (Err (PoolErr "receipt source does not match service credential"), db)
  else if negb (validateWorkReceipt r) then (Err (PoolErr "invalid work receipt"), db)
  else SaveWorkReceipt pool r now db.

(** ** Approving batches *)

(** A batch outside the regional books: intents first, then the approval. *)
Definition approve_legacy (actor : string) (details : list (string * detail)) (batch : PayoutBatch) (now : Z) db :
    presult (PayoutBatch * list PayoutIntent) * PoolDB M :=
  let intents := materializePayoutIntents batch now in
  match save_all now intents db with
  | (Err e, db) => (Err e, db)
  | (Ok _, db) =>
      let batch := approved_batch actor now batch in
      match PutPayoutBatch batch now db with
      | (Err e, db) => (Err e, db)
      | (Ok _, db) =>
          (Ok (batch, intents),
           (AppendAuditEvent (mkAuditEvent "" "payout_batch_approved" (Some now) actor (pb_ID batch) "payout_batch"
              ([("settlement_window_id", DString (pb_SettlementWindowID batch)); ("payout_intents", DInt (Z.of_nat (length intents)))] ++
               details)) now db).2)
      end
  end.
Definition approve_batch (stat : string -> bool) (pathID actor : string) (now : Z) db :
    presult (PayoutBatch * list PayoutIntent) * PoolDB M :=
  let id := TrimSpace pathID in
  if bool_decide (id = "") then (Err (PoolErr "batch id is required"), db)
  else
    match GetPayoutBatch id db with
    | Err e => (Err e, db)
    | Ok batch =>
        if negb (bool_decide (pb_Status batch = "pending_approval")) && bool_decide (pb_PoolID batch = "")
        then (Err (PoolErr "only pending_approval payout batches can be approved"), db)
        else
          let actor := if blank actor then "operator" else TrimSpace actor in
          if negb (bool_decide (pb_PoolID batch = "")) then
            match ApproveRegionalBatch pool stat (pb_ID batch) actor now db with
            | (Err e, db) => (Err e, db)
            | (Ok approved, db) =>
                (Ok (approved, List.filter (fun i => bool_decide (pi_PayoutBatchID i = pb_ID approved)) (ListPayoutIntents 0 db)), db)
            end
          else approve_legacy actor [] batch now db
    end.

(** What the policy judges on; amounts that are no numbers count as small. *)
Definition compareWei (left right : string) : Z :=
  match SetString10 (TrimSpace left), SetString10 (TrimSpace right) with
  | None, _ => -1
  | _, None => 1
  | Some l, Some r => match l ?= r with Lt => -1 | Eq => 0 | Gt => 1 end
  end.
Definition largestLine (batch : PayoutBatch) : string :=
  foldl (fun largest line => if 0 <? compareWei (li_AmountWei line) largest then li_AmountWei line else largest) "0"
    (pb_LineItems batch).
Definition batchesApprovedSince (cutoff : Z) db : Z :=
  Z.of_nat (length (List.filter (fun b => bool_decide (pb_Status b = "approved") && (cutoff <? instant (pb_UpdatedAt b)))
                      (ListPayoutBatches db))).
Definition batchFacts (batch : PayoutBatch) (now : Z) db : Batch :=
  let window := match GetSettlementWindow (pb_SettlementWindowID batch) db with Ok w => Some w | Err _ => None end in
  mkBatch
    match window with
    | Some w => bool_decide (sw_PoolID w = pb_PoolID batch) && negb (bool_decide (sw_PoolID w = "")) &&
                bool_decide (is_Some (sw_RegionalAllocation w))
    | None => false
    end
    (pb_TotalAmountWei batch) (largestLine batch) (default 0 (sw_SettlementScalePPM <$> window))
    (default "" (sw_Anomaly <$> window)) (batchesApprovedSince (now - day) db).

(** [loaded]: the policy and its hash, as [Load] reads them. *)
Definition policy_review (stat : string -> bool) (loaded : result string (PayoutPolicy * string)) (pausePath pathID : string) (now : Z) db :
    presult PolicyDecision * PoolDB M :=
  match GetPayoutBatch (TrimSpace pathID) db with
  | Err e => (Err e, db)
  | Ok batch =>
      match loaded with
      | Err e => (Err (PoolErr e), db)
      | Ok (policy, hash) =>
          let d := Evaluate stat policy hash (batchFacts batch now db) pausePath in
          let db := (AppendAuditEvent (mkAuditEvent "" "payout_policy_decision" (Some now) "" (pb_ID batch) "payout_batch"
                       [("approved", DBool (dc_Approved d)); ("shadow", DBool (dc_Shadow d)); ("reason", DString (dc_Reason d));
                        ("policy_hash", DString (dc_PolicyHash d))]) now db).2 in
          if negb (dc_Approved d) then (Ok d, db)
          else if negb (bool_decide (pb_PoolID batch = "")) then
            match ApproveRegionalBatchWithPolicy pool stat (pb_ID batch) (mkRegionalApprovalPolicy policy (dc_PolicyHash d) pausePath) now db with
            | (Err e, db) => (Err e, db)
            | (Ok _, db) => (Ok d, db)
            end
          else
            match approve_legacy (policy_actor +:+ dc_PolicyHash d) [("automatic", DBool true)] batch now db with
            | (Err e, db) => (Err e, db)
            | (Ok _, db) => (Ok d, db)
            end
      end
  end.
End endpoints.
