(* ===== verification/PoolSettlement.v ===== *)
(** * Windows outside the regional books

    pool-controller/internal/service/settlement (service.go, autoclose.go): a
    window closed on figures the operator supplies, scaled down when less was
    collected than billed, and the decision to close one automatically; the loop
    of main.go that applies it. *)
From S2P Require Import Prelude.
From S2P Require Import GoBytes.
From S2P Require Import GoStrings.
From S2P Require Import Bolt.
From S2P Require Import ChainErrors.
From S2P Require Import PoolTypes.
From S2P Require Import PoolStore.
From S2P Require Import PoolRegional.
From Stdlib Require Import Ascii SpecFloat.

Definition DefaultWindowLengthRounds : Z := 14.

Record CloseRequest := mkCloseRequest {
  cr_WindowID : string;
  cr_StartRoundID : string;
  cr_EndRoundID : string;
  cr_RoundIDs : list string;
  cr_ConfirmedRevenueWei : string;
  cr_DefaultCommissionBPS : Z;
  cr_OfferingCommissionBPS : gmap string Z;
  cr_IncludedRoundReceiptIDs : list string;
  cr_OperatorAdjustmentReason : string;
}.

Definition parseWei (raw : string) : presult Z :=
  match SetString10 (if blank raw then "0" else TrimSpace raw) with
  | Some n => if n <? 0 then Err (PoolErr "must be a non-negative integer") else Ok n
  | None => Err (PoolErr "must be a non-negative integer")
  end.
Definition scalePPM (attributed confirmed : Z) : Z :=
  if attributed <=? confirmed then 1000000 else u64 ((confirmed * 1000000) / attributed).
Definition applyPPM (amount ppm : Z) : Z := amount * ppm / 1000000.
Definition applyBPS (amount bps : Z) : Z := amount * bps / 10000.

(** [strings.SplitN(key, "|", 2)]. *)
Definition splitOfferingKey (key : string) : string * string :=
  match Cut "|"%char key with (capability, offering, true) => (capability, offering) | (_, _, false) => (key, "") end.

Record accumulator := mkaccumulator {
  acc_total : Z;
  acc_byOffering : gmap string Z;
  acc_byMember : gmap string (gmap string Z);
}.
Definition add_to (k : string) (n : Z) (m : gmap string Z) : gmap string Z := <[k := default 0 (m !! k) + n]> m.
Definition accumulate (a : accumulator) (r : WorkReceipt) (amount : Z) : accumulator :=
  let offering := pw_CapabilityID r +:+ "|" +:+ pw_OfferingID r in
  let member := ToLower (TrimSpace (pw_MemberEthAddress r)) in
  mkaccumulator (acc_total a + amount) (add_to offering amount (acc_byOffering a))
    (<[offering := add_to member amount (default ∅ (acc_byMember a !! offering))]> (acc_byMember a)).
(** The accepted receipts of the chosen rounds. *)
Fixpoint accumulate_all (rounds : list string) (receipts : list WorkReceipt) (a : accumulator) : presult accumulator :=
  match receipts with
  | [] => Ok a
  | r :: receipts =>
      if negb (bool_decide (pw_RoundID r ∈ rounds)) || negb (bool_decide (pw_Status r = "accepted")) ||
         blank (pw_AttributedRevenueWei r)
      then accumulate_all rounds receipts a
      else
        let! amount := parseWei (pw_AttributedRevenueWei r) in
        accumulate_all rounds receipts (accumulate a r amount)
  end.

(** What an offering, and a member within it, is settled at. *)
Definition settled_line (capability offering : string) (scale bps : Z) (mw : string * Z) : PayoutLineItem :=
  let amount := applyPPM mw.2 scale in
  mkPayoutLineItem mw.1 mw.1 capability offering (dec_string mw.2) (dec_string (amount - applyBPS amount bps)) "".
Definition settled_offering (capability offering : string) (scale bps total : Z) : OfferingSettlement :=
  let revenue := applyPPM total scale in
  let commission := applyBPS revenue bps in
  mkOfferingSettlement capability offering (dec_string total) (dec_string revenue) (dec_string commission)
    (dec_string (revenue - commission)).
Definition settle_offering (q : CloseRequest) (scale : Z) (a : accumulator) (ot : string * Z) : OfferingSettlement * list PayoutLineItem :=
  let bps := default (cr_DefaultCommissionBPS q) (cr_OfferingCommissionBPS q !! ot.1) in
  let '(capability, offering) := splitOfferingKey ot.1 in
  (settled_offering capability offering scale bps ot.2,
   settled_line capability offering scale bps <$> ForEach (default ∅ (acc_byMember a !! ot.1))).

(** The sum of the lines: each amount is its own settlement less commission. *)
Definition member_amount (q : CloseRequest) (scale : Z) (offering : string) (weight : Z) : Z :=
  let amount := applyPPM weight scale in
  amount - applyBPS amount (default (cr_DefaultCommissionBPS q) (cr_OfferingCommissionBPS q !! offering)).
Definition offering_payout (q : CloseRequest) (scale : Z) (a : accumulator) (ot : string * Z) : Z :=
  foldl (fun n mw => n + member_amount q scale ot.1 mw.2) 0 (ForEach (default ∅ (acc_byMember a !! ot.1))).

Section settlement.
Context `{Bolt M} `{PoolWire}.
Variable pool : string.
Implicit Types (db : PoolDB M).

Definition settled_window (q : CloseRequest) (a : accumulator) (confirmed scale now : Z) : SettlementWindow :=
  mkSettlementWindow 0 "" "" 0 None (cr_WindowID q) (cr_StartRoundID q) (cr_EndRoundID q) DefaultWindowLengthRounds "pending_approval"
    (dec_string (acc_total a)) (dec_string confirmed) scale
    (if confirmed <? acc_total a then "confirmed_revenue_below_attributed_revenue" else "") (cr_IncludedRoundReceiptIDs q)
    ((settle_offering q scale a <$> ForEach (acc_byOffering a)).*1) (Some now) (Some now) (Some now) None.
Definition settled_batch (q : CloseRequest) (a : accumulator) (scale now : Z) : PayoutBatch :=
  let offerings := ForEach (acc_byOffering a) in
  mkPayoutBatch "" ("batch-" +:+ cr_WindowID q) (cr_WindowID q) "pending_approval"
    (dec_string (foldl (fun n ot => n + offering_payout q scale a ot) 0 offerings))
    (concat (settle_offering q scale a <$> offerings).*2) "" None None None "" (Some now) (Some now).

Definition close_legacy (q : CloseRequest) (now : Z) db : presult (SettlementWindow * PayoutBatch) * PoolDB M :=
  let rounds := TrimSpace <$> cr_RoundIDs q in
  if blank (cr_WindowID q) then (Err (PoolErr "window_id is required"), db)
  else if bool_decide (rounds = []) then (Err (PoolErr "round_ids are required"), db)
  else
    match parseWei (cr_ConfirmedRevenueWei q) with
    | Err e => (Err e, db)
    | Ok confirmed =>
        match accumulate_all rounds (ListWorkReceipts 0 db) (mkaccumulator 0 ∅ ∅) with
        | Err e => (Err e, db)
        | Ok a =>
            if acc_total a =? 0 then (Err (PoolErr "no accepted attributed revenue in window"), db)
            else
              let scale := scalePPM (acc_total a) confirmed in
              let window := settled_window q a confirmed scale now in
              let batch := settled_batch q a scale now in
              match PutSettlementWindow window now db with
              | (Err e, db) => (Err e, db)
              | (Ok _, db) =>
                  match PutPayoutBatch batch now db with
                  | (Err e, db) => (Err e, db)
                  | (Ok _, db) => (Ok (window, batch), db)
                  end
              end
        end
    end.

(** With sources registered only the start of a regional window may be given. *)
Definition CloseWindow (q : CloseRequest) (now : Z) db : presult (SettlementWindow * PayoutBatch) * PoolDB M :=
  match RevenueSources pool None db with
  | Err e => (Err e, db)
  | Ok [] => close_legacy q now db
  | Ok _ =>
      if negb (bool_decide (cr_ConfirmedRevenueWei q = "")) || negb (cr_DefaultCommissionBPS q =? 0) ||
         negb (bool_decide (cr_OfferingCommissionBPS q = ∅)) || negb (bool_decide (cr_OperatorAdjustmentReason q = "")) ||
         negb (bool_decide (cr_RoundIDs q = [])) || negb (bool_decide (cr_IncludedRoundReceiptIDs q = [])) ||
         negb (bool_decide (cr_WindowID q = "")) || negb (bool_decide (cr_EndRoundID q = ""))
      then (Err (PoolErr "regional close accepts only start_round_id"), db)
      else
        match ParseUint (cr_StartRoundID q) with
        | Some start =>
            if bool_decide (dec_string start = cr_StartRoundID q) then CloseRegionalWindow pool start now db
            else (Err (PoolErr "canonical start_round_id required"), db)
        | None => (Err (PoolErr "canonical start_round_id required"), db)
        end
  end.

(** ** Closing automatically *)
Record AutoCloseDecision := mkAutoCloseDecision {
  ad_WindowID : string;
  ad_Closed : bool;
  ad_Held : bool;
  ad_Reason : string;
  ad_Detail : string;
  ad_At : Z;
}.
(** The formatted scales of a shortfall are left out of the detail. *)
Definition EvaluateClose (w : SettlementWindow) (tolerance : spec_float) (now : Z) : AutoCloseDecision :=
  let held reason detail := mkAutoCloseDecision (sw_ID w) false true reason detail now in
  let closed := mkAutoCloseDecision (sw_ID w) true false "" "" now in
  if negb (bool_decide (sw_Anomaly w = "")) then held "attribution_anomaly" (sw_Anomaly w)
  else if bool_decide (is_Some (sw_RegionalAllocation w)) then closed
  else if sw_SettlementScalePPM w =? 0 then held "settlement_scale_below_tolerance" "no settlement scale recorded"
  else
    let tolerance := if SFltb tolerance (float_of 0) then float_of 0 else tolerance in
    if SFltb (scale_of (sw_SettlementScalePPM w)) (float_sub (float_of 1) tolerance)
    then held "settlement_scale_below_tolerance" "scale below"
    else closed.

Definition auto_closed (w : SettlementWindow) (d : AutoCloseDecision) (now : Z) : SettlementWindow :=
  (if ad_Closed d then w <| sw_Status := "pending_approval" |> else w <| sw_Anomaly := ad_Reason d +:+ ": " +:+ ad_Detail d |>)
  <| sw_UpdatedAt := Some now |>.
(** One tick of the loop: the windows that are closing. *)
Definition close_tick (tolerance : spec_float) (now : Z) db : PoolDB M :=
  foldl (fun db w =>
    if negb (bool_decide (sw_Status w = "closing")) then db
    else
      let d := EvaluateClose w tolerance now in
      match PutSettlementWindow (auto_closed w d now) now db with
      | (Err _, db) => db
      | (Ok _, db) =>
          (AppendAuditEvent (mkAuditEvent "" "settlement_window_auto_close" (Some now) "" (sw_ID w) "settlement_window"
             [("closed", DBool (ad_Closed d)); ("held", DBool (ad_Held d)); ("reason", DString (ad_Reason d));
              ("detail", DString (ad_Detail d))]) now db).2
      end) db (ListSettlementWindows db).
End settlement.
