(* ===== verification/PoolInv.v ===== *)
(** * The invariant of the regional books

    What every write of the pool controller keeps: the rounds that are closed,
    the windows made of them and the intents made of those fit together.
    [pstep] is one write of the store; rounds are named after their number, as
    the reconciler names them. *)
From S2P Require Import Prelude.
From S2P Require Import GoBytes.
From S2P Require Import GoStrings.
From S2P Require Import Bolt.
From S2P Require Import ChainErrors.
From S2P Require Import WorkLedger.
From S2P Require Import PoolTypes.
From S2P Require Import PoolRevenue.
From S2P Require Import PoolAccounting.
From S2P Require Import PoolStore.
From S2P Require Import PoolRegional.

(** ** Listings *)
Lemma newest_elem `{Bolt M} {A} (created : A -> option Z) (limit : Z) (b : M A) x :
  x ∈ newest created limit b -> exists k, b !! k = Some x.
Proof.
  unfold newest. rewrite merge_sort_Permutation. intros Hx.
  assert (x ∈ rev (ForEach b).*2) as Hr by (destruct (0 <? limit); [by eapply elem_of_sublist, sublist_take|done]).
  apply list_elem_of_In, in_rev, list_elem_of_In, list_elem_of_fmap in Hr as ([k y] & -> & Hk%elem_of_ForEach). by exists k.
Qed.

(** ** The writes of the store *)
Inductive pool_op :=
  | OTerms (term : RegionalTerms) (now : Z)
  | OAccept (poolID wallet version : string) (join : bool) (now : Z)
  | OBegin (item : TermsPublication) (now : Z)
  | OPublish (item : TermsPublication) (now : Z)
  | ORegister (source : Source) (start : Z) (reason actor : string) (now : Z)
  | ODrain (id : string) (round : Z) (reason actor : string) (now : Z)
  | ORetire (id : string) (after : Z) (reason : string) (proof : DrainReport) (actor : string) (now : Z)
  | OWork (receipt : WorkReceipt) (now : Z)
  | ORound (receipt : RoundReceipt) (now : Z)
  | OPlainRound (receipt : RoundReceipt) (now : Z)
  | OWindow (start now : Z)
  | OReady (now : Z)
  | OApprove (stat : string -> bool) (id actor : string) (policy : option RegionalApprovalPolicy) (now : Z)
  | OIntent (intent : PayoutIntent) (now : Z)
  | OPutWindow (window : SettlementWindow) (now : Z)
  | OPutBatch (batch : PayoutBatch) (now : Z)
  | OAudit (event : AuditEvent) (now : Z).

(** The name the reconciler gives a round. *)
Definition round_name (key : string) : string := "round-close-" +:+ key.
(** Rounds are named so, and numbers and terms are those of a uint64. *)
Definition proper_op (op : pool_op) : Prop :=
  match op with
  | ORound r _ => rr_ID r = round_name (rr_RoundID r)
  | OTerms t _ => 0 <= rt_EffectiveRound t < two64 /\ 0 <= rt_WindowRounds t /\ 0 <= rt_CommissionBPS t
  | _ => True
  end.

Section invariant.
Context `{Bolt M} `{PoolWire}.
Variable pool : string.
Hypothesis pool_named : pool <> "".
Implicit Types (db tx : PoolDB M).

Definition pstep db (op : pool_op) : PoolDB M :=
  match op with
  | OTerms term now => (PutRegionalTerms pool term now db).2
  | OAccept poolID wallet version join now => (acceptRegionalTerms pool poolID wallet version join now db).2
  | OBegin item now => (BeginTermsPublication pool item now db).2
  | OPublish item now => (SaveTermsPublication item now db).2
  | ORegister source start reason actor now => (RegisterRevenueSource pool source start reason actor now db).2
  | ODrain id round reason actor now => (DrainRevenueSource id round reason actor now db).2
  | ORetire id after reason proof actor now => (RetireRevenueSource id after reason proof actor now db).2
  | OWork receipt now => (SaveWorkReceipt pool receipt now db).2
  | ORound receipt now => (SaveRegionalRound pool receipt now db).2
  | OPlainRound receipt now => (SaveRoundReceipt receipt now db).2
  | OWindow start now => (CloseRegionalWindow pool start now db).2
  | OReady now => (CloseReadyRegionalWindows pool now db).2
  | OApprove stat id actor policy now => (approveRegionalBatch pool stat id actor policy now db).2
  | OIntent intent now => (SavePayoutIntent intent now db).2
  | OPutWindow window now => (PutSettlementWindow window now db).2
  | OPutBatch batch now => (PutPayoutBatch batch now db).2
  | OAudit event now => (AppendAuditEvent event now db).2
  end.
Definition prun : PoolDB M -> list pool_op -> PoolDB M := foldl pstep.

(** ** Rounds *)
Definition rounds_of db : M string := opt_bucket (pd_round_numbers db).
Definition windows_of db : M string := opt_bucket (pd_window_numbers db).

(** What a closed round collected. *)
Definition round_wei db (key : string) : Z :=
  match rounds_of db !! key with
  | Some id => default 0 (r ← pd_round_receipts db !! id; SetString10 (rr_PoolRevenueWei r))
  | None => 0
  end.

(** The row of a closed round. *)
Record closed_round db (key id : string) : Prop := {
  cl_name : id = round_name key;
  cl_number : exists n, key = dec_string n /\ 0 <= n < 2 ^ 63;
  cl_row : exists r wei, pd_round_receipts db !! id = Some r /\ rr_ID r = id /\ rr_RoundID r = key /\
             rr_PoolRevenueWei r = dec_string wei /\ 0 <= wei;
}.

(** ** Windows *)
Definition window_id (start rounds : Z) : string := pool +:+ "-window-" +:+ dec_string start +:+ "-" +:+ dec_string (start + rounds - 1).
Definition batch_id (id : string) : string := "batch-" +:+ id.
Definition round_keys (start rounds : Z) : list string := dec_string <$> seqZ start rounds.

(** The terms a window was closed under: no other terms start within it. *)
Record under_terms db (start rounds : Z) (term : RegionalTerms) : Prop := {
  ut_stored : pd_terms db !! rt_Version term = Some term;
  ut_rounds : rounds = rt_WindowRounds term /\ 0 < rounds;
  ut_start : 0 <= rt_EffectiveRound term <= start;
  ut_aligned : (start - rt_EffectiveRound term) mod rounds = 0;
  ut_alone : forall k t, pd_terms db !! k = Some t -> rt_EffectiveRound t <= rt_EffectiveRound term \/ start + rounds <= rt_EffectiveRound t;
}.

(** A window pays out of the revenue of its rounds and of nothing else. *)
Record window_paid db (start rounds : Z) (term : RegionalTerms) (w : SettlementWindow) (b : PayoutBatch) : Prop := {
  wp_window : sw_ID w = window_id start rounds /\ sw_PoolID w = pool;
  wp_batch : pb_ID b = batch_id (sw_ID w) /\ pb_PoolID b = pool /\ pb_SettlementWindowID b = sw_ID w;
  wp_allocation : exists a work, sw_RegionalAllocation w = Some a /\ pb_LineItems b = al_Members a /\
    pb_TotalAmountWei b = al_MemberPayoutWei a /\
    allocated (sum_by (round_wei db) (round_keys start rounds)) (rt_CommissionBPS term) work a;
}.
Definition closed_window db (key id : string) : Prop :=
  exists start rounds term w b,
    key = dec_string start /\ id = window_id start rounds /\ under_terms db start rounds term /\
    (forall n, start <= n < start + rounds -> is_Some (rounds_of db !! dec_string n)) /\
    pd_windows db !! id = Some w /\ pd_batches db !! batch_id id = Some b /\ window_paid db start rounds term w b.

(** ** Intents *)
Definition intent_id (batch : string) (i : nat) : string := "payout-" +:+ batch +:+ "-" +:+ dec4 (Z.of_nat i).
Definition regional (i : PayoutIntent) : bool := negb (bool_decide (pi_PoolID i = "")).

(** A regional intent pays one line of the batch of a closed window. *)
Definition owed_line db (k : string) (i : PayoutIntent) : Prop :=
  exists key id b n line,
    windows_of db !! key = Some id /\ pd_batches db !! batch_id id = Some b /\
    pb_LineItems b !! n = Some line /\ k = intent_id (pb_ID b) n /\ pi_AmountWei i = li_AmountWei line.

Record books db : Prop := {
  bk_terms : forall k t, pd_terms db !! k = Some t -> rt_Version t = k /\ 0 <= rt_EffectiveRound t < two64 /\
               0 < rt_WindowRounds t /\ 0 <= rt_CommissionBPS t;
  bk_apart : forall k k' t t', pd_terms db !! k = Some t -> pd_terms db !! k' = Some t' ->
               rt_EffectiveRound t = rt_EffectiveRound t' -> k = k';
  bk_rounds : forall key id, rounds_of db !! key = Some id -> closed_round db key id;
  bk_sources : is_Some (pd_round_numbers db) -> exists sources, pd_sources db = Some sources /\ size sources <> 0%nat;
  bk_windows : forall key id, windows_of db !! key = Some id -> closed_window db key id;
  bk_window_rows : forall id w, pd_windows db !! id = Some w -> sw_PoolID w <> "" -> exists key, windows_of db !! key = Some id;
  bk_batch_rows : forall k b, pd_batches db !! k = Some b -> pb_PoolID b <> "" ->
                    exists key id, windows_of db !! key = Some id /\ k = batch_id id;
  bk_intents : forall k i, pd_intents db !! k = Some i -> regional i = true -> owed_line db k i;
}.

(** ** What a later state must keep for a window to stay as it is *)
Definition rounds_kept db db' : Prop :=
  forall k, is_Some (rounds_of db !! k) -> rounds_of db' !! k = rounds_of db !! k /\ round_wei db' k = round_wei db k.
Definition terms_kept db db' : Prop :=
  forall start rounds term, under_terms db start rounds term ->
    (forall n, start <= n < start + rounds -> is_Some (rounds_of db !! dec_string n)) -> under_terms db' start rounds term.
Definition window_kept (id : string) db db' : Prop :=
  forall w, pd_windows db !! id = Some w -> exists w', pd_windows db' !! id = Some w' /\ window_economics w' = window_economics w.
Definition batch_kept (k : string) db db' : Prop :=
  forall b, pd_batches db !! k = Some b -> exists b', pd_batches db' !! k = Some b' /\ batch_economics b' = batch_economics b.


(** ** What a write keeps

    Closed rounds stay as they were; windows and batches keep what they pay, and
    intents what they are for; a paid one stays as it is. *)
Record keeps db db' : Prop := {
  kp_rounds : forall key id, rounds_of db !! key = Some id ->
    rounds_of db' !! key = Some id /\ pd_round_receipts db' !! id = pd_round_receipts db !! id;
  kp_windows : forall key id, windows_of db !! key = Some id ->
    windows_of db' !! key = Some id /\ window_kept id db db' /\ batch_kept (batch_id id) db db';
  kp_intents : forall k i, pd_intents db !! k = Some i -> regional i = true ->
    exists i', pd_intents db' !! k = Some i' /\ same_economics i i' = true /\ (pi_Status i = "paid" -> i' = i);
}.
Definition kept db db' : Prop := books db' /\ keeps db db'.

Lemma same_economics_refl i : same_economics i i = true.
Proof. unfold same_economics. rewrite Z.eqb_refl. by rewrite !bool_decide_true by done. Qed.
Lemma same_economics_trans i j k : same_economics i j = true -> same_economics j k = true -> same_economics i k = true.
Proof.
  unfold same_economics. intros E1 E2. to_prop. repeat (apply andb_true_iff; split); try (apply bool_decide_eq_true; congruence).
  apply Z.eqb_eq. congruence.
Qed.
Lemma regional_economics i j : same_economics i j = true -> regional j = regional i.
Proof. unfold same_economics. intros E. to_prop. unfold regional. by replace (pi_PoolID j) with (pi_PoolID i). Qed.
Lemma keeps_refl db : keeps db db.
Proof.
  split; [done|intros key id Hid; split_and!; [done|intros w Hw; by exists w|intros b Hb; by exists b]|].
  intros k i Hi _. exists i. by rewrite same_economics_refl.
Qed.
Lemma keeps_trans db1 db2 db3 : keeps db1 db2 -> keeps db2 db3 -> keeps db1 db3.
Proof.
  intros [A B C] [A' B' C']. split.
  - intros key id Hid. destruct (A key id Hid) as [H1 E1]. destruct (A' key id H1) as [H2 E2]. split; congruence.
  - intros key id Hid. destruct (B key id Hid) as (H1 & W1 & B1). destruct (B' key id H1) as (H2 & W2 & B2). split_and!; [done| |].
    + intros w Hw. destruct (W1 w Hw) as (w1 & Hw1 & E1). destruct (W2 w1 Hw1) as (w2 & Hw2 & E2). exists w2. split; congruence.
    + intros b Hb. destruct (B1 b Hb) as (b1 & Hb1 & E1). destruct (B2 b1 Hb1) as (b2 & Hb2 & E2). exists b2. split; congruence.
  - intros k i Hi Hr. destruct (C k i Hi Hr) as (i1 & Hi1 & E1 & P1). rewrite <- (regional_economics i i1 E1) in Hr.
    destruct (C' k i1 Hi1 Hr) as (i2 & Hi2 & E2 & P2). exists i2. split_and!; [done|by eapply same_economics_trans|].
    intros Hp. assert (i1 = i) as -> by auto. auto.
Qed.
Lemma kept_self db : books db -> kept db db.
Proof. split; [done|apply keeps_refl]. Qed.
#[local] Hint Extern 0 (kept _ _) => apply kept_self; assumption : core.
Lemma kept_trans db1 db2 db3 : kept db1 db2 -> kept db2 db3 -> kept db1 db3.
Proof. intros [_ K1] [B2 K2]. split; [done|by eapply keeps_trans]. Qed.

(** The books only look at some of the buckets. *)
Lemma keeps_buckets db db' :
  pd_round_numbers db' = pd_round_numbers db -> pd_round_receipts db' = pd_round_receipts db ->
  pd_window_numbers db' = pd_window_numbers db -> pd_windows db' = pd_windows db ->
  pd_batches db' = pd_batches db -> pd_intents db' = pd_intents db -> keeps db db'.
Proof. intros E1 E2 E3 E4 E5 E6. destruct (keeps_refl db) as [A B C]. split; [|unfold window_kept, batch_kept|]; unfold windows_of, rounds_of in *; by rewrite ?E1, ?E2, ?E3, ?E4, ?E5, ?E6. Qed.
Lemma books_but_sources db db' :
  (is_Some (pd_round_numbers db) -> exists sources, pd_sources db' = Some sources /\ size sources <> 0%nat) ->
  pd_terms db' = pd_terms db -> pd_round_numbers db' = pd_round_numbers db -> pd_round_receipts db' = pd_round_receipts db ->
  pd_window_numbers db' = pd_window_numbers db -> pd_windows db' = pd_windows db ->
  pd_batches db' = pd_batches db -> pd_intents db' = pd_intents db -> books db -> kept db db'.
Proof.
  intros Hs Et En Er Ewn Ew Eb Ei Hbooks. split; [|by apply keeps_buckets]. revert Hs Et En Er Ewn Ew Eb Ei Hbooks.
  destruct db, db'. simpl.
  intros Hs -> -> -> -> -> -> -> [A Auniq B C D E F G]. split.
  - exact A.
  - exact Auniq.
  - intros key id Hk. destruct (B key id Hk). by split.
  - exact Hs.
  - intros key id Hk. destruct (D key id Hk) as (start & rounds & term & w & b & Ek & Ei & [] & Hc & Hw & Hb & []).
    exists start, rounds, term, w, b. by split_and!.
  - exact E.
  - exact F.
  - exact G.
Qed.
Lemma books_same db db' :
  pd_terms db' = pd_terms db -> pd_round_numbers db' = pd_round_numbers db -> pd_round_receipts db' = pd_round_receipts db ->
  pd_sources db' = pd_sources db -> pd_window_numbers db' = pd_window_numbers db -> pd_windows db' = pd_windows db ->
  pd_batches db' = pd_batches db -> pd_intents db' = pd_intents db -> books db -> kept db db'.
Proof. intros ? ? ? Es ? ? ? ? Hb. eapply books_but_sources, Hb; try done. rewrite Es. apply Hb. Qed.

Lemma Update_keeps {A} (body : PoolDB M -> presult (A * PoolDB M)) db :
  (forall a tx, body db = Ok (a, tx) -> kept db tx) -> books db -> kept db (Update body db).2.
Proof. intros Hb Hi. unfold Update. destruct (body db) as [[a tx]|e] eqn:E; [by eapply Hb|by apply kept_self]. Qed.

Lemma closed_window_kept db db' key id :
  closed_window db key id -> terms_kept db db' -> rounds_kept db db' -> window_kept id db db' -> batch_kept (batch_id id) db db' ->
  closed_window db' key id.
Proof.
  intros (start & rounds & term & w & b & Ek & Ei & Ht & Hc & Hw & Hb & [[W1 W2] (B1 & B2 & B3) (a & work & A1 & A2 & A3 & A4)]) T R W B.
  destruct (W w Hw) as (w' & Hw' & Ew). destruct (B b Hb) as (b' & Hb' & Eb).
  exists start, rounds, term, w', b'. split_and!; try done; [by apply T| |].
  { intros n Hn. destruct (R _ (Hc n Hn)) as [-> _]. by apply Hc. }
  pose proof (f_equal sw_ID Ew) as E1. pose proof (f_equal sw_PoolID Ew) as E2. pose proof (f_equal sw_RegionalAllocation Ew) as E3.
  pose proof (f_equal pb_ID Eb) as E4. pose proof (f_equal pb_PoolID Eb) as E5. pose proof (f_equal pb_SettlementWindowID Eb) as E6.
  pose proof (f_equal pb_LineItems Eb) as E7. pose proof (f_equal pb_TotalAmountWei Eb) as E8.
  unfold window_economics, batch_economics in *. simpl in *. split; [by rewrite E1, E2|by rewrite E4, E5, E6, E1|].
  exists a, work. rewrite E3, E7, E8. split_and!; try done.
  erewrite sum_by_ext_in; [exact A4|]. intros k (n & -> & Hn%elem_of_seqZ)%list_elem_of_fmap. simpl. by apply R, Hc.
Qed.

Lemma window_kept_same id db db' : pd_windows db' !! id = pd_windows db !! id -> window_kept id db db'.
Proof. intros E w Hw. exists w. by rewrite E. Qed.
Lemma batch_kept_same k db db' : pd_batches db' !! k = pd_batches db !! k -> batch_kept k db db'.
Proof. intros E b Hb. exists b. by rewrite E. Qed.
Lemma same_rounds db db' :
  pd_round_numbers db' = pd_round_numbers db -> pd_round_receipts db' = pd_round_receipts db -> rounds_kept db db'.
Proof. intros E E' k _. unfold round_wei, rounds_of. by rewrite E, E'. Qed.
Lemma same_terms db db' : pd_terms db' = pd_terms db -> terms_kept db db'.
Proof. intros E start rounds term [] _. split; try done; by rewrite E. Qed.
Lemma same_closed_round db db' key id :
  pd_round_receipts db' !! id = pd_round_receipts db !! id -> closed_round db key id -> closed_round db' key id.
Proof. intros E [A B (r & wei & Hr & C)]. split; [done|done|]. exists r, wei. by rewrite E. Qed.

Lemma owed_line_kept db db' k i i' :
  (forall key id, windows_of db !! key = Some id -> windows_of db' !! key = Some id /\ batch_kept (batch_id id) db db') ->
  pi_AmountWei i' = pi_AmountWei i -> owed_line db k i -> owed_line db' k i'.
Proof.
  intros Hk Ea (key & id & b & n & line & Hi & Hb & Hl & Ek & E). destruct (Hk key id Hi) as [Hi' Hkept].
  destruct (Hkept b Hb) as (b' & Hb' & Eb). exists key, id, b', n, line.
  pose proof (f_equal pb_ID Eb) as E1. pose proof (f_equal pb_LineItems Eb) as E2. unfold batch_economics in *. simpl in *.
  split_and!; try done; [by rewrite E2|by rewrite E1|congruence].
Qed.

(** ** Terms, sources and receipts *)
Lemma rounds_below_ok parse start e keys :
  rounds_below parse start e keys = Ok tt -> forall key n, key ∈ keys -> parse key = Some n -> n < start.
Proof.
  induction keys as [|k keys IH]; simpl; [by intros _ key n Hk%elem_of_nil|]. intros Hr key n Hk Hn.
  destruct (parse k) as [m|] eqn:Em; [|done]. destruct (Z.leb_spec start m) as [|Hm]; [done|].
  apply elem_of_cons in Hk as [->|Hk]; [congruence|by eapply IH].
Qed.
Lemma closed_keys_elem db key : key ∈ closed_keys db <-> is_Some (rounds_of db !! key).
Proof.
  unfold closed_keys, rounds_of. rewrite list_elem_of_fmap. split.
  - intros ([k v] & -> & Hk%elem_of_ForEach). by exists v.
  - intros [v Hv]. exists (key, v). by rewrite elem_of_ForEach.
Qed.
Lemma closed_number db key : books db -> is_Some (rounds_of db !! key) -> exists n, key = dec_string n /\ 0 <= n < 2 ^ 63.
Proof. intros Hb [id Hid]. apply (cl_number _ _ _ (bk_rounds _ Hb _ _ Hid)). Qed.

(** Terms take effect after all earlier ones. *)
Lemma latest_terms_max (l : list RegionalTerms) found :
  match foldl later_terms found l with
  | Some last => (forall t, t ∈ l \/ found = Some t -> rt_EffectiveRound t <= rt_EffectiveRound last)
  | None => l = [] /\ found = None
  end.
Proof.
  revert found. induction l as [|t l IH]; intros found; cbn [foldl].
  - destruct found as [f|]; [|done]. intros t [Ht%elem_of_nil|[= <-]]; [done|lia].
  - specialize (IH (later_terms found t)). destruct (foldl _ _ _) as [last|]; cycle 1.
    { destruct IH as [_ IH]. unfold later_terms in IH. by repeat case_match. }
    assert (Hf : forall f, later_terms found t = Some f -> rt_EffectiveRound t <= rt_EffectiveRound f /\
              forall g, found = Some g -> rt_EffectiveRound g <= rt_EffectiveRound f).
    { unfold later_terms. intros f. destruct found as [g|].
      - destruct (Z.ltb_spec (rt_EffectiveRound g) (rt_EffectiveRound t)); intros <-%(inj Some); (split; [lia|]; intros ? <-%(inj Some); lia).
      - intros <-%(inj Some). by split; [lia|]. }
    assert (exists f, later_terms found t = Some f) as [f Ef].
    { unfold later_terms. repeat case_match; eauto. }
    destruct (Hf f Ef) as [H1 H2]. specialize (IH f (or_intror Ef)) as H3. intros u [[->|Hu]%elem_of_cons|Hu].
    + lia.
    + apply IH. by left.
    + specialize (H2 u Hu). lia.
Qed.
Lemma on_boundary_after db effective :
  on_boundary (latest_terms db) effective = true -> forall k t, pd_terms db !! k = Some t -> rt_EffectiveRound t < effective.
Proof.
  intros Hb k t Hk. pose proof (latest_terms_max (ForEach (pd_terms db)).*2 None) as Hm. fold (latest_terms db) in Hm.
  assert (Hin : t ∈ (ForEach (pd_terms db)).*2) by (apply list_elem_of_fmap; exists (k, t); by rewrite elem_of_ForEach).
  destruct (latest_terms db) as [last|]; simpl in Hb.
  - specialize (Hm t (or_introl Hin)). apply andb_true_iff in Hb as [Hb _]. to_prop. lia.
  - destruct Hm as [Hm _]. rewrite Hm in Hin. by apply elem_of_nil in Hin.
Qed.

Lemma OTerms_keeps db term now : proper_op (OTerms term now) -> books db -> kept db (PutRegionalTerms pool term now db).2.
Proof.
  intros (He & Hw & Hc) Hb. unfold PutRegionalTerms. cbv zeta. repeat case_match; try done.
  apply Update_keeps; [|done]. intros [] tx Ht. unfold with_window in *.
  set (t := if rt_WindowRounds term =? 0 then _ else _) in *.
  assert (Hv : 0 <= rt_EffectiveRound t < two64 /\ 0 < rt_WindowRounds t /\ 0 <= rt_CommissionBPS t).
  { unfold t. destruct (Z.eqb_spec (rt_WindowRounds term) 0); simpl; lia. }
  destruct (pd_terms db !! rt_Version t) as [old|] eqn:Eo; [case_bool_decide; [by injection Ht as <-|done]|].
  destruct (rounds_below _ _ _ _) as [[]|] eqn:Er; [|done]. destruct (on_boundary (latest_terms db) (rt_EffectiveRound t)) eqn:Eb; simpl in Ht; [|done]. injection Ht as <-.
  pose proof (rounds_below_ok _ _ _ _ Er) as Hbelow. destruct Hb as [A Auniq B C D E F G].
  assert (Hterms : terms_kept db (db <| pd_terms := <[rt_Version t := t <| rt_CreatedAt := Some now |>]> (pd_terms db) |>)).
  { intros start rounds tm [U1 [U2 U2p] U3 U4 U5] Hclosed. split; try done; cbn [setter].
    - simpl. rewrite lookup_insert_ne; [done|]. congruence.
    - simpl. intros k t'. rewrite lookup_insert. destruct (decide (rt_Version t = k)) as [Ek|Ek]; [intros <-%(inj Some)|by apply U5]. right. simpl.
      assert (Hl : start <= start + rounds - 1 < start + rounds) by lia.
      destruct (closed_number db _ (Build_books _ A Auniq B C D E F G) (Hclosed _ Hl)) as (n & En & Hn). apply (inj dec_string) in En.
      enough (start + rounds - 1 < rt_EffectiveRound t) by lia. eapply Hbelow; [by apply closed_keys_elem, (Hclosed _ Hl)|].
      apply ParseUint_dec. unfold two64. lia. }
  split; [|by apply keeps_buckets]. split; try done.
  - simpl. intros k t'. rewrite lookup_insert. destruct (decide (rt_Version t = k)) as [Ek|Ek]; [intros <-%(inj Some); by split|by apply A].
  - simpl. intros k k' t1 t2. rewrite !lookup_insert.
    assert (Hl : forall k t', pd_terms db !! k = Some t' -> rt_EffectiveRound t' < rt_EffectiveRound t) by (by apply on_boundary_after).
    destruct (decide (rt_Version t = k)) as [Ek|Ek], (decide (rt_Version t = k')) as [Ek'|Ek'];
      intros E1 E2; simplify_eq; intros Ee; simpl in Ee; try done.
    + apply Hl in E2. lia.
    + apply Hl in E1. lia.
    + by eapply Auniq.
  - intros key id Hid. by eapply same_closed_round; [|exact (B key id Hid)].
  - intros key id Hid. specialize (D key id Hid). eapply closed_window_kept; [exact D|done| | |].
    + by apply same_rounds.
    + by apply window_kept_same.
    + by apply batch_kept_same.
Qed.

(** Writes that only add to, or rewrite, the sources. *)
Lemma sources_keep db (b : M RevenueSource) :
  size b <> 0%nat -> books db -> kept db (db <| pd_sources := Some b |>).
Proof. intros Hs Hb. eapply books_but_sources, Hb; try done. intros _. by exists b. Qed.
Lemma insert_size_ne (b : M RevenueSource) k s : size (<[k := s]> b) <> 0%nat.
Proof. intros Hs%map_size_empty_iff. by apply insert_non_empty in Hs. Qed.
Lemma lookup_size_ne (b : M RevenueSource) k s : b !! k = Some s -> size b <> 0%nat.
Proof. intros Hk Hs%map_size_empty_iff. subst b. by rewrite lookup_empty in Hk. Qed.

Lemma ORegister_keeps db source start reason actor now :
  books db -> kept db (RegisterRevenueSource pool source start reason actor now db).2.
Proof.
  intros Hb. unfold RegisterRevenueSource. destruct (Source_Validate source); [|done]. case_match; [done|].
  apply Update_keeps; [|done]. intros [] tx Ht. cbv zeta in Ht. case_match.
  - case_match; [done|]. injection Ht as <-. apply sources_keep; [by eapply lookup_size_ne|done].
  - destruct (rounds_below _ _ _ _); [|done]. case_match; [done|]. injection Ht as <-. apply sources_keep; [apply insert_size_ne|done].
Qed.
Lemma ODrain_keeps db id round reason actor now : books db -> kept db (DrainRevenueSource id round reason actor now db).2.
Proof.
  intros Hb. unfold DrainRevenueSource. apply Update_keeps; [|done]. intros [] tx Ht. repeat case_match; try done; injection Ht as <-; try done;
    (apply sources_keep; [apply insert_size_ne|done]).
Qed.
Lemma ORetire_keeps db id after reason proof actor now : books db -> kept db (RetireRevenueSource id after reason proof actor now db).2.
Proof.
  intros Hb. unfold RetireRevenueSource. apply Update_keeps; [|done]. intros [] tx Ht. repeat case_match; try done; injection Ht as <-; try done;
    (apply sources_keep; [apply insert_size_ne|done]).
Qed.

(** Writes outside the books. *)
Lemma OAccept_keeps db poolID wallet version join now : books db -> kept db (acceptRegionalTerms pool poolID wallet version join now db).2.
Proof.
  intros Hb. unfold acceptRegionalTerms. case_match; [done|]. apply Update_keeps; [|done]. intros res tx Ht.
  assert (Hg : forall tx0, kept db tx0 -> kept db (grantAcceptedTerms (ToLower wallet) version tx0)).
  { intros tx0 Hk. unfold grantAcceptedTerms. destruct (bool_decide (default "" (rt_Version <$> latest_terms tx0) = version)); [|done].
    eapply kept_trans; [exact Hk|]. eapply books_same; [reflexivity..|apply Hk]. }
  cbv zeta in Ht. repeat (case_match; try done); simplify_eq; apply Hg; try done; (eapply books_same, Hb; reflexivity).
Qed.
Lemma OBegin_keeps db item now : books db -> kept db (BeginTermsPublication pool item now db).2.
Proof.
  intros Hb. unfold BeginTermsPublication. case_match; [done|]. cbv zeta. case_match; [done|]. apply Update_keeps; [|done]. intros res tx Ht.
  repeat (case_match; try done); simplify_eq; try done; (eapply books_same, Hb; reflexivity).
Qed.
Lemma OPublish_keeps db item now : books db -> kept db (SaveTermsPublication item now db).2.
Proof.
  intros Hb. unfold SaveTermsPublication. apply Update_keeps; [|done]. intros res tx Ht.
  repeat (case_match; try done); simplify_eq; (eapply books_same, Hb; reflexivity).
Qed.
Lemma OWork_keeps db receipt now : books db -> kept db (SaveWorkReceipt pool receipt now db).2.
Proof.
  intros Hb. unfold SaveWorkReceipt. case_match; [done|]. cbv zeta. apply Update_keeps; [|done]. intros res tx Ht.
  repeat (case_match; try done); simplify_eq; try done; (eapply books_same, Hb; reflexivity).
Qed.
Lemma OAudit_keeps db event now : books db -> kept db (AppendAuditEvent event now db).2.
Proof. intros Hb. (eapply books_same, Hb; reflexivity). Qed.

(** ** Rounds *)
#[local] Instance round_name_inj : Inj (=) (=) round_name.
Proof. intros a b. unfold round_name. by intros E%(inj (String.append _)). Qed.

Lemma canonical_round_ok raw round : canonical_round raw = Some round -> raw = dec_string round /\ 0 <= round < 2 ^ 63.
Proof.
  unfold canonical_round. destruct (ParseInt raw) as [n|] eqn:En; [|done]. destruct (_ && _) eqn:Eb; [|done]. intros [= <-]. to_prop.
  split; [done|]. split; [lia|]. subst raw. unfold ParseInt in En. rewrite SetString10_dec in En. repeat case_match; simplify_eq; to_prop; lia.
Qed.
Lemma check_reports_total sources round now reports seen total total' :
  check_reports sources round now reports seen total = Ok total' -> 0 <= total -> 0 <= total'.
Proof.
  revert seen total. induction reports as [|r reports IH]; simpl; intros seen total Hc Ht; [by injection Hc as <-|].
  destruct (sources !! _) as [source|]; [|done]. case_bool_decide; [done|].
  destruct (Report_Validate _ _ _ _) as [[]|] eqn:Ev; [|done]. eapply IH; [exact Hc|]. unfold Report_Validate in Ev.
  destruct (SetString10 _) as [amount|]; [|by repeat case_match]. repeat case_match; to_prop; simpl; try done; lia.
Qed.
Lemma ForEach_none {A} : ForEach (∅ : M A) = [].
Proof.
  destruct (ForEach (∅ : M A)) as [|[k x] l] eqn:E; [done|]. assert (Hk : (k, x) ∈ ForEach (∅ : M A)) by (rewrite E; left).
  apply elem_of_ForEach in Hk. by rewrite lookup_empty in Hk.
Qed.
Lemma round_sources_size round db : size (round_sources round db) <> 0%nat -> exists b, pd_sources db = Some b /\ size b <> 0%nat.
Proof.
  unfold round_sources. intros Hs.
  assert (Hne : opt_bucket (pd_sources db) <> ∅) by (intros E; rewrite E, ForEach_none in Hs; by apply Hs, map_size_empty).
  destruct (pd_sources db) as [b|]; [|done]. exists b. split; [done|]. by intros Hb%map_size_empty_iff.
Qed.

(** A round that is closed for the first time. *)
Lemma put_round_keeps receipt round total now db :
  canonical_round (rr_RoundID receipt) = Some round -> rr_ID receipt = round_name (rr_RoundID receipt) ->
  rounds_of db !! rr_RoundID receipt = None -> rr_PoolRevenueWei receipt = dec_string total -> 0 <= total ->
  (exists b, pd_sources db = Some b /\ size b <> 0%nat) ->
  books db -> kept db (put_round (receipt <| rr_CreatedAt := created_or now (rr_CreatedAt receipt) |>) db).
Proof.
  intros [Er Hr]%canonical_round_ok En Hnew Ew Hw Hs [A Auniq B C D E F G]. set (db' := put_round _ db).
  assert (Hrow : forall k, k <> rr_RoundID receipt -> pd_round_receipts db' !! round_name k = pd_round_receipts db !! round_name k).
  { intros k Hk. unfold db', put_round. simpl. rewrite lookup_insert_ne; [done|]. rewrite En. by intros <-%(inj round_name). }
  assert (Hidx : forall k, rounds_of db' !! k = if decide (rr_RoundID receipt = k) then Some (rr_ID receipt) else rounds_of db !! k).
  { intros k. unfold rounds_of, db', put_round. simpl. apply lookup_insert. }
  assert (Hkept : rounds_kept db db').
  { intros k [id Hid]. assert (Hne : rr_RoundID receipt <> k) by congruence.
    assert (Hl : rounds_of db' !! k = rounds_of db !! k) by (rewrite Hidx; by destruct (decide _)). split; [done|].
    unfold round_wei. rewrite Hl, Hid. destruct (B k id Hid) as [-> _ _]. by rewrite (Hrow k (not_eq_sym Hne)). }
  split; cycle 1.
  { destruct (keeps_refl db) as [_ K2 K3]. split; [|exact K2|exact K3]. intros k id Hid. destruct (Hkept k) as [Hl _]; [by exists id|].
    split; [by rewrite Hl|]. destruct (B k id Hid) as [-> _ _]. apply Hrow. congruence. }
  split; try done.
  - intros k id. rewrite Hidx. destruct (decide _) as [<-|Hne].
    + intros <-%(inj Some). split; [done|by exists round|]. exists (receipt <| rr_CreatedAt := created_or now (rr_CreatedAt receipt) |>), total.
      split_and!; [|reflexivity|reflexivity|exact Ew|exact Hw].
      unfold db', put_round. simpl. by rewrite lookup_insert_eq.
    + intros Hid. pose proof (B k id Hid) as Hc. eapply same_closed_round, Hc. rewrite (cl_name _ _ _ Hc). by apply Hrow.
  - intros k id Hid. eapply closed_window_kept; [exact (D k id Hid)| |done| |]; [by apply same_terms|..].
    + by apply window_kept_same.
    + by apply batch_kept_same.
Qed.
Lemma check_round_ok receipt round now db :
  check_round pool receipt round now db = Ok tt ->
  exists total, rr_PoolRevenueWei receipt = dec_string total /\ 0 <= total /\ exists b, pd_sources db = Some b /\ size b <> 0%nat.
Proof.
  unfold check_round. destruct (existsb _ _); [done|]. destruct (bool_decide (pd_sources db = None)); [done|].
  destruct (_ || _) eqn:Es; [done|]. destruct (check_reports _ _ _ _ _ _) as [total|] eqn:Et; [|done]. simpl.
  destruct (bool_decide (dec_string total = _)) eqn:Ew; [|done]. intros _. exists total. to_prop. split_and!.
  - done.
  - by eapply check_reports_total.
  - by eapply round_sources_size.
Qed.
Lemma ORound_keeps db receipt now : proper_op (ORound receipt now) -> books db -> kept db (SaveRegionalRound pool receipt now db).2.
Proof.
  intros En Hb. unfold SaveRegionalRound. destruct (canonical_round _) as [round|] eqn:Er; [|done]. do 2 (case_match; [done|]).
  assert (Hu : kept db (Update (close_round pool receipt round now) db).2).
  { apply Update_keeps; [|done]. intros corrected tx Ht. unfold close_round in Ht.
    destruct (opt_bucket (pd_round_numbers db) !! rr_RoundID receipt) as [prior|] eqn:Ep.
    - unfold recordRegionalCorrection in Ht. repeat (case_match; try done); simplify_eq; try done; (eapply books_same, Hb; reflexivity).
    - destruct (check_round _ _ _ _ _) as [[]|] eqn:Ec; [|done]. simpl in Ht. injection Ht as <- <-.
      apply check_round_ok in Ec as (total & Ew & Ht & Hs). by eapply put_round_keeps. }
  destruct (Update _ db) as [[[]|e] tx]; exact Hu.
Qed.

(** Rounds outside the books are only written while there are no sources. *)
Lemma OPlainRound_keeps db receipt now : books db -> kept db (SaveRoundReceipt receipt now db).2.
Proof.
  intros Hb. unfold SaveRoundReceipt. case_match; [done|]. apply Update_keeps; [|done]. intros [] tx Ht.
  assert (Hn : pd_round_numbers db = None).
  { destruct (pd_round_numbers db) as [b|] eqn:E; [|done]. destruct (bk_sources db Hb) as (sources & Es & Hs); [by rewrite E|].
    rewrite Es, bool_decide_false in Ht by done. done. }
  assert (Hno : forall k, rounds_of db !! k = None) by (intros k; unfold rounds_of; rewrite Hn; apply lookup_empty).
  case_match; [done|]. injection Ht as <-. destruct Hb as [A Auniq B C D E F G]. split; cycle 1.
  { destruct (keeps_refl db) as [_ K2 K3]. split; [|exact K2|exact K3]. intros k id Hid. by rewrite Hno in Hid. }
  split; try done.
  - intros k id Hk. change (rounds_of db !! k = Some id) in Hk. by rewrite Hno in Hk.
  - intros k id Hk. destruct (D k id Hk) as (start & rounds & term & w & b & _ & _ & [_ [_ Hr] _ _ _] & Hc & _).
    destruct (Hc start ltac:(lia)) as [x Hx]. by rewrite Hno in Hx.
Qed.

(** ** Windows *)

(** The terms in force at the start of a window, and where the next ones begin. *)
Lemma window_terms_found start (l : list RegionalTerms) :
  let '(found, next) := foldl (window_terms start) (None, max_uint64) l in
  next <= max_uint64 /\
  (forall t, found = Some t -> t ∈ l /\ rt_EffectiveRound t <= start) /\
  (forall t, t ∈ l -> (exists f, found = Some f /\ rt_EffectiveRound t <= rt_EffectiveRound f) \/ next <= rt_EffectiveRound t).
Proof.
  induction l as [|c l IH] using rev_ind; simpl; [by split_and!; [|done|intros t Ht%elem_of_nil]|].
  rewrite foldl_snoc. destruct (foldl _ _ l) as [found next]. destruct IH as (A & B & C). simpl.
  destruct (Z.leb_spec (rt_EffectiveRound c) start) as [Hc|Hc]; simpl; cycle 1.
  { destruct (Z.ltb_spec start (rt_EffectiveRound c)); [|lia]. simpl.
    destruct (Z.ltb_spec (rt_EffectiveRound c) next); (split_and!; [lia|intros t Ht; specialize (B t Ht); set_solver|]);
      (intros t [Ht| ->%list_elem_of_singleton]%elem_of_app; [destruct (C t Ht) as [|]; [by left|right; lia]|right; lia]). }
  destruct (Z.ltb_spec start (rt_EffectiveRound c)); [lia|]. simpl. destruct found as [f|].
  - destruct (Z.ltb_spec (rt_EffectiveRound f) (rt_EffectiveRound c)); split_and!; try lia.
    + intros t <-%(inj Some). split; [set_solver|lia].
    + intros t [Ht| ->%list_elem_of_singleton]%elem_of_app; [|by left; exists c]. destruct (C t Ht) as [(f' & [= <-] & Hf)|]; [|by right].
      left. exists c. split; [done|lia].
    + intros t Ht. destruct (B t Ht). set_solver.
    + intros t [Ht| ->%list_elem_of_singleton]%elem_of_app; [by apply C|by left; exists f].
  - split_and!; try lia.
    + intros t <-%(inj Some). split; [set_solver|lia].
    + intros t [Ht| ->%list_elem_of_singleton]%elem_of_app; [|by left; exists c]. destruct (C t Ht) as [(f' & ? & Hf)|]; [done|by right].
Qed.

Lemma gather_work_revenue version key db ids g g' :
  gather_work pool version key db ids g = Ok g' -> ga_revenue g' = ga_revenue g.
Proof.
  revert g. induction ids as [|id ids IH]; simpl; intros g Hg; [by injection Hg as <-|].
  repeat (case_match; try done). by apply IH in Hg.
Qed.
(** What is gathered is the revenue of rounds that are all closed. *)
Lemma gather_revenue version db numbers g g' :
  gather pool version db numbers g = Ok g' ->
  Forall (fun n => is_Some (rounds_of db !! dec_string n)) numbers /\
  ga_revenue g' = ga_revenue g + sum_by (round_wei db) (dec_string <$> numbers).
Proof.
  revert g. induction numbers as [|n numbers IH]; intros g Hg; cbn [gather] in Hg; [injection Hg as <-; split; [done|simpl; lia]|].
  destruct (gather_round _ _ _ _ _) as [g1|] eqn:E1; [|done]. simpl in Hg. apply IH in Hg as [Hall Hrev].
  unfold gather_round in E1. destruct (opt_bucket _ !! _) as [id|] eqn:Ei; [|done]. fold (rounds_of db) in Ei.
  destruct (pd_round_receipts db !! id) as [r|] eqn:Er; [|done]. destruct (_ || _); [done|].
  destruct (agree_chain _ _) as [chain|]; [|done]. simpl in E1. destruct (Wei _) as [amount|] eqn:Ew; [|done]. simpl in E1.
  apply gather_work_revenue in E1. simpl in E1. apply Wei_ok in Ew as [Ha Ew]. split; [constructor; [by exists id|done]|].
  rewrite Hrev, E1, fmap_cons. cbn [sum_by foldr].
  assert (Hw : round_wei db (dec_string n) = amount) by (unfold round_wei; rewrite Ei, Er; simpl; by rewrite Ew, SetString10_dec).
  fold (sum_by (round_wei db) (dec_string <$> numbers)). lia.
Qed.

Lemma terms_elem db t : t ∈ (ForEach (pd_terms db)).*2 <-> exists k, pd_terms db !! k = Some t.
Proof.
  rewrite list_elem_of_fmap. split.
  - intros ([k x] & -> & Hk%elem_of_ForEach). by exists k.
  - intros [k Hk]. exists (k, t). by rewrite elem_of_ForEach.
Qed.

Lemma opt_bucket_some {A} (b : option (M A)) k x : opt_bucket b !! k = Some x -> is_Some b.
Proof. destruct b as [b|]; [done|]. intros E. exfalso. exact (lookup_empty_Some k x E). Qed.

(** A window is new, and closed with what its rounds collected. *)
Record closes db (start now : Z) (term : RegionalTerms) (w : SettlementWindow) (b : PayoutBatch) : Prop := {
  cs_new : windows_of db !! dec_string start = None /\ pd_windows db !! sw_ID w = None /\ pd_batches db !! pb_ID b = None;
  cs_id : sw_ID w = window_id start (rt_WindowRounds term) /\ pb_ID b = batch_id (sw_ID w);
  cs_terms : under_terms db start (rt_WindowRounds term) term;
  cs_rounds : forall n, start <= n < start + rt_WindowRounds term -> is_Some (rounds_of db !! dec_string n);
  cs_paid : window_paid db start (rt_WindowRounds term) term w b;
}.
Lemma close_window_ok start now db w b tx :
  books db -> close_window pool start now db = Ok ((w, b), tx) ->
  (tx = db <| pd_window_numbers := Some (windows_of db) |> /\ is_Some (pd_window_numbers db)) \/
  exists term, closes db start now term w b /\ tx = put_window start w b db.
Proof.
  intros Hb Hc. unfold close_window in Hc. fold (windows_of db) in Hc. destruct (windows_of db !! dec_string start) as [id|] eqn:Ei.
  { destruct (pd_windows db !! id); [|done]. destruct (pd_batches db !! _); [|done]. injection Hc as <- <- <-. left. split; [done|].
    by eapply opt_bucket_some. }
  pose proof (window_terms_found start (ForEach (pd_terms db)).*2) as Hf. destruct (foldl _ _ _) as [found next].
  destruct found as [term|]; [|done]. destruct Hf as (_ & Hfound & Hothers). destruct (Hfound term eq_refl) as [[k Hk]%terms_elem Hstart].
  destruct (_ || _) eqn:Eg in Hc; [done|]. cbv zeta in Hc. destruct (Z.leb_spec next (start + rt_WindowRounds term - 1)); [done|].
  destruct (bool_decide (pd_round_numbers db = None)); [done|]. destruct (gather _ _ _ _ _) as [g|] eqn:Egather; [|done]. simpl in Hc.
  destruct (ModelB _ _ _ _) as [a|] eqn:Em; [|done]. simpl in Hc. destruct (_ || _) eqn:Enew in Hc; [done|]. injection Hc as <- <- <-.
  right. exists term. split; [|done]. to_prop. destruct (bk_terms db Hb k term Hk) as (Ev & He & Hr & Hbps).
  apply gather_revenue in Egather as [Hall Hrev]. cbn [ga_empty ga_revenue] in Hrev. rewrite Z.add_0_l in Hrev. apply ModelB_ok in Em as (revenue & _ & Erev & _ & _ & _ & Ha); [|done].
  apply (inj dec_string) in Erev. rewrite Forall_forall in Hall.
  assert (Hnone : pd_windows db !! window_id start (rt_WindowRounds term) = None /\
                  pd_batches db !! batch_id (window_id start (rt_WindowRounds term)) = None)
    by (split; apply eq_None_not_Some; done).
  split; try done.
  - split; [by rewrite Ev|done|lia|done|]. intros k' t' Ht'. destruct (Hothers t') as [(f & [= <-] & Hle)|]; [apply terms_elem; eauto|by left|].
    right. lia.
  - intros n Hn. apply Hall, elem_of_seqZ. lia.
  - split; try done. exists a, (ga_work g). split_and!; try done. unfold round_keys. by rewrite <- Hrev, Erev.
Qed.

(** A new window beside the others. *)
Lemma put_window_keeps start now db term w b :
  closes db start now term w b -> books db -> kept db (put_window start w b db).
Proof.
  intros [(Hnew & Hw & Hbt) [Ew Eb] Ht Hc Hp] [A Auniq B C D E F G]. set (db' := put_window _ _ _ _).
  assert (Hidx : forall k, windows_of db' !! k = if decide (dec_string start = k) then Some (sw_ID w) else windows_of db !! k).
  { intros k. unfold windows_of, db', put_window. simpl. apply lookup_insert. }
  assert (Hkept : forall k id, windows_of db !! k = Some id -> window_kept id db db' /\ batch_kept (batch_id id) db db').
  { intros k id Hk. destruct (D k id Hk) as (? & ? & ? & ? & ? & _ & _ & _ & _ & Hw' & Hb' & _).
    split; [apply window_kept_same|apply batch_kept_same]; unfold db', put_window; simpl; rewrite lookup_insert_ne; congruence. }
  assert (Hold : forall k id, windows_of db !! k = Some id -> windows_of db' !! k = Some id).
  { intros k id Hk. rewrite Hidx. destruct (decide _); congruence. }
  split; cycle 1.
  { destruct (keeps_refl db) as [K1 _ K3]. split; [exact K1| |exact K3]. intros k id Hk. split; [by apply Hold|exact (Hkept k id Hk)]. }
  split; try done.
  - intros k id Hk. by eapply same_closed_round, B.
  - intros k id. rewrite Hidx. destruct (decide _) as [<-|Hne].
    + intros <-%(inj Some). exists start, (rt_WindowRounds term), term, w, b. split_and!; try done.
      * destruct Ht. by split.
      * unfold db', put_window. simpl. by rewrite lookup_insert_eq.
      * unfold db', put_window. simpl. by rewrite <- Eb, lookup_insert_eq.
      * destruct Hp. by split.
    + intros Hk. destruct (Hkept k id Hk). eapply closed_window_kept; [exact (D k id Hk)| | |done|done].
      * by apply same_terms.
      * by apply same_rounds.
  - intros id w'. unfold db', put_window. simpl. rewrite lookup_insert. destruct (decide (sw_ID w = id)) as [<-|Hne]; intros Hw' Hpool.
    + exists (dec_string start). rewrite Hidx. by destruct (decide _).
    + destruct (E id w' Hw' Hpool) as [k Hk]. exists k. by apply Hold.
  - intros k b'. unfold db', put_window. simpl. rewrite lookup_insert. destruct (decide (pb_ID b = k)) as [<-|Hne]; intros Hb' Hpool.
    + exists (dec_string start), (sw_ID w). rewrite Hidx. by destruct (decide _).
    + destruct (F k b' Hb' Hpool) as (key & id & Hk & ->). exists key, id. split; [by apply Hold|done].
  - intros k i Hi Hr. eapply owed_line_kept; [|reflexivity|exact (G k i Hi Hr)]. intros key id Hk. split; [by apply Hold|by destruct (Hkept _ _ Hk)].
Qed.
Lemma OWindow_keeps db start now : books db -> kept db (CloseRegionalWindow pool start now db).2.
Proof.
  intros Hb. unfold CloseRegionalWindow. apply Update_keeps; [|done]. intros [w b] tx Ht.
  apply close_window_ok in Ht as [[-> [x Hx]]|(term & Hc & ->)]; [|by eapply put_window_keeps|done].
  eapply books_same, Hb; try reflexivity. unfold windows_of. simpl. by rewrite Hx.
Qed.
Lemma attempt_window_keeps start now db : books db -> kept db (attempt_window pool start now db).
Proof.
  intros Hb. unfold attempt_window. pose proof (OWindow_keeps db start now Hb) as Hw.
  destruct (CloseRegionalWindow pool start now db) as [[?|e] tx]; (eapply kept_trans; [exact Hw|]; eapply books_same; [reflexivity..|apply Hw]).
Qed.
Lemma close_until_keeps fuel rounds limit now start db : books db -> kept db (close_until pool fuel rounds limit now start db).
Proof.
  revert start db. induction fuel as [|fuel IH]; intros start db Hb; simpl; [done|]. repeat case_match; try done.
  - by apply attempt_window_keeps.
  - eapply kept_trans; [by apply attempt_window_keeps|]. apply IH. by apply attempt_window_keeps.
Qed.
(** One step per window is enough fuel: with more the loop does the same. *)
Lemma close_until_fuel fuel fuel' rounds limit now start db :
  0 < rounds -> (windows_fuel rounds limit start <= fuel)%nat -> (windows_fuel rounds limit start <= fuel')%nat ->
  close_until pool fuel rounds limit now start db = close_until pool fuel' rounds limit now start db.
Proof.
  intros Hr. revert fuel' start db. induction fuel as [|fuel IH]; intros fuel' start db Hf Hf'.
  - destruct fuel' as [|fuel']; [done|]. simpl. destruct (Z.leb_spec start limit); [|done].
    destruct (Z.leb_spec (rounds - 1) (limit - start)); [|done]. unfold windows_fuel in Hf.
    assert (1 <= (limit - start + 1) / rounds) by (apply Z.div_le_lower_bound; lia). lia.
  - destruct fuel' as [|fuel'].
    + simpl. destruct (Z.leb_spec start limit); [|done]. destruct (Z.leb_spec (rounds - 1) (limit - start)); [|done]. unfold windows_fuel in Hf'.
      assert (1 <= (limit - start + 1) / rounds) by (apply Z.div_le_lower_bound; lia). lia.
    + simpl. destruct (_ && _); [|done]. destruct (_ <? _); [done|]. apply IH; unfold windows_fuel in *;
        replace (limit - (start + rounds) + 1) with (limit - start + 1 + (-1) * rounds) by lia; rewrite Z.div_add by lia; lia.
Qed.

Lemma OReady_keeps db now : books db -> kept db (CloseReadyRegionalWindows pool now db).2.
Proof.
  assert (Hall : forall highest terms db0, books db0 -> kept db0 (close_terms pool highest now terms db0).2).
  { intros highest terms. induction terms as [|t terms IH]; intros db0 Hb; simpl; [done|]. case_match; [done|].
    eapply kept_trans; [by apply close_until_keeps|]. apply IH. by apply close_until_keeps. }
  intros Hb. unfold CloseReadyRegionalWindows. destruct (ListRegionalTerms db) as [|t terms]; [done|].
  destruct (highest_round _ _); [|done]. by apply Hall.
Qed.

(** ** Rows of windows, batches and intents *)

(** Writes that keep what windows and batches pay, and add no regional ones. *)
Lemma books_rows db db' :
  pd_terms db' = pd_terms db -> pd_round_numbers db' = pd_round_numbers db -> pd_round_receipts db' = pd_round_receipts db ->
  pd_sources db' = pd_sources db -> pd_window_numbers db' = pd_window_numbers db ->
  (forall key id, windows_of db !! key = Some id -> window_kept id db db' /\ batch_kept (batch_id id) db db') ->
  (forall id w, pd_windows db' !! id = Some w -> sw_PoolID w <> "" -> exists w0, pd_windows db !! id = Some w0 /\ sw_PoolID w0 <> "") ->
  (forall k b, pd_batches db' !! k = Some b -> pb_PoolID b <> "" -> exists b0, pd_batches db !! k = Some b0 /\ pb_PoolID b0 <> "") ->
  (forall k i, pd_intents db' !! k = Some i -> regional i = true -> owed_line db k i) ->
  (forall k i, pd_intents db !! k = Some i -> regional i = true ->
     exists i', pd_intents db' !! k = Some i' /\ same_economics i i' = true /\ (pi_Status i = "paid" -> i' = i)) ->
  books db -> kept db db'.
Proof.
  intros Et En Er Es Ewn Hkept Hw Hbt Hi Hstay [A Auniq B C D E F G].
  assert (Ewi : windows_of db' = windows_of db) by (unfold windows_of; by rewrite Ewn).
  assert (Eri : rounds_of db' = rounds_of db) by (unfold rounds_of; by rewrite En).
  split; cycle 1.
  { split; [intros k id Hk; by rewrite Eri, Er|intros k id Hk; rewrite Ewi; split; [done|by apply (Hkept k)]|exact Hstay]. }
  split; [by rewrite Et|by rewrite Et| |by rewrite En, Es| | | |].
  - rewrite Eri. intros k id Hk. eapply same_closed_round, B; [by rewrite Er|done].
  - rewrite Ewi. intros k id Hk. destruct (Hkept k id Hk). eapply closed_window_kept; [by apply D| | |done|done].
    + by apply same_terms.
    + by apply same_rounds.
  - rewrite Ewi. intros id w Hid Hp. destruct (Hw id w Hid Hp) as (w0 & Hw0 & Hp0). by eapply E.
  - rewrite Ewi. intros k b Hk Hp. destruct (Hbt k b Hk Hp) as (b0 & Hb0 & Hp0). by eapply F.
  - intros k i Hk Hr. eapply owed_line_kept; [|reflexivity|by apply Hi]. intros key id Hid. rewrite Ewi. split; [done|by destruct (Hkept _ _ Hid)].
Qed.

Lemma OIntent_keeps db intent now : books db -> kept db (SavePayoutIntent intent now db).2.
Proof.
  intros Hb. unfold SavePayoutIntent. case_match; [done|]. apply Update_keeps; [|done]. intros [] tx Ht.
  set (i := intent <| pi_CreatedAt := _ |>) in *.
  assert (Hput : forall j, (regional j = true -> owed_line db (pi_ID j) j) ->
            (forall prior, pd_intents db !! pi_ID j = Some prior -> regional prior = true ->
               same_economics prior j = true /\ pi_Status prior <> "paid") -> kept db (put_intent j db)).
  { intros j Hj Hprior. eapply books_rows, Hb; try reflexivity.
    - by split; [apply window_kept_same|apply batch_kept_same].
    - intros id w Hid Hp. by exists w.
    - intros k b Hk Hp. by exists b.
    - intros k i'. unfold put_intent. simpl. rewrite lookup_insert. destruct (decide (pi_ID j = k)) as [<-|Hne].
      + by intros <-%(inj Some).
      + apply Hb.
    - intros k i' Hi' Hr. unfold put_intent. simpl. rewrite lookup_insert. destruct (decide (pi_ID j = k)) as [<-|Hne].
      + exists j. destruct (Hprior i' Hi' Hr). by split_and!.
      + exists i'. split_and!; [done|apply same_economics_refl|done]. }
  assert (Hun : (forall prior, pd_intents db !! pi_ID i = Some prior -> regional prior = false) ->
            save_unapproved i db = Ok (tt, tx) -> kept db tx).
  { intros Hno. unfold save_unapproved. destruct (negb (bool_decide (pi_PoolID i = ""))) eqn:Ep; [done|]. simpl. repeat (case_match; try done);
      intros [= <-]; (apply Hput; [unfold regional; by rewrite Ep|intros prior Hp Hr; by rewrite (Hno prior Hp) in Hr]). }
  unfold save_intent in Ht. destruct (pd_intents db !! pi_ID i) as [prior|] eqn:Eprior; [|by apply Hun].
  destruct (negb (bool_decide (pi_PoolID prior = ""))) eqn:Ep; [|by apply Hun; [intros ? [= <-]|]].
  case_bool_decide as Esame; [by injection Ht as <-|]. destruct (negb (_ =? _)); [done|].
  destruct (same_economics prior i) eqn:Ee; [|done]. simpl in Ht. case_bool_decide as Epaid; [done|]. injection Ht as <-.
  apply Hput; [intros _|intros prior' Hp' _; change (pd_intents db !! pi_ID i = Some prior') in Hp';
    assert (prior' = prior) as -> by congruence; split; [exact Ee|exact Epaid]].
  unfold same_economics in Ee. to_prop. eapply (owed_line_kept db db); [|simpl; symmetry; eassumption|].
  - intros key id Hk. split; [done|by apply batch_kept_same].
  - simpl. eapply (bk_intents db Hb); [exact Eprior|]. unfold regional. by rewrite bool_decide_false.
Qed.

(** A row that is written over keeps what the guard compares. *)
Lemma put_window_row db (w : SettlementWindow) :
  (forall a, pd_windows db !! sw_ID w = Some a -> sw_PoolID a <> "" -> window_economics w = window_economics a) ->
  (forall id key, windows_of db !! key = Some id -> exists a, pd_windows db !! id = Some a /\ sw_PoolID a <> "") ->
  forall id key, windows_of db !! key = Some id -> window_kept id db (db <| pd_windows := <[sw_ID w := w]> (pd_windows db) |>).
Proof.
  intros Hw Hp id key Hid. destruct (Hp id key Hid) as (a & Ha & Hpa). intros a' Ha'. assert (a' = a) as -> by congruence. simpl.
  destruct (decide (sw_ID w = id)) as [<-|Hne]; [exists w; rewrite lookup_insert_eq; split; [done|by apply Hw]|exists a; by rewrite lookup_insert_ne].
Qed.
Lemma put_batch_row db (b : PayoutBatch) :
  (forall a, pd_batches db !! pb_ID b = Some a -> pb_PoolID a <> "" -> batch_economics b = batch_economics a) ->
  (forall id key, windows_of db !! key = Some id -> exists a, pd_batches db !! batch_id id = Some a /\ pb_PoolID a <> "") ->
  forall id key, windows_of db !! key = Some id -> batch_kept (batch_id id) db (db <| pd_batches := <[pb_ID b := b]> (pd_batches db) |>).
Proof.
  intros Hw Hp id key Hid. destruct (Hp id key Hid) as (a & Ha & Hpa). intros a' Ha'. assert (a' = a) as -> by congruence. simpl.
  destruct (decide (pb_ID b = batch_id id)) as [E|Hne];
    [exists b; rewrite <- E in *; rewrite lookup_insert_eq; split; [done|by apply Hw]|exists a; by rewrite lookup_insert_ne].
Qed.

(** The rows of a closed window. *)
Lemma closed_rows db key id :
  books db -> windows_of db !! key = Some id ->
  (exists w, pd_windows db !! id = Some w /\ sw_PoolID w <> "") /\ exists b, pd_batches db !! batch_id id = Some b /\ pb_PoolID b <> "".
Proof.
  intros Hb Hid. destruct (bk_windows db Hb key id Hid) as (? & ? & ? & w & b & _ & _ & _ & _ & Hw & Hbt & [[_ W] (_ & B & _) _]).
  split; [exists w|exists b]; (split; [done|by rewrite ?W, ?B]).
Qed.

Lemma OPutWindow_keeps db window now : books db -> kept db (PutSettlementWindow window now db).2.
Proof.
  intros Hb. unfold PutSettlementWindow. set (w := _ <| sw_Status := _ |>). cbv zeta. case_match; [done|].
  apply Update_keeps; [|done]. intros [] tx Ht. destruct (guard_window _ _) as [[]|] eqn:Eg; [|done]. simpl in Ht. injection Ht as <-.
  assert (Hg : forall a, pd_windows db !! sw_ID w = Some a -> sw_PoolID a <> "" -> window_economics w = window_economics a).
  { intros a Ha Hp. unfold guard_window in Eg. rewrite Ha in Eg. rewrite (bool_decide_false (sw_PoolID a = "")) in Eg by done. simpl in Eg.
    by case_bool_decide. }
  assert (Hnew : sw_PoolID w <> "" -> exists a, pd_windows db !! sw_ID w = Some a /\ sw_PoolID a <> "").
  { intros Hp. unfold guard_window in Eg. destruct (pd_windows db !! sw_ID w) as [a|] eqn:Ea.
    - exists a. split; [done|]. intros Hpa. rewrite Hpa in Eg. by rewrite (bool_decide_false (sw_PoolID w = "")) in Eg by done.
    - by rewrite bool_decide_false in Eg by done. }
  eapply books_rows, Hb; try reflexivity.
  - intros key id Hid. split; [|by apply batch_kept_same]. refine (put_window_row db w Hg _ id key Hid).
    intros id' key' Hid'. by destruct (closed_rows db key' id' Hb Hid').
  - simpl. intros id w'. rewrite lookup_insert. destruct (decide _) as [<-|Hne]; [intros <-%(inj Some); exact Hnew|]. intros Hw' Hp. by exists w'.
  - intros k b Hk Hp. by exists b.
  - apply Hb.
  - apply (keeps_refl db).
Qed.
Lemma OPutBatch_keeps db batch now : books db -> kept db (PutPayoutBatch batch now db).2.
Proof.
  intros Hb. unfold PutPayoutBatch. set (b := _ <| pb_Status := _ |>). cbv zeta. case_match; [done|].
  apply Update_keeps; [|done]. intros [] tx Ht. destruct (guard_batch _ _) as [[]|] eqn:Eg; [|done]. simpl in Ht. injection Ht as <-.
  assert (Hg : forall a, pd_batches db !! pb_ID b = Some a -> pb_PoolID a <> "" -> batch_economics b = batch_economics a).
  { intros a Ha Hp. unfold guard_batch in Eg. rewrite Ha in Eg. rewrite (bool_decide_false (pb_PoolID a = "")) in Eg by done. simpl in Eg.
    do 2 (case_match; [done|]). by case_bool_decide. }
  assert (Hnew : pb_PoolID b <> "" -> exists a, pd_batches db !! pb_ID b = Some a /\ pb_PoolID a <> "").
  { intros Hp. unfold guard_batch in Eg. destruct (pd_batches db !! pb_ID b) as [a|] eqn:Ea.
    - exists a. split; [done|]. intros Hpa. rewrite Hpa in Eg. by rewrite (bool_decide_false (pb_PoolID b = "")) in Eg by done.
    - by rewrite bool_decide_false in Eg by done. }
  eapply books_rows, Hb; try reflexivity.
  - intros key id Hid. split; [by apply window_kept_same|]. refine (put_batch_row db b Hg _ id key Hid).
    intros id' key' Hid'. by destruct (closed_rows db key' id' Hb Hid').
  - intros id w Hw Hp. by exists w.
  - simpl. intros k b'. rewrite lookup_insert. destruct (decide _) as [<-|Hne]; [intros <-%(inj Some); exact Hnew|]. intros Hb' Hp. by exists b'.
  - apply Hb.
  - apply (keeps_refl db).
Qed.

(** ** Approval *)
Lemma put_intents_ok window batch now i lines total db total' db' :
  put_intents pool window batch now i lines total db = Ok (total', db') ->
  exists b, db' = db <| pd_intents := b |> /\ (forall k v, pd_intents db !! k = Some v -> b !! k = Some v) /\
    forall k v, b !! k = Some v -> pd_intents db !! k = Some v \/
      exists j line, lines !! j = Some line /\ k = intent_id (pb_ID batch) (i + j) /\ pi_AmountWei v = li_AmountWei line.
Proof.
  revert i total db. induction lines as [|line lines IH]; simpl; intros i total db Hp.
  { injection Hp as <- <-. exists (pd_intents db). split_and!; [by destruct db|done|by left]. }
  destruct (Wei _) as [amount|]; [|done]. simpl in Hp. destruct (amount =? 0).
  - apply IH in Hp as (b & -> & Hold & Hb). exists b. split_and!; [done|done|]. intros k v Hk. destruct (Hb k v Hk) as [|(j & l & Hj & -> & Ea)]; [by left|].
    right. exists (S j), l. by rewrite Nat.add_succ_r.
  - case_bool_decide as Enew; [done|]. apply IH in Hp as (b & -> & Hold & Hb). exists b. split_and!; [done| |].
    { intros k v Hk. apply Hold. simpl. rewrite lookup_insert_ne; [done|]. intros <-. apply Enew. by exists v. }
    intros k v Hk. destruct (Hb k v Hk) as [Hk'|(j & l & Hj & -> & Ea)].
    + simpl in Hk'. rewrite lookup_insert in Hk'. destruct (decide _) as [<-|Hne] in Hk'; [|by left].
      apply (inj Some) in Hk' as <-. right. exists 0%nat, line. by rewrite Nat.add_0_r.
    + right. exists (S j), l. by rewrite Nat.add_succ_r.
Qed.
Lemma OApprove_keeps db stat id actor policy now : books db -> kept db (approveRegionalBatch pool stat id actor policy now db).2.
Proof.
  intros Hb. unfold approveRegionalBatch. case_match; [done|]. apply Update_keeps; [|done]. intros batch' tx Ht. unfold approve in Ht.
  destruct (pd_batches db !! id) as [batch|] eqn:Ebatch; [|done]. destruct (negb (bool_decide (pb_PoolID batch = pool))) eqn:Epool; [done|].
  destruct (negb (bool_decide (pb_Status batch = "pending_approval"))); [by case_match; simplify_eq|].
  destruct (pd_windows db !! pb_SettlementWindowID batch) as [window|] eqn:Ewindow; [|done].
  destruct (integrity _ _ _); [|done]. simpl in Ht. destruct (rejectCorrectedWindow _ _); [|done]. simpl in Ht.
  destruct (match policy with None => _ | _ => _ end) as [[]|]; simpl in Ht; try done.
  destruct (put_intents _ _ _ _ _ _ _ _) as [[total after]|] eqn:Ep; [|done]. simpl in Ht. case_match; [done|]. injection Ht as <- <-.
  apply put_intents_ok in Ep as (b & -> & Hstay & Hintents). to_prop.
  destruct (bk_batch_rows db Hb id batch Ebatch) as (key & wid & Hkey & ->); [congruence|].
  destruct (bk_windows db Hb key wid Hkey) as (s & r & t & w & b0 & _ & Ewid & _ & _ & Hw & Hb0 & [[W1 W2] (B1 & B2 & B3) _]).
  assert (b0 = batch) as -> by congruence. assert (sw_ID w = wid) as Esw by congruence. assert (window = w) as -> by congruence.
  assert (Ebid : pb_ID batch = batch_id wid) by congruence.
  assert (Hwk : forall key0 id0, windows_of db !! key0 = Some id0 ->
    window_kept id0 db (db <| pd_windows := <[sw_ID (approved_window now w) := approved_window now w]> (pd_windows db) |>) /\
    batch_kept (batch_id id0) db (db <| pd_batches := <[pb_ID (approved_batch actor now batch) := approved_batch actor now batch]> (pd_batches db) |>)).
  { intros key0 id0 Hid0. split; [eapply put_window_row, Hid0|eapply put_batch_row, Hid0].
    - simpl. rewrite Esw. intros a0 Ha0. by assert (a0 = w) as -> by congruence.
    - intros id1 key1 Hid1. by destruct (closed_rows db key1 id1 Hb Hid1).
    - simpl. rewrite Ebid. intros a0 Ha0. by assert (a0 = batch) as -> by congruence.
    - intros id1 key1 Hid1. by destruct (closed_rows db key1 id1 Hb Hid1). }
  eapply books_rows, Hb; try reflexivity.
  - exact Hwk.
  - simpl. rewrite Esw. intros id0 w0. rewrite lookup_insert. destruct (decide _) as [<-|Hne]; [|by eauto].
    intros _ _. exists w. split; [done|congruence].
  - simpl. rewrite Ebid. intros k b1. rewrite lookup_insert. destruct (decide _) as [<-|Hne]; [|by eauto].
    intros _ _. exists batch. split; [done|congruence].
  - simpl. intros k i Hk Hr. destruct (Hintents k i Hk) as [Hold|(j & line & Hj & -> & Ea)]; [by eapply bk_intents|].
    by exists key, wid, batch, j, line.
  - intros k i Hi _. exists i. split_and!; [by apply Hstay|apply same_economics_refl|done].
Qed.

(** ** Every write *)
Lemma pstep_kept db op : proper_op op -> books db -> kept db (pstep db op).
Proof.
  intros Hp Hb. destruct op; cbn [pstep];
    eauto using OTerms_keeps, OAccept_keeps, OBegin_keeps, OPublish_keeps, ORegister_keeps, ODrain_keeps, ORetire_keeps, OWork_keeps,
      ORound_keeps, OPlainRound_keeps, OWindow_keeps, OReady_keeps, OApprove_keeps, OIntent_keeps, OPutWindow_keeps, OPutBatch_keeps, OAudit_keeps.
Qed.
Lemma prun_kept ops db : Forall proper_op ops -> books db -> kept db (prun db ops).
Proof.
  intros Hf. revert db. induction Hf as [|op ops Hop _ IH]; intros db Hb; [done|]. pose proof (pstep_kept db op Hop Hb) as Hk.
  eapply kept_trans; [exact Hk|]. apply IH, Hk.
Qed.
Lemma opened_books (id : string) : books ((empty_db : PoolDB M) <| pd_pool_id := Some id |>).
Proof.
  assert (Hn : forall A k (x : A), (∅ : M A) !! k = Some x -> False) by (intros A k x E; by rewrite lookup_empty in E).
  split; [intros k x E|intros k k' x x' E _ _|intros k x E|intros [x E]; discriminate E|intros k x E|intros k x E _|intros k x E _|
    intros k x E _]; exfalso; exact (Hn _ _ _ E).
Qed.
End invariant.
