(* ===== verification/PoolSpec.v ===== *)
(** * What the pool controller promises its members

    The books over every sequence of writes: payouts stay within what was
    collected, and what is closed or paid is final.  What the allocation of a
    window is, when a policy may approve a batch, and how leases and rounds
    that are reported wrongly behave. *)
From S2P Require Import Prelude.
From S2P Require Import GoBytes.
From S2P Require Import GoCodecs.
From S2P Require Import GoStrings.
From S2P Require Import Bolt.
From S2P Require Import ChainErrors.
From S2P Require Import Types.
From S2P Require Import Tickets.
From S2P Require Import TicketsSpec.
From S2P Require Import Relay.
From S2P Require Import Spendauth.
From S2P Require Import WorkLedger.
From S2P Require Import WorkLedgerSpec.
From S2P Require Import PoolTypes.
From S2P Require Import PoolRevenue.
From S2P Require Import PoolAccounting.
From S2P Require Import PoolStore.
From S2P Require Import PoolRegional.
From S2P Require Import PoolIntents.
From S2P Require Import PoolSettlement.
From S2P Require Import PoolInv.

(** ** Sums *)
Lemma sum_by_incl {A} (f : A -> Z) l l' :
  NoDup l -> (forall x, x ∈ l -> x ∈ l') -> Forall (fun x => 0 <= f x) l' -> sum_by f l <= sum_by f l'.
Proof.
  intros Hd Hi Hf. destruct (submseteq_Permutation l l' (NoDup_submseteq l l' Hd Hi)) as [k Hk].
  rewrite Hk in *. rewrite sum_by_app. apply Forall_app in Hf as [_ Hf]. pose proof (sum_by_nonneg f k Hf). lia.
Qed.
Lemma sum_by_bind {A B} (f : B -> Z) (g : A -> list B) l : sum_by f (l ≫= g) = sum_by (fun x => sum_by f (g x)) l.
Proof. induction l as [|x l IH]; [done|]. rewrite bind_cons, sum_by_app, IH. done. Qed.
Lemma sum_by_plus {A} (f g : A -> Z) l : sum_by f l + sum_by g l = sum_by (fun x => f x + g x) l.
Proof. unfold sum_by. induction l as [|x l IH]; simpl; lia. Qed.
Lemma sum_by_imap {A B} (f : B -> Z) (g : nat -> A -> B) (h : A -> Z) l :
  (forall n x, f (g n x) = h x) -> sum_by f (imap g l) = sum_by h l.
Proof.
  revert g. induction l as [|x l IH]; intros g Hg; [done|]. rewrite imap_cons. cbn [sum_by foldr]. rewrite Hg.
  unfold sum_by in *. rewrite IH; [done|]. intros n y. apply Hg.
Qed.
Lemma sum_by_Forall2 {A B} (f : A -> Z) (g : B -> Z) l l' : Forall2 (fun x y => f x = g y) l l' -> sum_by f l = sum_by g l'.
Proof. unfold sum_by. induction 1; simpl; lia. Qed.

Lemma filter_sublist {A} (p : A -> bool) l : List.filter p l `sublist_of` l.
Proof. induction l as [|x l IH]; simpl; [done|]. destruct (p x); [by apply sublist_skip|by apply sublist_cons]. Qed.

(** ** The money of the region *)
Definition wei (raw : string) : Z := default 0 (SetString10 raw).
(** What the operator keeps of a window. *)
Definition operator_cut (a : RegionalAllocation) : Z :=
  wei (al_CommissionWei a) + wei (al_RoundingResidualWei a) + wei (al_ZeroWorkOperatorWei a).

Lemma allocated_sum revenue bps work a :
  allocated revenue bps work a ->
  Forall (fun l => 0 <= line_wei l) (al_Members a) /\ sum_by line_wei (al_Members a) + operator_cut a = revenue.
Proof.
  intros (commission & paid & left & zero & E1 & E2 & E3 & E4 & E5 & E6 & Hc & Hp & Hsum & Hd). unfold operator_cut, wei.
  rewrite E3, E5, E6, !SetString10_dec. simpl. destruct Hd as [_ Em _ -> -> _|Hb _ [Hm _ _] Epaid Hl Ez].
  - rewrite Em. split; [constructor|simpl; lia].
  - split; [|lia]. apply Forall_forall. intros l (m & Hbm & ->)%Hm. unfold line_wei. simpl. rewrite SetString10_dec. simpl.
    apply Z.div_pos; [|done]. apply Z.mul_nonneg_nonneg; lia.
Qed.

Section money.
Context `{Bolt M} `{PoolWire}.
Variable pool : string.
Implicit Types (db : PoolDB M).

(** What the closed rounds collected. *)
Definition collected db : Z := sum_by (round_wei db) (closed_keys db).
(** What the intents of the region are for. *)
Definition owed db : Z := sum_by (fun i => wei (pi_AmountWei i)) (List.filter regional (ForEach (pd_intents db)).*2).
(** What the operator kept of the closed windows. *)
Definition operator_wei db : Z :=
  sum_by (fun row => default 0 (w ← pd_windows db !! row.2; operator_cut <$> sw_RegionalAllocation w)) (ForEach (windows_of db)).

(** The lines of a window's batch. *)
Definition lines_at db (id : string) : list PayoutLineItem := default [] (pb_LineItems <$> pd_batches db !! batch_id id).
Definition batch_at db (id : string) : string := default "" (pb_ID <$> pd_batches db !! batch_id id).

(** The rounds of a window, and that its lines and the operator's part are what
    they collected. *)
Record spans db (row : string * string) (d : Z * Z) : Prop := {
  sn_key : row.1 = dec_string d.1;
  sn_terms : exists term, under_terms db d.1 d.2 term;
  sn_closed : forall n, d.1 <= n < d.1 + d.2 -> is_Some (rounds_of db !! dec_string n);
  sn_lines : Forall (fun l => 0 <= line_wei l) (lines_at db row.2);
  sn_sum : sum_by line_wei (lines_at db row.2) +
           default 0 (w ← pd_windows db !! row.2; operator_cut <$> sw_RegionalAllocation w) = sum_by (round_wei db) (round_keys d.1 d.2);
}.
Lemma closed_spans db row : closed_window pool db row.1 row.2 -> exists d, spans db row d.
Proof.
  destruct row as [key id]. intros (start & rounds & term & w & b & Ek & Ei & Ht & Hc & Hw & Hb & [_ _ (a & work & Ea & El & _ & Ha)]).
  apply allocated_sum in Ha as [Hl Hs]. exists (start, rounds). split; simpl in *; try done; [by exists term|..]; unfold lines_at; rewrite Hb; simpl; rewrite El; [done|].
  rewrite Hw. simpl. rewrite Ea. exact Hs.
Qed.
Lemma spans_listed db (rows : list (string * string)) :
  (forall row, row ∈ rows -> exists d, spans db row d) -> exists ds, Forall2 (spans db) rows ds.
Proof.
  induction rows as [|row rows IH]; intros Hr; [by exists []|]. destruct (Hr row) as [d Hd]; [left|].
  destruct IH as [ds Hds]; [intros r' Hr'; apply Hr; by right|]. exists (d :: ds). by constructor.
Qed.

(** Two windows share no round unless they are the same. *)
Lemma spans_apart db row row' d d' n :
  books pool db -> spans db row d -> spans db row' d' -> d.1 <= n < d.1 + d.2 -> d'.1 <= n < d'.1 + d'.2 -> d = d'.
Proof.
  intros Hb [_ (t & [St Rt Et At Nt]) _ _ _] [_ (t' & [St' Rt' Et' At' Nt']) _ _ _] Hn Hn'. destruct d as [s r], d' as [s' r']. simpl in *.
  destruct (Nt _ _ St') as [H1|H1]; [|lia]. destruct (Nt' _ _ St) as [H2|H2]; [|lia].
  assert (Ee : rt_EffectiveRound t = rt_EffectiveRound t') by lia.
  pose proof (bk_apart pool db Hb _ _ _ _ St St' Ee) as Ev. assert (t = t') as <- by (rewrite Ev in St; congruence).
  destruct Rt as [-> Hr], Rt' as [-> _]. f_equal.
  apply Z.mod_divide in At as [q Hq]; [|lia]. apply Z.mod_divide in At' as [q' Hq']; [|lia].
  assert (q = q') by nia. subst q'. lia.
Qed.

Lemma round_wei_nonneg db key : books pool db -> is_Some (rounds_of db !! key) -> 0 <= round_wei db key.
Proof.
  intros Hb [id Hid]. destruct (bk_rounds pool db Hb key id Hid) as [_ _ (r & w & Hr & _ & _ & Ew & Hw)].
  unfold round_wei. rewrite Hid, Hr. simpl. by rewrite Ew, SetString10_dec.
Qed.
Lemma NoDup_Forall2_keys db (rows : list (string * string)) ds :
  Forall2 (spans db) rows ds -> NoDup rows.*1 -> NoDup ds /\ forall d, d ∈ ds -> exists row, row ∈ rows /\ spans db row d.
Proof.
  induction 1 as [|row d rows ds Hd Hds IH]; intros Hk; [split; [constructor|by intros d Hd%elem_of_nil]|].
  rewrite fmap_cons in Hk. apply NoDup_cons in Hk as [Hnew Hk]. destruct (IH Hk) as [Hnd Hin]. split.
  - apply NoDup_cons. split; [|done]. intros Hd'. destruct (Hin d Hd') as (row' & Hr' & Hs'). apply Hnew.
    rewrite (sn_key _ _ _ Hd), <- (sn_key _ _ _ Hs'). by apply list_elem_of_fmap_2.
  - intros d' [->|Hd']%elem_of_cons; [exists row; split; [left|done]|]. destruct (Hin d' Hd') as (row' & Hr' & Hs').
    exists row'. split; [by right|done].
Qed.

(** The rounds of all windows are different closed rounds. *)
Lemma windows_collected db ds :
  books pool db -> Forall2 (spans db) (ForEach (windows_of db)) ds ->
  sum_by (fun d => sum_by (round_wei db) (round_keys d.1 d.2)) ds <= collected db.
Proof.
  intros Hb Hds. destruct (NoDup_Forall2_keys db _ _ Hds (NoDup_ForEach_keys _)) as [Hnd Hin].
  rewrite <- (sum_by_bind (round_wei db) (fun d => round_keys d.1 d.2)). apply sum_by_incl.
  - apply NoDup_bind; [|intros d _; apply (NoDup_fmap_2 dec_string), NoDup_seqZ|done].
    intros d d' k Hd Hd' (n & -> & Hn%elem_of_seqZ)%list_elem_of_fmap (n' & E & Hn'%elem_of_seqZ)%list_elem_of_fmap.
    apply (inj dec_string) in E as <-. destruct (Hin d Hd) as (row & _ & Hs), (Hin d' Hd') as (row' & _ & Hs').
    by eapply spans_apart.
  - intros k (d & (n & -> & Hn%elem_of_seqZ)%list_elem_of_fmap & Hd)%list_elem_of_bind. destruct (Hin d Hd) as (row & _ & Hs).
    by apply closed_keys_elem, (sn_closed _ _ _ Hs).
  - apply Forall_forall. intros k Hk%closed_keys_elem. by apply round_wei_nonneg.
Qed.

(** The intents are lines of the batches, each once. *)
Lemma owed_lines db :
  books pool db -> (forall row, row ∈ ForEach (windows_of db) -> exists d, spans db row d) ->
  owed db <= sum_by (fun row => sum_by line_wei (lines_at db row.2)) (ForEach (windows_of db)).
Proof.
  intros Hb Hspans. set (rows := ForEach (windows_of db)) in *.
  set (lines := fun row : string * string => imap (fun n l => (intent_id (batch_at db row.2) n, line_wei l)) (lines_at db row.2)).
  set (paid := (fun ki : string * PayoutIntent => (ki.1, wei (pi_AmountWei ki.2))) <$> List.filter (fun ki => regional ki.2) (ForEach (pd_intents db))).
  assert (Eo : owed db = sum_by snd paid).
  { unfold owed, paid. rewrite sum_by_fmap. simpl. induction (ForEach (pd_intents db)) as [|[k i] l IH]; [done|].
    cbn [fmap list_fmap List.filter snd]. destruct (regional i); [|done]. cbn [sum_by foldr snd]. unfold sum_by in IH. by rewrite <- IH. }
  assert (El : sum_by (fun row => sum_by line_wei (lines_at db row.2)) rows = sum_by snd (rows ≫= lines)).
  { rewrite sum_by_bind. apply sum_by_ext. intros row. unfold lines. symmetry. by apply sum_by_imap. }
  rewrite Eo, El. apply sum_by_incl.
  - apply (NoDup_fmap_1 fst). unfold paid. rewrite <- list_fmap_compose. eapply (sublist_NoDup _ (ForEach (pd_intents db)).*1); [apply NoDup_ForEach_keys|].
    apply (fmap_sublist fst), filter_sublist.
  - intros x ([k i] & -> & Hk)%list_elem_of_fmap. apply list_elem_of_In, filter_In in Hk as [Hk%list_elem_of_In%elem_of_ForEach Hr]. simpl in Hr.
    destruct (bk_intents pool db Hb k i Hk Hr) as (key & id & b & n & line & Hid & Hbt & Hl & -> & Ea).
    apply list_elem_of_bind. exists (key, id). split; [|by apply elem_of_ForEach]. unfold lines, lines_at, batch_at. simpl. rewrite Hbt. simpl.
    apply elem_of_lookup_imap. exists n, line. split; [|done]. unfold line_wei, wei. by rewrite Ea.
  - apply Forall_forall. intros x (row & Hx & Hrow)%list_elem_of_bind. apply elem_of_lookup_imap in Hx as (n & l & -> & Hl). simpl.
    destruct (Hspans row Hrow) as [d Hd]. pose proof (sn_lines _ _ _ Hd) as Hf. rewrite Forall_forall in Hf.
    by apply Hf, (list_elem_of_lookup_2 _ n).
Qed.

Lemma books_within db : books pool db -> owed db + operator_wei db <= collected db.
Proof.
  intros Hb. assert (Hspans : forall row, row ∈ ForEach (windows_of db) -> exists d, spans db row d).
  { intros [key id] Hrow%elem_of_ForEach. by apply closed_spans, (bk_windows pool db Hb). }
  destruct (spans_listed db _ Hspans) as [ds Hds]. pose proof (windows_collected db ds Hb Hds). pose proof (owed_lines db Hb Hspans).
  assert (E : sum_by (fun row => sum_by line_wei (lines_at db row.2)) (ForEach (windows_of db)) + operator_wei db =
              sum_by (fun d => sum_by (round_wei db) (round_keys d.1 d.2)) ds).
  { unfold operator_wei. rewrite sum_by_plus. apply sum_by_Forall2. eapply Forall2_impl; [exact Hds|]. intros row d Hd. apply Hd. }
  lia.
Qed.
End money.

(** ** Theorems *)
Section theorems.
Context `{Bolt M} `{PoolWire}.
Variable pool : string.
Hypothesis pool_named : pool <> "".
Implicit Types (db : PoolDB M).

(** A database as [Open] makes it. *)
Definition opened (id : string) : PoolDB M := empty_db <| pd_pool_id := Some id |>.

(** C6: over any sequence of writes of the region in which every round receipt is named after its round (round-close-n, as
    the reconciler names it) and terms have numbers of their type, what the payout intents of its members are for,
    together with what the operator keeps of its windows (commission, rounding and windows without work), is never more
    than what its closed rounds collected: no round is paid out twice.  The endpoint does not enforce the names: a receipt
    that takes the name of another round is written over it, and the books need not balance afterwards. *)
Theorem payouts_within_revenue (id : string) (ops : list pool_op) :
  Forall proper_op ops -> let db := prun pool (opened id) ops in owed db + operator_wei db <= collected db.
Proof. intros Ho. by apply (books_within pool), (prun_kept pool pool_named), opened_books. Qed.

(** C26: over any sequence of such writes, every round receipt named after its round and terms with numbers of their type:
    once a round is closed its receipt is never changed, once a window is closed what it and its batch pay is never
    changed, and an intent made for them always pays the same to the same; a paid one stays as it is.  A receipt under the
    name of another round is outside the claim: it is written over that round's. *)
Theorem closed_accounts_final (id : string) (before after : list pool_op) :
  Forall proper_op (before ++ after) -> keeps (prun pool (opened id) before) (prun pool (opened id) (before ++ after)).
Proof.
  intros [Hb Ha]%Forall_app. unfold prun. rewrite foldl_app. apply (prun_kept pool pool_named); [done|].
  by apply (prun_kept pool pool_named), opened_books.
Qed.
End theorems.

Section allocation.
Context `{PoolWire}.

(** C8: the allocation of a window is given exactly for receipts that are final, attributed and different, with a
    canonical revenue and a commission of at most all; every member is then paid the floor of its part of the revenue
    less the floor of the commission, in proportion to what its work billed, and nothing is lost. *)
Theorem ModelB_exact (pool raw : string) (bps : Z) (receipts : list WorkReceipt) :
  0 <= bps ->
  (is_ok (ModelB pool raw bps receipts) = true <->
     pool <> "" /\ bps <= 10000 /\ (exists revenue, 0 <= revenue /\ raw = dec_string revenue) /\ payables pool receipts) /\
  forall a, ModelB pool raw bps receipts = Ok a -> exists revenue, raw = dec_string revenue /\ allocated revenue bps receipts a.
Proof.
  intros Hb. split; [split|].
  - destruct (ModelB _ _ _ _) as [a|] eqn:E; [|done]. apply ModelB_ok in E as (revenue & Hr & Er & Hp & Hc & Hpay & _); [|done].
    intros _. split_and!; try done. by exists revenue.
  - intros (Hp & Hc & (revenue & Hr & ->) & Hf & Hd). unfold ModelB. rewrite bool_decide_false by done.
    destruct (Z.ltb_spec 10000 bps); [lia|]. rewrite Wei_dec by done. simpl.
    destruct (weigh_ok pool receipts (mkweighing 0 ∅ ∅) Hf Hd) as (g & -> & _); [by apply Forall_forall|exact weights_empty|].
    simpl. by destruct (wg_total g =? 0).
  - intros a Ha. apply ModelB_ok in Ha as (revenue & _ & Er & _ & _ & _ & Ha); [|done]. by exists revenue.
Qed.

(** It does not depend on the order in which the receipts are stored or listed. *)
Theorem ModelB_order_independent (pool raw : string) (bps : Z) (receipts receipts' : list WorkReceipt) a :
  receipts ≡ₚ receipts' -> ModelB pool raw bps receipts = Ok a -> ModelB pool raw bps receipts' = Ok a.
Proof.
  intros Hp. unfold ModelB. destruct (_ || _); [done|]. destruct (Wei raw) as [revenue|]; [|done]. simpl.
  destruct (weigh pool receipts _) as [g|] eqn:Ew; [|done]. destruct (weigh_perm _ _ _ _ Hp Ew) as (g' & -> & Et & Ewt). simpl.
  by rewrite Et, Ewt.
Qed.
End allocation.

(** A policy approves a batch only when it is enabled, not paused and not a dry run, the window shows no anomaly,
    the day's limit is not reached, and the total and the largest amount of a member are numbers within its bounds. *)
Theorem policy_approval_bounded stat (policy : PayoutPolicy) (hash pausePath : string) (batch : Batch) :
  dc_Approved (Evaluate stat policy hash batch pausePath) = true ->
  Paused stat pausePath = false /\ py_Shadow policy = false /\ aa_Enabled (py_AutoApprove policy) = true /\
  blank (ba_Anomaly batch) = true /\
  (0 < aa_MaxBatchesPerDay (py_AutoApprove policy) -> ba_BatchesToday batch < aa_MaxBatchesPerDay (py_AutoApprove policy)) /\
  (exists total bound, SetString10 (TrimSpace (ba_TotalWei batch)) = Some total /\
     SetString10 (TrimSpace (aa_MaxBatchWei (py_AutoApprove policy))) = Some bound /\ total <= bound) /\
  (blank (aa_MaxPerMemberWei (py_AutoApprove policy)) = false ->
     exists largest bound, SetString10 (TrimSpace (ba_MaxPerMemberWei batch)) = Some largest /\
       SetString10 (TrimSpace (TrimSpace (aa_MaxPerMemberWei (py_AutoApprove policy)))) = Some bound /\ largest <= bound).
Proof.
  unfold Evaluate. destruct (Paused _ _); [done|]. destruct (aa_Enabled _); [|done]. destruct (blank (ba_Anomaly batch)); [|done]. simpl.
  destruct ((0 <? _) && _) eqn:Ed; [done|]. destruct (negb _ && _ && _); [done|].
  destruct (exceeds (ba_TotalWei batch) _) as [[]|] eqn:Et; try done. apply exceeds_within in Et.
  destruct (if blank _ then _ else _) as [[]|] eqn:Em; try done. destruct (py_Shadow policy); [done|]. intros _. split_and!; try done.
  - intros Hd. to_prop. destruct Ed as [Ed|Ed]; to_prop; lia.
  - intros Hb. rewrite Hb in Em. by apply exceeds_within.
Qed.

(** ** Evidence of the brokers *)

#[local] Instance contribution_le_trans : Transitive contribution_le.
Proof. intros a b c. unfold contribution_le. by etransitivity. Qed.
#[local] Instance contribution_le_total : Total contribution_le.
Proof. intros a b. apply (String.le_total (co_ID a) (co_ID b)). Qed.

(** Different identities have one order. *)
Lemma bad_identity_false previous items :
  bad_identity previous items = false -> StronglySorted contribution_le items ->
  NoDup (co_ID <$> items) /\ forall c, head items = Some c -> previous <> Some (co_ID c).
Proof.
  revert previous. induction items as [|c items IH]; intros previous Hb Hs; [split; [constructor|done]|].
  simpl in Hb. to_prop. inversion_clear Hs as [|? ? Hs' Hc]. destruct (IH (Some (co_ID c))) as [Hd Hp]; [done|done|].
  split; [|by intros ? [= <-]]. rewrite fmap_cons. apply NoDup_cons. split; [|done]. intros (c' & Ec & Hin)%list_elem_of_fmap.
  destruct items as [|d items]; [by apply elem_of_nil in Hin|]. apply (Hp d); [done|]. f_equal.
  rewrite Forall_forall in Hc. inversion_clear Hs' as [|? ? _ Hd']. rewrite Forall_forall in Hd'.
  assert (Hcd : String.le (co_ID c) (co_ID d)) by (apply (Hc d); left). apply elem_of_cons in Hin as [->|Hin]; [done|].
  apply (anti_symm String.le); [done|]. rewrite Ec. by apply (Hd' c').
Qed.
Lemma NoDup_fmap_elem {A B} (f : A -> B) l x y : NoDup (f <$> l) -> x ∈ l -> y ∈ l -> f x = f y -> x = y.
Proof.
  induction l as [|z l IH]; [by intros _ Hx%elem_of_nil|]. rewrite fmap_cons. intros [Hz Hd]%NoDup_cons Hx Hy E.
  apply elem_of_cons in Hx as [->|Hx], Hy as [->|Hy]; try done; [..|by apply IH].
  - exfalso. apply Hz. rewrite E. by apply list_elem_of_fmap_2.
  - exfalso. apply Hz. rewrite <- E. by apply list_elem_of_fmap_2.
Qed.
Lemma WorkDigest_perm entries entries' hash :
  entries ≡ₚ entries' -> WorkDigest entries = Ok hash -> WorkDigest entries' = Ok hash.
Proof.
  intros Hp. unfold WorkDigest. destruct (bad_identity None (merge_sort contribution_le entries)) eqn:Eb; [done|].
  assert (Hs : forall l, StronglySorted contribution_le (merge_sort contribution_le l)).
  { intros l. apply (StronglySorted_merge_sort _). }
  destruct (bad_identity_false _ _ Eb (Hs entries)) as [Hd _].
  assert (E : merge_sort contribution_le entries = merge_sort contribution_le entries'); [|by rewrite <- E, Eb].
  apply (StronglySorted_unique_strong contribution_le); [|done|done|by rewrite !merge_sort_Permutation].
  intros x y Hx Hy Hxy Hyx. rewrite merge_sort_Permutation in Hx, Hd. rewrite merge_sort_Permutation, <- Hp in Hy.
  apply (NoDup_fmap_elem co_ID entries); [done..|]. by apply (anti_symm String.le).
Qed.

(** A complete report names its store, its round and the last round that is closed. *)
Lemma Report_names `{Bolt M} `{AuthWire} (s : WorkStore) (round now : Z) (ledger : WorkDB M) (rep : WorkReport) :
  WorkLedger.Report s round now ledger = Ok rep -> wp_Complete rep = true ->
  wp_PoolID rep = ws_PoolID s /\ wp_SourceID rep = ws_SourceID s /\ wp_BrokerID rep = ws_BrokerID s /\ wp_Round rep = round /\
  round <= wp_ClosedThroughRound rep /\ exists text, wp_ReceiptDigest rep = hex_encode (sha256 text).
Proof.
  unfold WorkLedger.Report. destruct (_ || _) eqn:Hg; [by intros [= <-]|]. apply orb_false_iff in Hg as [Hc _].
  destruct (operation_hold _ _); [by intros [= <-]|]. destruct (unbound_hold _ _); [by intros [= <-]|].
  unfold WorkDigest. destruct (bad_identity _ _); [done|]. intros [= <-] _. cbn. split_and!; try done; [lia|by eexists].
Qed.
(** A digest in hex, unless all its bytes are zero. *)
Lemma hexSize_digest text :
  hex_encode (sha256 text) <> hex_encode (replicate_byte 32 zero_byte) -> hexSize (hex_encode (sha256 text)) 32 false = true.
Proof.
  intros Hn. unfold hexSize. cbn [andb]. rewrite hex_roundtrip, len_sha256. cbn [Z.eqb Pos.eqb andb].
  destruct (is_zero_bytes (sha256 text)) eqn:Hz; [|done]. destruct Hn. f_equal. by apply all_zero_hash; [apply len_sha256|].
Qed.

(** C28: the report a broker's work ledger makes of a round once it is complete passes both checks the pool controller
    makes of a work report: the validation against its registered source, while the observation in it is fresh and unless
    its digest is all zeros; and the comparison with what the controller stored of that source for the round, when that is
    what the ledger has, in any order. *)
Theorem complete_report_is_covered `{Bolt M} `{AuthWire} (s : WorkStore) (round now now' : Z) (ledger : WorkDB M) (rep : WorkReport)
    (source : Source) (all : list Contribution) :
  WorkLedger.Report s round now ledger = Ok rep -> wp_Complete rep = true ->
  sr_PoolID source = ws_PoolID s -> sr_SourceID source = ws_SourceID s -> sr_BrokerID source = ws_BrokerID s ->
  ws_PoolID s <> "" -> ws_SourceID s <> "" -> fresh now' (wp_ObservedAt rep) = true ->
  wp_ReceiptDigest rep <> hex_encode (replicate_byte 32 zero_byte) ->
  List.filter (fun c => bool_decide (co_SourceID c = wp_SourceID rep)) all ≡ₚ round_entries round ledger ->
  WorkReport_Validate rep source round now' = Ok tt /\ covers all rep = true.
Proof.
  intros Hr Hc Ep Es Eb Hpool Hsource Hfresh Hzero Hp.
  destruct (Report_names s round now ledger rep Hr Hc) as (Np & Ns & Nb & Nr & Hclosed & text & Hdigest). split.
  - unfold WorkReport_Validate. rewrite Ep, Es, Eb, Np, Ns, Nb, Nr, Hc, Hfresh, Z.eqb_refl, (proj2 (Z.ltb_ge _ _) Hclosed).
    rewrite Hdigest in Hzero |- *. rewrite (hexSize_digest text Hzero).
    rewrite (bool_decide_false (ws_PoolID s = "")), (bool_decide_false (ws_SourceID s = "")) by done.
    by rewrite !(bool_decide_true (_ = _)) by done.
  - destruct (Report_complete s round now ledger rep Hr Hc) as (_ & Hd & Hn). unfold covers.
    rewrite (WorkDigest_perm _ _ _ (symmetry Hp) Hd), Hp, <- Hn. by rewrite Z.eqb_refl, bool_decide_true.
Qed.

(** ** What is reported wrongly *)
Section errors.
Context `{Bolt M} `{PoolWire}.
Variable pool : string.
Implicit Types (db : PoolDB M).

Lemma u64_succ n : u64 (n + 1) <> n.
Proof. unfold u64, two64. intros E. pose proof (Z.div_mod (n + 1) 18446744073709551616 ltac:(lia)). lia. Qed.

(** What the store does with a lease that ran out. *)
Definition given_back (i : PayoutIntent) : PayoutIntent :=
  unleased (i <| pi_Status := "exported" |>) <| pi_Revision := u64 (pi_Revision i + 1) |>.
Lemma save_released (i : PayoutIntent) (now : Z) db :
  pd_intents db !! pi_ID i = Some i -> pi_ID i <> "" -> regional i = true -> is_Some (pi_CreatedAt i) -> expired i now = true ->
  SavePayoutIntent (unleased (i <| pi_Status := "exported" |>)) now db = (Ok tt, put_intent (given_back i) db).
Proof.
  intros Hi Hid Hr [t Ht] He. set (j := unleased _). unfold SavePayoutIntent. rewrite bool_decide_false by done.
  assert (Ej : j <| pi_CreatedAt := created_or now (pi_CreatedAt j) |> = j).
  { unfold j. destruct i. simpl in Ht. by rewrite Ht. }
  assert (Es : pi_Status i = "leased") by (unfold expired in He; by to_prop).
  rewrite Ej. unfold Update, save_intent. change (pi_ID j) with (pi_ID i). rewrite Hi. unfold regional in Hr. rewrite Hr.
  rewrite bool_decide_false by (intros E; apply (f_equal pi_Status) in E; simpl in E; congruence).
  change (pi_Revision j) with (pi_Revision i). rewrite Z.eqb_refl. simpl negb. cbv iota.
  replace (same_economics i j) with true by (symmetry; exact (same_economics_refl i)). simpl negb. cbv iota.
  by rewrite bool_decide_false by congruence.
Qed.
Lemma stale_refused (i prior : PayoutIntent) (now : Z) db :
  pd_intents db !! pi_ID i = Some prior -> regional prior = true -> pi_Revision prior <> pi_Revision i ->
  exists e, SavePayoutIntent i now db = (Err e, db).
Proof.
  intros Hi Hr Hn. unfold SavePayoutIntent. case_bool_decide; [by eexists|]. unfold Update, save_intent.
  change (pi_ID (_ <| pi_CreatedAt := _ |>)) with (pi_ID i). rewrite Hi. unfold regional in Hr. rewrite Hr.
  rewrite bool_decide_false by (intros E; by apply (f_equal pi_Revision) in E). change (pi_Revision (_ <| pi_CreatedAt := _ |>)) with (pi_Revision i).
  destruct (Z.eqb_spec (pi_Revision prior) (pi_Revision i)); [done|]. by eexists.
Qed.
Lemma status_keeps (i next : PayoutIntent) status leaseID externalRef txHash failureReason now :
  applyPayoutIntentStatus i status leaseID externalRef txHash failureReason now = Ok next ->
  pi_ID next = pi_ID i /\ pi_Revision next = pi_Revision i.
Proof. unfold applyPayoutIntentStatus. repeat (case_match; try done); intros [= <-]; done. Qed.

(** A report about a regional payout whose lease ran out is always refused: the endpoint first gives the lease back,
    which moves the revision of the stored intent, and then saves the reported status under the revision it read before.
    The intent is exported again with its next revision. *)
Theorem expired_lease_report_refused (i : PayoutIntent) (status leaseID externalRef txHash failureReason : string) (ids : list string)
    (now : Z) db :
  pd_intents db !! pi_ID i = Some i -> pi_ID i <> "" -> regional i = true -> is_Some (pi_CreatedAt i) -> expired i now = true ->
  valid_status status failureReason = true ->
  exists e, report_status (pi_ID i :: ids) status leaseID externalRef txHash failureReason now db = (Err e, put_intent (given_back i) db).
Proof.
  intros Hi Hid Hr Hc He Hv. unfold report_status. rewrite bool_decide_false by done. rewrite Hv. simpl orb. cbv iota. cbn [move_all].
  unfold move_one, GetPayoutIntent. rewrite bool_decide_false by done. rewrite Hi. unfold releaseExpiredLease. rewrite He. cbv beta iota.
  rewrite (save_released i now db Hi Hid Hr Hc He).
  destruct (applyPayoutIntentStatus _ _ _ _ _ _ _) as [next|e] eqn:Ea; [|by exists e]. apply status_keeps in Ea as [E1 E2].
  destruct (stale_refused next (given_back i) now (put_intent (given_back i) db)) as [e ->]; [| | |by exists e].
  - rewrite E1. apply lookup_insert_eq.
  - exact Hr.
  - rewrite E2. apply u64_succ.
Qed.

(** C37: the name of a round's receipt is not checked: when a second round is reported under the name of a closed one its
    receipt is written over the first, and no window that has the first round can be closed any more. *)
Theorem reused_round_name_blocks_windows (receipt : RoundReceipt) (n now : Z) (version : string) (numbers : list Z) (g : gathering) db db' :
  SaveRegionalRound pool receipt now db = (Ok tt, db') -> rounds_of db !! dec_string n = Some (rr_ID receipt) ->
  rr_RoundID receipt <> dec_string n -> rounds_of db !! rr_RoundID receipt = None -> n ∈ numbers ->
  exists e, gather pool version db' numbers g = Err e.
Proof.
  intros Hs Hn Hne Hnew Hin.
  assert (Hround : forall g0, exists e, gather_round pool version db' n g0 = Err e).
  { intros g0. unfold SaveRegionalRound in Hs. destruct (canonical_round _) as [round|]; [|done]. do 2 (case_match; [done|]).
    unfold Update, close_round in Hs. fold (rounds_of db) in Hs. rewrite Hnew in Hs. destruct (check_round _ _ _ _ _) as [[]|]; [|done].
    simpl in Hs. injection Hs as <-. unfold gather_round, put_round. simpl. rewrite lookup_insert_ne by done. fold (rounds_of db). rewrite Hn.
    rewrite lookup_insert_eq. simpl. rewrite (bool_decide_false (rr_RoundID receipt = dec_string n)) by done. simpl.
    rewrite orb_true_r. simpl. by eexists. }
  clear Hs. revert g. induction numbers as [|m numbers IH]; intros g; [by apply elem_of_nil in Hin|]. cbn [gather].
  apply elem_of_cons in Hin as [<-|Hin]; [destruct (Hround g) as [e ->]; by exists e|].
  destruct (gather_round _ _ _ m g) as [g'|e]; [by apply IH|by exists e].
Qed.

(** ** Windows without the regional books *)
Definition none_accepted db : Prop := forall k r, pd_work_receipts db !! k = Some r -> pw_Status r <> "accepted".
Definition deliver_all (deliveries : list (option string * WorkReceipt * Z)) db : PoolDB M :=
  foldl (fun db d => (deliver_receipt pool d.1.1 d.1.2 d.2 db).2) db deliveries.
Lemma deliver_none_accepted credential r now db : none_accepted db -> none_accepted (deliver_receipt pool credential r now db).2.
Proof.
  intros Hn. unfold deliver_receipt. case_match; [done|]. destruct (validateWorkReceipt r) eqn:Ev; [|done]. simpl negb. cbv iota.
  assert (Hr : pw_Status r <> "accepted").
  { unfold validateWorkReceipt in Ev. apply andb_true_iff in Ev as [_ Ev]. to_prop. destruct Ev; to_prop; congruence. }
  clear Ev. unfold SaveWorkReceipt. destruct (bool_decide (pw_ID r = "")); [done|]. cbv zeta.
  assert (Hs : none_accepted (db <| pd_work_receipts := <[pw_ID r := r <| pw_CreatedAt := created_or now (pw_CreatedAt r) |>]> (pd_work_receipts db) |>)).
  { intros k r'. simpl. rewrite lookup_insert. destruct (decide _) as [<-|Hne]; [by intros <-%(inj Some)|apply Hn]. }
  unfold Update. repeat case_match; simplify_eq; try done; try exact Hs.
Qed.

Lemma deliver_sources credential r now db : pd_sources (deliver_receipt pool credential r now db).2 = pd_sources db.
Proof.
  unfold deliver_receipt. case_match; [done|]. destruct (negb (validateWorkReceipt r)); [done|]. unfold SaveWorkReceipt.
  destruct (bool_decide (pw_ID r = "")); [done|]. cbv zeta. unfold Update. repeat case_match; by simplify_eq.
Qed.
Lemma accumulate_none rounds receipts a :
  Forall (fun r => pw_Status r <> "accepted") receipts -> accumulate_all rounds receipts a = Ok a.
Proof.
  induction 1 as [|r receipts Hr _ IH]; simpl; [done|]. rewrite (bool_decide_false (pw_Status r = "accepted")) by done.
  by rewrite orb_true_r.
Qed.

(** Without registered sources no settlement window is ever closed: the close counts receipts with the status
    "accepted", and the endpoint that stores receipts only takes "stub" and "final". *)
Theorem legacy_window_never_closes (deliveries : list (option string * WorkReceipt * Z)) (q : CloseRequest) (id : string) (now : Z) :
  let db := deliver_all deliveries (opened id) in
  exists e, CloseWindow pool q now db = (Err e, db).
Proof.
  intros db. assert (Hdb : none_accepted db /\ pd_sources db = None).
  { unfold db, deliver_all. assert (Hn : none_accepted (opened id) /\ pd_sources (opened id : PoolDB M) = None).
    { split; [|done]. intros k r Hk. simpl in Hk. by rewrite lookup_empty in Hk. }
    revert Hn. generalize (opened id : PoolDB M). induction deliveries as [|d ds IH]; intros db0 [Hn Hs]; [done|]. cbn [foldl]. apply IH.
    split; [by apply deliver_none_accepted|]. rewrite <- Hs. apply deliver_sources. }
  destruct Hdb as [Hn Hs]. unfold CloseWindow, RevenueSources. rewrite Hs. unfold close_legacy.
  destruct (blank (cr_WindowID q)); [by eexists|]. case_bool_decide; [by eexists|]. destruct (parseWei _) as [confirmed|e]; [|by eexists].
  rewrite accumulate_none; [by eexists|]. apply Forall_forall. intros r [k Hk]%newest_elem. by eapply Hn.
Qed.
End errors.

(** ** A region

    One source, two members and a window of two rounds. *)
#[local] Instance region_wire : PoolWire := { IsHexAddress a := len a =? 42; https_origin u := hasPrefix u "https://" }.
Definition region_now : Z := 1000 * second.
Definition hexes (n : nat) (c : string) : string := String.concat "" (repeat c n).
Definition region_source : Source :=
  mkSource "pool" ("0x" +:+ hexes 64 "1") "broker" 42161 ("0x" +:+ hexes 40 "2") "https://broker.example".
Definition region_terms : RegionalTerms := mkRegionalTerms "pool" "v1" 1 2 1000 "rules" true true None.
Definition region_member (c : string) : string := "0x" +:+ hexes 40 c.
Definition region_receipt (id member wei : string) : WorkReceipt :=
  mkWorkReceipt "v1" "pool" (sr_SourceID region_source) (sr_SourceID region_source +:+ "/" +:+ id) (Some region_now) "1" "request" "cap" "offering"
    (region_member member) "backend" "" "" "" "" 0 1 1 wei wei "final".
Definition region_work : list WorkReceipt := [region_receipt "a" "a" "3"; region_receipt "b" "b" "1"].
Definition region_report (round : Z) (revenue : string) : Report :=
  mkReport "pool" (sr_SourceID region_source) "broker" 42161 (sr_Payee region_source) round revenue 1 true "" 10 ("0x" +:+ hexes 64 "3") 9
    ("0x" +:+ hexes 64 "4") 5 (Some region_now) (hexes 64 "5").
Definition region_work_report (round : Z) (work : list WorkReceipt) : WorkReport :=
  mkWorkReport "pool" (sr_SourceID region_source) "broker" round true "" 5 (Z.of_nat (length work))
    match WorkDigest ((fun r => contribution_of r (billed_of r)) <$> work) with Ok hash => hash | Err _ => "" end (Some region_now).
Definition region_round (round : Z) (name revenue : string) (work : list WorkReceipt) : RoundReceipt :=
  mkRoundReceipt "pool" [region_report round revenue] [region_work_report round work] (snapshot_of work) name (Some region_now) (dec_string round)
    revenue "0" revenue (pw_ID <$> work) [].
Definition region_open : list pool_op :=
  [ORegister region_source 1 "start" "operator" region_now; OTerms region_terms region_now;
   OAccept "pool" (region_member "a") "v1" true region_now; OAccept "pool" (region_member "b") "v1" true region_now;
   OWork (region_receipt "a" "a" "3") region_now; OWork (region_receipt "b" "b" "1") region_now;
   ORound (region_round 1 "round-close-1" "100" region_work) region_now].
Definition region_close : list pool_op :=
  [ORound (region_round 2 "round-close-2" "7" []) region_now; OReady region_now;
   OApprove (fun _ => false) "batch-pool-window-1-2" "operator" None region_now].
Definition region_db (ops : list pool_op) : PoolDB (gmap string) := prun "pool" (opened "id") ops.

Lemma region_proper (ops : list pool_op) : forallb (fun op => match op with
    | ORound r _ => bool_decide (rr_ID r = round_name (rr_RoundID r))
    | OTerms t _ => (0 <=? rt_EffectiveRound t) && (rt_EffectiveRound t <? two64) && (0 <=? rt_WindowRounds t) && (0 <=? rt_CommissionBPS t)
    | _ => true end) ops = true -> Forall proper_op ops.
Proof.
  intros Ho. apply Forall_forall. intros op Hop%list_elem_of_In. rewrite forallb_forall in Ho. specialize (Ho op Hop).
  destruct op; simpl in *; to_prop; by repeat split.
Qed.

Lemma payouts_within_revenue_witness :
  let db := region_db (region_open ++ region_close) in
  owed db + operator_wei db <= collected db /\ (owed db, operator_wei db, collected db) = (96, 11, 107).
Proof.
  split; [|vm_refl]. apply (payouts_within_revenue "pool" ltac:(discriminate) "id" (region_open ++ region_close)).
  apply region_proper. vm_refl.
Defined.

(** The first round is reported again with other revenue, and the batch written over. *)
Definition region_later : list pool_op :=
  [ORound (region_round 1 "round-close-1" "900" region_work) region_now;
   OPutBatch (mkPayoutBatch "pool" "batch-pool-window-1-2" "pool-window-1-2" "paid" "1000" [] "" None None None "" None None) region_now].
Lemma closed_accounts_final_witness :
  let db := region_db (region_open ++ region_close) in
  keeps db (region_db ((region_open ++ region_close) ++ region_later)).
Proof.
  apply (closed_accounts_final "pool" ltac:(discriminate) "id" (region_open ++ region_close) region_later).
  apply region_proper. vm_refl.
Defined.

Lemma ModelB_exact_witness :
  exists a, ModelB "pool" "107" 1000 region_work = Ok a /\ al_MemberPayoutWei a = "96" /\
    exists revenue, "107" = dec_string revenue /\ allocated revenue 1000 region_work a.
Proof.
  eexists. split; [vm_compute; reflexivity|]. split; [reflexivity|].
  apply (proj2 (ModelB_exact "pool" "107" 1000 region_work ltac:(lia))). vm_compute. reflexivity.
Defined.
Definition region_allocation : RegionalAllocation :=
  match ModelB "pool" "107" 1000 region_work with Ok a => a | Err _ => mkRegionalAllocation "" "" "" "" "" "" "" [] end.
Lemma ModelB_order_independent_witness : ModelB "pool" "107" 1000 (rev region_work) = Ok region_allocation.
Proof.
  apply (ModelB_order_independent "pool" "107" 1000 region_work); [apply Permutation_rev|vm_refl].
Defined.

Definition region_policy : PayoutPolicy := mkPayoutPolicy false (mkAutoApprove true "1000" "500" (float_of 0) 5).
Lemma policy_approval_bounded_witness :
  let batch today := mkBatch true "96" "72" 0 "" today in
  (Paused (fun _ => false) "/pause" = false /\ (0 < 5 -> 4 < 5)) /\
  dc_Approved (Evaluate (fun _ => false) region_policy "hash" (batch 5) "/pause") = false.
Proof.
  cbv zeta. split; [|by vm_compute].
  destruct (policy_approval_bounded (fun _ => false) region_policy "hash" "/pause" (mkBatch true "96" "72" 0 "" 4) eq_refl)
    as (Hp & _ & _ & _ & Hd & _). split; [exact Hp|exact Hd].
Defined.

Definition region_ledger : WorkDB (gmap string) :=
  wrun WorkLedgerSpec.demo_store WorkLedgerSpec.demo_ledger WorkLedgerSpec.demo_work.
Definition region_broker_report : WorkReport :=
  match WorkLedger.Report WorkLedgerSpec.demo_store 5 2500 region_ledger with
  | Ok rep => rep
  | Err _ => mkWorkReport "" "" "" 0 false "" 0 0 "" None
  end.
Definition region_broker : Source := mkSource "pool" "source" "broker" 42161 ("0x" +:+ hexes 40 "2") "https://broker.example".
Lemma complete_report_is_covered_witness :
  wp_ReceiptCount region_broker_report = 2 /\ WorkReport_Validate region_broker_report region_broker 5 2600 = Ok tt /\
  covers (rev (round_entries 5 region_ledger)) region_broker_report = true.
Proof.
  split; [vm_refl|].
  apply (complete_report_is_covered WorkLedgerSpec.demo_store 5 2500 2600 region_ledger region_broker_report); [vm_refl..|discriminate|discriminate|vm_refl| |].
  - assert (E : bool_decide (wp_ReceiptDigest region_broker_report = hex_encode (replicate_byte 32 zero_byte)) = false) by vm_refl.
    by apply bool_decide_eq_false in E.
  - assert (E : List.filter (fun c => bool_decide (co_SourceID c = wp_SourceID region_broker_report)) (rev (round_entries 5 region_ledger)) =
                rev (round_entries 5 region_ledger)) by vm_refl.
    rewrite E. symmetry. apply Permutation_rev.
Defined.

(** A payout leased an hour ago for a minute. *)
Definition region_intent : PayoutIntent :=
  mkPayoutIntent 4 "pool" "batch" "payout-1" (Some 0) "window" "window" (region_member "a") (region_member "a") 42161 "native_eth" "72"
    "leased" None (Some 0) "lease" "executor" (Some 60) None None None 0 None "" "" "".
Lemma expired_lease_report_refused_witness :
  exists e, report_status ["payout-1"] "submitted" "lease" "" "0xabc" "" 3600 (put_intent region_intent (opened "id" : PoolDB (gmap string))) =
    (Err e, put_intent (given_back region_intent) (put_intent region_intent (opened "id"))).
Proof.
  apply (expired_lease_report_refused region_intent "submitted" "lease" "" "0xabc" "" [] 3600 (put_intent region_intent (opened "id"))).
  - vm_compute. reflexivity.
  - discriminate.
  - reflexivity.
  - by eexists.
  - vm_compute. reflexivity.
  - vm_compute. reflexivity.
Defined.

(** A round without work is closed, and a second one reported under its name. *)
Definition region_first : PoolDB (gmap string) :=
  region_db [ORegister region_source 1 "start" "operator" region_now; ORound (region_round 1 "round-close-1" "100" []) region_now].
Lemma fst_pair {A B} (p : A * B) (a : A) : p.1 = a -> p = (a, p.2).
Proof. destruct p. simpl. by intros ->. Qed.
Lemma triple_eq {A B C} (a a' : A) (b b' : B) (c c' : C) : (a, b, c) = (a', b', c') -> a = a' /\ b = b' /\ c = c'.
Proof. by intros [= -> -> ->]. Qed.
Definition region_reused : RoundReceipt := region_round 2 "round-close-1" "7" [].
Lemma reused_round_name_blocks_windows_witness :
  exists e, gather "pool" "v1" (SaveRegionalRound "pool" region_reused region_now region_first).2 [1; 2] ga_empty = Err e.
Proof.
  assert (Hs : ((SaveRegionalRound "pool" region_reused region_now region_first).1, rounds_of region_first !! "1", rounds_of region_first !! "2") =
               (Ok tt, Some "round-close-1", None)) by vm_refl.
  apply triple_eq in Hs as (H1 & H2 & H3).
  apply (reused_round_name_blocks_windows "pool" region_reused 1 region_now "v1" [1; 2] ga_empty region_first).
  - apply fst_pair, H1.
  - exact H2.
  - discriminate.
  - exact H3.
  - left.
Defined.
