(* ===== verification/PayoutEngine.v ===== *)
(** * Payouts as transaction intents

    pool-payout-executor/internal/payouts (engine.go, identity.go): every payout
    is one durable transaction intent of chain-commons, keyed by the
    controller's id.  An [Engine] is what a process and its store hold: the
    manager and processor state of TxProcessor, the identity the store is bound
    to, and the processing goroutines.  A goroutine takes its turns in halves of
    the processor's loop, [Entering] (sign and broadcast) and [Waiting] (for a
    receipt, and the reaction); a schedule says which goroutines ran while a call
    was waiting.  [en_log] is a trace of the transactions sent, with the intent
    and the wallet they were sent for. *)
From S2P Require Import Prelude.
From S2P Require Import GoBytes.
From S2P Require Import GoStrings.
From S2P Require Import Bolt.
From S2P Require Import ChainErrors.
From S2P Require Import Actions.
From S2P Require Import Types.
From S2P Require Import TxIntent.
From S2P Require Import TxProcessor.
From S2P Require Import PoolTypes.

(** go-ethereum's [common.HexToAddress] and [common.HexToHash]. *)
Class EthText := {
  HexToAddress : string -> string;
  HexToHash : string -> string;
}.

(** ** Configuration and outside *)
Record Executor := mkExecutor {
  ex_PoolID : string;
  ex_ExpectedWalletAddress : string;
  ex_BatchSize : Z;
  ex_ExecutorID : string;
  ex_LeaseTTLSeconds : Z;
  ex_ChainID : Z;
  ex_ConfirmationBlocks : Z;
  ex_MaxReplacements : nat;
  ex_BackoffBaseMS : Z;
  ex_BackoffMaxMS : Z;
  ex_AutoRequeueFailed : bool;
  ex_MaxRetries : Z;
  ex_RequeueCooldownSeconds : Z;
}.

(** What [TransactionByHash] tells of a transaction; no sender when none can be
    recovered from the signature. *)
Record ChainTx := mkChainTx {
  ct_Sender : option string;
  ct_ChainID : Z;
  ct_To : option string;
  ct_Value : Z;
  ct_Data : string;
  ct_Nonce : Z;
  ct_Gas : Z;
  ct_GasFeeCap : Z;
  ct_GasTipCap : Z;
}.
Inductive tx_answer := TxFound (tx : ChainTx) | TxNotFound | TxError (e : goerr).

(** A receipt: its status, and its block where it names one. *)
Inductive receipt_answer := ReceiptFound (status : Z) (block : option Z) | ReceiptNone | ReceiptError (e : goerr).

(** The wallet and the node of one process: its address, the chain id, the
    keystore, and the answers to the calls, indexed as those of a [World]. *)
Record Chain := mkChain {
  ch_wallet : string;
  ch_id : Z;
  ch_SignTx : Tx -> result goerr string;
  ch_world : World;
  ch_EstimateGas : nat -> string -> Z -> result goerr Z;
  ch_TransactionByHash : nat -> string -> tx_answer;
  ch_TransactionReceipt : nat -> string -> receipt_answer;
  ch_HeaderByNumber : nat -> result goerr (option Z);
  ch_BalanceAt : nat -> result goerr Z;
}.
Definition chain_signer (ch : Chain) : TxSigner := {| SignTx := ch_SignTx ch |}.

Definition TxGas : Z := 21000.
(** The defaults of chain-commons/config. *)
Definition defaultMaxReplacements : nat := 3.
Definition defaultReplacementGasBump : Z := 11.
Definition processor_config (cfg : Executor) (ch : Chain) : ProcessorConfig :=
  mkProcessorConfig (if bool_decide (ex_MaxReplacements cfg = 0%nat) then defaultMaxReplacements else ex_MaxReplacements cfg)
    defaultReplacementGasBump (ch_id ch) TxGas.
Definition reorgConfirmations (confirmationBlocks : Z) : Z :=
  if confirmationBlocks <=? 2 then 1 else confirmationBlocks - 1.

(** ** The engine *)
Definition Kind : string := "payout".

Inductive State := StatePending | StatePaid | StateFailed.
#[export] Instance State_eq_dec : EqDecision State.
Proof. solve_decision. Defined.

Record PayoutOutcome := mkOutcome {
  oc_State : State;
  oc_TxHash : string;
  oc_Nonce : Z;
  oc_Reason : string;
}.
Record Dispatched := mkDispatched {
  dp_TxHash : string;
  dp_Nonce : Z;
  dp_Reused : bool;
}.

Inductive payout_error := ErrUnknownTx | ErrNotTracked | PayoutErr (e : goerr).
Definition payout_error_String (e : payout_error) : string :=
  match e with
  | ErrUnknownTx => "payouts: transaction unknown to every endpoint"
  | ErrNotTracked => "payouts: no intent for this payout"
  | PayoutErr e => Error e
  end.

Record regionalIdentity := mkregionalIdentity {
  ri_PoolID : string;
  ri_Wallet : string;
  ri_ChainID : Z;
}.
#[export] Instance regionalIdentity_eq_dec : EqDecision regionalIdentity.
Proof. solve_decision. Defined.

(** A processing goroutine and the iterations it has left. *)
Inductive goroutine := Entering (n : nat) | Waiting (n : nat).

Record sending := mksending {
  sd_ID : string;
  sd_Wallet : string;
  sd_Tx : Tx;
  sd_Refused : option ErrorClass;
}.

Record Engine (M : Type -> Type) := mkEngine {
  en_ps : PState M;
  en_identity : option regionalIdentity;
  en_running : gmap string goroutine;
  en_log : list sending;
}.
Arguments mkEngine {M}.
Arguments en_ps {M}.
Arguments en_identity {M}.
Arguments en_running {M}.
Arguments en_log {M}.

Definition with_ps {M} (ps : PState M) (e : Engine M) : Engine M := mkEngine ps (en_identity e) (en_running e) (en_log e).
Definition with_running {M} (r : gmap string goroutine) (e : Engine M) : Engine M := mkEngine (en_ps e) (en_identity e) r (en_log e).

Abbreviation en_mgr e := (ps_mgr (en_ps e)).

Definition intentID (controllerIntentID : string) : string := ComputeID Kind controllerIntentID.
Definition params_ (controllerIntentID to : string) (amountWei gasLimit : Z) : Params :=
  mkParams Kind controllerIntentID to "" (Some amountWei) gasLimit {["controller_intent_id" := controllerIntentID]}.

Definition failReason (t : TxIntent) : string :=
  match ti_FailedReason t with None => "failed" | Some e => Error (CError_error e) end.
Definition dispatched (t : TxIntent) (reused : bool) : Dispatched :=
  match CurrentAttempt t with
  | None => mkDispatched "" 0 reused
  | Some a => mkDispatched (hexAddress (at_SignedTxHash a)) (at_Nonce a) reused
  end.
Definition outcome (t : TxIntent) : PayoutOutcome :=
  let '(hash, nonce) := match CurrentAttempt t with
                        | None => ("", 0)
                        | Some a => (hexAddress (at_SignedTxHash a), at_Nonce a)
                        end in
  match ti_Status t with
  | StatusConfirmed => mkOutcome StatePaid hash nonce ""
  | StatusFailed => mkOutcome StateFailed hash nonce (failReason t)
  | _ => mkOutcome StatePending hash nonce ""
  end.

Definition nonceFromExternalRef (ref : string) : option Z :=
  let ref := TrimSpace ref in
  if hasPrefix ref "nonce-" then ParseUint (drop_bytes 6 ref) else None.

Section engine.
Context `{Bolt M} `{EthText} `{PoolWire}.
Variables (cfg : Executor) (ch : Chain).
#[local] Instance payout_signer : TxSigner := chain_signer ch.
Open Scope act_scope.

Abbreviation eact := (st (Engine M) payout_error).
Abbreviation w := (ch_world ch).
Abbreviation pcfg := (processor_config cfg ch).

(** ** Goroutines *)

(** [spawn], unless it is running already. *)
Definition spawn (id : string) (e : Engine M) : Engine M :=
  if bool_decide (is_Some (en_running e !! id)) then e
  else with_running (<[id := Entering (S (cf_MaxReplacements pcfg))]> (en_running e)) e.

(** A computation of the processor for the intent [id], its sends noted. *)
Definition perform {A} (id : string) (m : st (PState M) goerr A) (e : Engine M) : result goerr A * Engine M :=
  let '(r, ps) := m (en_ps e) in
  let new := drop (length (ps_sent (en_ps e))) (ps_sent ps) in
  (r, mkEngine ps (en_identity e) (en_running e)
        (en_log e ++ ((fun x => mksending id (ch_wallet ch) x.1 x.2) <$> new))).

(** The first half of an iteration of [Process]. *)
Definition entry (id : string) : st (PState M) goerr step :=
  do! s <- get;
  match Status id (ps_mgr s) with
  | None => ret Stop
  | Some intent => if IsTerminal (ti_Status intent) then ret Stop else enter pcfg w intent
  end.

(** What is left of a goroutine after a half: nothing when it stops. *)
Definition next_turn (g : goroutine) (s : step) : option goroutine :=
  match s, g with
  | Stop, _ => None
  | Onward, Entering (S n) => Some (Waiting n)
  | Again, Entering (S n) => Some (Entering n)
  | _, Waiting n => Some (Entering n)
  | _, Entering O => None
  end.
(** One turn of the goroutine of [id]. *)
Definition turn (id : string) (e : Engine M) : Engine M :=
  match en_running e !! id with
  | None => e
  | Some g =>
      let half := match g with
                  | Entering O => ret Stop
                  | Entering (S _) => entry id
                  | Waiting n => await pcfg w (bool_decide (n = 0%nat)) id
                  end in
      let '(r, e) := perform id half e in
      let left := match r with Ok s => next_turn g s | Err _ => None end in
      with_running (match left with Some g => <[id := g]> (en_running e) | None => delete id (en_running e) end) e
  end.
Definition turns (ids : list string) (e : Engine M) : Engine M := foldl (fun e id => turn id e) e ids.

(** ** Opening and closing *)

(** [bindRegionalIdentity]: the store is bound before a goroutine can sign. *)
Definition bindRegionalIdentity (e : Engine M) : result payout_error (Engine M) :=
  let refusal msg := Err (PayoutErr (GPlain msg)) in
  let expected_wallet := ex_ExpectedWalletAddress cfg in
  let scoped := negb (bool_decide (ex_PoolID cfg = "")) in
  if negb (bool_decide (expected_wallet = "")) &&
     (negb (IsHexAddress expected_wallet) || negb (bool_decide (HexToAddress expected_wallet = ch_wallet ch)))
  then refusal "payout wallet does not match expected_wallet_address"
  else if scoped && (bool_decide (expected_wallet = "") || is_zero_bytes (ch_wallet ch))
  then refusal "regional payout requires its dedicated expected wallet"
  else if scoped && negb (ex_ChainID cfg =? 0) && negb (ch_id ch =? ex_ChainID cfg)
  then refusal "payout chain does not match configured chain"
  else
    let intents := ListIntents (mkFilter [] [] None) (en_mgr e) in
    let expected := mkregionalIdentity (ex_PoolID cfg) (hexAddress (ch_wallet ch)) (ch_id ch) in
    match en_identity e with
    | Some prior =>
        if bool_decide (prior = expected) then Ok e
        else refusal "regional payout store pool, wallet and chain are immutable"
    | None =>
        if negb scoped then Ok e
        else if negb (bool_decide (intents = [])) then refusal "cannot assign a regional identity to existing unqualified payout intents"
        else Ok (mkEngine (en_ps e) (Some expected) (en_running e) (en_log e))
    end.

(** A new process has no waiters, no goroutines and no nonce of its own. *)
Definition reopened (e : Engine M) : Engine M :=
  mkEngine (mkPState (mkManager (mg_intents (en_mgr e)) ∅) 0 0 (ps_sent (en_ps e))) (en_identity e) ∅ (en_log e).
Definition ResumeAll (e : Engine M) : Engine M := foldl (fun e id => spawn id e) e (Resume (en_mgr e)).
Definition OpenWith (e : Engine M) : result payout_error unit * Engine M :=
  let e := reopened e in
  if ch_id ch =? 0 then (Err (PayoutErr (GPlain "payouts: chain id is required")), e)
  else match bindRegionalIdentity e with
       | Err err => (Err err, e)
       | Ok e => (Ok tt, ResumeAll e)
       end.
(** The goroutines are cancelled and the process forgets the rest. *)
Definition Close (e : Engine M) : Engine M := reopened e.

(** ** Calls *)
Definition on_ps {A} (wrap : goerr -> goerr) (m : st (PState M) goerr A) : eact A :=
  fun e => let '(r, ps) := m (en_ps e) in
           (match r with Ok a => Ok a | Err err => Err (PayoutErr (wrap err)) end, with_ps ps e).
(** The number of an outside call. *)
Definition outside : eact nat := on_ps (fun err => err) tick.
Definition stop_with {A} (msg : string) : eact A := fail (PayoutErr (GPlain msg)).
Definition unreadable : goerr := GWrap "payouts: read intent" store_not_found.

(** Polls until the intent is broadcast or terminal; before each poll the
    goroutines of one entry of the schedule run.  At its end the caller's
    context is done. *)
Fixpoint awaitBroadcast (schedule : list (list string)) (id : string) (cur : TxIntent) (reused : bool) : eact Dispatched :=
  if IsTerminal (ti_Status cur) then
    if bool_decide (ti_Status cur = StatusFailed)
    then fail (PayoutErr (GPlain ("payouts: intent failed before broadcast: " +:+ failReason cur)))
    else ret (dispatched cur reused)
  else
    run! update (spawn id);
    if bool_decide (is_Some (CurrentAttempt cur)) && negb (bool_decide (ti_Status cur = StatusSigned))
    then ret (dispatched cur reused)
    else match schedule with
         | [] => stop_with "context canceled"
         | ids :: schedule =>
             run! update (turns ids);
             do! e <- get;
             match Status id (en_mgr e) with
             | None => fail (PayoutErr unreadable)
             | Some cur => awaitBroadcast schedule id cur reused
             end
         end.

Definition Dispatch (schedule : list (list string)) (controllerIntentID to : string) (amountWei : option Z) : eact Dispatched :=
  if blank controllerIntentID then stop_with "payouts: controller intent id is required"
  else match amountWei with
  | None => stop_with "payouts: amount must be > 0"
  | Some amount =>
      if amount <=? 0 then stop_with "payouts: amount must be > 0"
      else
        let id := intentID controllerIntentID in
        do! e <- get;
        match Status id (en_mgr e) with
        | Some existing =>
            if negb (bool_decide (ti_To existing = to)) || negb (bool_decide (ti_Value existing = Some amount))
            then stop_with "payout intent recipient or amount changed"
            else awaitBroadcast schedule id existing true
        | None =>
            do! n <- outside;
            do! gas <- lift (fun err => PayoutErr (GWrap "estimate gas" err)) (ch_EstimateGas ch n to amount);
            if gas =? 0 then stop_with "estimate gas returned 0"
            else
              let gasLimit := u64 (gas + gas / 10) in
              run! on_ps (GWrap "payouts: submit intent") (manage w (fun now => Submit now (params_ controllerIntentID to amount gasLimit)));
              do! e <- get;
              match Status id (en_mgr e) with
              | None => fail (PayoutErr unreadable)
              | Some cur => awaitBroadcast schedule id cur false
              end
        end
  end.

(** The transaction is not the payout itself, sent from this wallet. *)
Definition foreign (to : string) (amountWei : option Z) (tx : ChainTx) : bool :=
  negb (bool_decide (ct_Sender tx = Some (ch_wallet ch))) || negb (ct_ChainID tx =? ch_id ch) ||
  negb (bool_decide (ct_To tx = Some to)) || negb (bool_decide (amountWei = Some (ct_Value tx))) ||
  negb (bool_decide (ct_Data tx = "")).

(** Whether a transaction was adopted. *)
Definition Track (controllerIntentID txHash externalRef to : string) (amountWei : option Z) : eact bool :=
  let id := intentID controllerIntentID in
  let scoped := negb (bool_decide (ex_PoolID cfg = "")) in
  do! e <- get;
  match Status id (en_mgr e) with
  | Some cur =>
      if bool_decide (amountWei = None) || negb (bool_decide (ti_To cur = to)) || negb (bool_decide (ti_Value cur = amountWei))
      then stop_with "tracked payout recipient or amount changed"
      else run! update (if IsTerminal (ti_Status cur) then fun e => e else spawn id); ret false
  | None =>
      let hash := HexToHash (TrimSpace txHash) in
      if is_zero_bytes hash then stop_with "payouts: tx hash is required to track a submitted payout"
      else
        do! n <- outside;
        do! found <- match ch_TransactionByHash ch n hash with
                     | TxFound tx =>
                         if scoped && foreign to amountWei tx
                         then stop_with "submitted transaction does not match regional payout authority"
                         else ret (Some tx)
                     | TxNotFound => ret None
                     | TxError err => fail (PayoutErr (GWrap "payouts: look up" err))
                     end;
        let nonce := match found with Some tx => Some (ct_Nonce tx) | None => nonceFromExternalRef externalRef end in
        match nonce with
        | None => fail ErrUnknownTx
        | Some nonce =>
            if scoped && bool_decide (found = None) then fail ErrUnknownTx
            else
              let gasLimit := match found with Some tx => if 0 <? ct_Gas tx then ct_Gas tx else TxGas | None => TxGas end in
              run! on_ps (GWrap "payouts: adopt")
                (manage w (fun now => Adopt now (params_ controllerIntentID to (default 0 amountWei) gasLimit) hash nonce None
                                        (ct_GasFeeCap <$> found) (ct_GasTipCap <$> found)));
              run! update (spawn id);
              ret true
        end
  end.

(** [Wait]'s deferred clean-up. *)
Definition Wait_leave (id : string) (c : nat) (m : Manager M) : Manager M :=
  let ws := delete c (default [] (mg_waiters m !! id)) in
  mkManager (mg_intents m) (match ws with [] => delete id (mg_waiters m) | _ => <[id := ws]> (mg_waiters m) end).
Definition with_mgr (m : Manager M) (e : Engine M) : Engine M :=
  with_ps (mkPState m (ps_nonceFloor (en_ps e)) (ps_calls (en_ps e)) (ps_sent (en_ps e))) e.

(** Still in flight, as far as the call has seen. *)
Definition reread (id : string) : eact PayoutOutcome :=
  do! e <- get;
  match Status id (en_mgr e) with
  | None => fail (PayoutErr unreadable)
  | Some cur => ret (outcome cur)
  end.
(** Goroutines run between the two steps of [Wait] and while it waits. *)
Definition Outcome (before during : list string) (controllerIntentID : string) : eact PayoutOutcome :=
  let id := intentID controllerIntentID in
  do! e <- get;
  match Status id (en_mgr e) with
  | None => fail ErrNotTracked
  | Some cur =>
      if IsTerminal (ti_Status cur) then ret (outcome cur)
      else
        run! update (spawn id);
        do! e <- get;
        match Wait_read id (en_mgr e) with
        | Ok (Some t) => ret (outcome t)
        | Err _ => reread id
        | Ok None =>
            run! update (turns before);
            do! e <- get;
            let '(c, m) := Wait_register id (en_mgr e) in
            run! update (fun e => turns during (with_mgr m e));
            do! e <- get;
            let received := Wait_receive id c (en_mgr e) in
            run! update (fun e => with_mgr (Wait_leave id c (en_mgr e)) e);
            match received with Some t => ret (outcome t) | None => reread id end
        end
  end.

(** The chain's own word, for dry runs. *)
Definition Peek (txHash : string) : eact PayoutOutcome :=
  let hash := HexToHash (TrimSpace txHash) in
  let pending := mkOutcome StatePending (hexAddress hash) 0 "" in
  do! n <- outside;
  match ch_TransactionReceipt ch n hash with
  | ReceiptError err => fail (PayoutErr (GWrap "transaction receipt" err))
  | ReceiptNone => ret pending
  | ReceiptFound status block =>
      if negb (status =? 1) then ret (mkOutcome StateFailed (hexAddress hash) 0 "tx.reverted: transaction reverted on-chain")
      else
        do! n <- outside;
        do! head <- lift (fun err => PayoutErr (GWrap "latest header" err)) (ch_HeaderByNumber ch n);
        match head, block with
        | Some head, Some block =>
            if (head - block <? 0) || (head - block <? reorgConfirmations (ex_ConfirmationBlocks cfg)) then ret pending
            else ret (mkOutcome StatePaid (hexAddress hash) 0 "")
        | _, _ => stop_with "latest header has no number"
        end
  end.

Definition BalanceAt : eact Z :=
  do! n <- outside;
  lift PayoutErr (ch_BalanceAt ch n).

End engine.

(** ** Lives of a store

    Each process opens the engine on the store the last one left, makes calls,
    and is closed or killed. *)
Inductive call :=
  | CDispatch (schedule : list (list string)) (controllerIntentID to : string) (amountWei : option Z)
  | CTrack (controllerIntentID txHash externalRef to : string) (amountWei : option Z)
  | COutcome (before during : list string) (controllerIntentID : string)
  | CPeek (txHash : string)
  | CBalance
  | CTurn (id : string).

Section lives.
Context `{Bolt M} `{EthText} `{PoolWire}.

Definition make (cfg : Executor) (ch : Chain) (e : Engine M) (c : call) : Engine M :=
  match c with
  | CDispatch schedule cid to amount => (Dispatch cfg ch schedule cid to amount e).2
  | CTrack cid hash ref to amount => (Track cfg ch cid hash ref to amount e).2
  | COutcome before during cid => (Outcome cfg ch before during cid e).2
  | CPeek hash => (Peek cfg ch hash e).2
  | CBalance => (BalanceAt ch e).2
  | CTurn id => turn cfg ch id e
  end.
Definition life (e : Engine M) (p : Executor * Chain * list call) : Engine M :=
  match OpenWith p.1.1 p.1.2 e with
  | (Err _, e) => e
  | (Ok _, e) => Close (foldl (make p.1.1 p.1.2) e p.2)
  end.
Definition lives : Engine M -> list (Executor * Chain * list call) -> Engine M := foldl life.
Definition empty_store : Engine M := mkEngine (mkPState (mkManager ∅ ∅) 0 0 []) None ∅ [].
End lives.
