(* ===== verification/PayoutExecutor.v ===== *)
(** * The payout executor

    pool-payout-executor: the client of the controller
    (internal/poolcontroller/client.go), the memory of earlier runs
    (internal/repo/state.go), and the commands of
    cmd/livepeer-pool-payout-executor/main.go: confirm what was submitted,
    requeue what failed, send what is exported.  The controller is PoolIntents on
    its database, the engine PayoutEngine.  A [Site] is all three; a [Net] says
    when each request is served and whether it or its answer is lost, and which
    goroutines of the engine run meanwhile.  Of a command's printed results only
    the actions are kept. *)
From S2P Require Import Prelude.
From S2P Require Import GoBytes.
From S2P Require Import GoStrings.
From S2P Require Import Bolt.
From S2P Require Import ChainErrors.
From S2P Require Import Actions.
From S2P Require Import WorkLedger.
From S2P Require Import TxIntent.
From S2P Require Import TxProcessor.
From S2P Require Import PoolTypes.
From S2P Require Import PoolStore.
From S2P Require Import PoolIntents.
From S2P Require Import PayoutEngine.

(** ** Earlier runs *)
Record IntentUpdate := mkIntentUpdate {
  iu_IntentID : string;
  iu_Phase : string;
  iu_Status : string;
  iu_Error : string;
  iu_TxHash : string;
  iu_DispatchAttempt : bool;
  iu_ConfirmCheck : bool;
  iu_Succeeded : bool;
  iu_Failed : bool;
}.
Record IntentRecord := mkIntentRecord {
  ir_IntentID : string;
  ir_LastPhase : string;
  ir_LastStatus : string;
  ir_DispatchAttempts : Z;
  ir_ConfirmChecks : Z;
  ir_FailureCount : Z;
  ir_LastError : string;
  ir_LastTxHash : string;
  ir_FirstSeenAt : option Z;
  ir_LastSeenAt : option Z;
  ir_LastSucceededAt : option Z;
  ir_LastFailedAt : option Z;
}.
Definition no_record : IntentRecord := mkIntentRecord "" "" "" 0 0 0 "" "" None None None None.

(** [UpsertIntent] on what was stored. *)
Definition upserted (update : IntentUpdate) (at_ : Z) (rec : IntentRecord) : IntentRecord :=
  let fresh := bool_decide (ir_IntentID rec = "") in
  let kept_or new old := if bool_decide (new = "") then old else new in
  mkIntentRecord
    (if fresh then iu_IntentID update else ir_IntentID rec)
    (iu_Phase update) (iu_Status update)
    (if iu_DispatchAttempt update then u64 (ir_DispatchAttempts rec + 1) else ir_DispatchAttempts rec)
    (if iu_ConfirmCheck update then u64 (ir_ConfirmChecks rec + 1) else ir_ConfirmChecks rec)
    (if iu_Failed update then u64 (ir_FailureCount rec + 1) else ir_FailureCount rec)
    (if iu_Succeeded update then "" else kept_or (iu_Error update) (ir_LastError rec))
    (kept_or (iu_TxHash update) (ir_LastTxHash rec))
    (if fresh then Some at_ else ir_FirstSeenAt rec)
    (Some at_)
    (if iu_Succeeded update then Some at_ else ir_LastSucceededAt rec)
    (if iu_Failed update then Some at_ else ir_LastFailedAt rec).

(** ** Backoff *)
Fixpoint backoff_ms (doublings : nat) (delayMS maxMS : Z) : Z :=
  match doublings with
  | O => delayMS
  | S doublings =>
      if maxMS <=? delayMS then maxMS
      else
        let delayMS := i64 (delayMS * 2) in
        if maxMS <? delayMS then maxMS else backoff_ms doublings delayMS maxMS
  end.
Definition millisecond : Z := 1000000.
Definition backoffDuration (cfg : Executor) (attempts : Z) : Z :=
  i64 (backoff_ms (Z.to_nat (attempts - 1)) (ex_BackoffBaseMS cfg) (ex_BackoffMaxMS cfg) * millisecond).

Definition nextEligibleTime (cfg : Executor) (phase : string) (rec : IntentRecord) : option Z :=
  let after attempts := Some (instant (ir_LastSeenAt rec) + backoffDuration cfg (i64 attempts)) in
  if bool_decide (phase = "confirm") then
    if bool_decide (ir_LastStatus rec = "pending_confirmation") then after (ir_ConfirmChecks rec)
    else if bool_decide (ir_LastStatus rec ∈ ["failed"; "would_mark_failed"]) then after (ir_FailureCount rec)
    else None
  else if bool_decide (phase = "dispatch") then
    if bool_decide (ir_LastStatus rec ∈ ["error"; "failed"; "would_mark_failed"]) then after (ir_FailureCount rec)
    else None
  else None.

(** ** Which failures are retried *)
Definition permanentMarkers : list string :=
  ["insufficient"; "revert"; "unauthorized"; "forbidden"; "invalid"; "unsupported"; "manual"; "compliance";
   "tx.sign_failed"; "tx.nonce_past"].
Definition transientMarkers : list string :=
  ["timeout"; "tempor"; "unavailable"; "connection"; "reset"; "deadline exceeded"; "eof"; "429"; "502"; "503"; "504";
   "pending"; "receipt not available"; "not found"; "not_found"; "tx.replacement_exhausted"; "rpc.rate_limited";
   "rpc.block_not_synced"; "rpc.gas_suggest_failed"; "rpc.pending_nonce_failed"].
Definition isTransientFailure (reason : string) : bool :=
  let reason := ToLower (TrimSpace reason) in
  if bool_decide (reason = "") then false
  else if existsb (Contains reason) permanentMarkers then false
  else existsb (Contains reason) transientMarkers.

(** Whether the intent may be requeued unattended. *)
Definition autoRequeueDecision (cfg : Executor) (intent : PayoutIntent) (now : Z) : bool :=
  if negb (bool_decide (pi_Status intent = "failed")) then false
  else if (0 <? ex_MaxRetries cfg) && (ex_MaxRetries cfg <=? i64 (pi_RetryCount intent)) then false
  else match pi_FailedAt intent with
  | None => false
  | Some failedAt =>
      let cooldown := i64 (ex_RequeueCooldownSeconds cfg * second) in
      if (0 <? cooldown) && (now - failedAt <? cooldown) then false
      else isTransientFailure (pi_FailureReason intent)
  end.

Section text.
Context `{PoolWire}.

Definition validateNativeIntent (intent : PayoutIntent) (chainID : Z) : bool :=
  bool_decide (pi_Asset intent = "native_eth") && (pi_ChainID intent =? chainID) &&
  (hasPrefix (ToLower (pi_DestinationAddress intent)) "0x" && (len (pi_DestinationAddress intent) =? 42)) &&
  bool_decide (is_Some (SetString10 (pi_AmountWei intent))).
Definition addDecimalStrings (a b : string) : string :=
  match SetString10 a, SetString10 b with
  | Some x, Some y => dec_string (x + y)
  | _, _ => a
  end.

(** An answer about another pool is refused as a whole. *)
Definition validateRegionalIntents (poolID : string) (intents : list PayoutIntent) : bool :=
  forallb (fun i =>
    if negb (bool_decide (poolID = "")) then
      bool_decide (pi_PoolID i = poolID) && negb (bool_decide (pi_PayoutBatchID i = "")) && negb (pi_Revision i =? 0)
    else bool_decide (pi_PoolID i = "")) intents.
End text.

(** ** The site *)

(** A command's answer from the controller: it came, or the request or the
    answer was lost. *)
Inductive fate := Delivered | RequestLost | AnswerLost.
Record Net := mkNet {
  nt_now : nat -> Z;
  nt_fate : nat -> fate;
  nt_turns : nat -> list string;
  nt_schedule : nat -> list (list string);
  nt_before : nat -> list string;
  nt_during : nat -> list string;
}.

(** A status report as it is made: of a listed intent, by the commands that
    confirm and send; or of the ids an operator names, by his mark commands. *)
Inductive StatusReport :=
  | Automatic (intent : PayoutIntent) (status txHash : string)
  | Marked (ids : list string) (status txHash : string).

Record Site (M : Type -> Type) := mkSite {
  x_db : PoolDB M;
  x_engine : Engine M;
  (** [None] when no state path is configured. *)
  x_repo : option (M IntentRecord);
  x_calls : nat;
  (** A trace of the status reports. *)
  x_reported : list StatusReport;
}.
Arguments mkSite {M}.
Arguments x_db {M}.
Arguments x_engine {M}.
Arguments x_repo {M}.
Arguments x_calls {M}.
Arguments x_reported {M}.

Record ListPayoutIntentsOptions := mkListOptions {
  lo_RoundID : string;
  lo_MemberEthAddress : string;
  lo_Status : string;
  lo_Limit : Z;
}.

Section executor.
Context `{Bolt M} `{EthText} `{PoolWire}.
Variables (cfg : Executor) (ch : Chain) (net : Net).
Open Scope act_scope.

Abbreviation xact := (st (Site M) string).

Definition next_call : xact nat :=
  fun x => (Ok (x_calls x), mkSite (x_db x) (x_engine x) (x_repo x) (S (x_calls x)) (x_reported x)).
Definition time_now : xact Z := do! n <- next_call; ret (nt_now net n).
Definition pool_error_String (e : pool_error) : string :=
  match e with PoolErr msg => msg | ErrPoolNotFound => "not found" | ErrTermsNotAccepted => "terms not accepted" end.

(** A call of the engine. *)
Definition on_engine {A} (m : st (Engine M) payout_error A) : xact A :=
  fun x => let '(r, e) := m (x_engine x) in
           (match r with Ok a => Ok a | Err err => Err (payout_error_String err) end,
            mkSite (x_db x) e (x_repo x) (x_calls x) (x_reported x)).

(** *** The client *)

(** A request: goroutines run meanwhile. *)
Definition request {A} (serve : Z -> PoolDB M -> presult A * PoolDB M) : xact A :=
  do! n <- next_call;
  run! on_engine (update (turns cfg ch (nt_turns net n)));
  match nt_fate net n with
  | RequestLost => fail "no answer"
  | fate =>
      do! r <- (fun x => let '(r, db) := serve (nt_now net n) (x_db x) in
                         (Ok r, mkSite db (x_engine x) (x_repo x) (x_calls x) (x_reported x)));
      match r, fate with
      | Err e, Delivered => fail ("pool-controller returned status: " +:+ pool_error_String e)
      | Ok a, Delivered => ret a
      | _, _ => fail "no answer"
      end
  end.
(** The intents of an answer, as they are shown, once they pass. *)
Definition answered (intents : list PayoutIntent) : xact (list PayoutIntent) :=
  let intents := buildPayoutIntentViews intents in
  run! require (validateRegionalIntents (ex_PoolID cfg) intents) "payout intent lacks matching regional identity";
  ret intents.

Definition list_payouts (opts : ListPayoutIntentsOptions) : xact (list PayoutIntent) :=
  do! items <- request (list_intents (lo_RoundID opts) (lo_MemberEthAddress opts) (lo_Status opts)
                          (if 0 <? lo_Limit opts then lo_Limit opts else 0));
  answered items.
Definition ClaimPayoutIntents (opts : ListPayoutIntentsOptions) : xact (string * list PayoutIntent) :=
  do! claimed <- request (claim (ex_ExecutorID cfg) (ex_LeaseTTLSeconds cfg) (lo_RoundID opts) (lo_MemberEthAddress opts) (lo_Limit opts));
  do! items <- answered claimed.2;
  ret (claimed.1, items).
(** The controller's answer names the lease of the request. *)
Definition RenewPayoutIntents (leaseID : string) : xact (string * list PayoutIntent) :=
  do! renewed <- request (renew (ex_ExecutorID cfg) leaseID (ex_LeaseTTLSeconds cfg));
  do! items <- answered renewed;
  ret (leaseID, items).
Definition ReleasePayoutIntents (leaseID : string) (ids : list string) : xact unit :=
  do! released <- request (release (ex_ExecutorID cfg) leaseID ids);
  run! answered released;
  ret tt.
Definition RequeuePayoutIntents (ids : list string) : xact (list PayoutIntent) :=
  do! requeued <- request (requeue ids);
  answered requeued.
Definition UpdatePayoutIntentStatus (ids : list string) (status leaseID externalRef txHash failureReason : string) :
    xact (list PayoutIntent) :=
  do! updated <- request (report_status ids status leaseID externalRef txHash failureReason);
  answered updated.

Definition releaseLeaseIfHeld (leaseID : string) : xact unit :=
  if blank leaseID then ret tt else ReleasePayoutIntents leaseID [].
Definition releaseLeaseIDs (leaseID : string) (ids : list string) : xact unit :=
  if blank leaseID || bool_decide (ids = []) then ret tt else ReleasePayoutIntents leaseID ids.

(** *** Shared steps *)

(** [retryAfterForIntent]: whether the intent is backed off. *)
Definition backed_off (phase intentID : string) : xact bool :=
  do! now <- time_now;
  do! x <- get;
  ret (match x_repo x with
       | None => false
       | Some repo =>
           if (ex_BackoffBaseMS cfg <=? 0) || (ex_BackoffMaxMS cfg <=? 0) then false
           else match repo !! intentID with
                | None => false
                | Some rec => match nextEligibleTime cfg phase rec with Some next => now <? next | None => false end
                end
       end).

(** The engine of [reconcile-loop] is held open; other commands open their own. *)
Definition with_engine {A} (held : bool) (body : xact A) : xact A :=
  if held then body
  else
    run! on_engine (OpenWith cfg ch);
    fun x => let '(r, x) := body x in
             (r, mkSite (x_db x) (Close (x_engine x)) (x_repo x) (x_calls x) (x_reported x)).

Definition amount_of (intent : PayoutIntent) : option Z := SetString10 (pi_AmountWei intent).
Definition action (phase : string) (intent : PayoutIntent) (status err hash : string) (attempt check ok failed : bool) : IntentUpdate :=
  mkIntentUpdate (pi_ID intent) phase status err hash attempt check ok failed.
(** A report, and the note of it. *)
Definition note (r : StatusReport) : xact unit :=
  update (fun x => mkSite (x_db x) (x_engine x) (x_repo x) (x_calls x) (x_reported x ++ [r])).
Definition report (intent : PayoutIntent) (status leaseID externalRef txHash reason : string) : xact unit :=
  run! note (Automatic intent status txHash);
  run! UpdatePayoutIntentStatus [pi_ID intent] status leaseID externalRef txHash reason;
  ret tt.

(** For each item in order; the first error stops, and what was done stays. *)
Fixpoint each {A B} (f : A -> xact B) (items : list A) : xact (list B) :=
  match items with
  | [] => ret []
  | a :: items => do! b <- f a; do! rest <- each f items; ret (b :: rest)
  end.

(** ** Confirming what was submitted *)
Definition payoutOutcome (dryRun : bool) (intent : PayoutIntent) (before during : list string) : st (Engine M) payout_error PayoutOutcome :=
  if dryRun then Peek cfg ch (pi_TxHash intent)
  else
    do! tracked <- observe (Track cfg ch (pi_ID intent) (pi_TxHash intent) (pi_ExternalRef intent)
                              (HexToAddress (pi_DestinationAddress intent)) (SetString10 (TrimSpace (pi_AmountWei intent))));
    match tracked with
    | Err ErrUnknownTx => ret (mkOutcome StatePending (TrimSpace (pi_TxHash intent)) 0 (payout_error_String ErrUnknownTx))
    | Err e => fail e
    | Ok _ => Outcome cfg ch before during (pi_ID intent)
    end.

Definition confirm_one (dryRun : bool) (intent : PayoutIntent) : xact IntentUpdate :=
  do! off <- backed_off "confirm" (pi_ID intent);
  let act := action "confirm" intent in
  if off : bool then ret (act "backoff_skipped" "" "" false false false false)
  else if negb (validateNativeIntent intent (ex_ChainID cfg)) then ret (act "skipped" "invalid intent" "" false false false false)
  else if blank (pi_TxHash intent) then ret (act "skipped" "missing tx_hash" "" false false false false)
  else
    do! n <- next_call;
    do! o <- on_engine (payoutOutcome dryRun intent (nt_before net n) (nt_during net n));
    match oc_State o with
    | StateFailed =>
        if dryRun then ret (act "would_mark_failed" (oc_Reason o) (oc_TxHash o) false true false true)
        else
          run! report intent "failed" "" (pi_ExternalRef intent) (oc_TxHash o) (oc_Reason o);
          ret (act "failed" (oc_Reason o) (oc_TxHash o) false true false true)
    | StatePending => ret (act "pending_confirmation" (oc_Reason o) (oc_TxHash o) false true false false)
    | StatePaid =>
        if dryRun then ret (act "would_mark_paid" "" (oc_TxHash o) false true true false)
        else
          run! report intent "paid" "" (pi_ExternalRef intent) (oc_TxHash o) "";
          ret (act "paid" "" (oc_TxHash o) false true true false)
    end.
Definition confirmSubmitted (held dryRun : bool) (opts : ListPayoutIntentsOptions) : xact (list IntentUpdate) :=
  do! intents <- list_payouts opts;
  with_engine held (each (confirm_one dryRun) intents).

(** ** Requeueing what failed *)
Definition autoRequeueFailed (dryRun : bool) (opts : ListPayoutIntentsOptions) : xact (list IntentUpdate) :=
  if negb (ex_AutoRequeueFailed cfg) then ret []
  else
    do! intents <- list_payouts opts;
    do! verdicts <- each (fun i => do! now <- time_now; ret (i, autoRequeueDecision cfg i now)) intents;
    let eligible := (List.filter snd verdicts).*1 in
    match eligible with
    | [] => ret []
    | _ =>
        if dryRun then ret ((fun i => action "requeue" i "would_requeue" "" "" false false true false) <$> eligible)
        else
          do! requeued <- RequeuePayoutIntents (pi_ID <$> eligible);
          ret ((fun i => action "requeue" i "requeued" "" "" false false true false) <$> requeued)
    end.

(** ** Sending what is exported *)

(** The leased intents of this executor's first lease. *)
Definition owned_step (own : list PayoutIntent * string) (intent : PayoutIntent) : list PayoutIntent * string :=
  if negb (bool_decide (TrimSpace (pi_LeaseOwner intent) = ex_ExecutorID cfg)) then own
  else
    let leaseID := if bool_decide (own.2 = "") then TrimSpace (pi_LeaseID intent) else own.2 in
    if bool_decide (TrimSpace (pi_LeaseID intent) = leaseID) then (own.1 ++ [intent], leaseID) else (own.1, leaseID).

Definition loadDispatchIntents (dryRun : bool) (opts : ListPayoutIntentsOptions) : xact (string * list PayoutIntent) :=
  if dryRun || negb (bool_decide (lo_Status opts = "exported")) then
    do! intents <- list_payouts opts;
    ret ("", intents)
  else
    do! leased <- list_payouts (mkListOptions (lo_RoundID opts) (lo_MemberEthAddress opts) "leased" (lo_Limit opts));
    let '(owned, leaseID) := foldl owned_step ([], "") leased in
    match owned with
    | _ :: _ => if bool_decide (leaseID = "") then ClaimPayoutIntents opts else RenewPayoutIntents leaseID
    | [] => ClaimPayoutIntents opts
    end.

(** What becomes of a loaded intent: sent, or left with an action. *)
Definition triage (intent : PayoutIntent) : xact (IntentUpdate + PayoutIntent) :=
  do! off <- backed_off "dispatch" (pi_ID intent);
  let act := action "dispatch" intent in
  ret (if off : bool then inl (act "backoff_skipped" "" "" false false false false)
       else if negb (validateNativeIntent intent (ex_ChainID cfg)) then inl (act "skipped" "invalid intent" "" false false false false)
       else if negb (blank (pi_TxHash intent)) || negb (blank (pi_ExternalRef intent))
       then inl (act "skipped" "intent already has settlement metadata" "" false false false false)
       else inr intent).
Definition left_of {A B} (x : A + B) : option A := match x with inl a => Some a | inr _ => None end.
Definition right_of {A B} (x : A + B) : option B := match x with inl _ => None | inr b => Some b end.

Definition send_one (leaseID : string) (intent : PayoutIntent) : xact IntentUpdate :=
  do! n <- next_call;
  do! sent <- observe (on_engine (Dispatch cfg ch (nt_schedule net n) (pi_ID intent)
                                    (HexToAddress (pi_DestinationAddress intent)) (amount_of intent)));
  match sent with
  | Err e => ret (action "dispatch" intent "error" e "" true false false true)
  | Ok d =>
      run! report intent "submitted" leaseID ("nonce-" +:+ dec_string (dp_Nonce d)) (dp_TxHash d) "";
      ret (action "dispatch" intent "submitted" "" (dp_TxHash d) true false true false)
  end.

Definition submitted (a : IntentUpdate) : bool := bool_decide (iu_Status a = "submitted").
(** The actions and the total. *)
Definition sendNativeBatch (held dryRun : bool) (opts : ListPayoutIntentsOptions) : xact (list IntentUpdate * Z) :=
  do! loaded <- loadDispatchIntents dryRun opts;
  let leaseID := loaded.1 in
  do! sorted <- each triage loaded.2;
  let skipped : list IntentUpdate := omap left_of sorted in
  let eligible : list PayoutIntent := omap right_of sorted in
  let total := foldl (fun sum i => sum + default 0 (amount_of i)) 0 eligible in
  if dryRun then
    ret (skipped ++ ((fun i => action "dispatch" i "dry_run" "" "" false false false false) <$> eligible), total)
  else match eligible with
  | [] => run! releaseLeaseIfHeld leaseID; ret (skipped, total)
  | _ =>
      do! opened <- (if held then ret (Ok tt) else observe (on_engine (OpenWith cfg ch)));
      match opened with
      | Err e => run! releaseLeaseIfHeld leaseID; fail e
      | Ok _ =>
          let body : xact (list IntentUpdate * Z) :=
            do! balance <- on_engine (BalanceAt ch);
            if balance <? total then run! releaseLeaseIfHeld leaseID; fail "insufficient wallet balance for payout total"
            else
              do! sent <- each (send_one leaseID) eligible;
              run! (if existsb submitted sent && negb (bool_decide (skipped = []))
                    then releaseLeaseIDs leaseID (iu_IntentID <$> skipped) else ret tt);
              ret (skipped ++ sent, total) in
          fun x => let '(r, x) := body x in
                   (r, if held then x else mkSite (x_db x) (Close (x_engine x)) (x_repo x) (x_calls x) (x_reported x))
      end
  end.

(** ** The reconcile commands *)
Record reconcileOnceResult := mkResult {
  rs_Confirm : list IntentUpdate;
  rs_AutoRequeue : list IntentUpdate;
  rs_Dispatch : list IntentUpdate;
}.
Definition batch_options (status roundID member : string) (limit : Z) : ListPayoutIntentsOptions :=
  mkListOptions (TrimSpace roundID) (TrimSpace member) (TrimSpace status) (if limit =? 0 then ex_BatchSize cfg else limit).

(** The result so far, and the error that ended it. *)
Definition reconcileOnce (held dryRun : bool) (roundID member : string) (limit : Z) : xact (reconcileOnceResult * option string) :=
  let opts status := batch_options status roundID member limit in
  do! confirmed <- observe (confirmSubmitted held dryRun (opts "submitted"));
  match confirmed with
  | Err e => ret (mkResult [] [] [], Some e)
  | Ok confirmed =>
      do! requeued <- observe (autoRequeueFailed dryRun (opts "failed"));
      match requeued with
      | Err e => ret (mkResult confirmed [] [], Some e)
      | Ok requeued =>
          do! sent <- observe (sendNativeBatch held dryRun (opts "exported"));
          match sent with
          | Err e => ret (mkResult confirmed requeued [], Some e)
          | Ok sent => ret (mkResult confirmed requeued sent.1, None)
          end
      end
  end.

(** The per-intent records of a run; backed-off intents are not touched. *)
Definition upsert (at_ : Z) (repo : M IntentRecord) (a : IntentUpdate) : M IntentRecord :=
  if bool_decide (iu_Status a = "backoff_skipped") then repo
  else <[iu_IntentID a := upserted a at_ (default no_record (repo !! iu_IntentID a))]> repo.
Definition persistReconcileState (res : reconcileOnceResult) : xact unit :=
  do! at_ <- time_now;
  update (fun x => mkSite (x_db x) (x_engine x)
                     ((fun repo => foldl (upsert at_) repo (rs_Confirm res ++ rs_AutoRequeue res ++ rs_Dispatch res)) <$> x_repo x)
                     (x_calls x) (x_reported x)).

(** One round of either reconcile command. *)
Definition reconcile (held dryRun : bool) (roundID member : string) (limit : Z) : xact unit :=
  do! result <- reconcileOnce held dryRun roundID member limit;
  run! persistReconcileState result.1;
  match result.2 with Some e => fail e | None => ret tt end.

Fixpoint reconcile_rounds (iterations : nat) (dryRun : bool) (roundID member : string) (limit : Z) : xact unit :=
  match iterations with
  | O => ret tt
  | S iterations =>
      run! reconcile true dryRun roundID member limit;
      reconcile_rounds iterations dryRun roundID member limit
  end.
Definition runReconcileLoop (iterations : nat) (dryRun : bool) (roundID member : string) (limit : Z) : xact unit :=
  with_engine false (reconcile_rounds iterations dryRun roundID member limit).

(** ** The other commands *)
Definition or_default (status fallback : string) : string := if blank status then fallback else TrimSpace status.
Definition runRequeueFailed (roundID member status : string) (limit : Z) : xact (list PayoutIntent) :=
  do! items <- list_payouts (mkListOptions (TrimSpace roundID) (TrimSpace member) (or_default status "failed") limit);
  match items with
  | [] => ret []
  | _ => RequeuePayoutIntents (pi_ID <$> items)
  end.
Definition parseCSVStrings (raw : string) : list string :=
  List.filter (fun part => negb (bool_decide (part = ""))) (TrimSpace <$> Split (byte_of 44) raw).
Definition runMarkStatus (status idsRaw externalRef txHash reason : string) : xact (list PayoutIntent) :=
  let ids := parseCSVStrings idsRaw in
  if bool_decide (ids = []) then fail "--ids is required"
  else if bool_decide (status = "failed") && blank reason then fail "--reason is required for failed status"
  else
    run! note (Marked ids status (TrimSpace txHash));
    UpdatePayoutIntentStatus ids status "" (TrimSpace externalRef) (TrimSpace txHash) (TrimSpace reason).
Definition runPrepareBatch (roundID member status : string) (limit : Z) : xact string :=
  do! items <- list_payouts (batch_options (or_default status "exported") roundID member limit);
  ret (foldl (fun total i => addDecimalStrings total (pi_AmountWei i)) "0" items).

(** ** A process is one command *)
Inductive command :=
  | RConfirm (roundID member status : string) (limit : Z)
  | RSend (dryRun : bool) (roundID member status : string) (limit : Z)
  | RReconcile (dryRun : bool) (roundID member : string) (limit : Z)
  | RLoop (iterations : nat) (dryRun : bool) (roundID member : string) (limit : Z)
  | RRequeueFailed (roundID member status : string) (limit : Z)
  | RMark (status idsRaw externalRef txHash reason : string)
  | RPrepare (roundID member status : string) (limit : Z).
(** [confirm-submitted] and [send-native-batch] run without the state file. *)
Definition without_repo {A} (m : xact A) : xact A :=
  fun x => let '(r, x') := m (mkSite (x_db x) (x_engine x) None (x_calls x) (x_reported x)) in
           (r, mkSite (x_db x') (x_engine x') (x_repo x) (x_calls x') (x_reported x')).
Definition discard {A} (m : xact A) : xact unit := run! m; ret tt.
Definition run_command (c : command) : xact unit :=
  match c with
  | RConfirm roundID member status limit =>
      without_repo (discard (confirmSubmitted false false (batch_options (or_default status "submitted") roundID member limit)))
  | RSend dryRun roundID member status limit =>
      without_repo (discard (sendNativeBatch false dryRun (batch_options (or_default status "exported") roundID member limit)))
  | RReconcile dryRun roundID member limit => reconcile false dryRun roundID member limit
  | RLoop iterations dryRun roundID member limit => runReconcileLoop iterations dryRun roundID member limit
  | RRequeueFailed roundID member status limit => discard (runRequeueFailed roundID member status limit)
  | RMark status idsRaw externalRef txHash reason => discard (runMarkStatus status idsRaw externalRef txHash reason)
  | RPrepare roundID member status limit => discard (runPrepareBatch roundID member status limit)
  end.
End executor.

(** A day at the site: the commands run one after the other, each by a process
    of its own, and between them the controller's other writes. *)
Inductive site_event (M : Type -> Type) :=
  | ECommand (cfg : Executor) (ch : Chain) (net : Net) (c : command)
  | EController (f : PoolDB M -> PoolDB M).
Arguments ECommand {M}.
Arguments EController {M}.
Section days.
Context `{Bolt M} `{EthText} `{PoolWire}.
Definition site_step (x : Site M) (ev : site_event M) : Site M :=
  match ev with
  | ECommand cfg ch net c => (run_command cfg ch net c x).2
  | EController f => mkSite (f (x_db x)) (x_engine x) (x_repo x) (x_calls x) (x_reported x)
  end.
Definition site_run : Site M -> list (site_event M) -> Site M := foldl site_step.
End days.
