(* ===== verification/PayoutInv.v ===== *)
(** * The invariant of the payout engine

    Whatever a process of the executor calls, whatever the node answers, and
    however processes follow one another on a store: each intent is carried by
    transactions of one nonce, a settled intent stays as it is and nothing more
    is sent for it, and a store bound to a pool is used with one wallet on one
    chain. *)
From S2P Require Import Prelude.
From S2P Require Import GoBytes.
From S2P Require Import GoStrings.
From S2P Require Import Bolt.
From S2P Require Import ChainErrors.
From S2P Require Import Actions.
From S2P Require Import Types.
From S2P Require Import TxIntent.
From S2P Require Import TxProcessor.
From S2P Require Import TxIntentSpec.
From S2P Require Import TxProcessorSpec.
From S2P Require Import PoolTypes.
From S2P Require Import PayoutEngine.

(** ** The processor moves one intent *)

(** The manager calls the processor makes for the intent [id]. *)
Inductive own (id : string) : mop -> Prop :=
  | own_confirm : own id (OpMarkConfirmed id)
  | own_fail reason : own id (OpMarkFailed id reason)
  | own_status s : own id (OpSetStatus id s)
  | own_attempt n f tip h b s : IsTerminal s = false -> own id (OpAppendAttempt id n f tip h b s).
Definition owned (id : string) (nop : Z * mop) : Prop := nop.1 <> 0 /\ own id nop.2.

Create HintDb moving.

Section moving.
Context `{Bolt M} `{TxSigner} (pcfg : ProcessorConfig) (w : World) (id : string).
Hypothesis Hclock : forall n, w_now w n <> 0.
Open Scope act_scope.
Implicit Types intent : TxIntent.

(** From [s] to [s'] by such calls and by sending. *)
Definition moved (s s' : PState M) : Prop :=
  exists ops new, ps_mgr s' = mrun (ps_mgr s) ops /\ Forall (owned id) ops /\ ps_sent s' = ps_sent s ++ new.
Definition moving {A} (m : st (PState M) goerr A) : Prop := forall s, moved s (m s).2.

Lemma moved_same s s' : ps_mgr s' = ps_mgr s -> ps_sent s' = ps_sent s -> moved s s'.
Proof. intros Hm Hs. exists [], []. by rewrite app_nil_r. Qed.
Lemma moved_trans s1 s2 s3 : moved s1 s2 -> moved s2 s3 -> moved s1 s3.
Proof.
  intros (ops & new & Hm & Ho & Hs) (ops' & new' & Hm' & Ho' & Hs'). exists (ops ++ ops'), (new ++ new').
  rewrite Hm', Hm, Hs', Hs, <- app_assoc. unfold mrun. rewrite foldl_app. split; [done|]. split; [by apply Forall_app|done].
Qed.
Lemma moving_bind {A B} (m : st (PState M) goerr A) (k : A -> st (PState M) goerr B) :
  moving m -> (forall x, moving (k x)) -> moving (bind m k).
Proof.
  intros Hm Hk s. specialize (Hm s). unfold bind. destruct (m s) as [[x|e] s']; [|done]. eapply moved_trans; [done|apply Hk].
Qed.
Lemma moving_ret {A} (x : A) : moving (ret x).
Proof. intros s. by apply moved_same. Qed.
Lemma moving_fail {A} e : moving (fail (A := A) e).
Proof. intros s. by apply moved_same. Qed.
Lemma moving_lift {A E'} f (r : result E' A) : moving (lift f r).
Proof. destruct r; [apply moving_ret|apply moving_fail]. Qed.
Lemma moving_get : moving get.
Proof. intros s. by apply moved_same. Qed.
Lemma moving_tick : moving (tick (M := M)).
Proof. intros s. by apply moved_same. Qed.
Lemma moving_floor z : moving (update (E := goerr) (fun s : PState M => mkPState (ps_mgr s) z (ps_calls s) (ps_sent s))).
Proof. intros s. by apply moved_same. Qed.
Lemma moving_send tx : moving (send w tx).
Proof.
  intros s. unfold send, bind, tick. simpl. destruct (w_SendTransaction _ _ _) as [a|err]; [exists [], [(tx, None)]|exists [], [(tx, Some (ce_Class (Classify err)))]]; by repeat split.
Qed.
Lemma moving_map_err {A} f (m : st (PState M) goerr A) : moving m -> moving (map_err f m).
Proof. intros Hm s. specialize (Hm s). unfold map_err. by destruct (m s) as [[x|e] s']. Qed.
Lemma moving_observe {A} (m : st (PState M) goerr A) : moving m -> moving (observe m).
Proof. intros Hm s. specialize (Hm s). unfold observe. by destruct (m s). Qed.
Lemma moving_manage {A} (op : Z -> Manager M -> result goerr A * Manager M) (o : Z -> mop) :
  (forall now m, (op now m).2 = mstep m (now, o now)) -> (forall now, own id (o now)) -> moving (manage w op).
Proof.
  intros Hop Ho s. set (now := w_now w (ps_calls s)). exists [(now, o now)], []. rewrite app_nil_r.
  unfold manage. fold now. pose proof (Hop now (ps_mgr s)) as E. destruct (op now (ps_mgr s)) as [r m]. simpl in *.
  split; [done|]. split; [|done]. repeat constructor; [apply Hclock|apply Ho].
Qed.
Lemma moving_status s : moving (manage w (fun now => SetStatus now id s)).
Proof. by apply (moving_manage _ (fun _ => OpSetStatus id s)); [|constructor]. Qed.
Lemma moving_failed reason : moving (manage w (fun now => MarkFailed now id reason)).
Proof. by apply (moving_manage _ (fun _ => OpMarkFailed id reason)); [|constructor]. Qed.
Lemma moving_confirmed : moving (manage w (fun now => MarkConfirmed now id)).
Proof. by apply (moving_manage _ (fun _ => OpMarkConfirmed id)); [|constructor]. Qed.
Lemma moving_attempt n f tip h s : IsTerminal s = false ->
  moving (manage w (fun now => AppendAttempt now id (new_attempt n f tip h now) s)).
Proof.
  intros Hs. by apply (moving_manage _ (fun now => OpAppendAttempt id n (Some (copyBig f)) (Some (copyBig tip)) h now s)); [|constructor].
Qed.
Hint Resolve moving_ret moving_fail moving_lift moving_get moving_tick moving_floor moving_send moving_map_err moving_observe
  moving_status moving_failed moving_confirmed moving_attempt : moving.

Ltac moving_auto := repeat (cbv zeta;
  match goal with
  | |- moving (bind _ _) => apply moving_bind; [|intros ?]
  | |- moving (match ?x with _ => _ end) => destruct x
  | |- moving _ => solve [auto with moving]
  end).

Lemma moving_broadcast intent : ti_ID intent = id -> moving (signAndBroadcast pcfg w intent).
Proof.
  intros Hid. unfold signAndBroadcast. generalize maxNonceRetries. intros k.
  assert (Ho : moving (broadcast_once pcfg w intent)) by (unfold broadcast_once; rewrite Hid; moving_auto).
  induction k as [|k IH]; cbn [broadcast_loop]; moving_auto.
Qed.
Lemma moving_successor intent prev f tip : ti_ID intent = id -> moving (send_successor pcfg w intent prev f tip).
Proof. intros Hid. unfold send_successor. rewrite Hid. moving_auto. Qed.
Hint Resolve moving_broadcast moving_successor : moving.
Lemma moving_rebroadcast intent : ti_ID intent = id -> moving (rebroadcast pcfg w intent).
Proof. intros Hid. unfold rebroadcast. rewrite Hid. moving_auto. Qed.
Lemma moving_replace intent prev : ti_ID intent = id -> moving (replace pcfg w intent prev).
Proof. intros Hid. unfold replace, base_caps. moving_auto. Qed.
Lemma moving_again intent prev : ti_ID intent = id -> moving (rebroadcastFromAttempt pcfg w intent prev).
Proof. apply moving_successor. Qed.
Lemma moving_refused intent e : ti_ID intent = id -> moving (handleSubmitErr w intent e).
Proof. intros Hid. unfold handleSubmitErr. rewrite Hid. moving_auto. Qed.
Hint Resolve moving_rebroadcast moving_replace moving_again moving_refused : moving.
Lemma moving_submitted_or intent m : ti_ID intent = id -> moving m -> moving (submitted_or w intent m).
Proof. intros Hid Hm. unfold submitted_or. moving_auto. Qed.
Lemma moving_retry_after intent m : ti_ID intent = id -> moving m -> moving (retry_after w intent m).
Proof. intros Hid Hm. unfold retry_after. moving_auto. Qed.
Lemma moving_wait h : moving (waitWithTimeout w h).
Proof. unfold waitWithTimeout. moving_auto. Qed.
Hint Resolve moving_submitted_or moving_retry_after moving_wait : moving.
Lemma moving_enter intent : ti_ID intent = id -> moving (enter pcfg w intent).
Proof. intros Hid. unfold enter. moving_auto. Qed.
Lemma await_moved last_ s : wf_manager (ps_mgr s) -> moved s (await pcfg w last_ id s).2.
Proof.
  intros Hwf. unfold await, get, bind at 1, Status. destruct (read id (ps_mgr s)) as [intent|] eqn:Hr; [|by apply moved_same].
  pose proof (wf_id _ _ (Hwf _ _ Hr)) as Hid. destruct (CurrentAttempt intent) as [cur|]; [|by apply moved_same].
  assert (Hm : forall o, moving (match o with
    | None => ret Stop
    | Some waitConfirmed => run! observe (manage w (fun now => MarkConfirmed now id)); ret Stop
    | Some waitReverted => run! observe (manage w (fun now => MarkFailed now id (reverted_reason (at_SignedTxHash cur)))); ret Stop
    | Some waitReorged => retry_after w intent (rebroadcastFromAttempt pcfg w intent cur)
    | Some waitTimeout =>
        if last_ then run! observe (manage w (fun now => MarkFailed now id (exhausted_reason pcfg id))); ret Stop
        else retry_after w intent (replace pcfg w intent cur)
    end)) by (intros o; moving_auto).
  by apply (moving_bind _ _ (moving_wait _) Hm s).
Qed.
End moving.

(** ** What such calls leave alone *)
Section calls.
Context `{Bolt M}.
Implicit Types (m : Manager M) (t : TxIntent).

(** A status change of [id], from a status that is not terminal. *)
Definition edits (id : string) (fn : TxIntent -> result goerr TxIntent) : Prop :=
  forall t t', fn t = Ok t' -> ti_ID t' = ti_ID t /\ IsTerminal (ti_Status t) = false /\
    (IsTerminal (ti_Status t') = true -> ti_Attempts t' = ti_Attempts t).
Lemma owned_edits id nop m : owned id nop -> exists fn, mstep m nop = (transition id fn m).2 /\ edits id fn.
Proof.
  destruct nop as [now op]. intros [_ Ho]. simpl in Ho.
  destruct Ho; (eexists; split; [reflexivity|]); intros t t' Ht; cbv beta in Ht;
    match type of Ht with (if ?c then _ else _) = _ => destruct c eqn:Hg; [done|injection Ht as <-] end; simpl.
  - split; [done|]. split; [|done]. destruct (ti_Status t); try done; by vm_compute in Hg.
  - by split.
  - by split.
  - split; [done|]. split; [done|]. congruence.
Qed.

Lemma owned_other id j nop m : wf_manager m -> owned id nop -> j <> id \/ read j m = None -> read j (mstep m nop) = read j m.
Proof.
  intros Hwf Ho Hj. destruct (owned_edits id nop m Ho) as (fn & -> & He). destruct (read id m) as [t|] eqn:Hr.
  - assert (j <> id) by (destruct Hj as [|Hj]; congruence).
    rewrite (transition_read id fn m t j Hr (wf_id _ _ (Hwf _ _ Hr))); [by rewrite bool_decide_false|].
    intros t' Ht. rewrite (proj1 (He _ _ Ht)). apply (Hwf _ _ Hr).
  - unfold transition. by rewrite Hr.
Qed.
Lemma owned_resubmits id j nop : owned id nop -> resubmits j nop = false.
Proof. destruct nop as [now op]. intros [_ Ho]. simpl in Ho. by destruct Ho. Qed.

(** The same end, but for the wording of its reason: a waiter is handed the
    error with its cause, the store has lost it. *)
Definition same_end (o o' : PayoutOutcome) : Prop :=
  oc_State o = oc_State o' /\ oc_TxHash o = oc_TxHash o' /\ oc_Nonce o = oc_Nonce o'.
Lemma outcome_same t u : ti_Status t = ti_Status u -> ti_Attempts t = ti_Attempts u -> same_end (outcome t) (outcome u).
Proof.
  intros Hs Ha. unfold outcome, CurrentAttempt. rewrite Hs, Ha. destruct (List.find _ _); by destruct (ti_Status u).
Qed.

(** A channel that was filled holds the end of its intent. *)
Definition told (id : string) t m : Prop := Some t ∈ default [] (mg_waiters m !! id).
Definition truthful m : Prop :=
  forall id t, told id t m -> exists u, read id m = Some u /\ IsTerminal (ti_Status u) = true /\ same_end (outcome t) (outcome u).

Lemma told_notify j id t x m : ti_ID t = id -> told j x (notifyWaiters t m) -> told j x m \/ (j = id /\ x = t).
Proof.
  intros Hid. unfold told, notifyWaiters. simpl. rewrite Hid. destruct (decide (j = id)) as [->|Hj].
  - rewrite lookup_alter_eq. destruct (mg_waiters m !! id) as [ws|]; simpl; [|by left].
    intros (c & Hc & Hin)%list_elem_of_fmap. destruct c as [y|]; [left; congruence|right; split; congruence].
  - rewrite lookup_alter_ne by done. by left.
Qed.

Lemma owned_truthful id nop m : wf_manager m -> owned id nop -> truthful m -> truthful (mstep m nop).
Proof.
  intros Hwf Ho Ht. destruct (owned_edits id nop m Ho) as (fn & -> & He). unfold transition.
  destruct (read id m) as [t|] eqn:Hr; [|done]. destruct (fn t) as [t'|e] eqn:Hf; [|done].
  destruct (He _ _ Hf) as (Hid & Hn & Ha). rewrite (wf_id _ _ (Hwf _ _ Hr)) in Hid.
  assert (Hnone : forall x, ~ told id x m).
  { intros x Hx. destruct (Ht _ _ Hx) as (u & Hu & Hterm & _). rewrite Hr in Hu. injection Hu as <-. congruence. }
  intros j x. cbn [snd]. destruct (IsTerminal (ti_Status t')) eqn:Hterm.
  - intros Hx. apply (told_notify j id t' x _ Hid) in Hx as [Hx|[-> ->]].
    + assert (j <> id) as Hj by (intros ->; by apply (Hnone x)). destruct (Ht j x Hx) as (u & Hu & Hu').
      exists u. split; [|done]. change (read j (write t' m) = Some u). rewrite read_write, bool_decide_false by congruence. done.
    + exists (stored t'). split; [change (read id (write t' m) = Some (stored t')); by rewrite read_write, bool_decide_true|].
      split; [done|]. apply outcome_same; [done|]. simpl. rewrite <- list_fmap_compose, (Ha eq_refl).
      symmetry. apply stored_attempts_id. by eapply read_stored.
  - intros Hx. assert (j <> id) as Hj by (intros ->; by apply (Hnone x)). destruct (Ht j x Hx) as (u & Hu & Hu').
    exists u. split; [|done]. rewrite read_write, bool_decide_false by congruence. done.
Qed.

Lemma owned_run id ops m : wf_manager m -> truthful m -> Forall (owned id) ops ->
  let m' := mrun m ops in
  wf_manager m' /\ truthful m' /\ (forall j, j <> id \/ read j m = None -> read j m' = read j m) /\
  (forall j t, read j m = Some t -> exists t', read j m' = Some t' /\ evolves false t t').
Proof.
  intros Hwf Ht Ho. cbv zeta. revert m Hwf Ht. induction Ho as [|nop ops Hn Ho IH]; intros m Hwf Ht; simpl.
  { split_and!; try done. intros j t Hr. exists t. split; [done|apply evolves_refl]. }
  pose proof (mstep_advances nop m Hwf (proj1 Hn)) as [Hwf' Hadv].
  destruct (IH (mstep m nop) Hwf' (owned_truthful id nop m Hwf Hn Ht)) as (Hw & Htr & Hother & Hev). split_and!; [done|done| |].
  - intros j Hj. pose proof (owned_other id j nop m Hwf Hn Hj) as E. rewrite Hother; [done|]. rewrite E. by destruct Hj; [left|right].
  - intros j t Hr. destruct (Hadv j t Hr) as (t1 & Hr1 & He1). rewrite (owned_resubmits id j nop Hn) in He1.
    destruct (Hev j t1 Hr1) as (t2 & Hr2 & He2). exists t2. split; [done|]. by apply (evolves_trans false false t t1).
Qed.
End calls.

(** ** The halves of an iteration *)
Section halves.
Context `{Bolt M} `{EthText} `{PoolWire} (cfg : Executor) (ch : Chain) (id : string) (t0 : TxIntent)
  (sent0 : list (Tx * option ErrorClass)).
#[local] Instance halves_signer : TxSigner := chain_signer ch.
Hypothesis Hclock : forall n, w_now (ch_world ch) n <> 0.
Hypothesis Hgas : ti_GasLimit t0 <> 0.
Hypothesis Hid : ti_ID t0 = id.
Open Scope act_scope.

Abbreviation w := (ch_world ch).
Abbreviation pcfg := (processor_config cfg ch).
Abbreviation idle := (idle (M := M) pcfg id t0 sent0).
Abbreviation held := (held (M := M) pcfg id t0 sent0).
Abbreviation live := (live (M := M) pcfg id t0 sent0).

(** The intent has left its first status. *)
Definition begun (s : PState M) : Prop := exists t, read id (ps_mgr s) = Some t /\ ti_Status t <> StatusPending.

Lemma held_begun n s : held n s -> begun s.
Proof. intros (t & new & a & Hr & _ & Hp & _). exists t. split; [apply Hr|done]. Qed.

Lemma entry_held n : triple (held n) (entry cfg ch id) (fun _ s => held n s).
Proof.
  unfold entry. apply triple_get. intros s0 Hs0. pose proof Hs0 as (t & new & a & Hr & Hs & Hp & Hc & Ha).
  unfold Status. rewrite (run_read _ _ _ _ _ _ _ _ Hr). apply (triple_pre _ _ (held n)); [|by intros ? ->].
  pose proof (running_about _ _ _ _ _ _ _ _ Hr) as Hi. destruct (IsTerminal _); [by apply triple_ret|].
  unfold enter. destruct (ti_Status t); try done; try (by apply triple_ret). subst n.
  eapply triple_post; [apply (submitted_or_triple w id t0 Hid (held (at_Nonce a)) (held (at_Nonce a)) (held (at_Nonce a)));
    [by apply stable_held|done|]|].
  - eapply triple_post; [by apply rebroadcast_held|]. by intros [?|?] s ?.
  - by intros [[]|?] s ?.
Qed.

Lemma await_begun last_ : triple (fun s => idle s /\ begun s) (await pcfg w last_ id) (fun _ s => live s).
Proof.
  intros s [(t & new & Hr & Hs) (t' & Hr' & Hp)]. rewrite (run_read _ _ _ _ _ _ _ _ Hr) in Hr'. injection Hr' as <-.
  destruct (CurrentAttempt t) as [a|] eqn:Hc.
  - right. exists (at_Nonce a). apply await_held; try done. apply fresh_held. by exists t, new, a.
  - unfold await, get, bind, ret, Status. rewrite (run_read _ _ _ _ _ _ _ _ Hr), Hc. left. by exists t, new.
Qed.

(** Signed or not, the first broadcast of an intent with nothing in flight. *)
Lemma first_entry t : about t0 t ->
  triple idle (submitted_or w t (signAndBroadcast pcfg w t)) (fun r s => live s /\ (r = Ok Onward -> begun s)).
Proof.
  intros Hi. eapply triple_post;
    [apply (submitted_or_triple w id t0 Hid _ live (fun s => exists n, held n s)); [by apply stable_live|done|by apply signAndBroadcast_idle]|].
  intros [[]|e] s Hs; (split; [|done || intros _]); try done.
  - destruct Hs as [n Hs]. right. by exists n.
  - destruct Hs as [n Hs]. by eapply held_begun.
Qed.
Lemma entry_at s t : read id (ps_mgr s) = Some t ->
  entry cfg ch id s = (if IsTerminal (ti_Status t) then ret Stop else enter pcfg w t) s.
Proof. intros Hr. unfold entry, get, bind at 1, Status. by rewrite Hr. Qed.
Lemma entry_idle : triple idle (entry cfg ch id) (fun r s => live s /\ (r = Ok Onward -> begun s)).
Proof.
  intros s (t & new & Hr & Hs). pose proof (running_about _ _ _ _ _ _ _ _ Hr) as Hi.
  pose proof (run_read _ _ _ _ _ _ _ _ Hr) as Hread.
  destruct (decide (ti_Status t = StatusPending)) as [Hp|Hp]; [|destruct (CurrentAttempt t) as [a|] eqn:Hc].
  - rewrite (entry_at s t Hread), Hp. change (IsTerminal StatusPending) with false. unfold enter. rewrite Hp.
    apply (first_entry t Hi). by exists t, new.
  - assert (Hh : held (at_Nonce a) (entry cfg ch id s).2) by (apply entry_held, fresh_held; by exists t, new, a).
    split; [right; by eexists|]. intros _. by eapply held_begun.
  - rewrite (entry_at s t Hread). destruct (IsTerminal _) eqn:Ht.
    { split; [left; by exists t, new|done]. }
    unfold enter. destruct (ti_Status t) eqn:Hst; try done; try (split; [left; by exists t, new|intros _; exists t; by rewrite Hst]).
    unfold rebroadcast. rewrite Hc. apply (first_entry t Hi). by exists t, new.
Qed.
End halves.

(** ** A settled intent is left alone *)
Section quiet.
Context `{Bolt M} `{TxSigner} (pcfg : ProcessorConfig) (w : World) (id : string) (sent0 : list (Tx * option ErrorClass)).
Hypothesis Hclock : forall n, w_now w n <> 0.
Open Scope act_scope.

Definition settled (s : PState M) : Prop :=
  wf_manager (ps_mgr s) /\ (exists t, read id (ps_mgr s) = Some t /\ IsTerminal (ti_Status t) = true) /\ ps_sent s = sent0.

Lemma settled_failed reason : triple settled (manage w (fun now => MarkFailed now id reason)) (fun _ => settled).
Proof.
  intros s (Hwf & (t & Hr & Ht) & Hs). unfold manage.
  pose proof (MarkFailed_at (w_now w (ps_calls s)) id reason _ t Hwf (Hclock _) Hr) as Hop. rewrite Ht in Hop.
  destruct (MarkFailed _ _ _ _) as [r m]. destruct Hop as (Hwf' & t' & Hr' & _ & -> & _). split; [done|]. split; [by exists t|done].
Qed.
Lemma settled_confirmed : triple settled (manage w (fun now => MarkConfirmed now id)) (fun _ => settled).
Proof.
  intros s (Hwf & (t & Hr & Ht) & Hs). unfold manage.
  pose proof (MarkConfirmed_at (w_now w (ps_calls s)) id _ t Hwf (Hclock _) Hr) as Hop.
  destruct (MarkConfirmed _ _ _) as [r m]. destruct Hop as (Hwf' & t' & Hr' & _ & Hst & _). split; [done|]. split; [|done].
  exists t'. split; [done|]. by destruct Hst as [->| ->].
Qed.
Lemma settled_attempt n f tip h s0 :
  triple settled (manage w (fun now => AppendAttempt now id (new_attempt n f tip h now) s0)) (fun r s => settled s /\ exists e, r = Err e).
Proof.
  intros s (Hwf & (t & Hr & Ht) & Hs). unfold manage, new_attempt.
  pose proof (AppendAttempt_at (w_now w (ps_calls s)) id n (Some (copyBig f)) (Some (copyBig tip)) h (w_now w (ps_calls s)) s0
    _ t Hwf (Hclock _) Hr) as Hop. cbv zeta in Hop. rewrite Ht in Hop.
  destruct (AppendAttempt _ _ _ _ _) as [r m]. destruct Hop as (Hwf' & t' & Hr' & _ & _ & -> & He). split; [|done].
  split; [done|]. split; [by exists t|done].
Qed.

Lemma settled_successor intent prev f tip : ti_ID intent = id ->
  triple settled (send_successor pcfg w intent prev f tip) (fun _ => settled).
Proof.
  intros Hid. unfold send_successor. rewrite Hid. apply (triple_bind _ _ _ (fun _ => settled)); [by apply triple_lift|].
  intros [tx h]. apply (triple_bind _ _ _ (fun _ _ => False)); [|by intros ? ? []].
  eapply triple_post; [apply settled_attempt|]. by intros r s [Hs [e ->]].
Qed.
Lemma settled_replace intent prev : ti_ID intent = id -> triple settled (replace pcfg w intent prev) (fun _ => settled).
Proof.
  intros Hid. unfold replace. apply (triple_bind _ _ _ (fun _ => settled)); [|intros base; by apply settled_successor].
  unfold base_caps. destruct (_ || _); [|by apply triple_ret].
  apply (triple_bind _ _ _ (fun _ => settled)); [by intros s Hs|intros k].
  apply (triple_bind _ _ _ (fun _ => settled)); [by apply triple_lift|intros est]. by apply triple_ret.
Qed.
Lemma settled_retry intent (m : st (PState M) goerr unit) : ti_ID intent = id ->
  triple settled m (fun _ => settled) -> triple settled (retry_after w intent m) (fun _ => settled).
Proof.
  intros Hid Hm. unfold retry_after, handleSubmitErr. rewrite Hid.
  apply (triple_bind _ _ _ (fun _ => settled)); [by apply triple_observe|]. intros [[]|e]; [by apply triple_ret|]. cbv zeta.
  apply (triple_bind _ _ _ (fun _ => settled)); [|intros []; by apply triple_ret].
  destruct (IsPermanent e); [|by apply triple_ret].
  apply (triple_bind _ _ _ (fun _ => settled)); [apply triple_observe, settled_failed|intros _; by apply triple_ret].
Qed.
Lemma settled_await last_ : triple settled (await pcfg w last_ id) (fun _ => settled).
Proof.
  unfold await. apply triple_get. intros s0 (Hwf & (t & Hr & Ht) & Hs). unfold Status. rewrite Hr.
  pose proof (wf_id _ _ (Hwf _ _ Hr)) as Hid.
  apply (triple_pre _ _ settled); [|intros ? ->; split; [done|]; split; [by exists t|done]].
  destruct (CurrentAttempt t) as [a|]; [|by apply triple_ret].
  apply (triple_bind _ _ _ (fun _ => settled)).
  { unfold waitWithTimeout. apply (triple_bind _ _ _ (fun _ => settled)); [by intros s Hs'|intros k; by apply triple_ret]. }
  assert (Hmark : forall A (m : st (PState M) goerr A), triple settled m (fun _ => settled) ->
    triple settled (run! observe m; ret Stop) (fun _ => settled)).
  { intros A m Hm. apply (triple_bind _ _ _ (fun _ => settled)); [by apply triple_observe|intros _; by apply triple_ret]. }
  intros [[]|]; [| | | |by apply triple_ret].
  - apply Hmark, settled_confirmed.
  - apply Hmark, settled_failed.
  - apply settled_retry; [done|by apply settled_successor].
  - destruct last_; [apply Hmark, settled_failed|apply settled_retry; [done|by apply settled_replace]].
Qed.
End quiet.

(** ** The invariant *)
Definition refused (x : sending) : Prop := sd_Refused x = Some ClassNoncePast.
(** The transaction of [x] is the one [t] describes. *)
Definition does (t : TxIntent) (x : sending) : Prop :=
  tx_To (sd_Tx x) = ti_To t /\ tx_Value (sd_Tx x) = copyBig (ti_Value t) /\ tx_Data (sd_Tx x) = ti_CallData t.
(** What was sent for [id] does what [t] describes, at the nonce of its current
    attempt unless it was refused as stale. *)
Definition carried (id : string) (t : TxIntent) (log : list sending) : Prop :=
  (forall x, x ∈ log -> sd_ID x = id -> does t x) /\
  ((forall x, x ∈ log -> sd_ID x = id -> refused x) \/
   exists a, ti_Status t <> StatusPending /\ CurrentAttempt t = Some a /\
     forall x, x ∈ log -> sd_ID x = id -> tx_Nonce (sd_Tx x) = at_Nonce a \/ refused x).

Section invariant.
Context `{Bolt M}.
Implicit Types (e : Engine M).

Definition waits e (id : string) : Prop := forall n, en_running e !! id = Some (Waiting n) -> begun id (en_ps e).
Record core e : Prop := {
  co_wf : wf_manager (en_mgr e);
  co_told : truthful (en_mgr e);
  co_known : forall x, x ∈ en_log e -> is_Some (read (sd_ID x) (en_mgr e));
  co_carried : forall id t, read id (en_mgr e) = Some t -> carried id t (en_log e);
  co_bound : forall ri x, en_identity e = Some ri -> x ∈ en_log e ->
    hexAddress (sd_Wallet x) = ri_Wallet ri /\ tx_ChainID (sd_Tx x) = ri_ChainID ri;
}.
Definition sound e : Prop := core e /\ forall id, waits e id.

(** Later on, no intent is lost, and a settled one stays as it was. *)
Record since e0 e : Prop := {
  si_lives : forall id t, read id (en_mgr e0) = Some t -> exists t', read id (en_mgr e) = Some t' /\ evolves false t t';
  si_log : forall x, x ∈ en_log e0 -> x ∈ en_log e;
  si_quiet : forall id t x, read id (en_mgr e0) = Some t -> IsTerminal (ti_Status t) = true ->
    x ∈ en_log e -> sd_ID x = id -> x ∈ en_log e0;
  si_identity : is_Some (en_identity e0) -> en_identity e = en_identity e0;
}.
Lemma since_self e : since e e.
Proof. split; try done. intros id t Hr. exists t. split; [done|apply evolves_refl]. Qed.
Lemma settled_same t t' : evolves false t t' -> IsTerminal (ti_Status t) = true -> t' = t.
Proof.
  intros He Ht. destruct (ti_Status t) eqn:Hs; try done; [by apply (ev_confirmed _ _ _ He)|by apply (ev_failed _ _ _ He)].
Qed.
Lemma since_compose e1 e2 e3 : since e1 e2 -> since e2 e3 -> since e1 e3.
Proof.
  intros [L1 G1 Q1 I1] [L2 G2 Q2 I2]. split.
  - intros id t Hr. destruct (L1 id t Hr) as (t1 & Hr1 & He1). destruct (L2 id t1 Hr1) as (t2 & Hr2 & He2).
    exists t2. split; [done|]. by apply (evolves_trans false false t t1).
  - intros x Hx. by apply G2, G1.
  - intros id t x Hr Ht Hx Hid. destruct (L1 id t Hr) as (t1 & Hr1 & He1). rewrite (settled_same _ _ He1 Ht) in Hr1.
    apply (Q1 id t x Hr Ht); [|done]. by apply (Q2 id t).
  - intros Hi. rewrite I2; [by apply I1|]. by rewrite I1.
Qed.
End invariant.

(** ** One process *)
Section process.
Context `{Bolt M} `{EthText} `{PoolWire} (cfg : Executor) (ch : Chain).
#[local] Instance process_signer : TxSigner := chain_signer ch.
Hypothesis Hclock : forall n, w_now (ch_world ch) n <> 0.
Open Scope act_scope.
Implicit Types (e : Engine M).

Abbreviation w := (ch_world ch).
Abbreviation pcfg := (processor_config cfg ch).

(** The process is the one its store is bound to. *)
Definition bound e : Prop :=
  forall ri, en_identity e = Some ri -> hexAddress (ch_wallet ch) = ri_Wallet ri /\ ch_id ch = ri_ChainID ri.
Definition kept e e' : Prop := sound e' /\ bound e' /\ since e e'.

Lemma kept_compose e1 e2 e3 : kept e1 e2 -> (sound e2 -> bound e2 -> kept e2 e3) -> kept e1 e3.
Proof. intros (Hs & Hb & Hi) Hk. destruct (Hk Hs Hb) as (Hs' & Hb' & Hi'). split_and!; [done|done|by eapply since_compose]. Qed.

(** What a half may do to its intent and to the trace. *)
Record half_ok {A} (id : string) (m : st (PState M) goerr A) (s : PState M) : Prop := {
  ho_moved : moved id s (m s).2;
  ho_none : read id (ps_mgr s) = None -> ps_sent (m s).2 = ps_sent s;
  ho_settled : forall t, read id (ps_mgr s) = Some t -> IsTerminal (ti_Status t) = true -> ps_sent (m s).2 = ps_sent s;
  ho_live : forall t, read id (ps_mgr s) = Some t -> idle pcfg id t (ps_sent s) s -> live pcfg id t (ps_sent s) (m s).2;
  ho_held : forall t n, read id (ps_mgr s) = Some t -> held pcfg id t (ps_sent s) n s -> held pcfg id t (ps_sent s) n (m s).2;
}.

Lemma start_running id t (s : PState M) : wf_manager (ps_mgr s) -> read id (ps_mgr s) = Some t ->
  running pcfg id t (ps_sent s) t [] (ps_mgr s) (ps_sent s).
Proof. intros Hwf Hr. split; try done. by rewrite app_nil_r. Qed.

Abbreviation noted id x := (mksending id (ch_wallet ch) x.1 x.2) (only parsing).

Lemma half_carries {A} id (m : st (PState M) goerr A) e t :
  core e -> half_ok id m (en_ps e) -> read id (en_mgr e) = Some t ->
  exists t' new, read id (ps_mgr (m (en_ps e)).2) = Some t' /\ ps_sent (m (en_ps e)).2 = ps_sent (en_ps e) ++ new /\
    Forall (fun x => carries pcfg t x.1) new /\ carried id t' (en_log e ++ ((fun x => noted id x) <$> new)).
Proof.
  intros Hc Hm Hr. pose proof (start_running id t _ (co_wf _ Hc) Hr) as Hrun. destruct (co_carried _ Hc _ _ Hr) as [Hdo Hn].
  assert (Hend : forall t' new, running pcfg id t (ps_sent (en_ps e)) t' new (ps_mgr (m (en_ps e)).2) (ps_sent (m (en_ps e)).2) ->
    (forall x, x ∈ en_log e ++ ((fun x => noted id x) <$> new) -> sd_ID x = id -> does t' x)).
  { intros t' new [_ _ P D _ C] x [Hx|(y & -> & Hy)%list_elem_of_fmap]%elem_of_app Hid.
    - unfold does, purpose in *. destruct (Hdo x Hx Hid) as (T & V & Da). split_and!; congruence.
    - rewrite Forall_forall in C. destruct (C y Hy) as (_ & T & V & Da & _). unfold does, purpose in *. simpl. split_and!; congruence. }
  assert (Hheld : forall n, held pcfg id t (ps_sent (en_ps e)) n (m (en_ps e)).2 ->
    (forall x, x ∈ en_log e -> sd_ID x = id -> tx_Nonce (sd_Tx x) = n \/ refused x) ->
    exists t' new, read id (ps_mgr (m (en_ps e)).2) = Some t' /\ ps_sent (m (en_ps e)).2 = ps_sent (en_ps e) ++ new /\
      Forall (fun x => carries pcfg t x.1) new /\ carried id t' (en_log e ++ ((fun x => noted id x) <$> new))).
  { intros n (t' & new & a & Hr' & Hf & Hp & Ha & Hna) Hold. pose proof (Hend _ _ Hr') as Hd. destruct Hr' as [_ R _ _ S C].
    exists t', new. split_and!; try done. split; [exact Hd|]. right. exists a. split_and!; [done|done|].
    intros x [Hx|(y & -> & Hy)%list_elem_of_fmap]%elem_of_app Hid; [rewrite Hna; by apply Hold|].
    rewrite Forall_forall in Hf. rewrite Hna. by apply (Hf y Hy). }
  destruct Hn as [Hn|(a & Hp & Ha & Hn)].
  - assert (idle pcfg id t (ps_sent (en_ps e)) (en_ps e)) as Hi by by exists t, [].
    destruct (ho_live _ _ _ Hm t Hr Hi) as [(t' & new & Hr' & Hf)|[n Hh]].
    + pose proof (Hend _ _ Hr') as Hd. destruct Hr' as [_ R _ _ S C]. exists t', new. split_and!; try done. split; [exact Hd|]. left.
      intros x [Hx|(y & -> & Hy)%list_elem_of_fmap]%elem_of_app Hid; [by apply Hn|].
      rewrite Forall_forall in Hf. by apply (Hf y Hy).
    + apply (Hheld n Hh). intros x Hx Hid. right. by apply Hn.
  - apply (Hheld (at_Nonce a)); [|done]. apply (ho_held _ _ _ Hm t _ Hr). exists t, [], a. by split_and!.
Qed.

Lemma perform_core {A} id (m : st (PState M) goerr A) e :
  core e -> bound e -> half_ok id m (en_ps e) ->
  let e' := (perform ch id m e).2 in
  core e' /\ bound e' /\ since e e' /\ (forall j, j <> id -> read j (en_mgr e') = read j (en_mgr e)).
Proof.
  intros Hc Hb Hm. destruct (ho_moved _ _ _ Hm) as (ops & new & Hops & Hown & Hsent).
  destruct (owned_run id ops (en_mgr e) (co_wf _ Hc) (co_told _ Hc) Hown) as (Hwf & Htold & Hother & Hev).
  rewrite <- Hops in *. cbv zeta.
  assert (He' : (perform ch id m e).2 =
    mkEngine (m (en_ps e)).2 (en_identity e) (en_running e) (en_log e ++ ((fun x => noted id x) <$> new))).
  { unfold perform. destruct (m (en_ps e)) as [r s']. simpl in *. by rewrite Hsent, drop_app_length. }
  rewrite He'. clear He'. assert (Hnew : read id (en_mgr e) = None -> new = []).
  { intros Hn. pose proof (ho_none _ _ _ Hm Hn) as Hs. rewrite Hsent in Hs. apply (app_inv_head (ps_sent (en_ps e))). by rewrite Hs, app_nil_r. }
  assert (Hin : forall x, x ∈ en_log e ++ ((fun x => noted id x) <$> new) -> x ∈ en_log e \/ sd_ID x = id).
  { intros x [Hx|(y & -> & Hy)%list_elem_of_fmap]%elem_of_app; [by left|by right]. }
  split_and!; [split| |split|]; cbn [en_ps en_log en_identity ps_mgr].
  - done.
  - done.
  - intros x Hx. assert (is_Some (read (sd_ID x) (en_mgr e))) as [t Hr].
    { apply elem_of_app in Hx as [Hx|(y & -> & Hy)%list_elem_of_fmap]; [by apply (co_known _ Hc)|]. simpl.
      destruct (read id (en_mgr e)) eqn:Hr; [done|]. rewrite (Hnew eq_refl) in Hy. by apply elem_of_nil in Hy. }
    destruct (Hev _ _ Hr) as (t' & -> & _). done.
  - intros j t' Hr'. destruct (decide (j = id)) as [->|Hj].
    + destruct (read id (en_mgr e)) as [t|] eqn:Hr; [|by rewrite Hother, Hr in Hr' by by right].
      destruct (half_carries id m e t Hc Hm Hr) as (t2 & new' & Hr2 & Hs & _ & Hca). rewrite Hr' in Hr2. injection Hr2 as <-.
      rewrite Hsent in Hs. by apply app_inv_head in Hs as <-.
    + rewrite Hother in Hr' by by left. destruct (co_carried _ Hc _ _ Hr') as [Hdo Hn].
      assert (Hback : forall x, x ∈ en_log e ++ ((fun x => noted id x) <$> new) -> sd_ID x = j -> x ∈ en_log e).
      { intros x Hx Hid. destruct (Hin x Hx); [done|congruence]. }
      split; [intros x Hx Hid; apply Hdo; by eauto|]. destruct Hn as [Hn|(a & Hp & Ha & Hn)]; [left|right; exists a]; by eauto 10.
  - intros ri x Hri [Hx|(y & -> & Hy)%list_elem_of_fmap]%elem_of_app; [by apply (co_bound _ Hc)|]. simpl.
    destruct (read id (en_mgr e)) as [t|] eqn:Hr; [|rewrite (Hnew eq_refl) in Hy; by apply elem_of_nil in Hy].
    destruct (half_carries id m e t Hc Hm Hr) as (t2 & new' & _ & Hs & Hf & _).
    rewrite Hsent in Hs. apply app_inv_head in Hs as <-. rewrite Forall_forall in Hf.
    destruct (Hb ri Hri) as [Hw Hi]. split; [done|]. rewrite <- Hi. apply (Hf y Hy).
  - exact Hb.
  - exact Hev.
  - intros x Hx. apply elem_of_app. by left.
  - intros j t x Hr Ht [Hx|(y & -> & Hy)%list_elem_of_fmap]%elem_of_app Hid; [done|]. simpl in Hid. subst j.
    pose proof (ho_settled _ _ _ Hm t Hr Ht) as Hs. rewrite Hsent in Hs. rewrite <- (app_nil_r (ps_sent (en_ps e))) in Hs at 2.
    apply app_inv_head in Hs as ->. by apply elem_of_nil in Hy.
  - done.
  - intros j Hj. apply Hother. by left.
Qed.

(** ** Turns *)
Lemma stop_ok id (s : PState M) : half_ok id (ret Stop) s.
Proof. split; try done; [by apply moved_same|]. intros t Hr Hi. by left. Qed.
Lemma entry_ok id s : wf_manager (ps_mgr s) -> half_ok id (entry cfg ch id) s.
Proof.
  intros Hwf. destruct (read id (ps_mgr s)) as [t|] eqn:Hr.
  - pose proof (Hwf _ _ Hr) as Ht. pose proof (entry_at cfg ch id s t Hr) as Hat. assert (Hin : forall t', read id (ps_mgr s) = Some t' -> t' = t) by congruence. split; [..|intros t' n Hr'%Hin; subst t'].
    + rewrite Hat. destruct (IsTerminal _); [by apply moved_same|]. by apply moving_enter, Ht.
    + congruence.
    + intros t' ->%Hin Hterm. by rewrite Hat, Hterm.
    + intros t' ->%Hin Hi. by apply (entry_idle cfg ch id t _ Hclock (wf_gas _ _ Ht) (wf_id _ _ Ht) s Hi).
    + intros Hh. by apply (entry_held cfg ch id t _ Hclock (wf_gas _ _ Ht) (wf_id _ _ Ht) n s Hh).
  - assert (entry cfg ch id s = (Ok Stop, s)) as E by (unfold entry, get, bind, Status; by rewrite Hr).
    split; rewrite ?E; try done; [by apply moved_same|congruence..].
Qed.
Lemma await_ok id last_ s : wf_manager (ps_mgr s) -> (is_Some (read id (ps_mgr s)) -> begun id s) ->
  half_ok id (await pcfg w last_ id) s.
Proof.
  intros Hwf Hbegun. pose proof (await_moved pcfg w id Hclock last_ s Hwf) as Hmoved. destruct (read id (ps_mgr s)) as [t|] eqn:Hr.
  - pose proof (Hwf _ _ Hr) as Ht.
    assert (Hin : forall t', read id (ps_mgr s) = Some t' -> t' = t) by congruence.
    split; [done|congruence| | |intros t' n Hr'%Hin; subst t'].
    + intros t' ->%Hin Hterm. apply (settled_await pcfg w id (ps_sent s) Hclock last_ s). split; [done|]. split; [by exists t|done].
    + intros t' ->%Hin Hi. apply (await_begun cfg ch id t (ps_sent s) Hclock (wf_gas _ _ Ht) (wf_id _ _ Ht) last_ s).
      split; [done|]. apply Hbegun. by eexists.
    + intros Hh. by apply (await_held pcfg w id t (ps_sent s) Hclock (wf_gas _ _ Ht) (wf_id _ _ Ht) n last_ s Hh).
  - assert (await pcfg w last_ id s = (Ok Stop, s)) as E by (unfold await, get, bind, Status; by rewrite Hr).
    split; rewrite ?E; try done; [by apply moved_same|congruence..].
Qed.

Lemma begun_read id (s s' : PState M) : read id (ps_mgr s') = read id (ps_mgr s) -> begun id s -> begun id s'.
Proof. intros E (t & Hr & Hp). exists t. by rewrite E. Qed.

(** What a step must keep of the goroutines. *)
Lemma kept_with_running e e' r :
  core e' -> bound e' -> since e e' ->
  (forall j n, r !! j = Some (Waiting n) -> begun j (en_ps e')) -> kept e (with_running r e').
Proof.
  intros [W T K C B] Hb [L G Q I] Hr. split; [|split; [done|by split]]. split; [by split|]. intros j n Hj. by apply Hr in Hj.
Qed.

Lemma turn_kept id e : sound e -> bound e -> kept e (turn cfg ch id e).
Proof.
  intros [Hc Hwait] Hb. unfold turn. destruct (en_running e !! id) as [g|] eqn:Hg; [|by split_and!; [|done|apply since_self]].
  set (half := match g with
               | Entering O => ret Stop
               | Entering (S _) => entry cfg ch id
               | Waiting n => await pcfg w (bool_decide (n = 0%nat)) id
               end).
  assert (Hhalf : half_ok id half (en_ps e)).
  { subst half. destruct g as [[|n]|n]; [apply stop_ok|apply entry_ok, Hc|]. apply await_ok; [apply Hc|]. intros _. by eapply Hwait. }
  destruct (perform_core id half e Hc Hb Hhalf) as (Hc' & Hb' & Hs & Hother).
  destruct (perform ch id half e) as [r e'] eqn:Hp. cbn [snd] in *.
  assert (Hrun : en_running e' = en_running e).
  { unfold perform in Hp. destruct (half (en_ps e)) as [r' s']. by injection Hp as _ <-. }
  rewrite Hrun. apply kept_with_running; [done..|].
  assert (Hold : forall j n, j <> id -> en_running e !! j = Some (Waiting n) -> begun j (en_ps e')).
  { intros j n Hj Hw. apply (begun_read j (en_ps e)); [by apply Hother|by eapply Hwait]. }
  intros j n. destruct (decide (j = id)) as [->|Hj].
  2: { destruct (match r with Ok _ => _ | Err _ => _ end) as [g'|]; [rewrite lookup_insert_ne by done|rewrite lookup_delete_ne by done];
       by apply Hold. }
  destruct r as [o|err]; [|by rewrite lookup_delete_eq].
  destruct (next_turn g o) as [g'|] eqn:Hnext; [rewrite lookup_insert_eq; intros [= ->]|by rewrite lookup_delete_eq].
  destruct g as [[|k]|k]; [by destruct o| |by destruct o]. destruct o; try done. subst half.
  unfold perform in Hp. destruct (entry cfg ch id (en_ps e)) as [r' s'] eqn:He. injection Hp as -> <-. cbn [en_ps].
  assert (is_Some (read id (en_mgr e))) as [t Hr].
  { destruct (read id (en_mgr e)) eqn:Hr; [done|]. unfold entry, get, bind, Status in He. by rewrite Hr in He. }
  pose proof (co_wf _ Hc _ _ Hr) as Ht. destruct (co_carried _ Hc _ _ Hr) as [_ [_|(a & Hp & Ha & _)]].
  - pose proof (entry_idle cfg ch id t (ps_sent (en_ps e)) Hclock (wf_gas _ _ Ht) (wf_id _ _ Ht) (en_ps e)) as Hi.
    rewrite He in Hi. apply Hi; [|done]. exists t, []. split; [by apply start_running, Hr; apply Hc|done].
  - pose proof (entry_held cfg ch id t (ps_sent (en_ps e)) Hclock (wf_gas _ _ Ht) (wf_id _ _ Ht) (at_Nonce a) (en_ps e)) as Hh.
    rewrite He in Hh. eapply held_begun, Hh. exists t, [], a. split_and!; try done. by apply start_running, Hr; apply Hc.
Qed.
Lemma turns_kept ids e : sound e -> bound e -> kept e (turns cfg ch ids e).
Proof.
  revert e. induction ids as [|id ids IH]; intros e Hs Hb; [split_and!; [done|done|apply since_self]|]. simpl.
  apply (kept_compose _ (turn cfg ch id e)); [by apply turn_kept|apply IH].
Qed.
Lemma spawn_kept id e : sound e -> bound e -> kept e (spawn cfg ch id e).
Proof.
  intros [Hc Hw] Hb. unfold spawn. case_bool_decide; [split_and!; [done|done|apply since_self]|].
  apply kept_with_running; [done|done|apply since_self|]. intros j n. destruct (decide (j = id)) as [->|Hj].
  - by rewrite lookup_insert_eq.
  - rewrite lookup_insert_ne by done. apply Hw.
Qed.

(** ** Calls *)
Abbreviation eact := (st (Engine M) payout_error).
Definition open_ e : Prop := sound e /\ bound e.
(** A call, on the state [e], leaves the state kept and its result in [Q]. *)
Definition keeps_at {A} e (m : eact A) (Q : result payout_error A -> Engine M -> Prop) : Prop :=
  kept e (m e).2 /\ Q (m e).1 (m e).2.
Definition keeps {A} (m : eact A) : Prop := forall e, open_ e -> kept e (m e).2.

Lemma kept_same e : open_ e -> kept e e.
Proof. intros [??]. split_and!; [done|done|apply since_self]. Qed.
Lemma kept_open e e' : kept e e' -> open_ e'.
Proof. by intros (?&?&?). Qed.
Lemma kept_then e1 e2 e3 : kept e1 e2 -> (open_ e2 -> kept e2 e3) -> kept e1 e3.
Proof. intros Hk H'. apply (kept_compose _ e2); [done|]. intros ??. by apply H'. Qed.

Lemma keeps_at_bind {A B} e (m : eact A) (k : A -> eact B) P Q :
  keeps_at e m P ->
  (forall a e', kept e e' -> P (Ok a) e' -> keeps_at e' (k a) Q) ->
  (forall err e', P (Err err) e' -> Q (Err err) e') -> keeps_at e (bind m k) Q.
Proof.
  intros [Hm HP] Hk He. unfold keeps_at, bind. destruct (m e) as [[a|err] e']; simpl in *; [|by split; [|apply He]].
  destruct (Hk a e' Hm HP) as [Hk' HQ]. split; [|done]. by apply (kept_then _ e').
Qed.
(** The next step after one of which only the state matters. *)
Lemma keeps_at_then {A B} e (m : eact A) (k : A -> eact B) Q :
  open_ e -> keeps m -> (forall a e', kept e e' -> keeps_at e' (k a) Q) -> (forall err e', Q (Err err) e') -> keeps_at e (bind m k) Q.
Proof. intros He Hm Hk HQ. apply (keeps_at_bind e m k (fun _ _ => True)); [by split; [apply Hm|]|by auto|by auto]. Qed.
Lemma keeps_at_ret {A} e (a : A) (Q : _ -> _ -> Prop) : open_ e -> Q (Ok a) e -> keeps_at e (ret a) Q.
Proof. intros He HQ. split; [by apply kept_same|done]. Qed.
Lemma keeps_at_fail {A} e err (Q : _ -> _ -> Prop) : open_ e -> Q (Err err) e -> keeps_at e (fail (A := A) err) Q.
Proof. intros He HQ. split; [by apply kept_same|done]. Qed.
Lemma keeps_at_update e f (Q : _ -> _ -> Prop) : kept e (f e) -> Q (Ok tt) (f e) -> keeps_at e (update f) Q.
Proof. by split. Qed.
Lemma keeps_at_lift {A E'} e (g : E' -> payout_error) (r : result E' A) : open_ e -> keeps_at e (lift g r) (fun _ _ => True).
Proof. intros He. destruct r; [by apply keeps_at_ret|by apply keeps_at_fail]. Qed.

Lemma keeps_turns ids : keeps (update (turns cfg ch ids)).
Proof. intros e [??]. by apply turns_kept. Qed.
Lemma keeps_spawn id : keeps (update (spawn cfg ch id)).
Proof. intros e [??]. by apply spawn_kept. Qed.
Lemma keeps_lift {A E'} (g : E' -> payout_error) (r : result E' A) : keeps (lift g r).
Proof. intros e He. by apply (keeps_at_lift e g r He). Qed.

(** A change of the store that leaves the waiters and the trace alone. *)
Lemma kept_store e ps : open_ e -> wf_manager (ps_mgr ps) -> truthful (ps_mgr ps) ->
  (forall id t, read id (en_mgr e) = Some t -> read id (ps_mgr ps) = Some t) -> kept e (with_ps ps e).
Proof.
  intros [[[W T K C B] Hw] Hb] W' T' Hsame. assert (Hsome : forall id, is_Some (read id (en_mgr e)) -> is_Some (read id (ps_mgr ps))).
  { intros id [t Hr]. exists t. by apply Hsame. }
  split_and!; [split; [split|]|done|split]; cbn [en_ps en_log en_identity en_running with_ps]; try done.
  - intros x Hx. by apply Hsome, K.
  - intros id t Hr. destruct (read id (en_mgr e)) as [u|] eqn:Hu; [apply C; rewrite Hu, <- Hr; symmetry; by apply Hsame|].
    assert (forall x, x ∈ en_log e -> sd_ID x <> id) as Hno.
    { intros x Hx <-. destruct (K x Hx) as [u Hu']. by rewrite Hu in Hu'. }
    split; [intros x Hx Hid|left; intros x Hx Hid]; by apply Hno in Hid.
  - intros id n Hr. destruct (Hw id n Hr) as (t & Ht & Hp). exists t. split; [by apply Hsame|done].
  - intros id t Hr. exists t. split; [by apply Hsame|apply evolves_refl].
Qed.
Lemma keeps_outside : keeps outside.
Proof. intros e He. apply kept_store; [done|apply He|apply He|done]. Qed.

(** A new intent. *)
Lemma kept_new e ps t : open_ e -> read (ti_ID t) (en_mgr e) = None -> wf_intent (ti_ID t) (stored t) ->
  ps_mgr ps = write t (en_mgr e) -> kept e (with_ps ps e).
Proof.
  intros He Hn Hw Hps. pose proof He as [[[W T K C B] _] _].
  apply kept_store; [done|rewrite Hps; by apply (write_advances (fun _ => false))| |]; rewrite Hps.
  - intros id x Hx. destruct (T id x Hx) as (u & Hu & Hu'). exists u. split; [|done].
    rewrite read_write, bool_decide_false; [done|]. congruence.
  - intros id u Hu. rewrite read_write, bool_decide_false; [done|]. congruence.
Qed.
Definition created (p : Params) (r : result payout_error (string * bool)) e : Prop :=
  (exists a, r = Ok a) -> exists t, read (ComputeID (pa_Kind p) (pa_KeyParams p)) (en_mgr e) = Some t /\
    ti_To t = pa_To p /\ ti_Value t = bytesValue (valueBytes (Some (default 0 (pa_Value p)))).
Lemma keeps_submit wrap p e : open_ e -> read (ComputeID (pa_Kind p) (pa_KeyParams p)) (en_mgr e) = None ->
  keeps_at e (on_ps wrap (manage w (fun now => Submit now p))) (created p).
Proof.
  intros He Hn. unfold keeps_at, on_ps, manage. generalize (w_now w (ps_calls (en_ps e))). intros now. unfold Submit.
  assert (Hsame : forall ps, ps_mgr ps = en_mgr e -> kept e (with_ps ps e)).
  { intros ps Hps. apply kept_store; [done|rewrite Hps; apply He..|by rewrite Hps]. }
  case_bool_decide as Hk; [split; [by apply Hsame|by intros [? [=]]]|].
  destruct (Z.eqb_spec (pa_GasLimit p) 0); [split; [by apply Hsame|by intros [? [=]]]|]. rewrite Hn. split.
  - apply (kept_new e _ (new_intent now p StatusPending [])); [done|done|by apply new_intent_wf|done].
  - intros _. eexists. cbn [fst snd en_ps with_ps ps_mgr]. by rewrite read_write, bool_decide_true.
Qed.
Lemma keeps_adopt wrap p h nonce at_ f tip e : open_ e -> read (ComputeID (pa_Kind p) (pa_KeyParams p)) (en_mgr e) = None ->
  keeps_at e (on_ps wrap (manage w (fun now => Adopt now p h nonce at_ f tip))) (created p).
Proof.
  intros He Hn. unfold keeps_at, on_ps, manage. generalize (w_now w (ps_calls (en_ps e))). intros now. unfold Adopt.
  assert (Hsame : forall ps, ps_mgr ps = en_mgr e -> kept e (with_ps ps e)).
  { intros ps Hps. apply kept_store; [done|rewrite Hps; apply He..|by rewrite Hps]. }
  case_bool_decide as Hk; [split; [by apply Hsame|by intros [? [=]]]|].
  destruct (Z.eqb_spec (pa_GasLimit p) 0); [split; [by apply Hsame|by intros [? [=]]]|].
  destruct (is_zero_bytes h); [split; [by apply Hsame|by intros [? [=]]]|]. rewrite Hn. split.
  - apply (kept_new e _ (new_intent now p StatusSubmitted [mkAttempt nonce f tip h (default now at_) None None None None]));
      [done|done|by apply new_intent_wf|done].
  - intros _. eexists. cbn [fst snd en_ps with_ps ps_mgr]. by rewrite read_write, bool_decide_true.
Qed.

(** What a caller may take from a dispatch, from a tracked payout, and from its
    outcome. *)
Definition asserted (to : string) (amount : option Z) t : Prop :=
  ti_To t = to /\ forall n, amount = Some n -> 0 <= n -> ti_Value t = Some n.
Definition sent_for {A} (id to : string) (amount : option Z) (r : result payout_error A) e : Prop :=
  (exists a, r = Ok a) -> exists t, read id (en_mgr e) = Some t /\ asserted to amount t /\ ti_Status t <> StatusFailed.
Definition tracked {A} (id to : string) (amount : option Z) (r : result payout_error A) e : Prop :=
  (exists a, r = Ok a) -> exists t, read id (en_mgr e) = Some t /\ asserted to amount t.
Definition told_of (id : string) (r : result payout_error PayoutOutcome) e : Prop :=
  forall o, r = Ok o -> exists t, read id (en_mgr e) = Some t /\ same_end o (outcome t).

Lemma spawn_ps id e : en_ps (spawn cfg ch id e) = en_ps e.
Proof. unfold spawn. by case_bool_decide. Qed.

Lemma asserted_later to amount e e' id t : kept e e' -> read id (en_mgr e) = Some t -> asserted to amount t ->
  exists t', read id (en_mgr e') = Some t' /\ asserted to amount t'.
Proof.
  intros (_ & _ & Hs) Hr [Ht Hv]. destruct (si_lives _ _ Hs id t Hr) as (t' & Hr' & He). exists t'. split; [done|].
  pose proof (ev_purpose _ _ _ He) as P. unfold purpose in P. split; [congruence|]. intros n Hn Hpos.
  rewrite <- (Hv n Hn Hpos). congruence.
Qed.
Lemma awaitBroadcast_keeps schedule id reused to amount e cur :
  open_ e -> read id (en_mgr e) = Some cur -> asserted to amount cur ->
  keeps_at e (awaitBroadcast cfg ch schedule id cur reused) (sent_for id to amount).
Proof.
  revert e cur. induction schedule as [|ids schedule IH]; intros e cur He Hr Has; cbn [awaitBroadcast].
  all: destruct (IsTerminal (ti_Status cur)) eqn:Ht;
    [case_bool_decide as Hs; [apply keeps_at_fail; [done|by intros [? [=]]]|apply keeps_at_ret; [done|intros _; by exists cur]]|].
  all: apply not_terminal in Ht as [_ Hf]; apply (keeps_at_bind e _ _ (fun _ e' => read id (en_mgr e') = Some cur));
    [apply keeps_at_update; [by apply keeps_spawn|by rewrite spawn_ps]| |by intros ? ? _ [? [=]]].
  all: intros _ e1 Hk Hr1; destruct (_ && _); [apply keeps_at_ret; [by eapply kept_open|intros _; by exists cur]|].
  - apply keeps_at_fail; [by eapply kept_open|by intros [? [=]]].
  - apply keeps_at_then; [by eapply kept_open|apply keeps_turns| |by intros ? ? [? [=]]]. intros _ e2 Hk2.
    destruct (asserted_later to amount e1 e2 id cur Hk2 Hr1 Has) as (cur' & Hr2 & Has').
    apply (keeps_at_bind e2 _ _ (fun r e' => r = Ok e2 /\ e' = e2)); [split; [by apply kept_same; eapply kept_open|done]| |by intros ? ? [[=] _]].
    intros _ _ _ [[= ->] ->]. unfold Status. rewrite Hr2. apply IH; [by eapply kept_open|done|done].
Qed.
Lemma keeps_at_get {B} e (k : Engine M -> eact B) Q : keeps_at e (k e) Q -> keeps_at e (bind get k) Q.
Proof. done. Qed.
Lemma Dispatch_keeps schedule cid to amount e : open_ e ->
  keeps_at e (Dispatch cfg ch schedule cid to amount) (sent_for (intentID cid) to amount).
Proof.
  intros He. unfold Dispatch, stop_with.
  assert (Hstop : forall msg, keeps_at e (fail (A := Dispatched) (PayoutErr (GPlain msg))) (sent_for (intentID cid) to amount)).
  { intros msg. apply keeps_at_fail; [done|by intros [? [=]]]. }
  destruct (blank cid); [apply Hstop|]. destruct amount as [amount|]; [|apply Hstop]. destruct (Z.leb_spec amount 0); [apply Hstop|].
  apply keeps_at_get. unfold Status. destruct (read (intentID cid) (en_mgr e)) as [t|] eqn:Hr.
  { destruct (_ || _) eqn:Hg; [apply Hstop|]. apply orb_false_iff in Hg as [Ht%negb_false_iff%bool_decide_eq_true Hv%negb_false_iff%bool_decide_eq_true].
    apply awaitBroadcast_keeps; [done|done|]. split; [done|]. by intros n [= <-] _. }
  apply (keeps_at_bind e _ _ (fun _ e' => read (intentID cid) (en_mgr e') = None));
    [split; [by apply keeps_outside|done]| |by intros ? ? _ [? [=]]]. intros n e1 Hk1 Hr1.
  destruct (ch_EstimateGas _ _ _ _) as [gas|err]; [|apply keeps_at_fail; [by eapply kept_open|by intros [? [=]]]].
  change (bind (lift _ (Ok gas)) ?k) with (k gas). cbv beta.
  destruct (gas =? 0); [apply keeps_at_fail; [by eapply kept_open|by intros [? [=]]]|]. cbv zeta.
  eapply keeps_at_bind; [apply keeps_submit; [by eapply kept_open|exact Hr1]| |by intros ? ? _ [? [=]]].
  intros [id' new] e2 Hk2 Hc. apply keeps_at_get. destruct Hc as (t & Hr2 & Ht & Hv); [by eexists|].
  change (ComputeID _ _) with (intentID cid) in Hr2. unfold Status. rewrite Hr2.
  apply awaitBroadcast_keeps; [by eapply kept_open|done|]. split; [done|]. intros n' [= <-] _. rewrite Hv.
  unfold bytesValue, valueBytes. simpl. rewrite be_Z_big_bytes, Z.abs_eq by lia. done.
Qed.
Lemma Track_keeps cid hash ref to amount e : open_ e ->
  keeps_at e (Track cfg ch cid hash ref to amount) (tracked (intentID cid) to amount).
Proof.
  intros He. unfold Track, stop_with. apply keeps_at_get. cbv zeta. unfold Status.
  destruct (read (intentID cid) (en_mgr e)) as [t|] eqn:Hr.
  - destruct (bool_decide (amount = None) || _ || _) eqn:Hg; [apply keeps_at_fail; [done|by intros [? [=]]]|].
    apply orb_false_iff in Hg as [[Hn%bool_decide_eq_false Ht]%orb_false_iff Hv].
    apply negb_false_iff, bool_decide_eq_true in Ht, Hv.
    apply (keeps_at_bind e _ _ (fun _ e' => read (intentID cid) (en_mgr e') = Some t)); [|
      intros _ e' Hk Hr'; apply keeps_at_ret; [by eapply kept_open|]; intros _; exists t; split; [done|]; split; [done|];
      intros n Hn'; by rewrite Hv|by intros ? ? _ [? [=]]].
    apply keeps_at_update; destruct (IsTerminal _); [by apply kept_same|by apply keeps_spawn|done|by rewrite spawn_ps].
  - destruct (is_zero_bytes _); [apply keeps_at_fail; [done|by intros [? [=]]]|].
    apply (keeps_at_bind e _ _ (fun _ e' => read (intentID cid) (en_mgr e') = None));
      [split; [by apply keeps_outside|done]| |by intros ? ? _ [? [=]]]. intros n e1 Hk1 Hr1.
    apply (keeps_at_bind e1 _ _ (fun _ e' => read (intentID cid) (en_mgr e') = None)); [|intros found e2 Hk2 Hr2|by intros ? ? _ [? [=]]].
    { destruct (ch_TransactionByHash _ _ _) as [tx| |err]; [destruct (_ && _)| |]; (split; [by apply kept_same; eapply kept_open|done]). }
    destruct (match found with Some tx => _ | None => _ end) as [nonce|];
      [|apply keeps_at_fail; [by eapply kept_open|by intros [? [=]]]].
    destruct (_ && _); [apply keeps_at_fail; [by eapply kept_open|by intros [? [=]]]|]. cbv zeta.
    eapply keeps_at_bind; [apply keeps_adopt; [by eapply kept_open|exact Hr2]| |by intros ? ? _ [? [=]]].
    intros [id' new] e3 Hk3 (t & Hr3 & Hto & Hv); [by eexists|]. change (ComputeID _ _) with (intentID cid) in Hr3. simpl in Hto, Hv.
    apply (keeps_at_bind e3 _ _ (fun _ e' => read (intentID cid) (en_mgr e') = Some t)).
    + apply keeps_at_update; [apply keeps_spawn; by eapply kept_open|by rewrite spawn_ps].
    + intros _ e4 Hk4 Hr4. apply keeps_at_ret; [by eapply kept_open|]. intros _. exists t. split; [done|]. split; [done|].
      intros k -> Hk. rewrite Hv. unfold bytesValue, valueBytes. simpl. rewrite be_Z_big_bytes. by rewrite Z.abs_eq.
    + by intros ? ? _ [? [=]].
Qed.

Lemma reread_keeps id e : open_ e -> keeps_at e (reread id) (told_of id).
Proof.
  intros He. unfold reread. apply keeps_at_get. unfold Status. destruct (read id (en_mgr e)) as [t|] eqn:Hr.
  - apply keeps_at_ret; [done|]. intros o [= <-]. by exists t.
  - by apply keeps_at_fail.
Qed.
Lemma kept_waiters e m : open_ e -> mg_intents m = mg_intents (en_mgr e) ->
  (forall id t, told id t m -> told id t (en_mgr e)) -> kept e (with_mgr m e).
Proof.
  intros He Hm Ht. assert (Hr : forall id, read id m = read id (en_mgr e)) by (intros id; unfold read; by rewrite Hm).
  pose proof He as [[[W T _ _ _] _] _]. apply kept_store; cbn [ps_mgr]; [done|intros id t; rewrite Hr; apply W| |intros id t; by rewrite Hr].
  intros id t Hin. destruct (T id t (Ht _ _ Hin)) as (u & Hu & Hu'). exists u. by rewrite Hr.
Qed.
Lemma register_kept id e : open_ e -> kept e (with_mgr (Wait_register id (en_mgr e)).2 e).
Proof.
  intros He. apply kept_waiters; [done|done|]. intros j t. unfold told, Wait_register. cbn [snd mg_waiters].
  destruct (decide (j = id)) as [->|Hj]; [rewrite lookup_insert_eq|by rewrite lookup_insert_ne].
  simpl. intros [Hin|Hin]%elem_of_app; [done|]. by apply list_elem_of_singleton in Hin.
Qed.
Lemma leave_kept id c e : open_ e -> kept e (with_mgr (Wait_leave id c (en_mgr e)) e).
Proof.
  intros He. apply kept_waiters; [done|done|]. intros j t. unfold told, Wait_leave. cbn [mg_waiters].
  set (ws := default [] (mg_waiters (en_mgr e) !! id)). assert (Hsub : Some t ∈ delete c ws -> Some t ∈ ws).
  { apply list_elem_of_delete_inv. }
  destruct (decide (j = id)) as [->|Hj].
  - destruct (delete c ws) as [|x l] eqn:Hd; [rewrite lookup_delete_eq|rewrite lookup_insert_eq]; simpl.
    + by intros Hin%elem_of_nil.
    + exact Hsub.
  - destruct (delete c ws); [by rewrite lookup_delete_ne|by rewrite lookup_insert_ne].
Qed.
Lemma Outcome_keeps before during cid e : open_ e ->
  keeps_at e (Outcome cfg ch before during cid) (told_of (intentID cid)).
Proof.
  intros He. unfold Outcome. cbv zeta. apply keeps_at_get. unfold Status. destruct (read (intentID cid) (en_mgr e)) as [t|] eqn:Hr.
  2: { by apply keeps_at_fail. }
  destruct (IsTerminal (ti_Status t)); [apply keeps_at_ret; [done|]; intros o [= <-]; by exists t|].
  apply keeps_at_then; [done|apply keeps_spawn| |done]. intros _ e1 Hk1. apply keeps_at_get. unfold Wait_read.
  destruct (read (intentID cid) (en_mgr e1)) as [t1|] eqn:Hr1; [|apply reread_keeps; by eapply kept_open].
  destruct (IsTerminal (ti_Status t1)) eqn:Ht1.
  { apply keeps_at_ret; [by eapply kept_open|]. intros o [= <-]. by exists t1. }
  apply keeps_at_then; [by eapply kept_open|apply keeps_turns| |done]. intros _ e2 Hk2. apply kept_open in Hk2. apply keeps_at_get.
  destruct (Wait_register (intentID cid) (en_mgr e2)) as [c m] eqn:Hreg.
  apply (keeps_at_bind e2 _ _ (fun _ _ => True)); [split; [|done]| |done].
  { pose proof (register_kept (intentID cid) e2 Hk2) as Hk. rewrite Hreg in Hk.
    apply (kept_then _ _ _ Hk). by apply keeps_turns. }
  intros _ e3 Hk3 _. apply kept_open in Hk3. apply keeps_at_get.
  destruct (Wait_receive (intentID cid) c (en_mgr e3)) as [t3|] eqn:Hgot.
  2: { apply (keeps_at_bind e3 _ _ (fun _ _ => True)); [split; [by apply leave_kept|done]| |done].
       intros _ e4 Hk4 _. apply reread_keeps. by eapply kept_open. }
  assert (told (intentID cid) t3 (en_mgr e3)) as Htold.
  { unfold Wait_receive in Hgot. destruct (_ !! c) as [[x|]|] eqn:Hx; try done. injection Hgot as ->. by eapply list_elem_of_lookup_2. }
  destruct (co_told _ (proj1 (proj1 Hk3)) _ _ Htold) as (u & Hu & _ & Ho).
  apply (keeps_at_bind e3 _ _ (fun _ e' => read (intentID cid) (en_mgr e') = Some u)); [split; [by apply leave_kept|done]| |done].
  intros _ e4 Hk4 Hr4. apply keeps_at_ret; [by eapply kept_open|]. intros o [= <-]. by exists u.
Qed.
Lemma Peek_keeps hash : keeps (Peek cfg ch hash).
Proof.
  intros e He. unfold Peek. cbv zeta. apply (keeps_at_then e _ _ (fun _ _ => True)); [done|apply keeps_outside| |done].
  intros n e1 Hk1%kept_open.
  destruct (ch_TransactionReceipt _ _ _) as [status block| |err]; [|by apply keeps_at_ret|by apply keeps_at_fail].
  destruct (negb _); [by apply keeps_at_ret|]. apply keeps_at_then; [done|apply keeps_outside| |done]. intros n' e2 Hk2%kept_open.
  apply keeps_at_then; [done|apply keeps_lift| |done]. intros head e3 Hk3%kept_open.
  destruct head, block; try by apply keeps_at_fail. destruct (_ || _); by apply keeps_at_ret.
Qed.
Lemma BalanceAt_keeps : keeps (BalanceAt ch).
Proof.
  intros e He. unfold BalanceAt. apply (keeps_at_then e _ _ (fun _ _ => True)); [done|apply keeps_outside| |done].
  intros n e1 Hk1%kept_open. split; [by apply keeps_lift|done].
Qed.

(** ** Opening *)
Lemma with_ps_same e : with_ps (en_ps e) e = e.
Proof. by destruct e. Qed.
Lemma reopened_sound e : sound e -> sound (reopened e) /\ since e (reopened e).
Proof.
  intros [[W T K C B] Hw]. split; [split; [split|]|split]; try done.
  - intros id t. unfold told, reopened. cbn [en_ps ps_mgr mg_waiters]. rewrite lookup_empty. by intros Hin%elem_of_nil.
  - intros id t Hr. exists t. split; [done|apply evolves_refl].
Qed.
Lemma ResumeAll_kept e : open_ e -> kept e (ResumeAll cfg ch e).
Proof.
  intros He. unfold ResumeAll. generalize (Resume (en_mgr e)). intros ids. revert e He.
  induction ids as [|id ids IH]; intros e He; [by apply kept_same|]. simpl.
  apply (kept_then _ (spawn cfg ch id e)); [by apply keeps_spawn|apply IH].
Qed.
Lemma no_intents (m : Manager M) id t : ListIntents (mkFilter [] [] None) m = [] -> read id m = Some t -> False.
Proof.
  intros Hl (x & Hx & ->)%fmap_Some. apply elem_of_ForEach in Hx.
  set (l := List.filter (fun t => matchFilter t (mkFilter [] [] None)) (decodeIntent <$> (ForEach (mg_intents m)).*2)).
  assert (decodeIntent x ∈ l) as Hin.
  { apply list_elem_of_In, filter_In. split; [|done]. apply list_elem_of_In, list_elem_of_fmap. exists x. split; [done|].
    apply list_elem_of_fmap. by exists (id, x). }
  destruct (sortByCreatedAt_spec l) as [_ Hp]. change (sortByCreatedAt l) with (ListIntents (mkFilter [] [] None) m) in Hp.
  rewrite Hl in Hp. rewrite <- Hp in Hin. by apply elem_of_nil in Hin.
Qed.
Lemma bind_identity e e' : sound e -> bindRegionalIdentity cfg ch e = Ok e' -> kept e e'.
Proof.
  intros Hs. pose proof Hs as [[W T K C B] Hw]. unfold bindRegionalIdentity. cbv zeta.
  destruct (_ && (_ || _)); [done|]. destruct (_ && (_ || _)); [done|]. destruct (_ && _ && _); [done|].
  destruct (en_identity e) as [prior|] eqn:Hi.
  - case_bool_decide as Hp; [|done]. intros [= <-]. split; [done|]. split; [|apply since_self].
    intros ri. rewrite Hi, Hp. by intros [= <-].
  - destruct (negb _) eqn:Hscoped; [intros [= <-]; split; [done|]; split; [|apply since_self]; intros ri; by rewrite Hi|].
    destruct (negb (bool_decide (ListIntents _ _ = []))) eqn:Hl; [done|]. intros [= <-].
    apply negb_false_iff, bool_decide_eq_true in Hl.
    assert (Hnone : forall x, x ∉ en_log e).
    { intros x Hx. destruct (K x Hx) as [t Hr]. apply (no_intents _ _ _ Hl Hr). }
    split_and!; [split; [split|]|..]; cbn [en_ps en_log en_identity en_running]; try done.
    + intros ri x _ Hx. by apply Hnone in Hx.
    + by intros ri [= <-].
    + split; try done; [intros id t Hr; exists t; split; [done|apply evolves_refl]|intros [? [=]]].
      by rewrite Hi in *.
Qed.
Lemma OpenWith_keeps e : sound e ->
  let '(r, e') := OpenWith cfg ch e in sound e' /\ since e e' /\ match r with Ok _ => bound e' | Err _ => en_running e' = ∅ end.
Proof.
  intros He. destruct (reopened_sound e He) as [Hs Hi]. unfold OpenWith. destruct (ch_id ch =? 0); [done|].
  destruct (bindRegionalIdentity cfg ch (reopened e)) as [e'|err] eqn:Hb; [|done].
  apply (bind_identity _ _ Hs) in Hb. pose proof (ResumeAll_kept e' (kept_open _ _ Hb)) as Hk.
  destruct (kept_then _ _ _ Hb (fun _ => Hk)) as (Hs' & Hb' & Hi'). split; [done|]. split; [by eapply since_compose|done].
Qed.
End process.
