(* ===== verification/PayoutSpec.v ===== *)
(** * What the payout executor guarantees

    Over the lives of a store, and over the days of a site on which the commands
    of the executor meet the controller: a payout is sent at one nonce, the
    commands that confirm and send report only a confirmed one paid, and what
    becomes of failed payouts, of regional ones and of an idle round.  What an
    operator reports himself is noted apart and taken on his word. *)
From Stdlib Require Import Ascii.
From S2P Require Import Prelude.
From S2P Require Import GoBytes.
From S2P Require Import GoStrings.
From S2P Require Import Bolt.
From S2P Require Import ChainErrors.
From S2P Require Import Actions.
From S2P Require Import Types.
From S2P Require Import WorkLedger.
From S2P Require Import TxIntent.
From S2P Require Import TxProcessor.
From S2P Require Import TxIntentSpec.
From S2P Require Import PoolTypes.
From S2P Require Import PoolStore.
From S2P Require Import PoolRegional.
From S2P Require Import PoolIntents.
From S2P Require Import PoolInv.
From S2P Require Import PayoutEngine.
From S2P Require Import PayoutExecutor.
From S2P Require Import PayoutInv.

Definition clocked (ch : Chain) : Prop := forall n, w_now (ch_world ch) n <> 0.

(** ** Lives of a store *)
Section lives.
Context `{Bolt M} `{EthText} `{PoolWire}.
Implicit Types (e : Engine M) (p : Executor * Chain * list call).

Lemma make_kept cfg ch e c : clocked ch -> open_ ch e -> kept ch e (make cfg ch e c).
Proof.
  intros Hc He. destruct c; simpl.
  - by apply Dispatch_keeps.
  - by apply Track_keeps.
  - by apply Outcome_keeps.
  - by apply Peek_keeps.
  - by apply BalanceAt_keeps.
  - destruct He. by apply turn_kept.
Qed.
Lemma life_sound e p : clocked p.1.2 -> sound e -> sound (life e p) /\ since e (life e p).
Proof.
  destruct p as [[cfg ch] calls]. simpl. intros Hc Hs. unfold life. simpl. pose proof (OpenWith_keeps cfg ch e Hs) as Ho.
  destruct (OpenWith cfg ch e) as [[[]|err] e1]; destruct Ho as (Hs1 & Hi1 & Hb1); [|done].
  assert (kept ch e1 (foldl (make cfg ch) e1 calls)) as (Hs2 & _ & Hi2).
  { assert (open_ ch e1) as He by done. clear Hs1 Hi1 Hb1 Hs. revert e1 He. induction calls as [|c calls IH]; intros e1 He; [by apply kept_same|].
    simpl. apply (kept_then ch _ (make cfg ch e1 c)); [by apply make_kept|apply IH]. }
  unfold Close. destruct (reopened_sound _ Hs2) as [Hs3 Hi3]. split; [done|]. eapply since_compose; [done|]. by eapply since_compose.
Qed.
Lemma lives_sound e ps : Forall (fun p => clocked p.1.2) ps -> sound e -> sound (lives e ps) /\ since e (lives e ps).
Proof.
  intros Hps. revert e. induction Hps as [|p ps Hp Hps IH]; intros e He; [split; [done|apply since_self]|]. simpl.
  destruct (life_sound e p Hp He) as [Hs Hi]. destruct (IH _ Hs) as [Hs' Hi']. split; [done|]. by eapply since_compose.
Qed.
Lemma empty_sound : sound (empty_store (M := M)).
Proof.
  unfold empty_store. split; [split|]; cbn [en_ps en_log en_identity ps_mgr].
  - intros id t. unfold read. simpl. by rewrite lookup_empty.
  - intros id t. unfold told. simpl. rewrite lookup_empty. by intros Hin%elem_of_nil.
  - by intros x Hx%elem_of_nil.
  - intros id t. unfold read. simpl. by rewrite lookup_empty.
  - done.
  - intros id n. cbn [en_running]. by rewrite lookup_empty.
Qed.

(** C7: Whatever sequence of processes used a store of the payout engine, with whatever keystores, nodes, crashes between calls
    and interleavings of the processing goroutines: two transactions sent for one payout move the same amount to the same
    recipient, and carry the same nonce unless the node refused one as stale, so that of those one wallet signed the chain
    can include at most one; and in a store bound to a pool all are sent from the one wallet it is bound to, on the one chain. *)
Theorem payout_sent_once (ps : list (Executor * Chain * list call)) :
  Forall (fun p => forall n, w_now (ch_world p.1.2) n <> 0) ps ->
  let e := lives (empty_store (M := M)) ps in
  forall x y, x ∈ en_log e -> y ∈ en_log e -> sd_ID x = sd_ID y ->
    tx_To (sd_Tx x) = tx_To (sd_Tx y) /\ tx_Value (sd_Tx x) = tx_Value (sd_Tx y) /\ tx_Data (sd_Tx x) = tx_Data (sd_Tx y) /\
    (sd_Refused x <> Some ClassNoncePast -> sd_Refused y <> Some ClassNoncePast -> tx_Nonce (sd_Tx x) = tx_Nonce (sd_Tx y)) /\
    (forall ri, en_identity e = Some ri ->
      hexAddress (sd_Wallet x) = ri_Wallet ri /\ hexAddress (sd_Wallet y) = ri_Wallet ri /\
      tx_ChainID (sd_Tx x) = ri_ChainID ri /\ tx_ChainID (sd_Tx y) = ri_ChainID ri).
Proof.
  intros Hps e x y Hx Hy Hid. destruct (lives_sound _ ps Hps empty_sound) as [[[_ _ K C B] _] _]. fold e in K, C, B.
  destruct (K x Hx) as [t Hr]. destruct (C _ _ Hr) as [Hdo Hn].
  destruct (Hdo x Hx eq_refl) as (-> & -> & ->). destruct (Hdo y Hy (eq_sym Hid)) as (-> & -> & ->). split_and!; try done.
  - intros Nx Ny. destruct Hn as [Hn|(a & _ & _ & Hn)]; [by destruct (Nx (Hn x Hx eq_refl))|].
    destruct (Hn x Hx eq_refl) as [->|?]; [|done]. by destruct (Hn y Hy (eq_sym Hid)) as [->|?].
  - intros ri Hri. destruct (B ri x Hri Hx), (B ri y Hri Hy). by split_and!.
Qed.
End lives.

(** ** Days of a site *)
Section reports.
Context `{Bolt M} `{EthText} `{PoolWire}.
Implicit Types (e : Engine M) (r : StatusReport).

Definition listed (i : PayoutIntent) t : Prop :=
  asserted (HexToAddress (pi_DestinationAddress i)) (SetString10 (TrimSpace (pi_AmountWei i))) t.

(** An automatic report made at [e], of what was begun at [e0]; an operator's is
    taken on his word. *)
Record warranted e0 e (i : PayoutIntent) (status hash : string) : Prop := {
  ju_paid : status = "paid" -> exists t, read (intentID (pi_ID i)) (en_mgr e) = Some t /\ listed i t /\
    ti_Status t = StatusConfirmed /\ oc_TxHash (outcome t) = hash;
  ju_alive : status <> "failed" -> forall t, read (intentID (pi_ID i)) (en_mgr e0) = Some t -> ti_Status t <> StatusFailed;
}.
Definition justified e0 e r : Prop :=
  match r with Automatic i status hash => warranted e0 e i status hash | Marked _ _ _ => True end.
Lemma justified_later e0 e1 e2 e3 r : since e0 e1 -> justified e1 e2 r -> since e2 e3 -> justified e0 e3 r.
Proof.
  intros H01 Hj H23. destruct r as [i status hash|]; [|done]. destruct Hj as [P A]. split.
  - intros (t & Hr & Hl & Hs & Ho)%P. destruct (si_lives _ _ H23 _ _ Hr) as (t' & Hr' & He).
    rewrite (ev_confirmed _ _ _ He Hs) in Hr'. by exists t.
  - intros Hn t Hr Hf. destruct (si_lives _ _ H01 _ _ Hr) as (t' & Hr' & He).
    rewrite (ev_failed _ _ _ He Hf eq_refl) in Hr'. by apply (A Hn t).
Qed.
Lemma justified_failed e0 e i hash : justified e0 e (Automatic i "failed" hash).
Proof. by split. Qed.

(** Later at the site. *)
Record later (x x' : Site M) : Prop := {
  la_since : since (x_engine x) (x_engine x');
  la_reports : exists new, x_reported x' = x_reported x ++ new /\ Forall (justified (x_engine x) (x_engine x')) new;
}.
Lemma later_same x : later x x.
Proof. split; [apply since_self|]. exists []. by rewrite app_nil_r. Qed.
Lemma later_compose x1 x2 x3 : later x1 x2 -> later x2 x3 -> later x1 x3.
Proof.
  intros [S1 (n1 & R1 & J1)] [S2 (n2 & R2 & J2)]. split; [by eapply since_compose|]. exists (n1 ++ n2).
  rewrite R2, R1, <- app_assoc. split; [done|]. apply Forall_app. split.
  - eapply Forall_impl; [exact J1|]. intros r Hr. eapply justified_later; [apply since_self|done|done].
  - eapply Forall_impl; [exact J2|]. intros r Hr. eapply justified_later; [done|done|apply since_self].
Qed.
End reports.

Section commands.
Context `{Bolt M} `{EthText} `{PoolWire} (cfg : Executor) (ch : Chain) (net : Net) (x0 : Site M).
Hypothesis Hclock : clocked ch.
Open Scope act_scope.
Abbreviation xact := (st (Site M) string).

(** With the engine [held] open, or at rest. *)
Definition mode (held : bool) (e : Engine M) : Prop := if held then open_ ch e else sound e /\ en_running e = ∅.
Definition from (held : bool) (x : Site M) : Prop := mode held (x_engine x) /\ later x0 x.

Lemma mode_sound held e : mode held e -> sound e.
Proof. by destruct held; intros []. Qed.
(** Nothing but the database, the records and the counter changed. *)
Lemma from_same held x x' : x_engine x' = x_engine x -> x_reported x' = x_reported x -> from held x -> from held x'.
Proof. intros He Hr [Hm [S R]]. split; [by rewrite He|]. split; [by rewrite He|]. by rewrite He, Hr. Qed.
Lemma from_kept held e' x : mode held e' -> since (x_engine x) e' -> later x0 x ->
  from held (mkSite (x_db x) e' (x_repo x) (x_calls x) (x_reported x)).
Proof.
  intros Hm Hs Hl. split; [done|]. eapply later_compose; [exact Hl|]. split; [done|]. exists []. by rewrite app_nil_r.
Qed.

(** A call of the engine, at a state. *)
Lemma from_engine {A} (m : st (Engine M) payout_error A) (Q : A -> Engine M -> Prop) x :
  from true x -> keeps_at ch (x_engine x) m (fun r e => forall a, r = Ok a -> Q a e) ->
  from true (on_engine m x).2 /\ forall a, (on_engine m x).1 = Ok a -> Q a (x_engine (on_engine m x).2).
Proof.
  intros [Hm Hl] [Hk HQ]. unfold on_engine. destruct (m (x_engine x)) as [r e']. simpl in *. split.
  - destruct Hk as (Hs & Hb & Hi). by apply from_kept.
  - destruct r as [a|err]; [|done]. intros ? [= <-]. by apply HQ.
Qed.
Lemma engine_then {A B} (m : xact A) (Q : A -> Site M -> Prop) (k : A -> xact B) held x :
  from held (m x).2 -> (forall a, (m x).1 = Ok a -> Q a (m x).2) ->
  (forall a x', from held x' -> Q a x' -> pres_at (from held) (k a) (fun _ => True) x') ->
  pres_at (from held) (bind m k) (fun _ => True) x.
Proof.
  intros Hm HQ Hk. unfold pres_at, bind. destruct (m x) as [[a|err] x']; simpl in *; [|done]. apply Hk; [done|by apply HQ].
Qed.
Lemma pres_engine {A} (m : st (Engine M) payout_error A) : keeps ch m -> pres (from true) (on_engine m) (fun _ => True).
Proof.
  intros Hm x Hx. split; [|done]. apply (from_engine m (fun _ _ => True)); [done|]. split; [by apply Hm, Hx|done].
Qed.
Lemma pres_turns held ids : pres (from held) (on_engine (update (turns cfg ch ids))) (fun _ => True).
Proof.
  destruct held; [by apply pres_engine, keeps_turns|]. intros x [[Hs Hr] Hl]. split; [|done].
  unfold on_engine, update. cbn [fst snd]. assert (turns cfg ch ids (x_engine x) = x_engine x) as ->.
  { unfold turns. induction ids as [|id ids IH]; [done|]. cbn [foldl].
    assert (turn cfg ch id (x_engine x) = x_engine x) as -> by (unfold turn; by rewrite Hr, lookup_empty). done. }
  apply from_kept; [done|apply since_self|done].
Qed.
Lemma pres_silent held f : (forall x, x_engine (f x) = x_engine x /\ x_reported (f x) = x_reported x) ->
  pres (from held) (update (E := string) f) (fun _ => True).
Proof. intros Hf x Hx. split; [|done]. destruct (Hf x). by eapply from_same. Qed.
Lemma pres_next_call held : pres (from held) next_call (fun _ => True).
Proof. intros x Hx. split; [|done]. by apply (from_same held x). Qed.
Lemma pres_request held {A} (serve : Z -> PoolDB M -> presult A * PoolDB M) :
  pres (from held) (request cfg ch net serve) (fun _ => True).
Proof.
  unfold request. apply pres_seq; [apply pres_next_call|intros n]. apply pres_seq; [apply pres_turns|intros _].
  assert (forall m : presult A -> xact A, (forall r, pres (from held) (m r) (fun _ => True)) ->
    pres (from held) (do! r <- (fun x => let '(r, db) := serve (nt_now net n) (x_db x) in
                         (Ok r, mkSite db (x_engine x) (x_repo x) (x_calls x) (x_reported x))); m r) (fun _ => True)) as Hs.
  { intros m Hm. apply pres_seq; [|done].
    intros x Hx. destruct (serve _ _) as [r db]. split; [|done]. by apply (from_same held x). }
  destruct (nt_fate net n); [apply Hs; intros r|apply pres_fail|apply Hs; intros r]; act_auto.
Qed.
Hint Resolve pres_next_call pres_request : act.

Lemma pres_answered held intents : pres (from held) (answered cfg intents) (fun _ => True).
Proof. unfold answered. act_auto. Qed.
Hint Resolve pres_answered : act.
Lemma pres_list held opts : pres (from held) (list_payouts cfg ch net opts) (fun _ => True).
Proof. unfold list_payouts. act_auto. Qed.
Lemma pres_claim held opts : pres (from held) (ClaimPayoutIntents cfg ch net opts) (fun _ => True).
Proof. unfold ClaimPayoutIntents. act_auto. Qed.
Lemma pres_renew held l : pres (from held) (RenewPayoutIntents cfg ch net l) (fun _ => True).
Proof. unfold RenewPayoutIntents. act_auto. Qed.
Lemma pres_give_back held l ids : pres (from held) (ReleasePayoutIntents cfg ch net l ids) (fun _ => True).
Proof. unfold ReleasePayoutIntents. act_auto. Qed.
Lemma pres_requeue held ids : pres (from held) (RequeuePayoutIntents cfg ch net ids) (fun _ => True).
Proof. unfold RequeuePayoutIntents. act_auto. Qed.
Lemma pres_status held ids s l ref h why : pres (from held) (UpdatePayoutIntentStatus cfg ch net ids s l ref h why) (fun _ => True).
Proof. unfold UpdatePayoutIntentStatus. act_auto. Qed.
Hint Resolve pres_list pres_claim pres_renew pres_give_back pres_requeue pres_status : act.
Lemma pres_release_held held l : pres (from held) (releaseLeaseIfHeld cfg ch net l) (fun _ => True).
Proof. unfold releaseLeaseIfHeld. act_auto. Qed.
Lemma pres_release_ids held l ids : pres (from held) (releaseLeaseIDs cfg ch net l ids) (fun _ => True).
Proof. unfold releaseLeaseIDs. act_auto. Qed.
Lemma pres_now held : pres (from held) (time_now net) (fun _ => True).
Proof. unfold time_now. act_auto. Qed.
Hint Resolve pres_release_held pres_release_ids pres_now : act.
Lemma pres_backed_off held phase id : pres (from held) (backed_off cfg net phase id) (fun _ => True).
Proof. unfold backed_off. act_auto. Qed.
Hint Resolve pres_backed_off : act.
Lemma pres_each held {A B} (f : A -> xact B) items :
  (forall a, pres (from held) (f a) (fun _ => True)) -> pres (from held) (each f items) (fun _ => True).
Proof. intros Hf. induction items as [|a items IH]; cbn [each]; act_auto; apply Hf. Qed.
Lemma pres_triage held intent : pres (from held) (triage cfg net intent) (fun _ => True).
Proof. unfold triage. act_auto. Qed.
Lemma pres_dispatch_load held dry opts : pres (from held) (loadDispatchIntents cfg ch net dry opts) (fun _ => True).
Proof. unfold loadDispatchIntents. act_auto. Qed.
Lemma pres_auto_requeue held dry opts : pres (from held) (autoRequeueFailed cfg ch net dry opts) (fun _ => True).
Proof.
  unfold autoRequeueFailed. act_auto; apply pres_each; intros i; act_auto.
Qed.
Lemma pres_persist held res : pres (from held) (persistReconcileState net res) (fun _ => True).
Proof. unfold persistReconcileState. apply pres_seq; [auto with act|intros n]. by apply pres_silent. Qed.
Hint Resolve pres_triage pres_dispatch_load pres_auto_requeue pres_persist : act.

(** *** Reports *)
Lemma pres_update_all held ids s l ref h why (k : xact IntentUpdate) : pres (from held) k (fun _ => True) ->
  pres (from held) (run! UpdatePayoutIntentStatus cfg ch net ids s l ref h why; k) (fun _ => True).
Proof. intros Hk. apply pres_seq; [auto with act|done]. Qed.
Lemma note_at r x : from true x -> justified (x_engine x) (x_engine x) r ->
  pres_at (from true) (note r) (fun _ => True) x.
Proof.
  intros [Hm Hl] Hj. split; [|done]. split; [exact Hm|]. eapply later_compose; [exact Hl|]. split; [apply since_self|].
  exists [r]. split; [done|]. by apply Forall_singleton.
Qed.
Lemma pres_mark held ids s h : pres (from held) (note (Marked ids s h)) (fun _ => True).
Proof.
  intros x [Hm Hl]. split; [|done]. split; [exact Hm|]. eapply later_compose; [exact Hl|]. split; [apply since_self|].
  exists [Marked ids s h]. split; [done|]. by apply Forall_singleton.
Qed.
Hint Resolve pres_mark : act.
Lemma report_at intent s l ref h why x : from true x -> justified (x_engine x) (x_engine x) (Automatic intent s h) ->
  pres_at (from true) (report cfg ch net intent s l ref h why) (fun _ => True) x.
Proof.
  intros Hx Hj. unfold report. eapply (pres_at_bind (from true) (from true) _ _ (fun _ => True)); [by apply note_at|done|].
  intros _ x' _ Hx'. assert (pres (from true) (run! UpdatePayoutIntentStatus cfg ch net [pi_ID intent] s l ref h why; ret tt) (fun _ => True)) as Hp by act_auto.
  by apply Hp.
Qed.
Lemma report_then {A} intent s l ref h why (a : A) x : from true x -> justified (x_engine x) (x_engine x) (Automatic intent s h) ->
  pres_at (from true) (run! report cfg ch net intent s l ref h why; ret a) (fun _ => True) x.
Proof.
  intros Hx Hj. eapply (pres_at_bind (from true) (from true)); [by apply report_at|done|]. intros _ x' _ Hx'. by apply pres_at_ret.
Qed.

Definition found (dry : bool) (intent : PayoutIntent) (o : PayoutOutcome) (e : Engine M) : Prop :=
  dry = false -> oc_State o = StatePaid -> justified e e (Automatic intent "paid" (oc_TxHash o)).
Lemma outcome_found intent e o t1 t :
  read (intentID (pi_ID intent)) (en_mgr e) = Some t -> purpose t = purpose t1 -> same_end o (outcome t) ->
  asserted (HexToAddress (pi_DestinationAddress intent)) (SetString10 (TrimSpace (pi_AmountWei intent))) t1 ->
  oc_State o = StatePaid -> justified e e (Automatic intent "paid" (oc_TxHash o)).
Proof.
  intros Hr P (Es & Eh & _) [Ht Hv] Hs. unfold purpose in P. assert (ti_Status t = StatusConfirmed) as Hc.
  { rewrite Es in Hs. unfold outcome in Hs. by destruct (CurrentAttempt t), (ti_Status t). }
  split.
  - intros _. exists t. split_and!; try done. assert (ti_To t = ti_To t1 /\ ti_Value t = ti_Value t1) as [E1 E2] by (split; congruence).
    unfold listed, asserted. rewrite E1, E2. by split.
  - intros _ u Hu. rewrite Hr in Hu. injection Hu as <-. by rewrite Hc.
Qed.
Lemma payoutOutcome_at dry intent before during e : open_ ch e ->
  keeps_at ch e (payoutOutcome cfg ch dry intent before during) (fun r e' => forall o, r = Ok o -> found dry intent o e').
Proof.
  intros He. unfold payoutOutcome. destruct dry.
  { split; [by apply Peek_keeps|]. by intros o _ [=]. }
  set (m := Track _ _ _ _ _ _ _). assert (keeps_at ch e (observe m) (fun r e' => forall b, r = Ok (Ok b) -> exists t,
    read (intentID (pi_ID intent)) (en_mgr e') = Some t /\
    asserted (HexToAddress (pi_DestinationAddress intent)) (SetString10 (TrimSpace (pi_AmountWei intent))) t)) as Ht.
  { destruct (Track_keeps cfg ch (pi_ID intent) (pi_TxHash intent) (pi_ExternalRef intent)
      (HexToAddress (pi_DestinationAddress intent)) (SetString10 (TrimSpace (pi_AmountWei intent))) e He) as [Hk Ht].
    fold m in Hk, Ht. unfold keeps_at, observe. destruct (m e) as [r e']. simpl in *. split; [done|].
    intros b [= ->]. apply Ht. by eexists. }
  eapply keeps_at_bind; [exact Ht| |done]. intros [b|err] e1 Hk1%kept_open Hb.
  - destruct (Hb b eq_refl) as (t1 & Hr1 & Ha).
    destruct (Outcome_keeps cfg ch Hclock before during (pi_ID intent) e1 Hk1) as [Hk2 Ho].
    split; [done|]. intros o Hr _ Hpaid. destruct (Ho o Hr) as (t & Hr2 & Hsame).
    destruct (si_lives _ _ (proj2 (proj2 Hk2)) _ _ Hr1) as (t' & Hr' & He'). rewrite Hr2 in Hr'. injection Hr' as <-.
    by apply (outcome_found intent _ _ t1 t); [|apply (ev_purpose _ _ _ He')| | |].
  - destruct err; [|by apply keeps_at_fail..]. apply keeps_at_ret; [done|]. intros o [= <-] _. done.
Qed.
Lemma pres_confirm_one dry intent : pres (from true) (confirm_one cfg ch net dry intent) (fun _ => True).
Proof.
  unfold confirm_one. apply pres_seq; [auto with act|intros off]. cbv zeta. destruct off; [by apply pres_ret|].
  destruct (negb _); [by apply pres_ret|]. destruct (blank _); [by apply pres_ret|]. apply pres_seq; [auto with act|intros n].
  intros x Hx. set (m := payoutOutcome _ _ _ _ _ _).
  destruct (from_engine m (found dry intent) x Hx) as [Hx1 Ho]; [by apply payoutOutcome_at, Hx|].
  apply (engine_then _ (fun o x' => found dry intent o (x_engine x'))); [done|done|]. intros o x1 Hx' Ho'.
  destruct (oc_State o) eqn:Hs.
  - by apply pres_at_ret.
  - destruct dry; [by apply pres_at_ret|]. apply report_then; [done|]. by apply Ho'.
  - destruct dry; [by apply pres_at_ret|]. apply report_then; [done|]. by apply justified_failed.
Qed.
Lemma pres_send_one l intent : pres (from true) (send_one cfg ch net l intent) (fun _ => True).
Proof.
  unfold send_one. apply pres_seq; [auto with act|intros n]. intros x Hx.
  set (m := Dispatch _ _ _ _ _ _).
  destruct (from_engine m (fun d e => exists t, read (intentID (pi_ID intent)) (en_mgr e) = Some t /\ ti_Status t <> StatusFailed) x Hx)
    as [Hx1 Hd].
  { destruct (Dispatch_keeps cfg ch Hclock (nt_schedule net n) (pi_ID intent) (HexToAddress (pi_DestinationAddress intent))
      (amount_of intent) _ (proj1 Hx)) as [Hk Hd]. split; [exact Hk|]. intros d Hr. destruct Hd as (t & Ht & _ & Hf); [by eexists|by exists t]. }
  apply (engine_then _ (fun r x' => forall d, r = Ok d ->
    exists t, read (intentID (pi_ID intent)) (en_mgr (x_engine x')) = Some t /\ ti_Status t <> StatusFailed)).
  { unfold observe. by destruct (on_engine m x). }
  { unfold observe. destruct (on_engine m x) as [r x1]. simpl in *. by intros ? [= <-]. }
  intros [d|err] x' Hx' Hd'.
  - destruct (Hd' d eq_refl) as (t & Ht & Hf). apply report_then; [done|]. split; [done|]. intros _ u Hu. cbn in Hu. congruence.
  - by apply pres_at_ret.
Qed.
Hint Resolve pres_confirm_one pres_send_one : act.

(** *** Sessions and commands *)
Definition closed {A} (body : xact A) : xact A :=
  fun x => let '(r, x) := body x in (r, mkSite (x_db x) (Close (x_engine x)) (x_repo x) (x_calls x) (x_reported x)).
Lemma closed_at {A} (body : xact A) x : pres (from true) body (fun _ => True) -> from true x ->
  pres_at (from false) (closed body) (fun _ => True) x.
Proof.
  intros Hb Hx. destruct (Hb x Hx) as [[Hm Hl] _]. unfold pres_at, closed. destruct (body x) as [r x']. simpl in *. split; [|done].
  destruct (reopened_sound _ (mode_sound true _ Hm)) as [Hs Hi]. apply from_kept; [by split|done|done].
Qed.
Lemma opened_at x : from false x ->
  let '(r, x') := on_engine (OpenWith cfg ch) x in match r with Ok _ => from true x' | Err _ => from false x' end.
Proof.
  intros [[Hs Hr] Hl]. unfold on_engine. pose proof (OpenWith_keeps cfg ch _ Hs) as Ho.
  destruct (OpenWith cfg ch (x_engine x)) as [[u|err] e']; destruct Ho as (Hs' & Hi & Hb); by apply from_kept.
Qed.
Lemma pres_with_engine held {A} (body : xact A) :
  pres (from true) body (fun _ => True) -> pres (from held) (with_engine cfg ch held body) (fun _ => True).
Proof.
  intros Hb. unfold with_engine. destruct held; [done|]. intros x Hx. pose proof (opened_at x Hx) as Ho. unfold bind.
  destruct (on_engine (OpenWith cfg ch) x) as [[u|err] x']; [|done]. by apply (closed_at body x').
Qed.
Lemma pres_confirm held dry opts : pres (from held) (confirmSubmitted cfg ch net held dry opts) (fun _ => True).
Proof.
  unfold confirmSubmitted. apply pres_seq; [auto with act|intros intents].
  apply pres_with_engine, pres_each. intros i. apply pres_confirm_one.
Qed.
Lemma pres_send held dry opts : pres (from held) (sendNativeBatch cfg ch net held dry opts) (fun _ => True).
Proof.
  unfold sendNativeBatch. apply pres_seq; [auto with act|intros loaded]. cbv zeta.
  apply pres_seq; [apply pres_each; auto with act|intros sorted]. cbv zeta. destruct dry; [by apply pres_ret|].
  destruct (omap right_of sorted) as [|i l] eqn:He; [act_auto|]. rewrite <- He. clear He.
  set (body := bind (on_engine (BalanceAt ch)) _).
  assert (pres (from true) body (fun _ => True)) as Hbody.
  { subst body. apply pres_seq; [by apply pres_engine, BalanceAt_keeps|intros balance]. destruct (_ <? _); [act_auto|].
    apply pres_seq; [apply pres_each; auto with act|intros sent]. act_auto. }
  destruct held.
  - apply pres_seq; [by apply pres_ret|]. intros [u|e]; [|act_auto]. intros x Hx.
    destruct (Hbody x Hx) as [Hx' _]. destruct (body x) as [r x']. by split.
  - intros x Hx. pose proof (opened_at x Hx) as Ho. unfold bind at 1 2, observe.
    destruct (on_engine (OpenWith cfg ch) x) as [[u|err] x']; (split; [|done]).
    + by destruct (closed_at body x' Hbody Ho).
    + assert (pres (from false) (run! releaseLeaseIfHeld cfg ch net loaded.1; fail (A := list IntentUpdate * Z) err) (fun _ => True)) as Hp by act_auto.
      by destruct (Hp x' Ho).
Qed.
Hint Resolve pres_confirm pres_send : act.
Lemma pres_once held dry round member limit :
  pres (from held) (reconcileOnce cfg ch net held dry round member limit) (fun _ => True).
Proof.
  unfold reconcileOnce. cbv zeta. apply pres_seq; [eapply pres_true, pres_observe; auto with act|intros [c|e]; [|by apply pres_ret]].
  apply pres_seq; [eapply pres_true, pres_observe; auto with act|intros [q|e]; [|by apply pres_ret]].
  apply pres_seq; [eapply pres_true, pres_observe; auto with act|intros [q'|e]; by apply pres_ret].
Qed.
Hint Resolve pres_once : act.
Lemma pres_reconcile held dry round member limit :
  pres (from held) (reconcile cfg ch net held dry round member limit) (fun _ => True).
Proof. unfold reconcile. act_auto. Qed.
Lemma pres_rounds n dry round member limit :
  pres (from true) (reconcile_rounds cfg ch net n dry round member limit) (fun _ => True).
Proof. induction n as [|n IH]; cbn [reconcile_rounds]; [by apply pres_ret|]. apply pres_seq; [apply pres_reconcile|done]. Qed.
Lemma pres_without {A} held (m : xact A) : pres (from held) m (fun _ => True) -> pres (from held) (without_repo m) (fun _ => True).
Proof.
  intros Hm x Hx. unfold without_repo. destruct (Hm (mkSite (x_db x) (x_engine x) None (x_calls x) (x_reported x))) as [Hx' _]; [by apply (from_same held x)|].
  destruct (m _) as [r x']. split; [|done]. by apply (from_same held x').
Qed.
Lemma pres_discard {A} held (m : xact A) : pres (from held) m (fun _ => True) -> pres (from held) (discard m) (fun _ => True).
Proof. intros Hm. unfold discard. apply pres_seq; [done|intros _; by apply pres_ret]. Qed.
Lemma pres_command c : pres (from false) (run_command cfg ch net c) (fun _ => True).
Proof.
  destruct c; unfold run_command.
  - apply pres_without, pres_discard, pres_confirm.
  - apply pres_without, pres_discard, pres_send.
  - apply pres_reconcile.
  - apply pres_with_engine, pres_rounds.
  - apply pres_discard. unfold runRequeueFailed. act_auto.
  - apply pres_discard. unfold runMarkStatus. act_auto.
  - apply pres_discard. unfold runPrepareBatch. act_auto.
Qed.
End commands.

Section days.
Context `{Bolt M} `{EthText} `{PoolWire}.

(** Clocks are never at the zero time. *)
Definition clocks (ev : site_event M) : Prop := match ev with ECommand _ ch _ _ => clocked ch | EController _ => True end.
Definition at_rest (x : Site M) : Prop := sound (x_engine x) /\ en_running (x_engine x) = ∅.

Lemma site_step_later x ev : clocks ev -> at_rest x -> at_rest (site_step x ev) /\ later x (site_step x ev).
Proof.
  intros Hc Hx. destruct ev as [cfg ch net c|f]; simpl.
  - apply (pres_command cfg ch net x Hc c x). split; [done|apply later_same].
  - split; [done|]. split; [apply since_self|]. exists []. by rewrite app_nil_r.
Qed.
Lemma site_run_later x evs : Forall clocks evs -> at_rest x -> at_rest (site_run x evs) /\ later x (site_run x evs).
Proof.
  intros Hc. revert x. induction Hc as [|ev evs Hev Hc IH]; intros x Hx; [split; [done|apply later_same]|]. simpl.
  destruct (site_step_later x ev Hev Hx) as [Hx1 Hl1]. destruct (IH _ Hx1) as [Hx2 Hl2]. split; [done|]. by eapply later_compose.
Qed.
Definition new_site (db : PoolDB M) (repo : option (M IntentRecord)) : Site M := mkSite db empty_store repo 0 [].
Lemma new_site_rest db repo : at_rest (new_site db repo).
Proof. split; [apply empty_sound|done]. Qed.

(** C27: Whatever commands of the executor run, whatever their configurations, the node, the network and the controller do: a
    command that confirms or sends reports a payout paid only when its transaction intent is confirmed with the hash
    reported, for the recipient and the amount the controller listed.  What an operator reports himself, with mark-submitted,
    mark-paid or mark-failed, is taken on his word and is outside the claim. *)
Theorem paid_report_is_confirmed (db : PoolDB M) (repo : option (M IntentRecord)) (evs : list (site_event M)) :
  Forall (fun ev => match ev with ECommand _ ch _ _ => forall n, w_now (ch_world ch) n <> 0 | EController _ => True end) evs ->
  let x := site_run (mkSite db empty_store repo 0 []) evs in
  forall i hash, Automatic i "paid" hash ∈ x_reported x ->
  exists t, read (intentID (pi_ID i)) (en_mgr (x_engine x)) = Some t /\ ti_Status t = StatusConfirmed /\
    ti_To t = HexToAddress (pi_DestinationAddress i) /\ oc_TxHash (outcome t) = hash /\
    forall amount, SetString10 (TrimSpace (pi_AmountWei i)) = Some amount -> 0 <= amount -> ti_Value t = Some amount.
Proof.
  intros Hc x i hash Hin. destruct (site_run_later (new_site db repo) evs Hc (new_site_rest db repo)) as [_ [_ (new & Hr & Hj)]].
  change (x_reported x = new) in Hr. rewrite Hr in Hin. rewrite Forall_forall in Hj.
  destruct (ju_paid _ _ _ _ _ (Hj _ Hin) eq_refl) as (t & Ht & [Hto Hv] & Hs & Ho). by exists t.
Qed.

(** C34: A payout whose transaction intent failed is never sent again, however often it is requeued: whatever runs after, the
    intent stays failed, no further transaction is sent for it, no command that confirms or sends reports it as submitted
    or paid, and every dispatch of it is refused.  Only an operator's own mark command may still report it otherwise. *)
Theorem requeued_payout_never_sent (db : PoolDB M) (repo : option (M IntentRecord)) (before after : list (site_event M))
    (id : string) (t : TxIntent) :
  Forall (fun ev => match ev with ECommand _ ch _ _ => forall n, w_now (ch_world ch) n <> 0 | EController _ => True end) (before ++ after) ->
  let x1 := site_run (mkSite db empty_store repo 0 []) before in
  let x2 := site_run x1 after in
  read (intentID id) (en_mgr (x_engine x1)) = Some t -> ti_Status t = StatusFailed ->
  read (intentID id) (en_mgr (x_engine x2)) = Some t /\
  (forall s, s ∈ en_log (x_engine x2) -> sd_ID s = intentID id -> s ∈ en_log (x_engine x1)) /\
  (exists new, x_reported x2 = x_reported x1 ++ new /\
    forall i status hash, Automatic i status hash ∈ new -> pi_ID i = id -> status = "failed") /\
  (forall cfg ch schedule to amount, exists err, (Dispatch cfg ch schedule id to amount (x_engine x2)).1 = Err err).
Proof.
  intros [Hb Ha]%Forall_app x1 x2 Hr Hf. destruct (site_run_later (new_site db repo) before Hb (new_site_rest db repo)) as [Hx1 _].
  destruct (site_run_later x1 after Ha Hx1) as [_ [S (new & Hn & Hj)]]. fold x2 in S, Hn.
  assert (read (intentID id) (en_mgr (x_engine x2)) = Some t) as Hr2.
  { destruct (si_lives _ _ S _ _ Hr) as (t' & Hr' & He). by rewrite (ev_failed _ _ _ He Hf eq_refl) in Hr'. }
  split_and!; [done| | |].
  - intros s Hs Hid. eapply (si_quiet _ _ S); [exact Hr|by rewrite Hf|done|done].
  - exists new. split; [done|]. rewrite Forall_forall in Hj. intros i status hash Hin Hid. destruct (decide (status = "failed")) as [|Hne]; [done|].
    destruct (ju_alive _ _ _ _ _ (Hj _ Hin) Hne t); [|done]. by rewrite Hid.
  - intros cfg ch schedule to amount. unfold Dispatch, stop_with, fail. destruct (blank id); [by eexists|]. destruct amount as [amount|]; [|by eexists].
    destruct (amount <=? 0); [by eexists|]. unfold bind at 1, get, Status. rewrite Hr2. destruct (_ || _); [by eexists|].
    destruct schedule; cbn [awaitBroadcast]; rewrite Hf; simpl; unfold fail; by eexists.
Qed.
End days.

(** ** Texts that are not blank *)
Fixpoint within (c : ascii) (s : string) : Prop :=
  match s with "" => False | String a s => a = c \/ within c s end.
Lemma within_app c s t : within c t -> within c (s +:+ t).
Proof. intros Ht. induction s as [|a s IH]; [done|by right]. Qed.
Lemma strip_keeps c two three s :
  space1 c = false -> (forall a, two a c = false /\ two c a = false) ->
  (forall a b, three c a b = false /\ three a c b = false /\ three a b c = false) -> within c s -> within c (strip two three s).
Proof.
  intros H1 H2 H3. remember (String.length s) as n eqn:Hn. revert s Hn. induction (lt_wf n) as [n _ IH]. intros s -> Hin.
  destruct s as [|a s1]; [done|]. cbn [strip]. destruct (space1 a) eqn:Ha.
  { destruct Hin as [<-|Hin]; [congruence|]. by apply (IH (String.length s1)); [simpl; lia|..]. }
  destruct s1 as [|b s2]; [done|]. destruct (two a b) eqn:Hab.
  { destruct Hin as [<-|[<-|Hin]]; [by rewrite (proj2 (H2 b)) in Hab|by rewrite (proj1 (H2 a)) in Hab|].
    by apply (IH (String.length s2)); [simpl; lia|..]. }
  destruct s2 as [|d s3]; [done|]. destruct (three a b d) eqn:Habd; [|done].
  destruct Hin as [<-|[<-|[<-|Hin]]]; [destruct (H3 b d); congruence|destruct (H3 a d) as (_ & ? & _); congruence|destruct (H3 a b) as (_ & _ & ?); congruence|].
  by apply (IH (String.length s3)); [simpl; lia|..].
Qed.
Lemma within_rev c s : within c s -> within c (str_rev s).
Proof.
  unfold str_rev. assert (forall acc, within c s \/ within c acc -> within c (str_rev_onto s acc)) as Hg; [|intros Hin; apply Hg; by left].
  induction s as [|a s IH]; intros acc [Hin|Hin]; simpl in *; [done|done|..]; apply IH; [|by right; right].
  destruct Hin as [->|Hin]; [right; by left|by left].
Qed.
Definition dash : ascii := byte_of 45.
Lemma dash_not_blank s : within dash s -> blank s = false.
Proof.
  intros Hin. unfold blank. apply bool_decide_eq_false. intros E.
  assert (within dash (TrimSpace s)) as Ht; [|by rewrite E in Ht].
  assert (forall a, space2 a dash = false /\ space2 dash a = false) as H2 by (intros a; unfold space2; split; [by rewrite andb_false_r|done]).
  assert (forall a b, space3 dash a b = false /\ space3 a dash b = false /\ space3 a b dash = false) as H3.
  { intros a b. unfold space3. change (byte_val dash) with 45. change (GoCodecs.between 0x80 0x8A dash) with false.
    cbn [Z.eqb Pos.eqb andb orb]. by rewrite ?andb_false_r. }
  unfold TrimSpace, trim_right, trim_left. apply within_rev, strip_keeps; [done|intros a; by destruct (H2 a)|intros a b; split_and!; apply H3|].
  apply within_rev. by apply strip_keeps.
Qed.
Lemma lease_id_visible executor now : blank (lease_id executor now) = false.
Proof. apply dash_not_blank. unfold lease_id. apply within_app. by left. Qed.

(** ** What the controller's answers lead to *)
Section answers.
Context `{Bolt M} `{EthText} `{PoolWire} (cfg : Executor) (ch : Chain) (net : Net).
Open Scope act_scope.
Abbreviation xact := (st (Site M) string).

Definition marked (r : StatusReport) : Prop := match r with Automatic _ _ _ => False | Marked _ _ _ => True end.
(** The engine has never had a payout, and only an operator reported any. *)
Definition barren (x : Site M) : Prop :=
  (forall id, mg_intents (en_mgr (x_engine x)) !! id = None) /\ en_running (x_engine x) = ∅ /\ en_log (x_engine x) = [] /\ Forall marked (x_reported x).
Definition serves (db : PoolDB M) (x : Site M) : Prop := x_db x = db.

Section any.
Variable I : Site M -> Prop.
Hypothesis I_calls : forall x, I x -> I (mkSite (x_db x) (x_engine x) (x_repo x) (S (x_calls x)) (x_reported x)).
Hypothesis I_turns : forall ids x, I x -> I (on_engine (update (turns cfg ch ids)) x).2.

Lemma keep_next_call : pres I next_call (fun _ => True).
Proof. intros x Hx. split; [by apply I_calls|done]. Qed.
Lemma keep_request {A} (serve : Z -> PoolDB M -> presult A * PoolDB M) (Q : A -> Prop) :
  (forall now x, I x -> I (mkSite (serve now (x_db x)).2 (x_engine x) (x_repo x) (x_calls x) (x_reported x)) /\
    forall a, (serve now (x_db x)).1 = Ok a -> Q a) -> pres I (request cfg ch net serve) Q.
Proof.
  intros Hs. unfold request. apply pres_seq; [apply keep_next_call|intros n].
  apply pres_seq; [intros x Hx; split; [by apply I_turns|done]|intros _].
  assert (forall m : presult A -> xact A, (forall r, (forall a, r = Ok a -> Q a) -> pres I (m r) Q) ->
    pres I (do! r <- (fun x => let '(r, db) := serve (nt_now net n) (x_db x) in
                         (Ok r, mkSite db (x_engine x) (x_repo x) (x_calls x) (x_reported x))); m r) Q) as Hm.
  { intros m Hm. apply (pres_bind I _ _ (fun r => forall a, r = Ok a -> Q a)); [|done].
    intros x Hx. destruct (Hs (nt_now net n) x Hx) as [Hx' HQ]. destruct (serve _ _) as [r db]. simpl in *.
    split; [done|]. intros ? [= <-]. done. }
  destruct (nt_fate net n); [apply Hm|apply pres_fail|apply Hm]; intros [a|e] HQ; try apply pres_fail. by apply pres_ret, HQ.
Qed.
Lemma keep_time : pres I (time_now net) (fun _ => True).
Proof. unfold time_now. apply pres_seq; [apply keep_next_call|intros n; by apply pres_ret]. Qed.
Lemma keep_each {A B} (f : A -> xact B) items : items = [] -> pres I (each f items) (fun l => l = []).
Proof. intros ->. by apply pres_ret. Qed.
End any.

(** The database stays as it is under [serves]. *)
Lemma serves_request db {A} (serve : Z -> PoolDB M -> presult A * PoolDB M) (Q : A -> Prop) :
  (forall now, (serve now db).2 = db /\ forall a, (serve now db).1 = Ok a -> Q a) ->
  pres (serves db) (request cfg ch net serve) Q.
Proof. intros Hs. apply keep_request; [done|done|]. intros now x Hx. unfold serves in Hx. rewrite Hx. apply (Hs now). Qed.

(** *** A database with nothing to do *)
Lemma filter_none {A} (f : A -> bool) l : (forall x, x ∈ l -> f x = false) -> List.filter f l = [].
Proof.
  induction l as [|x l IH]; intros Hf; [done|]. cbn [List.filter]. rewrite (Hf x) by by left. apply IH. intros y Hy. apply Hf. by right.
Qed.
Section idle.
Variable db : PoolDB M.
Hypothesis Hidle : forall k i, pd_intents db !! k = Some i -> pi_Status i ∈ ["pending"; "paid"].
Abbreviation I := (serves db).

Lemma idle_listed limit i : i ∈ ListPayoutIntents limit db -> pi_Status i ∈ ["pending"; "paid"].
Proof. intros [k Hk]%newest_elem. by eapply Hidle. Qed.
Lemma idle_normal now limit :
  normalizeExpiredPayoutIntentLeases now (ListPayoutIntents limit db) db = (Ok (ListPayoutIntents limit db), db).
Proof.
  pose proof (idle_listed limit) as Hs. induction (ListPayoutIntents limit db) as [|i l IH]; [done|]. cbn [normalizeExpiredPayoutIntentLeases].
  assert (releaseExpiredLease i now = (i, false)) as ->.
  { unfold releaseExpiredLease, expired. rewrite (bool_decide_false (pi_Status i = "leased")); [done|]. intros E.
    assert (pi_Status i ∈ ["pending"; "paid"]) as Hi by (apply Hs; by left). rewrite E in Hi.
    apply list_elem_of_In in Hi. simpl in Hi. intuition discriminate. }
  rewrite IH; [done|]. intros j Hj. apply Hs. by right.
Qed.
Lemma idle_filter limit round member status : status ∈ ["submitted"; "failed"; "leased"; "exported"] ->
  filterPayoutIntents (ListPayoutIntents limit db) round member status = [].
Proof.
  intros Hst. pose proof (idle_listed limit) as Hs. unfold filterPayoutIntents.
  assert (TrimSpace status = status /\ status <> "" /\ status <> "pending" /\ status <> "paid") as (-> & Hn & Hp & Hd).
  { apply list_elem_of_In in Hst. simpl in Hst. destruct Hst as [<-|[<-|[<-|[<-|[]]]]]; by split_and!. }
  apply filter_none. intros i Hi%Hs. rewrite (bool_decide_false (pi_Status i = status)), (bool_decide_false (status = "")) by
    (done || intros E; rewrite E in Hi; apply list_elem_of_In in Hi; simpl in Hi; destruct Hi as [|[|[]]]; congruence).
  by rewrite andb_false_r.
Qed.
Lemma idle_answered l : pres I (answered cfg l) (fun l' => l' = buildPayoutIntentViews l).
Proof.
  unfold answered. apply (pres_bind I _ _ (fun _ => True)); [eapply pres_true, pres_require|intros _ _]. by apply pres_ret.
Qed.
Lemma idle_list round member status limit : status ∈ ["submitted"; "failed"; "leased"; "exported"] ->
  pres I (list_payouts cfg ch net (mkListOptions round member status limit)) (fun l => l = []).
Proof.
  intros Hst. unfold list_payouts. apply (pres_bind I _ _ (fun l => l = [])).
  - apply serves_request. intros now. unfold list_intents. destruct (_ <? 0); [done|]. rewrite idle_normal. split; [done|].
    intros l [= <-]. by apply idle_filter.
  - intros l ->. apply idle_answered.
Qed.
Lemma idle_claim opts : pres I (ClaimPayoutIntents cfg ch net opts) (fun r => r.2 = [] /\ blank r.1 = false).
Proof.
  unfold ClaimPayoutIntents. apply (pres_bind I _ _ (fun r => r.2 = [] /\ blank r.1 = false)).
  - apply serves_request. intros now. unfold claim. destruct (_ || _); [done|]. rewrite idle_normal, idle_filter by by do 3 right; left.
    split; [by rewrite take_nil|]. rewrite take_nil. intros r [= <-]. split; [done|apply lease_id_visible].
  - intros [l items] [Hi Hl]. simpl in *. subst items. apply (pres_bind I _ _ (fun l' => l' = [])); [apply idle_answered|].
    intros l' ->. by apply pres_ret.
Qed.
Lemma idle_release l : blank l = false -> pres I (releaseLeaseIfHeld cfg ch net l) (fun _ => False).
Proof.
  intros Hl. unfold releaseLeaseIfHeld, ReleasePayoutIntents. rewrite Hl. apply (pres_bind I _ _ (fun _ => False)); [|done].
  apply serves_request. intros now. unfold release. destruct (_ || _); [done|]. cbv zeta. unfold on_lease. rewrite idle_normal.
  rewrite filter_none; [done|]. intros i Hi%idle_listed. unfold holds_lease. rewrite (bool_decide_false (pi_Status i = "leased")); [done|].
  intros E. rewrite E in Hi. apply list_elem_of_In in Hi. simpl in Hi. intuition discriminate.
Qed.

Lemma idle_engine {A} (m : st (Engine M) payout_error A) : pres I (on_engine m) (fun _ => True).
Proof. intros x Hx. split; [|done]. unfold on_engine. by destruct (m (x_engine x)). Qed.
Lemma idle_with_engine held {A} (body : xact A) (Q : A -> Prop) : pres I body Q -> pres I (with_engine cfg ch held body) Q.
Proof.
  intros Hb. unfold with_engine. destruct held; [done|]. apply pres_seq; [apply idle_engine|intros _]. intros x Hx.
  destruct (Hb x Hx) as [Hx' HQ]. by destruct (body x) as [r x'].
Qed.
Lemma idle_confirm held opts round member limit : opts = mkListOptions round member "submitted" limit ->
  pres I (confirmSubmitted cfg ch net held false opts) (fun _ => True).
Proof.
  intros ->. unfold confirmSubmitted. apply (pres_bind I _ _ (fun l => l = [])); [apply idle_list; by left|]. intros l ->.
  apply idle_with_engine. by apply pres_ret.
Qed.
Lemma idle_auto_requeue round member limit :
  pres I (autoRequeueFailed cfg ch net false (mkListOptions round member "failed" limit)) (fun _ => True).
Proof.
  unfold autoRequeueFailed. destruct (negb _); [by apply pres_ret|].
  apply (pres_bind I _ _ (fun l => l = [])); [apply idle_list; right; by left|]. intros l ->. by apply pres_ret.
Qed.
Lemma idle_send held round member limit :
  pres I (sendNativeBatch cfg ch net held false (mkListOptions round member "exported" limit)) (fun _ => False).
Proof.
  unfold sendNativeBatch. apply (pres_bind I _ _ (fun r => r.2 = [] /\ blank r.1 = false)).
  - unfold loadDispatchIntents. cbn [lo_Status]. rewrite (bool_decide_true ("exported" = "exported")) by done. cbn [negb orb].
    apply (pres_bind I _ _ (fun l => l = [])); [apply idle_list; do 2 right; by left|]. intros l ->. cbn [foldl]. apply idle_claim.
  - intros [l items] [Hi Hl]. simpl in Hi, Hl. subst items. cbv zeta. cbn [fst snd].
    apply (pres_bind I _ _ (fun l => l = [])); [by apply keep_each|]. intros sorted ->. cbn [omap list_omap].
    apply (pres_bind I _ _ (fun _ => False)); [by apply idle_release|done].
Qed.
Lemma idle_reconcile held round member limit :
  pres I (reconcile cfg ch net held false round member limit) (fun _ => False).
Proof.
  unfold reconcile. apply (pres_bind I _ _ (fun r => exists e, r.2 = Some e)).
  - unfold reconcileOnce. cbv zeta.
    apply pres_seq; [eapply pres_true, pres_observe, idle_confirm; reflexivity|intros [c|e]; [|by apply pres_ret; eexists]].
    apply pres_seq; [eapply pres_true, pres_observe, idle_auto_requeue|intros [q|e]; [|by apply pres_ret; eexists]].
    apply (pres_bind I _ _ (fun r => forall a, r = Ok a -> False)); [apply pres_observe, idle_send|].
    intros [sent|e] Hsent; [by destruct (Hsent sent)|apply pres_ret; by eexists].
  - intros [res err] [e He]. simpl in He. subst err. apply pres_seq; [|intros _; apply pres_fail].
    unfold persistReconcileState. apply pres_seq; [apply keep_time; done|intros n]. by apply pres_update.
Qed.
End idle.

(** *** A pool's executor *)
Section regional.
Hypothesis Hpool : ex_PoolID cfg <> "".

Lemma answered_regional intents (x : Site M) : intents <> [] -> exists err, (answered cfg intents x).1 = Err err.
Proof.
  intros Hn. unfold answered. destruct intents as [|i l]; [done|]. unfold bind, require, validateRegionalIntents, buildPayoutIntentViews.
  cbn [fmap list_fmap forallb]. rewrite (bool_decide_false (ex_PoolID cfg = "")) by done. cbn [negb].
  rewrite (bool_decide_false (_ = ex_PoolID cfg)) by (cbn; congruence). by eexists.
Qed.
Lemma barren_answered intents : pres barren (answered cfg intents) (fun l => l = []).
Proof.
  intros x Hx. destruct intents as [|i l]; [split; [exact Hx|by intros l [= <-]]|].
  destruct (answered_regional (i :: l) x) as [err He]; [done|]. split; [|rewrite He; by intros ? [=]].
  unfold answered, bind, require. by destruct (validateRegionalIntents _ _).
Qed.
Lemma barren_turns ids x : barren x -> barren (on_engine (update (turns cfg ch ids)) x).2.
Proof.
  intros Hx. pose proof Hx as (_ & Hr & _). unfold on_engine, update. cbn [fst snd].
  assert (turns cfg ch ids (x_engine x) = x_engine x) as ->; [|exact Hx].
  unfold turns. induction ids as [|id ids IH]; [done|]. cbn [foldl].
  assert (turn cfg ch id (x_engine x) = x_engine x) as -> by (unfold turn; by rewrite Hr, lookup_empty). done.
Qed.
Lemma barren_request {A} (serve : Z -> PoolDB M -> presult A * PoolDB M) :
  pres barren (request cfg ch net serve) (fun _ => True).
Proof. apply keep_request; [done|apply barren_turns|]. by intros now x Hx. Qed.
Lemma barren_list opts : pres barren (list_payouts cfg ch net opts) (fun l => l = []).
Proof. unfold list_payouts. apply pres_seq; [apply barren_request|intros l; apply barren_answered]. Qed.
Lemma barren_load dry opts : pres barren (loadDispatchIntents cfg ch net dry opts) (fun r => r.2 = []).
Proof.
  unfold loadDispatchIntents. destruct (_ || _).
  { apply (pres_bind barren _ _ (fun l => l = [])); [apply barren_list|]. intros l ->. by apply pres_ret. }
  apply (pres_bind barren _ _ (fun l => l = [])); [apply barren_list|]. intros l ->. cbn [foldl]. unfold ClaimPayoutIntents.
  apply pres_seq; [apply barren_request|intros r]. apply (pres_bind barren _ _ (fun l => l = [])); [apply barren_answered|].
  intros l ->. by apply pres_ret.
Qed.
Lemma barren_update ids s l ref h why : pres barren (UpdatePayoutIntentStatus cfg ch net ids s l ref h why) (fun _ => True).
Proof. unfold UpdatePayoutIntentStatus. apply pres_seq; [apply barren_request|intros r; eapply pres_true, barren_answered]. Qed.
Lemma barren_requeue ids : pres barren (RequeuePayoutIntents cfg ch net ids) (fun _ => True).
Proof. unfold RequeuePayoutIntents. apply pres_seq; [apply barren_request|intros r; eapply pres_true, barren_answered]. Qed.
Lemma barren_release l : pres barren (releaseLeaseIfHeld cfg ch net l) (fun _ => True).
Proof.
  unfold releaseLeaseIfHeld, ReleasePayoutIntents. destruct (blank l); [by apply pres_ret|]. apply pres_seq; [apply barren_request|intros r].
  apply pres_seq; [eapply pres_true, barren_answered|intros r'; by apply pres_ret].
Qed.
Lemma barren_mark ids s h : pres barren (note (Marked ids s h)) (fun _ => True).
Proof. intros x (Hn & Hr & Hl & Hp). split; [|done]. split_and!; try done. simpl. apply Forall_app. split; [done|by repeat constructor]. Qed.
Hint Resolve barren_update barren_requeue barren_release barren_mark : act.

Lemma nothing_to_resume (m : Manager M) : (forall id, mg_intents m !! id = None) -> Resume m = [].
Proof.
  intros Hn. unfold Resume, ListIntents. assert (ForEach (mg_intents m) = []) as ->; [|done].
  destruct (ForEach (mg_intents m)) as [|[k v] l] eqn:Hf; [done|].
  assert ((k, v) ∈ ForEach (mg_intents m)) as Hin by (rewrite Hf; by left). apply elem_of_ForEach in Hin. by rewrite Hn in Hin.
Qed.
Lemma barren_open x : barren x -> barren (on_engine (OpenWith cfg ch) x).2.
Proof.
  intros (Hn & Hr & Hl & Hp). unfold on_engine, OpenWith. destruct (ch_id ch =? 0); [done|].
  destruct (bindRegionalIdentity cfg ch (reopened (x_engine x))) as [e'|err] eqn:Hb; [|done].
  assert (mg_intents (en_mgr e') = mg_intents (en_mgr (x_engine x)) /\ en_running e' = ∅ /\ en_log e' = []) as (Hn' & Hr' & Hl').
  { unfold bindRegionalIdentity in Hb. repeat match type of Hb with
      | (if ?c then _ else _) = _ => destruct c; try done
      | (match ?c with _ => _ end) = _ => destruct c; try done
      end; by injection Hb as <-. }
  unfold ResumeAll. rewrite nothing_to_resume by (intros id; by rewrite Hn'). cbn [foldl fst snd].
  split_and!; cbn [x_engine x_reported]; try done. intros id. by rewrite Hn'.
Qed.
Lemma barren_session held {A} (body : xact A) :
  pres barren body (fun _ => True) -> pres barren (with_engine cfg ch held body) (fun _ => True).
Proof.
  intros Hb. unfold with_engine. destruct held; [done|]. apply pres_seq; [intros x Hx; split; [by apply barren_open|done]|intros _].
  intros x Hx. destruct (Hb x Hx) as [Hx' _]. destruct (body x) as [r x']. split; [|done].
  destruct Hx' as (? & ? & ? & ?). by split_and!.
Qed.
Lemma barren_confirm held dry opts : pres barren (confirmSubmitted cfg ch net held dry opts) (fun _ => True).
Proof.
  unfold confirmSubmitted. apply (pres_bind barren _ _ (fun l => l = [])); [apply barren_list|]. intros l ->.
  apply barren_session. by apply pres_ret.
Qed.
Lemma barren_auto_requeue dry opts : pres barren (autoRequeueFailed cfg ch net dry opts) (fun _ => True).
Proof.
  unfold autoRequeueFailed. destruct (negb _); [by apply pres_ret|].
  apply (pres_bind barren _ _ (fun l => l = [])); [apply barren_list|]. intros l ->. by apply pres_ret.
Qed.
Lemma barren_send held dry opts : pres barren (sendNativeBatch cfg ch net held dry opts) (fun _ => True).
Proof.
  unfold sendNativeBatch. apply (pres_bind barren _ _ (fun r => r.2 = [])); [apply barren_load|]. intros [l items] Hi. simpl in Hi. subst items.
  cbv zeta. cbn [fst snd]. apply (pres_bind barren _ _ (fun l => l = [])); [by apply keep_each|]. intros sorted ->. cbn [omap list_omap].
  destruct dry; [by apply pres_ret|]. act_auto.
Qed.
Hint Resolve barren_confirm barren_auto_requeue barren_send : act.
Lemma barren_reconcile held dry round member limit : pres barren (reconcile cfg ch net held dry round member limit) (fun _ => True).
Proof.
  unfold reconcile. apply pres_seq.
  - unfold reconcileOnce. cbv zeta. apply pres_seq; [eapply pres_true, pres_observe; auto with act|intros [c|e]; [|by apply pres_ret]].
    apply pres_seq; [eapply pres_true, pres_observe; auto with act|intros [q|e]; [|by apply pres_ret]].
    apply pres_seq; [eapply pres_true, pres_observe; auto with act|intros [q'|e]; by apply pres_ret].
  - intros res. apply pres_seq; [|intros _; act_auto]. unfold persistReconcileState. apply pres_seq; [by apply keep_time|intros n].
    by apply pres_update.
Qed.
Lemma barren_command c : pres barren (run_command cfg ch net c) (fun _ => True).
Proof.
  assert (forall A (m : xact A), pres barren m (fun _ => True) -> pres barren (discard m) (fun _ => True)) as Hd.
  { intros A m Hm. unfold discard. apply pres_seq; [done|intros _; by apply pres_ret]. }
  assert (forall A (m : xact A), pres barren m (fun _ => True) -> pres barren (without_repo m) (fun _ => True)) as Hw.
  { intros A m Hm x Hx. unfold without_repo. destruct (Hm (mkSite (x_db x) (x_engine x) None (x_calls x) (x_reported x))) as [Hx' _]; [done|].
    by destruct (m _) as [r x']. }
  destruct c; unfold run_command.
  - apply Hw, Hd, barren_confirm.
  - apply Hw, Hd, barren_send.
  - apply barren_reconcile.
  - apply barren_session. induction iterations as [|n IH]; cbn [reconcile_rounds]; [by apply pres_ret|].
    apply pres_seq; [apply barren_reconcile|done].
  - apply Hd. unfold runRequeueFailed. apply pres_seq; [eapply pres_true, barren_list|intros items]. act_auto.
  - apply Hd. unfold runMarkStatus. act_auto.
  - apply Hd. unfold runPrepareBatch. apply pres_seq; [eapply pres_true, barren_list|intros items; by apply pres_ret].
Qed.
End regional.
End answers.

Section outcomes.
Context `{Bolt M} `{EthText} `{PoolWire}.

(** C35: A round with nothing to confirm, requeue or send fails: the claim of nothing is answered with a lease, and giving back a
    lease nobody holds is an error.  So [reconcile-once] fails, and [reconcile-loop] ends with an error in its first round,
    whatever the configuration, the node and the network do, once every payout of the controller is paid or not exported yet. *)
Theorem idle_round_stops_loop (cfg : Executor) (ch : Chain) (net : Net) (x : Site M)
    (iterations : nat) (roundID member : string) (limit : Z) :
  (forall id i, pd_intents (x_db x) !! id = Some i -> pi_Status i ∈ ["pending"; "paid"]) ->
  (exists err, (run_command cfg ch net (RReconcile false roundID member limit) x).1 = Err err) /\
  (exists err, (run_command cfg ch net (RLoop (S iterations) false roundID member limit) x).1 = Err err) /\
  x_db (run_command cfg ch net (RLoop (S iterations) false roundID member limit) x).2 = x_db x.
Proof.
  intros Hidle. assert (forall (m : st (Site M) string unit), pres (serves (x_db x)) m (fun _ => False) ->
    (exists err, (m x).1 = Err err) /\ x_db (m x).2 = x_db x) as Herr.
  { intros m Hm. destruct (Hm x) as [Hx HF]; [done|]. split; [|done]. destruct (m x).1 as [u|err]; [by destruct (HF u)|by eexists]. }
  split; [by apply Herr, idle_reconcile|]. apply Herr. apply idle_with_engine. cbn [reconcile_rounds].
  apply (pres_bind _ _ _ (fun _ => False)); [by apply idle_reconcile|done].
Qed.
(** C36: An executor configured for a pool pays nothing: the controller's answers leave out the pool, the batch and the revision of
    an intent, and the executor refuses an answer that lists any intent without them.  However such executors run on a fresh
    store, and whatever the controller holds, no transaction intent is made, nothing is sent, and no status is reported but
    what an operator's own mark commands report. *)
Theorem regional_payouts_never_sent (db : PoolDB M) (repo : option (M IntentRecord)) (evs : list (site_event M)) :
  Forall (fun ev => match ev with ECommand cfg _ _ _ => ex_PoolID cfg <> "" | EController _ => True end) evs ->
  let x := site_run (mkSite db empty_store repo 0 []) evs in
  (forall id, read id (en_mgr (x_engine x)) = None) /\ en_log (x_engine x) = [] /\
  (forall r, r ∈ x_reported x -> exists ids status hash, r = Marked ids status hash) /\
  forall cfg intents, ex_PoolID cfg <> "" -> intents <> [] -> exists err, (answered cfg intents x).1 = Err err.
Proof.
  intros Hevs x. assert (barren x) as (Hn & _ & Hl & Hr).
  { subst x. assert (barren (mkSite db (empty_store (M := M)) repo 0 [])) as Hb.
    { split_and!; try done. intros id. apply lookup_empty. }
    revert Hb. generalize (mkSite db (empty_store (M := M)) repo 0 []). induction Hevs as [|ev evs Hev Hevs IH]; intros x0 Hb; [done|].
    simpl. apply IH. destruct ev as [cfg ch net c|f]; [|done]. by apply (barren_command cfg ch net Hev c x0). }
  split_and!; [|done| |intros cfg intents Hp Hi; by apply answered_regional].
  - intros id. unfold read. by rewrite Hn.
  - intros r Hin. rewrite Forall_forall in Hr. specialize (Hr r Hin). destruct r as [|ids status hash]; [done|]. by exists ids, status, hash.
Qed.
End outcomes.

(** ** A site *)
#[export] Instance demo_eth : EthText := {| HexToAddress s := s; HexToHash s := s |}.
#[export] Instance demo_payout_wire : PoolWire := {| IsHexAddress a := len a =? 42; https_origin u := hasPrefix u "https://" |}.
Definition demo_member : string := "0xmmmmmmmmmmmmmmmmmmmmmmmmmmmmmmmmmmmmmmmm".
Definition demo_payout (status hash ref : string) : PayoutIntent :=
  mkPayoutIntent 0 "" "" "p" (Some 5) "w" "w" demo_member demo_member 1 "native_eth" "20" status (Some 5) None "" "" None
    None None None 0 None ref hash "".
Definition demo_executor (pool : string) : Executor := mkExecutor pool "" 25 "exec" 300 1 1 0 0 0 true 3 3600.
(** A node on which a transaction is final as soon as it is sent, with the given receipt. *)
Definition demo_chain (reverted : bool) : Chain :=
  mkChain "wallet" 1 (fun tx => Ok "h")
    (mkWorld (fun n => 100 + Z.of_nat n) (fun _ => Ok 7) (fun _ => Ok (100, 10)) (fun _ _ => Ok tt)
       (fun _ _ => AnswerReceipt (Some (mkReceipt false (if reverted then 0 else 1) true))))
    (fun _ _ _ => Ok 21000) (fun _ _ => TxNotFound) (fun _ _ => ReceiptNone) (fun _ => Ok None) (fun _ => Ok 1000).
Definition demo_id : string := intentID "p".
Definition demo_net : Net :=
  mkNet (fun n => Z.of_nat n) (fun _ => Delivered) (fun _ => []) (fun _ => [[demo_id]]) (fun _ => []) (fun _ => [demo_id; demo_id]).
Lemma demo_chain_clocked reverted n : w_now (ch_world (demo_chain reverted)) n <> 0.
Proof. simpl. lia. Qed.
Definition demo_site (i : PayoutIntent) : Site (gmap string) :=
  mkSite (put_intent i empty_db) empty_store None 0 [].
Definition demo_confirm (reverted : bool) : site_event (gmap string) :=
  ECommand (demo_executor "") (demo_chain reverted) demo_net (RConfirm "" "" "" 0).
Definition demo_send : site_event (gmap string) :=
  ECommand (demo_executor "") (demo_chain false) demo_net (RSend false "" "" "" 0).

Definition demo_lives : list (Executor * Chain * list call) :=
  [(demo_executor "", demo_chain false, [CDispatch [[demo_id]] "p" demo_member (Some 20); CTurn demo_id])].
Lemma payout_sent_once_witness :
  length (en_log (lives (M := gmap string) empty_store demo_lives)) = 1%nat /\
  forall x y, x ∈ en_log (lives (M := gmap string) empty_store demo_lives) ->
    y ∈ en_log (lives (M := gmap string) empty_store demo_lives) -> sd_ID x = sd_ID y -> tx_To (sd_Tx x) = tx_To (sd_Tx y).
Proof.
  split; [by vm_compute|]. intros x y Hx Hy Hid. apply (payout_sent_once demo_lives); [|done..].
  repeat constructor. apply demo_chain_clocked.
Defined.
Definition demo_submitted_site : Site (gmap string) := demo_site (demo_payout "submitted" "h" "nonce-7").
Lemma demo_clocks (evs : list (site_event (gmap string))) :
  Forall (fun ev => match ev with ECommand _ ch _ _ => exists r, ch = demo_chain r | EController _ => True end) evs ->
  Forall (fun ev => match ev with ECommand _ ch _ _ => forall n, w_now (ch_world ch) n <> 0 | EController _ => True end) evs.
Proof.
  intros Hevs. eapply Forall_impl; [exact Hevs|]. intros [cfg ch net c|f]; [|done]. intros [r ->]. apply demo_chain_clocked.
Qed.
Definition demo_hash : string := "0x6800000000000000000000000000000000000000000000000000000000000000".
Lemma demo_reported : x_reported (site_run demo_submitted_site [demo_confirm false]) = [Automatic (demo_payout "submitted" "h" "nonce-7") "paid" demo_hash].
Proof. by vm_compute. Qed.
Lemma paid_report_is_confirmed_witness :
  exists t, read demo_id (en_mgr (x_engine (site_run demo_submitted_site [demo_confirm false]))) = Some t /\ ti_Status t = StatusConfirmed.
Proof.
  destruct (paid_report_is_confirmed (put_intent (demo_payout "submitted" "h" "nonce-7") empty_db) None [demo_confirm false])
    with (demo_payout "submitted" "h" "nonce-7") demo_hash as (t & Ht & Hs & _).
  - apply demo_clocks. repeat constructor. by eexists.
  - change (Automatic (demo_payout "submitted" "h" "nonce-7") "paid" demo_hash ∈ x_reported (site_run demo_submitted_site [demo_confirm false])).
    rewrite demo_reported. left.
  - exists t. split; [exact Ht|exact Hs].
Defined.
Definition demo_failed_site : Site (gmap string) := site_run demo_submitted_site [demo_confirm true].
Definition demo_requeue : site_event (gmap string) := EController (fun db => (requeue ["p"] 9 db).2).
Lemma requeued_payout_never_sent_witness :
  (exists i, GetPayoutIntent "p" (x_db (site_run demo_failed_site [demo_requeue])) = Ok i /\ pi_Status i = "exported") /\
  exists t, read demo_id (en_mgr (x_engine demo_failed_site)) = Some t /\
    read demo_id (en_mgr (x_engine (site_run demo_failed_site [demo_requeue; demo_send]))) = Some t.
Proof.
  split; [eexists; by vm_compute|].
  destruct (read demo_id (en_mgr (x_engine demo_failed_site))) as [t|] eqn:Hr; [|by vm_compute in Hr]. exists t. split; [done|].
  apply (requeued_payout_never_sent (put_intent (demo_payout "submitted" "h" "nonce-7") empty_db) None [demo_confirm true] [demo_requeue; demo_send] "p" t).
  - apply demo_clocks. repeat constructor; by eexists.
  - exact Hr.
  - assert (ti_Status <$> read demo_id (en_mgr (x_engine demo_failed_site)) = Some StatusFailed) as Hs by by vm_compute.
    rewrite Hr in Hs. by injection Hs.
Defined.
Lemma idle_round_stops_loop_witness :
  exists err, (run_command (demo_executor "") (demo_chain false) demo_net (RLoop 1 false "" "" 0)
    (mkSite (M := gmap string) empty_db empty_store None 0 [])).1 = Err err.
Proof.
  apply (idle_round_stops_loop (demo_executor "") (demo_chain false) demo_net (mkSite empty_db empty_store None 0 []) 0).
  intros id i. simpl. by rewrite lookup_empty.
Defined.
Lemma regional_payouts_never_sent_witness :
  en_log (x_engine (site_run (demo_site (demo_payout "exported" "" ""))
    [ECommand (demo_executor "region") (demo_chain false) demo_net (RSend false "" "" "" 0)])) = [].
Proof.
  apply (regional_payouts_never_sent (put_intent (demo_payout "exported" "" "") empty_db) None
    [ECommand (demo_executor "region") (demo_chain false) demo_net (RSend false "" "" "" 0)]).
  by repeat constructor.
Defined.
